(* ===== verification/_CoqProject ===== *)
-Q . S2P
Prelude.v
EspErr.v
Ringbuf.v
RingbufByte.v
RingbufItem.v
RingbufFifo.v
RingbufSend.v
RingbufChannel.v
EspTimer.v
EspTimerInv.v
EspTimerProps.v
EspTimerApi.v
LogLevel.v
LogHeap.v
LogArray.v
LogProps.v
Crc.v
Flash.v
FlashProps.v
PartTable.v
OtaData.v
OtaDataProps.v
Boot.v
BootProps.v
Ota.v
OtaProps.v
OtaLife.v
PartTableProps.v
OtaWrite.v
OtaSafe.v
EspEvent.v
EspEventProps.v
EspEventSpec.v
EspEventOrder.v
EspEventEnd.v
Mmu.v
MmuProps.v
MmuSpec.v
MmuMap.v
MmuUnmap.v
MmuLife.v
MmuTrip.v
BootFlash.v
Image.v
ImageMem.v
ImageProps.v
ImageSpec.v
ImageWhole.v
ImageFrame.v
ImageLoad.v
ImageBoot.v
Threads.v
BusLock.v
SpiMaster.v
BusLockBits.v
SpiInv.v
SpiStep.v
SpiTask.v
SpiIntr.v
SpiBus.v
SpiRuns.v
IntrAlloc.v
IntrInv.v
IntrChoice.v
IntrOps.v
IntrLife.v
IntrProps.v
IntrRuns.v
