(* ===== verification/Prelude.v ===== *)
(** * ESP-IDF core components: a verification development (root file)

    The development models core components of ESP-IDF v5.5.5 and proves what
    their users rely on.  The C sources are under [src/components].

    ** Parts and files

    - Prelude (this file): assertions and early aborts as [option], machine
      integers, the byte memory [mem], lemmas and tactics that all parts share.
      [EspErr]: the error codes of [esp_common/include/esp_err.h].
    - The ring buffer, [esp_ringbuf/ringbuf.c].  [Ringbuf] has one definition
      per C function on a record with the fields of the C struct.  [RingbufByte]
      relates byte buffers to a queue of bytes; [RingbufItem] (the chain of
      blocks in the storage), [RingbufFifo] (receiving and returning) and
      [RingbufSend] (sending) relate item buffers to a queue of items;
      [RingbufChannel] has the theorems about whole sequences of calls.
    - The timer service, [esp_timer/src/esp_timer.c] with the alarm registers
      below it.  [EspTimer] has the operations, [EspTimerInv] the invariant,
      [EspTimerProps] dispatching over whole runs, [EspTimerApi] single calls.
    - Log levels of tags, [log/src/log_level].  [LogLevel] has the linked list
      and lookup against the interface [LogCache]; [LogHeap] and [LogArray] are
      its two instances; [LogProps] has the theorems about sequences of calls.
    - Booting and updating.  [Crc] is [esp_rom/patches/esp_rom_crc.c].  [Flash]
      is the NOR flash, partitions, iterators and guards of [esp_partition];
      [FlashProps] their properties.  [PartTable] is the table in flash, read by
      the application ([load_partitions]) and by the bootloader
      ([bootloader_utility_load_partition_table]).  [OtaData] has the two OTA
      selection entries and the secure version, [OtaDataProps] what interrupted
      writes leave of an entry.  [Boot] is the bootloader's choice of an image
      ([bootloader_utility.c]), [BootProps] its abstract step and the order of
      fallback.  [Ota] is [app_update/esp_ota_ops.c]; [OtaProps], [OtaLife],
      [OtaWrite] and [OtaSafe] hold its theorems; [PartTableProps] connects the
      two loaders.
    - Event loops, [esp_event/esp_event.c] and [default_event_loop.c].
      [EspEvent] has the handler lists and all operations, [EspEventProps] what
      each does to the sequence of registrations, [EspEventSpec] the invariant
      and unregistering, [EspEventOrder] the refinement of the abstract loop,
      [EspEventEnd] termination and the runs where the code surprises.
    - The memory map, [esp_mm/esp_mmu_map.c] over [hal/mmu_hal.c] and the MMU
      table of the ESP32-S3 ([hal/esp32s3/include/hal/mmu_ll.h]).  [Mmu] has the
      definitions, [MmuProps] words of the table and gaps between blocks,
      [MmuSpec] the invariant, [MmuMap] and [MmuUnmap] the outcomes of requests,
      [MmuLife] all reachable states, [MmuTrip] round trips and the requests
      that break the driver.
    - Images, [bootloader_support/src/esp_image_format.c] on the ESP32-S3.
      [BootFlash] is how the bootloader reads the flash through the MMU table
      ([bootloader_flash.c]) and proves the interface [FlashPort] with its laws
      [FlashPortSpec]; [Image] has one definition per C function, against the
      interface, in a monad of state and errors.  [ImageMem] has the addresses
      that may be written, [ImageProps] one segment in pieces, [ImageSpec] the
      format and all segments, [ImageWhole] the whole image ([image_wf]),
      [ImageFrame] what loading writes whatever is in the flash, [ImageLoad] the
      RAM after loading, [ImageBoot] the theorems, the
      composition with [Boot], and runs on a small image.
    - A shared SPI bus, [esp_hw_support/spi_bus_lock.c] and the part of
      [esp_driver_spi/src/gpspi/spi_master.c] that uses it.  [Threads] is the
      common part for concurrent code: programs of atomic steps ([prog]), tasks
      and an interrupt that interleave ([exec], [reachable]), a program logic
      ([wp]) and its soundness ([exec_ok]).  [BusLock] has every function of the
      lock as a program on the record [bus_lock], [SpiMaster] the functions of
      the driver and its interrupt handler [spi_intr] on [spi_host].
      [BusLockBits] reads the status word as bits of devices, [SpiInv] says who
      has the bus and is the invariant, [SpiStep] keeps it through each access
      of a task, [SpiTask] through each function, [SpiIntr] through the
      interrupt.  [SpiBus] has the clients, the rules they follow ([legal]) and
      the theorems; [SpiRuns] a host with two devices, runs, and what breaks.
    - The interrupt allocator, [esp_hw_support/intr_alloc.c] on the ESP32-S3
      with [rtc_module.c], [esp_cpu_intr.c] and [xtensa_intr.c].  [IntrAlloc] has
      the vectors, the masks and one definition per C function.  [IntrInv] has
      the abstract list of allocations and relates it to the state line by line,
      [IntrChoice] says which line a request can use and that the search finds
      the best one, [IntrOps] has enabling, disabling and freeing, [IntrLife]
      allocating, [IntrProps] all reachable states and the theorems, [IntrRuns]
      runs on two CPUs.

    The parts interact as in the code: the bootloader and the application share
    nothing but the flash contents ([mem]); the relation [views] says that the
    application's list and the bootloader's state describe the same partitions,
    and [PartTableProps.loaders_agree] shows that it holds for what both load
    from one table.  [Boot] takes the verification of images as the parameter
    [image_ok]; [ImageBoot.boot_choice_loads] instantiates it with [image_wf],
    for which the other theorems of [ImageBoot] hold.  The handlers that an event loop executes may call its
    interface: the dispatching functions of [EspEvent] take the calls that each
    execution makes as an argument and run them on the same state.  The lock of
    the bus reaches the driver only through the class [BusClient] (switching the
    interrupt), the driver reaches the lock through its functions.

    ** What the theorems show

    - Refinement: ring buffers are FIFO channels of items or bytes over any
      sequence of calls; log levels are a finite map, with a cache if the texts of
      the tags differ; the two loaders of the partition table agree, or differ in
      the ways that [loaders_agree] lists; an event loop used by its instance
      interface is a list of registrations in order and a queue of posts; the
      MMU table translates
      exactly the mapped blocks; an interrupt runs the enabled handlers of its
      line, and its source is connected while there is one; the image that the bootloader chooses is one
      that loads; the life of an update with rollback follows
      the documented state diagram.
    - Concurrency: in every interleaving of tasks and the interrupt on one core,
      no assertion of the SPI driver or its lock fails and the bus has one user
      ([SpiBus]).
    - Safety: a timer never fires early and no due timer is left; choosing an
      OTA slot is atomic under a power failure at any byte; no sequence of
      update calls changes the running application, unless a copy is directed
      at it; with anti-rollback no older image boots; without the anti-rollback
      check no image whatever is written over the bootloader that loads it, with
      it none that fails no assertion; deleted timers and unregistered handlers are not called; while the cache is
      disabled only interrupts in IRAM are enabled.
    - Liveness and termination: everything accepted by a ring buffer can be
      received, and the storage is free again; the dispatching of timers ends
      when the callbacks make no calls, that of events whatever calls the
      handlers make; a copy of a partition ends; the interrupt of an SPI
      bus ends from every reachable state; when nothing can go on, no queued
      transaction is left on an idle bus and no wake-up was lost.
    - Functional behaviour, equivalences and round trips: catching up of periodic
      timers, free sizes, the order of fallback images, eviction from the heap
      cache, an image written in pieces, CRC tables against the division, erase,
      write and read, images accepted exactly if well-formed (of those that stop
      no assertion), the contents of RAM after loading, start and stop of a timer, heap and array cache, requests
      to the memory map and unmapping, both directions of its translation,
      queued SPI transactions and their results in order.
    - Error behaviour and bounds: requests for an interrupt line are refused
      exactly if no line can be used, requests to the memory map as their outcome
      says, calls with a handle are answered on any
      CPU, the refusals of [esp_ota_begin], the form of an
      accepted partition table, external partitions, the guards of the flash
      driver.
    - Concrete runs record where the code does not do what its documentation
      says; the manifest lists them as findings.

    ** Conventions, fuel and bounds

    A failed assertion, an abort, an access to memory that is not there or a
    division by zero is [None].  Integers are [Z]; [u32], [s32], ... are written
    where the C code converts or can wrap.  Pointers are addresses, except that
    a pointer into the partition list is the partition itself.  An address
    stands for the object that was allocated: it is not given again after the
    object was freed, so programs that use a handle after freeing it are outside
    of the model ([EspEvent.calloc]).  Locks make a function one step; where the
    code unlocks (blocking in the ring buffer, callbacks of timers), what others
    do meanwhile is an argument (a list of wake-ups, of rounds).  Two functions
    read shared state before they lock, the lookup of a log level and
    [esp_timer_restart]: the part under the lock is a definition of its own
    ([level_get_locked], [restart_locked]), the function is the call without
    interruption, and [stale_default_cached] and [restart_race] are calls that
    are interrupted.  [esp_ota_get_running_partition] keeps its first result
    ([get_running_partition_kept]); the operations use the search, which gives
    the same while the table is loaded.  The SPI bus is finer: each access to shared state is a
    step, a critical section is one step.  On one core tasks stand still while
    the interrupt runs ([one_core]); with two cores they do not, and
    [spi_two_cores_crash] is a run that crashes.  Clients keep the documented
    rules ([legal]): results are fetched before there are more than the queue
    holds, and a bus is not released with a queued transaction in flight.

    The interrupt matrix, the table of handlers and the mask of enabled lines are
    fields of the state of the interrupt allocator, in any state at boot.  Its
    legal callers use handles of live allocations, sources other than 0 and
    reserve only unused lines.

    Loops that are not over a list have fuel.  The walks of the ring buffer get
    [walk_fuel], more than the number of headers in the storage; the theorems
    show that it is never used up (running out is [None]).  The loop of
    [esp_rewrite_ota_data] gets [seq / count + 1] steps ([next_seq_slot]).  The
    verification of a table makes 96 steps and the application's loader 128,
    as in the code.  The copying of a partition gets one iteration per byte and
    one per answer of the mapping driver ([mmap_answers]), and
    [partition_copy_ends] shows that it ends.  [verify_loop] and [visited] get one step per partition and
    one more.  The loop over timers that are due has one round per iteration, and
    [dispatch_terminates] bounds their number.  A loop over a list of handlers or
    nodes gets one step per element and one per call that the handlers will make
    ([foreach]); [loop_run_returns] shows that this is enough.  A segment gets one
    piece per page of its length and one more ([chunk_fuel]); running out is
    [None], which [verify_accepts_wellformed] excludes.  The loop of the SPI
    interrupt gets [DEV_NUM_MAX + 1] iterations ([intr_rounds]), since each one
    that repeats has ended the requests of a device; running out crashes, which
    [spi_holder_alone] excludes.  Words for obfuscation
    are drawn from a list ([draws]); the theorems ask that one draw of the list
    is not zero ([obfs_ready]).

    Flash is NOR flash with a list of outcomes: an operation completes or stops
    after some bytes with an error.  Its contents are what the application reads
    (decrypted where it is encrypted); that flash encryption programs whole
    blocks is not modelled beyond the caching in [esp_ota_write].  The theorems
    on choosing an application start from entries that were written completely
    or never ([updatable]).  The theorems that an image is accepted or refused, as
    opposed to what it can overwrite, are about images that the bus can map and
    that fail no assertion ([image_safe]).  Parameters stand for
    code outside the model: MD5, SHA-256, the eFuses, the verification of images
    in [Boot] and [Ota] ([image_ok]), mapping ([mapped], [mmap_answers]), allocation
    (booleans), the address of the running code ([phys_offs]), and the
    configuration switches.

    ** Not modelled

    - In the modelled components: printing and profiling ([esp_timer_dump],
      [xRingbufferPrintInfo]), allocation with capabilities, memory mapping and
      SHA-256 of partitions, the Linux emulation of flash, the timer hardware,
      secure boot and flash encryption, the TEE, writing and erasing through the
      ROM, images of other chips, what loading without validation leaves in RAM
      (the theorems only say what it does not overwrite), retained
      RTC memory, [esp_ota_get_bootloader_description], [esp_event_dump] and the
      waiting of tasks for a mutex or for room in the queue of an event loop,
      whose outcome is an argument; the MMU tables of other chips; registers,
      DMA and the sequences of descriptors (SCT) of the SPI peripheral, the
      static lock of the main flash bus; [esp_intr_dump], the tracing wrapper of
      handlers (APPTRACE_SV), the acknowledgement of edges, handlers that change
      the list of their own line while it runs, and an allocation bound to a
      handle of the other CPU in the theorems ([bind_replaces_handler] shows why).
    - The FreeRTOS kernel apart from [vListInsert], [heap], [nvs_flash], the rest
      of [esp_hw_support] (clocks, sleep), [esp_http_server], [vfs], [spi_flash] below
      [esp_flash_write] and other components have logic of their own that could
      be modelled the same way; the manifest lists them as not modelled.
    - Drivers, [hal], [soc] and [esp_rom] apart from the CRCs are register
      accesses and generated register tables, whose behaviour is the hardware's.
      [bt], [esp_wifi], [lwip], [mbedtls], [newlib], [fatfs], [openthread],
      [protocomm] and the like are third-party code or bindings to it.  Tools,
      examples, tests and build scripts are not part of the program. *)

From Stdlib Require Export ZArith Lia Bool.
From stdpp Require Export base numbers list gmap.

#[export] Set Default Goal Selector "!".
#[global] Open Scope Z_scope.

(** ** Assertions and early aborts

    [configASSERT e] and [assert(e)] stop the system when [e] is false.  A
    definition that models a function with assertions returns an [option];
    [None] is the aborted run, so "no assertion fires" is a theorem. *)

Declare Scope cmodel_scope.
Delimit Scope cmodel_scope with cm.

Notation "'configASSERT' e ; k" := (if e%Z then k else None)
  (at level 10, e at level 100, k at level 200) : cmodel_scope.
Notation "'let?' x := e 'in' k" := (match e with Some x => k | None => None end)
  (at level 10, x pattern, e at level 100, k at level 200) : cmodel_scope.
Open Scope cmodel_scope.

(** ** Machine integers

    [u32], [s32], [u64], ... give the value a C conversion to that type has. *)

Definition uN (n v : Z) : Z := v mod 2 ^ n.
Definition sN (n v : Z) : Z := (v + 2 ^ (n - 1)) mod 2 ^ n - 2 ^ (n - 1).
Abbreviation u8 := (uN 8).
Abbreviation u16 := (uN 16).
Abbreviation u32 := (uN 32).
Abbreviation u64 := (uN 64).
Abbreviation s32 := (sN 32).
Abbreviation s64 := (sN 64).

Lemma uN_id n v : 0 <= v < 2 ^ n -> uN n v = v.
Proof. apply Z.mod_small. Qed.

Lemma uN_range n v : 0 <= n -> 0 <= uN n v < 2 ^ n.
Proof. intros. apply Z.mod_pos_bound. lia. Qed.

Lemma sN_id n v : 0 < n -> - 2 ^ (n - 1) <= v < 2 ^ (n - 1) -> sN n v = v.
Proof.
  intros Hn Hv. unfold sN.
  assert (2 ^ n = 2 * 2 ^ (n - 1)) as E
    by (rewrite <- Z.pow_succ_r by lia; f_equal; lia).
  rewrite Z.mod_small by lia. lia.
Qed.

Lemma uN_neg n v : - 2 ^ n <= v < 0 -> uN n v = v + 2 ^ n.
Proof.
  intros Hv. unfold uN.
  rewrite <- (Z_mod_plus_full v 1 (2 ^ n)), Z.mul_1_l. apply Z.mod_small. lia.
Qed.

Lemma u32_id v : 0 <= v < 4294967296 -> u32 v = v.
Proof. apply (uN_id 32). Qed.

Lemma u32_neg v : - 4294967296 <= v < 0 -> u32 v = v + 4294967296.
Proof. apply (uN_neg 32). Qed.

Lemma u32_range v : 0 <= u32 v < 4294967296.
Proof. apply (uN_range 32). lia. Qed.

Lemma s32_id v : - 2147483648 <= v < 2147483648 -> s32 v = v.
Proof. apply (sN_id 32). lia. Qed.

Lemma u64_id v : 0 <= v < 2 ^ 64 -> u64 v = v.
Proof. apply (uN_id 64). Qed.

Create Rewrite HintDb cint.
#[export] Hint Rewrite u32_id s32_id u64_id using lia : cint.

(** Case analysis on the comparisons of the goal. *)
Ltac cmp_step :=
  match goal with
  | |- context [?a <? ?b] => destruct (Z.ltb_spec a b)
  | |- context [?a <=? ?b] => destruct (Z.leb_spec a b)
  | |- context [?a =? ?b] => destruct (Z.eqb_spec a b)
  | |- context [?a >? ?b] => destruct (Z.gtb_spec a b)
  | |- context [?a >=? ?b] => destruct (Z.geb_spec a b)
  end.
Ltac cmp_cases := repeat cmp_step.

(** ** Flag words

    [flag f b] is the C test [(f & b) != 0]. *)

Definition flag (f b : Z) : bool := negb (Z.land f b =? 0).

Lemma flag_bit f k : 0 <= k -> flag f (2 ^ k) = Z.testbit f k.
Proof.
  intros Hk. unfold flag. destruct (Z.testbit f k) eqn:E.
  - apply negb_true_iff, Z.eqb_neq. intros H.
    apply (f_equal (fun x => Z.testbit x k)) in H.
    rewrite Z.land_spec, E, Z.pow2_bits_true, Z.bits_0 in H by lia. discriminate.
  - apply negb_false_iff, Z.eqb_eq. apply Z.bits_inj'. intros i Hi.
    rewrite Z.land_spec, Z.bits_0, Z.pow2_bits_eqb by lia.
    destruct (Z.eqb_spec k i) as [->|]; [rewrite E|rewrite andb_false_r]; done.
Qed.

Lemma flag_lor f b k : 0 <= k -> flag (Z.lor f b) (2 ^ k) = flag f (2 ^ k) || flag b (2 ^ k).
Proof. intros. rewrite !flag_bit by lia. apply Z.lor_spec. Qed.

Lemma flag_clear f b k :
  0 <= k -> flag (Z.land f (Z.lnot b)) (2 ^ k) = flag f (2 ^ k) && negb (flag b (2 ^ k)).
Proof. intros. rewrite !flag_bit by lia. rewrite Z.land_spec, Z.lnot_spec by lia. done. Qed.

Lemma flag_0 b : flag 0 b = false.
Proof. unfold flag. rewrite Z.land_0_l. done. Qed.

(** ** Byte-addressed memory

    A memory gives the byte at every address; 32-bit loads and stores are
    little-endian, as on the Xtensa and RISC-V targets. *)

Definition mem := Z -> Z.

Definition store_bytes (m : mem) (a : Z) (bs : list Z) : mem :=
  fun x => if (a <=? x) && (x <? a + Z.of_nat (length bs))
           then default 0 (bs !! Z.to_nat (x - a)) else m x.

Definition load_bytes (m : mem) (a : Z) (n : Z) : list Z :=
  (fun i => m (a + Z.of_nat i)) <$> seq 0 (Z.to_nat n).

Definition bytes32 (v : Z) : list Z :=
  [v mod 256; (v / 256) mod 256; (v / 65536) mod 256; (v / 16777216) mod 256].

Definition store32 (m : mem) (a v : Z) : mem := store_bytes m a (bytes32 v).

Definition load32 (m : mem) (a : Z) : Z :=
  m a + 256 * m (a + 1) + 65536 * m (a + 2) + 16777216 * m (a + 3).

Lemma store_bytes_other m a bs x :
  x < a \/ a + Z.of_nat (length bs) <= x -> store_bytes m a bs x = m x.
Proof.
  intros H. unfold store_bytes.
  destruct (Z.leb_spec a x), (Z.ltb_spec x (a + Z.of_nat (length bs))); simpl; auto; lia.
Qed.

Lemma store_bytes_inside m a bs i :
  0 <= i < Z.of_nat (length bs) ->
  store_bytes m a bs (a + i) = default 0 (bs !! Z.to_nat i).
Proof.
  intros H. unfold store_bytes.
  rewrite (proj2 (Z.leb_le _ _)), (proj2 (Z.ltb_lt _ _)) by lia. simpl.
  by replace (a + i - a) with i by lia.
Qed.

Lemma store32_other m a v x : x < a \/ a + 4 <= x -> store32 m a v x = m x.
Proof. intros. apply store_bytes_other. simpl. lia. Qed.

Lemma load32_ext m1 m2 a :
  (forall x, a <= x < a + 4 -> m1 x = m2 x) -> load32 m1 a = load32 m2 a.
Proof. intros H. unfold load32. rewrite !H by lia. done. Qed.

Lemma load32_store32 m a v : 0 <= v < 4294967296 -> load32 (store32 m a v) a = v.
Proof.
  intros Hv. unfold load32, store32.
  replace a with (a + 0) at 2 by lia.
  rewrite !store_bytes_inside by (simpl; lia). simpl.
  Z.div_mod_to_equations. lia.
Qed.

Lemma load32_store32_ne m a b v :
  a + 4 <= b \/ b + 4 <= a -> load32 (store32 m b v) a = load32 m a.
Proof. intros. apply load32_ext. intros. apply store32_other. lia. Qed.

Lemma load32_store_bytes_ne m a b bs :
  a + 4 <= b \/ b + Z.of_nat (length bs) <= a ->
  load32 (store_bytes m b bs) a = load32 m a.
Proof. intros. apply load32_ext. intros. apply store_bytes_other. lia. Qed.

Lemma length_load_bytes m a n : length (load_bytes m a n) = Z.to_nat n.
Proof. unfold load_bytes. by rewrite length_fmap, length_seq. Qed.

Lemma load_bytes_lookup m a n i :
  0 <= Z.of_nat i < n -> load_bytes m a n !! i = Some (m (a + Z.of_nat i)).
Proof.
  intros. unfold load_bytes. rewrite list_lookup_fmap, lookup_seq_lt by lia. done.
Qed.

Lemma load_bytes_ext m1 m2 a n :
  (forall x, a <= x < a + n -> m1 x = m2 x) -> load_bytes m1 a n = load_bytes m2 a n.
Proof.
  intros H. unfold load_bytes. apply list_fmap_ext. intros i x Hx.
  apply lookup_seq in Hx as [-> Hi]. apply H. lia.
Qed.

Lemma load_bytes_app m a n1 n2 :
  0 <= n1 -> 0 <= n2 ->
  load_bytes m a (n1 + n2) = load_bytes m a n1 ++ load_bytes m (a + n1) n2.
Proof.
  intros H1 H2. unfold load_bytes. rewrite Z2Nat.inj_add, seq_app, fmap_app by lia.
  f_equal. rewrite Nat.add_0_l.
  rewrite <- (Nat.add_0_r (Z.to_nat n1)) at 1.
  rewrite <- fmap_add_seq, <- list_fmap_compose. apply list_fmap_ext.
  intros i x Hx. simpl. f_equal. lia.
Qed.

Lemma load_bytes_0 m a n : n <= 0 -> load_bytes m a n = [].
Proof. intros. unfold load_bytes. by replace (Z.to_nat n) with 0%nat by lia. Qed.

Lemma load_store_bytes m a bs n :
  n = Z.of_nat (length bs) -> load_bytes (store_bytes m a bs) a n = bs.
Proof.
  intros ->. apply list_eq. intros i.
  destruct (decide (i < length bs)%nat) as [Hi|Hi].
  - rewrite load_bytes_lookup, store_bytes_inside, Nat2Z.id by lia.
    destruct (lookup_lt_is_Some_2 bs i Hi) as [x ->]. done.
  - rewrite !lookup_ge_None_2; rewrite ?length_load_bytes; lia || done.
Qed.

Lemma load_bytes_store_ne m a n b bs :
  a + n <= b \/ b + Z.of_nat (length bs) <= a ->
  load_bytes (store_bytes m b bs) a n = load_bytes m a n.
Proof. intros. apply load_bytes_ext. intros. apply store_bytes_other. lia. Qed.

Lemma load_bytes_store32_ne m a n b v :
  a + n <= b \/ b + 4 <= a -> load_bytes (store32 m b v) a n = load_bytes m a n.
Proof. intros. apply load_bytes_store_ne. simpl. lia. Qed.

Lemma take_load_bytes m a n k :
  0 <= k <= n -> take (Z.to_nat k) (load_bytes m a n) = load_bytes m a k.
Proof.
  intros. replace n with (k + (n - k)) by lia. rewrite load_bytes_app by lia.
  rewrite take_app_length'; rewrite ?length_load_bytes; lia || done.
Qed.

Lemma drop_load_bytes m a n k :
  0 <= k <= n -> drop (Z.to_nat k) (load_bytes m a n) = load_bytes m (a + k) (n - k).
Proof.
  intros. replace n with (k + (n - k)) at 1 by lia. rewrite load_bytes_app by lia.
  rewrite drop_app_length'; rewrite ?length_load_bytes; lia || done.
Qed.

(** ** Lists of pairs *)

Lemma elem_of_fst {A B} (l : list (A * B)) x y : (x, y) ∈ l -> x ∈ l.*1.
Proof. intros. apply list_elem_of_fmap. by exists (x, y). Qed.

Lemma fst_elem_of {A B} (l : list (A * B)) x : x ∈ l.*1 -> exists y, (x, y) ∈ l.
Proof. intros ([? y] & -> & ?)%list_elem_of_fmap. by exists y. Qed.

(** ** Overwriting an element of a list *)

Lemma insert_lookup_inv {A} (l : list A) i x j y :
  <[i := x]> l !! j = Some y -> (j = i /\ y = x /\ (i < length l)%nat) \/ (j <> i /\ l !! j = Some y).
Proof.
  intros H. destruct (decide (j = i)) as [->|Hne].
  - pose proof (lookup_lt_Some _ _ _ H) as Hi. rewrite length_insert in Hi.
    rewrite list_lookup_insert_eq in H by done. left. naive_solver.
  - right. rewrite list_lookup_insert_ne in H by done. done.
Qed.

Lemma elem_of_insert_inv {A} (l : list A) i x y : y ∈ <[i := x]> l -> y = x \/ y ∈ l.
Proof.
  intros [j Hj]%list_elem_of_lookup. apply insert_lookup_inv in Hj as [(_ & -> & _)|[_ Hj]]; [by left|].
  right. by eapply list_elem_of_lookup_2.
Qed.

Lemma NoDup_insert_list {A} (l : list A) i x : NoDup l -> x ∉ l -> NoDup (<[i := x]> l).
Proof.
  intros Hn Hx. apply NoDup_alt. intros j k y Hj Hk.
  apply insert_lookup_inv in Hj as [(-> & -> & _)|[_ Hj]], Hk as [(-> & E & _)|[_ Hk]]; try done.
  - destruct Hx. by eapply list_elem_of_lookup_2.
  - destruct Hx. subst. by eapply list_elem_of_lookup_2.
  - by eapply NoDup_lookup.
Qed.

Lemma alter_insert {A} (f : A -> A) (l : list A) i x : l !! i = Some x -> alter f i l = <[i := f x]> l.
Proof.
  intros E. apply list_eq. intros j. destruct (decide (j = i)) as [->|].
  - rewrite list_lookup_alter_eq, list_lookup_insert_eq, E by (by eapply lookup_lt_Some). done.
  - by rewrite list_lookup_alter_ne, list_lookup_insert_ne.
Qed.

(** ** Words bit by bit *)

Lemma testbit_uN n v i : 0 <= n -> 0 <= i -> Z.testbit (uN n v) i = (i <? n) && Z.testbit v i.
Proof.
  intros Hn Hi. unfold uN. destruct (Z.ltb_spec i n).
  - by rewrite Z.mod_pow2_bits_low.
  - by rewrite Z.mod_pow2_bits_high by lia.
Qed.

Lemma testbit_high n v i : 0 <= v < 2 ^ n -> n <= i -> Z.testbit v i = false.
Proof.
  intros Hv Hi. assert (0 <= n) by (destruct (decide (0 <= n)); [done|rewrite Z.pow_neg_r in Hv; lia]).
  rewrite <- (uN_id n v), testbit_uN by lia.
  by rewrite (proj2 (Z.ltb_ge _ _)) by lia.
Qed.

Lemma uN_lxor n a b : 0 <= n -> uN n (Z.lxor a b) = Z.lxor (uN n a) (uN n b).
Proof.
  intros Hn. apply Z.bits_inj'. intros i Hi. rewrite Z.lxor_spec, !testbit_uN, Z.lxor_spec by lia.
  by destruct (i <? n).
Qed.

Lemma lxor_range n a b : 0 <= n -> 0 <= a < 2 ^ n -> 0 <= b < 2 ^ n -> 0 <= Z.lxor a b < 2 ^ n.
Proof.
  intros Hn Ha Hb. rewrite <- (uN_id n a), <- (uN_id n b), <- uN_lxor by lia. apply uN_range. lia.
Qed.

Lemma uN_lnot n a : 0 <= n -> 0 <= a < 2 ^ n -> uN n (Z.lnot a) = 2 ^ n - 1 - a.
Proof.
  intros Hn Ha. unfold Z.lnot. unfold uN. rewrite <- (Z_mod_plus_full _ 1). rewrite Z.mod_small; lia.
Qed.
