(* ===== verification/EspErr.v ===== *)
(** * Error codes

    [components/esp_common/include/esp_err.h], shared by the components whose
    functions return [esp_err_t]. *)

From S2P Require Import Prelude.

Definition esp_err_t := Z.
Definition ESP_OK : esp_err_t := 0.
Definition ESP_FAIL : esp_err_t := -1.
Definition ESP_ERR_NO_MEM : esp_err_t := 0x101.
Definition ESP_ERR_INVALID_ARG : esp_err_t := 0x102.
Definition ESP_ERR_INVALID_STATE : esp_err_t := 0x103.
Definition ESP_ERR_INVALID_SIZE : esp_err_t := 0x104.
Definition ESP_ERR_NOT_FOUND : esp_err_t := 0x105.
Definition ESP_ERR_NOT_SUPPORTED : esp_err_t := 0x106.
Definition ESP_ERR_TIMEOUT : esp_err_t := 0x107.
Definition ESP_ERR_INVALID_RESPONSE : esp_err_t := 0x108.
Definition ESP_ERR_INVALID_CRC : esp_err_t := 0x109.
Definition ESP_ERR_INVALID_VERSION : esp_err_t := 0x10A.
Definition ESP_ERR_INVALID_MAC : esp_err_t := 0x10B.
Definition ESP_ERR_NOT_FINISHED : esp_err_t := 0x10C.
Definition ESP_ERR_NOT_ALLOWED : esp_err_t := 0x10D.
