(* ===== verification/Ringbuf.v ===== *)
(** * The FreeRTOS ring buffer of ESP-IDF: data and operations

    Source: [components/esp_ringbuf/ringbuf.c].  One definition per function of
    the file, under the C function's name.  [Ringbuffer_t] has the C struct's
    fields; the function pointers the C initialiser stores are one field
    [xBufferType], and [xCheckItemFits], [vCopyItem], [pvGetItem],
    [vReturnItem] and [xGetCurMaxSize] dispatch on it as the stored pointers
    do.  The storage area is the byte memory [store].

    Pointers are absolute addresses; comparisons of a pointer difference with a
    [size_t] are unsigned 32-bit comparisons, as in C.  A failed [configASSERT]
    is [None].  A critical section is one step; what other tasks do while a
    caller is blocked is an explicit list of wake-ups ([wake]). *)

From S2P Require Import Prelude.

(** ** Data *)

Inductive RingbufferType_t := RINGBUF_TYPE_NOSPLIT | RINGBUF_TYPE_ALLOWSPLIT | RINGBUF_TYPE_BYTEBUF.

#[export] Instance RingbufferType_t_eq_dec : EqDecision RingbufferType_t.
Proof. solve_decision. Defined.

(** A task in an event list: its list item value (lower value, higher
    priority) and its identity. *)
Record waiter := Waiter { xItemValue : Z; xOwner : Z }.

(** Calls into the kernel that leave the ring buffer's state alone. *)
Inductive rtos_call :=
  | TaskUnblocked (t : waiter)
  | QueueSend (q : Z)
  | TaskBlocked (ticks : Z).

Record Ringbuffer_t := MkRingbuffer {
  xSize : Z;
  xMaxItemSize : Z;
  uxRingbufferFlags : Z;
  xBufferType : RingbufferType_t;
  pucAcquire : Z;
  pucWrite : Z;
  pucRead : Z;
  pucFree : Z;
  pucHead : Z;
  pucTail : Z;
  xItemsWaiting : Z;
  xTasksWaitingToSend : list waiter;
  xTasksWaitingToReceive : list waiter;
  xQueueSet : option Z;
  store : mem;
  calls : list rtos_call
}.

Definition rbALIGN_MASK : Z := 3.
Definition rbALIGN_SIZE (x : Z) : Z := Z.land (u32 (x + rbALIGN_MASK)) (Z.lnot rbALIGN_MASK).
Definition rbCHECK_ALIGNED (p : Z) : bool := Z.land p rbALIGN_MASK =? 0.

Definition rbALLOW_SPLIT_FLAG : Z := 1.
Definition rbBYTE_BUFFER_FLAG : Z := 2.
Definition rbBUFFER_FULL_FLAG : Z := 4.
Definition rbBUFFER_STATIC_FLAG : Z := 8.

Definition rbITEM_FREE_FLAG : Z := 1.
Definition rbITEM_DUMMY_DATA_FLAG : Z := 2.
Definition rbITEM_SPLIT_FLAG : Z := 4.
Definition rbITEM_WRITTEN_FLAG : Z := 8.

Definition rbHEADER_SIZE : Z := 8.

(** Field updates. *)
Definition set_flags (v : Z) (r : Ringbuffer_t) : Ringbuffer_t :=
  let (a, b, _, d, e, f, g, h, i, j, k, l, m, n, o, p) := r in
  MkRingbuffer a b v d e f g h i j k l m n o p.
Definition set_pucAcquire (v : Z) (r : Ringbuffer_t) : Ringbuffer_t :=
  let (a, b, c, d, _, f, g, h, i, j, k, l, m, n, o, p) := r in
  MkRingbuffer a b c d v f g h i j k l m n o p.
Definition set_pucWrite (v : Z) (r : Ringbuffer_t) : Ringbuffer_t :=
  let (a, b, c, d, e, _, g, h, i, j, k, l, m, n, o, p) := r in
  MkRingbuffer a b c d e v g h i j k l m n o p.
Definition set_pucRead (v : Z) (r : Ringbuffer_t) : Ringbuffer_t :=
  let (a, b, c, d, e, f, _, h, i, j, k, l, m, n, o, p) := r in
  MkRingbuffer a b c d e f v h i j k l m n o p.
Definition set_pucFree (v : Z) (r : Ringbuffer_t) : Ringbuffer_t :=
  let (a, b, c, d, e, f, g, _, i, j, k, l, m, n, o, p) := r in
  MkRingbuffer a b c d e f g v i j k l m n o p.
Definition set_waiting (v : Z) (r : Ringbuffer_t) : Ringbuffer_t :=
  let (a, b, c, d, e, f, g, h, i, j, _, l, m, n, o, p) := r in
  MkRingbuffer a b c d e f g h i j v l m n o p.
Definition set_toSend (v : list waiter) (r : Ringbuffer_t) : Ringbuffer_t :=
  let (a, b, c, d, e, f, g, h, i, j, k, _, m, n, o, p) := r in
  MkRingbuffer a b c d e f g h i j k v m n o p.
Definition set_toReceive (v : list waiter) (r : Ringbuffer_t) : Ringbuffer_t :=
  let (a, b, c, d, e, f, g, h, i, j, k, l, _, n, o, p) := r in
  MkRingbuffer a b c d e f g h i j k l v n o p.
Definition set_xQueueSet (v : option Z) (r : Ringbuffer_t) : Ringbuffer_t :=
  let (a, b, c, d, e, f, g, h, i, j, k, l, m, _, o, p) := r in
  MkRingbuffer a b c d e f g h i j k l m v o p.
Definition set_store (v : mem) (r : Ringbuffer_t) : Ringbuffer_t :=
  let (a, b, c, d, e, f, g, h, i, j, k, l, m, n, _, p) := r in
  MkRingbuffer a b c d e f g h i j k l m n v p.
Definition log_call (v : rtos_call) (r : Ringbuffer_t) : Ringbuffer_t :=
  let (a, b, c, d, e, f, g, h, i, j, k, l, m, n, o, p) := r in
  MkRingbuffer a b c d e f g h i j k l m n o (p ++ [v]).

(** [ItemHeader_t]: [xItemLen] at the header's address, [uxItemFlags] after it. *)
Definition hdr_len (r : Ringbuffer_t) (h : Z) : Z := load32 (store r) h.
Definition hdr_flags (r : Ringbuffer_t) (h : Z) : Z := load32 (store r) (h + 4).
Definition set_hdr_len (h v : Z) (r : Ringbuffer_t) : Ringbuffer_t :=
  set_store (store32 (store r) h v) r.
Definition set_hdr_flags (h v : Z) (r : Ringbuffer_t) : Ringbuffer_t :=
  set_store (store32 (store r) (h + 4) v) r.

(** [memcpy(dst, item, n)] into the storage. *)
Definition memcpy_in (dst : Z) (item : list Z) (n : Z) (r : Ringbuffer_t) : Ringbuffer_t :=
  set_store (store_bytes (store r) dst (take (Z.to_nat n) item)) r.

Definition is_full (r : Ringbuffer_t) : bool := flag (uxRingbufferFlags r) rbBUFFER_FULL_FLAG.
Definition set_full (r : Ringbuffer_t) : Ringbuffer_t :=
  set_flags (Z.lor (uxRingbufferFlags r) rbBUFFER_FULL_FLAG) r.
Definition clear_full (r : Ringbuffer_t) : Ringbuffer_t :=
  set_flags (Z.land (uxRingbufferFlags r) (Z.lnot rbBUFFER_FULL_FLAG)) r.

(** ** Creation *)

Definition prvInitializeNewRingbuffer (xBufferSize : Z) (xType : RingbufferType_t)
    (pucRingbufferStorage : Z) (m : mem) : Ringbuffer_t :=
  {| xSize := xBufferSize;
     xMaxItemSize :=
       match xType with
       | RINGBUF_TYPE_NOSPLIT => u32 (rbALIGN_SIZE (xBufferSize / 2) - rbHEADER_SIZE)
       | RINGBUF_TYPE_ALLOWSPLIT => u32 (xBufferSize - rbHEADER_SIZE * 2)
       | RINGBUF_TYPE_BYTEBUF => xBufferSize
       end;
     uxRingbufferFlags :=
       match xType with
       | RINGBUF_TYPE_NOSPLIT => 0
       | RINGBUF_TYPE_ALLOWSPLIT => Z.lor 0 rbALLOW_SPLIT_FLAG
       | RINGBUF_TYPE_BYTEBUF => Z.lor 0 rbBYTE_BUFFER_FLAG
       end;
     xBufferType := xType;
     pucAcquire := pucRingbufferStorage;
     pucWrite := pucRingbufferStorage;
     pucRead := pucRingbufferStorage;
     pucFree := pucRingbufferStorage;
     pucHead := pucRingbufferStorage;
     pucTail := pucRingbufferStorage + xBufferSize;
     xItemsWaiting := 0;
     xTasksWaitingToSend := [];
     xTasksWaitingToReceive := [];
     xQueueSet := None;
     store := m;
     calls := [] |}.

(** ** Free space and availability *)

Definition prvGetFreeSize (r : Ringbuffer_t) : option Z :=
  let xReturn :=
    if is_full r then 0
    else
      let xFreeSize := s32 (pucFree r - pucAcquire r) in
      u32 (if xFreeSize <=? 0 then s32 (xFreeSize + xSize r) else xFreeSize) in
  configASSERT (xReturn <=? xSize r);
  Some xReturn.

Definition in_storage (r : Ringbuffer_t) (p : Z) : bool := (pucHead r <=? p) && (p <? pucTail r).

Definition prvCheckItemFitsDefault (r : Ringbuffer_t) (xItemSize : Z) : option bool :=
  configASSERT rbCHECK_ALIGNED (pucAcquire r);
  configASSERT in_storage r (pucAcquire r);
  let xTotalItemSize := u32 (rbALIGN_SIZE xItemSize + rbHEADER_SIZE) in
  if pucAcquire r =? pucFree r then Some (negb (is_full r))
  else if pucFree r >? pucAcquire r then
    Some (xTotalItemSize <=? u32 (pucFree r - pucAcquire r))
  else if xTotalItemSize <=? u32 (pucTail r - pucAcquire r) then Some true
  else if flag (uxRingbufferFlags r) rbALLOW_SPLIT_FLAG then
    Some (u32 (xTotalItemSize + rbHEADER_SIZE) <=? u32 (xSize r - (pucAcquire r - pucFree r)))
  else Some (xTotalItemSize <=? u32 (pucFree r - pucHead r)).

Definition prvCheckItemFitsByteBuffer (r : Ringbuffer_t) (xItemSize : Z) : option bool :=
  configASSERT in_storage r (pucAcquire r);
  if pucAcquire r =? pucFree r then Some (negb (is_full r))
  else if pucFree r >? pucAcquire r then
    Some (xItemSize <=? u32 (pucFree r - pucAcquire r))
  else Some (xItemSize <=? u32 (xSize r - (pucAcquire r - pucFree r))).

Definition xCheckItemFits (r : Ringbuffer_t) (xItemSize : Z) : option bool :=
  match xBufferType r with
  | RINGBUF_TYPE_BYTEBUF => prvCheckItemFitsByteBuffer r xItemSize
  | _ => prvCheckItemFitsDefault r xItemSize
  end.

(** ** Acquiring and writing items *)

(** "If current remaining length can't fit a header, wrap around": the pointer
    after the wrap. *)
Definition wrap_if_no_header (r : Ringbuffer_t) (p : Z) : Z :=
  if u32 (pucTail r - p) <? rbHEADER_SIZE then pucHead r else p.

(** "Check if buffer is full". *)
Definition check_full (r : Ringbuffer_t) : Ringbuffer_t :=
  if pucAcquire r =? pucFree r then set_full r else r.

Definition prvAcquireItemNoSplit (r : Ringbuffer_t) (xItemSize : Z) : option (Ringbuffer_t * Z) :=
  let xAlignedItemSize := rbALIGN_SIZE xItemSize in
  let xRemLen := u32 (pucTail r - pucAcquire r) in
  configASSERT rbCHECK_ALIGNED (pucAcquire r);
  configASSERT in_storage r (pucAcquire r);
  configASSERT (rbHEADER_SIZE <=? xRemLen);
  let r :=
    if xRemLen <? u32 (xAlignedItemSize + rbHEADER_SIZE) then
      let r := set_hdr_flags (pucAcquire r) rbITEM_DUMMY_DATA_FLAG r in
      let r := set_hdr_len (pucAcquire r) 0 r in
      set_pucAcquire (pucHead r) r
    else r in
  let r := set_hdr_len (pucAcquire r) xItemSize r in
  let r := set_hdr_flags (pucAcquire r) 0 r in
  let item_address := pucAcquire r + rbHEADER_SIZE in
  let r := set_pucAcquire (pucAcquire r + u32 (rbHEADER_SIZE + xAlignedItemSize)) r in
  let r := set_pucAcquire (wrap_if_no_header r (pucAcquire r)) r in
  Some (check_full r, item_address).

(** The body of the loop of [prvSendItemDoneNoSplit]: [pucWrite] moves past one
    block. *)
Definition prvWriteStep (r : Ringbuffer_t) : option Ringbuffer_t :=
  let pxCurHeader := pucWrite r in
  let uxItemFlags := hdr_flags r pxCurHeader in
  let? r :=
    (if flag uxItemFlags rbITEM_DUMMY_DATA_FLAG then
       let r := set_hdr_flags pxCurHeader (Z.lor uxItemFlags rbITEM_WRITTEN_FLAG) r in
       Some (set_pucWrite (pucHead r) r)
     else
       let xAlignedItemSize := rbALIGN_SIZE (hdr_len r pxCurHeader) in
       let r := set_pucWrite (pucWrite r + u32 (xAlignedItemSize + rbHEADER_SIZE)) r in
       configASSERT (pucWrite r <=? pucHead r + xSize r);
       Some r) in
  Some (set_pucWrite (wrap_if_no_header r (pucWrite r)) r).

(** That loop. *)
Fixpoint prvAdvanceWrite (fuel : nat) (r : Ringbuffer_t) : option Ringbuffer_t :=
  match fuel with
  | O => None
  | S fuel =>
      let uxItemFlags := hdr_flags r (pucWrite r) in
      if flag uxItemFlags rbITEM_WRITTEN_FLAG || flag uxItemFlags rbITEM_DUMMY_DATA_FLAG then
        let? r := prvWriteStep r in
        if pucWrite r =? pucAcquire r then Some r else prvAdvanceWrite fuel r
      else Some r
  end.

(** Enough iterations for a pointer that moves by at least a header each time
    and wraps once. *)
Definition walk_fuel (r : Ringbuffer_t) : nat := Z.to_nat (xSize r / rbHEADER_SIZE + 2).

Definition prvSendItemDoneNoSplit (r : Ringbuffer_t) (pucItem : Z) : option Ringbuffer_t :=
  configASSERT rbCHECK_ALIGNED pucItem;
  configASSERT (pucHead r <=? pucItem);
  configASSERT (pucItem <=? pucTail r);
  let pxCurHeader := pucItem - rbHEADER_SIZE in
  configASSERT (hdr_len r pxCurHeader <=? xMaxItemSize r);
  configASSERT negb (flag (hdr_flags r pxCurHeader) rbITEM_DUMMY_DATA_FLAG);
  configASSERT negb (flag (hdr_flags r pxCurHeader) rbITEM_WRITTEN_FLAG);
  let r := set_hdr_flags pxCurHeader (Z.land (hdr_flags r pxCurHeader) (Z.lnot rbITEM_SPLIT_FLAG)) r in
  let r := set_hdr_flags pxCurHeader (Z.lor (hdr_flags r pxCurHeader) rbITEM_WRITTEN_FLAG) r in
  let r := set_waiting (xItemsWaiting r + 1) r in
  prvAdvanceWrite (walk_fuel r) r.

Definition prvCopyItemNoSplit (r : Ringbuffer_t) (pucItem : list Z) (xItemSize : Z) : option Ringbuffer_t :=
  let? (r, item_addr) := prvAcquireItemNoSplit r xItemSize in
  let r := memcpy_in item_addr pucItem xItemSize r in
  prvSendItemDoneNoSplit r item_addr.

(** The first part of [prvCopyItemAllowSplit]: the item does not fit before the
    tail, so a first part fills the remaining length and the rest is left in
    [pucItem], [xItemSize] and [xAlignedItemSize]. *)
Definition prvCopyFirstPart (r : Ringbuffer_t) (xRemLen : Z) (pucItem : list Z)
    (xItemSize xAlignedItemSize : Z) : Ringbuffer_t * list Z * Z * Z :=
  let pxFirstHeader := pucAcquire r in
  let r := set_hdr_flags pxFirstHeader 0 r in
  let r := set_hdr_len pxFirstHeader (u32 (xRemLen - rbHEADER_SIZE)) r in
  let r := set_pucAcquire (pucAcquire r + rbHEADER_SIZE) r in
  let xRemLen := u32 (xRemLen - rbHEADER_SIZE) in
  let '(r, pucItem, xItemSize, xAlignedItemSize) :=
    if xRemLen >? 0 then
      let r := memcpy_in (pucAcquire r) pucItem xRemLen r in
      let r := set_waiting (xItemsWaiting r + 1) r in
      let r := set_hdr_flags pxFirstHeader (Z.lor (hdr_flags r pxFirstHeader) rbITEM_SPLIT_FLAG) r in
      (r, drop (Z.to_nat xRemLen) pucItem, u32 (xItemSize - xRemLen), u32 (xAlignedItemSize - xRemLen))
    else
      (set_hdr_flags pxFirstHeader (Z.lor (hdr_flags r pxFirstHeader) rbITEM_DUMMY_DATA_FLAG) r,
       pucItem, xItemSize, xAlignedItemSize) in
  (set_pucAcquire (pucHead r) r, pucItem, xItemSize, xAlignedItemSize).

Definition prvCopyItemAllowSplit (r : Ringbuffer_t) (pucItem : list Z) (xItemSize : Z) : option Ringbuffer_t :=
  let xAlignedItemSize := rbALIGN_SIZE xItemSize in
  let xRemLen := u32 (pucTail r - pucAcquire r) in
  configASSERT rbCHECK_ALIGNED (pucAcquire r);
  configASSERT in_storage r (pucAcquire r);
  configASSERT (rbHEADER_SIZE <=? xRemLen);
  let '(r, pucItem, xItemSize, xAlignedItemSize) :=
    if xRemLen <? u32 (xAlignedItemSize + rbHEADER_SIZE)
    then prvCopyFirstPart r xRemLen pucItem xItemSize xAlignedItemSize
    else (r, pucItem, xItemSize, xAlignedItemSize) in
  let r := set_hdr_len (pucAcquire r) xItemSize r in
  let r := set_hdr_flags (pucAcquire r) 0 r in
  let r := set_pucAcquire (pucAcquire r + rbHEADER_SIZE) r in
  let r := memcpy_in (pucAcquire r) pucItem xItemSize r in
  let r := set_waiting (xItemsWaiting r + 1) r in
  let r := set_pucAcquire (pucAcquire r + xAlignedItemSize) r in
  let r := set_pucAcquire (wrap_if_no_header r (pucAcquire r)) r in
  let r := check_full r in
  Some (set_pucWrite (pucAcquire r) r).

Definition prvCopyItemByteBuf (r : Ringbuffer_t) (pucItem : list Z) (xItemSize : Z) : option Ringbuffer_t :=
  configASSERT in_storage r (pucAcquire r);
  let xRemLen := u32 (pucTail r - pucAcquire r) in
  let '(r, pucItem, xItemSize) :=
    if xRemLen <? xItemSize then
      let r := memcpy_in (pucAcquire r) pucItem xRemLen r in
      let r := set_waiting (xItemsWaiting r + xRemLen) r in
      (set_pucAcquire (pucHead r) r, drop (Z.to_nat xRemLen) pucItem, u32 (xItemSize - xRemLen))
    else (r, pucItem, xItemSize) in
  let r := memcpy_in (pucAcquire r) pucItem xItemSize r in
  let r := set_waiting (xItemsWaiting r + xItemSize) r in
  let r := set_pucAcquire (pucAcquire r + xItemSize) r in
  let r := if pucAcquire r =? pucTail r then set_pucAcquire (pucHead r) r else r in
  let r := check_full r in
  Some (set_pucWrite (pucAcquire r) r).

Definition vCopyItem (r : Ringbuffer_t) (pucItem : list Z) (xItemSize : Z) : option Ringbuffer_t :=
  match xBufferType r with
  | RINGBUF_TYPE_NOSPLIT => prvCopyItemNoSplit r pucItem xItemSize
  | RINGBUF_TYPE_ALLOWSPLIT => prvCopyItemAllowSplit r pucItem xItemSize
  | RINGBUF_TYPE_BYTEBUF => prvCopyItemByteBuf r pucItem xItemSize
  end.

(** ** Retrieving items *)

Definition prvCheckItemAvail (r : Ringbuffer_t) : bool :=
  if flag (uxRingbufferFlags r) rbBYTE_BUFFER_FLAG && negb (pucRead r =? pucFree r) then false
  else if (xItemsWaiting r >? 0) && (negb (pucRead r =? pucWrite r) || is_full r) then
    if negb (flag (uxRingbufferFlags r) (Z.lor rbBYTE_BUFFER_FLAG rbALLOW_SPLIT_FLAG)) then
      flag (hdr_flags r (pucRead r)) rbITEM_WRITTEN_FLAG
    else true
  else false.

(** The second half of [prvGetItemDefault]: the read pointer is on the header of
    an item.  The result is the item's address, its length and whether it is
    split. *)
Definition prvTakeItem (r : Ringbuffer_t) : option (Ringbuffer_t * (Z * Z * bool)) :=
  let pxHeader := pucRead r in
  let pcReturn := pucRead r + rbHEADER_SIZE in
  configASSERT (if hdr_len r pxHeader =? 0
                then (pucHead r <=? pcReturn) && (pcReturn <=? pucTail r)
                else (pucHead r <=? pcReturn) && (pcReturn <? pucTail r));
  let xItemSize := hdr_len r pxHeader in
  let r := set_waiting (xItemsWaiting r - 1) r in
  let xIsSplit := flag (hdr_flags r pxHeader) rbITEM_SPLIT_FLAG in
  let r := set_pucRead (pucRead r + u32 (rbHEADER_SIZE + rbALIGN_SIZE (hdr_len r pxHeader))) r in
  let r := set_pucRead (wrap_if_no_header r (pucRead r)) r in
  Some (r, (pcReturn, xItemSize, xIsSplit)).

Definition prvGetItemDefault (r : Ringbuffer_t) : option (Ringbuffer_t * (Z * Z * bool)) :=
  let pxHeader := pucRead r in
  configASSERT (xItemsWaiting r >? 0) && (negb (pucRead r =? pucWrite r) || is_full r);
  configASSERT rbCHECK_ALIGNED (pucRead r);
  configASSERT in_storage r (pucRead r);
  configASSERT (hdr_len r pxHeader <=? xMaxItemSize r)
    || flag (hdr_flags r pxHeader) rbITEM_DUMMY_DATA_FLAG;
  if flag (hdr_flags r pxHeader) rbITEM_DUMMY_DATA_FLAG then
    let r := set_pucRead (pucHead r) r in
    configASSERT (hdr_len r (pucRead r) <=? xMaxItemSize r);
    prvTakeItem r
  else prvTakeItem r.

Definition prvGetItemByteBuf (r : Ringbuffer_t) (xMaxSize : Z) : option (Ringbuffer_t * (Z * Z)) :=
  configASSERT (xItemsWaiting r >? 0) && (negb (pucRead r =? pucWrite r) || is_full r);
  configASSERT in_storage r (pucRead r);
  configASSERT (pucRead r =? pucFree r);
  let ret := pucRead r in
  if (pucRead r >? pucWrite r) || is_full r then
    if (xMaxSize =? 0) || (u32 (pucTail r - pucRead r) <=? xMaxSize) then
      let n := u32 (pucTail r - pucRead r) in
      let r := set_waiting (xItemsWaiting r - (pucTail r - pucRead r)) r in
      Some (set_pucRead (pucHead r) r, (ret, n))
    else
      let r := set_waiting (xItemsWaiting r - xMaxSize) r in
      Some (set_pucRead (pucRead r + xMaxSize) r, (ret, xMaxSize))
  else
    if (xMaxSize =? 0) || (u32 (pucWrite r - pucRead r) <=? xMaxSize) then
      let n := u32 (pucWrite r - pucRead r) in
      let r := set_waiting (xItemsWaiting r - (pucWrite r - pucRead r)) r in
      Some (set_pucRead (pucWrite r) r, (ret, n))
    else
      let r := set_waiting (xItemsWaiting r - xMaxSize) r in
      Some (set_pucRead (pucRead r + xMaxSize) r, (ret, xMaxSize)).

(** ** Returning items *)

(** The body of the loop of [prvReturnItemDefault]: [pucFree] moves past one
    block. *)
Definition prvFreeStep (r : Ringbuffer_t) : option Ringbuffer_t :=
  let pxCurHeader := pucFree r in
  let uxItemFlags := hdr_flags r pxCurHeader in
  let? r :=
    (if flag uxItemFlags rbITEM_DUMMY_DATA_FLAG then
       let r := set_hdr_flags pxCurHeader (Z.lor uxItemFlags rbITEM_FREE_FLAG) r in
       Some (set_pucFree (pucHead r) r)
     else
       let xAlignedItemSize := rbALIGN_SIZE (hdr_len r pxCurHeader) in
       let r := set_pucFree (pucFree r + u32 (xAlignedItemSize + rbHEADER_SIZE)) r in
       configASSERT (pucFree r <=? pucHead r + xSize r);
       Some r) in
  Some (set_pucFree (wrap_if_no_header r (pucFree r)) r).

(** That loop; the result says whether it freed anything. *)
Fixpoint prvAdvanceFree (fuel : nat) (allow_advance_free_pointer freed_any : bool)
    (r : Ringbuffer_t) : option (Ringbuffer_t * bool) :=
  match fuel with
  | O => None
  | S fuel =>
      if flag (hdr_flags r (pucFree r)) (Z.lor rbITEM_FREE_FLAG rbITEM_DUMMY_DATA_FLAG)
         && (negb (pucFree r =? pucRead r) || allow_advance_free_pointer) then
        let? r := prvFreeStep r in prvAdvanceFree fuel false true r
      else Some (r, freed_any)
  end.

Definition prvReturnItemDefault (r : Ringbuffer_t) (pucItem : Z) : option Ringbuffer_t :=
  configASSERT rbCHECK_ALIGNED pucItem;
  configASSERT (pucHead r <=? pucItem);
  configASSERT (pucItem <=? pucTail r);
  let pxCurHeader := pucItem - rbHEADER_SIZE in
  configASSERT (hdr_len r pxCurHeader <=? xMaxItemSize r);
  configASSERT negb (flag (hdr_flags r pxCurHeader) rbITEM_DUMMY_DATA_FLAG);
  configASSERT negb (flag (hdr_flags r pxCurHeader) rbITEM_FREE_FLAG);
  let r := set_hdr_flags pxCurHeader (Z.land (hdr_flags r pxCurHeader) (Z.lnot rbITEM_SPLIT_FLAG)) r in
  let r := set_hdr_flags pxCurHeader (Z.lor (hdr_flags r pxCurHeader) rbITEM_FREE_FLAG) r in
  let allow_advance_free_pointer := is_full r || (xItemsWaiting r =? 0) in
  let? (r, freed_any) := prvAdvanceFree (walk_fuel r) allow_advance_free_pointer false r in
  Some (if is_full r && freed_any then clear_full r else r).

Definition prvReturnItemByteBuf (r : Ringbuffer_t) (pucItem : Z) : option Ringbuffer_t :=
  configASSERT (pucHead r <=? pucItem);
  configASSERT (pucItem <? pucTail r);
  let r := set_pucFree (pucRead r) r in
  Some (if is_full r then clear_full r else r).

Definition vReturnItem (r : Ringbuffer_t) (pucItem : Z) : option Ringbuffer_t :=
  match xBufferType r with
  | RINGBUF_TYPE_BYTEBUF => prvReturnItemByteBuf r pucItem
  | _ => prvReturnItemDefault r pucItem
  end.

(** ** Current maximum item size *)

(** The clamp that ends the two item-buffer functions. *)
Definition clamp_free_size (r : Ringbuffer_t) (xFreeSize : Z) : Z :=
  if xFreeSize <? 0 then 0
  else if u32 xFreeSize >? xMaxItemSize r then xMaxItemSize r else u32 xFreeSize.

Definition prvGetCurMaxSizeNoSplit (r : Ringbuffer_t) : Z :=
  if is_full r then 0
  else
    let xFreeSize :=
      if pucAcquire r <? pucFree r then pucFree r - pucAcquire r
      else
        let xSize1 := u32 (pucTail r - pucAcquire r) in
        let xSize2 := u32 (pucFree r - pucHead r) in
        s32 (if xSize1 >? xSize2 then xSize1 else xSize2) in
    clamp_free_size r (s32 (xFreeSize - rbHEADER_SIZE)).

Definition prvGetCurMaxSizeAllowSplit (r : Ringbuffer_t) : Z :=
  if is_full r then 0
  else
    let xFreeSize :=
      if (pucAcquire r =? pucHead r) && (pucFree r =? pucHead r) then
        s32 (xSize r - rbHEADER_SIZE)
      else if pucAcquire r <? pucFree r then
        s32 ((pucFree r - pucAcquire r) - rbHEADER_SIZE)
      else
        s32 ((pucFree r - pucHead r) + (pucTail r - pucAcquire r) - rbHEADER_SIZE * 2) in
    clamp_free_size r xFreeSize.

Definition prvGetCurMaxSizeByteBuf (r : Ringbuffer_t) : Z :=
  if is_full r then 0
  else
    let xFreeSize := s32 (pucFree r - pucAcquire r) in
    u32 (if xFreeSize <=? 0 then s32 (xFreeSize + xSize r) else xFreeSize).

Definition xGetCurMaxSize (r : Ringbuffer_t) : Z :=
  match xBufferType r with
  | RINGBUF_TYPE_NOSPLIT => prvGetCurMaxSizeNoSplit r
  | RINGBUF_TYPE_ALLOWSPLIT => prvGetCurMaxSizeAllowSplit r
  | RINGBUF_TYPE_BYTEBUF => prvGetCurMaxSizeByteBuf r
  end.

(** ** Sending and receiving with a block time *)

(** [xTaskRemoveFromEventList]: unblocks the task at the head of the list. *)
Definition unblock_receiver (r : Ringbuffer_t) : Ringbuffer_t :=
  match xTasksWaitingToReceive r with
  | [] => r
  | t :: ts => log_call (TaskUnblocked t) (set_toReceive ts r)
  end.
Definition unblock_sender (r : Ringbuffer_t) : Ringbuffer_t :=
  match xTasksWaitingToSend r with
  | [] => r
  | t :: ts => log_call (TaskUnblocked t) (set_toSend ts r)
  end.

(** After an item became readable: the queue set is to be notified, or a
    waiting receiver is unblocked. *)
Definition item_written (r : Ringbuffer_t) : Ringbuffer_t * bool :=
  match xQueueSet r with
  | Some _ => (r, true)
  | None => (unblock_receiver r, false)
  end.

(** The deferred [xQueueSend] to the queue set. *)
Definition notify_queue_set (xNotifyQueueSet : bool) (r : Ringbuffer_t) : Ringbuffer_t :=
  match xNotifyQueueSet, xQueueSet r with
  | true, Some q => log_call (QueueSend q) r
  | _, _ => r
  end.

(** [vTaskPlaceOnEventList]: the FreeRTOS insertion by [xItemValue], after the
    entries of equal value. *)
Fixpoint vListInsert (t : waiter) (l : list waiter) : list waiter :=
  match l with
  | [] => [t]
  | t' :: l' => if xItemValue t' <=? xItemValue t then t' :: vListInsert t l' else t :: l
  end.

(** One pass over the block/time-out test: [xTaskCheckForTimeOut]'s answer, the
    ticks it leaves, and what the rest of the system does to the ring buffer
    before the caller runs again. *)
Record wake := Wake {
  timed_out : bool;
  ticks_left : Z;
  meanwhile : Ringbuffer_t -> Ringbuffer_t
}.

(** What a call that may block has come to. *)
Inductive outcome (A : Type) :=
  | Returned (a : A)
  | Blocked.
Arguments Returned {A} a.
Arguments Blocked {A}.

(** [pvItem] to send, or [ppvItem] to fill with an acquired address. *)
Inductive send_req := ReqSend (pvItem : list Z) | ReqAcquire.

(** The immediate part of [prvSendAcquireGeneric]: the item fits. *)
Definition prvSendAcquireNow (r : Ringbuffer_t) (req : send_req) (xItemSize : Z)
    : option (Ringbuffer_t * (bool * option Z)) :=
  match req with
  | ReqAcquire =>
      let? (r, pvItem) := prvAcquireItemNoSplit r xItemSize in
      Some (r, (false, Some pvItem))
  | ReqSend pvItem =>
      let? r := vCopyItem r pvItem xItemSize in
      let '(r, xNotifyQueueSet) := item_written r in
      Some (r, (xNotifyQueueSet, None))
  end.

(** [prvSendAcquireGeneric]; the returned value is [xReturn] and [*ppvItem].
    [self] is the calling task; the wake-ups run out only while it is blocked. *)
Fixpoint prvSendAcquireGeneric (self : waiter) (wakes : list wake) (r : Ringbuffer_t)
    (req : send_req) (xItemSize xTicksToWait : Z)
    : option (Ringbuffer_t * outcome (bool * option Z)) :=
  let? fits := xCheckItemFits r xItemSize in
  if (fits : bool) then
    let? (r, (xNotifyQueueSet, pvItem)) := prvSendAcquireNow r req xItemSize in
    Some (notify_queue_set xNotifyQueueSet r, Returned (true, pvItem))
  else if xTicksToWait =? 0 then Some (r, Returned (false, None))
  else
    match wakes with
    | [] => Some (r, Blocked)
    | w :: wakes =>
        if timed_out w then Some (r, Returned (false, None))
        else
          let r := set_toSend (vListInsert self (xTasksWaitingToSend r)) r in
          let r := log_call (TaskBlocked (ticks_left w)) r in
          prvSendAcquireGeneric self wakes (meanwhile w r) req xItemSize (ticks_left w)
    end.

(** What a receive call writes through its pointer arguments: the item, and the
    second part for a split item of an allow-split buffer. *)
Record received := Received { item1 : Z * Z; item2 : option (Z * Z) }.

(** [pvGetItem]; the byte function leaves [*pxIsSplit] as it was initialised. *)
Definition pvGetItem (r : Ringbuffer_t) (xMaxSize : Z) : option (Ringbuffer_t * (Z * Z * bool)) :=
  match xBufferType r with
  | RINGBUF_TYPE_BYTEBUF =>
      let? (r, (p, n)) := prvGetItemByteBuf r xMaxSize in Some (r, (p, n, false))
  | _ => prvGetItemDefault r
  end.

(** The immediate part of [prvReceiveGeneric] and of [prvReceiveGenericFromISR]. *)
Definition prvReceiveNow (r : Ringbuffer_t) (xMaxSize : Z) : option (Ringbuffer_t * received) :=
  let xMaxSize := if flag (uxRingbufferFlags r) rbBYTE_BUFFER_FLAG then xMaxSize else 0 in
  let? (r, (p1, n1, xIsSplit)) := pvGetItem r xMaxSize in
  if flag (uxRingbufferFlags r) rbALLOW_SPLIT_FLAG && (xIsSplit : bool) then
    let? (r, (p2, n2, xIsSplit)) := pvGetItem r 0 in
    configASSERT (p2 <? p1);
    configASSERT negb xIsSplit;
    Some (r, Received (p1, n1) (Some (p2, n2)))
  else Some (r, Received (p1, n1) None).

Fixpoint prvReceiveGeneric (self : waiter) (wakes : list wake) (r : Ringbuffer_t)
    (xMaxSize xTicksToWait : Z) : option (Ringbuffer_t * outcome (option received)) :=
  if prvCheckItemAvail r then
    let? (r, res) := prvReceiveNow r xMaxSize in
    Some (r, Returned (Some res))
  else if xTicksToWait =? 0 then Some (r, Returned None)
  else
    match wakes with
    | [] => Some (r, Blocked)
    | w :: wakes =>
        if timed_out w then Some (r, Returned None)
        else
          let r := set_toReceive (vListInsert self (xTasksWaitingToReceive r)) r in
          let r := log_call (TaskBlocked (ticks_left w)) r in
          prvReceiveGeneric self wakes (meanwhile w r) xMaxSize (ticks_left w)
    end.

Definition prvReceiveGenericFromISR (r : Ringbuffer_t) (xMaxSize : Z)
    : option (Ringbuffer_t * option received) :=
  if prvCheckItemAvail r then
    let? (r, res) := prvReceiveNow r xMaxSize in
    Some (r, Some res)
  else Some (r, None).

(** ** Public functions

    [malloc] answers an allocation of a size with an address, or [None]; the
    control structure's own allocation is [calloc_rb].  The third result of the
    creation functions lists the blocks freed on the error path. *)

Definition xRingbufferCreate (calloc_rb : option Z) (malloc : Z -> option Z) (m : mem)
    (xBufferSize : Z) (xBufferType : RingbufferType_t) : option (option Ringbuffer_t * list Z) :=
  configASSERT (0 <? xBufferSize);
  let xBufferSize :=
    if decide (xBufferType = RINGBUF_TYPE_BYTEBUF) then xBufferSize else rbALIGN_SIZE xBufferSize in
  match calloc_rb, malloc xBufferSize with
  | Some _, Some pucRingbufferStorage =>
      Some (Some (prvInitializeNewRingbuffer xBufferSize xBufferType pucRingbufferStorage m), [])
  | px, storage => Some (None, option_list px ++ option_list storage)
  end.

Definition xRingbufferCreateNoSplit (calloc_rb : option Z) (malloc : Z -> option Z) (m : mem)
    (xItemSize xItemNum : Z) : option (option Ringbuffer_t * list Z) :=
  xRingbufferCreate calloc_rb malloc m
    (u32 (u32 (rbALIGN_SIZE xItemSize + rbHEADER_SIZE) * xItemNum)) RINGBUF_TYPE_NOSPLIT.

Definition xRingbufferCreateStatic (m : mem) (xBufferSize : Z) (xBufferType : RingbufferType_t)
    (pucRingbufferStorage : option Z) (pxStaticRingbuffer : option Z) : option Ringbuffer_t :=
  configASSERT (0 <? xBufferSize);
  match pucRingbufferStorage, pxStaticRingbuffer with
  | Some storage, Some _ =>
      configASSERT (if decide (xBufferType = RINGBUF_TYPE_BYTEBUF) then true
                    else rbCHECK_ALIGNED xBufferSize);
      let r := prvInitializeNewRingbuffer xBufferSize xBufferType storage m in
      Some (set_flags (Z.lor (uxRingbufferFlags r) rbBUFFER_STATIC_FLAG) r)
  | _, _ => None
  end.

Definition xRingbufferSendAcquire (self : waiter) (wakes : list wake) (r : Ringbuffer_t)
    (xItemSize xTicksToWait : Z) : option (Ringbuffer_t * outcome (bool * option Z)) :=
  configASSERT negb (flag (uxRingbufferFlags r) (Z.lor rbBYTE_BUFFER_FLAG rbALLOW_SPLIT_FLAG));
  if xItemSize >? xMaxItemSize r then Some (r, Returned (false, None))
  else prvSendAcquireGeneric self wakes r ReqAcquire xItemSize xTicksToWait.

Definition xRingbufferSendComplete (r : Ringbuffer_t) (pvItem : Z) : option (Ringbuffer_t * bool) :=
  configASSERT negb (flag (uxRingbufferFlags r) (Z.lor rbBYTE_BUFFER_FLAG rbALLOW_SPLIT_FLAG));
  let? r := prvSendItemDoneNoSplit r pvItem in
  let '(r, xNotifyQueueSet) := item_written r in
  Some (notify_queue_set xNotifyQueueSet r, true).

Definition xRingbufferSend (self : waiter) (wakes : list wake) (r : Ringbuffer_t)
    (pvItem : list Z) (xItemSize xTicksToWait : Z)
    : option (Ringbuffer_t * outcome (bool * option Z)) :=
  if xItemSize >? xMaxItemSize r then Some (r, Returned (false, None))
  else if flag (uxRingbufferFlags r) rbBYTE_BUFFER_FLAG && (xItemSize =? 0)
  then Some (r, Returned (true, None))
  else prvSendAcquireGeneric self wakes r (ReqSend pvItem) xItemSize xTicksToWait.

Definition xRingbufferSendFromISR (r : Ringbuffer_t) (pvItem : list Z) (xItemSize : Z)
    : option (Ringbuffer_t * bool) :=
  if xItemSize >? xMaxItemSize r then Some (r, false)
  else if flag (uxRingbufferFlags r) rbBYTE_BUFFER_FLAG && (xItemSize =? 0) then Some (r, true)
  else
    let? fits := xCheckItemFits r xItemSize in
    if (fits : bool) then
      let? r := vCopyItem r pvItem xItemSize in
      let '(r, xNotifyQueueSet) := item_written r in
      Some (notify_queue_set xNotifyQueueSet r, true)
    else Some (r, false).

Definition xRingbufferReceive (self : waiter) (wakes : list wake) (r : Ringbuffer_t)
    (xTicksToWait : Z) : option (Ringbuffer_t * outcome (option received)) :=
  configASSERT negb (flag (uxRingbufferFlags r) rbALLOW_SPLIT_FLAG);
  prvReceiveGeneric self wakes r 0 xTicksToWait.

Definition xRingbufferReceiveFromISR (r : Ringbuffer_t) : option (Ringbuffer_t * option received) :=
  configASSERT negb (flag (uxRingbufferFlags r) rbALLOW_SPLIT_FLAG);
  prvReceiveGenericFromISR r 0.

Definition xRingbufferReceiveSplit (self : waiter) (wakes : list wake) (r : Ringbuffer_t)
    (xTicksToWait : Z) : option (Ringbuffer_t * outcome (option received)) :=
  configASSERT flag (uxRingbufferFlags r) rbALLOW_SPLIT_FLAG;
  prvReceiveGeneric self wakes r 0 xTicksToWait.

Definition xRingbufferReceiveSplitFromISR (r : Ringbuffer_t)
    : option (Ringbuffer_t * option received) :=
  configASSERT flag (uxRingbufferFlags r) rbALLOW_SPLIT_FLAG;
  prvReceiveGenericFromISR r 0.

Definition xRingbufferReceiveUpTo (self : waiter) (wakes : list wake) (r : Ringbuffer_t)
    (xTicksToWait xMaxSize : Z) : option (Ringbuffer_t * outcome (option received)) :=
  configASSERT flag (uxRingbufferFlags r) rbBYTE_BUFFER_FLAG;
  if xMaxSize =? 0 then Some (r, Returned None)
  else prvReceiveGeneric self wakes r xMaxSize xTicksToWait.

Definition xRingbufferReceiveUpToFromISR (r : Ringbuffer_t) (xMaxSize : Z)
    : option (Ringbuffer_t * option received) :=
  configASSERT flag (uxRingbufferFlags r) rbBYTE_BUFFER_FLAG;
  if xMaxSize =? 0 then Some (r, None)
  else prvReceiveGenericFromISR r xMaxSize.

Definition vRingbufferReturnItem (r : Ringbuffer_t) (pvItem : Z) : option Ringbuffer_t :=
  let? r := vReturnItem r pvItem in
  Some (unblock_sender r).

(** The value left in [*pxHigherPriorityTaskWoken] is a matter of the task that
    is unblocked; the ring buffer changes as in [vRingbufferReturnItem]. *)
Definition vRingbufferReturnItemFromISR (r : Ringbuffer_t) (pvItem : Z) : option Ringbuffer_t :=
  let? r := vReturnItem r pvItem in
  Some (unblock_sender r).

Definition xRingbufferGetMaxItemSize (r : Ringbuffer_t) : Z := xMaxItemSize r.

Definition xRingbufferGetCurFreeSize (r : Ringbuffer_t) : Z := xGetCurMaxSize r.

Definition xRingbufferAddToQueueSetRead (r : Ringbuffer_t) (q : Z) : Ringbuffer_t * bool :=
  if bool_decide (xQueueSet r <> None) || prvCheckItemAvail r then (r, false)
  else (set_xQueueSet (Some q) r, true).

Definition xRingbufferRemoveFromQueueSetRead (r : Ringbuffer_t) (q : Z) : Ringbuffer_t * bool :=
  if bool_decide (xQueueSet r <> Some q) || prvCheckItemAvail r then (r, false)
  else (set_xQueueSet None r, true).

(** Offsets of the free, read, write and acquire pointers, and the items waiting. *)
Definition vRingbufferGetInfo (r : Ringbuffer_t) : Z * Z * Z * Z * Z :=
  (u32 (pucFree r - pucHead r), u32 (pucRead r - pucHead r),
   u32 (pucWrite r - pucHead r), u32 (pucAcquire r - pucHead r), u32 (xItemsWaiting r)).

Definition xRingbufferGetStaticBuffer (r : Ringbuffer_t) : option Z :=
  if flag (uxRingbufferFlags r) rbBUFFER_STATIC_FLAG then Some (pucHead r) else None.

(** The blocks [vRingbufferDelete] frees, the structure itself being at [self]. *)
Definition vRingbufferDelete (r : Ringbuffer_t) (self : Z) : list Z :=
  if negb (flag (uxRingbufferFlags r) rbBUFFER_STATIC_FLAG) then [pucHead r; self] else [].

(** ** Flag algebra of the buffer and item flags *)

Section Flags.
Lemma flag_lor_1 f b : flag (Z.lor f b) 1 = flag f 1 || flag b 1.
  Proof. apply (flag_lor f b 0). lia. Qed.
Lemma flag_lor_2 f b : flag (Z.lor f b) 2 = flag f 2 || flag b 2.
  Proof. apply (flag_lor f b 1). lia. Qed.
Lemma flag_lor_4 f b : flag (Z.lor f b) 4 = flag f 4 || flag b 4.
  Proof. apply (flag_lor f b 2). lia. Qed.
Lemma flag_lor_8 f b : flag (Z.lor f b) 8 = flag f 8 || flag b 8.
  Proof. apply (flag_lor f b 3). lia. Qed.
Lemma flag_clear_1 f b : flag (Z.land f (Z.lnot b)) 1 = flag f 1 && negb (flag b 1).
  Proof. apply (flag_clear f b 0). lia. Qed.
Lemma flag_clear_2 f b : flag (Z.land f (Z.lnot b)) 2 = flag f 2 && negb (flag b 2).
  Proof. apply (flag_clear f b 1). lia. Qed.
Lemma flag_clear_4 f b : flag (Z.land f (Z.lnot b)) 4 = flag f 4 && negb (flag b 4).
  Proof. apply (flag_clear f b 2). lia. Qed.
Lemma flag_clear_8 f b : flag (Z.land f (Z.lnot b)) 8 = flag f 8 && negb (flag b 8).
  Proof. apply (flag_clear f b 3). lia. Qed.

  (** A test of two flags at once. *)
Lemma flag_or_mask f a b : 0 <= a -> 0 <= b -> flag f (Z.lor (2 ^ a) (2 ^ b)) = flag f (2 ^ a) || flag f (2 ^ b).
  Proof.
    intros Ha Hb. unfold flag. rewrite Z.land_lor_distr_r.
    destruct (Z.eqb_spec (Z.land f (2 ^ a)) 0) as [->|Hn].
    - rewrite Z.lor_0_l. done.
    - simpl. apply negb_true_iff, Z.eqb_neq. intros [H _]%Z.lor_eq_0_iff. done.
  Qed.
Lemma flag_mask_21 f : flag f (Z.lor 2 1) = flag f 2 || flag f 1.
  Proof. apply (flag_or_mask f 1 0); lia. Qed.
Lemma flag_mask_12 f : flag f (Z.lor 1 2) = flag f 1 || flag f 2.
  Proof. apply (flag_or_mask f 0 1); lia. Qed.
End Flags.

Create Rewrite HintDb rbflags.
#[export] Hint Rewrite flag_lor_1 flag_lor_2 flag_lor_4 flag_lor_8
  flag_clear_1 flag_clear_2 flag_clear_4 flag_clear_8
  flag_mask_21 flag_mask_12 flag_0 : rbflags.

Ltac rb_unfold_consts :=
  unfold rbALLOW_SPLIT_FLAG, rbBYTE_BUFFER_FLAG, rbBUFFER_FULL_FLAG, rbBUFFER_STATIC_FLAG,
    rbITEM_FREE_FLAG, rbITEM_DUMMY_DATA_FLAG, rbITEM_SPLIT_FLAG, rbITEM_WRITTEN_FLAG in *.
