(* ===== verification/RingbufByte.v ===== *)
(** * Byte buffers refine a FIFO queue of bytes

    The byte-buffer operations of [Ringbuf.v] against an abstract queue: the
    bytes written and not yet read, and the number of bytes handed out and not
    yet returned. *)

From S2P Require Import Prelude Ringbuf.

(** ** Ring addressing *)

Section Ring.
  Context (m : mem) (head size : Z).

  (** The offset [n] bytes after offset [off]. *)
Definition adv (off n : Z) : Z := if off + n <? size then off + n else off + n - size.

Definition ring_load (off n : Z) : list Z :=
    (fun i => m (head + adv off (Z.of_nat i))) <$> seq 0 (Z.to_nat n).

Lemma adv_range off n : 0 <= off < size -> 0 <= n <= size -> 0 <= adv off n < size.
  Proof. unfold adv. intros. destruct (Z.ltb_spec (off + n) size); lia. Qed.

Lemma adv_adv off a b :
    0 <= off < size -> 0 <= a -> 0 <= b -> a + b <= size -> adv (adv off a) b = adv off (a + b).
  Proof.
    unfold adv. intros. destruct (Z.ltb_spec (off + a) size), (Z.ltb_spec (off + (a + b)) size);
    match goal with |- context[?x <? size] => destruct (Z.ltb_spec x size) end; lia.
  Qed.

Lemma length_ring_load off n : length (ring_load off n) = Z.to_nat n.
  Proof. unfold ring_load. by rewrite length_fmap, length_seq. Qed.

Lemma ring_load_lookup off n i :
    (i < Z.to_nat n)%nat -> ring_load off n !! i = Some (m (head + adv off (Z.of_nat i))).
  Proof. intros. unfold ring_load. by rewrite list_lookup_fmap, lookup_seq_lt. Qed.

Lemma ring_load_contig off n :
    0 <= off -> off + n <= size -> ring_load off n = load_bytes m (head + off) n.
  Proof.
    intros. unfold ring_load, load_bytes. apply list_fmap_ext. intros i x Hx.
    apply lookup_seq in Hx as [-> Hi]. unfold adv.
    destruct (Z.ltb_spec (off + Z.of_nat (0 + i)) size); f_equal; lia.
  Qed.

Lemma ring_load_split off a b :
    0 <= off < size -> 0 <= a -> 0 <= b -> a + b <= size ->
    ring_load off (a + b) = ring_load off a ++ ring_load (adv off a) b.
  Proof.
    intros. apply list_eq. intros i.
    destruct (decide (i < Z.to_nat (a + b))%nat) as [Hi|Hi].
    - rewrite ring_load_lookup by done.
      destruct (decide (i < Z.to_nat a)%nat) as [Ha|Ha].
      + rewrite lookup_app_l by (rewrite length_ring_load; lia).
        by rewrite ring_load_lookup.
      + rewrite lookup_app_r by (rewrite length_ring_load; lia).
        rewrite length_ring_load, ring_load_lookup by lia. rewrite adv_adv by lia.
        do 3 f_equal. f_equal. lia.
    - rewrite !lookup_ge_None_2; rewrite ?length_app, ?length_ring_load; lia || done.
  Qed.
End Ring.

Lemma ring_load_ext m1 m2 head size off n :
  (forall i, 0 <= i < n -> m1 (head + adv size off i) = m2 (head + adv size off i)) ->
  ring_load m1 head size off n = ring_load m2 head size off n.
Proof.
  intros H. unfold ring_load. apply list_fmap_ext. intros i x Hx.
  apply lookup_seq in Hx as [-> Hi]. apply H. lia.
Qed.

(** [memcpy] of [bs] to ring offset [off], wrapping at the end as
    [prvCopyItemByteBuf] does. *)
Lemma ring_load_wrapped_store m head size off bs rem :
  0 <= off < size -> rem = size - off -> rem < Z.of_nat (length bs) <= size ->
  ring_load
    (store_bytes (store_bytes m (head + off) (take (Z.to_nat rem) bs)) head
       (take (Z.to_nat (Z.of_nat (length bs) - rem)) (drop (Z.to_nat rem) bs)))
    head size off (Z.of_nat (length bs)) = bs.
Proof.
  intros Hoff -> Hlen. apply list_eq. intros i.
  destruct (decide (i < length bs)%nat) as [Hi|Hi].
  2: { rewrite !lookup_ge_None_2; rewrite ?length_ring_load; lia || done. }
  rewrite ring_load_lookup by lia. unfold adv.
  destruct (lookup_lt_is_Some_2 bs i Hi) as [x Hx]. rewrite Hx. f_equal.
  destruct (Z.ltb_spec (off + Z.of_nat i) size) as [Hw|Hw].
  - rewrite store_bytes_other by (rewrite length_take, length_drop; lia).
    rewrite Z.add_assoc, store_bytes_inside by (rewrite length_take; lia).
    rewrite lookup_take_lt by lia. by rewrite Nat2Z.id, Hx.
  - rewrite store_bytes_inside by (rewrite length_take, length_drop; lia).
    rewrite lookup_take_lt, lookup_drop by lia.
    replace (_ + _)%nat with i by lia. by rewrite Hx.
Qed.

Lemma ring_load_store m head size off bs :
  0 <= off -> off + Z.of_nat (length bs) <= size ->
  ring_load (store_bytes m (head + off) bs) head size off (Z.of_nat (length bs)) = bs.
Proof. intros. rewrite ring_load_contig by lia. by apply load_store_bytes. Qed.

(** ** The abstraction *)

Abbreviation len q := (Z.of_nat (length q)).

Record byte_rep (r : Ringbuffer_t) (taken : Z) (q : list Z) : Prop := {
  br_type : xBufferType r = RINGBUF_TYPE_BYTEBUF;
  br_byte : flag (uxRingbufferFlags r) rbBYTE_BUFFER_FLAG = true;
  br_split : flag (uxRingbufferFlags r) rbALLOW_SPLIT_FLAG = false;
  br_size : 0 < xSize r < 2147483648;
  br_head : 0 <= pucHead r;
  br_tail : pucTail r = pucHead r + xSize r;
  br_max : xMaxItemSize r = xSize r;
  br_free : pucHead r <= pucFree r < pucTail r;
  br_taken : 0 <= taken <= pucTail r - pucFree r;
  br_len : taken + len q <= xSize r;
  br_read : pucRead r = pucHead r + adv (xSize r) (pucFree r - pucHead r) taken;
  br_write : pucWrite r = pucHead r + adv (xSize r) (pucFree r - pucHead r) (taken + len q);
  br_acquire : pucAcquire r = pucWrite r;
  br_full : is_full r = bool_decide (taken + len q = xSize r);
  br_waiting : xItemsWaiting r = len q;
  br_data : ring_load (store r) (pucHead r) (xSize r) (pucRead r - pucHead r) (len q) = q
}.

(** What no operation changes. *)
Definition geom (r : Ringbuffer_t) : Z * Z := (pucHead r, xSize r).

Lemma byte_rep_acquire_in r k q : byte_rep r k q -> in_storage r (pucAcquire r) = true.
Proof.
  intros []. unfold in_storage. rewrite br_acquire0, br_write0.
  pose proof (adv_range (xSize r) (pucFree r - pucHead r) (k + len q)). lia.
Qed.

(** Free space as the code computes it is the space the abstraction has left. *)
Lemma prvCheckItemFitsByteBuffer_spec r k q n :
  byte_rep r k q -> 0 < n <= xSize r ->
  prvCheckItemFitsByteBuffer r n = Some (n <=? xSize r - k - len q).
Proof.
  intros R Hn. unfold prvCheckItemFitsByteBuffer. rewrite (byte_rep_acquire_in _ _ _ R).
  destruct R. unfold adv in *. rewrite br_full0.
  set (off := pucFree r - pucHead r) in *.
  destruct (Z.eqb_spec (pucAcquire r) (pucFree r)) as [E|E].
  - case_bool_decide as Hf; simpl; f_equal; symmetry.
    + apply Z.leb_gt. lia.
    + apply Z.leb_le. destruct (Z.ltb_spec (off + (k + len q)) (xSize r)); lia.
  - destruct (Z.ltb_spec (off + (k + len q)) (xSize r)) as [Hw|Hw].
    + replace (pucFree r >? pucAcquire r) with false by lia.
      rewrite u32_id by lia. f_equal. f_equal. lia.
    + replace (pucFree r >? pucAcquire r) with true by lia.
      rewrite u32_id by lia. f_equal. f_equal. lia.
Qed.

(** What the copy leaves in memory: the item at the write position, everything
    else untouched. *)
Definition byte_copied (m m' : mem) (head size off : Z) (bs : list Z) : Prop :=
  ring_load m' head size off (len bs) = bs /\
  forall i, len bs <= i < size -> m' (head + adv size off i) = m (head + adv size off i).

Lemma prvCopyItemByteBuf_spec r k q bs :
  byte_rep r k q -> 0 < len bs <= xSize r - k - len q ->
  exists r', prvCopyItemByteBuf r bs (len bs) = Some r' /\
    byte_copied (store r) (store r') (pucHead r) (xSize r) (pucWrite r - pucHead r) bs /\
    pucWrite r' = pucHead r + adv (xSize r) (pucWrite r - pucHead r) (len bs) /\
    r' = set_pucWrite (pucWrite r') (set_pucAcquire (pucWrite r')
           (set_waiting (xItemsWaiting r + len bs)
             (if pucWrite r' =? pucFree r then set_full (set_store (store r') r)
              else set_store (store r') r))).
Proof.
  intros R Hn. unfold prvCopyItemByteBuf. rewrite (byte_rep_acquire_in _ _ _ R).
  pose proof (adv_range (xSize r) (pucFree r - pucHead r) (k + len q)) as Hr.
  destruct R. rewrite br_acquire0. destruct r; simpl in *. subst pucAcquire pucWrite pucTail.
  set (w := adv xSize (pucFree - pucHead) (k + len q)) in *.
  specialize (Hr ltac:(lia) ltac:(lia)).
  rewrite u32_id by lia.
  replace (pucHead + w - pucHead) with w by lia.
  destruct (Z.ltb_spec (pucHead + xSize - (pucHead + w)) (len bs)) as [Hwrap|Hwrap]; simpl.
  - rewrite u32_id by lia.
    eexists. split; [reflexivity|].
    unfold check_full; simpl.
    assert (adv xSize w (len bs) = len bs - (xSize - w)) as Ha.
    { unfold adv. destruct (Z.ltb_spec (w + len bs) xSize); lia. }
    destruct (Z.eqb_spec (pucHead + (len bs - (pucHead + xSize - (pucHead + w))))
                (pucHead + xSize)); [lia|]; simpl.
    replace (pucHead + xSize - (pucHead + w)) with (xSize - w) by lia.
    split; [|split].
    + destruct (_ =? pucFree); simpl; (split; [apply ring_load_wrapped_store; lia|]);
      intros i Hi; unfold adv; destruct (Z.ltb_spec (w + i) xSize);
      rewrite !store_bytes_other; rewrite ?length_take, ?length_drop; lia || done.
    + destruct (_ =? pucFree); simpl; rewrite Ha; lia.
    + rewrite <- Z.add_assoc, Z.add_assoc with (n := xItemsWaiting).
      replace (xItemsWaiting + (xSize - w) + (len bs - (xSize - w)))
        with (xItemsWaiting + len bs) by lia.
      destruct (Z.eqb_spec (pucHead + (len bs - (xSize - w))) pucFree) as [E|E]; simpl;
      [rewrite E, Z.eqb_refl | rewrite (proj2 (Z.eqb_neq _ _) E)]; done.
  - eexists. split; [reflexivity|].
    unfold check_full, memcpy_in; simpl. rewrite Nat2Z.id, firstn_all.
    assert (pucHead + adv xSize w (len bs)
            = if pucHead + w + len bs =? pucHead + xSize then pucHead
              else pucHead + w + len bs) as Ha.
    { unfold adv. destruct (Z.ltb_spec (w + len bs) xSize),
        (Z.eqb_spec (pucHead + w + len bs) (pucHead + xSize)); lia. }
    rewrite Ha.
    assert (byte_copied store (store_bytes store (pucHead + w) bs) pucHead xSize w bs).
    { split; [apply ring_load_store; lia|]. intros i Hi. apply store_bytes_other.
      unfold adv. destruct (Z.ltb_spec (w + i) xSize); lia. }
    destruct (pucHead + w + len bs =? pucHead + xSize); simpl;
      match goal with |- context [?x =? pucFree] => destruct (Z.eqb_spec x pucFree) as [E|E] end;
      simpl; rewrite ?(proj2 (Z.eqb_neq _ _) E), ?(proj2 (Z.eqb_eq _ _) E); done.
Qed.

(** The ring offsets of the abstraction: the data the readers own is disjoint
    from the bytes a copy writes. *)
Lemma byte_copied_keeps m m' head size foff k q bs :
  0 <= foff < size -> 0 <= k -> k + len q + len bs <= size ->
  byte_copied m m' head size (adv size foff (k + len q)) bs ->
  ring_load m head size (adv size foff k) (len q) = q ->
  ring_load m' head size (adv size foff k) (len (q ++ bs)) = q ++ bs.
Proof.
  intros Hf Hk Hl [Hnew Hold] Hq.
  pose proof (adv_range size foff k ltac:(lia) ltac:(lia)).
  rewrite length_app, Nat2Z.inj_add, ring_load_split by lia. f_equal.
  - rewrite <- Hq at 2. apply ring_load_ext. intros i Hi.
    replace (adv size (adv size foff k) i)
      with (adv size (adv size foff (k + len q)) (size - len q + i)); [apply Hold; lia|].
    unfold adv. repeat match goal with |- context [?x <? size] => destruct (Z.ltb_spec x size) end; lia.
  - rewrite adv_adv by lia. done.
Qed.

Lemma is_full_set_full r : is_full (set_full r) = true.
Proof. destruct r. unfold is_full, set_full. simpl. rb_unfold_consts. autorewrite with rbflags. apply orb_true_r. Qed.

Lemma is_full_clear_full r : is_full (clear_full r) = false.
Proof. destruct r. unfold is_full, clear_full. simpl. rb_unfold_consts. autorewrite with rbflags. apply andb_false_r. Qed.

Lemma byte_rep_copy r k q bs :
  byte_rep r k q -> 0 < len bs <= xSize r - k - len q ->
  exists r', prvCopyItemByteBuf r bs (len bs) = Some r' /\ byte_rep r' k (q ++ bs) /\
    geom r' = geom r.
Proof.
  intros R Hn. destruct (prvCopyItemByteBuf_spec _ _ _ _ R Hn) as (r' & E & Hc & Hw & Hr').
  exists r'. split; [done|].
  destruct R. rewrite br_write0 in Hc, Hw.
  replace (pucHead r + adv (xSize r) (pucFree r - pucHead r) (k + len q) - pucHead r)
    with (adv (xSize r) (pucFree r - pucHead r) (k + len q)) in Hc, Hw by lia.
  rewrite adv_adv in Hw by lia.
  assert ((pucWrite r' =? pucFree r) = bool_decide (k + len (q ++ bs) = xSize r)) as Hfull.
  { rewrite Hw, length_app. unfold adv. symmetry.
    destruct (Z.ltb_spec (pucFree r - pucHead r + (k + len q + len bs)) (xSize r));
      match goal with |- _ = (?x =? ?y) => destruct (Z.eqb_spec x y) end;
      first [apply bool_decide_eq_true | apply bool_decide_eq_false]; lia. }
  rewrite Hfull in Hr'.
  assert (ring_load (store r') (pucHead r) (xSize r) (adv (xSize r) (pucFree r - pucHead r) k)
            (len (q ++ bs)) = q ++ bs) as Hd.
  { eapply byte_copied_keeps; eauto; try lia. rewrite <- br_data0 at 2. f_equal. lia. }
  assert (is_full r = false) as Hnf by (rewrite br_full0; apply bool_decide_eq_false; lia).
  clear E Hc Hfull br_full0. set (w' := pucWrite r') in *. set (m' := store r') in *. clearbody w' m'. subst r'.
  pose proof (is_full_set_full r) as F1.
  rewrite length_app, Nat2Z.inj_add in *.
  destruct r; unfold set_full, is_full in *; simpl in *; rb_unfold_consts.
  case_bool_decide; simpl in *; (split; [|done]); split; simpl; unfold is_full; simpl;
    rewrite ?length_app, ?Nat2Z.inj_add; autorewrite with rbflags;
    rewrite ?br_byte0, ?br_split0, ?Hnf, ?bool_decide_true, ?bool_decide_false by lia; auto; try lia.
  all: try (rewrite Hw; f_equal; f_equal; lia).
  all: etransitivity; [|exact Hd]; f_equal; lia.
Qed.

(** ** Availability, retrieval and return *)

Lemma prvCheckItemAvail_byte r k q :
  byte_rep r k q -> prvCheckItemAvail r = ((k =? 0) && negb (len q =? 0)).
Proof.
  intros []. unfold prvCheckItemAvail. rewrite br_byte0, br_waiting0, br_full0. clear br_full0.
  rewrite br_read0, br_write0. rb_unfold_consts. autorewrite with rbflags. rewrite br_byte0.
  unfold adv. simpl.
  destruct (Z.eqb_spec k 0), (Z.eqb_spec (len q) 0); simpl;
  destruct (Z.ltb_spec (pucFree r - pucHead r + k) (xSize r)),
    (Z.ltb_spec (pucFree r - pucHead r + (k + len q)) (xSize r));
  repeat match goal with |- context [?x =? ?y] => destruct (Z.eqb_spec x y) end;
  simpl; try lia;
  try case_bool_decide; simpl; rewrite ?andb_true_r, ?andb_false_r, ?orb_true_r; simpl;
  destruct (Z.gtb_spec (len q) 0); lia.
Qed.

(** How many bytes one retrieval hands out. *)
Definition byte_chunk (r : Ringbuffer_t) (q : list Z) (xMaxSize : Z) : Z :=
  let contiguous := Z.min (len q) (pucTail r - pucFree r) in
  if xMaxSize =? 0 then contiguous else Z.min contiguous xMaxSize.

Lemma byte_chunk_range r k q xMaxSize :
  byte_rep r k q -> q <> [] -> 0 <= xMaxSize ->
  0 < byte_chunk r q xMaxSize <= len q /\
  (xMaxSize <> 0 -> byte_chunk r q xMaxSize <= xMaxSize) /\
  byte_chunk r q xMaxSize <= pucTail r - pucFree r.
Proof.
  intros [] Hq Hm. unfold byte_chunk. destruct q; [done|]. simpl in *.
  destruct (Z.eqb_spec xMaxSize 0); lia.
Qed.

(** The contiguous data ends at the tail or at the write pointer. *)
Lemma byte_contiguous r q :
  byte_rep r 0 q -> q <> [] ->
  let c := Z.min (len q) (pucTail r - pucFree r) in
  pucRead r = pucFree r /\
  (negb (pucRead r =? pucWrite r) || is_full r) = true /\
  if (pucRead r >? pucWrite r) || is_full r
  then pucTail r - pucRead r = c /\ pucHead r = pucHead r + adv (xSize r) (pucFree r - pucHead r) c
  else pucWrite r - pucRead r = c /\ pucWrite r = pucHead r + adv (xSize r) (pucFree r - pucHead r) c.
Proof.
  intros [] Hq c. assert (0 < len q) by (destruct q; simpl in *; [done|lia]).
  rewrite br_read0, br_write0, br_full0. clear br_full0. unfold c, adv in *.
  destruct (Z.ltb_spec (pucFree r - pucHead r + 0) (xSize r)); [|lia].
  split; [lia|].
  destruct (Z.ltb_spec (pucFree r - pucHead r + (0 + len q)) (xSize r)).
  - rewrite bool_decide_false, !orb_false_r by lia. split; [lia|].
    destruct (Z.gtb_spec (pucHead r + (pucFree r - pucHead r + 0)) (pucHead r + (pucFree r - pucHead r + (0 + len q)))); [lia|].
    rewrite Z.min_l by lia. destruct (Z.ltb_spec (pucFree r - pucHead r + len q) (xSize r)); lia.
  - assert (((pucHead r + (pucFree r - pucHead r + 0) >? pucHead r + (pucFree r - pucHead r + (0 + len q) - xSize r))
      || bool_decide (0 + len q = xSize r)) = true) as ->.
    { case_bool_decide; [apply orb_true_r|]. rewrite orb_false_r. lia. }
    split; [case_bool_decide; lia|].
    rewrite Z.min_r by lia.
    destruct (Z.ltb_spec (pucFree r - pucHead r + (pucTail r - pucFree r)) (xSize r)); lia.
Qed.

(** The shape every branch of [prvGetItemByteBuf] has. *)
Lemma prvGetItemByteBuf_eq r q xMaxSize :
  byte_rep r 0 q -> q <> [] -> 0 <= xMaxSize ->
  let n := byte_chunk r q xMaxSize in
  prvGetItemByteBuf r xMaxSize =
    Some (set_pucRead (pucHead r + adv (xSize r) (pucFree r - pucHead r) n)
            (set_waiting (xItemsWaiting r - n) r), (pucFree r, n)).
Proof.
  intros R Hq Hm n. destruct (byte_contiguous r q R Hq) as (Hrf & Hne & Hc).
  pose proof (byte_chunk_range _ _ _ xMaxSize R Hq Hm) as Hn. fold n in Hn.
  destruct R. unfold prvGetItemByteBuf, in_storage. rewrite Hne, br_waiting0.
  replace (len q >? 0) with true by lia.
  rewrite Hrf, Z.eqb_refl in *. replace (_ && (pucFree r <? pucTail r)) with true by lia.
  unfold n, byte_chunk in *. clear n.
  set (c := Z.min (len q) (pucTail r - pucFree r)) in *. simpl.
  destruct ((pucFree r >? pucWrite r) || is_full r); destruct Hc as [-> Hp]; rewrite u32_id by lia;
    (destruct (Z.eqb_spec xMaxSize 0); simpl; [repeat f_equal; destruct r; done|]);
    (destruct (Z.leb_spec c xMaxSize);
      [rewrite Z.min_l by lia; repeat f_equal; destruct r; done|rewrite Z.min_r by lia]);
    unfold adv; destruct (Z.ltb_spec (pucFree r - pucHead r + xMaxSize) (xSize r)); [|lia| |lia];
    destruct r; simpl in *; do 3 f_equal; lia.
Qed.

Lemma byte_rep_get r q xMaxSize :
  byte_rep r 0 q -> q <> [] -> 0 <= xMaxSize ->
  let n := byte_chunk r q xMaxSize in
  exists r', prvGetItemByteBuf r xMaxSize = Some (r', (pucFree r, n)) /\
    byte_rep r' n (drop (Z.to_nat n) q) /\
    load_bytes (store r') (pucFree r) n = take (Z.to_nat n) q /\
    geom r' = geom r /\ pucFree r' = pucFree r.
Proof.
  intros R Hq Hm n. pose proof (prvGetItemByteBuf_eq _ _ _ R Hq Hm) as E. fold n in E.
  pose proof (byte_chunk_range _ _ _ _ R Hq Hm) as (Hn & _ & Hc). fold n in Hn, Hc. clearbody n.
  eexists. split; [exact E|]. clear E. destruct R.
  assert (Hr : pucRead r - pucHead r = pucFree r - pucHead r).
  { rewrite br_read0. unfold adv. destruct (_ <? _) eqn:?; lia. }
  rewrite Hr in br_data0.
  assert (Hlen : len (drop (Z.to_nat n) q) = len q - n) by (rewrite length_drop; lia).
  pose proof (ring_load_split (store r) (pucHead r) (xSize r) (pucFree r - pucHead r) n (len q - n)
    ltac:(lia) ltac:(lia) ltac:(lia) ltac:(lia)) as Hs.
  replace (n + (len q - n)) with (len q) in Hs by lia. rewrite br_data0 in Hs.
  assert (Hl : length (ring_load (store r) (pucHead r) (xSize r) (pucFree r - pucHead r) n) = Z.to_nat n)
    by apply length_ring_load.
  split; [|split].
  - destruct r; simpl in *. split; simpl; unfold is_full in *; simpl in *; auto; try lia.
    + rewrite Hlen. rewrite br_write0. f_equal. f_equal. lia.
    + rewrite br_full0, Hlen. apply bool_decide_ext. lia.
    + rewrite Hlen. rewrite Hs at 2. rewrite drop_app_length' by done. f_equal. lia.
  - rewrite Hs at 1. rewrite take_app_length' by done. rewrite ring_load_contig by lia.
    destruct r; simpl. f_equal. lia.
  - by destruct r.
Qed.

(** Giving back the outstanding bytes frees exactly them. *)
Lemma byte_rep_return r k q p :
  byte_rep r k q -> 0 < k -> pucHead r <= p < pucTail r ->
  exists r', prvReturnItemByteBuf r p = Some r' /\ byte_rep r' 0 q /\ geom r' = geom r /\
    pucFree r' = pucRead r.
Proof.
  intros [] Hk Hp. unfold prvReturnItemByteBuf.
  replace (pucHead r <=? p) with true by lia. replace (p <? pucTail r) with true by lia.
  eexists. split; [reflexivity|].
  pose proof (adv_range (xSize r) (pucFree r - pucHead r) k ltac:(lia) ltac:(lia)) as Ha.
  assert (is_full (set_pucFree (pucRead r) r) = is_full r) as -> by (destruct r; done).
  assert (Hf : is_full (if is_full r then clear_full (set_pucFree (pucRead r) r)
                        else set_pucFree (pucRead r) r) = false).
  { destruct (is_full r) eqn:E; [apply is_full_clear_full|by destruct r]. }
  set (off := pucFree r - pucHead r) in *.
  assert (Hw : adv (xSize r) (adv (xSize r) off k) (len q) = adv (xSize r) off (k + len q))
    by (apply adv_adv; lia).
  assert (H0 : adv (xSize r) (adv (xSize r) off k) 0 = adv (xSize r) off k)
    by (rewrite adv_adv by lia; f_equal; lia).
  clearbody off.
  destruct (is_full r); (split; [|by destruct r]); split; rewrite ?Hf;
    destruct r; simpl in *; rb_unfold_consts; autorewrite with rbflags;
    rewrite ?br_byte0, ?br_split0; auto; try lia;
    try (symmetry; apply bool_decide_eq_false; lia);
    rewrite br_read0, Z.add_simpl_l, ?H0; rewrite ?Z.add_0_l, ?Hw; auto.
Qed.

(** A fresh byte buffer is the empty queue. *)
Lemma byte_rep_init size storage m :
  0 < size < 2147483648 -> 0 <= storage ->
  byte_rep (prvInitializeNewRingbuffer size RINGBUF_TYPE_BYTEBUF storage m) 0 [].
Proof.
  intros. unfold prvInitializeNewRingbuffer.
  assert (E : adv size 0 0 = 0) by (unfold adv; destruct (Z.ltb_spec (0 + 0) size); lia).
  split; simpl; rewrite ?Z.sub_diag; change (0 + Z.of_nat 0) with 0; rewrite ?E; auto; try lia.
  unfold is_full. simpl. symmetry. apply bool_decide_eq_false. lia.
Qed.

(** Unblocking tasks and notifying a queue set leave the queue alone. *)
Lemma byte_rep_unblock_receiver r k q :
  byte_rep r k q -> byte_rep (unblock_receiver r) k q /\ geom (unblock_receiver r) = geom r.
Proof. intros []. unfold unblock_receiver. destruct (xTasksWaitingToReceive r); destruct r; (split; [by split|done]). Qed.

Lemma byte_rep_unblock_sender r k q :
  byte_rep r k q ->
  byte_rep (unblock_sender r) k q /\ geom (unblock_sender r) = geom r /\
  pucFree (unblock_sender r) = pucFree r.
Proof. intros []. unfold unblock_sender. destruct (xTasksWaitingToSend r); destruct r; (split; [by split|done]). Qed.

Lemma byte_rep_written r k q r' b :
  byte_rep r k q -> item_written r = (r', b) ->
  byte_rep (notify_queue_set b r') k q /\ geom (notify_queue_set b r') = geom r.
Proof.
  intros R. unfold item_written. destruct (xQueueSet r) as [z|] eqn:Eq; intros [= <- <-].
  - simpl. rewrite Eq. destruct R, r; (split; [by split|done]).
  - simpl. by apply byte_rep_unblock_receiver.
Qed.

(** ** The theorems *)

(** [byte_rep] of the API's immediate send: accepted exactly when it fits. *)
Theorem xRingbufferSendFromISR_byte r k q bs :
  byte_rep r k q -> 0 <= len bs ->
  exists r', xRingbufferSendFromISR r bs (len bs) = Some (r', len bs <=? xSize r - k - len q) /\
    byte_rep r' k (if len bs <=? xSize r - k - len q then q ++ bs else q) /\ geom r' = geom r.
Proof.
  intros R Hb. unfold xRingbufferSendFromISR. pose proof R as [].
  rewrite br_max0, br_byte0. unfold xCheckItemFits, vCopyItem. rewrite br_type0.
  destruct (Z.gtb_spec (len bs) (xSize r)).
  { exists r. replace (len bs <=? xSize r - k - len q) with false by lia. done. }
  destruct (Z.eqb_spec (len bs) 0) as [E|E]; simpl.
  { exists r. replace (len bs <=? xSize r - k - len q) with true by lia.
    destruct bs; [|done]. by rewrite app_nil_r. }
  rewrite (prvCheckItemFitsByteBuffer_spec _ _ _ _ R) by lia.
  destruct (Z.leb_spec (len bs) (xSize r - k - len q)) as [Hf|Hf]; [|by exists r].
  destruct (byte_rep_copy _ _ _ bs R) as (r1 & -> & R1 & <-); [lia|].
  destruct (item_written r1) as [r2 b] eqn:Ew.
  eexists. split; [reflexivity|]. by eapply byte_rep_written.
Qed.

(** A client of a byte buffer: the bytes it had accepted, the bytes it was
    given, and the pointer it has not returned yet. *)
Record byte_client := ByteClient {
  bc_rb : Ringbuffer_t;
  bc_sent : list Z;
  bc_got : list Z;
  bc_out : option Z
}.

Inductive byte_op := OpSend (bs : list Z) | OpReceive (xMaxSize : Z) | OpReturn.

Definition byte_op_ok (o : byte_op) : Prop :=
  match o with OpReceive n => 0 <= n | _ => True end.

Definition byte_step (c : byte_client) (o : byte_op) : option byte_client :=
  match o with
  | OpSend bs =>
      let? (r, ok) := xRingbufferSendFromISR (bc_rb c) bs (len bs) in
      Some (ByteClient r (bc_sent c ++ if ok : bool then bs else []) (bc_got c) (bc_out c))
  | OpReceive xMaxSize =>
      let? (r, res) := xRingbufferReceiveUpToFromISR (bc_rb c) xMaxSize in
      match res with
      | None => Some (ByteClient r (bc_sent c) (bc_got c) (bc_out c))
      | Some (Received (p, n) _) =>
          Some (ByteClient r (bc_sent c) (bc_got c ++ load_bytes (store r) p n) (Some p))
      end
  | OpReturn =>
      match bc_out c with
      | None => Some c
      | Some p =>
          let? r := vRingbufferReturnItemFromISR (bc_rb c) p in
          Some (ByteClient r (bc_sent c) (bc_got c) None)
      end
  end.

Fixpoint byte_run (c : byte_client) (os : list byte_op) : option byte_client :=
  match os with
  | [] => Some c
  | o :: os => let? c := byte_step c o in byte_run c os
  end.

Definition byte_start (size storage : Z) (m : mem) : byte_client :=
  ByteClient (prvInitializeNewRingbuffer size RINGBUF_TYPE_BYTEBUF storage m) [] [] None.

Definition byte_inv (storage size : Z) (c : byte_client) (k : Z) (q : list Z) : Prop :=
  byte_rep (bc_rb c) k q /\ geom (bc_rb c) = (storage, size) /\ bc_sent c = bc_got c ++ q /\
  match bc_out c with
  | None => k = 0
  | Some p => 0 < k /\ storage <= p < storage + size
  end.

Section ByteClient.
  Context (storage size : Z).

Lemma byte_inv_send c k q bs :
    byte_inv storage size c k q ->
    exists c' q', byte_step c (OpSend bs) = Some c' /\ byte_inv storage size c' k q'.
  Proof.
    intros (R & G & S & O).
    destruct (xRingbufferSendFromISR_byte _ _ _ bs R ltac:(lia)) as (r' & E & R' & G').
    simpl. rewrite E. eexists _, _. split; [reflexivity|]. split; [exact R'|].
    simpl. rewrite G', G, S. split; [done|]. split; [|exact O].
    destruct (_ <=? _); rewrite ?app_nil_r, ?app_assoc; done.
  Qed.

Lemma byte_inv_receive c k q n :
    0 <= n -> byte_inv storage size c k q ->
    exists c' k' q', byte_step c (OpReceive n) = Some c' /\ byte_inv storage size c' k' q' /\
      (k = 0 -> q <> [] -> n <> 0 ->
       k' = byte_chunk (bc_rb c) q n /\ q' = drop (Z.to_nat k') q /\ bc_out c' <> None /\
       pucFree (bc_rb c') = pucFree (bc_rb c)) /\
      (q = [] -> q' = []).
  Proof.
    intros Hn (R & G & S & O). pose proof R as [].
    simpl. unfold xRingbufferReceiveUpToFromISR, prvReceiveGenericFromISR, prvReceiveNow, pvGetItem.
    rewrite br_byte0, br_type0, (prvCheckItemAvail_byte _ _ _ R).
    destruct (Z.eqb_spec n 0) as [->|Hn0].
    { eexists _, k, q. split; [reflexivity|]. split; [by split_and!|]. done. }
    destruct (Z.eqb_spec k 0) as [->|Hk]; simpl.
    2: { eexists _, k, q. split; [reflexivity|]. split; [by split_and!|]. done. }
    destruct (Z.eqb_spec (len q) 0) as [Hq|Hq]; simpl.
    { eexists _, 0, q. split; [reflexivity|]. split; [by split_and!|]. split; [by destruct q|done]. }
    assert (q <> []) as Hne by (intros ->; done).
    destruct (byte_rep_get _ _ n R Hne Hn) as (r' & Eg & R' & L & G' & F'). rewrite Eg.
    rewrite (andb_false_r (flag (uxRingbufferFlags r') rbALLOW_SPLIT_FLAG)).
    pose proof (byte_chunk_range _ _ _ n R Hne Hn) as (Hc & _ & Hc').
    eexists _, _, _. split; [reflexivity|]. split; [split; [exact R'|]|].
    2: { split; [by auto|by intros ->]. }
    simpl. rewrite G', S, L, <- app_assoc, take_drop.
    injection G as Gh Gs. split_and!; auto; try lia. unfold geom. by rewrite Gh, Gs.
  Qed.

Lemma byte_inv_return c k q :
    byte_inv storage size c k q ->
    exists c', byte_step c OpReturn = Some c' /\ byte_inv storage size c' 0 q /\
      bc_out c' = None /\ bc_got c' = bc_got c /\
      (bc_out c <> None -> pucFree (bc_rb c') = pucRead (bc_rb c)) /\
      (bc_out c = None -> c' = c).
  Proof.
    intros (R & G & S & O). simpl. destruct (bc_out c) as [p|] eqn:Eo.
    2: { exists c. subst k. unfold byte_inv. rewrite Eo. by split_and!. }
    destruct O as [Hk Hp]. pose proof R as []. injection G as Gh Gs.
    unfold vRingbufferReturnItemFromISR, vReturnItem. rewrite br_type0.
    destruct (byte_rep_return _ _ _ p R Hk) as (r' & -> & R' & G' & F'); [lia|].
    destruct (byte_rep_unblock_sender _ _ _ R') as (R2 & G2 & F2).
    eexists. split; [reflexivity|]. split; [|by rewrite <- F', <- F2].
    split; [exact R2|]. simpl. rewrite G2, G'. unfold geom. by rewrite Gh, Gs.
  Qed.

Lemma byte_run_inv os : forall c k q,
    Forall byte_op_ok os -> byte_inv storage size c k q ->
    exists c' k' q', byte_run c os = Some c' /\ byte_inv storage size c' k' q'.
  Proof.
    induction os as [|o os IH]; intros c k q Hok I; simpl; [by exists c, k, q|].
    inversion Hok as [|? ? Ho Hos]; subst.
    destruct o as [bs|n|].
    - destruct (byte_inv_send c k q bs I) as (c' & q' & -> & I'). eauto.
    - destruct (byte_inv_receive c k q n Ho I) as (c' & k' & q' & -> & I' & _). eauto.
    - destruct (byte_inv_return c k q I) as (c' & -> & I' & _). eauto.
  Qed.

Lemma byte_run_app c os os' :
    byte_run c (os ++ os') = let? c := byte_run c os in byte_run c os'.
  Proof.
    revert c. induction os as [|o os IH]; intros c; simpl; [done|].
    destruct (byte_step c o); [apply IH|done].
  Qed.

  (** One receive of up to the buffer size, and its return: the queue is empty
      or the free pointer is back at the head, and from the head it is empty. *)
Lemma byte_drain_round c q :
    0 < size -> byte_inv storage size c 0 q ->
    exists c' q', byte_run c [OpReceive size; OpReturn] = Some c' /\
      byte_inv storage size c' 0 q' /\ (q' <> [] -> pucFree (bc_rb c') = storage) /\
      (pucFree (bc_rb c) = storage \/ q = [] -> q' = []).
  Proof.
    intros Hs I. destruct (byte_inv_receive c 0 q size ltac:(lia) I) as (c1 & k1 & q1 & E1 & I1 & H1 & Z1).
    destruct (byte_inv_return c1 k1 q1 I1) as (c2 & E2 & I2 & _ & _ & F2 & _).
    exists c2, q1. cbn [byte_run]. rewrite E1, E2. split; [done|]. split; [done|].
    destruct (decide (q = [])) as [->|Hq]; [by rewrite Z1|].
    destruct (H1 eq_refl Hq ltac:(lia)) as (Hk & Hq1 & Ho & F1). rewrite (F2 Ho).
    destruct I as (R & G & _), I1 as (R1 & G1 & _). injection G as Gh Gs. injection G1 as Gh1 Gs1.
    destruct R, R1. rewrite br_read1, F1, Gs1, Gh1. unfold byte_chunk, adv in *.
    destruct (Z.eqb_spec size 0); [lia|].
    assert (len q1 = len q - k1) by (rewrite Hq1, length_drop; lia).
    assert (len q1 = 0 -> q1 = []) as H0 by (intros; apply nil_length_inv; lia).
    split.
    - intros Hne. destruct (Z.ltb_spec (pucFree (bc_rb c) - storage + k1) size); [|lia].
      exfalso. apply Hne, H0. lia.
    - intros [Hf|]; [|done]. apply H0. lia.
  Qed.

Lemma byte_inv_start m :
    0 < size < 2147483648 -> 0 <= storage -> byte_inv storage size (byte_start size storage m) 0 [].
  Proof. intros. split; [by apply byte_rep_init|]. done. Qed.
End ByteClient.

(** C16. A byte buffer is a FIFO channel of bytes: from a fresh buffer of any
    size below 2^31, no sequence of sends, size-limited receives and returns
    makes an assertion fail, and the bytes handed to readers are a prefix of
    the bytes accepted from writers, never more than the buffer size behind. *)
Theorem byte_buffer_fifo size storage m os :
  0 < size < 2147483648 -> 0 <= storage -> Forall byte_op_ok os ->
  exists c, byte_run (byte_start size storage m) os = Some c /\
    bc_got c `prefix_of` bc_sent c /\ len (bc_sent c) - len (bc_got c) <= size.
Proof.
  intros Hs Hst Hok.
  destruct (byte_run_inv storage size os _ _ _ Hok (byte_inv_start storage size m Hs Hst))
    as (c & k & q & E & R & G & S & O).
  exists c. split; [done|]. rewrite S. split; [by exists q|].
  destruct R. injection G as _ <-. rewrite length_app. lia.
Qed.

Lemma byte_buffer_fifo_witness :
  exists c, byte_run (byte_start 8 1000 (fun _ => 0))
              [OpSend [1; 2; 3; 4; 5; 6]; OpReceive 4; OpReturn; OpSend [7; 8; 9; 10; 11]; OpReceive 9] = Some c /\
    bc_got c `prefix_of` bc_sent c /\ len (bc_sent c) - len (bc_got c) <= 8.
Proof.
  apply (byte_buffer_fifo 8 1000 (fun _ => 0)); [lia|lia|].
  repeat constructor; simpl; lia.
Defined.

(** Nothing stays behind: after any run, two rounds of returning the
    outstanding bytes and receiving up to the buffer size deliver every byte
    that was accepted. *)
Theorem byte_buffer_drains size storage m os :
  0 < size < 2147483648 -> 0 <= storage -> Forall byte_op_ok os ->
  exists c, byte_run (byte_start size storage m)
              (os ++ [OpReturn; OpReceive size; OpReturn; OpReceive size; OpReturn]) = Some c /\
    bc_got c = bc_sent c.
Proof.
  intros Hs Hst Hok.
  destruct (byte_run_inv storage size os _ _ _ Hok (byte_inv_start storage size m Hs Hst))
    as (c & k & q & E & I).
  destruct (byte_inv_return storage size c k q I) as (c1 & E1 & I1 & _).
  destruct (byte_drain_round storage size c1 q ltac:(lia) I1) as (c2 & q2 & E2 & I2 & F2 & _).
  destruct (byte_drain_round storage size c2 q2 ltac:(lia) I2) as (c3 & q3 & E3 & I3 & _ & F3).
  exists c3. rewrite byte_run_app, E. split.
  - change [OpReturn; OpReceive size; OpReturn; OpReceive size; OpReturn]
      with ([OpReturn] ++ [OpReceive size; OpReturn] ++ [OpReceive size; OpReturn]).
    rewrite byte_run_app. cbn [byte_run]. rewrite E1. by rewrite byte_run_app, E2.
  - destruct I3 as (_ & _ & -> & _). rewrite F3; [by rewrite app_nil_r|].
    destruct (decide (q2 = [])); auto.
Qed.

Lemma byte_buffer_drains_witness :
  exists c, byte_run (byte_start 8 1000 (fun _ => 0))
              ([OpSend [1; 2; 3; 4; 5; 6]; OpReceive 4; OpReturn; OpSend [7; 8; 9; 10]; OpReceive 1]
               ++ [OpReturn; OpReceive 8; OpReturn; OpReceive 8; OpReturn]) = Some c /\
    bc_got c = bc_sent c.
Proof.
  apply (byte_buffer_drains 8 1000 (fun _ => 0)); [lia|lia|].
  repeat constructor; simpl; lia.
Defined.
