(* ===== verification/RingbufItem.v ===== *)
(** * Item buffers: the chain of blocks in the storage

    No-split and allow-split buffers keep a chain of blocks (items, item parts
    and dummies) from the free pointer over the read pointer to the acquire
    pointer.  This file describes such a chain and how memory writes, removals
    at the front and additions at the end act on it. *)

From S2P Require Import Prelude Ringbuf RingbufByte.

#[local] Ltac Zify.zify_post_hook ::= Z.div_mod_to_equations.

(** ** Alignment *)

Definition al (n : Z) : Z := 4 * ((n + 3) / 4).

Lemma land_lnot_3 x : 0 <= x -> Z.land x (Z.lnot 3) = 4 * (x / 4).
Proof.
  intros Hx. change 3 with (Z.ones 2). rewrite <- Z.ldiff_land, Z.ldiff_ones_r by lia.
  rewrite Z.shiftl_mul_pow2, Z.shiftr_div_pow2 by lia. change (2 ^ 2) with 4. lia.
Qed.

Lemma rbALIGN_SIZE_al n : 0 <= n < 4294967292 -> rbALIGN_SIZE n = al n.
Proof.
  intros. unfold rbALIGN_SIZE, rbALIGN_MASK, al. rewrite u32_id by lia.
  apply land_lnot_3. lia.
Qed.

Lemma rbCHECK_ALIGNED_spec p : rbCHECK_ALIGNED p = (p mod 4 =? 0).
Proof. unfold rbCHECK_ALIGNED, rbALIGN_MASK. change 3 with (Z.ones 2). by rewrite Z.land_ones. Qed.

(** ** Blocks *)

(** A block: its header's length and flags, and the item's bytes. *)
Record blk := Blk { b_len : Z; b_flags : Z; b_data : list Z }.

Definition is_dummy (b : blk) : bool := flag (b_flags b) rbITEM_DUMMY_DATA_FLAG.
Definition is_split (b : blk) : bool := flag (b_flags b) rbITEM_SPLIT_FLAG.
Definition is_freed (b : blk) : bool := flag (b_flags b) rbITEM_FREE_FLAG.

Section Chain.
  Context (head size maxlen : Z) (geo : 8 <= size < 2147483648 /\ size mod 4 = 0 /\ 0 <= maxlen < 2147483648).
  Set Default Proof Using "All".

  (** The ring bytes a block takes up, with the unusable rest before the tail. *)
Definition ext (off : Z) (b : blk) : Z :=
    if is_dummy b then size - off
    else let e := 8 + al (b_len b) in if size - (off + e) <? 8 then size - off else e.

Definition next (off : Z) (b : blk) : Z := adv size off (ext off b).

Definition good (off : Z) : Prop := 0 <= off /\ off mod 4 = 0 /\ off + 8 <= size.

Definition block_at (m : mem) (off : Z) (b : blk) : Prop :=
    good off /\ load32 m (head + off) = b_len b /\ load32 m (head + off + 4) = b_flags b /\
    (0 <= b_len b <= maxlen /\ 0 <= b_flags b < 16) /\
    (is_split b = true -> off + 8 + al (b_len b) = size) /\
    (is_dummy b = false ->
     off + 8 + al (b_len b) <= size /\ len (b_data b) = b_len b /\
     load_bytes m (head + off + 8) (b_len b) = b_data b).

Fixpoint chain (m : mem) (off : Z) (bs : list blk) : Prop :=
    match bs with
    | [] => True
    | b :: bs => block_at m off b /\ chain m (next off b) bs
    end.

Fixpoint total (off : Z) (bs : list blk) : Z :=
    match bs with
    | [] => 0
    | b :: bs => ext off b + total (next off b) bs
    end.

Lemma ext_range m off b : block_at m off b -> 8 <= ext off b <= size - off.
  Proof.
    intros ((? & ? & ?) & _ & _ & ? & _ & Hd). unfold ext. destruct (is_dummy b); [lia|].
    destruct (Hd eq_refl) as [? _]. unfold al in *.
    match goal with |- context [?x <? 8] => destruct (Z.ltb_spec x 8) end; lia.
  Qed.

Lemma next_good m off b : block_at m off b -> good (next off b).
  Proof.
    intros B. pose proof (ext_range _ _ _ B). destruct B as ((? & ? & ?) & _ & _ & ? & _ & Hd).
    unfold next, adv, good. unfold ext in *. unfold al in *.
    destruct (is_dummy b).
    - destruct (Z.ltb_spec (off + (size - off)) size); lia.
    - destruct (Hd eq_refl) as [? _].
      destruct (Z.ltb_spec (size - (off + (8 + 4 * ((b_len b + 3) / 4)))) 8);
      match goal with |- context [?x <? size] => destruct (Z.ltb_spec x size) end; lia.
  Qed.

Lemma total_nonneg m off bs : chain m off bs -> 0 <= total off bs.
  Proof.
    revert off. induction bs as [|b bs IH]; intros off; simpl; [lia|].
    intros [B C]. pose proof (ext_range _ _ _ B). specialize (IH _ C). lia.
  Qed.

Lemma total_pos m off b bs : chain m off (b :: bs) -> 8 <= total off (b :: bs).
  Proof.
    intros [B C]. simpl. pose proof (ext_range _ _ _ B). pose proof (total_nonneg _ _ _ C). lia.
  Qed.

  (** The offset after a chain. *)
Fixpoint after (off : Z) (bs : list blk) : Z :=
    match bs with [] => off | b :: bs => after (next off b) bs end.

Lemma after_good m off bs : good off -> chain m off bs -> good (after off bs).
  Proof.
    revert off. induction bs as [|b bs IH]; intros off G; simpl; [done|].
    intros [B C]. apply IH; [by eapply next_good|done].
  Qed.

Lemma after_total m off bs :
    good off -> chain m off bs -> total off bs <= size -> after off bs = adv size off (total off bs).
  Proof.
    revert off. induction bs as [|b bs IH]; intros off G; simpl.
    - intros _ _. unfold adv, good in *. destruct (Z.ltb_spec (off + 0) size); lia.
    - intros [B C] Ht. pose proof (ext_range _ _ _ B). pose proof (total_nonneg _ _ _ C).
      rewrite IH by (try lia; eauto using next_good). unfold next in *.
      rewrite adv_adv by (unfold good in *; lia). done.
  Qed.

Lemma after_app off bs1 bs2 : after off (bs1 ++ bs2) = after (after off bs1) bs2.
  Proof using Type. clear geo. revert off. induction bs1; simpl; auto. Qed.

Lemma total_app off bs1 bs2 :
    total off (bs1 ++ bs2) = total off bs1 + total (after off bs1) bs2.
  Proof using Type. clear geo. revert off. induction bs1 as [|b bs1 IH]; intros off; simpl; [lia|]. rewrite IH. lia. Qed.

Lemma chain_app m off bs1 bs2 :
    chain m off (bs1 ++ bs2) <-> chain m off bs1 /\ chain m (after off bs1) bs2.
  Proof using Type. clear geo. revert off. induction bs1 as [|b bs1 IH]; intros off; simpl; [tauto|]. rewrite IH. tauto. Qed.

  (** The addresses handed to readers and not returned yet, with the bytes
      behind them. *)
Fixpoint live (off : Z) (bs : list blk) : list (Z * list Z) :=
    match bs with
    | [] => []
    | b :: bs =>
        (if is_freed b || is_dummy b then [] else [(head + off + 8, b_data b)]) ++ live (next off b) bs
    end.

Lemma live_app off bs1 bs2 : live off (bs1 ++ bs2) = live off bs1 ++ live (after off bs1) bs2.
  Proof using Type.
    clear geo. revert off. induction bs1 as [|b bs1 IH]; intros off; simpl; [done|].
    by rewrite IH, app_assoc.
  Qed.

Lemma live_bytes m off bs p d :
    chain m off bs -> (p, d) ∈ live off bs -> load_bytes m p (Z.of_nat (length d)) = d.
  Proof.
    revert off. induction bs as [|b bs IH]; intros off; simpl; [by rewrite elem_of_nil|].
    intros [B C]. rewrite elem_of_app. intros [H|H]; [|eauto].
    destruct (is_freed b); simpl in H; [by apply elem_of_nil in H|].
    destruct (is_dummy b) eqn:D; [by apply elem_of_nil in H|].
    apply list_elem_of_singleton in H as [= -> ->].
    destruct B as (_ & _ & _ & _ & _ & Hd). destruct (Hd D) as (_ & -> & E). done.
  Qed.

  (** ** Frames *)

Lemma block_at_ext m m' off b :
    (forall i, 0 <= i < ext off b -> m' (head + (off + i)) = m (head + (off + i))) ->
    block_at m off b -> block_at m' off b.
  Proof.
    intros He B. pose proof (ext_range _ _ _ B) as Hr.
    assert (Hrd : forall x, head + off <= x < head + off + ext off b -> m' x = m x).
    { intros x Hx. replace x with (head + (off + (x - head - off))) by lia. apply He. lia. }
    destruct B as (G & Hl & Hf & Hn & Hs & Hd). unfold block_at. split; [done|].
    split; [|split; [|split; [done|split; [done|]]]].
    - etransitivity; [|exact Hl]. apply load32_ext. intros. apply Hrd. lia.
    - etransitivity; [|exact Hf]. apply load32_ext. intros. apply Hrd. lia.
    - intros D. destruct (Hd D) as (H1 & H2 & H3). split; [done|split; [done|]].
      rewrite <- H3. apply load_bytes_ext. intros x Hx. apply Hrd.
      unfold ext in *. rewrite D in *. unfold al in *.
      match goal with |- context [?a <? 8] => destruct (Z.ltb_spec a 8) end; lia.
  Qed.

Lemma chain_ext m m' off bs :
    good off ->
    (forall i, 0 <= i < total off bs -> m' (head + adv size off i) = m (head + adv size off i)) ->
    total off bs <= size -> chain m off bs -> chain m' off bs.
  Proof.
    revert off. induction bs as [|b bs IH]; intros off G He Ht; simpl; [done|].
    intros [B C]. pose proof (ext_range _ _ _ B) as Hr. pose proof (total_nonneg _ _ _ C).
    simpl in *. split.
    - apply (block_at_ext m); [|done]. intros i Hi. specialize (He i ltac:(lia)).
      unfold adv in He. destruct (Z.ltb_spec (off + i) size); [done|lia].
    - apply IH; [by eapply next_good| |lia|done].
      intros i Hi. specialize (He (ext off b + i) ltac:(lia)).
      unfold next. rewrite adv_adv by (unfold good in *; lia). done.
  Qed.

  (** A write at ring position [t] past a chain leaves the chain alone. *)
Lemma adv_disjoint off i t n :
    0 <= off < size -> 0 <= i < t -> t + n <= size -> adv size off t + n <= size ->
    adv size off i < adv size off t \/ adv size off t + n <= adv size off i.
  Proof using Type.
    clear geo.
    unfold adv. intros.
    destruct (Z.ltb_spec (off + i) size), (Z.ltb_spec (off + t) size); lia.
  Qed.

  (** And a write before it, inside another block, too. *)
Lemma adv_disjoint_after off i t n :
    0 <= off < size -> 0 <= t -> t + n <= i < size -> adv size off t + n <= size ->
    adv size off i < adv size off t \/ adv size off t + n <= adv size off i.
  Proof using Type.
    clear geo.
    unfold adv. intros.
    destruct (Z.ltb_spec (off + i) size), (Z.ltb_spec (off + t) size); lia.
  Qed.
  (** Rewriting one block in place. *)
Lemma chain_update m m' off l1 b b' l2 :
    let p := after off l1 in
    good off -> chain m off (l1 ++ b :: l2) -> total off (l1 ++ b :: l2) <= size ->
    (forall x, x < head + p \/ head + p + ext p b <= x -> m' x = m x) ->
    block_at m' p b' -> ext p b' = ext p b ->
    chain m' off (l1 ++ b' :: l2) /\ total off (l1 ++ b' :: l2) = total off (l1 ++ b :: l2) /\
    after off (l1 ++ b' :: l2) = after off (l1 ++ b :: l2).
  Proof.
    intros p G C T He B' E. apply chain_app in C as [C1 [B C2]]. fold p in B, C2.
    rewrite total_app in T. simpl in T. fold p in T.
    assert (En : next p b' = next p b) by (unfold next; by rewrite E).
    pose proof (ext_range _ _ _ B) as Hr. pose proof (total_nonneg _ _ _ C1).
    pose proof (total_nonneg _ _ _ C2). pose proof (next_good _ _ _ B) as Gn.
    pose proof (after_good _ _ _ G C1) as Gp. fold p in Gp.
    pose proof (after_total _ _ _ G C1 ltac:(lia)) as Hp. fold p in Hp.
    split; [apply chain_app; split; [|split]|].
    - apply (chain_ext m); auto; [|lia]. intros i Hi. apply He.
      pose proof (adv_disjoint off i (total off l1) (ext p b)) as Hd. rewrite <- Hp in Hd.
      unfold good in *. lia.
    - done.
    - fold p. rewrite En. apply (chain_ext m); auto; [|lia]. intros i Hi. apply He.
      unfold next. rewrite adv_adv by (unfold good in *; lia).
      pose proof (adv_disjoint_after p (ext p b + i) 0 (ext p b)) as Hd.
      assert (adv size p 0 = p) as Hp0 by (unfold adv, good in *; destruct (Z.ltb_spec (p + 0) size); lia).
      rewrite Hp0 in Hd. unfold good, next in *. lia.
    - rewrite !total_app, !after_app. simpl. fold p. by rewrite E, En.
  Qed.

  (** Changing the flags of a block, as long as it stays an item or a dummy. *)
Definition reflag (f : Z) (b : blk) : blk := Blk (b_len b) f (b_data b).

Lemma block_at_reflag m m' p b f :
    block_at m p b -> 0 <= f < 16 -> flag f rbITEM_DUMMY_DATA_FLAG = is_dummy b ->
    (flag f rbITEM_SPLIT_FLAG = true -> is_split b = true) ->
    (forall x, x < head + p + 4 \/ head + p + 8 <= x -> m' x = m x) ->
    load32 m' (head + p + 4) = f ->
    block_at m' p (reflag f b) /\ ext p (reflag f b) = ext p b.
  Proof.
    intros (G & Hl & Hf & Hn & Hs & Hd) Hf16 D S He Hl'.
    unfold block_at, ext, is_dummy, is_split in *. simpl. rewrite D.
    split; [|done]. split_and!; try done; try lia.
    - rewrite <- Hl. apply load32_ext. intros. apply He. lia.
    - intros Hdb. destruct (Hd Hdb) as (H1 & H2 & H3). split_and!; auto.
      rewrite <- H3. apply load_bytes_ext. intros. apply He. lia.
  Qed.
End Chain.

(** ** The buffer state over a chain *)

Record item_core (r : Ringbuffer_t) (outs ws : list blk) : Prop := {
  ic_size : 16 <= xSize r < 2147483648 /\ xSize r mod 4 = 0;
  ic_head : 0 <= pucHead r /\ pucHead r mod 4 = 0;
  ic_tail : pucTail r = pucHead r + xSize r;
  ic_max : 0 <= xMaxItemSize r < xSize r;
  ic_free : good (xSize r) (pucFree r - pucHead r);
  ic_chain : chain (pucHead r) (xSize r) (xMaxItemSize r) (store r) (pucFree r - pucHead r) (outs ++ ws);
  ic_total : total (xSize r) (pucFree r - pucHead r) (outs ++ ws) <= xSize r;
  ic_read : pucRead r = pucHead r + after (xSize r) (pucFree r - pucHead r) outs;
  ic_acquire : pucAcquire r = pucHead r + after (xSize r) (pucFree r - pucHead r) (outs ++ ws)
}.

Lemma after_id_iff size off bs head maxlen m :
  8 <= size < 2147483648 /\ size mod 4 = 0 /\ 0 <= maxlen < 2147483648 -> good size off ->
  chain head size maxlen m off bs -> total size off bs <= size ->
  (after size off bs = off <-> total size off bs = 0 \/ total size off bs = size).
Proof.
  intros Hs G C Ht. rewrite (after_total head size maxlen Hs m) by done.
  pose proof (total_nonneg head size maxlen Hs m _ _ C).
  unfold adv, good in *. destruct (Z.ltb_spec (off + total size off bs) size); lia.
Qed.

(** Where the "wrap around" test leaves a pointer that moved past a block. *)
Lemma wrap_next r m off b maxlen :
  8 <= xSize r < 2147483648 /\ xSize r mod 4 = 0 -> pucTail r = pucHead r + xSize r ->
  block_at (pucHead r) (xSize r) maxlen m off b -> is_dummy b = false ->
  wrap_if_no_header r (pucHead r + off + (8 + al (b_len b))) = pucHead r + next (xSize r) off b.
Proof.
  intros Hs Ht ((? & ? & ?) & _ & _ & ? & _ & Hd) D. destruct (Hd D) as [Hfit _].
  unfold wrap_if_no_header, rbHEADER_SIZE, next, ext. rewrite D, Ht. unfold al in *.
  rewrite u32_id by lia.
  replace (pucHead r + xSize r - (pucHead r + off + (8 + 4 * ((b_len b + 3) / 4))))
    with (xSize r - (off + (8 + 4 * ((b_len b + 3) / 4)))) by lia.
  unfold adv. destruct (Z.ltb_spec (xSize r - (off + (8 + 4 * ((b_len b + 3) / 4)))) 8);
  match goal with |- context [?x <? xSize r] => destruct (Z.ltb_spec x (xSize r)) end; lia.
Qed.

Lemma wrap_head r : 8 <= xSize r < 2147483648 -> pucTail r = pucHead r + xSize r ->
  wrap_if_no_header r (pucHead r) = pucHead r.
Proof.
  intros Hs Ht. unfold wrap_if_no_header, rbHEADER_SIZE. rewrite Ht, u32_id by lia.
  destruct (Z.ltb_spec (pucHead r + xSize r - pucHead r) 8); lia.
Qed.

Lemma next_dummy size off b : is_dummy b = true -> 0 <= off < size -> next size off b = 0.
Proof.
  intros D H. unfold next, ext, adv. rewrite D.
  destruct (Z.ltb_spec (off + (size - off)) size); lia.
Qed.

Lemma core_geo r outs ws :
  item_core r outs ws ->
  8 <= xSize r < 2147483648 /\ xSize r mod 4 = 0 /\ 0 <= xMaxItemSize r < 2147483648.
Proof. intros []. lia. Qed.

(** The chain split at the read pointer. *)
Lemma core_split r outs ws :
  item_core r outs ws ->
  let off := pucRead r - pucHead r in
  good (xSize r) off /\ off = after (xSize r) (pucFree r - pucHead r) outs /\
  chain (pucHead r) (xSize r) (xMaxItemSize r) (store r) (pucFree r - pucHead r) outs /\
  chain (pucHead r) (xSize r) (xMaxItemSize r) (store r) off ws /\
  total (xSize r) (pucFree r - pucHead r) outs + total (xSize r) off ws <= xSize r.
Proof.
  intros R off. pose proof (core_geo _ _ _ R) as Hg. destruct R.
  apply chain_app in ic_chain0 as [C1 C2]. rewrite total_app in ic_total0.
  assert (Hoff : off = after (xSize r) (pucFree r - pucHead r) outs) by (unfold off; lia).
  rewrite Hoff. split_and!; auto. by eapply after_good.
Qed.

(** Availability as the reader tests it. *)
Definition readable (r : Ringbuffer_t) : Prop :=
  xItemsWaiting r > 0 /\ (negb (pucRead r =? pucWrite r) || is_full r) = true.

(** The read pointer on an item block. *)
Lemma take_item r off b :
  8 <= xSize r < 2147483648 /\ xSize r mod 4 = 0 /\ 0 <= xMaxItemSize r < 2147483648 ->
  pucTail r = pucHead r + xSize r -> pucRead r = pucHead r + off ->
  block_at (pucHead r) (xSize r) (xMaxItemSize r) (store r) off b -> is_dummy b = false ->
  prvTakeItem r =
    Some (set_pucRead (pucHead r + next (xSize r) off b) (set_waiting (xItemsWaiting r - 1) r),
          (pucRead r + 8, b_len b, is_split b)).
Proof.
  intros Hg Ht Hr B D. pose proof B as ((? & ? & ?) & Hl & Hf & Hn & _ & Hd).
  destruct (Hd D) as (Hfit & _ & _). unfold prvTakeItem, hdr_len, hdr_flags.
  pose proof (wrap_next r (store r) off b (xMaxItemSize r) ltac:(lia) Ht B D) as Hw.
  rewrite <- Hr in *. destruct r; simpl in *. unfold is_split. rewrite Hl, Hf.
  unfold rbHEADER_SIZE, al in *.
  match goal with |- (if ?c then _ else _) = _ => replace c with true end.
  2: { destruct (Z.eqb_spec (b_len b) 0); lia. }
  rewrite rbALIGN_SIZE_al, u32_id by (unfold al in *; lia). unfold al. repeat f_equal.
  etransitivity; [|exact Hw]. done.
Qed.

(** [prvGetItemDefault] on an item, and on a dummy followed by an item at the
    head. *)
Lemma get_asserts r outs b ws :
  item_core r outs (b :: ws) -> readable r ->
  prvGetItemDefault r =
    if is_dummy b then
      let r := set_pucRead (pucHead r) r in
      if hdr_len r (pucRead r) <=? xMaxItemSize r then prvTakeItem r else None
    else prvTakeItem r.
Proof.
  intros R [Hw Hav]. pose proof (core_geo _ _ _ R) as Hg.
  destruct (core_split _ _ _ R) as ((G1 & G2 & G3) & _ & _ & [B _] & _).
  destruct R as [? ? ? ? _ _ _ _ _]. destruct B as (_ & Hl & Hf & Hn & _ & Hd).
  replace (pucHead r + (pucRead r - pucHead r)) with (pucRead r) in * by lia.
  unfold prvGetItemDefault. rewrite Hav. unfold hdr_len, hdr_flags. rewrite Hl, Hf.
  rewrite rbCHECK_ALIGNED_spec. unfold in_storage, rbHEADER_SIZE.
  replace (xItemsWaiting r >? 0) with true by lia.
  replace (pucRead r mod 4 =? 0) with true by lia.
  replace ((pucHead r <=? pucRead r) && (pucRead r <? pucTail r)) with true by lia.
  replace (b_len b <=? xMaxItemSize r) with true by lia. done.
Qed.

Lemma get_plain r outs b ws :
  item_core r outs (b :: ws) -> is_dummy b = false -> readable r ->
  prvGetItemDefault r =
    Some (set_pucRead (pucHead r + next (xSize r) (pucRead r - pucHead r) b)
            (set_waiting (xItemsWaiting r - 1) r), (pucRead r + 8, b_len b, is_split b)).
Proof.
  intros R D Hav. rewrite (get_asserts _ _ _ _ R Hav), D.
  pose proof (core_geo _ _ _ R) as Hg. destruct (core_split _ _ _ R) as (_ & _ & _ & [B _] & _).
  destruct R. apply take_item; auto. lia.
Qed.

Lemma get_dummy r outs d b ws :
  item_core r outs (d :: b :: ws) -> is_dummy d = true -> is_dummy b = false -> readable r ->
  prvGetItemDefault r =
    Some (set_pucRead (pucHead r + next (xSize r) 0 b)
            (set_waiting (xItemsWaiting r - 1) r), (pucHead r + 8, b_len b, is_split b)).
Proof.
  intros R Dd D Hav. rewrite (get_asserts _ _ _ _ R Hav), Dd.
  pose proof (core_geo _ _ _ R) as Hg.
  destruct (core_split _ _ _ R) as ((? & ? & ?) & _ & _ & (_ & B & _) & _).
  rewrite next_dummy in B by (done || lia).
  destruct R. pose proof B as (_ & Hl & _ & Hn & _). rewrite Z.add_0_r in Hl.
  cbv zeta. rewrite take_item with (off := 0) (b := b); destruct r; unfold hdr_len in *; simpl in *; auto; try lia.
  rewrite Hl. destruct (Z.leb_spec (b_len b) xMaxItemSize); [done|lia].
Qed.

(** Moving blocks from the readable part to the retrieved part. *)
Lemma core_read r outs taken ws n :
  item_core r outs (taken ++ ws) ->
  item_core (set_pucRead (pucHead r + after (xSize r) (pucRead r - pucHead r) taken)
               (set_waiting n r)) (outs ++ taken) ws.
Proof.
  intros R. destruct (core_split _ _ _ R) as (_ & Hoff & _). destruct R.
  destruct r; simpl in *; split; simpl; rewrite <- ?app_assoc; auto.
  rewrite after_app, <- Hoff. done.
Qed.

(** ** Returning an item *)

Definition FREED (f : Z) : Z := Z.lor (Z.land f (Z.lnot rbITEM_SPLIT_FLAG)) rbITEM_FREE_FLAG.
Definition mark_free (b : blk) : blk := reflag (FREED (b_flags b)) b.
Definition skippable (b : blk) : bool := is_freed b || is_dummy b.

Lemma flags16 (P : Z -> Prop) :
  Forall P [0; 1; 2; 3; 4; 5; 6; 7; 8; 9; 10; 11; 12; 13; 14; 15] -> forall f, 0 <= f < 16 -> P f.
Proof.
  intros HF f Hf. rewrite Forall_forall in HF. apply HF, list_elem_of_In. simpl. lia.
Qed.

(** Facts about the sixteen flag words, by enumeration. *)
Ltac flags16 :=
  refine (flags16 _ _); rewrite !Forall_cons, Forall_nil;
  repeat match goal with |- _ /\ _ => split end; vm_compute; done || congruence || idtac.

Lemma FREED_facts : forall f, 0 <= f < 16 ->
  (0 <= FREED f < 16 /\ 0 <= Z.land f (Z.lnot 4) < 16) /\
  flag (FREED f) 2 = flag f 2 /\ flag (FREED f) 1 = true /\ flag (FREED f) 4 = false.
Proof. flags16. Qed.

Lemma lor_flags16 g : 0 <= g < 16 -> forall f, 0 <= f < 16 -> 0 <= Z.lor f g < 16.
Proof.
  revert g. refine (flags16 _ _). rewrite !Forall_cons, Forall_nil. split_and!; [flags16..|done].
Qed.

(** Replacing the storage around one block of the chain. *)
Lemma core_update r m' l1 b b' l2 outs' ws' :
  let p := after (xSize r) (pucFree r - pucHead r) l1 in
  forall outs ws, item_core r outs ws -> outs ++ ws = l1 ++ b :: l2 -> outs' ++ ws' = l1 ++ b' :: l2 ->
  after (xSize r) (pucFree r - pucHead r) outs' = after (xSize r) (pucFree r - pucHead r) outs ->
  (forall x, x < pucHead r + p \/ pucHead r + p + ext (xSize r) p b <= x -> m' x = store r x) ->
  block_at (pucHead r) (xSize r) (xMaxItemSize r) m' p b' ->
  ext (xSize r) p b' = ext (xSize r) p b ->
  item_core (set_store m' r) outs' ws'.
Proof.
  intros p outs ws R E E' Ho He B' Ee. pose proof (core_geo _ _ _ R) as Hg. destruct R.
  rewrite E in *. destruct (chain_update _ _ _ Hg _ m' _ _ _ b' _ ic_free0 ic_chain0 ic_total0 He B' Ee)
    as (C & T & A).
  destruct r; simpl in *; split; simpl; rewrite ?E'; auto; try congruence; lia.
Qed.

(** A block in the middle of the chain, and its header in memory. *)
Lemma core_block r l1 b l2 outs ws :
  item_core r outs ws -> outs ++ ws = l1 ++ b :: l2 ->
  let p := after (xSize r) (pucFree r - pucHead r) l1 in
  block_at (pucHead r) (xSize r) (xMaxItemSize r) (store r) p b.
Proof. intros [] E p. rewrite E in *. by apply chain_app in ic_chain0 as [_ [? _]]. Qed.

Fixpoint drop_free (outs : list blk) : list blk :=
  match outs with
  | [] => []
  | b :: outs' => if skippable b then drop_free outs' else outs
  end.

Lemma drop_free_length outs : (length (drop_free outs) <= length outs)%nat.
Proof. induction outs as [|b outs IH]; simpl; [lia|]. destruct (skippable b); simpl; lia. Qed.

Lemma core_pop r b outs ws :
  item_core r (b :: outs) ws ->
  item_core (set_pucFree (pucHead r + next (xSize r) (pucFree r - pucHead r) b) r) outs ws.
Proof.
  intros R. pose proof (core_geo _ _ _ R) as Hg. destruct R. simpl in *.
  destruct ic_chain0 as [B C]. pose proof (ext_range _ _ _ Hg _ _ _ B).
  pose proof (next_good _ _ _ Hg _ _ _ B) as Gn.
  destruct r; simpl in *. split; simpl; rewrite ?Z.add_simpl_l; auto; lia.
Qed.

Lemma core_first_block r b outs ws :
  item_core r (b :: outs) ws ->
  block_at (pucHead r) (xSize r) (xMaxItemSize r) (store r) (pucFree r - pucHead r) b.
Proof. by intros [? ? ? ? ? [? _] ? ? ?]. Qed.

(** Setting the free flag of the dummy at the free pointer. *)
Lemma core_free_dummy r b outs ws :
  item_core r (b :: outs) ws ->
  item_core (set_hdr_flags (pucFree r) (Z.lor (b_flags b) rbITEM_FREE_FLAG) r)
    (reflag (Z.lor (b_flags b) rbITEM_FREE_FLAG) b :: outs) ws.
Proof.
  intros R. pose proof (core_first_block _ _ _ _ R) as B.
  assert (0 <= b_flags b < 16) as Hf by (destruct B as (_ & _ & _ & ? & _); lia).
  destruct (block_at_reflag _ _ _ (core_geo _ _ _ R) (store r)
    (store32 (store r) (pucFree r + 4) (Z.lor (b_flags b) rbITEM_FREE_FLAG)) _ b
    (Z.lor (b_flags b) rbITEM_FREE_FLAG) B) as [B' E]; auto.
  - apply lor_flags16; unfold rbITEM_FREE_FLAG; lia.
  - unfold is_dummy. rb_unfold_consts. autorewrite with rbflags. apply orb_false_r.
  - unfold is_split. rb_unfold_consts. autorewrite with rbflags. by rewrite orb_false_r.
  - intros x Hx. apply store32_other. lia.
  - replace (pucHead r + (pucFree r - pucHead r) + 4) with (pucFree r + 4) by lia.
    apply load32_store32. pose proof (lor_flags16 1 ltac:(lia) _ Hf). unfold rbITEM_FREE_FLAG; lia.
  - unfold set_hdr_flags. eapply (core_update r _ [] b); eauto; simpl; [unfold next; by rewrite E|].
    intros x Hx. apply store32_other.
    pose proof (ext_range _ _ _ (core_geo _ _ _ R) _ _ _ B). lia.
Qed.

Lemma total_pos' r b outs ws : item_core r (b :: outs) ws ->
  8 <= total (xSize r) (pucFree r - pucHead r) (b :: outs) <= xSize r /\
  total (xSize r) (next (xSize r) (pucFree r - pucHead r) b) outs < xSize r /\
  (pucFree r = pucRead r -> total (xSize r) (pucFree r - pucHead r) (b :: outs) = xSize r).
Proof.
  intros R. pose proof (core_geo _ _ _ R) as Hg. destruct (core_split _ _ _ R) as (_ & Ho & C1 & C2 & T).
  pose proof (total_pos _ _ _ Hg _ _ _ _ C1). pose proof (total_nonneg _ _ _ Hg _ _ _ C2).
  destruct R. split; [lia|]. split.
  - simpl in *. destruct ic_chain0 as [B _]. pose proof (ext_range _ _ _ Hg _ _ _ B). lia.
  - intros E. rewrite <- E in Ho.
    apply eq_sym, (after_id_iff _ _ _ _ _ _ Hg ic_free0 C1) in Ho; lia.
Qed.

Lemma free_step r b outs ws :
  item_core r (b :: outs) ws ->
  let f' := pucHead r + next (xSize r) (pucFree r - pucHead r) b in
  exists m', prvFreeStep r = Some (set_store m' (set_pucFree f' r)) /\
    item_core (set_store m' (set_pucFree f' r)) outs ws.
Proof.
  intros R f'. pose proof (core_geo _ _ _ R) as Hg. pose proof (core_first_block _ _ _ _ R) as B.
  unfold prvFreeStep.
  assert (hdr_flags r (pucFree r) = b_flags b) as ->.
  { unfold hdr_flags. destruct B as (_ & _ & <- & _). f_equal. lia. }
  change (flag (b_flags b) rbITEM_DUMMY_DATA_FLAG) with (is_dummy b).
  destruct (is_dummy b) eqn:D.
  - pose proof (core_pop _ _ _ _ (core_free_dummy _ _ _ _ R)) as R'.
    destruct B as ((? & ? & ?) & _). destruct R.
    exists (store32 (store r) (pucFree r + 4) (Z.lor (b_flags b) rbITEM_FREE_FLAG)).
    unfold f'. rewrite next_dummy, Z.add_0_r by (done || lia).
    rewrite next_dummy in R'; [|unfold is_dummy; simpl|destruct r; simpl in *; lia].
    2: { unfold is_dummy in D. rb_unfold_consts. autorewrite with rbflags. by rewrite D. }
    split.
    + f_equal. pose proof (wrap_head (set_pucFree (pucHead r) (set_hdr_flags (pucFree r)
        (Z.lor (b_flags b) rbITEM_FREE_FLAG) r))) as W.
      destruct r; simpl in *. rewrite W by lia. done.
    + destruct r; simpl in *. by rewrite Z.add_0_r in R'.
  - pose proof (core_pop _ _ _ _ R) as R'. destruct R.
    exists (store r). unfold f'.
    assert (set_store (store r) (set_pucFree (pucHead r + next (xSize r) (pucFree r - pucHead r) b) r)
      = set_pucFree (pucHead r + next (xSize r) (pucFree r - pucHead r) b) r) as Es by (by destruct r).
    rewrite Es. split; [|done].
    pose proof (wrap_next r _ _ _ _ ltac:(lia) ic_tail0 B D) as W.
    destruct B as (Hgd & Hl & _ & Hn & _ & Hd). destruct (Hd D) as (Hfit & _).
    unfold hdr_len. replace (pucHead r + (pucFree r - pucHead r)) with (pucFree r) in * by lia.
    rewrite Hl. unfold good, al, rbHEADER_SIZE in *. rewrite rbALIGN_SIZE_al, u32_id by (unfold al; lia).
    unfold al. rewrite (Z.add_comm _ 8).
    destruct r; simpl in *. destruct (Z.leb_spec (pucFree + (8 + 4 * ((b_len b + 3) / 4))) (pucHead + xSize)); [|lia].
    unfold wrap_if_no_header in *. simpl in *. by rewrite W.
Qed.

Lemma skippable_hdr r b outs ws :
  item_core r (b :: outs) ws ->
  flag (hdr_flags r (pucFree r)) (Z.lor rbITEM_FREE_FLAG rbITEM_DUMMY_DATA_FLAG) = skippable b.
Proof.
  intros R. destruct (core_first_block _ _ _ _ R) as (_ & _ & Hf & _). unfold hdr_flags.
  replace (pucFree r + 4) with (pucHead r + (pucFree r - pucHead r) + 4) by lia. rewrite Hf.
  unfold skippable, is_freed, is_dummy. rb_unfold_consts. by autorewrite with rbflags.
Qed.

(** The loop of [prvReturnItemDefault] drops the blocks at the front that are
    free or dummies, and nothing else changes. *)
Lemma advance_free : forall outs ws fuel r allow any,
  item_core r outs ws -> (length outs < fuel)%nat ->
  (total (xSize r) (pucFree r - pucHead r) outs = xSize r -> allow = true) ->
  (outs = [] -> allow = false) ->
  exists m' f',
    let r' := set_store m' (set_pucFree f' r) in
    prvAdvanceFree fuel allow any r =
      Some (r', any || negb (length (drop_free outs) =? length outs)%nat) /\
    item_core r' (drop_free outs) ws /\
    total (xSize r) (f' - pucHead r) (drop_free outs ++ ws) + 8 * (len outs - len (drop_free outs))
      <= total (xSize r) (pucFree r - pucHead r) (outs ++ ws) /\
    live (pucHead r) (xSize r) (f' - pucHead r) (drop_free outs) =
      live (pucHead r) (xSize r) (pucFree r - pucHead r) outs /\
    (drop_free outs = outs -> f' = pucFree r).
Proof.
  induction outs as [|b outs IH]; intros ws [|fuel] r allow any R Hf Ha Hn; simpl in Hf; try lia.
  - exists (store r), (pucFree r). assert (pucFree r = pucRead r) as E by (destruct R; simpl in *; lia).
    simpl. rewrite E, Z.eqb_refl, Hn by done. simpl. rewrite andb_false_r, orb_false_r.
    rewrite <- E. destruct r; simpl in *. split_and!; [done|done|lia|done|done].
  - destruct (total_pos' _ _ _ _ R) as (Ht & Ht' & Hfull).
    pose proof (ext_range _ _ _ (core_geo _ _ _ R) _ _ _ (core_first_block _ _ _ _ R)) as He.
    cbn [prvAdvanceFree drop_free]. rewrite (skippable_hdr _ _ _ _ R).
    destruct (skippable b) eqn:Es; simpl.
    2: { exists (store r), (pucFree r). rewrite Nat.eqb_refl, orb_false_r.
         destruct r; simpl in *. split_and!; [done|done|lia|done|done]. }
    assert ((negb (pucFree r =? pucRead r) || allow) = true) as ->.
    { destruct (Z.eqb_spec (pucFree r) (pucRead r)); [rewrite Ha by auto; apply orb_true_r|done]. }
    destruct (free_step _ _ _ _ R) as (m1 & -> & R1).
    destruct (IH ws fuel _ false true R1 ltac:(lia)) as (m2 & f2 & E & R2 & T2 & L2 & _).
    + intros HT. exfalso. destruct r; simpl in *. rewrite Z.add_simpl_l in HT. lia.
    + done.
    + exists m2, f2. rewrite E. pose proof (drop_free_length outs).
      destruct (Nat.eqb_spec (length (drop_free outs)) (S (length outs))); [lia|].
      rewrite orb_true_r. unfold skippable in Es. rewrite Es.
      destruct r; simpl in *. rewrite Z.add_simpl_l in *. split_and!; [done|done|lia|done|].
      intros Hl%(f_equal length). simpl in Hl. lia.
Qed.

(** ** Adding a block *)

Lemma core_push r outs ws b m' :
  let p := after (xSize r) (pucFree r - pucHead r) (outs ++ ws) in
  item_core r outs ws ->
  block_at (pucHead r) (xSize r) (xMaxItemSize r) m' p b ->
  (forall x, x < pucHead r + p \/ pucHead r + p + ext (xSize r) p b <= x -> m' x = store r x) ->
  total (xSize r) (pucFree r - pucHead r) (outs ++ ws) + ext (xSize r) p b <= xSize r ->
  item_core (set_pucAcquire (pucHead r + next (xSize r) p b) (set_store m' r)) outs (ws ++ [b]).
Proof.
  intros p R B He Ht. pose proof (core_geo _ _ _ R) as Hg. destruct R.
  pose proof (after_total _ _ _ Hg _ _ _ ic_free0 ic_chain0 ic_total0) as Hp. fold p in Hp.
  pose proof (total_nonneg _ _ _ Hg _ _ _ ic_chain0) as Hn.
  pose proof (ext_range _ _ _ Hg _ _ _ B) as Hr.
  assert (0 <= p) as Hp0 by (destruct B as [[? _] _]; lia).
  destruct r; simpl in *. split; simpl; rewrite ?(app_assoc outs ws [b]); auto.
  - apply chain_app. split; [|by split].
    eapply (chain_ext _ _ _ Hg store); eauto. intros i Hi. apply He.
    pose proof (adv_disjoint xSize (pucFree - pucHead) i
      (total xSize (pucFree - pucHead) (outs ++ ws)) (ext xSize p b)) as Hd.
    rewrite <- Hp in Hd. unfold good in *. lia.
  - rewrite total_app. simpl. fold p. lia.
  - by rewrite after_app.
Qed.
