(* ===== verification/RingbufFifo.v ===== *)
(** * Item buffers refine a FIFO queue of items

    The abstract state of a no-split or allow-split buffer used through send,
    receive and return: the items written and not yet read, in order, and the
    blocks handed out, from the free to the read pointer. *)

From S2P Require Import Prelude Ringbuf RingbufByte RingbufItem.

#[local] Ltac Zify.zify_post_hook ::= Z.div_mod_to_equations.

(** ** Items as the reader gets them *)

(** One item of the queue: a block, a block after a dummy that fills the ring's
    end, or the two parts of a split item. *)
Inductive entry := Whole (b : blk) | Skipped (d b : blk) | Parts (b1 b2 : blk).

Definition blocks_of (e : entry) : list blk :=
  match e with Whole b => [b] | Skipped d b => [d; b] | Parts b1 b2 => [b1; b2] end.

Definition item_of (e : entry) : list Z :=
  match e with Whole b | Skipped _ b => b_data b | Parts b1 b2 => b_data b1 ++ b_data b2 end.

(** What the entry adds to [xItemsWaiting]. *)
Definition weight (e : entry) : Z := match e with Parts _ _ => 2 | _ => 1 end.

Definition blocks (es : list entry) : list blk := concat (blocks_of <$> es).
Definition waiting (es : list entry) : Z := foldr (fun e n => weight e + n) 0 es.

Definition is_written (b : blk) : bool := flag (b_flags b) rbITEM_WRITTEN_FLAG.

(** Sent by [prvCopyItemNoSplit] an item is marked as written; the allow-split
    copy does not use that flag. *)
Definition mark_ok (kind : RingbufferType_t) (b : blk) : Prop :=
  kind = RINGBUF_TYPE_NOSPLIT -> is_written b = true.

Definition item_blk (kind : RingbufferType_t) (split : bool) (b : blk) : Prop :=
  is_dummy b = false /\ is_freed b = false /\ is_split b = split /\ mark_ok kind b.

Definition entry_ok (kind : RingbufferType_t) (e : entry) : Prop :=
  match e with
  | Whole b => item_blk kind false b
  | Skipped d b => is_dummy d = true /\ mark_ok kind d /\ item_blk kind false b
  | Parts b1 b2 => kind = RINGBUF_TYPE_ALLOWSPLIT /\ item_blk kind true b1 /\ item_blk kind false b2
  end.

Record item_rep (kind : RingbufferType_t) (r : Ringbuffer_t) (outs : list blk) (es : list entry) : Prop := {
  rp_core : item_core r outs (blocks es);
  rp_kind : xBufferType r = kind;
  rp_item : kind <> RINGBUF_TYPE_BYTEBUF;
  rp_byte : flag (uxRingbufferFlags r) rbBYTE_BUFFER_FLAG = false;
  rp_split : flag (uxRingbufferFlags r) rbALLOW_SPLIT_FLAG = bool_decide (kind = RINGBUF_TYPE_ALLOWSPLIT);
  rp_max : xMaxItemSize r = if decide (kind = RINGBUF_TYPE_NOSPLIT) then al (xSize r / 2) - 8 else xSize r - 16;
  rp_write : pucWrite r = pucAcquire r;
  rp_full : is_full r = bool_decide (total (xSize r) (pucFree r - pucHead r) (outs ++ blocks es) = xSize r);
  rp_waiting : xItemsWaiting r = waiting es;
  rp_entries : Forall (entry_ok kind) es
}.

Lemma waiting_nonneg es : 0 <= waiting es.
Proof. induction es as [|e es IH]; simpl; [lia|]. destruct e; simpl; lia. Qed.

Lemma blocks_app es1 es2 : blocks (es1 ++ es2) = blocks es1 ++ blocks es2.
Proof. unfold blocks. by rewrite fmap_app, concat_app. Qed.

Lemma waiting_app es1 es2 : waiting (es1 ++ es2) = waiting es1 + waiting es2.
Proof. induction es1 as [|e es1 IH]; simpl; [lia|]. rewrite IH. lia. Qed.

(** ** Availability *)

Lemma rep_avail_nil kind r outs : item_rep kind r outs [] -> prvCheckItemAvail r = false.
Proof.
  intros []. unfold prvCheckItemAvail. rewrite rp_byte0, rp_waiting0. done.
Qed.

Lemma core_readable r outs b l :
  item_core r outs (b :: l) -> pucWrite r = pucAcquire r -> xItemsWaiting r > 0 ->
  is_full r = bool_decide (total (xSize r) (pucFree r - pucHead r) (outs ++ b :: l) = xSize r) ->
  readable r.
Proof.
  intros R Hw Hn Hf. split; [done|]. pose proof (core_geo _ _ _ R) as Hg.
  destruct (core_split _ _ _ R) as (Gr & Ho & C1 & C2 & T).
  rewrite Hf, Hw. clear Hf. rewrite total_app, <- Ho.
  rewrite (ic_acquire _ _ _ R), after_app, <- Ho.
  pose proof (total_pos _ _ _ Hg _ _ _ _ C2). pose proof (total_nonneg _ _ _ Hg _ _ _ C1).
  destruct (Z.eqb_spec (pucRead r) (pucHead r + after (xSize r) (pucRead r - pucHead r) (b :: l))) as [E|E];
    [|done]. cbn [negb orb]. apply bool_decide_eq_true.
  assert (after (xSize r) (pucRead r - pucHead r) (b :: l) = pucRead r - pucHead r) as E' by lia.
  apply (after_id_iff _ _ _ _ _ _ Hg Gr C2) in E'; lia.
Qed.

Lemma rep_readable kind r outs e es : item_rep kind r outs (e :: es) -> readable r.
Proof.
  intros []. assert (exists b l, blocks (e :: es) = b :: l) as (b & l & Eb) by (destruct e; simpl; eauto).
  rewrite Eb in *. apply (core_readable r outs b l); auto.
  rewrite rp_waiting0. simpl. pose proof (waiting_nonneg es). destruct e; simpl; lia.
Qed.

(** The block at the read pointer. *)
Lemma rep_first kind r outs e es :
  item_rep kind r outs (e :: es) ->
  exists b l, blocks (e :: es) = b :: l /\ mark_ok kind b /\ hdr_flags r (pucRead r) = b_flags b.
Proof.
  intros []. destruct (core_split _ _ _ rp_core0) as (_ & _ & _ & C2 & _).
  inversion rp_entries0 as [|? ? Ok _]; subst.
  assert (exists b l, blocks (e :: es) = b :: l /\ mark_ok (xBufferType r) b) as (b & l & Eb & M).
  { destruct e as [b|d b|b1 b2]; eexists _, _; (split; [done|]);
    [destruct Ok as (_ & _ & _ & M)|destruct Ok as (_ & M & _)|destruct Ok as (_ & (_ & _ & _ & M) & _)];
    exact M. }
  exists b, l. split; [done|split; [done|]]. rewrite Eb in C2. destruct C2 as [(_ & _ & Hf & _) _].
  unfold hdr_flags. rewrite <- Hf. f_equal. lia.
Qed.

Lemma rep_avail_cons kind r outs e es : item_rep kind r outs (e :: es) -> prvCheckItemAvail r = true.
Proof.
  intros R. destruct (rep_readable _ _ _ _ _ R) as [Hw Hav].
  destruct (rep_first _ _ _ _ _ R) as (b & l & Eb & M & Hf). destruct R.
  unfold prvCheckItemAvail. rewrite rp_byte0, Hav, Hf. simpl.
  replace (xItemsWaiting r >? 0) with true by lia. simpl.
  rb_unfold_consts. autorewrite with rbflags. rewrite rp_byte0, rp_split0.
  clear rp_full0 rp_split0. destruct kind; simpl; [by apply M|done|done].
Qed.

(** ** Receiving *)

Abbreviation live_of r outs := (live (pucHead r) (xSize r) (pucFree r - pucHead r) outs).

(** What a receive handed out: each part's address and bytes. *)
Definition pieces (r : Ringbuffer_t) (res : received) : list (Z * list Z) :=
  let piece '(p, n) := (p, load_bytes (store r) p n) in
  piece (item1 res) :: (piece <$> option_list (item2 res)).

(** Fields receiving and returning leave alone. *)
Definition params (r : Ringbuffer_t) : Z * Z * Z * RingbufferType_t := (pucHead r, xSize r, xMaxItemSize r, xBufferType r).

Lemma core_get r outs taken b ws :
  (taken = [b] \/ exists d, taken = [d; b] /\ is_dummy d = true) ->
  is_dummy b = false -> item_core r outs (taken ++ ws) -> readable r ->
  exists p, prvGetItemDefault r =
      Some (set_pucRead (pucHead r + after (xSize r) (pucRead r - pucHead r) taken)
              (set_waiting (xItemsWaiting r - 1) r), (p, b_len b, is_split b)) /\
    load_bytes (store r) p (b_len b) = b_data b /\
    (is_freed b = false ->
     live (pucHead r) (xSize r) (pucRead r - pucHead r) taken = [(p, b_data b)]) /\
    (taken = [b] -> p = pucRead r + 8).
Proof.
  intros Ht D R Hr. destruct (core_split _ _ _ R) as ((? & ? & ?) & _ & _ & C & _).
  destruct Ht as [->|(d & -> & Dd)].
  - exists (pucRead r + 8). rewrite (get_plain r outs b ws) by done. split; [done|].
    destruct C as [(_ & _ & _ & _ & _ & Hd) _]. destruct (Hd D) as (_ & _ & L).
    replace (pucHead r + (pucRead r - pucHead r) + 8) with (pucRead r + 8) in * by lia.
    split; [done|]. split; [|done]. intros F. simpl. rewrite F, D. simpl.
    do 2 f_equal. lia.
  - exists (pucHead r + 8). rewrite (get_dummy r outs d b ws) by done. simpl.
    simpl in C. rewrite (next_dummy (xSize r) (pucRead r - pucHead r) d Dd) in C |- * by lia.
    destruct C as (_ & (_ & _ & _ & _ & _ & Hd) & _). destruct (Hd D) as (_ & _ & L).
    rewrite !Z.add_0_r in *. split_and!; [done|done| |done].
    intros F. rewrite F, D, Dd, orb_true_r. done.
Qed.

(** The state after a receive of entry [e]. *)
Definition after_read (r : Ringbuffer_t) (e : entry) : Ringbuffer_t :=
  set_pucRead (pucHead r + after (xSize r) (pucRead r - pucHead r) (blocks_of e))
    (set_waiting (xItemsWaiting r - weight e) r).

Lemma rep_read kind r outs e es :
  item_rep kind r outs (e :: es) -> item_rep kind (after_read r e) (outs ++ blocks_of e) es.
Proof.
  intros []. change (blocks (e :: es)) with (blocks_of e ++ blocks es) in *.
  apply (core_read _ _ _ _ (xItemsWaiting r - weight e)) in rp_core0.
  split; [exact rp_core0|..]; unfold after_read; destruct r; simpl in *; rewrite <- ?app_assoc; auto; [lia|].
  by inversion rp_entries0.
Qed.

Lemma live_read kind r outs e es :
  item_rep kind r outs (e :: es) ->
  live_of (after_read r e) (outs ++ blocks_of e) =
    live_of r outs ++ live (pucHead r) (xSize r) (pucRead r - pucHead r) (blocks_of e).
Proof.
  intros []. destruct (core_split _ _ _ rp_core0) as (_ & Ho & _).
  unfold after_read. rewrite Ho. destruct r; simpl in *. by rewrite live_app.
Qed.

Lemma params_read r e : params (after_read r e) = params r.
Proof. by destruct r. Qed.

Lemma store_read r e : store (after_read r e) = store r.
Proof. by destruct r. Qed.

(** An entry that is one block, with or without a dummy before it. *)
Lemma rep_receive_one kind r outs e es b :
  item_rep kind r outs (e :: es) -> item_blk kind false b ->
  (blocks_of e = [b] \/ exists d, blocks_of e = [d; b] /\ is_dummy d = true) -> weight e = 1 ->
  exists p, prvReceiveNow r 0 = Some (after_read r e, Received (p, b_len b) None) /\
    load_bytes (store r) p (b_len b) = b_data b /\
    live (pucHead r) (xSize r) (pucRead r - pucHead r) (blocks_of e) = [(p, b_data b)].
Proof.
  intros R (D & F & Sp & _) He Hw. pose proof (rep_readable _ _ _ _ _ R) as Hr. destruct R.
  change (blocks (e :: es)) with (blocks_of e ++ blocks es) in *.
  destruct (core_get r outs _ b (blocks es) He D rp_core0 Hr) as (p & E & L & Lv & _).
  exists p. split; [|by auto]. unfold prvReceiveNow, pvGetItem, after_read.
  destruct (xBufferType r) eqn:Et; [| |congruence]; by rewrite E, Sp, andb_false_r, Hw.
Qed.

(** The first part of a split item reaches the tail. *)
Lemma next_split head size maxlen m off b :
  8 <= size < 2147483648 /\ size mod 4 = 0 /\ 0 <= maxlen < 2147483648 ->
  block_at head size maxlen m off b -> is_split b = true -> maxlen <= size - 16 ->
  next size off b = 0 /\ 0 < off.
Proof.
  intros Hg ((? & ? & ?) & _ & _ & ? & Hs & _) S Hm. specialize (Hs S).
  unfold next, ext, adv, al in *. split; [|lia].
  destruct (is_dummy b); repeat case_match; lia.
Qed.

Lemma rep_receive_two kind r outs b1 b2 es :
  item_rep kind r outs (Parts b1 b2 :: es) ->
  exists p1 p2, prvReceiveNow r 0 =
      Some (after_read r (Parts b1 b2), Received (p1, b_len b1) (Some (p2, b_len b2))) /\
    load_bytes (store r) p1 (b_len b1) = b_data b1 /\ load_bytes (store r) p2 (b_len b2) = b_data b2 /\
    live (pucHead r) (xSize r) (pucRead r - pucHead r) [b1; b2] = [(p1, b_data b1); (p2, b_data b2)].
Proof.
  intros R. pose proof (rep_readable _ _ _ _ _ R) as Hr. destruct R.
  apply Forall_cons in rp_entries0 as [(-> & (D1 & F1 & S1 & _) & (D2 & F2 & S2 & _)) Hes].
  change (blocks (Parts b1 b2 :: es)) with ([b1] ++ b2 :: blocks es) in *.
  destruct (core_get r outs [b1] b1 (b2 :: blocks es)) as (p1 & E1 & L1 & Lv1 & P1); auto.
  pose proof (core_read _ _ _ _ (xItemsWaiting r - 1) rp_core0) as R1.
  set (r1 := set_pucRead _ _) in R1.
  destruct (core_split _ _ _ rp_core0) as (_ & _ & _ & [B1 _] & _).
  destruct (next_split _ _ _ _ _ _ (core_geo _ _ _ rp_core0) B1 S1) as [N1 Hoff].
  { rewrite rp_max0. case_decide; [done|lia]. }
  assert (readable r1) as Hr1.
  { eapply core_readable; [exact R1|..]; subst r1; destruct r; simpl in *; auto.
    - pose proof (waiting_nonneg es). lia.
    - by rewrite <- app_assoc. }
  destruct (core_get r1 (outs ++ [b1]) [b2] b2 (blocks es)) as (p2 & E2 & L2 & Lv2 & P2); auto.
  exists p1, p2. specialize (P1 eq_refl). specialize (P2 eq_refl). specialize (Lv1 F1). specialize (Lv2 F2).
  assert (pucRead r1 = pucHead r) as Hr1' by (subst r1; destruct r; simpl in *; lia).
  split_and!; [|done|by destruct r|].
  - assert (flag (uxRingbufferFlags r1) rbALLOW_SPLIT_FLAG = true) as Hf by (subst r1; by destruct r).
    fold r1 in E1. assert (xBufferType r1 = RINGBUF_TYPE_ALLOWSPLIT) as Ht1 by (subst r1; by destruct r).
    unfold prvReceiveNow, pvGetItem. rewrite rp_kind0, E1. cbv beta iota.
    rewrite Hf, S1. cbv beta iota. simpl andb. cbv beta iota. rewrite Ht1, E2, S2. cbv beta iota.
    rewrite P1, P2, Hr1'. destruct (Z.ltb_spec (pucHead r + 8) (pucRead r + 8)); [|lia].
    unfold after_read. subst r1. destruct r; simpl in *. do 3 f_equal; [|lia].
    rewrite N1. do 2 f_equal. lia.
  - change [b1; b2] with ([b1] ++ [b2]). rewrite live_app, Lv1. simpl in *. rewrite N1.
    subst r1. destruct r; simpl in *. rewrite N1, Z.add_0_r, Z.sub_diag in Lv2. simpl. by rewrite Lv2.
Qed.

Lemma rep_receive kind r outs e es :
  item_rep kind r outs (e :: es) ->
  exists r' res, prvReceiveNow r 0 = Some (r', res) /\ item_rep kind r' (outs ++ blocks_of e) es /\
    live_of r' (outs ++ blocks_of e) = live_of r outs ++ pieces r' res /\
    concat (snd <$> pieces r' res) = item_of e /\ params r' = params r.
Proof.
  intros R. pose proof (rep_read _ _ _ _ _ R) as R'. pose proof (live_read _ _ _ _ _ R) as Lr.
  assert (entry_ok kind e) as Ok by (destruct R; by inversion rp_entries0).
  exists (after_read r e). rewrite Lr, params_read. unfold pieces. rewrite store_read.
  destruct e as [b|d b|b1 b2].
  - destruct (rep_receive_one _ _ _ _ _ b R Ok) as (p & E & L & Lv); auto.
    eexists. split; [exact E|]. simpl in *. rewrite L, Lv, app_nil_r. by split_and!.
  - destruct Ok as (Dd & _ & Ok). destruct (rep_receive_one _ _ _ _ _ b R Ok) as (p & E & L & Lv); eauto.
    eexists. split; [exact E|]. simpl in *. rewrite L, Lv, app_nil_r. by split_and!.
  - destruct (rep_receive_two _ _ _ _ _ _ R) as (p1 & p2 & E & L1 & L2 & Lv).
    eexists. split; [exact E|]. simpl in *. rewrite L1, L2, Lv, app_nil_r. by split_and!.
Qed.

(** ** Returning *)

Lemma live_split head size : forall outs off l1 p d l2,
  live head size off outs = l1 ++ (p, d) :: l2 ->
  exists o1 b o2, outs = o1 ++ b :: o2 /\ live head size off o1 = l1 /\ is_freed b = false /\
    is_dummy b = false /\ p = head + after size off o1 + 8 /\
    live head size (next size (after size off o1) b) o2 = l2.
Proof.
  induction outs as [|b outs IH]; intros off l1 p d l2; simpl; [by destruct l1|].
  destruct (is_freed b || is_dummy b) eqn:Ed; simpl.
  - intros (o1 & b' & o2 & -> & <- & F & D & -> & <-)%IH.
    exists (b :: o1), b', o2. simpl. rewrite Ed. by split_and!.
  - apply orb_false_iff in Ed as [F D]. destruct l1 as [|x l1]; simpl.
    + intros [= <- <- <-]. exists [], b, outs. by split_and!.
    + intros [= <- (o1 & b' & o2 & -> & <- & F' & D' & -> & <-)%IH].
      exists (b :: o1), b', o2. simpl. rewrite F, D. by split_and!.
Qed.

(** Marking a retrieved block as free. *)
Lemma core_mark_free r outs ws o1 b o2 :
  let A := pucHead r + after (xSize r) (pucFree r - pucHead r) o1 in
  let r' := set_hdr_flags A (Z.land (hdr_flags r A) (Z.lnot rbITEM_SPLIT_FLAG)) r in
  item_core r outs ws -> outs = o1 ++ b :: o2 ->
  exists m', set_hdr_flags A (Z.lor (hdr_flags r' A) rbITEM_FREE_FLAG) r' = set_store m' r /\
    item_core (set_store m' r) (o1 ++ mark_free b :: o2) ws /\
    ext (xSize r) (A - pucHead r) (mark_free b) = ext (xSize r) (A - pucHead r) b.
Proof.
  intros A r' R E. pose proof (core_geo _ _ _ R) as Hg.
  assert (outs ++ ws = o1 ++ b :: o2 ++ ws) as E' by (by rewrite E, <- app_assoc).
  pose proof (core_block _ _ _ _ _ _ R E') as B. set (p := after _ _ o1) in *.
  assert (0 <= b_flags b < 16) as Hf by (destruct B as (_ & _ & _ & ? & _); lia).
  destruct (FREED_facts _ Hf) as ((Hr & Hr4) & Hd & Hfree & Hs).
  set (m' := store32 (store32 (store r) (A + 4) (Z.land (b_flags b) (Z.lnot rbITEM_SPLIT_FLAG))) (A + 4)
               (FREED (b_flags b))).
  destruct (block_at_reflag _ _ _ Hg (store r) m' p b (FREED (b_flags b)) B) as [B' X].
  - done.
  - done.
  - unfold rbITEM_SPLIT_FLAG in *. by rewrite Hs.
  - intros x Hx. subst m' A. by rewrite !store32_other by lia.
  - apply load32_store32. lia.
  - exists m'. split; [|split].
    + assert (hdr_flags r A = b_flags b) as Eh by (unfold hdr_flags; by destruct B as (_ & _ & <- & _)).
      subst r'. rewrite Eh. unfold set_hdr_flags, hdr_flags.
      destruct r; simpl in *. rewrite load32_store32 by (unfold rbITEM_SPLIT_FLAG; lia). done.
    + eapply (core_update r m' o1 b (mark_free b) (o2 ++ ws)); eauto.
      * by rewrite <- app_assoc.
      * rewrite E, !after_app. simpl. fold p. unfold next, mark_free. by rewrite X.
      * intros x Hx. subst m' A. fold p in Hx. pose proof (ext_range _ _ _ Hg _ _ _ B).
        by rewrite !store32_other by lia.
    + by replace (A - pucHead r) with p by (subst A; lia).
Qed.

Lemma skippable_mark_free b : 0 <= b_flags b < 16 -> skippable (mark_free b) = true.
Proof.
  intros Hf. destruct (FREED_facts _ Hf) as (_ & _ & F & _).
  unfold skippable, is_freed, mark_free. simpl. unfold rbITEM_FREE_FLAG. by rewrite F.
Qed.

Lemma drop_free_head outs : match drop_free outs with [] => True | b :: _ => skippable b = false end.
Proof. induction outs as [|b outs IH]; simpl; [done|]. destruct (skippable b) eqn:E; auto. Qed.

(** At most one block per eight bytes. *)
Lemma total_length head size maxlen m bs : forall off,
  8 <= size < 2147483648 /\ size mod 4 = 0 /\ 0 <= maxlen < 2147483648 ->
  chain head size maxlen m off bs -> 8 * len bs <= total size off bs.
Proof.
  induction bs as [|b bs IH]; intros off Hg; cbn [chain total length]; [lia|]. intros [B C].
  pose proof (ext_range _ _ _ Hg _ _ _ B). specialize (IH _ Hg C). lia.
Qed.

(** Replacing a block by one of the same extent moves nothing. *)
Lemma replace_block size off o1 b b' o2 :
  ext size (after size off o1) b' = ext size (after size off o1) b ->
  total size off (o1 ++ b' :: o2) = total size off (o1 ++ b :: o2) /\
  after size off (o1 ++ b' :: o2) = after size off (o1 ++ b :: o2).
Proof. intros E. rewrite !total_app, !after_app. simpl. unfold next. by rewrite E. Qed.

Lemma full_flag_clear r : is_full (clear_full r) = false.
Proof. destruct r; unfold is_full, clear_full; simpl. rb_unfold_consts. autorewrite with rbflags. apply andb_false_r. Qed.

Lemma clear_full_flags r :
  flag (uxRingbufferFlags (clear_full r)) rbBYTE_BUFFER_FLAG = flag (uxRingbufferFlags r) rbBYTE_BUFFER_FLAG /\
  flag (uxRingbufferFlags (clear_full r)) rbALLOW_SPLIT_FLAG = flag (uxRingbufferFlags r) rbALLOW_SPLIT_FLAG.
Proof.
  destruct r; unfold clear_full; simpl. rb_unfold_consts. autorewrite with rbflags. split; apply andb_true_r.
Qed.

(** The buffer invariant survives a new free pointer, given the full flag. *)
Lemma rep_with_core kind r outs es r' outs' :
  item_rep kind r outs es -> item_core r' outs' (blocks es) -> params r' = params r ->
  flag (uxRingbufferFlags r') rbBYTE_BUFFER_FLAG = flag (uxRingbufferFlags r) rbBYTE_BUFFER_FLAG ->
  flag (uxRingbufferFlags r') rbALLOW_SPLIT_FLAG = flag (uxRingbufferFlags r) rbALLOW_SPLIT_FLAG ->
  pucWrite r' = pucWrite r -> pucAcquire r' = pucAcquire r -> xItemsWaiting r' = xItemsWaiting r ->
  is_full r' = bool_decide (total (xSize r') (pucFree r' - pucHead r') (outs' ++ blocks es) = xSize r') ->
  item_rep kind r' outs' es.
Proof.
  intros [] R' Hp Hb Ha Hw Hq Hi Hf. unfold params in Hp. injection Hp. clear Hp. intros Ht Hm Hs Hh.
  split; rewrite ?Hb, ?Ha, ?Hw, ?Hq, ?Hi, ?Ht, ?Hm, ?Hs; auto.
  by rewrite Hf, Hs.
Qed.

(** The loop that frees blocks, and the full flag after it. *)
Lemma rep_advance kind r outs es :
  item_rep kind r outs es -> outs <> [] ->
  exists r', (let? (r, freed_any) := prvAdvanceFree (walk_fuel r) (is_full r || (xItemsWaiting r =? 0)) false r in
              Some (if is_full r && freed_any then clear_full r else r)) = Some r' /\
    item_rep kind r' (drop_free outs) es /\ live_of r' (drop_free outs) = live_of r outs /\
    params r' = params r.
Proof.
  intros R Hne. pose proof R as []. pose proof (core_geo _ _ _ rp_core0) as Hg.
  destruct (core_split _ _ _ rp_core0) as (_ & _ & C1 & C2 & T).
  pose proof (total_nonneg _ _ _ Hg _ _ _ C2). pose proof (total_length _ _ _ _ _ _ Hg C1).
  pose proof (drop_free_length outs) as Hdl. pose proof (ic_total _ _ _ rp_core0) as T'.
  destruct (advance_free outs (blocks es) (walk_fuel r) r (is_full r || (xItemsWaiting r =? 0)) false rp_core0)
    as (m & f & -> & R' & Tf & Lf & Hkeep).
  - unfold walk_fuel, rbHEADER_SIZE. lia.
  - intros Ht. rewrite rp_full0, bool_decide_eq_true_2; [done|].
    destruct (core_split _ _ _ rp_core0) as (_ & Ho & _). rewrite total_app, <- Ho in *. lia.
  - done.
  - simpl. eexists. split; [reflexivity|].
    set (any := negb (length (drop_free outs) =? length outs)%nat) in *.
    assert (any = false -> drop_free outs = outs) as Hany.
    { unfold any. rewrite negb_false_iff, Nat.eqb_eq. clear. induction outs as [|b outs IH]; simpl; [done|].
      pose proof (drop_free_length outs). destruct (skippable b); simpl; [lia|done]. }
    assert (any = true -> len (drop_free outs) < len outs) as Hany'.
    { unfold any. rewrite negb_true_iff, Nat.eqb_neq. lia. }
    clearbody any. set (r2 := set_store m (set_pucFree f r)) in *.
    assert (is_full r2 = is_full r /\ (is_full r2 = true -> True)) as [Hfull _] by (split; [by destruct r|done]).
    destruct (is_full r2 && any) eqn:Ef.
    + assert (item_core (clear_full r2) (drop_free outs) (blocks es)) as R2 by (destruct R'; destruct r; by split).
      apply andb_true_iff in Ef as [Ef ->]. split; [|subst r2; by destruct r].
      destruct (clear_full_flags r2) as [Fb Fs].
      eapply rep_with_core; eauto; try (subst r2; by destruct r).
      rewrite full_flag_clear. symmetry. apply bool_decide_eq_false. specialize (Hany' eq_refl).
      subst r2. destruct r; simpl in *. lia.
    + split; [|subst r2; by destruct r].
      eapply rep_with_core; eauto; try (subst r2; by destruct r).
      rewrite Hfull in *.
      destruct any.
      * rewrite andb_true_r in Ef. rewrite Ef. symmetry. apply bool_decide_eq_false.
        specialize (Hany' eq_refl). subst r2. destruct r; simpl in *. lia.
      * specialize (Hany eq_refl). rewrite Hany, rp_full0. subst r2. rewrite (Hkeep Hany).
        by destruct r.
Qed.

Lemma rep_mark_free kind r outs es o1 b o2 m' :
  item_rep kind r outs es -> outs = o1 ++ b :: o2 ->
  item_core (set_store m' r) (o1 ++ mark_free b :: o2) (blocks es) ->
  ext (xSize r) (after (xSize r) (pucFree r - pucHead r) o1) (mark_free b) =
    ext (xSize r) (after (xSize r) (pucFree r - pucHead r) o1) b ->
  item_rep kind (set_store m' r) (o1 ++ mark_free b :: o2) es.
Proof.
  intros R E R' X. eapply rep_with_core; eauto; try (by destruct r).
  pose proof (rp_full _ _ _ _ R) as Hf. rewrite E, <- app_assoc in Hf.
  destruct (replace_block _ _ _ _ _ (o2 ++ blocks es) X) as [T _]. simpl in Hf. rewrite <- T in Hf.
  rewrite <- app_assoc. destruct r; done.
Qed.

Lemma rep_return kind r outs es l1 p d l2 :
  item_rep kind r outs es -> live_of r outs = l1 ++ (p, d) :: l2 ->
  exists r' outs', prvReturnItemDefault r p = Some r' /\ item_rep kind r' outs' es /\
    live_of r' outs' = l1 ++ l2 /\ params r' = params r /\
    match outs' with [] => True | b :: _ => skippable b = false end.
Proof.
  intros R (o1 & b & o2 & Eo & L1 & F & D & Ep & L2)%live_split.
  pose proof (rp_core _ _ _ _ R) as RC. pose proof (core_geo _ _ _ RC) as Hg.
  destruct (core_mark_free _ _ _ o1 b o2 RC Eo) as (m' & Em & R1 & X).
  rewrite Z.add_simpl_l in X. pose proof (rep_mark_free _ _ _ _ _ _ _ m' R Eo R1 X) as R'.
  pose proof (core_block _ _ _ _ _ _ RC (eq_trans (f_equal (.++ _) Eo) (eq_sym (app_assoc _ _ _)))) as B.
  destruct (rep_advance _ _ _ _ R') as (r' & E & R2 & L & P); [by destruct o1|].
  exists r', (drop_free (o1 ++ mark_free b :: o2)).
  assert (live_of (set_store m' r) (o1 ++ mark_free b :: o2) = l1 ++ l2) as L'.
  { replace (live_of (set_store m' r) (o1 ++ mark_free b :: o2)) with (live_of r (o1 ++ mark_free b :: o2))
      by (by destruct r).
    rewrite live_app. simpl. rewrite L1. pose proof (skippable_mark_free b) as Hs.
    unfold skippable in Hs. rewrite Hs by (destruct B as (_ & _ & _ & ? & _); lia).
    unfold next. rewrite X. simpl. by rewrite <- L2. }
  split_and!; [|done|by rewrite L|by rewrite P; destruct r|apply drop_free_head].
  rewrite <- E. unfold prvReturnItemDefault.
  assert (p - rbHEADER_SIZE = pucHead r + after (xSize r) (pucFree r - pucHead r) o1) as ->
    by (unfold rbHEADER_SIZE; lia).
  destruct RC. destruct B as ((G1 & G2 & G3) & Hl & Hf & Hn & _ & Hd). destruct (Hd D) as (Hfit & _).
  rewrite rbCHECK_ALIGNED_spec. unfold hdr_len at 1, hdr_flags at 1 2. rewrite Hl, Hf.
  change (flag (b_flags b) rbITEM_DUMMY_DATA_FLAG) with (is_dummy b).
  change (flag (b_flags b) rbITEM_FREE_FLAG) with (is_freed b). rewrite D, F.
  replace (p mod 4 =? 0) with true by lia. replace (pucHead r <=? p) with true by lia.
  replace (p <=? pucTail r) with true by (unfold al in *; lia).
  replace (b_len b <=? xMaxItemSize r) with true by lia. simpl.
  rewrite Em. destruct r; done.
Qed.
