(* ===== verification/RingbufSend.v ===== *)
(** * Item buffers: sending

    The sending side of the queue refinement: the fit test finds room for the
    blocks the copy functions write, and the copy functions append one entry to
    the queue. *)

From S2P Require Import Prelude Ringbuf RingbufByte RingbufItem RingbufFifo.

#[local] Ltac Zify.zify_post_hook ::= Z.div_mod_to_equations.

(** ** Room for an item *)

Abbreviation total_of r bs := (total (xSize r) (pucFree r - pucHead r) bs).

(** The bytes an item of [n] bytes takes at offset [p]: up to the tail when no
    header fits behind it. *)
Definition item_ext (size p n : Z) : Z :=
  if size - (p + (8 + al n)) <? 8 then size - p else 8 + al n.

(** Where a copy function finds the room: before the tail, at the head behind a
    dummy, or in two parts. *)
Inductive room (kind : RingbufferType_t) (size p T n : Z) : Prop :=
  | room_here : p + (8 + al n) <= size -> T + item_ext size p n <= size -> room kind size p T n
  | room_head : kind = RINGBUF_TYPE_NOSPLIT -> size < p + (8 + al n) ->
      T + (size - p) + (8 + al n) <= size -> 8 + al n + 8 <= size -> room kind size p T n
  | room_parts : kind = RINGBUF_TYPE_ALLOWSPLIT -> size < p + (8 + al n) ->
      T + 8 + (8 + al n) <= size -> 8 + (8 + al n) - (size - p) + 8 <= size -> room kind size p T n.

Lemma room_lt kind size p T n : room kind size p T n -> p + 8 <= size -> 0 <= al n -> T < size.
Proof. intros [] ? ?; unfold item_ext in *; [|lia|lia]. revert H0. cmp_step; lia. Qed.

(** The acquire pointer against the free pointer. *)
Lemma core_acquire r outs ws :
  item_core r outs ws ->
  let off := pucFree r - pucHead r in let p := pucAcquire r - pucHead r in let T := total_of r (outs ++ ws) in
  good (xSize r) off /\ good (xSize r) p /\ 0 <= T <= xSize r /\ p = adv (xSize r) off T /\
  p = after (xSize r) off (outs ++ ws).
Proof.
  intros R off p T. pose proof (core_geo _ _ _ R) as Hg.
  destruct R as [_ _ _ _ F C Ht _ Ha]. fold off in F, C, Ht, Ha.
  pose proof (after_good _ _ _ Hg _ _ _ F C). pose proof (after_total _ _ _ Hg _ _ _ F C Ht).
  pose proof (total_nonneg _ _ _ Hg _ _ _ C).
  assert (p = after (xSize r) off (outs ++ ws)) as E by (unfold p; lia).
  rewrite E. split_and!; auto; unfold T; fold off; lia.
Qed.

Lemma max_aligned kind r outs es n :
  item_rep kind r outs es -> 0 <= n <= xMaxItemSize r ->
  0 <= al n < 2147483648 /\ al n mod 4 = 0 /\
  match kind with RINGBUF_TYPE_NOSPLIT => al n + 8 <= al (xSize r / 2) | _ => al n + 16 <= xSize r end.
Proof.
  intros [] Hn. destruct rp_core. unfold al in *.
  destruct kind; repeat case_decide; try done; lia.
Qed.

Lemma fits_room kind r outs es n :
  item_rep kind r outs es -> 0 <= n <= xMaxItemSize r ->
  exists b, prvCheckItemFitsDefault r n = Some b /\
    (b = true -> room kind (xSize r) (pucAcquire r - pucHead r) (total_of r (outs ++ blocks es)) n) /\
    (outs = [] -> es = [] -> b = true).
Proof.
  intros R Hn. destruct (max_aligned _ _ _ _ _ R Hn) as (Ha & Ha4 & Hmax).
  destruct R. destruct (core_acquire _ _ _ rp_core) as (Gf & Gp & HT & Hp & _).
  assert (outs = [] -> es = [] -> total_of r (outs ++ blocks es) = 0) as He by (intros -> ->; done).
  set (T := total_of r _) in *. clearbody T. destruct rp_core. clear ic_chain ic_total ic_read ic_acquire.
  unfold prvCheckItemFitsDefault. rewrite rbCHECK_ALIGNED_spec, rbALIGN_SIZE_al by lia.
  unfold in_storage, rbHEADER_SIZE, good, adv in *.
  replace (pucAcquire r mod 4 =? 0) with true by lia.
  replace ((pucHead r <=? pucAcquire r) && (pucAcquire r <? pucTail r)) with true by lia.
  rewrite (u32_id (al n + 8)), (u32_id (pucTail r - pucAcquire r)) by lia. rewrite rp_full. clear rp_full.
  destruct (Z.eqb_spec (pucAcquire r) (pucFree r)) as [E|E].
  { eexists. split; [reflexivity|]. rewrite negb_true_iff, bool_decide_eq_false.
    split; [|intros; rewrite He; auto; lia]. intros HT'.
    assert (T = 0) as HT0 by (repeat case_match; lia).
    destruct (decide (pucAcquire r - pucHead r + (8 + al n) <= xSize r)).
    - apply room_here; unfold item_ext; [lia|]. cmp_step; lia.
    - destruct kind; [apply room_head|apply room_parts|]; try done; unfold al in *; lia. }
  assert (outs = [] -> es = [] -> False) as Hne.
  { intros H1 H2. specialize (He H1 H2). repeat case_match; lia. }
  assert (forall e, 8 + al n <= e -> 8 + (pucAcquire r - pucHead r) + e <= xSize r ->
    item_ext (xSize r) (pucAcquire r - pucHead r) n = 8 + al n) as Hx
    by (intros; unfold item_ext; cmp_step; lia).
  destruct (Z.gtb_spec (pucFree r) (pucAcquire r)).
  { eexists. split; [reflexivity|]. split; [|tauto]. rewrite u32_id, Z.leb_le by lia.
    intros. apply room_here; [lia|]. rewrite (Hx (pucFree r - pucAcquire r)) by lia. repeat case_match; lia. }
  destruct (Z.leb_spec (al n + 8) (pucTail r - pucAcquire r)).
  { eexists. split; [reflexivity|]. split; [|tauto]. intros _. apply room_here; [lia|].
    unfold item_ext. cmp_step; repeat case_match; lia. }
  rewrite rp_split. destruct kind; [..|done]; simpl; eexists; (split; [reflexivity|]); (split; [|tauto]);
    rewrite !u32_id, Z.leb_le by (unfold al in *; lia); intros.
  - apply room_head; auto; repeat case_match; unfold al in *; lia.
  - apply room_parts; auto; repeat case_match; lia.
Qed.

(** ** Adding items and dummies at the acquire pointer *)

Lemma ext_item size p b : is_dummy b = false -> ext size p b = item_ext size p (b_len b).
Proof. intros D. unfold ext, item_ext. by rewrite D. Qed.

Lemma core_push_item r outs ws m' n f d :
  let A := pucAcquire r in let p := A - pucHead r in
  item_core r outs ws -> 0 <= n <= xMaxItemSize r ->
  0 <= f < 16 -> flag f rbITEM_DUMMY_DATA_FLAG = false ->
  (flag f rbITEM_SPLIT_FLAG = true -> p + 8 + al n = xSize r) ->
  load32 m' A = n -> load32 m' (A + 4) = f -> load_bytes m' (A + 8) n = d ->
  (forall x, x < A \/ A + 8 + n <= x -> m' x = store r x) ->
  p + (8 + al n) <= xSize r -> total_of r (outs ++ ws) + item_ext (xSize r) p n <= xSize r ->
  item_core (set_pucAcquire (wrap_if_no_header r (A + (8 + al n))) (set_store m' r)) outs (ws ++ [Blk n f d]).
Proof.
  intros A p R Hn Hf Hd Hs L1 L2 L3 He Hfit Hroom.
  destruct (core_acquire _ _ _ R) as (_ & Gp & HT & _ & Hp). pose proof (core_geo _ _ _ R) as Hg.
  assert (pucHead r + p = A) as HpA by (unfold p; lia).
  assert (is_dummy (Blk n f d) = false) as D by done.
  assert (block_at (pucHead r) (xSize r) (xMaxItemSize r) m' p (Blk n f d)) as B.
  { unfold block_at. rewrite HpA. simpl. split_and!; auto; try lia. intros _. split_and!; auto; [lia|].
    subst d. rewrite length_load_bytes. lia. }
  pose proof (wrap_next r m' p (Blk n f d) _ ltac:(lia) (ic_tail _ _ _ R) B D) as W. simpl in W.
  rewrite HpA in W. rewrite W. pose proof (ext_item (xSize r) p _ D) as X. simpl in X. rewrite <- X in Hroom.
  replace p with (after (xSize r) (pucFree r - pucHead r) (outs ++ ws)) by (symmetry; exact Hp).
  apply core_push; auto; rewrite <- Hp; fold A; fold p; auto.
  intros x Hx. apply He. rewrite X in Hx. unfold item_ext, al in *.
  destruct (Z.ltb_spec (xSize r - (p + (8 + 4 * ((n + 3) / 4)))) 8); lia.
Qed.

Lemma core_push_dummy r outs ws m' :
  let A := pucAcquire r in
  item_core r outs ws -> load32 m' A = 0 -> load32 m' (A + 4) = rbITEM_DUMMY_DATA_FLAG ->
  (forall x, x < A \/ A + 8 <= x -> m' x = store r x) ->
  total_of r (outs ++ ws) + (pucTail r - A) <= xSize r ->
  item_core (set_pucAcquire (pucHead r) (set_store m' r)) outs (ws ++ [Blk 0 rbITEM_DUMMY_DATA_FLAG []]) /\
  total_of r (outs ++ ws ++ [Blk 0 rbITEM_DUMMY_DATA_FLAG []]) = total_of r (outs ++ ws) + (pucTail r - A).
Proof.
  intros A R L1 L2 He Hroom.
  destruct (core_acquire _ _ _ R) as (_ & Gp & HT & _ & Hp). pose proof (ic_tail _ _ _ R) as Ht.
  pose proof (ic_max _ _ _ R) as Hm. set (p := pucAcquire r - pucHead r) in *. set (d := Blk 0 _ _).
  assert (pucHead r + p = A) as HpA by (unfold p, A; lia).
  assert (ext (xSize r) p d = pucTail r - A) as X by (unfold ext; simpl; lia).
  split.
  - replace (pucHead r) with (pucHead r + next (xSize r) p d) at 1
      by (rewrite next_dummy by (done || (unfold good in Gp; lia)); lia).
    rewrite Hp in X |- *. apply core_push; auto; rewrite <- Hp in X |- *; [|rewrite X|rewrite X]; auto.
    + unfold block_at. rewrite HpA. simpl. unfold rbITEM_DUMMY_DATA_FLAG in *. split_and!; auto; try lia; by intros.
    + intros x Hx. apply He. unfold good in Gp. lia.
  - rewrite app_assoc, total_app. cbn [total]. rewrite <- Hp, X. lia.
Qed.

(** ** The write loop *)

Definition mark_written (b : blk) : blk :=
  if is_dummy b then reflag (Z.lor (b_flags b) rbITEM_WRITTEN_FLAG) b else b.

Definition passable (b : blk) : Prop := is_dummy b || is_written b = true.

(** Marking the dummy behind [l1] as written. *)
Lemma core_mark_written r outs l1 b l2 :
  let A := pucHead r + after (xSize r) (pucFree r - pucHead r) (outs ++ l1) in
  item_core r outs (l1 ++ b :: l2) -> is_dummy b = true ->
  item_core (set_hdr_flags A (Z.lor (b_flags b) rbITEM_WRITTEN_FLAG) r) outs (l1 ++ mark_written b :: l2) /\
  forall p, ext (xSize r) p (mark_written b) = ext (xSize r) p b.
Proof.
  intros A R D. pose proof (core_geo _ _ _ R) as Hg.
  assert (outs ++ l1 ++ b :: l2 = (outs ++ l1) ++ b :: l2) as E by (by rewrite app_assoc).
  pose proof (core_block _ _ _ _ _ _ R E) as B. set (p := after _ _ (outs ++ l1)) in *.
  assert (0 <= b_flags b < 16) as Hf by (destruct B as (_ & _ & _ & ? & _); lia).
  unfold mark_written. rewrite D. set (f := Z.lor _ _).
  assert (0 <= f < 16) as Hf16 by (apply lor_flags16; unfold rbITEM_WRITTEN_FLAG; lia).
  assert (flag f rbITEM_DUMMY_DATA_FLAG = true) as Df.
  { unfold f, is_dummy in *. rb_unfold_consts. autorewrite with rbflags. by rewrite D. }
  destruct (block_at_reflag _ _ _ Hg (store r) (store32 (store r) (A + 4) f) p b f B) as [B' X]; auto.
  - by rewrite D.
  - unfold f, is_split. rb_unfold_consts. autorewrite with rbflags. by rewrite orb_false_r.
  - intros x Hx. apply store32_other. lia.
  - apply load32_store32. lia.
  - split; [|intros q; unfold ext, is_dummy in *; simpl; by rewrite Df, D].
    eapply (core_update r _ (outs ++ l1) b); eauto; [by rewrite app_assoc|].
    intros x Hx. fold p in Hx. pose proof (ext_range _ _ _ Hg _ _ _ B). apply store32_other. lia.
Qed.

Lemma write_step r outs l1 b l2 :
  let p := after (xSize r) (pucFree r - pucHead r) (outs ++ l1) in
  item_core r outs (l1 ++ b :: l2) -> pucWrite r = pucHead r + p ->
  exists m', prvWriteStep r = Some (set_pucWrite (pucHead r + next (xSize r) p b) (set_store m' r)) /\
    item_core (set_store m' r) outs (l1 ++ mark_written b :: l2) /\
    forall q, ext (xSize r) q (mark_written b) = ext (xSize r) q b.
Proof.
  intros p R Hw. pose proof (core_geo _ _ _ R) as Hg.
  assert (outs ++ l1 ++ b :: l2 = (outs ++ l1) ++ b :: l2) as E by (by rewrite app_assoc).
  pose proof (core_block _ _ _ _ _ _ R E) as B. fold p in B.
  pose proof (ic_tail _ _ _ R) as Ht. pose proof (ic_head _ _ _ R) as Hh.
  unfold prvWriteStep. unfold hdr_flags, hdr_len. rewrite Hw.
  assert (load32 (store r) (pucHead r + p + 4) = b_flags b) as -> by (by destruct B as (_ & _ & ? & _)).
  assert (load32 (store r) (pucHead r + p) = b_len b) as Hl by (by destruct B as (_ & ? & _)).
  change (flag (b_flags b) rbITEM_DUMMY_DATA_FLAG) with (is_dummy b).
  destruct (is_dummy b) eqn:D.
  - destruct (core_mark_written r outs l1 b l2 R D) as [R' X]. fold p in R'.
    exists (store32 (store r) (pucHead r + p + 4) (Z.lor (b_flags b) rbITEM_WRITTEN_FLAG)).
    split; [|by split]. destruct B as ((? & ? & ?) & _). rewrite next_dummy by (done || lia).
    pose proof (wrap_head r ltac:(lia) Ht) as W. destruct r; simpl in *. f_equal. f_equal.
    unfold wrap_if_no_header in *. simpl in *. rewrite W. lia.
  - exists (store r). unfold mark_written. rewrite D.
    replace (set_store (store r) r) with r by (by destruct r). split; [|by split].
    pose proof (wrap_next r _ _ _ _ ltac:(lia) Ht B D) as W.
    destruct B as ((? & ? & ?) & _ & _ & Hn & _ & Hd). destruct (Hd D) as (Hfit & _).
    unfold al, rbHEADER_SIZE in *. rewrite Hl.
    rewrite rbALIGN_SIZE_al, u32_id by (unfold al; lia). unfold al. rewrite (Z.add_comm _ 8).
    destruct r; simpl in *. unfold wrap_if_no_header in *. simpl in *.
    destruct (Z.leb_spec (pucHead + p + (8 + 4 * ((b_len b + 3) / 4))) (pucHead + xSize)); [|lia].
    simpl. by rewrite W.
Qed.

Lemma total_marked size l b b' l2 off :
  (forall p, ext size p b' = ext size p b) -> total size off (l ++ b' :: l2) = total size off (l ++ b :: l2).
Proof. intros X. by apply replace_block. Qed.

(** Behind a block that is not the last, the acquire pointer is not reached. *)
Lemma core_inner r outs ws l b rest :
  item_core r outs ws -> outs ++ ws = l ++ b :: rest -> rest <> [] ->
  pucHead r + next (xSize r) (after (xSize r) (pucFree r - pucHead r) l) b <> pucAcquire r.
Proof.
  intros R E Hr. pose proof (core_geo _ _ _ R) as Hg. destruct R as [_ _ _ _ F C T _ A].
  rewrite A, E in *. rewrite after_app. rewrite total_app in T. apply chain_app in C as [C1 [B C2]].
  cbn [total after] in *. set (p := after _ _ l) in *.
  pose proof (total_nonneg _ _ _ Hg _ _ _ C1). pose proof (ext_range _ _ _ Hg _ _ _ B).
  pose proof (next_good _ _ _ Hg _ _ _ B) as Gn.
  destruct rest as [|b' rest]; [done|]. pose proof (total_pos _ _ _ Hg _ _ _ _ C2).
  pose proof (after_id_iff _ _ _ _ _ _ Hg Gn C2 ltac:(lia)). lia.
Qed.

(** The loop of [prvSendItemDoneNoSplit] ends at the acquire pointer when every
    block before it is written or a dummy. *)
Lemma advance_write outs : forall rest r l1 fuel,
  item_core r outs (l1 ++ rest) -> rest <> [] -> (length rest <= fuel)%nat -> Forall passable rest ->
  pucWrite r = pucHead r + after (xSize r) (pucFree r - pucHead r) (outs ++ l1) ->
  exists m', prvAdvanceWrite fuel r = Some (set_pucWrite (pucAcquire r) (set_store m' r)) /\
    item_core (set_store m' r) outs (l1 ++ (mark_written <$> rest)) /\
    total_of r (outs ++ l1 ++ (mark_written <$> rest)) = total_of r (outs ++ l1 ++ rest).
Proof.
  induction rest as [|b rest IH]; intros r l1 [|fuel] R Hne Hf HF Hw; simpl in Hf; try done; try lia.
  pose proof (core_geo _ _ _ R) as Hg. apply Forall_cons in HF as [Pb HF].
  assert (outs ++ l1 ++ b :: rest = (outs ++ l1) ++ b :: rest) as E by (by rewrite app_assoc).
  pose proof (core_block _ _ _ _ _ _ R E) as B. set (p := after _ _ (outs ++ l1)) in *.
  destruct (write_step _ _ _ _ _ R Hw) as (m1 & Es & R1 & X). fold p in Es.
  cbn [prvAdvanceWrite fmap list_fmap]. unfold hdr_flags. rewrite Hw, Es.
  assert (load32 (store r) (pucHead r + p + 4) = b_flags b) as -> by (by destruct B as (_ & _ & ? & _)).
  change (flag (b_flags b) rbITEM_DUMMY_DATA_FLAG) with (is_dummy b).
  change (flag (b_flags b) rbITEM_WRITTEN_FLAG) with (is_written b). rewrite orb_comm, Pb.
  set (r1 := set_pucWrite _ _) in *.
  assert (item_core r1 outs (l1 ++ mark_written b :: rest)) as R1' by (destruct R1; destruct r; by split).
  assert (pucHead r1 = pucHead r /\ xSize r1 = xSize r /\ pucFree r1 = pucFree r /\ pucAcquire r1 = pucAcquire r
    /\ pucWrite r1 = pucHead r + next (xSize r) p b) as (Eh & Ez & Ef & Ea & Ew) by (subst r1; by destruct r).
  assert (next (xSize r) p b = after (xSize r) (pucFree r - pucHead r) (outs ++ l1 ++ [mark_written b])) as En.
  { rewrite app_assoc, after_app. fold p. simpl. unfold next. by rewrite X. }
  assert (total_of r (outs ++ l1 ++ mark_written b :: rest) = total_of r (outs ++ l1 ++ b :: rest)) as Et.
  { rewrite !app_assoc. by apply total_marked. }
  rewrite Ew, Ea, En. destruct (decide (rest = [])) as [->|Hr].
  - exists m1. assert (pucAcquire r = pucHead r + next (xSize r) p b) as Ea'
      by (by rewrite <- Ea, (ic_acquire _ _ _ R1'), Eh, Ez, Ef, En).
    rewrite Ea', En, Z.eqb_refl. split_and!; try done.
    subst r1. rewrite <- En. destruct r; done.
  - pose proof (core_inner _ _ _ _ _ _ R E Hr) as Hn. fold p in Hn. rewrite En in Hn.
    destruct (IH r1 (l1 ++ [mark_written b]) fuel) as (m2 & E2 & R2 & T2).
    1-5: rewrite <- ?app_assoc; auto; try lia; by rewrite Ew, En, Eh, Ez, Ef.
    rewrite Eh, Ez, Ef, <- ?app_assoc in *. exists m2.
    apply Z.eqb_neq in Hn. rewrite Hn, E2. change (fmap mark_written rest) with (mark_written <$> rest) in *.
    assert (set_pucWrite (pucAcquire r1) (set_store m2 r1) = set_pucWrite (pucAcquire r) (set_store m2 r)) as ->
      by (subst r1; by destruct r).
    split_and!; [done| |by etransitivity; [exact T2|exact Et]].
    destruct R2; subst r1; destruct r; by split.
Qed.

(** ** The queue after a send *)

Lemma check_full_flags r :
  flag (uxRingbufferFlags (check_full r)) rbBYTE_BUFFER_FLAG = flag (uxRingbufferFlags r) rbBYTE_BUFFER_FLAG /\
  flag (uxRingbufferFlags (check_full r)) rbALLOW_SPLIT_FLAG = flag (uxRingbufferFlags r) rbALLOW_SPLIT_FLAG /\
  is_full (check_full r) = is_full r || (pucAcquire r =? pucFree r).
Proof.
  unfold check_full. destruct (pucAcquire r =? pucFree r); [|by rewrite orb_false_r].
  destruct r; unfold is_full, set_full; simpl. rb_unfold_consts. autorewrite with rbflags.
  by rewrite !orb_false_r.
Qed.

(** Fewer than all bytes were in use when a send was accepted. *)
Lemma rep_not_full kind r outs es : item_rep kind r outs es -> total_of r (outs ++ blocks es) < xSize r -> is_full r = false.
Proof. intros [] H. rewrite rp_full. apply bool_decide_eq_false. lia. Qed.

(** With blocks in use the pointers meet exactly when all bytes are. *)
Lemma core_full r outs ws :
  item_core r outs ws -> outs ++ ws <> [] ->
  (pucAcquire r =? pucFree r) = bool_decide (total_of r (outs ++ ws) = xSize r).
Proof.
  intros R Hne. destruct (core_acquire _ _ _ R) as (Gf & Gp & HT & Hadv & _).
  pose proof (total_length _ _ _ _ _ _ (core_geo _ _ _ R) (ic_chain _ _ _ R)) as Hl.
  assert (0 < len (outs ++ ws)) by (destruct (outs ++ ws); simpl; [done|lia]).
  unfold adv, good in *.
  destruct (Z.ltb_spec (pucFree r - pucHead r + total_of r (outs ++ ws)) (xSize r));
    case_bool_decide; cmp_step; lia.
Qed.

Lemma rep_append kind r outs es e r1 n :
  item_rep kind r outs es -> total_of r (outs ++ blocks es) < xSize r -> entry_ok kind e ->
  item_core r1 outs (blocks (es ++ [e])) -> params r1 = params r -> pucFree r1 = pucFree r ->
  uxRingbufferFlags r1 = uxRingbufferFlags r -> n = xItemsWaiting r + weight e ->
  let r' := set_pucWrite (pucAcquire r1) (set_waiting n (check_full r1)) in
  item_rep kind r' outs (es ++ [e]) /\ live_of r' outs = live_of r outs /\ params r' = params r.
Proof.
  intros R Hlt Hok R1 Hp Hf Hfl -> r'.
  pose proof (rep_not_full _ _ _ _ R Hlt) as Hnf. unfold params in Hp. injection Hp. clear Hp. intros Ht Hm Hs Hh.
  destruct (check_full_flags r1) as (F1 & F2 & F3).
  destruct R. pose proof (core_geo _ _ _ R1) as Hg.
  assert (is_full r' = (pucAcquire r1 =? pucFree r1)) as Hfull.
  { subst r'. replace (is_full _) with (is_full (check_full r1)) by (by destruct (check_full r1)).
    rewrite F3. unfold is_full in *. rewrite Hfl, Hnf. done. }
  assert (item_core r' outs (blocks (es ++ [e]))) as R'.
  { subst r'. unfold check_full. destruct R1, (_ =? _); destruct r1; by split. }
  assert (xSize r' = xSize r /\ xMaxItemSize r' = xMaxItemSize r /\ pucHead r' = pucHead r /\
    pucFree r' = pucFree r /\ xItemsWaiting r' = xItemsWaiting r + weight e) as (Es & Em & Eh & Ef & Ew).
  { subst r'. unfold check_full. destruct (_ =? _); destruct r1; simpl in *; by subst. }
  split; [split|unfold params; subst r'; unfold check_full; destruct (_ =? _); destruct r1, r; simpl in *; subst; done];
    try done.
  1-5: try (subst r'; unfold check_full in *; clear Hfull; destruct (_ =? _); destruct r1; simpl in *; congruence).
  - by rewrite Em, Es.
  - rewrite Hfull, Es, Ef, Eh. pose proof (core_full _ _ _ R1) as Hc. rewrite Hs, Hf, Hh in Hc. rewrite Hf.
    apply Hc. rewrite blocks_app. destruct outs, (blocks es), e; done.
  - rewrite Ew, waiting_app, rp_waiting. simpl. lia.
  - apply Forall_app. by split; [|constructor].
Qed.

(** ** Sending to a no-split buffer *)

(** The memory after header, copy and the two flag updates. *)
Definition written_mem (m : mem) (A n : Z) (d : list Z) : mem :=
  let m := store_bytes (store32 (store32 m A n) (A + 4) 0) (A + 8) d in
  let m := store32 m (A + 4) (Z.land (load32 m (A + 4)) (Z.lnot rbITEM_SPLIT_FLAG)) in
  store32 m (A + 4) (Z.lor (load32 m (A + 4)) rbITEM_WRITTEN_FLAG).

Lemma written_mem_spec m A n d :
  n = len d -> n < 2147483648 ->
  let M := written_mem m A n d in
  load32 M A = n /\ load32 M (A + 4) = rbITEM_WRITTEN_FLAG /\ load_bytes M (A + 8) n = d /\
  forall x, x < A \/ A + 8 + n <= x -> M x = m x.
Proof.
  intros -> Hn M. unfold M, written_mem, rbITEM_WRITTEN_FLAG, rbITEM_SPLIT_FLAG. cbv zeta.
  set (m0 := store_bytes _ _ d).
  assert (load32 m0 (A + 4) = 0) as ->
    by (unfold m0; rewrite load32_store_bytes_ne by lia; by apply load32_store32).
  change (Z.land 0 (Z.lnot 4)) with 0. rewrite (load32_store32 m0) by lia. change (Z.lor 0 8) with 8.
  split_and!.
  - rewrite !load32_store32_ne by lia. unfold m0. rewrite load32_store_bytes_ne by lia.
    rewrite load32_store32_ne by lia. apply load32_store32. lia.
  - apply load32_store32. lia.
  - rewrite !load_bytes_store32_ne by lia. by apply load_store_bytes.
  - intros x Hx. rewrite !store32_other by lia. unfold m0. rewrite store_bytes_other by lia.
    by rewrite !store32_other by lia.
Qed.

(** The buffer an item header is written to: a dummy was put before the tail
    when the item does not fit there. *)
Definition skip_to_head (r : Ringbuffer_t) : Ringbuffer_t :=
  let r := set_hdr_flags (pucAcquire r) rbITEM_DUMMY_DATA_FLAG r in
  let r := set_hdr_len (pucAcquire r) 0 r in
  set_pucAcquire (pucHead r) r.

Lemma nosplit_place r outs ws n r0 :
  item_core r outs ws -> 0 <= al n ->
  room RINGBUF_TYPE_NOSPLIT (xSize r) (pucAcquire r - pucHead r) (total_of r (outs ++ ws)) n ->
  r0 = (if pucTail r - pucAcquire r <? al n + 8 then skip_to_head r else r) ->
  (exists m q, r0 = set_pucAcquire q (set_store m r)) /\
  exists pre, (pre = [] \/ pre = [Blk 0 rbITEM_DUMMY_DATA_FLAG []]) /\ item_core r0 outs (ws ++ pre) /\
    pucAcquire r0 - pucHead r0 + (8 + al n) <= xSize r0 /\
    total_of r0 (outs ++ ws ++ pre) + item_ext (xSize r0) (pucAcquire r0 - pucHead r0) n <= xSize r0.
Proof.
  intros R Ha Hroom ->. pose proof (ic_tail _ _ _ R) as Ht.
  destruct Hroom as [Hfit Hx|_ Hfit Hx Hs|E]; [| |done].
  - destruct (Z.ltb_spec (pucTail r - pucAcquire r) (al n + 8)); [lia|].
    split; [exists (store r), (pucAcquire r); by destruct r|].
    exists []. rewrite !app_nil_r. auto.
  - destruct (Z.ltb_spec (pucTail r - pucAcquire r) (al n + 8)); [|lia].
    split; [eexists _, _; by destruct r|]. exists [Blk 0 rbITEM_DUMMY_DATA_FLAG []]. split; [by right|].
    set (m := store32 (store32 (store r) (pucAcquire r + 4) rbITEM_DUMMY_DATA_FLAG) (pucAcquire r) 0).
    assert (skip_to_head r = set_pucAcquire (pucHead r) (set_store m r)) as -> by (by destruct r).
    destruct (core_push_dummy r outs ws m R) as [R' T'].
    + apply load32_store32. lia.
    + unfold m. rewrite load32_store32_ne by lia. apply load32_store32. unfold rbITEM_DUMMY_DATA_FLAG. lia.
    + intros x Hx'. unfold m. by rewrite !store32_other by lia.
    + lia.
    + split; [done|].
      assert (item_ext (xSize r) 0 n = 8 + al n) as X by (unfold item_ext; cmp_step; lia).
      destruct r; simpl in *. rewrite Z.sub_diag, X. lia.
Qed.

Lemma nosplit_acquire_eq r outs ws n :
  item_core r outs ws -> 0 <= n < 2147483648 -> 0 <= al n < 2147483648 ->
  let r0 := if pucTail r - pucAcquire r <? al n + 8 then skip_to_head r else r in
  let A := pucAcquire r0 in
  prvAcquireItemNoSplit r n =
    Some (check_full (set_pucAcquire (wrap_if_no_header r (A + (8 + al n)))
            (set_store (store32 (store32 (store r0) A n) (A + 4) 0) r0)), A + 8).
Proof.
  intros R Hn Ha r0 A. destruct (core_acquire _ _ _ R) as (_ & (Gp1 & Gp2 & Gp3) & _).
  pose proof (ic_size _ _ _ R) as Hs. pose proof (ic_head _ _ _ R) as Hh. pose proof (ic_tail _ _ _ R) as Ht.
  unfold prvAcquireItemNoSplit, in_storage, rbHEADER_SIZE.
  rewrite rbCHECK_ALIGNED_spec, rbALIGN_SIZE_al by (unfold al in *; lia).
  replace (pucAcquire r mod 4 =? 0) with true by lia.
  replace ((pucHead r <=? pucAcquire r) && (pucAcquire r <? pucTail r)) with true by lia.
  rewrite !u32_id by lia. replace (8 <=? pucTail r - pucAcquire r) with true by lia.
  cbv zeta. match goal with |- context [if ?c then ?t else r] => change (if c then t else r) with r0 end.
  assert (pucTail r0 = pucTail r /\ pucHead r0 = pucHead r) as [E1 E2]
    by (subst r0; destruct (_ <? _); by destruct r).
  subst A. clearbody r0. unfold wrap_if_no_header. destruct r0; simpl in *. by rewrite E1, E2.
Qed.

Lemma check_full_store m r : set_store m (check_full r) = check_full (set_store m r).
Proof. unfold check_full. destruct r; simpl. by destruct (_ =? _). Qed.

Lemma store_check_full r : store (check_full r) = store r.
Proof. unfold check_full. destruct r; simpl. by destruct (_ =? _). Qed.

(** What [check_full] keeps. *)
Lemma check_full_params r :
  pucHead (check_full r) = pucHead r /\ pucTail (check_full r) = pucTail r /\
  xSize (check_full r) = xSize r /\ xMaxItemSize (check_full r) = xMaxItemSize r /\
  xItemsWaiting (check_full r) = xItemsWaiting r.
Proof. unfold check_full. destruct r; simpl. by destruct (_ =? _). Qed.

Lemma nosplit_done_eq r A n d m :
  n = len d -> 0 <= n <= xMaxItemSize r -> n < 2147483648 -> store r = store32 (store32 m A n) (A + 4) 0 ->
  (A + 8) mod 4 = 0 -> pucHead r <= A + 8 <= pucTail r ->
  prvSendItemDoneNoSplit (memcpy_in (A + 8) d n r) (A + 8) =
    prvAdvanceWrite (walk_fuel r) (set_waiting (xItemsWaiting r + 1) (set_store (written_mem m A n d) r)).
Proof.
  intros -> Hn Hn' Hm Ha Hr. unfold prvSendItemDoneNoSplit, rbHEADER_SIZE.
  rewrite rbCHECK_ALIGNED_spec, Z.add_simpl_r. unfold memcpy_in, hdr_len, hdr_flags, set_hdr_flags, hdr_flags.
  rewrite Nat2Z.id, firstn_all, Hm. unfold written_mem. set (m1 := store_bytes _ _ d).
  assert (load32 m1 A = len d) as L1.
  { unfold m1. rewrite load32_store_bytes_ne, load32_store32_ne by lia. apply load32_store32. lia. }
  assert (load32 m1 (A + 4) = 0) as L2
    by (unfold m1; rewrite load32_store_bytes_ne by lia; by apply load32_store32).
  destruct r; simpl in *.
  rewrite L1, L2.
  replace ((A + 8) mod 4 =? 0) with true by lia. replace (pucHead <=? A + 8) with true by lia.
  replace (A + 8 <=? pucTail) with true by lia. replace (len d <=? xMaxItemSize) with true by lia. done.
Qed.

Lemma core_check_full r outs ws n : item_core r outs ws -> item_core (set_waiting n (check_full r)) outs ws.
Proof. intros []. unfold check_full. destruct (_ =? _); destruct r; by split. Qed.

(** One or two blocks become one entry. *)
Definition entry_after (pre : list blk) (b : blk) : entry :=
  match pre with [] => Whole b | d :: _ => Skipped (mark_written d) b end.

Lemma entry_after_spec pre d :
  let b := Blk (len d) rbITEM_WRITTEN_FLAG d in
  pre = [] \/ pre = [Blk 0 rbITEM_DUMMY_DATA_FLAG []] ->
  blocks_of (entry_after pre b) = mark_written <$> (pre ++ [b]) /\ Forall passable (pre ++ [b]) /\
  entry_ok RINGBUF_TYPE_NOSPLIT (entry_after pre b) /\ item_of (entry_after pre b) = d /\
  weight (entry_after pre b) = 1 /\ (length (pre ++ [b]) <= 2)%nat.
Proof.
  intros b [-> | ->]; simpl; repeat split; try done; try lia; by repeat constructor.
Qed.

Lemma rep_copy_nosplit r outs es d :
  item_rep RINGBUF_TYPE_NOSPLIT r outs es -> len d <= xMaxItemSize r ->
  room RINGBUF_TYPE_NOSPLIT (xSize r) (pucAcquire r - pucHead r) (total_of r (outs ++ blocks es)) (len d) ->
  exists r' e, prvCopyItemNoSplit r d (len d) = Some r' /\
    item_rep RINGBUF_TYPE_NOSPLIT r' outs (es ++ [e]) /\ item_of e = d /\
    live_of r' outs = live_of r outs /\ params r' = params r.
Proof.
  intros R Hn Hroom. destruct (max_aligned _ _ _ _ _ R (conj (Nat2Z.is_nonneg _) Hn)) as (Ha & Ha4 & _).
  pose proof (rp_core _ _ _ _ R) as RC. pose proof (core_geo _ _ _ RC) as Hg.
  unfold prvCopyItemNoSplit. rewrite (nosplit_acquire_eq _ _ _ _ RC) by lia.
  set (r0 := if (pucTail r - pucAcquire r <? al (len d) + 8)%Z then skip_to_head r else r).
  destruct (nosplit_place _ _ _ (len d) r0 RC ltac:(lia) Hroom eq_refl) as ((m0 & q0 & Er0) & pre & Hpre & R0 & Hfit & Hx).
  clearbody r0. set (A := pucAcquire r0) in *.
  assert (xSize r0 = xSize r /\ xMaxItemSize r0 = xMaxItemSize r /\ pucHead r0 = pucHead r) as (Es & Em & Eh)
    by (rewrite Er0; by destruct r).
  destruct (written_mem_spec (store r0) A (len d) d eq_refl ltac:(lia)) as (L1 & L2 & L3 & L4).
  set (M := written_mem _ _ _ _) in *.
  assert (0 <= al (len d)) as Ha0 by lia.
  pose proof (core_push_item r0 outs (blocks es ++ pre) M (len d) rbITEM_WRITTEN_FLAG d R0 ltac:(lia)
    ltac:(unfold rbITEM_WRITTEN_FLAG; lia) eq_refl ltac:(intros Hsp; discriminate Hsp) L1 L2 L3 L4 Hfit Hx) as R1.
  fold A in R1. set (q := wrap_if_no_header r0 (A + (8 + al (len d)))) in R1.
  replace (wrap_if_no_header r (A + (8 + al (len d)))) with q
    by (unfold q, wrap_if_no_header; rewrite Er0; by destruct r).
  set (r1 := set_pucAcquire q (set_store M r0)) in R1.
  assert (check_full r1 = set_store M (check_full (set_pucAcquire q (set_store
    (store32 (store32 (store r0) A (len d)) (A + 4) 0) r0)))) as Er1.
  { rewrite check_full_store. f_equal. subst r1. by destruct r0. }
  set (r2 := check_full (set_pucAcquire q _)) in *.
  destruct (check_full_params (set_pucAcquire q (set_store (store32 (store32 (store r0) A (len d)) (A + 4) 0) r0)))
    as (P1 & P2 & P3 & P4 & P5). fold r2 in P1, P2, P3, P4, P5.
  pose proof (core_acquire _ _ _ R0) as (_ & (Gp1 & Gp2 & Gp3) & _). fold A in Gp1, Gp2, Gp3.
  pose proof (ic_tail _ _ _ R0) as Ht0. pose proof (ic_head _ _ _ R0) as Hh0.
  rewrite (nosplit_done_eq r2 A (len d) d (store r0)); try lia.
  2: rewrite P4; destruct r0; simpl in *; lia.
  2: subst r2; rewrite store_check_full; by destruct r0.
  2: rewrite P1, P2; destruct r0; simpl in *; lia.
  fold M. rewrite <- Er1, P5.
  destruct (entry_after_spec pre d Hpre) as (Hb & Hpass & Hok & Hit & Hw & Hlen). set (b := Blk (len d) _ d) in *.
  rewrite <- app_assoc in R1. set (w := xItemsWaiting _ + 1).
  destruct (advance_write outs (pre ++ [b]) _ (blocks es) (walk_fuel r2) (core_check_full _ _ _ w R1)) as (m' & E & R3 & _);
    auto.
  - by destruct pre.
  - unfold walk_fuel, rbHEADER_SIZE. rewrite P3. destruct r0; simpl in *. lia.
  - destruct R, RC. subst r1. unfold check_full. destruct (_ =? _); rewrite Er0; destruct r; simpl in *; lia.
  - eexists _, (entry_after pre b). split; [exact E|].
    destruct (rep_append _ _ _ _ (entry_after pre b) (set_store m' r1) w R) as (R4 & L4' & P); auto.
    + destruct (core_acquire _ _ _ RC) as (_ & (? & ? & ?) & _). by eapply room_lt; [exact Hroom|..]; lia.
    + rewrite blocks_app. change (blocks [entry_after pre b]) with (blocks_of (entry_after pre b) ++ []).
      rewrite app_nil_r, Hb. unfold check_full in R3. destruct (_ =? _) in R3; destruct R3; subst r1; destruct r0; by split.
    + subst r1. rewrite Er0. by destruct r.
    + subst r1. rewrite Er0. by destruct r.
    + subst r1. rewrite Er0. by destruct r.
    + rewrite Hw. unfold w. rewrite Er0. by destruct r.
    + assert (set_pucWrite (pucAcquire (set_waiting w (check_full r1))) (set_store m' (set_waiting w (check_full r1)))
        = set_pucWrite (pucAcquire (set_store m' r1)) (set_waiting w (check_full (set_store m' r1)))) as ->.
      { rewrite <- check_full_store. unfold check_full. destruct (_ =? _); by destruct r1. }
      by split_and!.
Qed.

(** ** Sending to an allow-split buffer *)

(** The memory after the first part of a split item. *)
Definition first_mem (m : mem) (A n : Z) (d : list Z) : mem :=
  let m := store_bytes (store32 (store32 m (A + 4) 0) A n) (A + 8) d in
  store32 m (A + 4) (Z.lor (load32 m (A + 4)) rbITEM_SPLIT_FLAG).

Lemma first_mem_spec m A n d :
  n = len d -> n < 2147483648 ->
  let M := first_mem m A n d in
  load32 M A = n /\ load32 M (A + 4) = rbITEM_SPLIT_FLAG /\ load_bytes M (A + 8) n = d /\
  forall x, x < A \/ A + 8 + n <= x -> M x = m x.
Proof.
  intros -> Hn M. unfold M, first_mem, rbITEM_SPLIT_FLAG. cbv zeta.
  set (m0 := store_bytes _ _ d).
  assert (load32 m0 (A + 4) = 0) as ->.
  { unfold m0. rewrite load32_store_bytes_ne, load32_store32_ne by lia. by apply load32_store32. }
  change (Z.lor 0 4) with 4. split_and!.
  - rewrite load32_store32_ne by lia. unfold m0. rewrite load32_store_bytes_ne by lia. apply load32_store32. lia.
  - apply load32_store32. lia.
  - rewrite load_bytes_store32_ne by lia. by apply load_store_bytes.
  - intros x Hx. rewrite store32_other by lia. unfold m0. rewrite store_bytes_other by lia.
    by rewrite !store32_other by lia.
Qed.

(** The memory after a whole item or the last part of one. *)
Definition plain_mem (m : mem) (A n : Z) (d : list Z) : mem :=
  store_bytes (store32 (store32 m A n) (A + 4) 0) (A + 8) d.

Lemma plain_mem_spec m A n d :
  n = len d -> n < 2147483648 ->
  let M := plain_mem m A n d in
  load32 M A = n /\ load32 M (A + 4) = 0 /\ load_bytes M (A + 8) n = d /\
  forall x, x < A \/ A + 8 + n <= x -> M x = m x.
Proof.
  intros -> Hn M. unfold M, plain_mem. split_and!.
  - rewrite load32_store_bytes_ne, load32_store32_ne by lia. apply load32_store32. lia.
  - rewrite load32_store_bytes_ne by lia. by apply load32_store32.
  - by apply load_store_bytes.
  - intros x Hx. rewrite store_bytes_other by lia. by rewrite !store32_other by lia.
Qed.

(** The blocks before the last part, the bytes left, and the count of items. *)
Inductive split_pre (rem : Z) (d : list Z) : list blk -> list Z -> Z -> Prop :=
  | sp_none : split_pre rem d [] d 0
  | sp_dummy : rem = 8 -> split_pre rem d [Blk 0 rbITEM_DUMMY_DATA_FLAG []] d 0
  | sp_part : 8 < rem -> rem - 8 < len d ->
      split_pre rem d [Blk (rem - 8) rbITEM_SPLIT_FLAG (take (Z.to_nat (rem - 8)) d)]
        (drop (Z.to_nat (rem - 8)) d) 1.

Lemma first_part_dummy r outs ws d a :
  item_core r outs ws -> pucTail r - pucAcquire r = 8 -> total_of r (outs ++ ws) + 8 <= xSize r ->
  exists m, let r0 := set_pucAcquire (pucHead r) (set_store m r) in
    prvCopyFirstPart r 8 d (len d) a = (r0, d, len d, a) /\
    item_core r0 outs (ws ++ [Blk 0 rbITEM_DUMMY_DATA_FLAG []]) /\
    total_of r0 (outs ++ ws ++ [Blk 0 rbITEM_DUMMY_DATA_FLAG []]) = total_of r (outs ++ ws) + 8.
Proof.
  intros R Hrem HT. set (m1 := store32 (store32 (store r) (pucAcquire r + 4) 0) (pucAcquire r) 0).
  exists (store32 m1 (pucAcquire r + 4) rbITEM_DUMMY_DATA_FLAG).
  assert (load32 m1 (pucAcquire r + 4) = 0) as L
    by (unfold m1; rewrite load32_store32_ne by lia; by apply load32_store32).
  split; [|rewrite <- Hrem; replace (total_of _ _) with (total_of r (outs ++ ws ++ [Blk 0 rbITEM_DUMMY_DATA_FLAG []]))
    by (by destruct r); apply core_push_dummy; auto; try lia].
  - unfold prvCopyFirstPart, rbHEADER_SIZE. change (u32 (8 - 8)) with 0. cbn [Z.gtb Z.compare].
    unfold set_hdr_flags, hdr_flags, set_hdr_len.
    destruct r; simpl in *. fold m1. rewrite L. done.
  - unfold m1. rewrite load32_store32_ne by lia. apply load32_store32. lia.
  - apply load32_store32. unfold rbITEM_DUMMY_DATA_FLAG. lia.
  - intros x Hx. unfold m1. by rewrite !store32_other by lia.
Qed.

Lemma first_part_split r outs ws d :
  let rem := pucTail r - pucAcquire r in let k := Z.to_nat (rem - 8) in
  item_core r outs ws -> rem < al (len d) + 8 -> 8 < rem -> len d <= xMaxItemSize r ->
  total_of r (outs ++ ws) + rem <= xSize r ->
  exists m, let r0 := set_pucAcquire (pucHead r) (set_waiting (xItemsWaiting r + 1) (set_store m r)) in
    let b := Blk (rem - 8) rbITEM_SPLIT_FLAG (take k d) in
    prvCopyFirstPart r rem d (len d) (al (len d)) = (r0, drop k d, len (drop k d), al (len (drop k d))) /\
    item_core r0 outs (ws ++ [b]) /\ rem - 8 < len d /\ al (len (drop k d)) = al (len d) - (rem - 8) /\
    total_of r0 (outs ++ ws ++ [b]) = total_of r (outs ++ ws) + rem.
Proof.
  intros rem k R Hlt H8 Hmax HT. pose proof (core_geo _ _ _ R) as Hg.
  destruct (core_acquire _ _ _ R) as (_ & (Gp1 & Gp2 & Gp3) & HT0 & _).
  pose proof (ic_tail _ _ _ R) as Ht. pose proof (ic_head _ _ _ R) as Hh. pose proof (ic_max _ _ _ R) as Hm.
  assert (rem mod 4 = 0) as Hr4 by (unfold rem; lia).
  assert (rem - 8 < len d) as Hrl by (unfold al in Hlt; lia).
  assert (len (take k d) = rem - 8) as Lt by (rewrite length_take; lia).
  assert (len (drop k d) = len d - (rem - 8)) as Ld by (rewrite length_drop; lia).
  set (A := pucAcquire r) in *. exists (first_mem (store r) A (rem - 8) (take k d)).
  destruct (first_mem_spec (store r) A (rem - 8) (take k d) ltac:(lia) ltac:(lia)) as (L1 & L2 & L3 & L4).
  set (M := first_mem _ _ _ _) in *.
  assert (al (rem - 8) = rem - 8) as Hal by (unfold al; lia).
  assert (item_ext (xSize r) (A - pucHead r) (rem - 8) = rem) as X
    by (unfold item_ext; rewrite Hal; cmp_step; unfold rem in *; lia).
  pose proof (core_push_item r outs ws M (rem - 8) rbITEM_SPLIT_FLAG (take k d) R ltac:(lia)
    ltac:(unfold rbITEM_SPLIT_FLAG; lia) eq_refl) as R1. fold A in R1. rewrite X, Hal in R1.
  specialize (R1 ltac:(intros _; unfold rem; lia) L1 L2 L3 L4 ltac:(unfold rem; lia) HT).
  replace (wrap_if_no_header r _) with (pucHead r) in R1.
  2: { unfold wrap_if_no_header, rbHEADER_SIZE. rewrite u32_id by (unfold rem; lia). cmp_step; [done|unfold rem in *; lia]. }
  set (b := Blk (rem - 8) rbITEM_SPLIT_FLAG (take k d)) in *.
  split_and!; [| |done| |].
  - unfold prvCopyFirstPart, rbHEADER_SIZE. rewrite (u32_id (rem - 8)) by (unfold rem; lia).
    replace (rem - 8 >? 0) with true by lia. fold k. rewrite Ld.
    rewrite !u32_id by (unfold al in *; lia). replace (al (len d - (rem - 8))) with (al (len d) - (rem - 8)) by (unfold al in *; lia).
    do 3 f_equal. unfold set_hdr_flags, hdr_flags, set_hdr_len, memcpy_in. destruct r; simpl in *. done.
  - destruct R1, r; by split.
  - rewrite Ld. unfold al in *. lia.
  - replace (total_of _ _) with (total_of r (outs ++ ws ++ [b])) by (by destruct r).
    rewrite app_assoc, total_app. cbn [total].
    destruct (core_acquire _ _ _ R) as (_ & _ & _ & _ & <-). fold A.
    rewrite (ext_item _ _ b) by done. change (b_len b) with (rem - 8). rewrite X. lia.
Qed.

(** The state in which the last header is written, and the blocks before it. *)
Lemma split_place r outs ws d :
  let rem := pucTail r - pucAcquire r in
  item_core r outs ws -> len d <= xMaxItemSize r -> 0 <= al (len d) ->
  room RINGBUF_TYPE_ALLOWSPLIT (xSize r) (pucAcquire r - pucHead r) (total_of r (outs ++ ws)) (len d) ->
  exists r0 d' pre k,
    (if rem <? al (len d) + 8 then prvCopyFirstPart r rem d (len d) (al (len d)) else (r, d, len d, al (len d)))
      = (r0, d', len d', al (len d')) /\
    split_pre rem d pre d' k /\
    (exists m q, r0 = set_pucAcquire q (set_waiting (xItemsWaiting r + k) (set_store m r))) /\
    item_core r0 outs (ws ++ pre) /\ len d' <= xMaxItemSize r0 /\
    pucAcquire r0 - pucHead r0 + (8 + al (len d')) <= xSize r0 /\
    total_of r0 (outs ++ ws ++ pre) + item_ext (xSize r0) (pucAcquire r0 - pucHead r0) (len d') <= xSize r0.
Proof.
  intros rem R Hmax Ha Hroom. pose proof (ic_tail _ _ _ R) as Ht.
  destruct (core_acquire _ _ _ R) as (_ & (Gp1 & Gp2 & Gp3) & _ & _ & _).
  destruct Hroom as [Hfit Hx|E|_ Hfit Hx Hs]; [|done|].
  - destruct (Z.ltb_spec rem (al (len d) + 8)); [unfold rem in *; lia|].
    exists r, d, [], 0. split_and!; [done|constructor| |by rewrite app_nil_r|done|done|by rewrite app_nil_r].
    exists (store r), (pucAcquire r). rewrite Z.add_0_r. by destruct r.
  - destruct (Z.ltb_spec rem (al (len d) + 8)); [|unfold rem in *; lia].
    destruct (decide (rem = 8)) as [E8|N8].
    + destruct (first_part_dummy r outs ws d (al (len d)) R) as (m & E & R0 & T0); [unfold rem in *; lia..|].
      eexists _, _, _, _. rewrite E8. split; [exact E|]. split; [by apply sp_dummy|].
      split; [eexists _, _; rewrite Z.add_0_r; by destruct r|]. split; [exact R0|].
      set (r0 := set_pucAcquire _ _) in *.
      assert (pucAcquire r0 - pucHead r0 = 0 /\ xSize r0 = xSize r /\ xMaxItemSize r0 = xMaxItemSize r) as (E1 & E2 & E3)
        by (subst r0; destruct r; simpl; lia).
      rewrite E2 in T0. rewrite E1, E2, E3.
      unfold rem in *. unfold item_ext. cmp_step; split_and!; try lia.
    + destruct (first_part_split r outs ws d R) as (m & E & R0 & Hrl & Hal & T0); [unfold rem in *; lia..|].
      fold rem in E, R0, Hrl, Hal, T0. eexists _, _, _, 1. split; [exact E|].
      split; [apply sp_part; unfold rem in *; lia|].
      split; [eexists _, _; by destruct r|]. split; [exact R0|].
      set (r0 := set_pucAcquire _ _) in *.
      assert (pucAcquire r0 - pucHead r0 = 0 /\ xSize r0 = xSize r /\ xMaxItemSize r0 = xMaxItemSize r) as (E1 & E2 & E3)
        by (subst r0; destruct r; simpl; lia).
      rewrite E2 in T0. rewrite E1, E2, E3.
      rewrite Hal. unfold rem in *. unfold item_ext. rewrite Hal. rewrite length_drop.
      cmp_step; split_and!; try lia.
Qed.

(** The blocks before the last part and that part become one entry. *)
Definition entry_of (pre : list blk) (b : blk) : entry :=
  match pre with
  | [] => Whole b
  | x :: _ => if is_dummy x then Skipped x b else Parts x b
  end.

Lemma entry_of_spec rem d pre d' k :
  split_pre rem d pre d' k ->
  let b := Blk (len d') 0 d' in
  blocks_of (entry_of pre b) = pre ++ [b] /\ entry_ok RINGBUF_TYPE_ALLOWSPLIT (entry_of pre b) /\
  item_of (entry_of pre b) = d /\ weight (entry_of pre b) = k + 1.
Proof.
  intros [|E|H8 Hl] b; simpl; repeat split; try done. apply take_drop.
Qed.

Lemma rep_copy_split r outs es d :
  item_rep RINGBUF_TYPE_ALLOWSPLIT r outs es -> len d <= xMaxItemSize r ->
  room RINGBUF_TYPE_ALLOWSPLIT (xSize r) (pucAcquire r - pucHead r) (total_of r (outs ++ blocks es)) (len d) ->
  exists r' e, prvCopyItemAllowSplit r d (len d) = Some r' /\
    item_rep RINGBUF_TYPE_ALLOWSPLIT r' outs (es ++ [e]) /\ item_of e = d /\
    live_of r' outs = live_of r outs /\ params r' = params r.
Proof.
  intros R Hn Hroom. destruct (max_aligned _ _ _ _ _ R (conj (Nat2Z.is_nonneg _) Hn)) as (Ha & Ha4 & _).
  pose proof (rp_core _ _ _ _ R) as RC. pose proof (core_geo _ _ _ RC) as Hg.
  destruct (core_acquire _ _ _ RC) as (_ & (Gp1 & Gp2 & Gp3) & _).
  pose proof (ic_head _ _ _ RC) as Hh. pose proof (ic_tail _ _ _ RC) as Ht.
  destruct (split_place r outs (blocks es) d RC Hn ltac:(lia) Hroom)
    as (r0 & d' & pre & k & E & Hpre & (m0 & q0 & Er0) & R0 & Hn' & Hfit & Hx).
  destruct (entry_of_spec _ _ _ _ _ Hpre) as (Hb & Hok & Hit & Hw). set (b := Blk (len d') 0 d') in *.
  set (A := pucAcquire r0) in *.
  destruct (plain_mem_spec (store r0) A (len d') d' eq_refl ltac:(destruct (core_geo _ _ _ R0) as (_ & _ & ?); lia))
    as (L1 & L2 & L3 & L4).
  pose proof (core_push_item r0 outs (blocks es ++ pre) (plain_mem (store r0) A (len d') d') (len d') 0 d' R0 ltac:(lia)
    ltac:(lia) eq_refl ltac:(intros Hsp; discriminate Hsp) L1 L2 L3 L4 Hfit Hx) as R1. fold A in R1.
  set (r1 := set_pucAcquire _ _) in R1. fold b in R1. rewrite <- app_assoc, <- Hb in R1.
  destruct (rep_append _ _ _ _ (entry_of pre b) r1 (xItemsWaiting r + k + 1) R) as (R4 & L4' & P); auto.
  - eapply room_lt; [exact Hroom|lia..].
  - rewrite blocks_app. change (blocks [entry_of pre b]) with (blocks_of (entry_of pre b) ++ []). by rewrite app_nil_r.
  - subst r1. rewrite Er0. by destruct r.
  - subst r1. rewrite Er0. by destruct r.
  - subst r1. rewrite Er0. by destruct r.
  - lia.
  - eexists _, _. split; [|split; [exact R4|by split_and!]].
    unfold prvCopyItemAllowSplit, in_storage, rbHEADER_SIZE.
    rewrite rbCHECK_ALIGNED_spec, rbALIGN_SIZE_al, !u32_id by (unfold al in *; lia).
    replace (pucAcquire r mod 4 =? 0) with true by lia.
    replace ((pucHead r <=? pucAcquire r) && (pucAcquire r <? pucTail r)) with true by lia.
    replace (8 <=? pucTail r - pucAcquire r) with true by lia. rewrite E. clear E.
    assert (xItemsWaiting r0 = xItemsWaiting r + k) as Ew by (rewrite Er0; by destruct r).
    subst r1 A. rewrite <- Ew. unfold plain_mem, memcpy_in, set_hdr_flags, set_hdr_len, check_full, wrap_if_no_header.
    clear. destruct r0; simpl. rewrite Nat2Z.id, firstn_all, !Z.add_assoc. f_equal.
    by destruct (_ =? _).
Qed.
