(* ===== verification/RingbufChannel.v ===== *)
(** * Item buffers are reliable FIFO channels

    The client's view of a no-split or allow-split buffer: any sequence of
    sends, receives and returns in any order of the returned items. *)

From S2P Require Import Prelude Ringbuf RingbufByte RingbufItem RingbufFifo RingbufSend.

#[local] Ltac Zify.zify_post_hook ::= Z.div_mod_to_equations.

(** ** Clients *)

Record item_client := ItemClient {
  cl_rb : Ringbuffer_t;
  cl_sent : list (list Z);
  cl_got : list (list Z);
  cl_out : list (Z * list Z)
}.

Inductive item_op := ItSend (d : list Z) | ItReceive | ItReturn (i : nat).

Definition item_receive (r : Ringbuffer_t) : option (Ringbuffer_t * option received) :=
  match xBufferType r with
  | RINGBUF_TYPE_ALLOWSPLIT => xRingbufferReceiveSplitFromISR r
  | _ => xRingbufferReceiveFromISR r
  end.

(** One call; a returned item is chosen by its position among those out. *)
Definition item_step (c : item_client) (o : item_op) : option item_client :=
  match o with
  | ItSend d =>
      let? (r, ok) := xRingbufferSendFromISR (cl_rb c) d (len d) in
      Some (ItemClient r (cl_sent c ++ if ok : bool then [d] else []) (cl_got c) (cl_out c))
  | ItReceive =>
      let? (r, res) := item_receive (cl_rb c) in
      match res with
      | None => Some (ItemClient r (cl_sent c) (cl_got c) (cl_out c))
      | Some res =>
          Some (ItemClient r (cl_sent c) (cl_got c ++ [concat (snd <$> pieces r res)])
                  (cl_out c ++ pieces r res))
      end
  | ItReturn i =>
      match cl_out c !! i with
      | None => Some c
      | Some (p, _) =>
          let? r := vRingbufferReturnItemFromISR (cl_rb c) p in
          Some (ItemClient r (cl_sent c) (cl_got c) (delete i (cl_out c)))
      end
  end.

Fixpoint item_run (c : item_client) (os : list item_op) : option item_client :=
  match os with
  | [] => Some c
  | o :: os => let? c := item_step c o in item_run c os
  end.

Definition item_start (kind : RingbufferType_t) (size storage : Z) (m : mem) : item_client :=
  ItemClient (prvInitializeNewRingbuffer size kind storage m) [] [] [].

Lemma item_run_app c os os' : item_run c (os ++ os') = let? c := item_run c os in item_run c os'.
Proof. revert c. induction os as [|o os IH]; intros c; simpl; [done|]. destruct (item_step c o); [apply IH|done]. Qed.

(** ** The invariant *)

Lemma item_rep_unblock_receiver kind r outs es :
  item_rep kind r outs es ->
  item_rep kind (unblock_receiver r) outs es /\ params (unblock_receiver r) = params r /\
  live_of (unblock_receiver r) outs = live_of r outs.
Proof.
  intros [[]]. unfold unblock_receiver. destruct (xTasksWaitingToReceive r); [done|].
  destruct r. split; [|done]. by split.
Qed.

Lemma item_rep_unblock_sender kind r outs es :
  item_rep kind r outs es ->
  item_rep kind (unblock_sender r) outs es /\ params (unblock_sender r) = params r /\
  live_of (unblock_sender r) outs = live_of r outs.
Proof.
  intros [[]]. unfold unblock_sender. destruct (xTasksWaitingToSend r); [done|].
  destruct r. split; [|done]. by split.
Qed.

Lemma item_rep_written kind r outs es r' b :
  item_rep kind r outs es -> item_written r = (r', b) ->
  item_rep kind (notify_queue_set b r') outs es /\ params (notify_queue_set b r') = params r /\
  live_of (notify_queue_set b r') outs = live_of r outs.
Proof.
  intros R. unfold item_written. destruct (xQueueSet r) as [z|] eqn:Eq; intros [= <- <-].
  - simpl. rewrite Eq. destruct R as [[]], r. split; [|done]. by split.
  - by apply item_rep_unblock_receiver.
Qed.

Lemma item_rep_init kind size storage m :
  kind <> RINGBUF_TYPE_BYTEBUF -> 16 <= size < 2147483648 -> size mod 4 = 0 ->
  0 <= storage -> storage mod 4 = 0 ->
  item_rep kind (prvInitializeNewRingbuffer size kind storage m) [] [].
Proof.
  intros Hk Hs Hs4 Hst Hst4.
  assert (xMaxItemSize (prvInitializeNewRingbuffer size kind storage m) =
    if decide (kind = RINGBUF_TYPE_NOSPLIT) then al (size / 2) - 8 else size - 16) as Hm.
  { unfold prvInitializeNewRingbuffer, rbHEADER_SIZE. simpl.
    destruct kind; repeat case_decide; try done; rewrite ?rbALIGN_SIZE_al, u32_id; unfold al; lia. }
  assert (is_full (prvInitializeNewRingbuffer size kind storage m) = false) as Hf by (by destruct kind).
  split; [split| | | | | | | | |]; try done.
  - rewrite Hm. simpl. destruct kind; repeat case_decide; try done; unfold al; lia.
  - simpl. unfold good. lia.
  - simpl. lia.
  - simpl. lia.
  - simpl. lia.
  - by destruct kind.
  - by destruct kind.
  - rewrite Hf. symmetry. apply bool_decide_eq_false. simpl. lia.
Qed.

Section Client.
  Context (kind : RingbufferType_t) (size storage : Z).

Definition item_inv (c : item_client) (outs : list blk) (es : list entry) : Prop :=
    item_rep kind (cl_rb c) outs es /\ xSize (cl_rb c) = size /\ pucHead (cl_rb c) = storage /\
    cl_out c = live_of (cl_rb c) outs /\ cl_sent c = cl_got c ++ (item_of <$> es) /\
    (cl_out c = [] -> outs = []).

  (** The copy function of the buffer's type appends the item. *)
Lemma rep_copy r outs es d :
    item_rep kind r outs es -> len d <= xMaxItemSize r ->
    room kind (xSize r) (pucAcquire r - pucHead r) (total_of r (outs ++ blocks es)) (len d) ->
    exists r' e, vCopyItem r d (len d) = Some r' /\
      item_rep kind r' outs (es ++ [e]) /\ item_of e = d /\
      live_of r' outs = live_of r outs /\ params r' = params r.
  Proof.
    intros R Hn Hr. unfold vCopyItem. pose proof (rp_kind _ _ _ _ R) as Hk. pose proof (rp_item _ _ _ _ R).
    rewrite Hk. destruct kind; [by apply (rep_copy_nosplit _ _ es)|by apply (rep_copy_split _ _ es)|done].
  Qed.

  (** A send appends the item or reports that it does not fit; it fits in an
      empty buffer. *)
Lemma rep_send r outs es d :
    item_rep kind r outs es ->
    exists r' ok, xRingbufferSendFromISR r d (len d) = Some (r', ok) /\ params r' = params r /\
      live_of r' outs = live_of r outs /\
      (if ok : bool then exists e, item_rep kind r' outs (es ++ [e]) /\ item_of e = d
       else item_rep kind r' outs es) /\
      (outs = [] -> es = [] -> len d <= xMaxItemSize r -> ok = true) /\
      (ok = true <-> len d <= xMaxItemSize r /\ prvCheckItemFitsDefault r (len d) = Some true).
  Proof.
    intros R. unfold xRingbufferSendFromISR. destruct (Z.gtb_spec (len d) (xMaxItemSize r)).
    { exists r, false. split_and!; auto; [lia|]. split; [done|lia]. }
    rewrite (rp_byte _ _ _ _ R). cbn [andb].
    assert (xCheckItemFits r (len d) = prvCheckItemFitsDefault r (len d)) as ->.
    { unfold xCheckItemFits. rewrite (rp_kind _ _ _ _ R). pose proof (rp_item _ _ _ _ R). by destruct kind. }
    destruct (fits_room _ _ _ _ (len d) R ltac:(lia)) as (b & -> & Hb & He). destruct b.
    2: { exists r, false. split_and!; auto. split; [done|by intros [_ ?]]. }
    destruct (rep_copy r outs es d R ltac:(lia) (Hb eq_refl)) as (r1 & e & -> & R1 & Ei & L1 & P1).
    destruct (item_written r1) as [r2 b] eqn:Ew.
    destruct (item_rep_written _ _ _ _ _ _ R1 Ew) as (R2 & P2 & L2).
    eexists _, true. split; [reflexivity|]. rewrite P2, L2. split_and!; eauto. split; [split; [lia|done]|done].
  Qed.

Lemma inv_send c outs es d :
    item_inv c outs es ->
    exists c' es', item_step c (ItSend d) = Some c' /\ item_inv c' outs es' /\ cl_got c' = cl_got c /\
      (outs = [] -> es = [] -> len d <= xMaxItemSize (cl_rb c) -> cl_sent c' = cl_sent c ++ [d]).
  Proof.
    intros (R & Hs & Hh & Ho & Hq & Hl).
    destruct (rep_send _ _ _ d R) as (r' & ok & E & P & L & Hok & He & _). simpl. rewrite E.
    unfold params in P. injection P. intros _ _ Ps Ph. unfold item_inv.
    destruct ok; [destruct Hok as (e & R' & Ei)|]; eexists _; [exists (es ++ [e])|exists es];
      (split; [reflexivity|]); (split; [split; [eassumption|]|]); simpl.
    - rewrite L, Ps, Ph, Hq, fmap_app, <- Ei, app_assoc. split_and!; auto.
    - split; [done|]. auto.
    - rewrite app_nil_r, L, Ps, Ph. split_and!; auto.
    - split; [done|]. intros H1 H2 H3. by specialize (He H1 H2 H3).
  Qed.

Lemma inv_receive c outs es :
    item_inv c outs es ->
    exists c' outs' es', item_step c ItReceive = Some c' /\ item_inv c' outs' es' /\
      cl_sent c' = cl_sent c /\ (length es' = pred (length es)).
  Proof.
    intros (R & Hs & Hh & Ho & Hq & Hl). cbn [item_step].
    assert (item_receive (cl_rb c) = prvReceiveGenericFromISR (cl_rb c) 0) as ->.
    { unfold item_receive, xRingbufferReceiveSplitFromISR, xRingbufferReceiveFromISR.
      rewrite (rp_kind _ _ _ _ R), (rp_split _ _ _ _ R). pose proof (rp_item _ _ _ _ R).
      destruct kind; [done|done|done]. }
    unfold prvReceiveGenericFromISR. destruct es as [|e es].
    - rewrite (rep_avail_nil _ _ _ R). eexists _, outs, []. split; [reflexivity|]. by split.
    - rewrite (rep_avail_cons _ _ _ _ _ R).
      destruct (rep_receive _ _ _ _ _ R) as (r' & res & -> & R' & L & Ei & P).
      eexists _, _, es. split; [reflexivity|]. split; [|done].
      unfold item_inv. cbn [cl_rb cl_sent cl_got cl_out]. unfold params in P. injection P. intros _ _ Ps Ph.
      split; [exact R'|]. rewrite L, Ps, Ph, Ei, Hq, <- app_assoc, Ho. split_and!; auto.
      intros Hn. exfalso. apply app_eq_nil in Hn as [_ Hn]. unfold pieces in Hn. by destruct (item1 res).
  Qed.

Lemma inv_return c outs es i :
    item_inv c outs es ->
    exists c' outs', item_step c (ItReturn i) = Some c' /\ item_inv c' outs' es /\
      cl_sent c' = cl_sent c /\ cl_got c' = cl_got c /\ cl_out c' = delete i (cl_out c).
  Proof.
    intros (R & Hs & Hh & Ho & Hq & Hl). simpl. destruct (cl_out c !! i) as [[p d]|] eqn:Ei.
    2: { exists c, outs. split; [done|]. split; [by split_and!|]. apply lookup_ge_None in Ei.
         by rewrite delete_take_drop, take_ge, drop_ge, app_nil_r by lia. }
    assert (live_of (cl_rb c) outs = take i (cl_out c) ++ (p, d) :: drop (S i) (cl_out c)) as Lv
      by (rewrite <- Ho; symmetry; by apply take_drop_middle).
    destruct (rep_return _ _ _ _ _ _ _ _ R Lv) as (r1 & outs1 & E & R1 & L1 & P1 & Hhd).
    destruct (item_rep_unblock_sender _ _ _ _ R1) as (R2 & P2 & L2).
    assert (vReturnItem (cl_rb c) p = Some r1) as Ev.
    { unfold vReturnItem. rewrite (rp_kind _ _ _ _ R). pose proof (rp_item _ _ _ _ R). by destruct kind. }
    unfold vRingbufferReturnItemFromISR. rewrite Ev. eexists _, outs1. split; [reflexivity|].
    split; [|done]. unfold item_inv. cbn [cl_rb cl_sent cl_got cl_out]. rewrite L2, L1, delete_take_drop.
    unfold params in P1, P2. injection P1. injection P2. intros. split_and!; auto; try congruence.
    intros Hn. rewrite <- L1 in Hn. destruct outs1 as [|b outs1]; [done|]. exfalso. simpl in Hn.
    unfold skippable in Hhd. by rewrite Hhd in Hn.
  Qed.

Lemma item_run_inv os : forall c outs es,
    item_inv c outs es -> exists c' outs' es', item_run c os = Some c' /\ item_inv c' outs' es'.
  Proof.
    induction os as [|o os IH]; intros c outs es I; simpl; [by exists c, outs, es|].
    destruct o as [d| |i].
    - destruct (inv_send c outs es d I) as (c' & es' & -> & I' & _). eauto.
    - destruct (inv_receive c outs es I) as (c' & outs' & es' & -> & I' & _). eauto.
    - destruct (inv_return c outs es i I) as (c' & outs' & -> & I' & _). eauto.
  Qed.

Lemma item_drain n : forall c outs es,
    item_inv c outs es -> (length es <= n)%nat ->
    exists c' outs', item_run c (replicate n ItReceive) = Some c' /\ item_inv c' outs' [] /\
      cl_sent c' = cl_sent c.
  Proof.
    induction n as [|n IH]; intros c outs es I Hn; cbn [replicate item_run].
    - destruct es; [|simpl in Hn; lia]. by exists c, outs.
    - destruct (inv_receive c outs es I) as (c' & outs' & es' & -> & I' & <- & Hl). apply (IH c' outs' es' I'). simpl in *. lia.
  Qed.

Lemma item_return_all n : forall c outs es,
    item_inv c outs es -> (length (cl_out c) <= n)%nat ->
    exists c' outs', item_run c (replicate n (ItReturn 0)) = Some c' /\ item_inv c' outs' es /\
      cl_sent c' = cl_sent c /\ cl_got c' = cl_got c /\ cl_out c' = [].
  Proof.
    induction n as [|n IH]; intros c outs es I Hn; cbn [replicate item_run].
    - exists c, outs. destruct (cl_out c) eqn:E; [|simpl in Hn; lia]. by split_and!.
    - destruct (inv_return c outs es 0 I) as (c1 & outs1 & E & I1 & S1 & G1 & O1).
      rewrite E. destruct (IH c1 outs1 es I1) as (c' & outs' & E' & I' & S' & G' & O').
      + rewrite O1. destruct (cl_out c); simpl in *; lia.
      + exists c', outs'. split_and!; auto; congruence.
  Qed.

Lemma item_inv_start m :
    kind <> RINGBUF_TYPE_BYTEBUF -> 16 <= size < 2147483648 -> size mod 4 = 0 ->
    0 <= storage -> storage mod 4 = 0 -> item_inv (item_start kind size storage m) [] [].
  Proof. intros. split; [by apply item_rep_init|]. done. Qed.
End Client.

(** C1. An item buffer is a FIFO channel of items: from a fresh no-split or
    allow-split buffer of any aligned size of 16 bytes or more, no sequence of
    sends of items of any length, receives, and returns of the received items
    in any order makes an assertion fail; the items handed to readers are a
    prefix of the items accepted from writers, in order and byte for byte; and
    the bytes of every item not returned yet are still in place. *)
Theorem item_buffer_fifo kind size storage m os :
  kind <> RINGBUF_TYPE_BYTEBUF -> 16 <= size < 2147483648 -> size mod 4 = 0 ->
  0 <= storage -> storage mod 4 = 0 ->
  exists c, item_run (item_start kind size storage m) os = Some c /\
    cl_got c `prefix_of` cl_sent c /\
    forall p d, (p, d) ∈ cl_out c -> load_bytes (store (cl_rb c)) p (len d) = d.
Proof.
  intros Hk Hs Hs4 Hst Hst4.
  destruct (item_run_inv kind size storage os _ _ _ (item_inv_start kind size storage m Hk Hs Hs4 Hst Hst4))
    as (c & outs & es & E & R & _ & _ & O & S & _).
  exists c. split; [done|]. rewrite S, O. split; [by eexists|].
  intros p d Hin. destruct (core_split _ _ _ (rp_core _ _ _ _ R)) as (_ & _ & C & _).
  eapply live_bytes; [exact (core_geo _ _ _ (rp_core _ _ _ _ R))|exact C|exact Hin].
Qed.

Lemma item_buffer_fifo_witness :
  exists c, item_run (item_start RINGBUF_TYPE_NOSPLIT 64 1000 (fun _ => 0))
              [ItSend [1; 2; 3]; ItSend [4; 5; 6; 7; 8]; ItReceive; ItSend []; ItReceive; ItReturn 1; ItReturn 0;
               ItSend [9; 9; 9; 9; 9; 9; 9; 9; 9; 9; 9; 9; 9]; ItReceive; ItReceive] = Some c /\
    cl_got c `prefix_of` cl_sent c /\
    forall p d, (p, d) ∈ cl_out c -> load_bytes (store (cl_rb c)) p (len d) = d.
Proof. apply (item_buffer_fifo RINGBUF_TYPE_NOSPLIT 64 1000 (fun _ => 0)); done || lia. Defined.

(** C32. Nothing is lost and nothing stays behind: after any run, one receive
    per accepted item delivers all of them, and returning what is out, in the
    order received, leaves a buffer that accepts any item up to the maximum
    item size. *)
Theorem item_buffer_drains kind size storage m os d :
  kind <> RINGBUF_TYPE_BYTEBUF -> 16 <= size < 2147483648 -> size mod 4 = 0 ->
  0 <= storage -> storage mod 4 = 0 ->
  exists c n, item_run (item_start kind size storage m) (os ++ replicate n ItReceive) = Some c /\
    (n <= length (cl_sent c))%nat /\ cl_got c = cl_sent c /\
    exists c', item_run c (replicate (length (cl_out c)) (ItReturn 0)) = Some c' /\ cl_out c' = [] /\
      (len d <= xRingbufferGetMaxItemSize (cl_rb c') ->
       exists c'', item_step c' (ItSend d) = Some c'' /\ cl_sent c'' = cl_sent c' ++ [d]).
Proof.
  intros Hk Hs Hs4 Hst Hst4.
  destruct (item_run_inv kind size storage os _ _ _ (item_inv_start kind size storage m Hk Hs Hs4 Hst Hst4))
    as (c0 & outs0 & es0 & E0 & I0).
  destruct (item_drain kind size storage (length es0) c0 outs0 es0 I0 ltac:(done)) as (c & outs & E & I & S).
  destruct (item_return_all kind size storage (length (cl_out c)) c outs [] I ltac:(done))
    as (c' & outs' & E' & I' & _ & _ & O').
  exists c, (length es0). rewrite item_run_app, E0. split; [done|].
  split; [rewrite S; destruct I0 as (_ & _ & _ & _ & -> & _); rewrite length_app, length_fmap; lia|].
  pose proof I as (_ & _ & _ & _ & Hq & _). split; [by rewrite Hq, app_nil_r|].
  exists c'. split; [done|]. split; [done|]. intros Hd.
  pose proof I' as (_ & _ & _ & _ & _ & Hl).
  destruct (inv_send kind size storage c' outs' [] d I') as (c'' & es' & E'' & _ & _ & Hacc).
  exists c''. split; [done|]. apply Hacc; auto.
Qed.

Lemma item_buffer_drains_witness :
  exists c n, item_run (item_start RINGBUF_TYPE_ALLOWSPLIT 64 1000 (fun _ => 0))
      ([ItSend [1; 2; 3]; ItReceive; ItSend (replicate 30 7); ItReturn 0; ItSend (replicate 20 8)]
       ++ replicate n ItReceive) = Some c /\
    (n <= length (cl_sent c))%nat /\ cl_got c = cl_sent c /\
    exists c', item_run c (replicate (length (cl_out c)) (ItReturn 0)) = Some c' /\ cl_out c' = [] /\
      (len (replicate 48 5) <= xRingbufferGetMaxItemSize (cl_rb c') ->
       exists c'', item_step c' (ItSend (replicate 48 5)) = Some c'' /\ cl_sent c'' = cl_sent c' ++ [replicate 48 5]).
Proof. apply (item_buffer_drains RINGBUF_TYPE_ALLOWSPLIT 64 1000 (fun _ => 0)); done || lia. Defined.

(** ** The reported free size *)

Lemma clamp_free_size_spec r x :
  0 <= xMaxItemSize r < 2147483648 -> x < 2147483648 ->
  clamp_free_size r x = Z.max 0 (Z.min x (xMaxItemSize r)).
Proof.
  intros Hm Hx. unfold clamp_free_size. destruct (Z.ltb_spec x 0); [lia|].
  rewrite u32_id by lia. destruct (Z.gtb_spec x (xMaxItemSize r)); lia.
Qed.

Lemma al_le n s : s mod 4 = 0 -> (al n <= s <-> n <= s).
Proof. unfold al. lia. Qed.

(** The geometry of a buffer, for arithmetic. *)
Lemma rep_geometry kind r outs es :
  item_rep kind r outs es ->
  let f := pucFree r - pucHead r in let a := pucAcquire r - pucHead r in
  16 <= xSize r < 2147483648 /\ xSize r mod 4 = 0 /\ 0 <= pucHead r /\ pucHead r mod 4 = 0 /\
  pucTail r = pucHead r + xSize r /\ 0 <= xMaxItemSize r < xSize r /\
  (0 <= f /\ f mod 4 = 0 /\ f + 8 <= xSize r) /\ (0 <= a /\ a mod 4 = 0 /\ a + 8 <= xSize r) /\
  (is_full r = true -> a = f).
Proof.
  intros R f a. destruct (core_acquire _ _ _ (rp_core _ _ _ _ R)) as (Gf & Gp & HT & Hp & _).
  pose proof (rp_full _ _ _ _ R) as Hf. destruct R as [[]]. unfold good in *. split_and!; try lia.
  rewrite Hf, bool_decide_eq_true. intros E. rewrite E in Hp. unfold adv in Hp.
  destruct (Z.ltb_spec (pucFree r - pucHead r + xSize r) (xSize r)); lia.
Qed.

Lemma fits_eq kind r outs es n :
  item_rep kind r outs es -> 0 <= n <= xMaxItemSize r ->
  prvCheckItemFitsDefault r n = Some (
    if pucAcquire r =? pucFree r then negb (is_full r)
    else if pucFree r >? pucAcquire r then al n + 8 <=? pucFree r - pucAcquire r
    else (al n + 8 <=? pucTail r - pucAcquire r) ||
      match kind with
      | RINGBUF_TYPE_NOSPLIT => al n + 8 <=? pucFree r - pucHead r
      | _ => al n + 16 <=? xSize r - (pucAcquire r - pucFree r)
      end).
Proof.
  intros R Hn. destruct (max_aligned _ _ _ _ _ R Hn) as (Ha & Ha4 & Hmax).
  destruct (rep_geometry _ _ _ _ R) as (? & ? & ? & ? & ? & ? & ? & ? & _).
  unfold prvCheckItemFitsDefault, in_storage, rbHEADER_SIZE. rewrite rbCHECK_ALIGNED_spec, rbALIGN_SIZE_al by lia.
  rewrite (rp_split _ _ _ _ R). pose proof (rp_item _ _ _ _ R).
  replace (pucAcquire r mod 4 =? 0) with true by lia.
  replace ((pucHead r <=? pucAcquire r) && (pucAcquire r <? pucTail r)) with true by lia.
  rewrite (u32_id (al n + 8)), (u32_id (pucTail r - pucAcquire r)) by lia.
  destruct (Z.eqb_spec (pucAcquire r) (pucFree r)); [done|].
  destruct (Z.gtb_spec (pucFree r) (pucAcquire r)); [by rewrite u32_id by lia|].
  destruct (al n + 8 <=? pucTail r - pucAcquire r); [done|].
  destruct kind; simpl; rewrite ?u32_id by (unfold al in *; lia); [done| |done]. do 2 f_equal. lia.
Qed.

(** The reported size of a buffer that is not full, before the clamp. *)
Definition raw_free_size (kind : RingbufferType_t) (r : Ringbuffer_t) : Z :=
  match kind with
  | RINGBUF_TYPE_NOSPLIT =>
      (if pucAcquire r <? pucFree r then pucFree r - pucAcquire r
       else Z.max (pucTail r - pucAcquire r) (pucFree r - pucHead r)) - 8
  | _ =>
      if (pucAcquire r =? pucHead r) && (pucFree r =? pucHead r) then xSize r - 8
      else if pucAcquire r <? pucFree r then pucFree r - pucAcquire r - 8
      else (pucFree r - pucHead r) + (pucTail r - pucAcquire r) - 16
  end.

Lemma free_size_eq kind r outs es :
  item_rep kind r outs es ->
  xRingbufferGetCurFreeSize r =
    if is_full r then 0 else Z.max 0 (Z.min (raw_free_size kind r) (xMaxItemSize r)).
Proof.
  intros R. destruct (rep_geometry _ _ _ _ R) as (? & ? & ? & ? & ? & ? & ? & ? & _).
  unfold xRingbufferGetCurFreeSize, xGetCurMaxSize. rewrite (rp_kind _ _ _ _ R). pose proof (rp_item _ _ _ _ R).
  unfold prvGetCurMaxSizeNoSplit, prvGetCurMaxSizeAllowSplit, rbHEADER_SIZE, raw_free_size.
  destruct kind; [| |done]; (destruct (is_full r); [done|]).
  - rewrite !u32_id by lia. destruct (Z.ltb_spec (pucAcquire r) (pucFree r)).
    + rewrite s32_id, clamp_free_size_spec by lia. done.
    + destruct (Z.gtb_spec (pucTail r - pucAcquire r) (pucFree r - pucHead r)).
      * rewrite (s32_id (pucTail r - pucAcquire r)), s32_id, clamp_free_size_spec by lia. do 2 f_equal. lia.
      * rewrite (s32_id (pucFree r - pucHead r)), s32_id, clamp_free_size_spec by lia. do 2 f_equal. lia.
  - destruct (Z.eqb_spec (pucAcquire r) (pucHead r)), (Z.eqb_spec (pucFree r) (pucHead r)); cbn [andb];
      try destruct (Z.ltb_spec (pucAcquire r) (pucFree r)); rewrite s32_id, clamp_free_size_spec by lia;
      do 2 f_equal; lia.
Qed.

(** The fit test against the reported size. *)
Lemma cur_size_fits kind r outs es n :
  item_rep kind r outs es -> 0 < n ->
  (n <= xRingbufferGetCurFreeSize r -> n <= xMaxItemSize r /\ prvCheckItemFitsDefault r n = Some true) /\
  (kind = RINGBUF_TYPE_NOSPLIT -> n <= xMaxItemSize r -> prvCheckItemFitsDefault r n = Some true ->
   n <= xRingbufferGetCurFreeSize r).
Proof.
  intros R Hn. destruct (rep_geometry _ _ _ _ R) as (? & ? & ? & ? & ? & ? & ? & ? & Hfull).
  pose proof (fits_eq _ _ _ _ n R) as Hfit. rewrite (free_size_eq _ _ _ _ R).
  pose proof (rp_item _ _ _ _ R). unfold raw_free_size.
  assert (n <= xMaxItemSize r -> al n mod 4 = 0 /\
    match kind with RINGBUF_TYPE_NOSPLIT => al n + 8 <= al (xSize r / 2) | _ => al n + 16 <= xSize r end) as Hmax
    by (intros; by destruct (max_aligned _ _ _ _ n R ltac:(lia)) as (_ & ? & ?)).
  split; [intros Hle; assert (n <= xMaxItemSize r) as Hm by (destruct (is_full r); lia); split; [done|]
         |intros -> Hm]; rewrite Hfit by lia; destruct (Hmax Hm) as [Ha4 Hmx]; clear Hfit Hmax.
  - f_equal. destruct (is_full r); [lia|]. unfold al in *.
    destruct kind; [| |done]; revert Hle; repeat cmp_step; cbn [andb orb negb]; try lia; done || lia.
  - intros [= Hf]. revert Hf. destruct (is_full r).
    + destruct (Z.eqb_spec (pucAcquire r) (pucFree r)); [done|]. specialize (Hfull eq_refl). lia.
    + unfold al in *. repeat cmp_step; cbn [andb orb negb]; intros; lia || done.
Qed.

(** The reported free size is reliable: after any run, an item of one byte
    or more that is no longer than [xRingbufferGetCurFreeSize] is accepted, and
    by a no-split buffer no longer item is. *)
Theorem item_free_size kind size storage m os :
  kind <> RINGBUF_TYPE_BYTEBUF -> 16 <= size < 2147483648 -> size mod 4 = 0 ->
  0 <= storage -> storage mod 4 = 0 ->
  exists c, item_run (item_start kind size storage m) os = Some c /\
    forall d, 0 < len d -> exists c', item_step c (ItSend d) = Some c' /\
      (len d <= xRingbufferGetCurFreeSize (cl_rb c) -> cl_sent c' = cl_sent c ++ [d]) /\
      (kind = RINGBUF_TYPE_NOSPLIT -> xRingbufferGetCurFreeSize (cl_rb c) < len d -> cl_sent c' = cl_sent c).
Proof.
  intros Hk Hs Hs4 Hst Hst4.
  destruct (item_run_inv kind size storage os _ _ _ (item_inv_start kind size storage m Hk Hs Hs4 Hst Hst4))
    as (c & outs & es & E & R & _).
  exists c. split; [done|]. intros d Hd.
  destruct (cur_size_fits _ _ _ _ (len d) R Hd) as [Hyes Hno].
  destruct (rep_send kind _ _ _ d R) as (r' & ok & Es & _ & _ & _ & _ & Hok).
  cbn [item_step]. rewrite Es. eexists. split; [reflexivity|]. cbn [cl_sent]. split.
  - intros Hle. destruct (Hyes Hle) as [Hm Hf]. rewrite (proj2 Hok (conj Hm Hf)). done.
  - intros Ek Hlt. destruct ok; [|by rewrite app_nil_r].
    destruct (proj1 Hok eq_refl) as [Hm Hf]. specialize (Hno Ek Hm Hf). lia.
Qed.

Lemma item_free_size_witness :
  exists c, item_run (item_start RINGBUF_TYPE_NOSPLIT 64 1000 (fun _ => 0))
              [ItSend [1; 2; 3]; ItReceive; ItSend (replicate 20 7); ItReturn 0] = Some c /\
    forall d, 0 < len d -> exists c', item_step c (ItSend d) = Some c' /\
      (len d <= xRingbufferGetCurFreeSize (cl_rb c) -> cl_sent c' = cl_sent c ++ [d]) /\
      (RINGBUF_TYPE_NOSPLIT = RINGBUF_TYPE_NOSPLIT -> xRingbufferGetCurFreeSize (cl_rb c) < len d ->
       cl_sent c' = cl_sent c).
Proof. apply (item_free_size RINGBUF_TYPE_NOSPLIT 64 1000 (fun _ => 0)); done || lia. Defined.

(** ** The maximum item size of a new buffer *)

(** A new buffer's maximum item size is at most its size exactly when the
    size leaves room for a header: an item buffer of 8 bytes or less, or an
    allow-split buffer below 16 bytes, wraps around to a maximum near 2^32. *)
Theorem create_max_item_size p storage m n kind r :
  0 < n < 2147483648 ->
  xRingbufferCreate (Some p) (fun _ => Some storage) m n kind = Some (Some r, []) ->
  (xRingbufferGetMaxItemSize r <= xSize r <->
   match kind with
   | RINGBUF_TYPE_NOSPLIT => 8 < xSize r
   | RINGBUF_TYPE_ALLOWSPLIT => 16 <= xSize r
   | RINGBUF_TYPE_BYTEBUF => True
   end).
Proof.
  intros Hn. unfold xRingbufferCreate, xRingbufferGetMaxItemSize.
  replace (0 <? n) with true by lia. intros [= <-]. unfold prvInitializeNewRingbuffer, rbHEADER_SIZE. simpl.
  destruct kind; case_decide; try done.
  - rewrite (rbALIGN_SIZE_al n) by lia. assert (0 <= al n / 2 < 4294967292) by (unfold al; lia).
    rewrite (rbALIGN_SIZE_al (al n / 2)) by lia. destruct (decide (8 < al n)).
    + rewrite u32_id; unfold al in *; lia.
    + rewrite u32_neg; unfold al in *; lia.
  - rewrite rbALIGN_SIZE_al by lia. destruct (decide (16 <= al n)).
    + rewrite u32_id; unfold al in *; lia.
    + rewrite u32_neg; unfold al in *; lia.
Qed.

Lemma create_max_item_size_witness :
  let r := prvInitializeNewRingbuffer 8 RINGBUF_TYPE_NOSPLIT 1000 (fun _ => 0) in
  xRingbufferGetMaxItemSize r <= xSize r <-> 8 < xSize r.
Proof.
  apply (create_max_item_size 500 1000 (fun _ => 0) 8 RINGBUF_TYPE_NOSPLIT
    (prvInitializeNewRingbuffer 8 RINGBUF_TYPE_NOSPLIT 1000 (fun _ => 0))); [lia|reflexivity].
Defined.

(** ** Acquired items across the wrap *)

(** A 64-byte no-split buffer: items of 24 and 8 bytes are sent, received and
    returned; items of 12 and 4 bytes are acquired, the first behind a dummy
    at the head of the storage; only the second is completed.  The results are
    the buffer and the two acquired addresses. *)
Definition wrap_race : option (Ringbuffer_t * Z * Z) :=
  let self := Waiter 0 0 in
  let r := prvInitializeNewRingbuffer 64 RINGBUF_TYPE_NOSPLIT 1000 (fun _ => 0) in
  let? (r, _) := xRingbufferSendFromISR r (replicate 24 1) 24 in
  let? (r, _) := xRingbufferSendFromISR r (replicate 8 2) 8 in
  let? (r, it1) := xRingbufferReceiveFromISR r in
  let? (r, it2) := xRingbufferReceiveFromISR r in
  match it1, it2 with
  | Some (Received (p1, _) _), Some (Received (p2, _) _) =>
      let? r := vRingbufferReturnItemFromISR r p1 in
      let? r := vRingbufferReturnItemFromISR r p2 in
      let? (r, res1) := xRingbufferSendAcquire self [] r 12 0 in
      let? (r, res2) := xRingbufferSendAcquire self [] r 4 0 in
      match res1, res2 with
      | Returned (true, Some pB), Returned (true, Some pC) =>
          let? (r, _) := xRingbufferSendComplete r pC in
          Some (r, pB, pC)
      | _, _ => None
      end
  | _, _ => None
  end.

(** An item that was acquired and never completed can be received: when a
    dummy precedes it, [prvCheckItemAvail] looks at the dummy's written flag,
    and [prvGetItemDefault] skips the dummy and hands the item out although
    its own header is not marked as written. *)
Theorem uncompleted_item_received :
  exists r pB pC r', wrap_race = Some (r, pB, pC) /\
    flag (hdr_flags r (pB - rbHEADER_SIZE)) rbITEM_WRITTEN_FLAG = false /\
    xRingbufferReceiveFromISR r = Some (r', Some (Received (pB, 12) None)) /\ pB <> pC.
Proof.
  assert (match wrap_race with
          | Some (r, pB, pC) =>
              negb (pB =? pC) && negb (flag (hdr_flags r (pB - rbHEADER_SIZE)) rbITEM_WRITTEN_FLAG) &&
              match xRingbufferReceiveFromISR r with
              | Some (_, Some (Received (p, n) None)) => (p =? pB) && (n =? 12)
              | _ => false
              end
          | None => false
          end = true) as H by (vm_compute; reflexivity).
  destruct wrap_race as [[[r pB] pC]|]; [|done].
  apply andb_true_iff in H as [[Hne Hf]%andb_true_iff H].
  destruct (xRingbufferReceiveFromISR r) as [[r' [[[p n] [?|]]|]]|] eqn:E; try done.
  apply andb_true_iff in H as [->%Z.eqb_eq ->%Z.eqb_eq].
  exists r, pB, pC, r'. rewrite negb_true_iff in Hne, Hf. rewrite Z.eqb_neq in Hne. by split_and!.
Qed.
