(* ===== verification/EspTimer.v ===== *)
(** * The high-resolution timer service: data and operations

    Source: [components/esp_timer/src/esp_timer.c], the alarm registers of
    [esp_timer_impl_common.c] and [esp_timer_impl_set_alarm_id] of
    [esp_timer_impl_systimer.c], without profiling and with the ISR dispatch
    method.  Timers live in a heap of control blocks; the two BSD lists are
    lists of handles.  Every function takes the clock readings it makes as
    arguments.  [None] is an access to a control block that is not allocated,
    or the unlinking of an element that is not linked.  [timer_process_alarm]
    unlocks the list around each callback: a [round] of its loop is one clock
    reading and the calls that callbacks and other tasks make meanwhile. *)

From S2P Require Import Prelude EspErr.

Definition EVENT_ID_DELETE_TIMER : Z := 0xF0DE1E1E.
Definition FL_ISR_DISPATCH_METHOD : Z := 1.
Definition FL_SKIP_UNHANDLED_EVENTS : Z := 2.
Definition UINT64_MAX : Z := 2 ^ 64 - 1.
Definition INT64_MAX : Z := 2 ^ 63 - 1.

Inductive esp_timer_dispatch_t := ESP_TIMER_TASK | ESP_TIMER_ISR.

#[export] Instance esp_timer_dispatch_t_eq_dec : EqDecision esp_timer_dispatch_t.
Proof. solve_decision. Defined.

(** [struct esp_timer]; the union of [callback] and [event_id] is one 32-bit word. *)
Record esp_timer := MkTimer {
  alarm : Z;
  period : Z;
  flags : Z;
  callback : Z;
  arg : Z
}.

(** What becomes visible outside. *)
Inductive timer_event :=
  | Fired (d : esp_timer_dispatch_t) (t : Z) (cb a : Z) (due now : Z)
  | Freed (t : Z).

Record timers := MkTimers {
  s_timer_task : bool;
  heap : gmap Z esp_timer;
  task_list : list Z;
  isr_list : list Z;
  timestamp_task : Z;
  timestamp_isr : Z;
  alarm_target : Z;
  events : list timer_event
}.

Definition s_timers (d : esp_timer_dispatch_t) (s : timers) : list Z :=
  match d with ESP_TIMER_TASK => task_list s | ESP_TIMER_ISR => isr_list s end.
Definition timestamp_id (d : esp_timer_dispatch_t) (s : timers) : Z :=
  match d with ESP_TIMER_TASK => timestamp_task s | ESP_TIMER_ISR => timestamp_isr s end.

Definition set_list (d : esp_timer_dispatch_t) (l : list Z) (s : timers) : timers :=
  match d, s with
  | ESP_TIMER_TASK, MkTimers a b _ e f g h i => MkTimers a b l e f g h i
  | ESP_TIMER_ISR, MkTimers a b c _ f g h i => MkTimers a b c l f g h i
  end.
Definition set_timestamp (d : esp_timer_dispatch_t) (v : Z) (s : timers) : timers :=
  match d, s with
  | ESP_TIMER_TASK, MkTimers a b c e _ g h i => MkTimers a b c e v g h i
  | ESP_TIMER_ISR, MkTimers a b c e f _ h i => MkTimers a b c e f v h i
  end.
Definition set_heap (h : gmap Z esp_timer) (s : timers) : timers :=
  let (a, _, c, d, e, f, g, i) := s in MkTimers a h c d e f g i.
Definition set_target (v : Z) (s : timers) : timers :=
  let (a, b, c, d, e, f, _, i) := s in MkTimers a b c d e f v i.
Definition log_event (ev : timer_event) (s : timers) : timers :=
  let (a, b, c, d, e, f, g, i) := s in MkTimers a b c d e f g (i ++ [ev]).
Definition set_task (v : bool) (s : timers) : timers :=
  let (_, b, c, d, e, f, g, i) := s in MkTimers v b c d e f g i.

Definition null_timer : esp_timer := MkTimer 0 0 0 0 0.
Definition deref (s : timers) (t : Z) : esp_timer := default null_timer (heap s !! t).
Definition write_timer (t : Z) (tm : esp_timer) (s : timers) : timers := set_heap (<[t := tm]> (heap s)) s.

(** Stores to [alarm] and to the 56-bit field [period]. *)
Definition with_alarm (a : Z) (tm : esp_timer) : esp_timer :=
  MkTimer a (period tm) (flags tm) (callback tm) (arg tm).
Definition with_period (p : Z) (tm : esp_timer) : esp_timer :=
  MkTimer (alarm tm) (uN 56 p) (flags tm) (callback tm) (arg tm).

Definition dispatch_of (tm : esp_timer) : esp_timer_dispatch_t :=
  if flag (flags tm) FL_ISR_DISPATCH_METHOD then ESP_TIMER_ISR else ESP_TIMER_TASK.

Definition is_initialized (s : timers) : bool := s_timer_task s.
Definition timer_armed (s : timers) (t : Z) : bool := alarm (deref s t) >? 0.

(** ** The alarm registers *)

Definition esp_timer_impl_set_alarm_id (timestamp : Z) (alarm_id : esp_timer_dispatch_t) (s : timers) : timers :=
  let s := set_timestamp alarm_id timestamp s in
  set_target (Z.min (timestamp_task s) (timestamp_isr s)) s.

Definition esp_timer_impl_get_min_period_us : Z := 50.

(** Index 0 is [ESP_TIMER_TASK]. *)
Definition esp_timer_impl_try_to_set_next_alarm (s : timers) : timers :=
  let '(now_alarm_idx, next_alarm_idx) :=
    if timestamp_task s <? timestamp_isr s then (ESP_TIMER_TASK, ESP_TIMER_ISR)
    else (ESP_TIMER_ISR, ESP_TIMER_TASK) in
  if negb (timestamp_id next_alarm_idx s =? UINT64_MAX)
  then esp_timer_impl_set_alarm_id UINT64_MAX now_alarm_idx s
  else set_timestamp now_alarm_idx UINT64_MAX s.

(** ** The lists *)

(** [LIST_FOREACH] with [LIST_INSERT_BEFORE], or [LIST_INSERT_AFTER] the last. *)
Fixpoint list_insert (h : Z -> Z) (t : Z) (l : list Z) : list Z :=
  match l with
  | [] => [t]
  | it :: l' => if h t <? h it then t :: l else it :: list_insert h t l'
  end.

(** [LIST_REMOVE]; [None] when the element is not linked. *)
Fixpoint LIST_REMOVE (t : Z) (l : list Z) : option (list Z) :=
  match l with
  | [] => None
  | it :: l' => if it =? t then Some l' else let? l' := LIST_REMOVE t l' in Some (it :: l')
  end.

Definition alarm_at (s : timers) (t : Z) : Z := alarm (deref s t).

Definition timer_insert (t : Z) (without_update_alarm : bool) (s : timers) : timers * esp_err_t :=
  let dispatch_method := dispatch_of (deref s t) in
  let s := set_list dispatch_method (list_insert (alarm_at s) t (s_timers dispatch_method s)) s in
  let s :=
    if negb without_update_alarm && bool_decide (head (s_timers dispatch_method s) = Some t)
    then esp_timer_impl_set_alarm_id (alarm_at s t) dispatch_method s
    else s in
  (s, ESP_OK).

Definition timer_remove (t : Z) (s : timers) : option (timers * esp_err_t) :=
  let dispatch_method := dispatch_of (deref s t) in
  let first_timer := head (s_timers dispatch_method s) in
  let? l := LIST_REMOVE t (s_timers dispatch_method s) in
  let s := set_list dispatch_method l s in
  let s := write_timer t (with_period 0 (with_alarm 0 (deref s t))) s in
  let s :=
    if bool_decide (first_timer = Some t) then
      let next_timestamp := match s_timers dispatch_method s with
                            | [] => UINT64_MAX
                            | first_timer :: _ => alarm_at s first_timer
                            end in
      esp_timer_impl_set_alarm_id next_timestamp dispatch_method s
    else s in
  Some (s, ESP_OK).

(** ** The public functions

    A handle is an address, 0 being [NULL]. *)

Definition allocated (s : timers) (t : Z) : bool := bool_decide (is_Some (heap s !! t)).

Record esp_timer_create_args_t := MkArgs {
  args_callback : Z;
  args_arg : Z;
  args_dispatch_method : Z;
  args_skip_unhandled_events : bool
}.

(** [calloc] is [heap_caps_calloc]'s answer; the new handle is the third result. *)
Definition esp_timer_create (args : option esp_timer_create_args_t) (out_handle : bool) (calloc : option Z)
    (s : timers) : timers * esp_err_t * option Z :=
  if negb (is_initialized s) then (s, ESP_ERR_INVALID_STATE, None)
  else
    match args with
    | None => (s, ESP_ERR_INVALID_ARG, None)
    | Some args =>
        if (args_callback args =? 0) || negb out_handle
           || (args_dispatch_method args <? 0) || (args_dispatch_method args >=? 2)
        then (s, ESP_ERR_INVALID_ARG, None)
        else
          match calloc with
          | None => (s, ESP_ERR_NO_MEM, None)
          | Some result =>
              let tm :=
                MkTimer 0 0
                  (Z.lor (if args_dispatch_method args =? 0 then 0 else FL_ISR_DISPATCH_METHOD)
                     (if args_skip_unhandled_events args then FL_SKIP_UNHANDLED_EVENTS else 0))
                  (args_callback args) (args_arg args) in
              (write_timer result tm s, ESP_OK, Some result)
          end
    end.

(** What [esp_timer_restart] does under the lock, where it reads the clock.
    The test whether the timer is armed was made before. *)
Definition restart_locked (timer timeout_us now : Z) (s : timers) : option (timers * esp_err_t) :=
  let old_period := period (deref s timer) in
  let? (s, _) := timer_remove timer s in
  let s :=
    if negb (old_period =? 0) then
      let new_period := Z.max timeout_us esp_timer_impl_get_min_period_us in
      write_timer timer (with_period new_period (with_alarm (u64 (now + new_period)) (deref s timer))) s
    else
      write_timer timer (with_period 0 (with_alarm (u64 (now + timeout_us)) (deref s timer))) s in
  Some (timer_insert timer false s).

(** The call without interruption: the timer does not fire, and is not
    stopped, between the test and the lock ([restart_race] of [EspTimerApi]
    shows a call that is interrupted). *)
Definition esp_timer_restart (timer timeout_us now : Z) (s : timers) : option (timers * esp_err_t) :=
  if timer =? 0 then Some (s, ESP_ERR_INVALID_ARG)
  else if negb (is_initialized s) then Some (s, ESP_ERR_INVALID_STATE)
  else
    configASSERT allocated s timer;
    if negb (timer_armed s timer) then Some (s, ESP_ERR_INVALID_STATE)
    else restart_locked timer timeout_us now s.

(** The next two functions read the clock before they take the lock: [now] is
    any reading, not later than the lock.  Nothing else that they read before
    it can change while the handle is valid. *)
Definition esp_timer_start_once (timer timeout_us now : Z) (s : timers) : option (timers * esp_err_t) :=
  if timer =? 0 then Some (s, ESP_ERR_INVALID_ARG)
  else if negb (is_initialized s) then Some (s, ESP_ERR_INVALID_STATE)
  else
    configASSERT allocated s timer;
    let alarm := u64 (now + timeout_us) in
    if timer_armed s timer then Some (s, ESP_ERR_INVALID_STATE)
    else
      let s := write_timer timer (with_period 0 (with_alarm alarm (deref s timer))) s in
      Some (timer_insert timer false s).

Definition esp_timer_start_periodic (timer period_us now : Z) (s : timers) : option (timers * esp_err_t) :=
  if timer =? 0 then Some (s, ESP_ERR_INVALID_ARG)
  else if negb (is_initialized s) then Some (s, ESP_ERR_INVALID_STATE)
  else
    configASSERT allocated s timer;
    let period_us := Z.max period_us esp_timer_impl_get_min_period_us in
    let alarm := u64 (now + period_us) in
    if timer_armed s timer then Some (s, ESP_ERR_INVALID_STATE)
    else
      let s := write_timer timer (with_period period_us (with_alarm alarm (deref s timer))) s in
      Some (timer_insert timer false s).

Definition esp_timer_stop (timer : Z) (s : timers) : option (timers * esp_err_t) :=
  if timer =? 0 then Some (s, ESP_ERR_INVALID_ARG)
  else if negb (is_initialized s) then Some (s, ESP_ERR_INVALID_STATE)
  else
    configASSERT allocated s timer;
    if negb (timer_armed s timer) then Some (s, ESP_ERR_INVALID_STATE)
    else timer_remove timer s.

Definition esp_timer_delete (timer now : Z) (s : timers) : option (timers * esp_err_t) :=
  if timer =? 0 then Some (s, ESP_ERR_INVALID_ARG)
  else
    configASSERT allocated s timer;
    if timer_armed s timer then Some (s, ESP_ERR_INVALID_STATE)
    else
      let tm := deref s timer in
      let s := write_timer timer
        (MkTimer (u64 now) 0 (Z.land (flags tm) (Z.lnot FL_ISR_DISPATCH_METHOD)) EVENT_ID_DELETE_TIMER (arg tm)) s in
      Some (timer_insert timer false s).

Definition esp_timer_get_period (timer : Z) (out : bool) (s : timers) : option (esp_err_t * option Z) :=
  if (timer =? 0) || negb out then Some (ESP_ERR_INVALID_ARG, None)
  else configASSERT allocated s timer; Some (ESP_OK, Some (period (deref s timer))).

Definition esp_timer_get_expiry_time (timer : Z) (out : bool) (s : timers) : option (esp_err_t * option Z) :=
  if (timer =? 0) || negb out then Some (ESP_ERR_INVALID_ARG, None)
  else
    configASSERT allocated s timer;
    if period (deref s timer) >? 0 then Some (ESP_ERR_NOT_SUPPORTED, None)
    else Some (ESP_OK, Some (alarm (deref s timer))).

Definition esp_timer_is_active (timer : Z) (s : timers) : option bool :=
  if timer =? 0 then Some false
  else configASSERT allocated s timer; Some (timer_armed s timer).

(** The earlier of [next_alarm] and the alarm of the list's first timer. *)
Definition min_first (s : timers) (d : esp_timer_dispatch_t) (next_alarm : Z) : Z :=
  match s_timers d s with
  | [] => next_alarm
  | it :: _ => if next_alarm >? alarm_at s it then alarm_at s it else next_alarm
  end.

Definition esp_timer_get_next_alarm (s : timers) : Z :=
  min_first s ESP_TIMER_ISR (min_first s ESP_TIMER_TASK INT64_MAX).

(** The first timer of the list without [FL_SKIP_UNHANDLED_EVENTS]. *)
Fixpoint min_first_wake_up (s : timers) (l : list Z) (next_alarm : Z) : Z :=
  match l with
  | [] => next_alarm
  | it :: l =>
      if Z.land (flags (deref s it)) FL_SKIP_UNHANDLED_EVENTS =? 0 then
        if next_alarm >? alarm_at s it then alarm_at s it else next_alarm
      else min_first_wake_up s l next_alarm
  end.

Definition esp_timer_get_next_alarm_for_wake_up (s : timers) : Z :=
  min_first_wake_up s (isr_list s) (min_first_wake_up s (task_list s) INT64_MAX).

(** ** Dispatching *)

(** A call of the API, with its clock reading. *)
Inductive api_call :=
  | CallCreate (args : option esp_timer_create_args_t) (out_handle : bool) (attempt : nat)
  | CallRestart (timer timeout_us now : Z)
  | CallStartOnce (timer timeout_us now : Z)
  | CallStartPeriodic (timer period_us now : Z)
  | CallStop (timer : Z)
  | CallDelete (timer now : Z).

Section Dispatch.
(** The heap component's answer to an allocation attempt, given what is allocated. *)
Context (heap_caps_calloc : nat -> gmap Z esp_timer -> option Z).

Definition run_call (c : api_call) (s : timers) : option (timers * esp_err_t) :=
  match c with
  | CallCreate args out n =>
      let '(s, err, _) := esp_timer_create args out (heap_caps_calloc n (heap s)) s in Some (s, err)
  | CallRestart t d now => esp_timer_restart t d now s
  | CallStartOnce t d now => esp_timer_start_once t d now s
  | CallStartPeriodic t d now => esp_timer_start_periodic t d now s
  | CallStop t => esp_timer_stop t s
  | CallDelete t now => esp_timer_delete t now s
  end.

Fixpoint run_calls (cs : list api_call) (s : timers) : option timers :=
  match cs with
  | [] => Some s
  | c :: cs => let? (s, _) := run_call c s in run_calls cs s
  end.

(** The control block of a timer that fired, for its next expiry. *)
Definition next_expiry (now : Z) (tm : esp_timer) : esp_timer :=
  if period tm >? 0 then
    let skipped := s32 (u64 (now - alarm tm) / period tm) in
    if flag (flags tm) FL_SKIP_UNHANDLED_EVENTS && (skipped >? 1)
    then with_alarm (u64 (now + period tm)) tm
    else with_alarm (u64 (alarm tm + period tm)) tm
  else with_alarm 0 tm.

(** One iteration of the loop of [timer_process_alarm] on the timer [it]. *)
Definition process_timer (d : esp_timer_dispatch_t) (it now : Z) (calls : list api_call) (s : timers)
    : option timers :=
  let? l := LIST_REMOVE it (s_timers d s) in
  let s := set_list d l s in
  let tm := deref s it in
  if u32 (callback tm) =? EVENT_ID_DELETE_TIMER then
    Some (log_event (Freed it) (set_heap (delete it (heap s)) s))
  else
    let s := write_timer it (next_expiry now tm) s in
    let s := if period tm >? 0 then fst (timer_insert it true s) else s in
    run_calls calls (log_event (Fired d it (callback tm) (arg tm) (alarm tm) now) s).

Record round := Round { clock : Z; meanwhile_calls : list api_call }.

(** What the loop has come to: it left with [it] and [processed], or goes on
    after the given rounds. *)
Inductive progress := Left (it : option Z) (processed : bool) | Running.

Fixpoint process_loop (d : esp_timer_dispatch_t) (rounds : list round) (processed : bool) (s : timers)
    : option (timers * progress) :=
  match rounds with
  | [] => Some (s, Running)
  | Round now calls :: rounds =>
      match s_timers d s with
      | [] => Some (s, Left None processed)
      | it :: _ =>
          if alarm_at s it >? u64 now then Some (s, Left (Some it) processed)
          else let? s := process_timer d it now calls s in process_loop d rounds true s
      end
  end.

(** The result is [processed], once the loop has left. *)
Definition timer_process_alarm (d : esp_timer_dispatch_t) (rounds : list round) (s : timers)
    : option (timers * option bool) :=
  let? (s, p) := process_loop d rounds false s in
  match p with
  | Running => Some (s, None)
  | Left (Some it) processed =>
      let s := if bool_decide (d = ESP_TIMER_TASK) || (bool_decide (d <> ESP_TIMER_TASK) && processed)
               then esp_timer_impl_set_alarm_id (alarm_at s it) d s else s in
      Some (s, Some processed)
  | Left None processed =>
      let s := if processed : bool then esp_timer_impl_set_alarm_id UINT64_MAX d s else s in
      Some (s, Some processed)
  end.

(** The second result says whether the timer task is notified. *)
Definition timer_alarm_handler (rounds : list round) (s : timers) : option (timers * option bool) :=
  let s := esp_timer_impl_try_to_set_next_alarm s in
  let? (s, isr_timers_processed) := timer_process_alarm ESP_TIMER_ISR rounds s in
  Some (s, option_map negb isr_timers_processed).

End Dispatch.

(** ** Initialisation *)

Definition initial_timers : timers :=
  MkTimers false ∅ [] [] UINT64_MAX UINT64_MAX UINT64_MAX [].

(** [created]: the timer task could be created. *)
Definition init_timer_task (created : bool) (s : timers) : timers * esp_err_t :=
  if is_initialized s then (s, ESP_ERR_INVALID_STATE)
  else if created : bool then (set_task true s, ESP_OK)
  else (s, ESP_ERR_NO_MEM).

Definition deinit_timer_task (s : timers) : timers := set_task false s.

(** [impl_err]: what [esp_timer_impl_init] returns. *)
Definition esp_timer_init (created : bool) (impl_err : esp_err_t) (s : timers) : timers * esp_err_t :=
  let '(s, err) := init_timer_task created s in
  if err =? ESP_OK then
    if negb (impl_err =? ESP_OK) then (deinit_timer_task s, impl_err) else (s, impl_err)
  else (s, err).

Definition esp_timer_deinit (s : timers) : timers * esp_err_t :=
  if negb (is_initialized s) then (s, ESP_ERR_INVALID_STATE)
  else if negb (bool_decide (task_list s = [])) || negb (bool_decide (isr_list s = []))
  then (s, ESP_ERR_INVALID_STATE)
  else (deinit_timer_task s, ESP_OK).
