(* ===== verification/EspTimerInv.v ===== *)
(** * The timer service keeps its lists, control blocks and alarms consistent

    The invariant of [EspTimer.v] and that every operation keeps it, whatever
    calls interleave with the dispatching of callbacks. *)

From Stdlib Require Import Sorting.Sorted.
From S2P Require Import Prelude EspErr EspTimer.

(** ** Lists of handles *)

Lemma list_insert_perm h t l : list_insert h t l ≡ₚ (t :: l).
Proof.
  induction l as [|x l IH]; simpl; [done|]. case_match; [done|].
  rewrite IH. apply Permutation_swap.
Qed.

Lemma list_insert_elem h t l x : x ∈ list_insert h t l <-> x = t \/ x ∈ l.
Proof. rewrite (list_insert_perm h t l). apply elem_of_cons. Qed.

Lemma list_insert_sorted h t l :
  StronglySorted Z.le (h <$> l) -> StronglySorted Z.le (h <$> list_insert h t l).
Proof.
  induction l as [|x l IH]; simpl; intros H; [by repeat constructor|].
  apply StronglySorted_inv in H as [Hs Hx]. destruct (Z.ltb_spec (h t) (h x)); simpl.
  - constructor; [by constructor|]. constructor; [lia|]. eapply Forall_impl; [exact Hx|]. simpl. intros; lia.
  - constructor; [auto|]. rewrite Forall_fmap, Forall_forall. intros y [->|Hy]%list_insert_elem; simpl; [done|].
    rewrite Forall_fmap, Forall_forall in Hx. by apply Hx.
Qed.

Lemma list_insert_head h t l :
  head (list_insert h t l) = match l with x :: _ => if h t <? h x then Some t else Some x | [] => Some t end.
Proof. destruct l; simpl; [done|]. by case_match. Qed.

Lemma list_insert_ext h h' t l :
  (forall x, x ∈ t :: l -> h x = h' x) -> list_insert h t l = list_insert h' t l.
Proof.
  induction l as [|x l IH]; intros He; simpl; [done|].
  rewrite (He t), (He x), IH by set_solver. done.
Qed.

Lemma LIST_REMOVE_spec t l :
  t ∈ l -> NoDup l ->
  exists l', LIST_REMOVE t l = Some l' /\ (l ≡ₚ (t :: l')) /\ (t ∉ l') /\ sublist l' l /\
    (head l <> Some t -> head l' = head l).
Proof.
  induction l as [|x l IH]; intros Hin Hnd; [by apply elem_of_nil in Hin|].
  apply NoDup_cons in Hnd as [Hx Hnd]. simpl. destruct (Z.eqb_spec x t) as [->|Hne].
  - exists l. split_and!; try done. by constructor.
  - assert (t ∈ l) as Hl by set_solver. destruct (IH Hl Hnd) as (l' & -> & P & N & S & _).
    exists (x :: l'). split_and!; try done.
    + rewrite P. apply Permutation_swap.
    + set_solver.
    + by apply sublist_skip.
Qed.

Lemma sublist_sorted (l l' : list Z) : sublist l' l -> StronglySorted Z.le l -> StronglySorted Z.le l'.
Proof.
  induction 1; intros Hs; [constructor| |]; apply StronglySorted_inv in Hs as [Hs Hx]; auto.
  constructor; auto. rewrite Forall_forall in *. eauto using elem_of_sublist.
Qed.

Lemma sublist_fmap_Z (f : Z -> Z) (l l' : list Z) : sublist l' l -> sublist (f <$> l') (f <$> l).
Proof. induction 1; simpl; by constructor. Qed.

(** ** The invariant *)

Definition timer_ok (tm : esp_timer) : Prop :=
  0 <= alarm tm < 2 ^ 64 /\ 0 <= period tm < 2 ^ 56 /\ (0 < period tm -> 0 < alarm tm).

(** A timer belongs to the list of its dispatch method exactly when it is armed. *)
Definition listed (s : timers) (d : esp_timer_dispatch_t) (t : Z) : Prop :=
  exists tm, heap s !! t = Some tm /\ 0 < alarm tm /\ dispatch_of tm = d.

(** The invariant but for the membership of timer [t], which is in no list. *)
Record wf_but (u : option Z) (s : timers) : Prop := {
  wf_nodup : forall d, NoDup (s_timers d s);
  wf_sorted : forall d, StronglySorted Z.le (alarm_at s <$> s_timers d s);
  wf_out : forall d t, u = Some t -> t ∉ s_timers d s;
  wf_listed : forall d t, u <> Some t -> (t ∈ s_timers d s <-> listed s d t);
  wf_heap : forall t tm, heap s !! t = Some tm -> u <> Some t -> timer_ok tm
}.
Abbreviation wf := (wf_but None).

(** The alarm register of a dispatch method holds its list's first alarm. *)
Definition next_alarm_of (d : esp_timer_dispatch_t) (s : timers) : Z :=
  match s_timers d s with [] => UINT64_MAX | t :: _ => alarm_at s t end.
Definition hw_ok (d : esp_timer_dispatch_t) (s : timers) : Prop := timestamp_id d s = next_alarm_of d s.

(** ** Frames of the field updates *)

Lemma s_timers_set_list d d' l s :
  s_timers d (set_list d' l s) = if decide (d = d') then l else s_timers d s.
Proof. by destruct d, d', s. Qed.
Lemma s_timers_set_heap d h s : s_timers d (set_heap h s) = s_timers d s.
Proof. by destruct d, s. Qed.
Lemma s_timers_set_timestamp d d' v s : s_timers d (set_timestamp d' v s) = s_timers d s.
Proof. by destruct d, d', s. Qed.
Lemma s_timers_set_target d v s : s_timers d (set_target v s) = s_timers d s.
Proof. by destruct d, s. Qed.
Lemma s_timers_log d e s : s_timers d (log_event e s) = s_timers d s.
Proof. by destruct d, s. Qed.
Lemma heap_set_list d l s : heap (set_list d l s) = heap s.
Proof. by destruct d, s. Qed.
Lemma heap_set_heap h s : heap (set_heap h s) = h.
Proof. by destruct s. Qed.
Lemma heap_set_timestamp d v s : heap (set_timestamp d v s) = heap s.
Proof. by destruct d, s. Qed.
Lemma heap_set_target v s : heap (set_target v s) = heap s.
Proof. by destruct s. Qed.
Lemma heap_log e s : heap (log_event e s) = heap s.
Proof. by destruct s. Qed.
Lemma timestamp_set_list d d' l s : timestamp_id d (set_list d' l s) = timestamp_id d s.
Proof. by destruct d, d', s. Qed.
Lemma timestamp_set_heap d h s : timestamp_id d (set_heap h s) = timestamp_id d s.
Proof. by destruct d, s. Qed.
Lemma timestamp_set_timestamp d d' v s :
  timestamp_id d (set_timestamp d' v s) = if decide (d = d') then v else timestamp_id d s.
Proof. by destruct d, d', s. Qed.
Lemma timestamp_set_target d v s : timestamp_id d (set_target v s) = timestamp_id d s.
Proof. by destruct d, s. Qed.
Lemma timestamp_log d e s : timestamp_id d (log_event e s) = timestamp_id d s.
Proof. by destruct d, s. Qed.

Create Rewrite HintDb timers.
#[export] Hint Rewrite s_timers_set_list s_timers_set_heap s_timers_set_timestamp s_timers_set_target s_timers_log
  heap_set_list heap_set_heap heap_set_timestamp heap_set_target heap_log
  timestamp_set_list timestamp_set_heap timestamp_set_timestamp timestamp_set_target timestamp_log : timers.

Lemma alarm_at_heap s s' t : heap s' !! t = heap s !! t -> alarm_at s' t = alarm_at s t.
Proof. intros E. unfold alarm_at, deref. by rewrite E. Qed.

Lemma alarms_heap s s' (l : list Z) :
  (forall t, t ∈ l -> heap s' !! t = heap s !! t) -> alarm_at s' <$> l = alarm_at s <$> l.
Proof.
  intros E. apply list_fmap_ext. intros i x Hx. apply alarm_at_heap, E. by eapply list_elem_of_lookup_2.
Qed.

Lemma deref_alloc s t tm : heap s !! t = Some tm -> deref s t = tm.
Proof. intros E. unfold deref. by rewrite E. Qed.

(** ** Inserting and removing *)

Lemma timer_insert_fields t b s :
  let s' := fst (timer_insert t b s) in
  heap s' = heap s /\
  (forall d, s_timers d s' = if decide (d = dispatch_of (deref s t))
                             then list_insert (alarm_at s) t (s_timers d s) else s_timers d s) /\
  is_initialized s' = is_initialized s /\ events s' = events s.
Proof.
  unfold timer_insert. cbn [fst]. set (d0 := dispatch_of (deref s t)).
  split_and!; [|intros d| |].
  - case_match; unfold esp_timer_impl_set_alarm_id; by autorewrite with timers.
  - case_match; unfold esp_timer_impl_set_alarm_id; autorewrite with timers; by destruct (decide (d = d0)) as [->|].
  - case_match; unfold esp_timer_impl_set_alarm_id; by destruct d0, s.
  - case_match; unfold esp_timer_impl_set_alarm_id; by destruct d0, s.
Qed.

(** The alarm registers after an insertion: set when the timer is first. *)
Lemma timer_insert_timestamp t b s d :
  timestamp_id d (fst (timer_insert t b s)) =
    if negb b && bool_decide (d = dispatch_of (deref s t) /\
         head (list_insert (alarm_at s) t (s_timers d s)) = Some t)
    then alarm_at s t else timestamp_id d s.
Proof.
  unfold timer_insert. cbn [fst]. set (d0 := dispatch_of (deref s t)).
  rewrite s_timers_set_list, decide_True by done.
  destruct b; cbn [negb andb]; [by autorewrite with timers|].
  case_bool_decide as H1; unfold esp_timer_impl_set_alarm_id; autorewrite with timers.
  - case_decide as Hd; [subst d; rewrite bool_decide_eq_true_2 by done; by destruct d0, s|].
    rewrite bool_decide_eq_false_2 by tauto. done.
  - rewrite bool_decide_eq_false_2; [done|]. intros [-> H]. done.
Qed.

Lemma timer_insert_wf t b s tm :
  wf_but (Some t) s -> heap s !! t = Some tm -> timer_ok tm -> 0 < alarm tm -> wf (fst (timer_insert t b s)).
Proof.
  intros W Ht Hok Hpos. destruct (timer_insert_fields t b s) as (Hh & Hl & _).
  set (s' := fst _) in *. rewrite (deref_alloc _ _ _ Ht) in Hl. destruct W.
  assert (forall x, alarm_at s' x = alarm_at s x) as Ha by (intros; apply alarm_at_heap; by rewrite Hh).
  split.
  - intros d. rewrite Hl. case_decide; [|done]. rewrite (list_insert_perm (alarm_at s) t).
    apply NoDup_cons. auto.
  - intros d. rewrite (list_fmap_ext _ (alarm_at s)) by auto. rewrite Hl. case_decide; [|done].
    by apply list_insert_sorted.
  - done.
  - intros d x _. rewrite Hl. unfold listed. rewrite Hh. fold (listed s d x).
    destruct (decide (x = t)) as [->|Hx].
    + case_decide as Hd; [subst d; rewrite list_insert_elem|].
      * split; [intros _; by exists tm|auto].
      * split; [intros H; by destruct (wf_out0 d t eq_refl)|]. intros (tm' & E & _ & Hd'). congruence.
    + rewrite <- wf_listed0 by congruence. case_decide; [|done]. rewrite list_insert_elem. tauto.
  - intros x tm' E _. rewrite Hh in E. destruct (decide (x = t)) as [->|Hx]; [congruence|].
    eapply wf_heap0; eauto. congruence.
Qed.

Lemma timer_insert_hw t s d :
  hw_ok d s -> hw_ok d (fst (timer_insert t false s)).
Proof.
  unfold hw_ok, next_alarm_of. intros Hw. rewrite timer_insert_timestamp.
  destruct (timer_insert_fields t false s) as (Hh & Hl & _). rewrite Hl.
  assert (forall x, alarm_at (fst (timer_insert t false s)) x = alarm_at s x) as Ha
    by (intros; apply alarm_at_heap; by rewrite Hh).
  cbn [negb andb]. rewrite (list_insert_head (alarm_at s) t).
  case_decide as Hd.
  - destruct (s_timers d s) as [|x l]; simpl.
    + rewrite bool_decide_eq_true_2 by done. by rewrite Ha.
    + destruct (alarm_at s t <? alarm_at s x).
      * rewrite bool_decide_eq_true_2 by done. by rewrite Ha.
      * rewrite Ha. case_bool_decide as Hb; [|done]. destruct Hb as [_ [= ->]]. done.
  - rewrite bool_decide_eq_false_2 by tauto. destruct (s_timers d s); [done|]. by rewrite Ha.
Qed.

(** Removing an armed timer cannot fail; it leaves the timer in no list. *)
Lemma timer_remove_spec t s tm :
  wf s -> heap s !! t = Some tm -> 0 < alarm tm ->
  exists s' l', timer_remove t s = Some (s', ESP_OK) /\ wf_but (Some t) s' /\
    heap s' = <[t := with_period 0 (with_alarm 0 tm)]> (heap s) /\
    is_initialized s' = is_initialized s /\ events s' = events s /\
    LIST_REMOVE t (s_timers (dispatch_of tm) s) = Some l' /\
    (forall d, s_timers d s' = if decide (d = dispatch_of tm) then l' else s_timers d s) /\
    (forall d, hw_ok d s -> hw_ok d s').
Proof.
  intros W Ht Hpos. unfold timer_remove. rewrite (deref_alloc _ _ _ Ht). set (d0 := dispatch_of tm).
  destruct W. assert (t ∈ s_timers d0 s) as Hin by (apply wf_listed0; [done|by exists tm]).
  destruct (LIST_REMOVE_spec t (s_timers d0 s) Hin (wf_nodup0 d0)) as (l' & E & P & Hn & Hsub & Hhd). rewrite E.
  set (s1 := write_timer t _ (set_list d0 l' s)).
  assert (heap s1 = <[t := with_period 0 (with_alarm 0 tm)]> (heap s)) as Hh.
  { unfold s1, write_timer. autorewrite with timers. unfold deref. autorewrite with timers. by rewrite Ht. }
  assert (forall d, s_timers d s1 = if decide (d = d0) then l' else s_timers d s) as Hl.
  { intros d. unfold s1, write_timer. by autorewrite with timers. }
  assert (forall d, timestamp_id d s1 = timestamp_id d s) as Hts.
  { intros d. unfold s1, write_timer. by autorewrite with timers. }
  set (s2 := if bool_decide (head (s_timers d0 s) = Some t) then _ else s1).
  assert (heap s2 = heap s1 /\ (forall d, s_timers d s2 = s_timers d s1) /\ is_initialized s2 = is_initialized s
          /\ events s2 = events s) as (Hh2 & Hl2 & Hi2 & He2).
  { unfold s2. case_bool_decide; unfold esp_timer_impl_set_alarm_id; split_and!;
      try (intros; by autorewrite with timers); subst s1; unfold write_timer; destruct d0, s; done. }
  assert (forall d x, x ∈ s_timers d s1 -> x <> t) as Hnt.
  { intros d x. rewrite Hl. case_decide as Hd; [set_solver|]. intros Hx ->.
    apply (wf_listed0 d t ltac:(done)) in Hx as (tm' & E' & _ & Hd'). rewrite Ht in E'. injection E' as <-. by apply Hd. }
  assert (forall x, x <> t -> alarm_at s1 x = alarm_at s x) as Ha.
  { intros x Hx. apply alarm_at_heap. rewrite Hh. by rewrite lookup_insert_ne. }
  assert (forall x, alarm_at s2 x = alarm_at s1 x) as Ha2 by (intros; apply alarm_at_heap; by rewrite Hh2).
  exists s2, l'. split_and!; auto; [|by rewrite Hh2|by intros; rewrite Hl2|].
  - split.
    + intros d. rewrite Hl2, Hl. case_decide; [|done]. subst d.
      specialize (wf_nodup0 d0). rewrite P in wf_nodup0. by apply NoDup_cons in wf_nodup0 as [_ ?].
    + intros d. rewrite (list_fmap_ext _ (alarm_at s1)) by auto. rewrite Hl2.
      assert (alarm_at s1 <$> s_timers d s1 = alarm_at s <$> s_timers d s1) as ->.
      { apply list_fmap_ext. intros i x Hx. apply Ha, (Hnt d). by eapply list_elem_of_lookup_2. }
      rewrite Hl. case_decide; [|done]. subst d. eapply sublist_sorted; [|apply (wf_sorted0 d0)].
      by apply sublist_fmap_Z.
    + intros d x [= <-] Hx. rewrite Hl2 in Hx. by apply (Hnt d t).
    + intros d x Hx. rewrite Hl2. unfold listed. rewrite Hh2, Hh, lookup_insert_ne by congruence.
      fold (listed s d x). rewrite <- wf_listed0 by done. rewrite Hl. case_decide; [|done]. subst d.
      rewrite P. set_solver.
    + intros x tm' Hx Hne. rewrite Hh2, Hh, lookup_insert_ne in Hx by congruence. by eapply wf_heap0.
  - intros d Hw. unfold hw_ok, next_alarm_of in *. rewrite Hl2.
    assert (forall d, match s_timers d s1 with [] => UINT64_MAX | x :: _ => alarm_at s2 x end =
      match s_timers d s1 with [] => UINT64_MAX | x :: _ => alarm_at s1 x end) as ->
      by (intros d'; destruct (s_timers d' s1); auto).
    unfold s2. case_bool_decide as Hb.
    + unfold esp_timer_impl_set_alarm_id. autorewrite with timers. rewrite Hts. case_decide as Hd; [by subst d|].
      rewrite Hw, Hl, decide_False by done. destruct (s_timers d s) as [|x l] eqn:El; [done|].
      symmetry. apply Ha. apply (Hnt d). rewrite Hl, decide_False, El by done. left.
    + rewrite Hts, Hw, Hl. case_decide as Hd; [subst d; specialize (Hhd Hb)|].
      * destruct (s_timers d0 s) as [|x l] eqn:El, l' as [|x' l'']; simpl in Hhd; try done.
        injection Hhd as ->. symmetry. apply Ha. apply (Hnt d0). rewrite Hl, decide_True by done. left.
      * destruct (s_timers d s) as [|x l] eqn:El; [done|].
        symmetry. apply Ha. apply (Hnt d). rewrite Hl, decide_False, El by done. left.
Qed.

(** ** Writing a control block that is in no list *)

Lemma wf_unlisted t s tm : wf s -> heap s !! t = Some tm -> alarm tm = 0 -> forall d, t ∉ s_timers d s.
Proof. intros [] Ht Ha d Hin. apply wf_listed0 in Hin as (tm' & E & ? & _); [|done]. rewrite Ht in E. injection E as <-. lia. Qed.

Lemma heap_write t tm s : heap (write_timer t tm s) = <[t := tm]> (heap s).
Proof. unfold write_timer. by autorewrite with timers. Qed.
Lemma s_timers_write d t tm s : s_timers d (write_timer t tm s) = s_timers d s.
Proof. unfold write_timer. by autorewrite with timers. Qed.
Lemma timestamp_write d t tm s : timestamp_id d (write_timer t tm s) = timestamp_id d s.
Proof. unfold write_timer. by autorewrite with timers. Qed.
Lemma deref_write t tm s : deref (write_timer t tm s) t = tm.
Proof. apply deref_alloc. by rewrite heap_write, lookup_insert_eq. Qed.
Lemma alarm_at_write_ne t x tm s : x <> t -> alarm_at (write_timer t tm s) x = alarm_at s x.
Proof. intros. apply alarm_at_heap. by rewrite heap_write, lookup_insert_ne. Qed.
#[export] Hint Rewrite heap_write s_timers_write timestamp_write : timers.

Lemma alarms_write (t : Z) tm s d :
  t ∉ s_timers d s -> alarm_at (write_timer t tm s) <$> s_timers d s = alarm_at s <$> s_timers d s.
Proof.
  intros Hn. apply alarms_heap. intros x Hx. rewrite heap_write, lookup_insert_ne; [done|]. by intros ->.
Qed.

Lemma write_wf_but t tm s :
  (forall d, t ∉ s_timers d s) -> wf_but None s \/ wf_but (Some t) s -> wf_but (Some t) (write_timer t tm s).
Proof.
  intros Hn W.
  assert (forall d, NoDup (s_timers d s)) as H1 by (by destruct W as [[]|[]]).
  assert (forall d, StronglySorted Z.le (alarm_at s <$> s_timers d s)) as H2 by (by destruct W as [[]|[]]).
  assert (forall d x, x <> t -> (x ∈ s_timers d s <-> listed s d x)) as H3
    by (destruct W as [[]|[]]; intros d x Hx; auto; apply wf_listed0; congruence).
  assert (forall x tm, heap s !! x = Some tm -> x <> t -> timer_ok tm) as H4
    by (destruct W as [[]|[]]; intros x tm' E Hx; eapply wf_heap0; eauto; congruence).
  split.
  - intros d. by autorewrite with timers.
  - intros d. autorewrite with timers. by rewrite alarms_write.
  - intros d x [= <-]. by autorewrite with timers.
  - intros d x Hx. unfold listed. autorewrite with timers. rewrite lookup_insert_ne by congruence.
    apply H3. congruence.
  - intros x tm' E Hx. autorewrite with timers in E. rewrite lookup_insert_ne in E by congruence.
    eapply H4; eauto. congruence.
Qed.

(** A timer that is not armed may be in no list. *)
Lemma wf_but_unarmed t s tm : wf_but (Some t) s -> heap s !! t = Some tm -> timer_ok tm -> alarm tm = 0 -> wf s.
Proof.
  intros [] Ht Hok Ha. split; auto; [done| |].
  - intros d x _. destruct (decide (x = t)) as [->|Hx]; [|apply wf_listed0; congruence].
    split; [intros Hin; by destruct (wf_out0 d t eq_refl)|]. intros (tm' & E & ? & _). rewrite Ht in E. injection E as <-. lia.
  - intros x tm' E _. destruct (decide (x = t)) as [->|Hx]; [congruence|]. eapply wf_heap0; eauto. congruence.
Qed.

Lemma hw_write t tm s d : t ∉ s_timers d s -> hw_ok d s -> hw_ok d (write_timer t tm s).
Proof.
  unfold hw_ok, next_alarm_of. intros Hn Hw. autorewrite with timers. rewrite Hw.
  destruct (s_timers d s) as [|x l]; [done|]. rewrite alarm_at_write_ne; [done|]. set_solver.
Qed.

(** Arming a timer that is in no list. *)
Lemma arm_timer t tm s :
  (forall d, t ∉ s_timers d s) -> wf_but None s \/ wf_but (Some t) s -> timer_ok tm -> 0 < alarm tm ->
  let s' := fst (timer_insert t false (write_timer t tm s)) in
  wf s' /\ (forall d, hw_ok d s -> hw_ok d s') /\ events s' = events s.
Proof.
  intros Hn W Hok Hpos s'. split_and!.
  - eapply timer_insert_wf; eauto; [by apply write_wf_but|by rewrite heap_write, lookup_insert_eq].
  - intros d Hw. apply timer_insert_hw. by apply hw_write.
  - destruct (timer_insert_fields t false (write_timer t tm s)) as (_ & _ & _ & E). fold s' in E. rewrite E. by destruct s.
Qed.

(** ** The invariant of the public functions *)

Definition good_clock (now d : Z) : Prop := 0 < now < 2 ^ 63 /\ 0 <= d < 2 ^ 63.

(** The clock runs from 1 to 2^63 microseconds, and so do times from now. *)
Definition call_ok (c : api_call) : Prop :=
  match c with
  | CallCreate _ _ _ | CallStop _ => True
  | CallRestart _ d now | CallStartOnce _ d now | CallStartPeriodic _ d now => good_clock now d
  | CallDelete _ now => good_clock now 0
  end.

(** The handle a call is given is [NULL] or one that is allocated. *)
Definition call_valid (s : timers) (c : api_call) : Prop :=
  match c with
  | CallCreate _ _ _ => True
  | CallRestart t _ _ | CallStartOnce t _ _ | CallStartPeriodic t _ _ | CallStop t | CallDelete t _ =>
      t = 0 \/ is_Some (heap s !! t)
  end.

Definition keeps (s s' : timers) : Prop :=
  wf s' /\ (forall d, hw_ok d s -> hw_ok d s') /\ events s' = events s.

Lemma keeps_refl s : wf s -> keeps s s.
Proof. by split. Qed.

Lemma not_armed s t tm : wf s -> heap s !! t = Some tm -> timer_armed s t = false -> alarm tm = 0.
Proof.
  intros [] Ht. unfold timer_armed. rewrite (deref_alloc _ _ _ Ht). intros H.
  destruct (wf_heap0 _ _ Ht ltac:(done)) as [? _]. lia.
Qed.

(** Starting a timer that is not armed, as the start functions do. *)
Lemma start_timer s t tm p a :
  wf s -> heap s !! t = Some tm -> timer_armed s t = false -> 0 < a < 2 ^ 64 ->
  keeps s (fst (timer_insert t false (write_timer t (with_period p (with_alarm a tm)) s))).
Proof.
  intros W Ht Hna Ha. pose proof (not_armed _ _ _ W Ht Hna) as H0.
  apply arm_timer; [by eapply wf_unlisted|by left| |simpl; lia]. split; [simpl; lia|].
  split; [apply (uN_range 56); lia|]. simpl. lia.
Qed.

Section Calls.
  Context (heap_caps_calloc : nat -> gmap Z esp_timer -> option Z).
  (** The heap component hands out only addresses that are not in use. *)
  Context (calloc_fresh : forall n h t, heap_caps_calloc n h = Some t -> t <> 0 /\ h !! t = None).

Lemma create_ok args out n s :
    wf s -> let '(s', _, _) := esp_timer_create args out (heap_caps_calloc n (heap s)) s in keeps s s'.
  Proof using calloc_fresh.
    intros W. unfold esp_timer_create. destruct (negb (is_initialized s)); [by apply keeps_refl|].
    destruct args as [[cb a dm sk]|]; [|by apply keeps_refl].
    destruct (_ || _); [by apply keeps_refl|].
    destruct (heap_caps_calloc n (heap s)) as [t|] eqn:Ec; [|by apply keeps_refl].
    apply calloc_fresh in Ec as [_ Hf]. simpl.
    assert (forall d, t ∉ s_timers d s) as Hn.
    { intros d Hin. destruct W. apply wf_listed0 in Hin as (tm & E & _); [|done]. by rewrite Hf in E. }
    split_and!; [|intros d; by apply hw_write|by destruct s]. eapply wf_but_unarmed; [by apply write_wf_but; [|left]|..].
    - by rewrite heap_write, lookup_insert_eq.
    - split; simpl; lia.
    - done.
  Qed.

  (** Every call with a valid handle is carried out and keeps the invariant. *)
Lemma run_call_ok s c :
    wf s -> call_ok c -> call_valid s c ->
    exists s' e, run_call heap_caps_calloc c s = Some (s', e) /\ keeps s s'.
  Proof using calloc_fresh.
    intros W Hok Hv. destruct c as [args out n|t d now|t d now|t p now|t|t now]; simpl in *.
    1: { pose proof (create_ok args out n s W) as H. destruct (esp_timer_create _ _ _ _) as [[s' e] h]. eauto. }
    all: unfold esp_timer_restart, restart_locked, esp_timer_start_once, esp_timer_start_periodic, esp_timer_stop, esp_timer_delete.
    all: destruct (Z.eqb_spec t 0); [eexists _, _; split; [reflexivity|by apply keeps_refl]|].
    all: try (destruct (negb (is_initialized s)); [eexists _, _; split; [reflexivity|by apply keeps_refl]|]).
    all: destruct Hv as [|[tm Ht]]; [done|].
    all: unfold allocated; rewrite bool_decide_eq_true_2 by eauto; rewrite ?(deref_alloc _ _ _ Ht).
    all: destruct (timer_armed s t) eqn:Ea; cbn [negb]; try (eexists _, _; split; [reflexivity|by apply keeps_refl]).
    all: try (assert (0 < alarm tm) as Hpos
      by (unfold timer_armed in Ea; rewrite (deref_alloc _ _ _ Ht) in Ea; lia)).
    all: unfold good_clock, esp_timer_impl_get_min_period_us in *.
    - destruct (timer_remove_spec _ _ _ W Ht Hpos) as (s1 & l' & E & W1 & Hh1 & _ & He1 & _ & _ & Hw1). rewrite E.
      assert (deref s1 t = with_period 0 (with_alarm 0 tm)) as Hd1
        by (apply deref_alloc; by rewrite Hh1, lookup_insert_eq).
      eexists (fst _), (snd _). split; [f_equal; apply surjective_pairing|].
      set (s2 := if negb _ then _ else _).
      assert (exists a p, 0 < a < 2 ^ 64 /\ s2 = write_timer t (with_period p (with_alarm a (deref s1 t))) s1)
        as (a & p & Hpa & ->).
      { unfold s2. destruct (negb _); eexists _, _; (split; [|reflexivity]); rewrite u64_id by lia; lia. }
      assert (forall d, t ∉ s_timers d s1) as Hn by (intros d'; by apply (wf_out _ _ W1)).
      destruct (arm_timer t (with_period p (with_alarm a (deref s1 t))) s1 Hn (or_intror W1)) as [W2 Hw2].
      + split; [simpl; lia|]. split; [apply (uN_range 56); lia|]. simpl. lia.
      + simpl. lia.
      + destruct Hw2 as [Hw2 He2]. split_and!; [done|auto|congruence].
    - eexists (fst _), (snd _). split; [f_equal; apply surjective_pairing|]. apply start_timer; auto. rewrite u64_id; lia.
    - eexists (fst _), (snd _). split; [f_equal; apply surjective_pairing|]. apply start_timer; auto. rewrite u64_id; lia.
    - destruct (timer_remove_spec _ _ _ W Ht Hpos) as (s1 & l' & E & W1 & Hh1 & _ & He1 & _ & _ & Hw1). rewrite E.
      eexists _, _. split; [reflexivity|]. split_and!; [|done|done].
      eapply wf_but_unarmed; [exact W1|by rewrite Hh1, lookup_insert_eq| |done].
      split; [simpl; lia|]. split; [apply (uN_range 56); lia|]. done.
    - eexists (fst _), (snd _). split; [f_equal; apply surjective_pairing|].
      apply arm_timer; [eapply wf_unlisted; eauto; by eapply not_armed|by left| |].
      + split; simpl; [rewrite u64_id; lia|lia].
      + simpl. rewrite u64_id; lia.
  Qed.

  (** A call that goes wrong was given a handle that is not allocated. *)
Lemma run_call_keeps s c s' e :
    wf s -> call_ok c -> run_call heap_caps_calloc c s = Some (s', e) -> keeps s s'.
  Proof using calloc_fresh.
    intros W Hok E. assert (call_valid s c \/ ~ call_valid s c) as [Hv|Hv].
    { destruct c as [|t ? ?|t ? ?|t ? ?|t|t ?]; simpl; [by left|..];
        (destruct (decide (t = 0)); [by left; left|]); destruct (heap s !! t) eqn:Et;
        [left; right; eauto|right; intros [|[? ?]]; congruence|left; right; eauto|right; intros [|[? ?]]; congruence
        |left; right; eauto|right; intros [|[? ?]]; congruence|left; right; eauto|right; intros [|[? ?]]; congruence
        |left; right; eauto|right; intros [|[? ?]]; congruence]. }
    - destruct (run_call_ok s c W Hok Hv) as (s1 & e1 & E1 & K). rewrite E1 in E. by injection E as <- <-.
    - destruct c as [|t ? ?|t ? ?|t ? ?|t|t ?]; simpl in Hv; [by destruct Hv|..]; simpl in E;
        unfold esp_timer_restart, restart_locked, esp_timer_start_once, esp_timer_start_periodic, esp_timer_stop, esp_timer_delete in E;
        unfold allocated in E; rewrite (bool_decide_eq_false_2 (is_Some _)) in E by tauto;
        destruct (Z.eqb_spec t 0); try tauto; try (destruct (negb (is_initialized s)));
        try done; injection E as <- <-; by apply keeps_refl.
  Qed.

Lemma run_calls_keeps cs : forall s s',
    wf s -> Forall call_ok cs -> run_calls heap_caps_calloc cs s = Some s' -> keeps s s'.
  Proof using calloc_fresh.
    induction cs as [|c cs IH]; intros s s' W Hok; simpl.
    - intros [= <-]. by apply keeps_refl.
    - apply Forall_cons in Hok as [Hc Hcs]. destruct (run_call heap_caps_calloc c s) as [[s1 e]|] eqn:E; [|done].
      intros E'. destruct (run_call_keeps _ _ _ _ W Hc E) as (W1 & H1 & He1).
      destruct (IH _ _ W1 Hcs E') as (W2 & H2 & He2). split_and!; auto. congruence.
  Qed.

  (** ** Dispatching *)

Definition round_ok (r : round) : Prop := 0 < clock r < 2 ^ 63 /\ Forall call_ok (meanwhile_calls r).

  (** No callback before its time. *)
Definition event_ok (d : esp_timer_dispatch_t) (now : Z) (ev : timer_event) : Prop :=
    match ev with Fired d' _ _ _ due now' => d' = d /\ now' = now /\ 0 < due <= now | Freed _ => True end.

Lemma next_expiry_ok now tm :
    timer_ok tm -> 0 < alarm tm <= now -> now < 2 ^ 63 ->
    timer_ok (next_expiry now tm) /\ (period tm >? 0) = (0 <? alarm (next_expiry now tm)) /\
    dispatch_of (next_expiry now tm) = dispatch_of tm.
  Proof using Type.
    intros (H1 & H2 & H3) Ha Hn. unfold next_expiry. destruct (Z.gtb_spec (period tm) 0).
    - destruct (_ && _); (split_and!; [split; simpl|simpl|done]); rewrite ?u64_id by lia; try lia.
    - split_and!; [split; simpl; lia|simpl; lia|done].
  Qed.

  (** Unlinking the first timer of a list. *)
Lemma wf_unlink d it l s tm :
    wf s -> s_timers d s = it :: l -> heap s !! it = Some tm ->
    wf_but (Some it) (set_list d l s) /\ dispatch_of tm = d /\ 0 < alarm tm /\ timer_ok tm.
  Proof using Type.
    intros W El Ht. destruct W. assert (it ∈ s_timers d s) as Hin by (rewrite El; left).
    apply wf_listed0 in Hin as (tm' & E & Hpos & Hd); [|done]. rewrite Ht in E. injection E as <-.
    split; [|by eauto 10]. pose proof (wf_nodup0 d) as Hnd. rewrite El in Hnd.
    apply NoDup_cons in Hnd as [Hnin Hnd].
    assert (forall x, alarm_at (set_list d l s) x = alarm_at s x) as Ha
      by (intros; apply alarm_at_heap; by autorewrite with timers).
    split.
    - intros d'. autorewrite with timers. by case_decide.
    - intros d'. rewrite (list_fmap_ext _ (alarm_at s)) by auto. autorewrite with timers.
      case_decide; [subst d'|done]. specialize (wf_sorted0 d). rewrite El in wf_sorted0.
      by apply StronglySorted_inv in wf_sorted0 as [? _].
    - intros d' t [= <-]. autorewrite with timers. case_decide as Hd'; [done|]. intros Hin.
      apply wf_listed0 in Hin as (tm' & E & _ & Hd2); [|done]. rewrite Ht in E. injection E as <-. congruence.
    - intros d' x Hx. unfold listed. autorewrite with timers. fold (listed s d' x). rewrite <- wf_listed0 by done.
      case_decide; [subst d'|done]. rewrite El, elem_of_cons. split; [auto|]. intros [->|]; [by destruct Hx|done].
    - intros x tm' E _. autorewrite with timers in E. by eapply wf_heap0.
  Qed.

Lemma hw_frame d s s' :
    s_timers d s' = s_timers d s -> timestamp_id d s' = timestamp_id d s ->
    (forall x, x ∈ s_timers d s -> alarm_at s' x = alarm_at s x) -> hw_ok d s -> hw_ok d s'.
  Proof using Type.
    unfold hw_ok, next_alarm_of. intros -> -> Ha ->. destruct (s_timers d s) as [|x l]; [done|].
    rewrite Ha; [done|left].
  Qed.

Lemma process_timer_ok d it l now calls s :
    wf s -> s_timers d s = it :: l -> alarm_at s it <= now -> round_ok (Round now calls) ->
    let keeps' s' := wf s' /\ (forall d', d' <> d -> hw_ok d' s -> hw_ok d' s') /\
      exists ev, event_ok d now ev /\ events s' = events s ++ [ev] in
    exists s1, keeps' s1 /\
      (process_timer heap_caps_calloc d it now calls s = run_calls heap_caps_calloc calls s1 \/
       process_timer heap_caps_calloc d it now calls s = Some s1).
  Proof using calloc_fresh.
    intros W El Hdue [Hnow Hcalls] keeps'. simpl in Hnow, Hcalls.
    assert (exists tm, heap s !! it = Some tm) as [tm Ht].
    { destruct W. destruct (proj1 (wf_listed0 d it ltac:(done))) as (tm & E & _); [rewrite El; left|eauto]. }
    destruct (wf_unlink d it l s tm W El Ht) as (W1 & Hd & Hpos & Hok).
    unfold process_timer. rewrite El. cbn [LIST_REMOVE]. rewrite Z.eqb_refl.
    set (s1 := set_list d l s) in *.
    assert (heap s1 !! it = Some tm) as Ht1 by (subst s1; by autorewrite with timers).
    rewrite (deref_alloc _ _ _ Ht1).
    assert (forall d', d' <> d -> hw_ok d' s -> hw_ok d' s1) as Hw1.
    { intros d' Hd'. apply hw_frame; subst s1; autorewrite with timers; [by rewrite decide_False| |]; [done|].
      intros x _. apply alarm_at_heap. by autorewrite with timers. }
    assert (forall d', it ∉ s_timers d' s1) as Hn1 by (intros d'; by apply (wf_out _ _ W1)).
    assert (alarm tm <= now) as Hdue' by (unfold alarm_at in Hdue; by rewrite (deref_alloc _ _ _ Ht) in Hdue).
    destruct (u32 (callback tm) =? EVENT_ID_DELETE_TIMER).
    - eexists. split; [|by right]. split_and!.
      + destruct W1. split.
        * intros d'. by autorewrite with timers.
        * intros d'. autorewrite with timers. rewrite alarms_heap with (s := s1); [done|].
          intros x Hx. autorewrite with timers. rewrite lookup_delete_ne; [done|]. intros ->. by apply (Hn1 d').
        * done.
        * intros d' x _. unfold listed. autorewrite with timers. destruct (decide (x = it)) as [->|Hx].
          -- rewrite lookup_delete_eq. split; [by intros ?%Hn1|by intros (? & ? & _)].
          -- rewrite lookup_delete_ne by done. apply wf_listed0. congruence.
        * intros x tm' E _. autorewrite with timers in E. apply lookup_delete_Some in E as [Hx E].
          eapply wf_heap0; eauto. congruence.
      + intros d' Hd' Hw. eapply hw_frame; [..|apply (Hw1 d' Hd' Hw)]; autorewrite with timers; try done.
        intros x Hx. apply alarm_at_heap. autorewrite with timers. rewrite lookup_delete_ne; [done|].
        intros ->. by apply (Hn1 d').
      + exists (Freed it). split; [done|]. by destruct d, s.
    - destruct (next_expiry_ok now tm Hok ltac:(lia) ltac:(lia)) as (Hok' & Hper & Hdisp). rewrite Hper.
      set (tm' := next_expiry now tm) in *. set (s2 := write_timer it tm' s1).
      set (s3 := if 0 <? alarm tm' then fst (timer_insert it true s2) else s2).
      eexists. split; [|by left].
      assert (wf_but (Some it) s2) as W2 by (apply write_wf_but; auto).
      assert (heap s2 !! it = Some tm') as Ht2 by (unfold s2; by rewrite heap_write, lookup_insert_eq).
      assert (wf s3 /\ events s3 = events s /\ heap s3 = heap s2 /\ forall d', d' <> d ->
        s_timers d' s3 = s_timers d' s2 /\ timestamp_id d' s3 = timestamp_id d' s2) as (W3 & He3 & Hh3 & Hf3).
      { unfold s3. destruct (Z.ltb_spec 0 (alarm tm')).
        - destruct (timer_insert_fields it true s2) as (Eh & El' & _ & Ee).
          split_and!; [by eapply timer_insert_wf|rewrite Ee; by destruct d, s|done|].
          intros d' Hd'. rewrite El', timer_insert_timestamp, (deref_alloc _ _ _ Ht2), Hdisp, Hd, decide_False by done.
          by split.
        - split_and!; [|by destruct d, s|done|done]. eapply wf_but_unarmed; eauto. destruct Hok' as [? _]. lia. }
      split_and!.
      + destruct W3. split; intros *; autorewrite with timers; auto.
        * rewrite alarms_heap with (s := s3); [auto|]. intros. by autorewrite with timers.
        * intros Hx. rewrite wf_listed0 by done. unfold listed. by autorewrite with timers.
        * apply wf_heap0.
      + intros d' Hd' Hw. destruct (Hf3 d' Hd') as [El3 Et3].
        assert (hw_ok d' s2) as Hw2 by (apply hw_write; auto).
        eapply hw_frame; [..|exact Hw2]; autorewrite with timers; auto.
        intros x Hx. apply alarm_at_heap. autorewrite with timers. by rewrite Hh3.
      + exists (Fired d it (callback tm) (arg tm) (alarm tm) now). split; [by split_and!|].
        rewrite <- He3. by destruct s3.
  Qed.
End Calls.
