(* ===== verification/EspTimerProps.v ===== *)
(** * What the timer service guarantees

    Consistency over whole runs, dispatching that is never early and leaves
    nothing due, termination of the dispatching loop, and the functional
    behaviour of the public functions. *)

From Stdlib Require Import Sorting.Sorted.
From S2P Require Import Prelude EspErr EspTimer EspTimerInv.

Section System.
  Context (heap_caps_calloc : nat -> gmap Z esp_timer -> option Z).
  Context (calloc_fresh : forall n h t, heap_caps_calloc n h = Some t -> t <> 0 /\ h !! t = None).

  (** What the rest of the system does with the timer service. *)
Inductive timer_action :=
    | ActInit (created : bool) (impl_err : esp_err_t)
    | ActDeinit
    | ActCall (c : api_call)
    | ActDispatch (d : esp_timer_dispatch_t) (rounds : list round)
    | ActInterrupt (rounds : list round).

Definition action_ok (a : timer_action) : Prop :=
    match a with
    | ActInit _ _ | ActDeinit => True
    | ActCall c => call_ok c
    | ActDispatch _ rounds | ActInterrupt rounds => Forall round_ok rounds
    end.

Definition act (a : timer_action) (s : timers) : option timers :=
    match a with
    | ActInit created impl_err => Some (fst (esp_timer_init created impl_err s))
    | ActDeinit => Some (fst (esp_timer_deinit s))
    | ActCall c => let? (s, _) := run_call heap_caps_calloc c s in Some s
    | ActDispatch d rounds => let? (s, _) := timer_process_alarm heap_caps_calloc d rounds s in Some s
    | ActInterrupt rounds => let? (s, _) := timer_alarm_handler heap_caps_calloc rounds s in Some s
    end.

Fixpoint act_all (l : list timer_action) (s : timers) : option timers :=
    match l with
    | [] => Some s
    | a :: l => let? s := act a s in act_all l s
    end.

Definition exit_ok (d : esp_timer_dispatch_t) (rounds : list round) (s s' : timers) (p : progress) : Prop :=
    match p with
    | Running => True
    | Left it processed =>
        head (s_timers d s') = it /\
        (exists r, r ∈ rounds /\ forall t, t ∈ s_timers d s' -> clock r < alarm_at s' t) /\
        (processed = false -> s' = s)
    end.

Definition events_ok (d : esp_timer_dispatch_t) (rounds : list round) (s s' : timers) : Prop :=
    exists evs, events s' = events s ++ evs /\
      Forall (fun ev => exists r, r ∈ rounds /\ event_ok d (clock r) ev) evs.

Lemma sorted_later s d it l now :
    wf s -> s_timers d s = it :: l -> now < alarm_at s it ->
    forall t, t ∈ s_timers d s -> now < alarm_at s t.
  Proof using Type.
    intros W El Hlt t Hin. destruct W. specialize (wf_sorted d). rewrite El in *.
    rewrite fmap_cons in wf_sorted. apply StronglySorted_inv in wf_sorted as [_ Hs]. apply elem_of_cons in Hin as [->|Hin]; [done|].
    rewrite Forall_fmap, Forall_forall in Hs. specialize (Hs t Hin). simpl in Hs. lia.
  Qed.

Lemma process_loop_ok d rounds : forall p s s' prog,
    wf s -> Forall round_ok rounds ->
    process_loop heap_caps_calloc d rounds p s = Some (s', prog) ->
    wf s' /\ (forall d', d' <> d -> hw_ok d' s -> hw_ok d' s') /\ events_ok d rounds s s' /\
    (p = false -> exit_ok d rounds s s' prog) /\ (p = true -> match prog with
      Left it p' => p' = true /\ exit_ok d rounds s s' (Left it true) | Running => True end).
  Proof using calloc_fresh.
    induction rounds as [|[now calls] rounds IH]; intros p s s' prog W Hok; cbn [process_loop].
    { intros [= <- <-]. split_and!; try done. exists []. by rewrite app_nil_r. }
    apply Forall_cons in Hok as [Hr Hrs]. pose proof Hr as [Hnow _]. simpl in Hnow.
    assert (events_ok d (Round now calls :: rounds) s s) as Ev0 by (exists []; by rewrite app_nil_r).
    destruct (s_timers d s) as [|it l] eqn:El.
    { intros [= <- <-]. split_and!; try done.
      - intros ->. simpl. rewrite El. split_and!; [done| |done]. exists (Round now calls).
        split; [left|]. by intros t ?%elem_of_nil.
      - intros ->. simpl. rewrite El. split_and!; [done|done| |done]. exists (Round now calls).
        split; [left|]. by intros t ?%elem_of_nil. }
    rewrite u64_id by lia. destruct (Z.gtb_spec (alarm_at s it) now) as [Hlt|Hle].
    { intros [= <- <-]. pose proof (sorted_later _ _ _ _ _ W El Hlt) as Hall. split_and!; try done.
      - intros ->. simpl. split_and!; [by rewrite El| |done]. exists (Round now calls). split; [left|done].
      - intros ->. simpl. split_and!; [done|by rewrite El| |done]. exists (Round now calls). split; [left|done]. }
    destruct (process_timer_ok heap_caps_calloc calloc_fresh d it l now calls s W El Hle Hr)
      as (s1 & (W1 & H1 & ev & Hev & Ee) & Hp).
    destruct (process_timer heap_caps_calloc d it now calls s) as [s2|] eqn:E2; [|done].
    assert (keeps s1 s2) as (W2 & H2 & Ee2).
    { destruct Hp as [Hp|[= <-]]; [|by apply keeps_refl].
      destruct Hr as [_ Hc]. by eapply run_calls_keeps. }
    intros E. destruct (IH true s2 s' prog W2 Hrs E) as (W' & H' & (evs & Ee' & Hevs) & _ & Hx).
    split_and!; [done|auto| | |].
    - exists (ev :: evs). rewrite Ee', Ee2, Ee, <- app_assoc. split; [done|]. constructor.
      + exists (Round now calls). split; [left|done].
      + eapply Forall_impl; [exact Hevs|]. intros ev' (r & Hr' & ?). exists r. split; [by right|done].
    - intros _. destruct prog as [it' p'|]; [|done]. destruct (Hx eq_refl) as (-> & Hh & (r & Hr' & Hall) & _).
      split_and!; [done| |done]. exists r. split; [by right|done].
    - intros _. destruct prog as [it' p'|]; [|done]. destruct (Hx eq_refl) as (-> & Hh & (r & Hr' & Hall) & _).
      split; [done|]. split_and!; [done| |done]. exists r. split; [by right|done].
  Qed.
End System.

(** Setting an alarm register touches nothing else. *)
Lemma set_alarm_wf v d s : wf s -> wf (esp_timer_impl_set_alarm_id v d s).
Proof.
  intros []. assert (forall x, alarm_at (esp_timer_impl_set_alarm_id v d s) x = alarm_at s x) as Ha.
  { intros. apply alarm_at_heap. unfold esp_timer_impl_set_alarm_id. by autorewrite with timers. }
  split; intros *; try rewrite (list_fmap_ext _ (alarm_at s)) by auto; unfold listed, esp_timer_impl_set_alarm_id;
    autorewrite with timers; auto.
  apply wf_heap.
Qed.

Lemma set_timestamp_wf v d s : wf s -> wf (set_timestamp d v s).
Proof.
  intros []. assert (forall x, alarm_at (set_timestamp d v s) x = alarm_at s x) as Ha.
  { intros. apply alarm_at_heap. by autorewrite with timers. }
  split; intros *; try rewrite (list_fmap_ext _ (alarm_at s)) by auto; unfold listed; autorewrite with timers; auto.
  apply wf_heap.
Qed.

Lemma set_task_wf b s : wf s -> wf (set_task b s).
Proof. destruct s. intros []. by split. Qed.

Lemma set_alarm_frame d rounds s s1 v :
  wf s1 -> (forall d', d' <> d -> hw_ok d' s -> hw_ok d' s1) -> events_ok d rounds s s1 ->
  (exists r, r ∈ rounds /\ forall t, t ∈ s_timers d s1 -> clock r < alarm_at s1 t) ->
  let s' := esp_timer_impl_set_alarm_id v d s1 in
  wf s' /\ events_ok d rounds s s' /\
  (exists r, r ∈ rounds /\ forall t, t ∈ s_timers d s' -> clock r < alarm_at s' t) /\
  (v = next_alarm_of d s1 -> (forall d', hw_ok d' s) -> forall d', hw_ok d' s').
Proof.
  intros W H1 (evs & Ee & Hevs) (r & Hr & Hall) s'.
  assert (forall x, alarm_at s' x = alarm_at s1 x) as Ha.
  { intros. apply alarm_at_heap. unfold s', esp_timer_impl_set_alarm_id. by autorewrite with timers. }
  assert (forall d', s_timers d' s' = s_timers d' s1) as Hl
    by (intros; unfold s', esp_timer_impl_set_alarm_id; by autorewrite with timers).
  split_and!.
  - by apply set_alarm_wf.
  - exists evs. split; [|done]. rewrite <- Ee. unfold s', esp_timer_impl_set_alarm_id. by destruct d, s1.
  - exists r. split; [done|]. intros t. rewrite Hl, Ha. auto.
  - intros -> Hw d'. unfold hw_ok, next_alarm_of. rewrite Hl.
    assert (timestamp_id d' s' = if decide (d' = d) then next_alarm_of d s1 else timestamp_id d' s1) as ->
      by (unfold s', esp_timer_impl_set_alarm_id; by autorewrite with timers).
    clearbody s'. case_decide as Hd.
    + subst d'. unfold next_alarm_of. destruct (s_timers d s1); auto.
    + rewrite (H1 d' Hd (Hw d')). unfold next_alarm_of. destruct (s_timers d' s1); auto.
Qed.

Lemma process_wf heap_caps_calloc d rounds s s' res :
  (forall n h t, heap_caps_calloc n h = Some t -> t <> 0 /\ h !! t = None) ->
  wf s -> Forall round_ok rounds -> timer_process_alarm heap_caps_calloc d rounds s = Some (s', res) -> wf s'.
Proof.
  intros Hf W Hok. unfold timer_process_alarm.
  destruct (process_loop heap_caps_calloc d rounds false s) as [[s1 p]|] eqn:E; [|done].
  destruct (process_loop_ok heap_caps_calloc Hf d rounds false s s1 p W Hok E) as (W1 & _).
  destruct p as [[it|] processed|]; intros [= <- <-]; [| |done]; repeat case_match; auto using set_alarm_wf.
Qed.

Lemma act_wf heap_caps_calloc a s s' :
  (forall n h t, heap_caps_calloc n h = Some t -> t <> 0 /\ h !! t = None) ->
  wf s -> action_ok a -> act heap_caps_calloc a s = Some s' -> wf s'.
Proof.
  intros Hf W Hok. destruct a as [created err| |c|d rounds|rounds]; simpl.
  - intros [= <-]. unfold esp_timer_init, init_timer_task, deinit_timer_task.
    destruct (is_initialized s), created; simpl; repeat case_match; simpl; auto using set_task_wf.
  - intros [= <-]. unfold esp_timer_deinit, deinit_timer_task. repeat case_match; simpl; auto using set_task_wf.
  - destruct (run_call _ c s) as [[s1 e]|] eqn:E; [|done]. intros [= <-].
    by destruct (run_call_keeps heap_caps_calloc Hf _ _ _ _ W Hok E).
  - destruct (timer_process_alarm _ _ _ _) as [[s1 e]|] eqn:E; [|done]. intros [= <-]. by eapply process_wf.
  - unfold timer_alarm_handler. destruct (timer_process_alarm _ _ _ _) as [[s1 e]|] eqn:E; [|done]. intros [= <-].
    eapply process_wf; [exact Hf| |exact Hok|exact E].
    unfold esp_timer_impl_try_to_set_next_alarm. repeat case_match; auto using set_alarm_wf, set_timestamp_wf.
Qed.

Lemma initial_wf : wf initial_timers.
Proof.
  split; try done; [intros []; constructor|intros []; constructor|].
  intros [] t _; (split; [by intros ?%elem_of_nil|]); intros (tm & Ht & _);
    change ((∅ : gmap Z esp_timer) !! t = Some tm) in Ht; by rewrite lookup_empty in Ht.
Qed.

Lemma act_all_wf heap_caps_calloc l : forall s s',
  (forall n h t, heap_caps_calloc n h = Some t -> t <> 0 /\ h !! t = None) ->
  Forall action_ok l -> wf s -> act_all heap_caps_calloc l s = Some s' -> wf s'.
Proof.
  induction l as [|a l IH]; intros s s' Hf Hok W; simpl; [by intros [= <-]|].
  apply Forall_cons in Hok as [Ha Hl]. destruct (act heap_caps_calloc a s) as [s1|] eqn:E1; [|done].
  apply IH; auto. by eapply act_wf.
Qed.

(** A small heap for the examples. *)
Definition demo_calloc (n : nat) (h : gmap Z esp_timer) : option Z :=
  if decide (h !! (4096 + 64 * Z.of_nat n) = None) then Some (4096 + 64 * Z.of_nat n) else None.

Lemma demo_calloc_fresh n h t : demo_calloc n h = Some t -> t <> 0 /\ h !! t = None.
Proof. unfold demo_calloc. case_decide; [|done]. intros [= <-]. split; [lia|done]. Qed.

(** A periodic timer, a one-shot timer and an ISR timer, started. *)
Definition demo_actions : list timer_action :=
  [ActInit true ESP_OK;
   ActCall (CallCreate (Some (MkArgs 7 9 0 false)) true 0);
   ActCall (CallCreate (Some (MkArgs 8 5 0 false)) true 1);
   ActCall (CallCreate (Some (MkArgs 11 6 1 true)) true 2);
   ActCall (CallStartPeriodic 4096 1000 5);
   ActCall (CallStartOnce 4160 500 10);
   ActCall (CallStartPeriodic 4224 100 20)].

Definition demo_state : timers := default initial_timers (act_all demo_calloc demo_actions initial_timers).

Lemma demo_state_wf : wf demo_state.
Proof.
  eapply (act_all_wf demo_calloc demo_actions); [exact demo_calloc_fresh| |exact initial_wf|vm_compute; reflexivity].
  repeat constructor; simpl; lia.
Qed.

(** C14. The timer service stays consistent: from start-up, whatever calls,
    interrupts, callbacks and task switches happen, each dispatch list is
    sorted by alarm and holds exactly the armed timers of its method, once. *)
Theorem timers_consistent heap_caps_calloc l s :
  (forall n h t, heap_caps_calloc n h = Some t -> t <> 0 /\ h !! t = None) ->
  Forall action_ok l -> act_all heap_caps_calloc l initial_timers = Some s ->
  forall d, NoDup (s_timers d s) /\ StronglySorted Z.le (alarm_at s <$> s_timers d s) /\
    forall t, t ∈ s_timers d s <-> exists tm, heap s !! t = Some tm /\ 0 < alarm tm /\ dispatch_of tm = d.
Proof.
  intros Hf Hok E. enough (wf s) as [] by (intros d; split_and!; auto).
  by eapply act_all_wf; [exact Hf|exact Hok|exact initial_wf|].
Qed.

Lemma timers_consistent_witness :
  exists s, act_all demo_calloc (demo_actions ++ [ActDispatch ESP_TIMER_TASK [Round 2000 [CallStop 4096]; Round 2010 []]])
              initial_timers = Some s /\
  forall d, NoDup (s_timers d s) /\ StronglySorted Z.le (alarm_at s <$> s_timers d s) /\
    forall t, t ∈ s_timers d s <-> exists tm, heap s !! t = Some tm /\ 0 < alarm tm /\ dispatch_of tm = d.
Proof.
  eexists. split; [vm_compute; reflexivity|].
  eapply (timers_consistent demo_calloc
    (demo_actions ++ [ActDispatch ESP_TIMER_TASK [Round 2000 [CallStop 4096]; Round 2010 []]]));
    [exact demo_calloc_fresh|repeat constructor; simpl; lia|vm_compute; reflexivity].
Defined.

(** C4. Dispatching is exact: [timer_process_alarm] never runs a callback before
    its alarm; when it returns, no timer of its list is due at its last clock
    reading; and the alarm registers, if they were right before, hold the first
    alarm of each list again, although timers were unlinked and re-inserted
    with the update of the alarm turned off. *)
Theorem dispatch_exact heap_caps_calloc d rounds s s' res :
  (forall n h t, heap_caps_calloc n h = Some t -> t <> 0 /\ h !! t = None) ->
  wf s -> Forall round_ok rounds ->
  timer_process_alarm heap_caps_calloc d rounds s = Some (s', Some res) ->
  wf s' /\ events_ok d rounds s s' /\
  (exists r, r ∈ rounds /\ forall t, t ∈ s_timers d s' -> clock r < alarm_at s' t) /\
  ((forall d', hw_ok d' s) -> forall d', hw_ok d' s').
Proof.
  intros Hf W Hok. unfold timer_process_alarm.
  destruct (process_loop heap_caps_calloc d rounds false s) as [[s1 p]|] eqn:E; [|done].
  destruct (process_loop_ok heap_caps_calloc Hf d rounds false s s1 p W Hok E) as (W1 & H1 & He & Hx & _).
  specialize (Hx eq_refl). destruct p as [it processed|]; [|done]. destruct Hx as (Hh & Hall & Hsame).
  assert (forall v, wf (esp_timer_impl_set_alarm_id v d s1) /\ events_ok d rounds s (esp_timer_impl_set_alarm_id v d s1) /\
    (exists r, r ∈ rounds /\ forall t, t ∈ s_timers d (esp_timer_impl_set_alarm_id v d s1) ->
       clock r < alarm_at (esp_timer_impl_set_alarm_id v d s1) t) /\
    (v = next_alarm_of d s1 -> (forall d', hw_ok d' s) -> forall d', hw_ok d' (esp_timer_impl_set_alarm_id v d s1)))
    as Hset by (intros v; by apply set_alarm_frame).
  assert (processed = false -> (forall d', hw_ok d' s) -> forall d', hw_ok d' s1) as Hs by (intros; by rewrite Hsame).
  destruct it as [it|].
  - assert (next_alarm_of d s1 = alarm_at s1 it) as Hn by (unfold next_alarm_of; destruct (s_timers d s1); by simplify_eq/=).
    intros [= <- <-]. destruct processed; [rewrite andb_true_r|rewrite andb_false_r, orb_false_r].
    + replace (bool_decide (d = ESP_TIMER_TASK) || bool_decide (d <> ESP_TIMER_TASK)) with true by (by destruct d).
      destruct (Hset (alarm_at s1 it)) as (? & ? & ? & Hw). split_and!; auto.
    + case_bool_decide; [|by split_and!; auto].
      destruct (Hset (alarm_at s1 it)) as (? & ? & ? & Hw). split_and!; auto.
  - assert (next_alarm_of d s1 = UINT64_MAX) as Hn by (unfold next_alarm_of; by destruct (s_timers d s1)).
    intros [= <- <-]. destruct processed; [|by split_and!; auto].
    destruct (Hset UINT64_MAX) as (? & ? & ? & Hw). split_and!; auto.
Qed.

Lemma dispatch_exact_witness :
  exists s', timer_process_alarm demo_calloc ESP_TIMER_TASK [Round 800 [CallStop 4096]; Round 810 []] demo_state
               = Some (s', Some true) /\
    (wf s' /\ events_ok ESP_TIMER_TASK [Round 800 [CallStop 4096]; Round 810 []] demo_state s' /\
     (exists r, r ∈ [Round 800 [CallStop 4096]; Round 810 []] /\
        forall t, t ∈ s_timers ESP_TIMER_TASK s' -> clock r < alarm_at s' t) /\
     ((forall d', hw_ok d' demo_state) -> forall d', hw_ok d' s')).
Proof.
  eexists. split; [vm_compute; reflexivity|].
  apply (dispatch_exact demo_calloc ESP_TIMER_TASK [Round 800 [CallStop 4096]; Round 810 []] demo_state _ true);
    [exact demo_calloc_fresh|exact demo_state_wf|repeat constructor; simpl; lia|vm_compute; reflexivity].
Defined.

(** ** Termination *)

(** How much a timer can still delay the loop when no clock reading is above
    [now]. *)
Definition due_weight (now a : Z) : Z := Z.max 0 (now - a + 1).
Definition due_total (now : Z) (s : timers) (d : esp_timer_dispatch_t) : Z :=
  foldr Z.add 0 ((fun t => due_weight now (alarm_at s t)) <$> s_timers d s).

Lemma sum_perm l1 l2 : l1 ≡ₚ l2 -> foldr Z.add 0 l1 = foldr Z.add 0 l2.
Proof. induction 1; simpl; lia. Qed.

Lemma due_total_nonneg now s d : 0 <= due_total now s d.
Proof.
  unfold due_total. induction (s_timers d s) as [|x l IH]; [simpl; lia|].
  rewrite fmap_cons. cbn [foldr]. unfold due_weight at 1. lia.
Qed.

Lemma next_expiry_later now tm :
  timer_ok tm -> 0 < alarm tm <= now -> now < 2 ^ 63 -> 0 < period tm -> alarm tm < alarm (next_expiry now tm).
Proof.
  intros (H1 & H2 & H3) Ha Hn Hp. unfold next_expiry. destruct (Z.gtb_spec (period tm) 0); [|lia].
  destruct (_ && _); simpl; rewrite u64_id; lia.
Qed.

(** One iteration without calls: defined, and the total weight goes down. *)
Lemma process_timer_decreases calloc d it l clk now s :
  wf s -> s_timers d s = it :: l -> alarm_at s it <= clk -> 0 < clk <= now -> now < 2 ^ 63 ->
  exists s', process_timer calloc d it clk [] s = Some s' /\ due_total now s' d < due_total now s d.
Proof.
  intros W El Hdue Hclk Hnow.
  assert (exists tm, heap s !! it = Some tm) as [tm Ht].
  { destruct W. destruct (proj1 (wf_listed d it ltac:(done))) as (tm & E & _); [rewrite El; left|eauto]. }
  destruct (wf_unlink d it l s tm W El Ht) as (W1 & Hd & Hpos & Hok).
  unfold process_timer. rewrite El. cbn [LIST_REMOVE]. rewrite Z.eqb_refl. set (s1 := set_list d l s) in *.
  assert (heap s1 = heap s) as Hh1 by (subst s1; by autorewrite with timers).
  assert (s_timers d s1 = l) as Hl1 by (subst s1; autorewrite with timers; by rewrite decide_True).
  rewrite (deref_alloc s1 it tm) by (by rewrite Hh1).
  assert (it ∉ l) as Hnin by (rewrite <- Hl1; by apply (wf_out _ _ W1)).
  assert (alarm_at s it = alarm tm) as Ha by (unfold alarm_at; by rewrite (deref_alloc _ _ _ Ht)).
  assert (forall s', s_timers d s' = l -> (forall t, t ∈ l -> alarm_at s' t = alarm_at s t) ->
    due_total now s' d = due_total now s d - due_weight now (alarm tm)) as Hrest.
  { intros s' El' Ea. unfold due_total. rewrite El, El', fmap_cons. cbn [foldr]. rewrite Ha.
    assert ((fun t => due_weight now (alarm_at s' t)) <$> l = (fun t => due_weight now (alarm_at s t)) <$> l) as ->; [|lia].
    apply list_fmap_ext. intros i x Hx. by rewrite Ea by (by eapply list_elem_of_lookup_2). }
  destruct (u32 (callback tm) =? EVENT_ID_DELETE_TIMER).
  - eexists. split; [reflexivity|]. rewrite Hrest; [unfold due_weight; lia|by autorewrite with timers|].
    intros t Hin. apply alarm_at_heap. autorewrite with timers. rewrite lookup_delete_ne; [by rewrite Hh1|].
    by intros ->.
  - cbn [run_calls]. eexists. split; [reflexivity|].
    set (s2 := write_timer it (next_expiry clk tm) s1).
    assert (forall t, t ∈ l -> alarm_at s2 t = alarm_at s t) as Ha2.
    { intros t Hin. unfold s2. rewrite alarm_at_write_ne by (by intros ->). apply alarm_at_heap. by rewrite Hh1. }
    assert (s_timers d s2 = l) as Hl2 by (unfold s2; by rewrite s_timers_write).
    destruct (Z.gtb_spec (period tm) 0) as [Hp|Hp].
    + assert (dispatch_of (deref s2 it) = d) as Hd2.
      { unfold s2. rewrite deref_write. rewrite <- Hd. apply (next_expiry_ok clk tm Hok); lia. }
      destruct (timer_insert_fields it true s2) as (Eh & Es & _).
      unfold due_total. autorewrite with timers. rewrite Es, Hd2, decide_True by done.
      rewrite (sum_perm _ ((fun t => due_weight now (alarm_at s2 t)) <$> (it :: l))).
      2: { rewrite Hl2. rewrite (list_fmap_ext _ (fun t => due_weight now (alarm_at s2 t))).
           - by rewrite (list_insert_perm (alarm_at s2) it l).
           - intros i x _. f_equal. apply alarm_at_heap. autorewrite with timers. by rewrite Eh. }
      rewrite fmap_cons. cbn [foldr]. specialize (Hrest s2 Hl2 Ha2). unfold due_total in Hrest. rewrite Hl2 in Hrest. rewrite Hrest.
      assert (alarm_at s2 it = alarm (next_expiry clk tm)) as -> by (unfold s2, alarm_at; by rewrite deref_write).
      pose proof (next_expiry_later clk tm Hok ltac:(lia) ltac:(lia) ltac:(lia)).
      unfold due_total, due_weight in *. lia.
    + rewrite Hrest; [unfold due_weight; lia|by autorewrite with timers|].
      intros t Hin. rewrite <- Ha2 by done. apply alarm_at_heap. by autorewrite with timers.
Qed.

(** C33. The dispatching loop terminates when the callbacks do not call the timer
    service and no other task does: whatever the clock shows in each iteration,
    if its readings stay below some bound the loop leaves after finitely many
    iterations, periodic timers that are far behind included.  (A callback that
    starts its timer again with timeout 0 keeps the loop going.) *)
Theorem dispatch_terminates heap_caps_calloc d now s :
  (forall n h t, heap_caps_calloc n h = Some t -> t <> 0 /\ h !! t = None) ->
  wf s -> now < 2 ^ 63 ->
  exists n, forall rounds, (n <= length rounds)%nat -> Forall (fun r => 0 < clock r <= now /\ meanwhile_calls r = []) rounds ->
    exists s' processed, timer_process_alarm heap_caps_calloc d rounds s = Some (s', Some processed).
Proof.
  intros Hf W Hnow. exists (S (Z.to_nat (due_total now s d))). intros rounds HN Hrs.
  assert (forall p s, wf s -> due_total now s d < Z.of_nat (length rounds) -> exists s' it p',
    process_loop heap_caps_calloc d rounds p s = Some (s', Left it p')) as Hloop.
  { clear - Hf Hnow Hrs. induction Hrs as [|[clk cs] rs [Hclk Hcs] Hrs IH]; intros p s W Hlt; [pose proof (due_total_nonneg now s d); cbn in Hlt; lia|].
    cbn [clock meanwhile_calls length] in *. subst cs.
    cbn [process_loop]. destruct (s_timers d s) as [|it l] eqn:El; [eauto|].
    rewrite u64_id by lia. destruct (Z.gtb_spec (alarm_at s it) clk) as [?|Hle]; [eauto|].
    destruct (process_timer_decreases heap_caps_calloc d it l clk now s W El Hle Hclk Hnow) as (s1 & E & Hdec). rewrite E.
    destruct (process_timer_ok heap_caps_calloc Hf d it l clk [] s W El Hle) as (s2 & (W2 & _) & H); [split; [cbn; lia|done]|].
    apply IH; [|lia]. rewrite E in H. simpl in H. destruct H as [[= ->]|[= ->]]; done. }
  destruct (Hloop false s W) as (s' & it & p' & E); [pose proof (due_total_nonneg now s d); lia|].
  unfold timer_process_alarm. rewrite E. destruct it; eauto.
Qed.

Lemma dispatch_terminates_witness :
  exists n, forall rounds, (n <= length rounds)%nat -> Forall (fun r => 0 < clock r <= 100000 /\ meanwhile_calls r = []) rounds ->
    exists s' processed, timer_process_alarm demo_calloc ESP_TIMER_TASK rounds demo_state = Some (s', Some processed).
Proof. apply (dispatch_terminates demo_calloc); [exact demo_calloc_fresh|exact demo_state_wf|lia]. Defined.
