(* ===== verification/EspTimerApi.v ===== *)
(** * The timer service: what single calls and dispatches compute *)

From Stdlib Require Import Sorting.Sorted.
From S2P Require Import Prelude EspErr EspTimer EspTimerInv EspTimerProps.

(** ** The earliest alarm *)

Lemma min_first_spec s d next :
  wf s ->
  min_first s d next <= next /\
  (forall t, t ∈ s_timers d s -> min_first s d next <= alarm_at s t) /\
  (min_first s d next = next \/ exists t, t ∈ s_timers d s /\ min_first s d next = alarm_at s t).
Proof.
  intros W. unfold min_first. destruct (s_timers d s) as [|it l] eqn:El.
  { split_and!; [lia| |by left]. by intros t ?%elem_of_nil. }
  assert (forall t, t ∈ it :: l -> alarm_at s it <= alarm_at s t) as Hmin.
  { intros t Hin. destruct (Z.lt_ge_cases (alarm_at s it - 1) (alarm_at s t)) as [|Hc]; [lia|].
    rewrite <- El in Hin. pose proof (sorted_later s d it l (alarm_at s it - 1) W El ltac:(lia) t Hin). lia. }
  destruct (Z.gtb_spec next (alarm_at s it)); split_and!; try lia.
  - done.
  - right. exists it. split; [left|done].
  - intros t Hin. specialize (Hmin t Hin). lia.
Qed.

(** [esp_timer_get_next_alarm] is the earliest alarm of all armed timers of
    both dispatch methods, or [INT64_MAX] when none is armed that early. *)
Theorem next_alarm_earliest s :
  wf s ->
  esp_timer_get_next_alarm s <= INT64_MAX /\
  (forall t tm, heap s !! t = Some tm -> 0 < alarm tm -> esp_timer_get_next_alarm s <= alarm tm) /\
  (esp_timer_get_next_alarm s = INT64_MAX \/
   exists t tm, heap s !! t = Some tm /\ 0 < alarm tm /\ esp_timer_get_next_alarm s = alarm tm).
Proof.
  intros W. unfold esp_timer_get_next_alarm.
  destruct (min_first_spec s ESP_TIMER_TASK INT64_MAX W) as (T1 & T2 & T3). set (m := min_first s ESP_TIMER_TASK _) in *.
  destruct (min_first_spec s ESP_TIMER_ISR m W) as (I1 & I2 & I3). set (n := min_first s ESP_TIMER_ISR _) in *.
  assert (forall d t, t ∈ s_timers d s -> exists tm, heap s !! t = Some tm /\ 0 < alarm tm /\ alarm_at s t = alarm tm) as Hl.
  { intros d t Hin. destruct W. apply wf_listed in Hin as (tm & E & Hp & _); [|done]. exists tm.
    split_and!; auto. unfold alarm_at. by rewrite (deref_alloc _ _ _ E). }
  split_and!; [lia| |].
  - intros t tm Ht Hp. assert (t ∈ s_timers (dispatch_of tm) s) as Hin by (destruct W; apply wf_listed; [done|by exists tm]).
    destruct (Hl _ _ Hin) as (tm' & E & _ & Ha). rewrite Ht in E. injection E as <-. rewrite <- Ha.
    destruct (dispatch_of tm); [specialize (T2 t Hin); lia|auto].
  - destruct I3 as [->|(t & Hin & ->)]; [destruct T3 as [->|(t & Hin & ->)]; [by left|]|];
      right; destruct (Hl _ _ Hin) as (tm & ? & ? & ?); by exists t, tm.
Qed.

Lemma next_alarm_earliest_witness :
  esp_timer_get_next_alarm demo_state <= INT64_MAX /\
  (forall t tm, heap demo_state !! t = Some tm -> 0 < alarm tm -> esp_timer_get_next_alarm demo_state <= alarm tm) /\
  (esp_timer_get_next_alarm demo_state = INT64_MAX \/
   exists t tm, heap demo_state !! t = Some tm /\ 0 < alarm tm /\ esp_timer_get_next_alarm demo_state = alarm tm).
Proof. apply (next_alarm_earliest demo_state demo_state_wf). Defined.

(** ** Starting and stopping *)

Lemma remove_inserted h t l : t ∉ l -> LIST_REMOVE t (list_insert h t l) = Some l.
Proof.
  induction l as [|x l IH]; intros Hn; simpl; [by rewrite Z.eqb_refl|].
  apply not_elem_of_cons in Hn as [Hx Hl]. case_match; simpl.
  - by rewrite Z.eqb_refl.
  - destruct (Z.eqb_spec x t); [congruence|]. by rewrite IH.
Qed.

(** Starting and stopping are inverse: an idle timer that is started as a
    one-shot timer is active and reports its expiry time, starting it again is
    refused, and stopping it restores the control blocks, both lists and the
    alarm registers. *)
Theorem start_stop_roundtrip s t tm timeout now :
  wf s -> (forall d, hw_ok d s) -> is_initialized s = true -> t <> 0 ->
  heap s !! t = Some tm -> alarm tm = 0 -> good_clock now timeout ->
  exists s1, esp_timer_start_once t timeout now s = Some (s1, ESP_OK) /\
    esp_timer_is_active t s1 = Some true /\
    esp_timer_get_expiry_time t true s1 = Some (ESP_OK, Some (now + timeout)) /\
    (forall timeout' now', esp_timer_start_once t timeout' now' s1 = Some (s1, ESP_ERR_INVALID_STATE)) /\
    exists s2, esp_timer_stop t s1 = Some (s2, ESP_OK) /\ esp_timer_is_active t s2 = Some false /\
      heap s2 = heap s /\ forall d, s_timers d s2 = s_timers d s /\ timestamp_id d s2 = timestamp_id d s.
Proof.
  intros W Hw Hi Ht0 Ht Ha [Hnow Hd].
  assert (timer_armed s t = false) as Hna by (unfold timer_armed; rewrite (deref_alloc _ _ _ Ht); lia).
  assert (period tm = 0) as Hp by (destruct W; destruct (wf_heap _ _ Ht ltac:(done)) as (_ & ? & ?); lia).
  assert (0 < now + timeout < 2 ^ 64) as Hr by lia.
  destruct (start_timer s t tm 0 (now + timeout) W Ht Hna Hr) as (W1 & Hw1 & _).
  set (tm1 := with_period 0 (with_alarm (now + timeout) tm)) in *.
  set (s0 := write_timer t tm1 s) in *. set (s1 := fst (timer_insert t false s0)) in *.
  destruct (timer_insert_fields t false s0) as (Hh & Hl & Hini & _). fold s1 in Hh, Hl, Hini.
  assert (deref s0 t = tm1) as Hd0 by apply deref_write. rewrite Hd0 in Hl.
  assert (forall d, s_timers d s0 = s_timers d s) as Hls by (intros; apply s_timers_write).
  assert (heap s1 = <[t := tm1]> (heap s)) as Hh1 by (rewrite Hh; apply heap_write).
  assert (heap s1 !! t = Some tm1) as Ht1 by (by rewrite Hh1, lookup_insert_eq).
  assert (is_initialized s1 = true) as Hi1 by (rewrite Hini; by destruct s).
  assert (timer_armed s1 t = true) as Ha1 by (unfold timer_armed; rewrite (deref_alloc _ _ _ Ht1); simpl; lia).
  assert (allocated s1 t = true) as Hal1 by (unfold allocated; by rewrite bool_decide_eq_true_2 by eauto).
  exists s1. split.
  { unfold esp_timer_start_once, allocated. rewrite (proj2 (Z.eqb_neq _ _) Ht0), Hi, Hna.
    rewrite bool_decide_eq_true_2 by eauto. cbn [negb]. by rewrite (deref_alloc _ _ _ Ht), u64_id by lia. }
  assert ((t =? 0) = false) as E0 by lia.
  split_and!.
  - unfold esp_timer_is_active. by rewrite E0, Hal1, Ha1.
  - unfold esp_timer_get_expiry_time. by rewrite E0, Hal1, (deref_alloc _ _ _ Ht1).
  - intros. unfold esp_timer_start_once. by rewrite E0, Hi1, Hal1, Ha1.
  - destruct (timer_remove_spec t s1 tm1 W1 Ht1 ltac:(simpl; lia)) as (s2 & l' & E & W2 & Hh2 & _ & _ & El' & Hl2 & Hw2).
    exists s2. assert (heap s2 = heap s) as Hh2s.
    { rewrite Hh2, Hh1, insert_insert_eq. apply insert_id. rewrite Ht. f_equal.
      destruct tm; simpl in *. subst. done. }
    assert (forall d, s_timers d s2 = s_timers d s) as Hlists.
    { intros d. rewrite Hl2. case_decide as Hdd; [subst d|].
      - assert (Some l' = Some (s_timers (dispatch_of tm1) s)) as [= ->]; [|done].
        rewrite <- El', Hl, decide_True, Hls by done. apply remove_inserted. by eapply wf_unlisted.
      - by rewrite Hl, decide_False, Hls by done. }
    split_and!; [|unfold esp_timer_is_active|done|].
    + unfold esp_timer_stop. by rewrite E0, Hi1, Hal1, Ha1.
    + unfold allocated, timer_armed. rewrite E0, Hh2s, (deref_alloc s2 t tm) by (by rewrite Hh2s).
      rewrite bool_decide_eq_true_2 by eauto. by rewrite Ha.
    + intros d. split; [done|]. rewrite (Hw2 d (Hw1 d (Hw d))), (Hw d). unfold next_alarm_of. rewrite Hlists.
      destruct (s_timers d s); [done|]. apply alarm_at_heap. by rewrite Hh2s.
Qed.

Lemma start_stop_roundtrip_witness :
  exists s, act_all demo_calloc (take 3 demo_actions) initial_timers = Some s /\
  exists s1, esp_timer_start_once 4160 300 50 s = Some (s1, ESP_OK) /\
    esp_timer_is_active 4160 s1 = Some true /\
    esp_timer_get_expiry_time 4160 true s1 = Some (ESP_OK, Some (50 + 300)) /\
    (forall timeout' now', esp_timer_start_once 4160 timeout' now' s1 = Some (s1, ESP_ERR_INVALID_STATE)) /\
    exists s2, esp_timer_stop 4160 s1 = Some (s2, ESP_OK) /\ esp_timer_is_active 4160 s2 = Some false /\
      heap s2 = heap s /\ forall d, s_timers d s2 = s_timers d s /\ timestamp_id d s2 = timestamp_id d s.
Proof.
  eexists. split; [vm_compute; reflexivity|].
  eapply (start_stop_roundtrip _ 4160 (MkTimer 0 0 0 8 5) 300 50).
  - eapply (act_all_wf demo_calloc (take 3 demo_actions)); [exact demo_calloc_fresh| |exact initial_wf|vm_compute; reflexivity].
    repeat constructor.
  - by intros [].
  - done.
  - done.
  - vm_compute. reflexivity.
  - done.
  - split; lia.
Defined.

(** ** Deleting *)

(** One dispatched timer, when its callback makes no calls. *)
Lemma process_step calloc d it now s s' :
  process_timer calloc d it now [] s = Some s' ->
  let tm := deref s it in
  (forall x, x <> it -> heap s' !! x = heap s !! x) /\
  if u32 (callback tm) =? EVENT_ID_DELETE_TIMER
  then heap s' !! it = None /\ events s' = events s ++ [Freed it]
  else heap s' !! it = Some (next_expiry now tm) /\
    events s' = events s ++ [Fired d it (callback tm) (arg tm) (alarm tm) now].
Proof.
  unfold process_timer. destruct (LIST_REMOVE it (s_timers d s)) as [l|]; [|done].
  replace (deref (set_list d l s) it) with (deref s it) by (unfold deref; by autorewrite with timers).
  set (tm := deref s it). cbv zeta. destruct (u32 (callback tm) =? EVENT_ID_DELETE_TIMER).
  - intros [= <-]. autorewrite with timers. split_and!.
    + intros x Hx. by rewrite lookup_delete_ne.
    + by rewrite lookup_delete_eq.
    + by destruct d, s.
  - cbn [run_calls]. intros [= <-]. set (s2 := write_timer it _ _).
    set (s3 := if _ >? 0 then _ else s2).
    assert (heap s3 = heap s2 /\ events s3 = events s2) as [Eh Ee].
    { unfold s3. destruct (_ >? 0); [|done]. by destruct (timer_insert_fields it true s2) as (? & _ & _ & ?). }
    autorewrite with timers. rewrite Eh. unfold s2. autorewrite with timers. split_and!.
    + intros x Hx. by rewrite lookup_insert_ne.
    + by rewrite lookup_insert_eq.
    + assert (events (log_event (Fired d it (callback tm) (arg tm) (alarm tm) now) s3) =
        events s3 ++ [Fired d it (callback tm) (arg tm) (alarm tm) now]) as -> by (by destruct s3).
      rewrite Ee. unfold s2. by destruct d, s.
Qed.

(** No callback of [t] among the events. *)
Definition quiet (t : Z) (evs : list timer_event) : Prop :=
  Forall (fun ev => match ev with Fired _ t' _ _ _ _ => t' <> t | Freed _ => True end) evs.

Definition quiet_round (now : Z) (r : round) : Prop := meanwhile_calls r = [] /\ now <= clock r < 2 ^ 63.

Lemma quiet_loop calloc d t tm now rounds : forall p s s' prog,
  (forall n h t, calloc n h = Some t -> t <> 0 /\ h !! t = None) ->
  wf s -> 0 < now -> Forall (quiet_round now) rounds -> u32 (callback tm) = EVENT_ID_DELETE_TIMER ->
  heap s !! t = Some tm \/ heap s !! t = None ->
  process_loop calloc d rounds p s = Some (s', prog) ->
  exists evs, events s' = events s ++ evs /\ quiet t evs /\
    (heap s' !! t = heap s !! t \/ heap s' !! t = None /\ Freed t ∈ evs).
Proof.
  intros p s s' prog Hf. revert p s s' prog. induction rounds as [|[clk calls] rounds IH];
    intros p s s' prog W Hnow Hq Hcb Ht; cbn [process_loop].
  { intros [= <- <-]. exists []. rewrite app_nil_r. split_and!; [done|constructor|by left]. }
  apply Forall_cons in Hq as [[Hc Hclk] Hq]. simpl in Hc, Hclk. subst calls.
  destruct (s_timers d s) as [|it l] eqn:El.
  { intros [= <- <-]. exists []. rewrite app_nil_r. split_and!; [done|constructor|by left]. }
  rewrite u64_id by lia. destruct (Z.gtb_spec (alarm_at s it) clk) as [Hlt|Hle].
  { intros [= <- <-]. exists []. rewrite app_nil_r. split_and!; [done|constructor|by left]. }
  destruct (process_timer calloc d it clk [] s) as [s1|] eqn:E1; [|done].
  destruct (process_timer_ok calloc Hf d it l clk [] s W El Hle) as (s2 & (W2 & _) & H2); [split; [simpl; lia|constructor]|].
  assert (wf s1) as W1 by (rewrite E1 in H2; simpl in H2; destruct H2 as [[= ->]|[= ->]]; done).
  destruct (process_step _ _ _ _ _ _ E1) as [Hother Hit]. intros E.
  destruct (decide (it = t)) as [->|Hne].
  - assert (heap s !! t = Some tm) as Ht'.
    { destruct Ht as [|Hn]; [done|]. destruct W. destruct (proj1 (wf_listed d t ltac:(done))) as (? & ? & _);
        [rewrite El; left|congruence]. }
    rewrite (deref_alloc _ _ _ Ht'), Hcb, Z.eqb_refl in Hit. destruct Hit as [Hn Ee].
    destruct (IH true s1 s' prog W1 Hnow Hq Hcb (or_intror Hn) E) as (evs & Ee' & Hqu & Hh).
    exists (Freed t :: evs). rewrite Ee', Ee, <- app_assoc. split_and!; [done|by constructor|]. right.
    split; [destruct Hh as [->|[? _]]; done|left].
  - rewrite <- (Hother t) in Ht by congruence.
    destruct (IH true s1 s' prog W1 Hnow Hq Hcb Ht E) as (evs & Ee' & Hqu & Hh).
    rewrite Hother in Hh by congruence.
    destruct (u32 (callback (deref s it)) =? EVENT_ID_DELETE_TIMER); destruct Hit as [_ Ee].
    + exists (Freed it :: evs). rewrite Ee', Ee, <- app_assoc. split_and!; [done|by constructor|].
      destruct Hh as [|[? ?]]; [by left|right; split; [done|by right]].
    + eexists (_ :: evs). rewrite Ee', Ee, <- app_assoc. split_and!; [done|by constructor|].
      destruct Hh as [|[? ?]]; [by left|right; split; [done|by right]].
Qed.

(** A deleted timer is freed by the timer task and never called: after
    [esp_timer_delete] of an idle timer of either dispatch method, the next
    dispatching of the task list that completes frees the control block and
    runs no callback of the timer. *)
Theorem delete_frees heap_caps_calloc s t tm now :
  (forall n h t, heap_caps_calloc n h = Some t -> t <> 0 /\ h !! t = None) ->
  wf s -> t <> 0 -> heap s !! t = Some tm -> alarm tm = 0 -> 0 < now < 2 ^ 63 ->
  exists s1, esp_timer_delete t now s = Some (s1, ESP_OK) /\
    forall rounds s' processed, Forall (quiet_round now) rounds ->
      timer_process_alarm heap_caps_calloc ESP_TIMER_TASK rounds s1 = Some (s', Some processed) ->
      heap s' !! t = None /\ exists evs, events s' = events s1 ++ evs /\ Freed t ∈ evs /\ quiet t evs.
Proof.
  intros Hf W Ht0 Ht Ha Hnow.
  assert (timer_armed s t = false) as Hna by (unfold timer_armed; rewrite (deref_alloc _ _ _ Ht); lia).
  unfold esp_timer_delete, allocated. rewrite (proj2 (Z.eqb_neq _ _) Ht0), Hna, (deref_alloc _ _ _ Ht).
  rewrite bool_decide_eq_true_2 by eauto. rewrite u64_id by lia.
  set (dt := MkTimer now 0 _ _ _). set (s1 := fst (timer_insert t false (write_timer t dt s))).
  exists s1. split; [reflexivity|]. intros rounds s' processed Hq.
  assert (timer_ok dt) as Hok by (split; simpl; lia).
  destruct (arm_timer t dt s (wf_unlisted _ _ _ W Ht Ha) (or_introl W) Hok ltac:(simpl; lia)) as (W1 & _). fold s1 in W1.
  assert (heap s1 !! t = Some dt) as Ht1.
  { destruct (timer_insert_fields t false (write_timer t dt s)) as (Eh & _). fold s1 in Eh.
    by rewrite Eh, heap_write, lookup_insert_eq. }
  assert (Forall round_ok rounds) as Hrok.
  { eapply Forall_impl; [exact Hq|]. intros r [Hm ?]. split; [lia|by rewrite Hm]. }
  unfold timer_process_alarm.
  destruct (process_loop heap_caps_calloc ESP_TIMER_TASK rounds false s1) as [[s2 p]|] eqn:E; [|done].
  destruct (process_loop_ok heap_caps_calloc Hf _ _ _ _ _ _ W1 Hrok E) as (W2 & _ & _ & Hx & _).
  specialize (Hx eq_refl). destruct (quiet_loop heap_caps_calloc ESP_TIMER_TASK t dt now rounds _ _ _ _ Hf W1
    ltac:(lia) Hq eq_refl (or_introl Ht1) E) as (evs & Ee & Hqu & Hh).
  destruct p as [it pr|]; [|done]. destruct Hx as (_ & (r & Hr & Hall) & _).
  assert (heap s2 !! t = None /\ Freed t ∈ evs) as [Hn Hfr].
  { destruct Hh as [Hh|]; [|done]. rewrite Ht1 in Hh. exfalso.
    assert (t ∈ s_timers ESP_TIMER_TASK s2) as Hin.
    { destruct W2. apply wf_listed; [done|]. exists dt. split_and!; [done|simpl; lia|].
      unfold dispatch_of, dt, FL_ISR_DISPATCH_METHOD. simpl. rewrite (flag_clear _ 1 0) by lia.
      by rewrite andb_false_r. }
    specialize (Hall t Hin). unfold alarm_at in Hall. rewrite (deref_alloc _ _ _ Hh) in Hall. simpl in Hall.
    rewrite Forall_forall in Hq. destruct (Hq r Hr) as [_ ?]. lia. }
  assert (forall v d, heap (esp_timer_impl_set_alarm_id v d s2) = heap s2 /\
    events (esp_timer_impl_set_alarm_id v d s2) = events s2) as Hs by (intros v []; by destruct s2).
  destruct it as [it|]; intros [= <- <-];
    try match goal with |- context [if ?c then _ else _] => destruct c end; rewrite ?(proj1 (Hs _ _)), ?(proj2 (Hs _ _)); eauto.
Qed.

Lemma delete_frees_witness :
  exists s, act_all demo_calloc (take 4 demo_actions) initial_timers = Some s /\
  exists s1, esp_timer_delete 4224 100 s = Some (s1, ESP_OK) /\
    forall rounds s' processed, Forall (quiet_round 100) rounds ->
      timer_process_alarm demo_calloc ESP_TIMER_TASK rounds s1 = Some (s', Some processed) ->
      heap s' !! 4224 = None /\ exists evs, events s' = events s1 ++ evs /\ Freed 4224 ∈ evs /\ quiet 4224 evs.
Proof.
  eexists. split; [vm_compute; reflexivity|].
  eapply (delete_frees demo_calloc _ 4224 (MkTimer 0 0 3 11 6) 100).
  - exact demo_calloc_fresh.
  - eapply (act_all_wf demo_calloc (take 4 demo_actions)); [exact demo_calloc_fresh| |exact initial_wf|vm_compute; reflexivity].
    repeat constructor.
  - done.
  - vm_compute. reflexivity.
  - done.
  - lia.
Defined.

(** ** Periodic timers *)

Lemma process_periodic calloc d it now s tm :
  s_timers d s = [it] -> heap s !! it = Some tm -> dispatch_of tm = d -> 0 < period tm ->
  u32 (callback tm) <> EVENT_ID_DELETE_TIMER -> dispatch_of (next_expiry now tm) = d ->
  exists s', process_timer calloc d it now [] s = Some s' /\ s_timers d s' = [it] /\
    heap s' !! it = Some (next_expiry now tm) /\
    events s' = events s ++ [Fired d it (callback tm) (arg tm) (alarm tm) now].
Proof.
  intros El Ht Hd Hp Hcb Hd'. destruct (process_timer calloc d it now [] s) as [s'|] eqn:E.
  - exists s'. split; [done|]. destruct (process_step _ _ _ _ _ _ E) as [_ H].
    rewrite (deref_alloc _ _ _ Ht), (proj2 (Z.eqb_neq _ _) Hcb) in H. split; [|exact H].
    unfold process_timer in E. rewrite El in E. cbn [LIST_REMOVE] in E. rewrite Z.eqb_refl in E.
    replace (deref (set_list d [] s) it) with tm in E
      by (unfold deref; autorewrite with timers; by rewrite Ht).
    cbv zeta in E. rewrite (proj2 (Z.eqb_neq _ _) Hcb) in E. cbn [run_calls] in E.
    replace (period tm >? 0) with true in E by lia. injection E as <-. rewrite s_timers_log.
    set (s2 := write_timer it _ _). destruct (timer_insert_fields it true s2) as (_ & Hl & _). rewrite Hl.
    assert (deref s2 it = next_expiry now tm) as -> by apply deref_write.
    rewrite Hd', decide_True by done. unfold s2. autorewrite with timers. by rewrite decide_True by done.
  - exfalso. unfold process_timer in E. rewrite El in E. cbn [LIST_REMOVE] in E. rewrite Z.eqb_refl in E.
    destruct (_ =? _) in E; done.
Qed.

Lemma periodic_loop calloc d t now : forall (n k : nat) s tm p,
  s_timers d s = [t] -> heap s !! t = Some tm -> dispatch_of tm = d -> 0 < period tm < 2 ^ 56 ->
  u32 (callback tm) <> EVENT_ID_DELETE_TIMER -> flag (flags tm) FL_SKIP_UNHANDLED_EVENTS = false ->
  0 < alarm tm -> 0 < now < 2 ^ 63 -> ((0 < n)%nat -> alarm tm + (Z.of_nat n - 1) * period tm <= now) ->
  now < alarm tm + Z.of_nat n * period tm < 2 ^ 64 -> (n < k)%nat ->
  exists s', process_loop calloc d (replicate k (Round now [])) p s = Some (s', Left (Some t) (p || bool_decide (0 < n)%nat)) /\
    s_timers d s' = [t] /\ heap s' !! t = Some (with_alarm (alarm tm + Z.of_nat n * period tm) tm) /\
    events s' = events s ++ ((fun i => Fired d t (callback tm) (arg tm) (alarm tm + Z.of_nat i * period tm) now) <$> seq 0 n).
Proof.
  induction n as [|n IH]; intros [|k] s tm p El Ht Hd Hp Hcb Hsk Ha Hnow Hdue Hlater Hk; try lia;
    cbn [replicate process_loop]; rewrite El.
  all: assert (alarm_at s t = alarm tm) as -> by (unfold alarm_at; by rewrite (deref_alloc _ _ _ Ht)).
  all: rewrite u64_id by lia.
  - replace (alarm tm >? now) with true by lia. exists s. rewrite orb_false_r, app_nil_r. split_and!; auto.
    rewrite Z.mul_0_l, Z.add_0_r. by destruct tm.
  - replace (alarm tm >? now) with false by (destruct (Z.gtb_spec (alarm tm) now); nia || done).
    assert (next_expiry now tm = with_alarm (alarm tm + period tm) tm) as En.
    { unfold next_expiry. replace (period tm >? 0) with true by lia. rewrite Hsk. simpl. by rewrite u64_id by nia. }
    destruct (process_periodic calloc d t now s tm El Ht Hd) as (s1 & E1 & El1 & Ht1 & Ee1); auto; [lia|by rewrite En|].
    rewrite E1. rewrite En in Ht1.
    destruct (IH k s1 (with_alarm (alarm tm + period tm) tm) true) as (s' & E' & El' & Ht' & Ee'); simpl; auto; try nia.
    exists s'. rewrite E'. rewrite orb_true_r. split_and!; [done|done| |].
    + rewrite Ht'. unfold with_alarm. simpl. do 2 f_equal. nia.
    + rewrite Ee', Ee1, <- app_assoc. f_equal. cbn [seq fmap list_fmap app]. simpl. f_equal; [f_equal; lia|].
      rewrite <- fmap_S_seq, <- list_fmap_compose. apply list_fmap_ext. intros i x _. simpl. f_equal. lia.
Qed.

(** C39. Periodic timers do not drift and lose no expiry: when the dispatcher
    comes late, a timer without the skip flag that is alone in its list is
    called once for every period that has passed, each time for the alarm one
    period after the last, and is then set for the next multiple.  (The clock
    does not advance meanwhile, and no other call is made.) *)
Theorem periodic_catch_up heap_caps_calloc d t tm now s N :
  s_timers d s = [t] -> heap s !! t = Some tm -> dispatch_of tm = d -> 0 < period tm < 2 ^ 56 ->
  u32 (callback tm) <> EVENT_ID_DELETE_TIMER -> flag (flags tm) FL_SKIP_UNHANDLED_EVENTS = false ->
  0 < alarm tm <= now -> now < 2 ^ 63 ->
  let n := Z.to_nat ((now - alarm tm) / period tm + 1) in
  (n < N)%nat ->
  exists s', timer_process_alarm heap_caps_calloc d (replicate N (Round now [])) s = Some (s', Some true) /\
    events s' = events s ++
      ((fun i => Fired d t (callback tm) (arg tm) (alarm tm + Z.of_nat i * period tm) now) <$> seq 0 n) /\
    heap s' !! t = Some (with_alarm (alarm tm + Z.of_nat n * period tm) tm) /\
    now < alarm tm + Z.of_nat n * period tm <= now + period tm /\
    timestamp_id d s' = alarm tm + Z.of_nat n * period tm.
Proof.
  intros El Ht Hd Hp Hcb Hsk Ha Hnow n HN.
  pose proof (Z.div_mod (now - alarm tm) (period tm) ltac:(lia)) as Hdm.
  pose proof (Z.mod_pos_bound (now - alarm tm) (period tm) ltac:(lia)) as Hmod.
  pose proof (Z.div_pos (now - alarm tm) (period tm) ltac:(lia) ltac:(lia)) as Hq.
  assert (Z.of_nat n = (now - alarm tm) / period tm + 1) as Hn by (unfold n; rewrite Z2Nat.id; lia).
  clearbody n. set (q := (now - alarm tm) / period tm) in *. clearbody q.
  destruct (periodic_loop heap_caps_calloc d t now n N s tm false El Ht Hd Hp Hcb Hsk) as (s1 & E & El1 & Ht1 & Ee1);
    try nia; try lia.
  unfold timer_process_alarm. rewrite E. rewrite (bool_decide_eq_true_2 (0 < n)%nat) by lia. cbn [orb].
  replace (bool_decide (d = ESP_TIMER_TASK) || (bool_decide (d <> ESP_TIMER_TASK) && true)) with true by (by destruct d).
  eexists. split; [reflexivity|].
  assert (alarm_at s1 t = alarm tm + Z.of_nat n * period tm) as Hat
    by (unfold alarm_at; by rewrite (deref_alloc _ _ _ Ht1)).
  unfold esp_timer_impl_set_alarm_id. rewrite Hat. autorewrite with timers. rewrite decide_True by done.
  split_and!; [by rewrite <- Ee1; destruct d, s1|done|nia|nia|done].
Qed.

Lemma periodic_catch_up_witness :
  exists s, act_all demo_calloc (take 2 demo_actions ++ [ActCall (CallStartPeriodic 4096 1000 5)]) initial_timers = Some s /\
  exists s', timer_process_alarm demo_calloc ESP_TIMER_TASK (replicate 5 (Round 4006 [])) s = Some (s', Some true) /\
    events s' = events s ++ ((fun i => Fired ESP_TIMER_TASK 4096 7 9 (1005 + Z.of_nat i * 1000) 4006) <$> seq 0 4) /\
    heap s' !! 4096 = Some (with_alarm (1005 + Z.of_nat 4 * 1000) (MkTimer 1005 1000 0 7 9)) /\
    4006 < 1005 + Z.of_nat 4 * 1000 <= 4006 + 1000 /\
    timestamp_id ESP_TIMER_TASK s' = 1005 + Z.of_nat 4 * 1000.
Proof.
  eexists. split; [vm_compute; reflexivity|].
  eapply (periodic_catch_up demo_calloc ESP_TIMER_TASK 4096 (MkTimer 1005 1000 0 7 9) 4006 _ 5);
    [reflexivity|reflexivity|reflexivity|simpl; lia|done|reflexivity|simpl; lia|lia|vm_compute; lia].
Defined.

(** ** What is outside the theorems *)

(** One timer, due at 100. *)
Definition lone_timer : timers :=
  MkTimers true {[4096 := MkTimer 100 0 0 8 5]} [4096] [] 100 UINT64_MAX 100 [].

(** [esp_timer_restart] tests whether the timer is armed before it takes the
    lock.  If the timer fires in between it is unlinked a second time. *)
Example restart_race :
  timer_armed lone_timer 4096 = true /\
  (let? (s, _) := timer_process_alarm demo_calloc ESP_TIMER_TASK [Round 100 []; Round 100 []] lone_timer in
   Some (task_list s, restart_locked 4096 500 100 s)) = Some ([], None).
Proof. split; vm_compute; reflexivity. Qed.

(** A callback that starts its timer again with timeout 0 keeps the dispatching
    loop going: with the clock at 100 it has not left after any number of
    iterations. *)
Lemma callback_restarts_forever (n : nat) :
  exists s, timer_process_alarm demo_calloc ESP_TIMER_TASK (replicate n (Round 100 [CallStartOnce 4096 0 100])) lone_timer = Some (s, None).
Proof.
  assert (forall evs p, exists s, process_loop demo_calloc ESP_TIMER_TASK (replicate n (Round 100 [CallStartOnce 4096 0 100])) p
    (MkTimers true {[4096 := MkTimer 100 0 0 8 5]} [4096] [] 100 UINT64_MAX 100 evs) = Some (s, Running)) as H.
  { induction n as [|n IH]; intros evs p; [by eexists|]. exact (IH _ _). }
  destruct (H [] false) as [s E]. exists s. unfold timer_process_alarm, lone_timer. by rewrite E.
Qed.
