(* ===== verification/LogLevel.v ===== *)
(** * Log levels of tags: linked list, cache interface, lookup

    Source: [components/log/src/log_level/tag_log_level/tag_log_level.c], its
    [linked_list/log_linked_list.c], the interface [cache/log_cache.h] and
    [components/log/src/log_level/log_level.c].  A tag is an address; the text
    found there is a constant of the program, given by the function
    [tag_text].  The two caches are instances of [LogCache] (files [LogHeap]
    and [LogArray]), and the theorems here hold of every instance of its laws.
    [None] is a failed assertion or an access outside the cache array. *)

From stdpp Require Import strings.
From S2P Require Import Prelude EspErr.

Definition ESP_LOG_NONE : Z := 0.
Definition ESP_LOG_MAX : Z := 6.
Definition ESP_LOG_LEVEL_LEN : Z := 3.

(** [esp_log_cache_get_level] returns [None] for a miss. *)
Class LogCache (C : Type) := {
  cache_set_level : (Z -> string) -> Z -> Z -> C -> option C;
  cache_get_level : Z -> C -> option (option Z * C);
  cache_clean : C -> C;
  cache_add : Z -> Z -> C -> option C
}.

(** The search loops of the caches: the first index whose entry satisfies the
    test; [n] is the number of iterations left and [check] the assertion made in
    each of them. *)
Fixpoint find_entry {E : Type} (check : nat -> list E -> bool) (test : E -> bool) (n i : nat) (a : list E)
    : option (option nat) :=
  match n with
  | O => Some None
  | S n =>
      if negb (check i a) then None else
      let? e := a !! i in
      if test e then Some (Some i) else find_entry check test n (S i) a
  end.

(** ** The linked list *)

Fixpoint set_log_level (tag : string) (level : Z) (l : list (string * Z)) : list (string * Z) * bool :=
  match l with
  | [] => ([], false)
  | it :: l' =>
      if bool_decide (it.1 = tag) then ((it.1, u8 level) :: l', true)
      else let '(l'', found) := set_log_level tag level l' in (it :: l'', found)
  end.

Definition add_to_list (tag : string) (level : Z) (malloc_ok : bool)
    (l : list (string * Z)) : list (string * Z) * esp_err_t :=
  if negb malloc_ok then (l, ESP_ERR_NO_MEM) else ((tag, u8 level) :: l, ESP_OK).

Definition esp_log_linked_list_set_level (tag : string) (level : Z) (malloc_ok : bool)
    (l : list (string * Z)) : list (string * Z) * bool :=
  let '(l, found) := set_log_level tag level l in
  if negb found
  then let '(l, err) := add_to_list tag level malloc_ok l in (l, err =? ESP_OK)
  else (l, true).

Fixpoint esp_log_linked_list_get_level (tag : string) (l : list (string * Z)) : option Z :=
  match l with
  | [] => None
  | it :: l' => if bool_decide (tag = it.1) then Some it.2 else esp_log_linked_list_get_level tag l'
  end.

Fixpoint esp_log_linked_list_clean (l : list (string * Z)) : list (string * Z) :=
  match l with [] => [] | _ :: l' => esp_log_linked_list_clean l' end.

(** ** Setting and looking up the level of a tag *)

Record log_state (C : Type) := MkLog {
  esp_log_default_level : Z;
  s_log_tags : list (string * Z);
  s_cache : C
}.
Arguments MkLog {C}.
Arguments esp_log_default_level {C}.
Arguments s_log_tags {C}.
Arguments s_cache {C}.

Section tag_log_level.
Context {C : Type} `{LogCache C}.
Context (CACHE_ENABLED : bool) (tag_text : Z -> string).

Definition log_level_set (tag level : Z) (malloc_ok : bool) (s : log_state C) : option (log_state C) :=
  if tag =? 0 then Some s else
  if bool_decide (tag_text tag = "*") then
    Some (MkLog level (esp_log_linked_list_clean (s_log_tags s))
            (if CACHE_ENABLED then cache_clean (s_cache s) else s_cache s))
  else
    let '(l, success) := esp_log_linked_list_set_level (tag_text tag) level malloc_ok (s_log_tags s) in
    let? c := if CACHE_ENABLED && success then cache_set_level tag_text tag level (s_cache s)
              else Some (s_cache s) in
    Some (MkLog (esp_log_default_level s) l c).

(** What is done under the lock; [level_for_tag] is the default level, read
    before, and [lock_ok] the outcome of [esp_log_impl_lock_timeout]. *)
Definition level_get_locked (level_for_tag tag : Z) (timeout lock_ok : bool) (s : log_state C) : option (Z * log_state C) :=
  if timeout && negb lock_ok then Some (ESP_LOG_NONE, s) else
  if CACHE_ENABLED then
    let? (r, c) := cache_get_level tag (s_cache s) in
    match r with
    | Some level => Some (level, MkLog (esp_log_default_level s) (s_log_tags s) c)
    | None =>
        let level := default level_for_tag (esp_log_linked_list_get_level (tag_text tag) (s_log_tags s)) in
        let? c := cache_add tag level c in
        Some (level, MkLog (esp_log_default_level s) (s_log_tags s) c)
    end
  else Some (default level_for_tag (esp_log_linked_list_get_level (tag_text tag) (s_log_tags s)), s).

(** The call without interruption: no other task sets a level between the
    reading of the default level and the lock. *)
Definition log_level_get (tag : Z) (timeout lock_ok : bool) (s : log_state C) : option (Z * log_state C) :=
  let level_for_tag := esp_log_default_level s in
  if tag =? 0 then Some (level_for_tag, s) else level_get_locked level_for_tag tag timeout lock_ok s.

Definition esp_log_level_set := log_level_set.
Definition esp_log_level_get (tag : Z) := log_level_get tag false true.
Definition esp_log_level_get_timeout (tag : Z) := log_level_get tag true.

(** Whether a message of level [level] is printed. *)
Definition esp_log_is_tag_loggable (level tag : Z) (lock_ok : bool) (s : log_state C) : option (bool * log_state C) :=
  let? (l, s) := esp_log_level_get_timeout tag lock_ok s in
  Some ((l >=? level) && (level >? ESP_LOG_NONE), s).

Inductive log_call :=
  | LevelSet (tag level : Z) (malloc_ok : bool)
  | LevelGet (tag : Z) (timeout lock_ok : bool).

Definition log_step (c : log_call) (s : log_state C) : option (option Z * log_state C) :=
  match c with
  | LevelSet tag level malloc_ok => let? s := esp_log_level_set tag level malloc_ok s in Some (None, s)
  | LevelGet tag timeout lock_ok => let? (r, s) := log_level_get tag timeout lock_ok s in Some (Some r, s)
  end.

Fixpoint log_run (cs : list log_call) (s : log_state C) : option (list (option Z) * log_state C) :=
  match cs with
  | [] => Some ([], s)
  | c :: cs =>
      let? (r, s) := log_step c s in
      let? (rs, s) := log_run cs s in Some (r :: rs, s)
  end.
End tag_log_level.

(** ** The specification: a default level and a map from tag texts to levels *)

Record levels := MkLevels { dflt : Z; by_tag : gmap string Z }.

Definition level_of (t : string) (r : levels) : Z := default (dflt r) (by_tag r !! t).

Section specification.
Context (tag_text : Z -> string).

Definition spec_step (c : log_call) (r : levels) : option Z * levels :=
  match c with
  | LevelSet tag level malloc_ok =>
      (None,
       if tag =? 0 then r else
       if bool_decide (tag_text tag = "*") then MkLevels level ∅ else
       if malloc_ok || bool_decide (is_Some (by_tag r !! tag_text tag))
       then MkLevels (dflt r) (<[tag_text tag := level]> (by_tag r)) else r)
  | LevelGet tag timeout lock_ok =>
      (Some (if tag =? 0 then dflt r else
             if timeout && negb lock_ok then ESP_LOG_NONE else level_of (tag_text tag) r), r)
  end.

Fixpoint spec_run (cs : list log_call) (r : levels) : list (option Z) * levels :=
  match cs with
  | [] => ([], r)
  | c :: cs => let '(x, r) := spec_step c r in let '(xs, r) := spec_run cs r in (x :: xs, r)
  end.

(** The tags that are looked up, and the levels that are set. *)
Definition looked_up (cs : list log_call) : list Z :=
  omap (fun c => match c with LevelGet tag _ _ => Some tag | _ => None end) cs.
Definition call_ok (c : log_call) : Prop :=
  match c with LevelSet _ level _ => 0 <= level < 8 | _ => True end.
Definition texts_unique (tags : list Z) : Prop :=
  forall p q, p ∈ tags -> q ∈ tags -> tag_text p = tag_text q -> p = q.
End specification.

(** ** What a cache promises *)

(** The first entry whose tag reads the same gets the level. *)
Fixpoint relabel (tag_text : Z -> string) (tag level : Z) (l : list (Z * Z)) : list (Z * Z) :=
  match l with
  | [] => []
  | it :: l' => if bool_decide (tag_text it.1 = tag_text tag) then (it.1, level) :: l'
                else it :: relabel tag_text tag level l'
  end.

Class LogCacheLaws (C : Type) `{LogCache C} := {
  cache_ok : C -> Prop;
  cache_entries : C -> list (Z * Z);
  cache_tags_nodup c : cache_ok c -> NoDup (cache_entries c).*1;
  cache_set_law tag_text tag level c :
    cache_ok c -> 0 <= level < 8 ->
    exists c', cache_set_level tag_text tag level c = Some c' /\ cache_ok c' /\
      cache_entries c' = relabel tag_text tag level (cache_entries c);
  cache_get_law tag c :
    cache_ok c ->
    exists r c', cache_get_level tag c = Some (r, c') /\ cache_ok c' /\
      cache_entries c' ≡ₚ cache_entries c /\
      (forall level, r = Some level -> (tag, level) ∈ cache_entries c) /\
      (r = None -> tag ∉ (cache_entries c).*1);
  cache_clean_law c : cache_ok c -> cache_ok (cache_clean c) /\ cache_entries (cache_clean c) = [];
  cache_add_law tag level c :
    cache_ok c -> 0 <= level < 8 -> tag ∉ (cache_entries c).*1 ->
    exists c', cache_add tag level c = Some c' /\ cache_ok c' /\
      (tag, level) ∈ cache_entries c' /\ cache_entries c' ⊆ (tag, level) :: cache_entries c
}.

(** ** The search loops *)

Lemma find_ok {E} check (test : E -> bool) n i a :
  (i + n <= length a)%nat -> (forall k, (i <= k < i + n)%nat -> check k a = true) ->
  exists r, find_entry check test n i a = Some r /\
    match r with
    | Some j => (i <= j < i + n)%nat /\ (exists e, a !! j = Some e /\ test e = true) /\
        (forall k e, (i <= k < j)%nat -> a !! k = Some e -> test e = false)
    | None => forall k e, (i <= k < i + n)%nat -> a !! k = Some e -> test e = false
    end.
Proof.
  revert i. induction n as [|n IH]; intros i Hl Hc; [exists None; split; [done|lia]|].
  cbn [find_entry]. rewrite Hc by lia. cbn [negb].
  destruct (lookup_lt_is_Some_2 a i) as [e He]; [lia|]. rewrite He.
  destruct (test e) eqn:Et.
  - exists (Some i). split; [done|]. split; [lia|]. split; [by exists e|lia].
  - destruct (IH (S i)) as (r & -> & Hr); [lia|intros; apply Hc; lia|]. exists r. split; [done|].
    assert (forall k e', k = i -> a !! k = Some e' -> test e' = false) as Hi by congruence.
    destruct r as [j|].
    + destruct Hr as (H1 & H2 & H3). split; [lia|]. split; [done|].
      intros k e' Hk. destruct (decide (k = i)); [by apply Hi|apply H3; lia].
    + intros k e' Hk. destruct (decide (k = i)); [by apply Hi|apply Hr; lia].
Qed.

(** ** The linked list implements the map *)

Definition list_levels (l : list (string * Z)) : gmap string Z := list_to_map l.

Lemma list_get t l : esp_log_linked_list_get_level t l = list_levels l !! t.
Proof.
  induction l as [|[x v] l IH]; [done|]. cbn.
  case_bool_decide; subst; [by rewrite lookup_insert_eq|by rewrite lookup_insert_ne].
Qed.

Lemma list_clean l : esp_log_linked_list_clean l = [].
Proof. by induction l. Qed.

Lemma u8_id v : 0 <= v < 8 -> u8 v = v.
Proof. intros. apply uN_id. lia. Qed.

Lemma list_set_found t v l :
  0 <= v < 8 ->
  set_log_level t v l =
    (fst (set_log_level t v l), bool_decide (is_Some (list_levels l !! t))) /\
  list_levels (fst (set_log_level t v l)) =
    if bool_decide (is_Some (list_levels l !! t)) then <[t := v]> (list_levels l) else list_levels l.
Proof.
  intros Hv. induction l as [|[x w] l IH]; [done|]. cbn.
  destruct (decide (x = t)) as [->|Hx].
  - rewrite bool_decide_true by done. rewrite u8_id by done. cbn.
    rewrite lookup_insert_eq, bool_decide_true by eauto. by rewrite insert_insert_eq.
  - rewrite bool_decide_false by done. rewrite lookup_insert_ne by done.
    destruct IH as [IH1 IH2]. destruct (set_log_level t v l) as [l' f]. cbn in *.
    injection IH1 as ->. split; [done|]. rewrite IH2.
    destruct (bool_decide _); [|done]. by rewrite insert_insert_ne.
Qed.

Lemma list_set t v malloc_ok l :
  0 <= v < 8 ->
  let stored := malloc_ok || bool_decide (is_Some (list_levels l !! t)) in
  exists l', esp_log_linked_list_set_level t v malloc_ok l = (l', stored) /\
    list_levels l' = if stored then <[t := v]> (list_levels l) else list_levels l.
Proof.
  intros Hv. destruct (list_set_found t v l Hv) as [E1 E2].
  unfold esp_log_linked_list_set_level. destruct (set_log_level t v l) as [l' f].
  cbn in E1, E2. injection E1 as ->. unfold add_to_list.
  destruct (bool_decide _); cbn; [exists l'; by rewrite orb_true_r|].
  destruct malloc_ok; cbn; eexists; split; try done.
  - rewrite u8_id by done. cbn. by rewrite E2.
Qed.

(** ** The cache agrees with the map *)

Lemma relabel_tags tt tag v l : (relabel tt tag v l).*1 = l.*1.
Proof.
  induction l as [|[p w] l IH]; [done|]. cbn.
  destruct (bool_decide _); cbn; [done|by rewrite IH].
Qed.

Lemma relabel_elem tt tag v l p w :
  texts_unique tt l.*1 -> NoDup l.*1 ->
  (p, w) ∈ relabel tt tag v l ->
  (tt p = tt tag /\ w = v) \/ (tt p <> tt tag /\ (p, w) ∈ l).
Proof.
  induction l as [|[q u] l IH]; cbn; intros Hu Hn; [by intros ?%elem_of_nil|].
  apply NoDup_cons in Hn as [Hq Hn].
  case_bool_decide as E; rewrite elem_of_cons; cbn; intros [[= -> ->]|Hp]; [by left| | |].
  - right. split; [|set_solver]. intros E'. apply Hq.
    apply elem_of_fst in Hp. rewrite (Hu q p); [done|set_solver..|congruence].
  - right. split; [done|set_solver].
  - destruct IH as [?|[? ?]]; [|done|done|by left|right; set_solver].
    intros a b Ha Hb. apply Hu; set_solver.
Qed.

Lemma relabel_first tt t l u j e :
  u !! j = Some e -> tt e.1 = tt t ->
  (forall k e', (k < j)%nat -> u !! k = Some e' -> tt e'.1 <> tt t) ->
  relabel tt t l u = alter (fun e : Z * Z => (e.1, l)) j u.
Proof.
  revert j. induction u as [|x u IH]; intros j Hj He Hbefore; [done|].
  destruct j as [|j]; cbn in Hj |- *.
  - injection Hj as ->. by rewrite bool_decide_true.
  - rewrite bool_decide_false by (apply (Hbefore 0%nat); [lia|done]).
    f_equal. apply IH; [done..|]. intros k e' Hk. apply (Hbefore (S k)). lia.
Qed.

Lemma relabel_none tt t l u : (forall e, e ∈ u -> tt e.1 <> tt t) -> relabel tt t l u = u.
Proof.
  induction u as [|x u IH]; intros Hu; [done|]. cbn.
  rewrite bool_decide_false by (apply Hu; by left). f_equal. apply IH. intros. apply Hu. by right.
Qed.

Section coherence.
Context {C : Type} `{LogCacheLaws C}.
Context (tag_text : Z -> string) (tags : list Z).
Hypothesis Huniq : texts_unique tag_text tags.

Record coherent (r : levels) (s : log_state C) : Prop := MkCoherent {
  co_cache : cache_ok (s_cache s);
  co_default : esp_log_default_level s = dflt r;
  co_list : list_levels (s_log_tags s) = by_tag r;
  co_tags : (cache_entries (s_cache s)).*1 ⊆ tags;
  co_entries p v : (p, v) ∈ cache_entries (s_cache s) -> v = level_of (tag_text p) r;
  co_dflt : 0 <= dflt r < 8;
  co_range : map_Forall (fun _ v => 0 <= v < 8) (by_tag r)
}.

Lemma coherent_range r s t : coherent r s -> 0 <= level_of t r < 8.
Proof.
  intros [_ _ _ _ _ Hd Hm]. unfold level_of.
  destruct (by_tag r !! t) eqn:E; [by apply (Hm _ _ E)|done].
Qed.

Lemma coherent_set r s tag level malloc_ok :
  coherent r s -> 0 <= level < 8 ->
  exists s', log_level_set true tag_text tag level malloc_ok s = Some s' /\
    coherent (snd (spec_step tag_text (LevelSet tag level malloc_ok) r)) s'.
Proof.
  intros [Hc Hd Hl Ht Hv Hr Hm] Hlev. unfold log_level_set. cbn.
  destruct (tag =? 0); [eexists; done|].
  destruct (bool_decide (tag_text tag = "*")).
  - destruct (cache_clean_law _ Hc) as [Hc' E]. eexists. split; [done|].
    split; cbn; rewrite ?list_clean, ?E; try done; [by apply list_subseteq_nil|].
    by intros ? ? ?%elem_of_nil.
  - destruct (list_set (tag_text tag) level malloc_ok (s_log_tags s) Hlev) as (l' & -> & El).
    rewrite Hl in El |- *. destruct (malloc_ok || _).
    + destruct (cache_set_law tag_text tag level _ Hc Hlev) as (c' & -> & Hc' & Ec).
      eexists. split; [done|]. split; cbn; try done.
      * by rewrite Ec, relabel_tags.
      * intros p v Hp. rewrite Ec in Hp. apply relabel_elem in Hp.
        -- unfold level_of. cbn. destruct Hp as [[-> ->]|[Hne Hp]].
           ++ by rewrite lookup_insert_eq.
           ++ rewrite lookup_insert_ne by done. by apply Hv.
        -- intros a b Ha Hb. apply Huniq; by apply Ht.
        -- by apply cache_tags_nodup.
      * by apply map_Forall_insert_2.
    + eexists. split; [done|]. by split.
Qed.

Lemma coherent_get r s tag timeout lock_ok :
  coherent r s -> (tag ∈ tags) ->
  exists v s', log_level_get true tag_text tag timeout lock_ok s = Some (v, s') /\
    Some v = fst (spec_step tag_text (LevelGet tag timeout lock_ok) r) /\ coherent r s'.
Proof.
  intros Hco Htag. pose proof Hco as [Hc Hd Hl Ht Hv Hr Hm]. unfold log_level_get, level_get_locked. cbn.
  destruct (tag =? 0); [by rewrite Hd; eauto|].
  destruct (timeout && negb lock_ok); [by eauto|].
  destruct (cache_get_law tag _ Hc) as (o & c' & -> & Hc' & Ep & Ho1 & Ho2).
  destruct o as [v|].
  - eexists _, _. split; [done|]. split; [by f_equal; apply Hv, Ho1|].
    split; cbn; try done; setoid_rewrite Ep; done.
  - rewrite list_get, Hd, Hl.
    destruct (cache_add_law tag (level_of (tag_text tag) r) c') as (c'' & Ea & Hc'' & _ & Hsub).
    { done. }
    { by eapply coherent_range. }
    { rewrite Ep. by apply Ho2. }
    unfold level_of in Ea at 1. rewrite Ea. eexists _, _. split; [done|]. split; [done|].
    split; cbn; try done.
    + intros p [v Hp]%fst_elem_of. apply Hsub in Hp. apply elem_of_cons in Hp as [[= -> ->]|Hp]; [done|].
      rewrite Ep in Hp. by eapply Ht, elem_of_fst.
    + intros p v Hp. apply Hsub in Hp. apply elem_of_cons in Hp as [[= -> ->]|Hp]; [done|].
      rewrite Ep in Hp. by apply Hv.
Qed.

Lemma coherent_run cs r s :
  coherent r s -> Forall call_ok cs -> looked_up cs ⊆ tags ->
  exists s', log_run true tag_text cs s = Some (fst (spec_run tag_text cs r), s') /\
    coherent (snd (spec_run tag_text cs r)) s'.
Proof.
  revert r s. induction cs as [|c cs IH]; intros r s Hs Hok Hl; [by eexists|].
  apply Forall_cons in Hok as [Hc Hok]. cbn [log_run spec_run].
  destruct c as [tag level mo|tag tmo lo]; cbn [log_step].
  - destruct (coherent_set r s tag level mo Hs Hc) as (s1 & E & Hs1).
    unfold esp_log_level_set. rewrite E.
    destruct (IH _ s1 Hs1 Hok Hl) as (s2 & E2 & Hs2).
    cbn [spec_step fst snd] in *. rewrite E2. destruct (spec_run _ cs _). eexists. done.
  - destruct (coherent_get r s tag tmo lo Hs) as (v & s1 & E & Ev & Hs1); [set_solver|].
    rewrite E. destruct (IH r s1 Hs1 Hok) as (s2 & E2 & Hs2); [set_solver|].
    rewrite E2. cbn [spec_step fst snd] in *. destruct (spec_run _ cs _).
    eexists. by rewrite Ev.
Qed.

End coherence.
