(* ===== verification/LogHeap.v ===== *)
(** * The log-level cache as a binary min-heap

    Source: [components/log/src/log_level/tag_log_level/cache/log_binary_heap.c].
    The array is a list of [TAG_CACHE_SIZE] entries; the heap orders the
    entries by generation.  The consistency checks of a debug build are part
    of the model: a failed one, like an access outside the array, is [None].
    The file proves the laws of [LogCache] and that the cache evicts the tag
    whose last lookup is the oldest. *)

From Stdlib Require Import Zify ZifyNat.
From stdpp Require Import strings sorting.
From S2P Require Import Prelude LogLevel.

#[local] Ltac Zify.zify_post_hook ::= Z.to_euclidean_division_equations.

Definition MAX_GENERATION : Z := Z.shiftl 1 (32 - ESP_LOG_LEVEL_LEN) - 1.

Record cached_tag_entry_t := MkEntry { tag : Z; level : Z; generation : Z }.

Record heap_cache := MkHeap {
  s_log_cache : list cached_tag_entry_t;
  s_log_cache_max_generation : Z;
  s_log_cache_entry_count : nat;
  s_log_cache_misses : Z
}.

(** Stores to the bit fields [level] and [generation]. *)
Definition entry_of (tag level generation : Z) : cached_tag_entry_t :=
  MkEntry tag (uN ESP_LOG_LEVEL_LEN level) (uN (32 - ESP_LOG_LEVEL_LEN) generation).
Definition with_level (l : Z) (e : cached_tag_entry_t) := MkEntry (tag e) (uN ESP_LOG_LEVEL_LEN l) (generation e).
Definition with_generation (g : Z) (e : cached_tag_entry_t) :=
  MkEntry (tag e) (level e) (uN (32 - ESP_LOG_LEVEL_LEN) g).

Section heap.
Context (TAG_CACHE_SIZE : nat).

Definition heap_swap (i j : nat) (a : list cached_tag_entry_t) : option (list cached_tag_entry_t) :=
  let? tmp := a !! i in
  let? e := a !! j in
  Some (<[j := tmp]> (<[i := e]> a)).

(** The index at least doubles: [fuel] need not exceed [TAG_CACHE_SIZE - index]. *)
Fixpoint heap_bubble_down (fuel index : nat) (a : list cached_tag_entry_t) : option (list cached_tag_entry_t) :=
  if (index <? TAG_CACHE_SIZE / 2)%nat then
    match fuel with
    | O => None
    | S fuel =>
        let left_index := (index * 2 + 1)%nat in
        let right_index := (left_index + 1)%nat in
        let? l := a !! left_index in
        let? r := a !! right_index in
        let next := if generation l <? generation r then left_index else right_index in
        let? a := heap_swap index next a in
        heap_bubble_down fuel next a
    end
  else Some a.

(** [for (i = 0; i < entry_count; ++i) s_log_cache[i].generation = i] *)
Fixpoint renumber (n i : nat) (a : list cached_tag_entry_t) : list cached_tag_entry_t :=
  match n with
  | O => a
  | S n => renumber n (S i) (alter (with_generation (Z.of_nat i)) i a)
  end.

Definition fix_cache_generation_overflow (c : heap_cache) : heap_cache :=
  MkHeap (renumber (s_log_cache_entry_count c) 0 (s_log_cache c))
    (Z.of_nat (s_log_cache_entry_count c)) (s_log_cache_entry_count c) (s_log_cache_misses c).

Definition check_generation_wrap (c : heap_cache) : heap_cache :=
  if s_log_cache_max_generation c =? MAX_GENERATION then fix_cache_generation_overflow c else c.

(** [assert(i == 0 || s_log_cache[(i - 1) / 2].generation < s_log_cache[i].generation)] *)
Definition check_order (i : nat) (a : list cached_tag_entry_t) : bool :=
  (i =? 0)%nat ||
  match a !! ((i - 1) / 2)%nat, a !! i with
  | Some p, Some e => generation p <? generation e
  | _, _ => false
  end.

Definition esp_log_cache_set_level (tag_text : Z -> string) (t l : Z) (c : heap_cache) : option heap_cache :=
  let? r := find_entry check_order (fun e => bool_decide (tag_text (tag e) = tag_text t))
              (s_log_cache_entry_count c) 0 (s_log_cache c) in
  match r with
  | Some i => Some (MkHeap (alter (with_level l) i (s_log_cache c)) (s_log_cache_max_generation c)
                      (s_log_cache_entry_count c) (s_log_cache_misses c))
  | None => Some c
  end.

Definition esp_log_cache_get_level (t : Z) (c : heap_cache) : option (option Z * heap_cache) :=
  let? r := find_entry check_order (fun e => tag e =? t) (s_log_cache_entry_count c) 0 (s_log_cache c) in
  match r with
  | None => Some (None, MkHeap (s_log_cache c) (s_log_cache_max_generation c)
                          (s_log_cache_entry_count c) (u32 (s_log_cache_misses c + 1)))
  | Some i =>
      let? e := s_log_cache c !! i in
      if (s_log_cache_entry_count c =? TAG_CACHE_SIZE)%nat then
        let a := alter (with_generation (s_log_cache_max_generation c)) i (s_log_cache c) in
        let? a := heap_bubble_down TAG_CACHE_SIZE i a in
        Some (Some (level e),
              check_generation_wrap
                (MkHeap a (u32 (s_log_cache_max_generation c + 1)) (s_log_cache_entry_count c)
                   (s_log_cache_misses c)))
      else Some (Some (level e), c)
  end.

Definition esp_log_cache_clean (c : heap_cache) : heap_cache := MkHeap (s_log_cache c) 0 0 0.

Definition esp_log_cache_add (t l : Z) (c : heap_cache) : option heap_cache :=
  let generation := s_log_cache_max_generation c in
  let max_generation := u32 (generation + 1) in
  let n := s_log_cache_entry_count c in
  let? c :=
    if (n <? TAG_CACHE_SIZE)%nat then
      Some (MkHeap (<[n := entry_of t l generation]> (s_log_cache c)) max_generation (S n) (s_log_cache_misses c))
    else
      let? a := heap_bubble_down TAG_CACHE_SIZE 0 (<[0%nat := entry_of t l generation]> (s_log_cache c)) in
      Some (MkHeap a max_generation n (s_log_cache_misses c)) in
  Some (check_generation_wrap c).

(** What [log_level_get] does with the cache, [l] being the level of the linked list. *)
Definition cache_lookup (t l : Z) (c : heap_cache) : option heap_cache :=
  let? (r, c) := esp_log_cache_get_level t c in
  match r with Some _ => Some c | None => esp_log_cache_add t l c end.

Fixpoint cache_lookups (ts : list (Z * Z)) (c : heap_cache) : option heap_cache :=
  match ts with [] => Some c | (t, l) :: ts => let? c := cache_lookup t l c in cache_lookups ts c end.

(** The zero-initialised cache. *)
Definition empty_heap : heap_cache :=
  MkHeap (replicate TAG_CACHE_SIZE (MkEntry 0 0 0)) 0 0 0.

#[export] Instance heap_log_cache : LogCache heap_cache := {
  cache_set_level := esp_log_cache_set_level;
  cache_get_level := esp_log_cache_get_level;
  cache_clean := esp_log_cache_clean;
  cache_add := esp_log_cache_add
}.

(** ** The heap order *)

(** The entries in use. *)
Definition used (c : heap_cache) : list cached_tag_entry_t :=
  take (s_log_cache_entry_count c) (s_log_cache c).

Definition gen_at (a : list cached_tag_entry_t) (i : nat) : Z := default 0 (generation <$> a !! i).

(** Every entry below [n] whose parent is not [x] is above its parent. *)
Definition ordered_but (x n : nat) (a : list cached_tag_entry_t) : Prop :=
  forall i, (0 < i < n)%nat -> ((i - 1) / 2)%nat <> x -> gen_at a ((i - 1) / 2) < gen_at a i.
Definition ordered (n : nat) (a : list cached_tag_entry_t) : Prop :=
  forall i, (0 < i < n)%nat -> gen_at a ((i - 1) / 2) < gen_at a i.

Record heap_inv (bound : Z) (c : heap_cache) : Prop := MkHeapInv {
  ho_length : length (s_log_cache c) = TAG_CACHE_SIZE;
  ho_count : (s_log_cache_entry_count c <= TAG_CACHE_SIZE)%nat;
  ho_max : 0 <= s_log_cache_max_generation c < bound;
  ho_tags : NoDup (tag <$> used c);
  ho_gens : NoDup (generation <$> used c);
  ho_below e : e ∈ used c -> 0 <= generation e < s_log_cache_max_generation c;
  ho_levels e : e ∈ used c -> 0 <= level e < 8;
  ho_order : ordered (s_log_cache_entry_count c) (s_log_cache c)
}.
Definition heap_ok : heap_cache -> Prop := heap_inv MAX_GENERATION.

Definition entries_of (a : list cached_tag_entry_t) : list (Z * Z) := (fun e => (tag e, level e)) <$> a.

Context (Hodd : Nat.odd TAG_CACHE_SIZE = true).

Lemma size_odd : exists k, TAG_CACHE_SIZE = (2 * k + 1)%nat.
Proof. apply Nat.odd_spec in Hodd as [k ->]. by exists k. Qed.

Lemma swap_ok x y a :
  (x < length a)%nat -> (y < length a)%nat -> x <> y ->
  exists a', heap_swap x y a = Some a' /\ a' ≡ₚ a /\
    forall i, a' !! i = if decide (i = y) then a !! x else if decide (i = x) then a !! y else a !! i.
Proof.
  intros [ex Hx]%lookup_lt_is_Some [ey Hy]%lookup_lt_is_Some Hne.
  pose proof (lookup_lt_Some _ _ _ Hx). pose proof (lookup_lt_Some _ _ _ Hy).
  unfold heap_swap. rewrite Hx, Hy. eexists. split; [done|].
  assert (forall i, <[y := ex]> (<[x := ey]> a) !! i =
      if decide (i = y) then a !! x else if decide (i = x) then a !! y else a !! i) as Hl.
  { intros i. destruct (decide (i = y)) as [->|].
    - by rewrite list_lookup_insert_eq, Hx by (rewrite length_insert; lia).
    - rewrite list_lookup_insert_ne by done. destruct (decide (i = x)) as [->|].
      + by rewrite list_lookup_insert_eq, Hy by lia.
      + by rewrite list_lookup_insert_ne by done. }
  split; [by apply Permutation_insert_swap|by intros i; rewrite Hl, ?Hx, ?Hy].
Qed.

Lemma gen_at_elem a i e : a !! i = Some e -> gen_at a i = generation e.
Proof. intros E. unfold gen_at. by rewrite E. Qed.

Lemma gen_at_inj a i j :
  NoDup (generation <$> a) -> (i < length a)%nat -> (j < length a)%nat ->
  gen_at a i = gen_at a j -> i = j.
Proof.
  intros Hn [ei Hi]%lookup_lt_is_Some [ej Hj]%lookup_lt_is_Some E.
  rewrite (gen_at_elem _ _ _ Hi), (gen_at_elem _ _ _ Hj) in E.
  apply (NoDup_lookup (generation <$> a) i j (generation ei)); [done|..];
    rewrite list_lookup_fmap; [by rewrite Hi|by rewrite Hj, E].
Qed.

(** The hole [x] of the order holds the largest generation and [x]'s parent is
    below the children of [x]. *)
Record hole (x : nat) (a : list cached_tag_entry_t) : Prop := MkHole {
  hole_order : ordered_but x TAG_CACHE_SIZE a;
  hole_parent i : (0 < i < TAG_CACHE_SIZE)%nat -> ((i - 1) / 2)%nat = x -> (0 < x)%nat ->
    gen_at a ((x - 1) / 2) < gen_at a i;
  hole_max i : (i < TAG_CACHE_SIZE)%nat -> i <> x -> gen_at a i < gen_at a x
}.

Lemma hole_down x y a a1 :
  hole x a -> (y < TAG_CACHE_SIZE)%nat -> ((y - 1) / 2)%nat = x -> (x < y)%nat ->
  (forall i, (0 < i < TAG_CACHE_SIZE)%nat -> ((i - 1) / 2)%nat = x -> i <> y -> gen_at a y < gen_at a i) ->
  (forall i, gen_at a1 i = if decide (i = y) then gen_at a x
             else if decide (i = x) then gen_at a y else gen_at a i) ->
  hole y a1.
Proof.
  intros [Hb Hp Hm] Hy Hyx Hlt Hmin Hg.
  split; intros i Hi Hpi; rewrite !Hg.
  - rewrite decide_False by done. destruct (decide (i = y)) as [Ei|Hiy].
    + rewrite decide_True by lia. apply Hm; lia.
    + destruct (decide ((i - 1) / 2 = x)%nat) as [Ep|Hpx].
      * rewrite decide_False by lia. apply Hmin; lia.
      * destruct (decide (i = x)) as [Ei|]; [|by apply Hb].
        rewrite Ei. apply Hp; lia.
  - intros Hpos. rewrite Hyx, decide_False, decide_True, decide_False, decide_False by lia.
    rewrite <- Hpi. apply Hb; lia.
  - destruct (decide (i = y)); [done|]. destruct (decide (y = y)); [|done].
    destruct (decide (i = x)); apply Hm; lia.
Qed.

Lemma bubble_ok fuel x a :
  length a = TAG_CACHE_SIZE -> (x < TAG_CACHE_SIZE)%nat -> (TAG_CACHE_SIZE <= x + fuel)%nat ->
  hole x a -> NoDup (generation <$> a) ->
  exists a', heap_bubble_down fuel x a = Some a' /\ a' ≡ₚ a /\ ordered TAG_CACHE_SIZE a'.
Proof.
  destruct size_odd as [k Hk].
  revert x a. induction fuel as [|fuel IH]; intros x a Hlen Hx Hf Hh Hn; [lia|].
  cbn [heap_bubble_down]. destruct (Nat.ltb_spec x (TAG_CACHE_SIZE / 2)) as [Hlt|Hge].
  - destruct (lookup_lt_is_Some_2 a (x * 2 + 1)) as [l Hl]; [lia|].
    destruct (lookup_lt_is_Some_2 a (x * 2 + 1 + 1)) as [r Hr]; [lia|].
    rewrite Hl, Hr.
    set (y := if generation l <? generation r then (x * 2 + 1)%nat else (x * 2 + 1 + 1)%nat).
    assert (Hy : (y < TAG_CACHE_SIZE)%nat /\ ((y - 1) / 2)%nat = x /\ x <> y /\ (x < y)%nat)
      by (unfold y; destruct (_ <? _); lia).
    assert (Hmin : forall i, (0 < i < TAG_CACHE_SIZE)%nat -> ((i - 1) / 2)%nat = x -> i <> y ->
        gen_at a y < gen_at a i).
    { intros i Hi Hpi Hiy.
      assert (gen_at a (x * 2 + 1) <> gen_at a (x * 2 + 1 + 1)).
      { intros E. apply gen_at_inj in E; [lia|done|lia..]. }
      pose proof (gen_at_elem _ _ _ Hl). pose proof (gen_at_elem _ _ _ Hr).
      unfold y in *. destruct (Z.ltb_spec (generation l) (generation r)).
      - replace i with (x * 2 + 1 + 1)%nat by lia. lia.
      - replace i with (x * 2 + 1)%nat by lia. lia. }
    clearbody y.
    destruct (swap_ok x y a) as (a1 & -> & Hp1 & Hl1); [lia..|].
    assert (Hg : forall i, gen_at a1 i = if decide (i = y) then gen_at a x
                  else if decide (i = x) then gen_at a y else gen_at a i)
      by (intros i; unfold gen_at; rewrite Hl1; repeat case_decide; done).
    destruct (IH y a1) as (a2 & E2 & Hp2 & Ho).
    + by rewrite Hp1.
    + lia.
    + lia.
    + apply (hole_down x y a); try done; lia.
    + by rewrite Hp1.
    + exists a2. split; [done|]. split; [by rewrite Hp2|done].
  - eexists. split; [done|]. split; [done|]. intros i Hi. apply (hole_order _ _ Hh); lia.
Qed.

(** ** The search *)

Lemma gen_at_take n a i : (i < n)%nat -> gen_at (take n a) i = gen_at a i.
Proof. intros. unfold gen_at. by rewrite lookup_take_lt. Qed.

Lemma check_order_ok n a i :
  (n <= length a)%nat -> ordered n a -> (i < n)%nat -> check_order i a = true.
Proof.
  intros Hn Ho Hi. unfold check_order. destruct (Nat.eqb_spec i 0) as [|Hi0]; [done|]. cbn [orb].
  assert (0 < i < n)%nat as Hr by lia. specialize (Ho i Hr).
  destruct (lookup_lt_is_Some_2 a i) as [e He]; [lia|].
  destruct (lookup_lt_is_Some_2 a ((i - 1) / 2)) as [p Hp]; [lia|].
  rewrite (gen_at_elem _ _ _ He), (gen_at_elem _ _ _ Hp) in Ho. rewrite He, Hp. by apply Z.ltb_lt.
Qed.

(** ** Renumbering after a generation overflow *)

Context (Hsize : Z.of_nat TAG_CACHE_SIZE < MAX_GENERATION).

Lemma renumber_lookup n i a k :
  renumber n i a !! k =
    if decide (i <= k < i + n)%nat then with_generation (Z.of_nat k) <$> a !! k else a !! k.
Proof.
  revert i a. induction n as [|n IH]; intros i a; cbn.
  - rewrite decide_False by lia. done.
  - rewrite IH. destruct (decide (k = i)) as [->|Hne].
    + rewrite decide_False, list_lookup_alter_eq, decide_True by lia. done.
    + rewrite list_lookup_alter_ne by done.
      destruct (decide (S i <= k < S i + n)%nat), (decide (i <= k < i + S n)%nat); done || lia.
Qed.

Lemma length_renumber n i a : length (renumber n i a) = length a.
Proof. revert i a. induction n as [|n IH]; intros; cbn; [done|by rewrite IH, length_alter]. Qed.

Lemma generation_id g e : 0 <= g <= MAX_GENERATION -> generation (with_generation g e) = g.
Proof. intros. apply uN_id. unfold ESP_LOG_LEVEL_LEN. change MAX_GENERATION with 536870911 in *. lia. Qed.

Lemma heap_used_lookup c i : used c !! i = if decide (i < s_log_cache_entry_count c)%nat then s_log_cache c !! i else None.
Proof. unfold used. case_decide; [by rewrite lookup_take_lt|by rewrite lookup_take_ge by lia]. Qed.

Lemma fix_used c i :
  used (fix_cache_generation_overflow c) !! i = with_generation (Z.of_nat i) <$> used c !! i.
Proof.
  rewrite !heap_used_lookup. cbn. destruct (decide _); [|done].
  rewrite renumber_lookup, decide_True by lia. done.
Qed.

Lemma fix_entries c : entries_of (used (fix_cache_generation_overflow c)) = entries_of (used c).
Proof.
  apply list_eq. intros i. unfold entries_of. rewrite !list_lookup_fmap, fix_used.
  by destruct (used c !! i).
Qed.

Lemma entries_tags a : (entries_of a).*1 = tag <$> a.
Proof. unfold entries_of. rewrite <- list_fmap_compose. done. Qed.

Lemma fix_ok c b : heap_inv b c -> heap_ok (fix_cache_generation_overflow c).
Proof.
  intros [Hl Hc Hm Ht Hg Hb Hv Ho].
  assert (forall i e, used (fix_cache_generation_overflow c) !! i = Some e ->
    (i < s_log_cache_entry_count c)%nat /\ generation e = Z.of_nat i /\
    exists e', used c !! i = Some e' /\ level e = level e') as Hu.
  { intros i e. rewrite fix_used. destruct (used c !! i) as [e'|] eqn:E; [|done].
    intros [= <-]. pose proof E as Hi. rewrite heap_used_lookup in Hi. destruct (decide _); [|done].
    split; [done|]. split; [apply generation_id; lia|]. by exists e'. }
  split; cbn [fix_cache_generation_overflow s_log_cache s_log_cache_max_generation s_log_cache_entry_count]; try done.
  - by rewrite length_renumber.
  - lia.
  - by rewrite <- entries_tags, fix_entries, entries_tags.
  - apply NoDup_alt. intros i j x. rewrite !list_lookup_fmap.
    destruct (_ !! i) as [ei|] eqn:Ei; [|done]. destruct (_ !! j) as [ej|] eqn:Ej; [|done].
    apply Hu in Ei as (_ & Ei & _). apply Hu in Ej as (_ & Ej & _). cbn. intros [= <-] [=]. lia.
  - intros e (i & Hi)%list_elem_of_lookup. apply Hu in Hi as (? & ? & _). lia.
  - intros e (i & Hi)%list_elem_of_lookup. apply Hu in Hi as (_ & _ & e' & He & ->).
    apply Hv. by eapply list_elem_of_lookup_2.
  - assert (forall k, (k < s_log_cache_entry_count c)%nat ->
      gen_at (renumber (s_log_cache_entry_count c) 0 (s_log_cache c)) k = Z.of_nat k) as Hk.
    { intros k Hk. rewrite <- (gen_at_take (s_log_cache_entry_count c)) by done.
      destruct (lookup_lt_is_Some_2 (used (fix_cache_generation_overflow c)) k) as [e He].
      - unfold used. cbn. rewrite length_take, length_renumber. lia.
      - pose proof He as (_ & <- & _)%Hu. apply gen_at_elem, He. }
    intros i Hi. rewrite !Hk by lia. lia.
Qed.

Lemma check_wrap_ok c :
  heap_inv (MAX_GENERATION + 1) c ->
  heap_ok (check_generation_wrap c) /\ entries_of (used (check_generation_wrap c)) = entries_of (used c).
Proof.
  intros Hc. unfold check_generation_wrap. destruct (Z.eqb_spec (s_log_cache_max_generation c) MAX_GENERATION).
  - split; [by eapply fix_ok|apply fix_entries].
  - split; [|done]. destruct Hc. split; try done. lia.
Qed.

(** ** Renewing an entry of a full cache *)

Lemma used_full c : length (s_log_cache c) = s_log_cache_entry_count c -> used c = s_log_cache c.
Proof. intros E. unfold used. apply take_ge. lia. Qed.

Lemma renew_ok c j e :
  heap_ok c -> s_log_cache_entry_count c = TAG_CACHE_SIZE -> (j < TAG_CACHE_SIZE)%nat ->
  generation e = s_log_cache_max_generation c -> 0 <= level e < 8 ->
  NoDup (tag <$> <[j := e]> (s_log_cache c)) ->
  exists a, heap_bubble_down TAG_CACHE_SIZE j (<[j := e]> (s_log_cache c)) = Some a /\
    a ≡ₚ <[j := e]> (s_log_cache c) /\
    heap_inv (MAX_GENERATION + 1)
      (MkHeap a (u32 (s_log_cache_max_generation c + 1)) (s_log_cache_entry_count c) (s_log_cache_misses c)).
Proof.
  intros [Hl Hc Hm _ Hg Hb Hv Ho] Hfull Hj He Hlev Ht.
  rewrite used_full in Hg, Hb, Hv by lia.
  assert (Hall : forall x, x ∈ <[j := e]> (s_log_cache c) -> x = e \/ x ∈ s_log_cache c)
    by (intros x; apply elem_of_insert_inv).
  assert (Hgens : NoDup (generation <$> <[j := e]> (s_log_cache c))).
  { rewrite list_fmap_insert. apply NoDup_insert_list; [done|].
    intros (x & Ex & Hx)%list_elem_of_fmap. specialize (Hb x Hx). lia. }
  assert (Hgi : forall i, i <> j -> gen_at (<[j := e]> (s_log_cache c)) i = gen_at (s_log_cache c) i)
    by (intros; unfold gen_at; by rewrite list_lookup_insert_ne).
  assert (Hgj : gen_at (<[j := e]> (s_log_cache c)) j = s_log_cache_max_generation c)
    by (unfold gen_at; rewrite list_lookup_insert_eq by lia; done).
  assert (Hlt : forall i, (i < TAG_CACHE_SIZE)%nat -> gen_at (s_log_cache c) i < s_log_cache_max_generation c).
  { intros i Hi. destruct (lookup_lt_is_Some_2 (s_log_cache c) i) as [x Hx]; [lia|].
    rewrite (gen_at_elem _ _ _ Hx). by apply Hb, (list_elem_of_lookup_2 _ i). }
  rewrite Hfull in Ho.
  destruct (bubble_ok TAG_CACHE_SIZE j (<[j := e]> (s_log_cache c))) as (a & Ea & Hp & Ho').
  - by rewrite length_insert.
  - done.
  - lia.
  - split.
    + intros i Hi Hpi. rewrite (Hgi _ Hpi). destruct (decide (i = j)) as [->|Hij].
      * rewrite Hgj. apply Hlt. lia.
      * rewrite Hgi by done. by apply Ho.
    + intros i Hi Hpi Hpos. rewrite !Hgi by lia. pose proof (Ho i Hi) as Hoi. rewrite Hpi in Hoi.
      assert (0 < j < TAG_CACHE_SIZE)%nat as Hjr by lia. pose proof (Ho j Hjr). lia.
    + intros i Hi Hij. rewrite Hgi, Hgj by done. by apply Hlt.
  - done.
  - exists a. split; [done|]. split; [done|].
    assert (u32 (s_log_cache_max_generation c + 1) = s_log_cache_max_generation c + 1) as Eu
      by (apply u32_id; change MAX_GENERATION with 536870911 in *; lia).
    pose proof (Permutation_length Hp) as Hpl. rewrite length_insert in Hpl.
    split; cbn [s_log_cache s_log_cache_max_generation s_log_cache_entry_count]; rewrite ?Eu;
      rewrite ?used_full by (cbn; lia); cbn [s_log_cache].
    + lia.
    + lia.
    + lia.
    + by rewrite Hp.
    + by rewrite Hp.
    + intros x Hx. rewrite Hp in Hx. apply Hall in Hx as [->|Hx]; [lia|]. specialize (Hb x Hx). lia.
    + intros x Hx. rewrite Hp in Hx. apply Hall in Hx as [->|Hx]; [done|]. by apply Hv.
    + by rewrite Hfull.
Qed.

(** ** The laws of the interface *)

Lemma used_elem c j e :
  s_log_cache c !! j = Some e -> (j < s_log_cache_entry_count c)%nat -> used c !! j = Some e.
Proof. intros. by rewrite heap_used_lookup, decide_True. Qed.

Lemma find_tag c t :
  heap_ok c ->
  exists r, find_entry check_order (fun e => tag e =? t) (s_log_cache_entry_count c) 0 (s_log_cache c) = Some r /\
    match r with
    | Some j => (j < s_log_cache_entry_count c)%nat /\
        exists e, s_log_cache c !! j = Some e /\ tag e = t /\ 0 <= level e < 8
    | None => t ∉ tag <$> used c
    end.
Proof.
  intros [Hl Hc _ _ _ _ Hv Ho].
  destruct (find_ok check_order (fun e => tag e =? t) (s_log_cache_entry_count c) 0 (s_log_cache c))
    as (r & E & Hr); [lia|intros; apply (check_order_ok (s_log_cache_entry_count c)); [lia|done|lia]|]. exists r. split; [done|]. destruct r as [j|].
  - destruct Hr as (Hj & (e & He & Et) & _). split; [lia|]. exists e.
    split; [done|]. split; [by apply Z.eqb_eq|]. apply Hv.
    apply (list_elem_of_lookup_2 _ j), used_elem; [done|lia].
  - intros (e & -> & (k & Hk)%list_elem_of_lookup)%list_elem_of_fmap.
    rewrite heap_used_lookup in Hk. destruct (decide _); [|done].
    assert ((tag e =? tag e) = false) as Ef by (apply (Hr k); [lia|done]).
    by rewrite Z.eqb_refl in Ef.
Qed.

Lemma insert_same_tag (a : list cached_tag_entry_t) j e e' :
  a !! j = Some e -> tag e' = tag e -> tag <$> <[j := e']> a = tag <$> a.
Proof.
  intros E Et. rewrite list_fmap_insert, Et. apply list_insert_id. by rewrite list_lookup_fmap, E.
Qed.

Lemma renew_hit c j e :
  heap_ok c -> s_log_cache_entry_count c = TAG_CACHE_SIZE -> s_log_cache c !! j = Some e ->
  0 <= level e < 8 ->
  let e' := with_generation (s_log_cache_max_generation c) e in
  exists a, heap_bubble_down TAG_CACHE_SIZE j
      (alter (with_generation (s_log_cache_max_generation c)) j (s_log_cache c)) = Some a /\
    a ≡ₚ <[j := e']> (s_log_cache c) /\
    heap_inv (MAX_GENERATION + 1)
      (MkHeap a (u32 (s_log_cache_max_generation c + 1)) (s_log_cache_entry_count c) (s_log_cache_misses c)).
Proof.
  intros Hok Hfull Ej Hlev e'. rewrite (alter_insert _ _ _ _ Ej). pose proof Hok as [Hl _ Hm Ht _ _ _ _].
  apply renew_ok; try done.
  - apply lookup_lt_Some in Ej. lia.
  - apply generation_id. lia.
  - rewrite used_full in Ht by lia. by rewrite (insert_same_tag _ _ e).
Qed.

Lemma entry_of_level t l g : 0 <= l < 8 -> level (entry_of t l g) = l.
Proof. intros. apply (uN_id 3). lia. Qed.

Lemma renew_oldest c t l :
  heap_ok c -> s_log_cache_entry_count c = TAG_CACHE_SIZE -> t ∉ tag <$> used c -> 0 <= l < 8 ->
  let e := entry_of t l (s_log_cache_max_generation c) in
  exists a, heap_bubble_down TAG_CACHE_SIZE 0 (<[0%nat := e]> (s_log_cache c)) = Some a /\
    a ≡ₚ <[0%nat := e]> (s_log_cache c) /\
    heap_inv (MAX_GENERATION + 1)
      (MkHeap a (u32 (s_log_cache_max_generation c + 1)) (s_log_cache_entry_count c) (s_log_cache_misses c)).
Proof.
  intros Hok Hfull Hin Hlev e. pose proof Hok as [Hl _ Hm Ht _ _ _ _]. destruct size_odd as [k Hk].
  apply renew_ok; try done.
  - lia.
  - apply (generation_id _ (MkEntry t l 0)). lia.
  - unfold e. by rewrite entry_of_level.
  - rewrite used_full in Ht, Hin by lia. rewrite list_fmap_insert. by apply NoDup_insert_list.
Qed.

Lemma renew_entries c a j e e0 m :
  heap_ok c -> s_log_cache_entry_count c = TAG_CACHE_SIZE ->
  s_log_cache c !! j = Some e0 -> tag e = tag e0 -> level e = level e0 ->
  a ≡ₚ <[j := e]> (s_log_cache c) ->
  entries_of (used (MkHeap a m (s_log_cache_entry_count c) (s_log_cache_misses c))) ≡ₚ entries_of (used c).
Proof.
  intros [Hl _ _ _ _ _ _ _] Hfull Ej Et Ev Hp. pose proof (Permutation_length Hp) as Hpl.
  rewrite length_insert in Hpl. rewrite !used_full by (cbn; lia). cbn [s_log_cache].
  unfold entries_of. rewrite Hp, list_fmap_insert, list_insert_id; [done|].
  by rewrite list_lookup_fmap, Ej, Et, Ev.
Qed.

Lemma heap_get_law t c :
  heap_ok c ->
  exists r c', esp_log_cache_get_level t c = Some (r, c') /\ heap_ok c' /\
    entries_of (used c') ≡ₚ entries_of (used c) /\
    (forall l, r = Some l -> (t, l) ∈ entries_of (used c)) /\
    (r = None -> t ∉ (entries_of (used c)).*1).
Proof.
  intros Hok. unfold esp_log_cache_get_level. rewrite entries_tags.
  destruct (find_tag c t Hok) as ([j|] & -> & Hr).
  - destruct Hr as (Hj & e & Ej & Et & Hlev). rewrite Ej.
    assert ((t, level e) ∈ entries_of (used c)) as Hin.
    { apply list_elem_of_fmap. exists e. rewrite Et. split; [done|].
      by eapply list_elem_of_lookup_2, used_elem. }
    destruct (Nat.eqb_spec (s_log_cache_entry_count c) TAG_CACHE_SIZE) as [Hfull|].
    + destruct (renew_hit c j e Hok Hfull Ej Hlev) as (a & -> & Hp & Hinv).
      destruct (check_wrap_ok _ Hinv) as [Hok' He].
      eexists _, _. split; [done|]. split; [done|]. rewrite He. split; [|naive_solver].
      by apply (renew_entries c a j (with_generation (s_log_cache_max_generation c) e) e).
    + eexists _, _. split; [done|]. split; [done|]. naive_solver.
  - eexists _, _. split; [done|]. split; [by destruct Hok|]. done.
Qed.

Lemma entries_relabel l u j :
  0 <= l < 8 -> alter (fun e : Z * Z => (e.1, l)) j (entries_of u) = entries_of (alter (with_level l) j u).
Proof.
  intros Hl. apply list_eq. intros i. unfold entries_of. destruct (decide (i = j)) as [->|].
  - rewrite list_lookup_fmap, !list_lookup_alter_eq, list_lookup_fmap.
    destruct (u !! j); [|done]. cbn. by rewrite (uN_id 3) by lia.
  - by rewrite list_lookup_fmap, !list_lookup_alter_ne, list_lookup_fmap.
Qed.

Lemma heap_set_law tt t l c :
  heap_ok c -> 0 <= l < 8 ->
  exists c', esp_log_cache_set_level tt t l c = Some c' /\ heap_ok c' /\
    entries_of (used c') = relabel tt t l (entries_of (used c)).
Proof.
  intros Hok Hlev. pose proof Hok as [Hl Hc Hm Ht Hg Hb Hv Ho]. unfold esp_log_cache_set_level.
  destruct (find_ok check_order (fun e => bool_decide (tt (tag e) = tt t)) (s_log_cache_entry_count c) 0
    (s_log_cache c)) as (r & -> & Hr); [lia|intros; apply (check_order_ok (s_log_cache_entry_count c)); [lia|done|lia]|].
  destruct r as [j|].
  - destruct Hr as (Hj & (e & Ej & Et) & Hbefore). apply bool_decide_eq_true in Et.
    eexists. split; [done|].
    match goal with |- heap_ok ?c0 /\ _ => set (c' := c0) end.
    assert (Hu : used c' = alter (with_level l) j (used c)) by (unfold used; cbn; apply take_alter_lt; lia).
    assert (Hgen : forall i, gen_at (s_log_cache c') i = gen_at (s_log_cache c) i).
    { intros i. unfold gen_at. cbn. destruct (decide (i = j)) as [->|].
      - by rewrite list_lookup_alter_eq, Ej.
      - by rewrite list_lookup_alter_ne. }
    assert (Eu : used c !! j = Some e) by (apply used_elem; [done|lia]).
    split.
    + split; try done.
      * cbn. by rewrite length_alter.
      * rewrite Hu, (alter_insert _ _ _ _ Eu), (insert_same_tag _ _ e); done.
      * rewrite Hu, (alter_insert _ _ _ _ Eu), list_fmap_insert, list_insert_id; [done|].
        by rewrite list_lookup_fmap, Eu.
      * intros x Hx. rewrite Hu, (alter_insert _ _ _ _ Eu) in Hx.
        apply elem_of_insert_inv in Hx as [->|Hx]; [|by apply Hb].
        apply (Hb e). by eapply list_elem_of_lookup_2.
      * intros x Hx. rewrite Hu, (alter_insert _ _ _ _ Eu) in Hx.
        apply elem_of_insert_inv in Hx as [->|Hx]; [|by apply Hv].
        cbn. by rewrite (uN_id 3) by lia.
      * intros i Hi. rewrite !Hgen. by apply Ho.
    + rewrite Hu. rewrite <- entries_relabel by done.
      symmetry. apply (relabel_first tt t l (entries_of (used c)) j (tag e, level e)); [|done|].
      * unfold entries_of. by rewrite list_lookup_fmap, Eu.
      * intros k x Hk. unfold entries_of. rewrite list_lookup_fmap, heap_used_lookup.
        destruct (decide _); [|done]. destruct (s_log_cache c !! k) as [e'|] eqn:Ek; [|done]. intros [= <-].
        specialize (Hbefore k e'). rewrite bool_decide_eq_false in Hbefore. apply Hbefore; [lia|done].
  - exists c. split; [done|]. split; [done|]. symmetry. apply relabel_none.
    intros x (e & -> & (k & Ek)%list_elem_of_lookup)%list_elem_of_fmap. rewrite heap_used_lookup in Ek. destruct (decide _); [|done].
    specialize (Hr k e). rewrite bool_decide_eq_false in Hr. apply Hr; [lia|done].
Qed.

Lemma empty_used a m s : used (MkHeap a m 0 s) = [].
Proof. done. Qed.

Lemma emptied_ok a n : length a = TAG_CACHE_SIZE -> heap_ok (MkHeap a 0 0 n).
Proof.
  intros Hl. split; rewrite ?empty_used; cbn; try done; try lia; try apply NoDup_nil_2.
  - by intros ? ?%elem_of_nil.
  - by intros ? ?%elem_of_nil.
  - intros i. lia.
Qed.

Lemma heap_clean_law c :
  heap_ok c -> heap_ok (esp_log_cache_clean c) /\ entries_of (used (esp_log_cache_clean c)) = [].
Proof. intros [Hl _ _ _ _ _ _ _]. split; [by apply emptied_ok|done]. Qed.

Lemma empty_heap_ok : heap_ok empty_heap.
Proof. apply emptied_ok, length_replicate. Qed.

Lemma append_ok c e :
  heap_ok c -> (s_log_cache_entry_count c < TAG_CACHE_SIZE)%nat ->
  generation e = s_log_cache_max_generation c -> 0 <= level e < 8 -> tag e ∉ tag <$> used c ->
  let c' := MkHeap (<[s_log_cache_entry_count c := e]> (s_log_cache c))
              (u32 (s_log_cache_max_generation c + 1)) (S (s_log_cache_entry_count c)) (s_log_cache_misses c) in
  used c' = used c ++ [e] /\ heap_inv (MAX_GENERATION + 1) c'.
Proof.
  intros [Hl Hc Hm Ht Hg Hb Hv Ho] Hn He Hlev Hnew c'.
  assert (Eu : u32 (s_log_cache_max_generation c + 1) = s_log_cache_max_generation c + 1)
    by (apply u32_id; change MAX_GENERATION with 536870911 in *; lia).
  assert (Hu : used c' = used c ++ [e]).
  { unfold used. cbn. erewrite take_S_r by (apply list_lookup_insert_eq; lia).
    by rewrite take_insert_ge by lia. }
  split; [done|]. split; rewrite ?Hu; cbn [c' s_log_cache_max_generation s_log_cache s_log_cache_entry_count];
    rewrite ?Eu, ?length_insert; try lia.
  - rewrite fmap_app. apply NoDup_app. split; [done|]. split; [|apply NoDup_singleton].
    intros x Hx ->%list_elem_of_singleton. done.
  - rewrite fmap_app. apply NoDup_app. split; [done|]. split; [|apply NoDup_singleton].
    intros x (y & -> & Hy)%list_elem_of_fmap Hxe%list_elem_of_singleton. specialize (Hb y Hy). lia.
  - intros x [Hx| ->%list_elem_of_singleton]%elem_of_app; [specialize (Hb x Hx)|]; lia.
  - intros x [Hx| ->%list_elem_of_singleton]%elem_of_app; [by apply Hv|done].
  - intros i Hi.
    assert (forall k, k <> s_log_cache_entry_count c ->
      gen_at (<[s_log_cache_entry_count c := e]> (s_log_cache c)) k = gen_at (s_log_cache c) k) as Hk
      by (intros; unfold gen_at; by rewrite list_lookup_insert_ne).
    rewrite (Hk ((i - 1) / 2)%nat) by lia.
    destruct (decide (i = s_log_cache_entry_count c)) as [Ei|Hi'].
    + destruct (lookup_lt_is_Some_2 (s_log_cache c) ((i - 1) / 2)) as [p Hp]; [lia|].
      rewrite (gen_at_elem _ _ _ Hp), Ei. unfold gen_at. rewrite list_lookup_insert_eq by lia. cbn.
      rewrite He. apply Hb. apply (list_elem_of_lookup_2 _ ((i - 1) / 2)), used_elem; [done|lia].
    + rewrite Hk by done. apply Ho. lia.
Qed.

Lemma entries_of_elem a e : e ∈ a -> (tag e, level e) ∈ entries_of a.
Proof. intros. apply list_elem_of_fmap. by exists e. Qed.

Lemma heap_add_law t l c :
  heap_ok c -> 0 <= l < 8 -> t ∉ (entries_of (used c)).*1 ->
  exists c', esp_log_cache_add t l c = Some c' /\ heap_ok c' /\
    (t, l) ∈ entries_of (used c') /\ entries_of (used c') ⊆ (t, l) :: entries_of (used c).
Proof.
  rewrite entries_tags. intros Hok Hlev Hin. pose proof Hok as [Hl Hc Hm _ _ _ _ _].
  unfold esp_log_cache_add. set (e := entry_of t l (s_log_cache_max_generation c)).
  assert (level e = l) as El by (by apply entry_of_level).
  assert (generation e = s_log_cache_max_generation c) as Eg
    by (apply (generation_id _ (MkEntry t l 0)); lia).
  destruct (Nat.ltb_spec (s_log_cache_entry_count c) TAG_CACHE_SIZE) as [Hlt|Hge].
  - destruct (append_ok c e) as [Hu Hinv]; [done|done|done|by rewrite El|done|].
    destruct (check_wrap_ok _ Hinv) as [Hok' He].
    eexists. split; [done|]. split; [done|]. rewrite He, Hu.
    assert (entries_of (used c ++ [e]) = entries_of (used c) ++ [(t, l)]) as ->
      by (unfold entries_of; rewrite fmap_app; do 2 f_equal; by rewrite <- El).
    split; [set_solver|]. intros x. rewrite elem_of_app, elem_of_cons. set_solver.
  - assert (s_log_cache_entry_count c = TAG_CACHE_SIZE) as Hfull by lia.
    destruct (renew_oldest c t l Hok Hfull Hin Hlev) as (a & Ea & Hp & Hinv).
    fold e in Ea, Hp. rewrite Ea.
    destruct (check_wrap_ok _ Hinv) as [Hok' He].
    eexists. split; [done|]. split; [done|]. rewrite He.
    pose proof (Permutation_length Hp) as Hpl. rewrite length_insert in Hpl.
    rewrite !used_full by (cbn; lia). cbn [s_log_cache]. destruct size_odd as [k Hk].
    assert (forall x, x ∈ entries_of a <-> x ∈ entries_of (<[0%nat := e]> (s_log_cache c))) as Ha
      by (intros x; unfold entries_of; by rewrite Hp).
    split.
    + apply Ha. rewrite <- El. apply (entries_of_elem _ e), list_elem_of_insert. lia.
    + intros x Hx%Ha. apply list_elem_of_fmap in Hx as (y & -> & Hy).
      apply elem_of_insert_inv in Hy as [->|Hy]; apply elem_of_cons; [left; by rewrite El|right].
      by apply entries_of_elem.
Qed.

Lemma heap_tags_nodup c : heap_ok c -> NoDup (entries_of (used c)).*1.
Proof. intros [_ _ _ Ht _ _ _ _]. by rewrite entries_tags. Qed.

#[export] Instance heap_laws : LogCacheLaws heap_cache := {
  cache_ok := heap_ok;
  cache_entries c := entries_of (used c);
  cache_tags_nodup := heap_tags_nodup;
  cache_set_law := heap_set_law;
  cache_get_law := heap_get_law;
  cache_clean_law := heap_clean_law;
  cache_add_law := heap_add_law
}.

(** ** Which entry is evicted *)

Lemma no_wrap c : s_log_cache_max_generation c < MAX_GENERATION -> check_generation_wrap c = c.
Proof. intros. unfold check_generation_wrap. destruct (Z.eqb_spec (s_log_cache_max_generation c) MAX_GENERATION); [lia|done]. Qed.

Lemma root_min n a i : ordered n a -> (0 < i < n)%nat -> gen_at a 0 < gen_at a i.
Proof.
  intros Ho. induction i as [i IH] using lt_wf_ind. intros Hi. specialize (Ho i Hi).
  destruct (decide ((i - 1) / 2 = 0)%nat) as [E|]; [by rewrite E in Ho|].
  etrans; [apply (IH ((i - 1) / 2)%nat); lia|done].
Qed.

(** One lookup in a full cache overwrites the entry of the tag, or the root. *)
Lemma lookup_full c q l :
  heap_ok c -> s_log_cache_entry_count c = TAG_CACHE_SIZE ->
  s_log_cache_max_generation c + 1 < MAX_GENERATION -> 0 <= l < 8 ->
  exists c' j e', cache_lookup q l c = Some c' /\ heap_ok c' /\
    s_log_cache_entry_count c' = TAG_CACHE_SIZE /\
    s_log_cache_max_generation c' = s_log_cache_max_generation c + 1 /\
    s_log_cache c' ≡ₚ <[j := e']> (s_log_cache c) /\ (j < TAG_CACHE_SIZE)%nat /\
    tag e' = q /\ generation e' = s_log_cache_max_generation c /\
    ((exists e, s_log_cache c !! j = Some e /\ tag e = q) \/ ((q ∉ tag <$> s_log_cache c) /\ j = 0%nat)).
Proof.
  intros Hok Hfull Hm Hlev. pose proof Hok as [Hl _ Hm' _ _ _ _ _]. destruct size_odd as [k Hk].
  assert (u32 (s_log_cache_max_generation c + 1) = s_log_cache_max_generation c + 1) as Eu
    by (apply u32_id; change MAX_GENERATION with 536870911 in *; lia).
  unfold cache_lookup, esp_log_cache_get_level.
  destruct (find_tag c q Hok) as ([j|] & -> & Hr).
  - destruct Hr as (Hj & e & Ej & Et & Hlv). rewrite Ej, Hfull, Nat.eqb_refl.
    destruct (renew_hit c j e Hok Hfull Ej Hlv) as (a & -> & Hp & Hinv).
    rewrite Eu, Hfull in Hinv. rewrite Eu, no_wrap by done. eexists _, j, _.
    split; [done|]. split; [by destruct Hinv; split; try done; cbn in *; lia|].
    split_and!; cbn; try done.
    + by rewrite <- Hfull.
    + apply (generation_id _ e). lia.
    + left. by exists e.
  - set (c1 := MkHeap _ _ _ _). assert (heap_ok c1) as Hok1 by (destruct Hok; by split).
    unfold esp_log_cache_add. cbn [c1 s_log_cache_entry_count].
    rewrite (proj2 (Nat.ltb_ge _ _)) by lia.
    destruct (renew_oldest c1 q l Hok1 Hfull Hr Hlev) as (a & Ea & Hp & Hinv).
    cbn [c1 s_log_cache s_log_cache_max_generation s_log_cache_entry_count s_log_cache_misses] in *.
    rewrite Ea, Eu, no_wrap by done. rewrite Eu, Hfull in Hinv. rewrite Hfull. eexists _, 0%nat, _.
    split; [done|]. split; [by destruct Hinv; split; try done; cbn in *; lia|].
    split_and!; cbn; try done.
    + lia.
    + apply (generation_id _ (MkEntry q l 0)). lia.
    + right. rewrite used_full in Hr by lia. done.
Qed.

(** [p] is cached, and every entry used after it has a tag of [D]. *)
Record kept (p : Z) (D : gset Z) (c : heap_cache) : Prop := MkKept {
  kept_ok : heap_ok c;
  kept_full : s_log_cache_entry_count c = TAG_CACHE_SIZE;
  kept_after : exists e, e ∈ s_log_cache c /\ tag e = p /\
    forall e', e' ∈ s_log_cache c -> generation e < generation e' -> tag e' ∈ D
}.

Lemma evicts_other p (D : gset Z) c q e :
  heap_ok c -> s_log_cache_entry_count c = TAG_CACHE_SIZE ->
  e ∈ s_log_cache c -> tag e = p ->
  (forall e', e' ∈ s_log_cache c -> generation e < generation e' -> tag e' ∈ D) ->
  q ∉ tag <$> s_log_cache c -> q ∈ D -> (size D < TAG_CACHE_SIZE)%nat ->
  s_log_cache c !! 0%nat <> Some e.
Proof.
  intros [Hl _ _ Ht _ _ _ Ho] Hfull He Ep Hafter Hq HqD Hsz H0.
  rewrite used_full in Ht by lia. rewrite Hfull in Ho.
  destruct (s_log_cache c) as [|x a] eqn:Ec; [done|]. injection H0 as ->.
  assert (list_to_set (q :: (tag <$> a)) ⊆ D) as Hsub.
  { intros y [->|(e' & -> & (k & Hk)%list_elem_of_lookup)%list_elem_of_fmap]%elem_of_list_to_set%elem_of_cons; [done|].
    apply Hafter; [right; by eapply list_elem_of_lookup_2|].
    pose proof (lookup_lt_Some _ _ _ Hk) as Hlt. cbn in Hl.
    assert (0 < S k < TAG_CACHE_SIZE)%nat as Hr by lia.
    pose proof (root_min _ _ _ Ho Hr) as Hmin.
    by rewrite (gen_at_elem _ 0%nat e), (gen_at_elem _ (S k) e') in Hmin. }
  apply subseteq_size in Hsub. rewrite size_list_to_set in Hsub.
  - cbn in Hsub, Hl. rewrite length_fmap in Hsub. lia.
  - cbn in Ht, Hq. apply NoDup_cons in Ht as [_ Ht]. apply NoDup_cons. split; [set_solver|done].
Qed.

Lemma kept_step p D c q l :
  kept p D c -> q ∈ D -> (size D < TAG_CACHE_SIZE)%nat ->
  s_log_cache_max_generation c + 1 < MAX_GENERATION -> 0 <= l < 8 ->
  exists c', cache_lookup q l c = Some c' /\ kept p D c' /\
    s_log_cache_max_generation c' = s_log_cache_max_generation c + 1.
Proof.
  intros [Hok Hfull (e & He & Ep & Hafter)] HqD Hsz Hm Hlev. pose proof Hok as [Hl _ _ Ht Hg Hb _ _].
  rewrite used_full in Ht, Hb by lia.
  destruct (lookup_full c q l Hok Hfull Hm Hlev)
    as (c' & j & e' & E & Hok' & Hfull' & Hm' & Hp & Hj & Et & Eg & Hcase).
  exists c'. split; [done|]. split; [|done]. split; [done..|].
  destruct (decide (p = q)) as [->|Hpq].
  - exists e'. split_and!; [|done|].
    + rewrite Hp. apply list_elem_of_insert. lia.
    + intros x Hx Hlt. rewrite Hp in Hx. apply elem_of_insert_inv in Hx as [->|Hx]; [lia|].
      specialize (Hb x Hx). lia.
  - pose proof He as (k & Hk)%list_elem_of_lookup.
    assert (k <> j) as Hkj.
    { intros ->. destruct Hcase as [(e0 & E0 & Et0)|[Hq ->]]; [congruence|].
      by apply (evicts_other p D c q e) in Hk. }
    exists e. split_and!; [|done|].
    + rewrite Hp. apply (list_elem_of_lookup_2 _ k). by rewrite list_lookup_insert_ne.
    + intros x Hx Hlt. rewrite Hp in Hx. apply elem_of_insert_inv in Hx as [->|Hx]; [by rewrite Et|].
      by apply Hafter.
Qed.

Lemma kept_first c p l :
  heap_ok c -> s_log_cache_entry_count c = TAG_CACHE_SIZE ->
  s_log_cache_max_generation c + 1 < MAX_GENERATION -> 0 <= l < 8 ->
  exists c', cache_lookup p l c = Some c' /\ (forall D, kept p D c') /\
    s_log_cache_max_generation c' = s_log_cache_max_generation c + 1.
Proof.
  intros Hok Hfull Hm Hlev. pose proof Hok as [Hl _ _ _ _ Hb _ _]. rewrite used_full in Hb by lia.
  destruct (lookup_full c p l Hok Hfull Hm Hlev)
    as (c' & j & e' & E & Hok' & Hfull' & Hm' & Hp & Hj & Et & Eg & _).
  exists c'. split; [done|]. split; [|done]. intros D. split; [done..|]. exists e'. split_and!; [|done|].
  - rewrite Hp. apply list_elem_of_insert. lia.
  - intros x Hx Hlt. rewrite Hp in Hx. apply elem_of_insert_inv in Hx as [->|Hx]; [lia|].
    specialize (Hb x Hx). lia.
Qed.

Lemma kept_run p D ts c :
  kept p D c -> (forall t, t ∈ ts.*1 -> t ∈ D) -> (size D < TAG_CACHE_SIZE)%nat ->
  s_log_cache_max_generation c + Z.of_nat (length ts) < MAX_GENERATION -> Forall (fun '(_, l) => 0 <= l < 8) ts ->
  exists c', cache_lookups ts c = Some c' /\ kept p D c'.
Proof.
  revert c. induction ts as [|[t l] ts IH]; intros c Hk HD Hsz Hm Hf; [by exists c|].
  apply Forall_cons in Hf as [Hlev Hf]. cbn in Hm. cbn [cache_lookups].
  destruct (kept_step p D c t l Hk) as (c1 & -> & Hk1 & Hm1); [set_solver|done|lia|done|].
  apply IH; [done|set_solver|done|lia|done].
Qed.
End heap.
