(* ===== verification/LogArray.v ===== *)
(** * The log-level cache as a plain array

    Source: [components/log/src/log_level/tag_log_level/cache/log_array.c].
    Entries are overwritten in turn; [s_cache_entry_count] counts the
    additions and is a 32-bit word.  An access outside the array is [None].
    The file proves the laws of [LogCache]. *)

From stdpp Require Import strings.
From S2P Require Import Prelude LogLevel.

Definition UINT32_MAX : Z := 4294967295.

(** An entry of the array is a tag and a level. *)
Record array_cache := MkArray {
  s_cache_array : list (Z * Z);
  s_cache_entry_count : Z
}.

Section array.
Context (TAG_CACHE_SIZE : Z).

Definition IS_CACHE_FULL (c : array_cache) : bool := s_cache_entry_count c >=? TAG_CACHE_SIZE.
Definition ENTRY_COUNT (c : array_cache) : Z :=
  if IS_CACHE_FULL c then TAG_CACHE_SIZE else s_cache_entry_count c.

Definition esp_log_cache_set_level (tag_text : Z -> string) (tag level : Z) (c : array_cache) : option array_cache :=
  let entry_count := ENTRY_COUNT c in
  let? r := find_entry (fun _ _ => true) (fun e => bool_decide (tag_text e.1 = tag_text tag)) (Z.to_nat entry_count) 0 (s_cache_array c) in
  match r with
  | Some i => Some (MkArray (alter (fun e => (e.1, u32 level)) i (s_cache_array c)) (s_cache_entry_count c))
  | None => Some c
  end.

Definition esp_log_cache_get_level (tag : Z) (c : array_cache) : option (option Z * array_cache) :=
  let entry_count := ENTRY_COUNT c in
  let? r := find_entry (fun _ _ => true) (fun e => e.1 =? tag) (Z.to_nat entry_count) 0 (s_cache_array c) in
  match r with
  | Some i => let? e := s_cache_array c !! i in Some (Some e.2, c)
  | None => Some (None, c)
  end.

Definition esp_log_cache_clean (c : array_cache) : array_cache := MkArray (s_cache_array c) 0.

Definition esp_log_cache_add (tag level : Z) (c : array_cache) : option array_cache :=
  let i := Z.to_nat (s_cache_entry_count c mod TAG_CACHE_SIZE) in
  let? _ := s_cache_array c !! i in
  let a := <[i := (tag, u32 level)]> (s_cache_array c) in
  let entry_count := u32 (s_cache_entry_count c + 1) in
  Some (MkArray a (if entry_count =? UINT32_MAX then TAG_CACHE_SIZE else entry_count)).

Definition empty_array : array_cache := MkArray (replicate (Z.to_nat TAG_CACHE_SIZE) (0, 0)) 0.

#[export] Instance array_log_cache : LogCache array_cache := {
  cache_set_level := esp_log_cache_set_level;
  cache_get_level := esp_log_cache_get_level;
  cache_clean := esp_log_cache_clean;
  cache_add := esp_log_cache_add
}.

(** ** The laws of the interface *)

Context (Hsize : 0 < TAG_CACHE_SIZE < UINT32_MAX).

Definition used (c : array_cache) : list (Z * Z) := take (Z.to_nat (ENTRY_COUNT c)) (s_cache_array c).

Record array_ok (c : array_cache) : Prop := MkArrayOk {
  ao_length : length (s_cache_array c) = Z.to_nat TAG_CACHE_SIZE;
  ao_count : 0 <= s_cache_entry_count c < UINT32_MAX;
  ao_tags : NoDup (used c).*1
}.

Lemma entry_count_range c : array_ok c -> 0 <= ENTRY_COUNT c <= TAG_CACHE_SIZE.
Proof. intros [_ Hc _]. unfold ENTRY_COUNT, IS_CACHE_FULL. destruct (Z.geb_spec (s_cache_entry_count c) TAG_CACHE_SIZE); lia. Qed.

Lemma used_lookup c i :
  used c !! i = if decide (i < Z.to_nat (ENTRY_COUNT c))%nat then s_cache_array c !! i else None.
Proof. unfold used. case_decide; [by rewrite lookup_take_lt|by rewrite lookup_take_ge by lia]. Qed.


Lemma search_ok c test :
  array_ok c ->
  exists r, find_entry (fun _ _ => true) test (Z.to_nat (ENTRY_COUNT c)) 0 (s_cache_array c) = Some r /\
    match r with
    | Some j => exists e, used c !! j = Some e /\ s_cache_array c !! j = Some e /\ test e = true /\
        (forall k e', (k < j)%nat -> used c !! k = Some e' -> test e' = false)
    | None => forall e, e ∈ used c -> test e = false
    end.
Proof.
  intros Hok. pose proof (entry_count_range c Hok). pose proof (ao_length _ Hok).
  destruct (find_ok (fun _ _ => true) test (Z.to_nat (ENTRY_COUNT c)) 0 (s_cache_array c))
    as (r & E & Hr); [lia|done|]. exists r. split; [done|]. destruct r as [j|].
  - destruct Hr as (Hj & (e & Ej & Et) & Hbefore). exists e.
    rewrite used_lookup, decide_True by lia. split_and!; try done.
    intros k e' Hk. rewrite used_lookup. destruct (decide _); [|done]. apply Hbefore. lia.
  - intros e (k & Hk)%list_elem_of_lookup. rewrite used_lookup in Hk.
    destruct (decide _); [|done]. apply (Hr k); [lia|done].
Qed.

Lemma u32_level l : 0 <= l < 8 -> u32 l = l.
Proof. intros. apply u32_id. lia. Qed.

Lemma array_set_law tt t l c :
  array_ok c -> 0 <= l < 8 ->
  exists c', esp_log_cache_set_level tt t l c = Some c' /\ array_ok c' /\
    used c' = relabel tt t l (used c).
Proof.
  intros Hok Hlev. unfold esp_log_cache_set_level.
  destruct (search_ok c (fun e => bool_decide (tt e.1 = tt t)) Hok) as (r & -> & Hr).
  destruct r as [j|].
  - destruct Hr as (e & Eu & Ej & Et & Hbefore). apply bool_decide_eq_true in Et.
    rewrite u32_level by done.
    assert (used (MkArray (alter (fun e => (e.1, l)) j (s_cache_array c)) (s_cache_entry_count c)) =
            relabel tt t l (used c)) as Hu.
    { rewrite (relabel_first tt t l (used c) j e); [|done|done|].
      - unfold used. cbn. apply take_alter_lt. apply lookup_lt_Some in Eu.
        unfold used in Eu. rewrite length_take in Eu. lia.
      - intros k e' Hk He'. specialize (Hbefore k e' Hk He'). by rewrite bool_decide_eq_false in Hbefore. }
    eexists. split; [done|]. split; [|done]. destruct Hok as [Hl Hc Ht]. split; try done.
    + cbn. by rewrite length_alter.
    + by rewrite Hu, relabel_tags.
  - exists c. split; [done|]. split; [done|]. symmetry. apply relabel_none.
    intros e He. specialize (Hr e He). by rewrite bool_decide_eq_false in Hr.
Qed.

Lemma array_get_law t c :
  array_ok c ->
  exists r c', esp_log_cache_get_level t c = Some (r, c') /\ array_ok c' /\
    used c' ≡ₚ used c /\
    (forall l, r = Some l -> (t, l) ∈ used c) /\ (r = None -> t ∉ (used c).*1).
Proof.
  intros Hok. unfold esp_log_cache_get_level.
  destruct (search_ok c (fun e => e.1 =? t) Hok) as (r & -> & Hr).
  destruct r as [j|].
  - destruct Hr as ([t' l] & Eu & Ej & Et%Z.eqb_eq & _). cbn in Et. subst t'. rewrite Ej.
    eexists _, c. split_and!; try done. intros ? [= <-]. by eapply list_elem_of_lookup_2.
  - eexists _, c. split_and!; try done. intros _ [l Hl]%fst_elem_of.
    specialize (Hr _ Hl). cbn in Hr. lia.
Qed.

Lemma array_clean_law c : array_ok c -> array_ok (esp_log_cache_clean c) /\ used (esp_log_cache_clean c) = [].
Proof.
  intros [Hl Hc Ht].
  assert (used (esp_log_cache_clean c) = []) as Hu.
  { unfold used, ENTRY_COUNT, IS_CACHE_FULL. cbn. by destruct (Z.geb_spec 0 TAG_CACHE_SIZE); [lia|]. }
  split; [|done]. split; cbn; [done|unfold UINT32_MAX; lia|]. rewrite Hu. apply NoDup_nil_2.
Qed.

Lemma empty_array_ok : array_ok empty_array /\ used empty_array = [].
Proof.
  apply (array_clean_law (MkArray (replicate (Z.to_nat TAG_CACHE_SIZE) (0, 0)) 0)).
  split; cbn; [by rewrite length_replicate|unfold UINT32_MAX; lia|].
  unfold used, ENTRY_COUNT, IS_CACHE_FULL. cbn.
  destruct (Z.geb_spec 0 TAG_CACHE_SIZE); [lia|]. apply NoDup_nil_2.
Qed.

(** While the array fills the new entry is appended; afterwards it replaces one. *)
Lemma used_add c e :
  array_ok c ->
  let i := Z.to_nat (s_cache_entry_count c mod TAG_CACHE_SIZE) in
  let n := u32 (s_cache_entry_count c + 1) in
  let c' := MkArray (<[i := e]> (s_cache_array c)) (if n =? UINT32_MAX then TAG_CACHE_SIZE else n) in
  (i < length (s_cache_array c))%nat /\ 0 <= s_cache_entry_count c' < UINT32_MAX /\
  used c' = if IS_CACHE_FULL c then <[i := e]> (used c) else used c ++ [e].
Proof.
  intros [Hl Hc Ht] i n c'. unfold UINT32_MAX in *.
  assert (n = s_cache_entry_count c + 1) as En by (apply u32_id; lia).
  pose proof (Z.mod_pos_bound (s_cache_entry_count c) TAG_CACHE_SIZE).
  split; [lia|]. split; [cbn; destruct (Z.eqb_spec n 4294967295); lia|].
  unfold used, ENTRY_COUNT, IS_CACHE_FULL. cbn [c' s_cache_entry_count s_cache_array].
  destruct (Z.geb_spec (s_cache_entry_count c) TAG_CACHE_SIZE) as [Hge|Hlt].
  - replace (if n =? 4294967295 then TAG_CACHE_SIZE else n) with
      (Z.max TAG_CACHE_SIZE (if n =? 4294967295 then TAG_CACHE_SIZE else n))
      by (destruct (Z.eqb_spec n 4294967295); lia).
    destruct (Z.geb_spec (Z.max TAG_CACHE_SIZE (if n =? 4294967295 then TAG_CACHE_SIZE else n)) TAG_CACHE_SIZE); [|lia].
    by rewrite take_insert_lt by lia.
  - assert (i = Z.to_nat (s_cache_entry_count c)) as -> by (unfold i; by rewrite Z.mod_small by lia).
    destruct (Z.eqb_spec n 4294967295); [lia|]. rewrite En.
    assert ((if s_cache_entry_count c + 1 >=? TAG_CACHE_SIZE then TAG_CACHE_SIZE else s_cache_entry_count c + 1)
            = s_cache_entry_count c + 1) as ->
      by (destruct (Z.geb_spec (s_cache_entry_count c + 1) TAG_CACHE_SIZE); lia).
    rewrite Z2Nat.inj_add by lia. rewrite Nat.add_1_r.
    erewrite take_S_r by (apply list_lookup_insert_eq; lia). by rewrite take_insert_ge by lia.
Qed.

Lemma array_add_law t l c :
  array_ok c -> 0 <= l < 8 -> t ∉ (used c).*1 ->
  exists c', esp_log_cache_add t l c = Some c' /\ array_ok c' /\
    (t, l) ∈ used c' /\ used c' ⊆ (t, l) :: used c.
Proof.
  intros Hok Hlev Hin. destruct (used_add c (t, l) Hok) as (Hi & Hc' & Hu).
  unfold esp_log_cache_add. rewrite u32_level by done.
  destruct (lookup_lt_is_Some_2 _ _ Hi) as [x Hx]. rewrite Hx.
  eexists. split; [done|]. rewrite Hu. destruct Hok as [Hl Hc Ht].
  destruct (IS_CACHE_FULL c) eqn:Ef.
  - assert (length (used c) = Z.to_nat TAG_CACHE_SIZE) as Hlen.
    { unfold used, ENTRY_COUNT. rewrite Ef, length_take. lia. }
    split; [split; [by cbn; rewrite length_insert|done|]|split].
    + rewrite Hu, list_fmap_insert. by apply NoDup_insert_list.
    + apply list_elem_of_insert. lia.
    + intros y [->|Hy]%elem_of_insert_inv; set_solver.
  - split; [split; [by cbn; rewrite length_insert|done|]|split].
    + rewrite Hu, fmap_app. apply NoDup_app. split; [done|]. split; [|apply NoDup_singleton].
      intros y Hy ->%list_elem_of_singleton. done.
    + set_solver.
    + intros y. rewrite elem_of_app, elem_of_cons. set_solver.
Qed.

#[export] Instance array_laws : LogCacheLaws array_cache := {
  cache_ok := array_ok;
  cache_entries := used;
  cache_tags_nodup := ao_tags;
  cache_set_law := array_set_law;
  cache_get_law := array_get_law;
  cache_clean_law := array_clean_law;
  cache_add_law := array_add_law
}.
End array.
