(* ===== verification/LogProps.v ===== *)
(** * Log levels: what the lookups return

    The theorems about [esp_log_level_set] and [esp_log_level_get] over whole
    sequences of calls: with either cache, and without one, a lookup returns
    what the specification of [LogLevel] says, provided the tags looked up have
    pairwise different texts; without that proviso, or when another task sets a
    level during a lookup, it does not; and the heap
    evicts the tag that was looked up least recently. *)

From stdpp Require Import strings.
From S2P Require Import Prelude EspErr LogLevel LogHeap LogArray.

(** [ESP_STATIC_ASSERT] on the size of the heap makes it odd. *)
Lemma static_assert_odd n :
  (0 < n)%nat -> Z.land (Z.of_nat n) (Z.of_nat n + 1) = 0 -> Nat.odd n = true.
Proof.
  intros Hn Hl. destruct (Nat.even n) eqn:He; [|by rewrite <- Nat.negb_even, He].
  apply Nat.even_spec in He as [k ->]. exfalso.
  assert (Z.testbit (Z.land (Z.of_nat (2 * k)) (Z.of_nat (2 * k) + 1)) (Z.log2 (Z.of_nat k) + 1) = true) as Hb.
  { rewrite Z.land_spec, !Z.add_1_r. replace (Z.succ (Z.of_nat (2 * k))) with (2 * Z.of_nat k + 1) by lia.
    rewrite Z.testbit_odd_succ by apply Z.log2_nonneg.
    replace (Z.of_nat (2 * k)) with (2 * Z.of_nat k) by lia.
    rewrite Z.testbit_even_succ by apply Z.log2_nonneg. rewrite Z.bit_log2 by lia. done. }
  rewrite Hl, Z.bits_0 in Hb. done.
Qed.

(** ** Without a cache *)

Definition list_agrees {C} (r : levels) (s : log_state C) : Prop :=
  esp_log_default_level s = dflt r /\ list_levels (s_log_tags s) = by_tag r.

Lemma uncached_step {C} `{LogCache C} tt c r (s : log_state C) :
  list_agrees r s -> call_ok c ->
  exists s', log_step false tt c s = Some (fst (spec_step tt c r), s') /\ list_agrees (snd (spec_step tt c r)) s'.
Proof.
  intros [Hd Hl] Hc. destruct c as [tag level mo|tag tmo lo]; cbn.
  - unfold esp_log_level_set, log_level_set. destruct (tag =? 0); [by eexists|].
    destruct (bool_decide (tt tag = "*")); [eexists; split; [done|split; cbn; [done|by rewrite list_clean]]|].
    destruct (list_set (tt tag) level mo (s_log_tags s) Hc) as (l' & -> & El). cbn.
    eexists. split; [done|]. rewrite Hl in El.
    destruct (mo || bool_decide (is_Some (by_tag r !! tt tag))); split; cbn; try done.
  - unfold log_level_get, level_get_locked. destruct (tag =? 0); [exists s; by rewrite Hd|].
    destruct (tmo && negb lo); [by exists s|].
    rewrite list_get, Hd, Hl. by exists s.
Qed.

Lemma uncached_run {C} `{LogCache C} tt cs r (s : log_state C) :
  list_agrees r s -> Forall call_ok cs ->
  exists s', log_run false tt cs s = Some (fst (spec_run tt cs r), s').
Proof.
  revert r s. induction cs as [|c cs IH]; intros r s Hs Hok; [by eexists|].
  apply Forall_cons in Hok as [Hc Hok]. cbn [log_run spec_run].
  destruct (uncached_step tt c r s Hs Hc) as (s1 & -> & Hs1).
  destruct (IH _ s1 Hs1 Hok) as (s2 & ->). destruct (spec_step tt c r) as [x r1]. cbn.
  destruct (spec_run tt cs r1). by eexists.
Qed.

(** ** The lookups *)

Lemma coherent_start {C} `{LogCacheLaws C} tags d (c : C) :
  cache_ok c -> cache_entries c = [] -> 0 <= d < 8 -> forall tt, coherent tt tags (MkLevels d ∅) (MkLog d [] c).
Proof.
  intros Hc He Hd tt. split; cbn; rewrite ?He; try done; [by apply list_subseteq_nil|].
  by intros ? ? ?%elem_of_nil.
Qed.

(** C5. Whatever the calls to [esp_log_level_set] and [esp_log_level_get], one
    after the other (also with failing allocations and lock timeouts), every
    lookup returns the level of the specification: the level last set for the
    text of the tag, or the default; [*] resets all of them.  No assertion of
    the cache fails.  When a cache is configured the tags looked up must have
    pairwise different texts ([twin_tag_keeps_level] shows a lookup that is
    wrong without this). *)
Theorem tag_levels_coherent {C} `{LogCacheLaws C} (CACHE_ENABLED : bool) (tag_text : Z -> string)
    (d : Z) (c : C) (cs : list log_call) :
  cache_ok c -> cache_entries c = [] -> 0 <= d < 8 -> Forall call_ok cs ->
  (CACHE_ENABLED = true -> texts_unique tag_text (looked_up cs)) ->
  exists s', log_run CACHE_ENABLED tag_text cs (MkLog d [] c) =
    Some (fst (spec_run tag_text cs (MkLevels d ∅)), s').
Proof.
  intros Hc He Hd Hok Hu. destruct CACHE_ENABLED.
  - destruct (coherent_run tag_text (looked_up cs) (Hu eq_refl) cs (MkLevels d ∅) (MkLog d [] c))
      as (s' & E & _); [by apply coherent_start|done..|]. by exists s'.
  - by apply uncached_run.
Qed.

(** Three tags and a program of lookups that overflows a cache of three entries. *)
Definition demo_text (p : Z) : string :=
  if p =? 1 then "wifi" else if p =? 2 then "i2c" else if p =? 3 then "spi" else if p =? 4 then "uart" else "*".
Definition demo_calls : list log_call :=
  [LevelGet 1 false true; LevelGet 2 false true; LevelGet 3 true true; LevelSet 1 5 true;
   LevelGet 4 false true; LevelGet 1 false true; LevelSet 2 1 false; LevelGet 2 true false; LevelGet 2 true true;
   LevelSet 5 4 true; LevelGet 1 false true; LevelGet 4 false true].

Lemma demo_texts : texts_unique demo_text (looked_up demo_calls).
Proof.
  assert (Forall (fun p => Forall (fun q => demo_text p = demo_text q -> p = q) (looked_up demo_calls)) (looked_up demo_calls)) as Hf.
  { repeat (constructor; [repeat (constructor; [vm_compute; congruence|]); constructor|]). constructor. }
  intros p q Hp Hq. rewrite Forall_forall in Hf. specialize (Hf p Hp). rewrite Forall_forall in Hf. by apply Hf.
Qed.

Lemma demo_calls_ok : Forall call_ok demo_calls.
Proof. repeat (constructor; [cbn; lia || done|]). constructor. Qed.

Lemma tag_levels_coherent_witness :
  exists s', @log_run heap_cache (heap_log_cache 3) true demo_text demo_calls (MkLog 3 [] (empty_heap 3)) =
    Some ([Some 3; Some 3; Some 3; None; Some 3; Some 5; None; Some 0; Some 3; None; Some 4; Some 4], s').
Proof.
  refine (@tag_levels_coherent heap_cache (heap_log_cache 3) (heap_laws 3 eq_refl eq_refl) true demo_text 3
    (empty_heap 3) demo_calls _ _ _ _ _); [apply empty_heap_ok; reflexivity|reflexivity|lia
    |apply demo_calls_ok|intros _; apply demo_texts].
Defined.

(** The three configurations are indistinguishable to programs whose tags have
    pairwise different texts: binary heap, array and plain list give the same
    levels on every sequence of calls. *)
Theorem cache_choice_equivalent (tag_text : Z -> string) (d : Z) (cs : list log_call) (n : nat) (m : Z) :
  (0 < n)%nat -> Z.land (Z.of_nat n) (Z.of_nat n + 1) = 0 -> Z.of_nat n < MAX_GENERATION ->
  0 < m < UINT32_MAX -> 0 <= d < 8 -> Forall call_ok cs -> texts_unique tag_text (looked_up cs) ->
  let heap_run := @log_run heap_cache (heap_log_cache n) true tag_text cs (MkLog d [] (empty_heap n)) in
  let array_run := @log_run array_cache (array_log_cache m) true tag_text cs (MkLog d [] (empty_array m)) in
  let list_run := @log_run array_cache (array_log_cache m) false tag_text cs (MkLog d [] (empty_array m)) in
  exists rs s1 s2 s3, heap_run = Some (rs, s1) /\ array_run = Some (rs, s2) /\ list_run = Some (rs, s3).
Proof.
  intros Hn Ha Hsz Hm Hd Hok Hu.
  destruct (@coherent_run _ _ (heap_laws n (static_assert_odd n Hn Ha) Hsz) tag_text (looked_up cs) Hu cs
    (MkLevels d ∅) (MkLog d [] (empty_heap n))) as (s1 & E1 & _); [|done..|].
  { apply coherent_start; [apply empty_heap_ok|done..]. }
  destruct (@coherent_run _ _ (array_laws m Hm) tag_text (looked_up cs) Hu cs
    (MkLevels d ∅) (MkLog d [] (empty_array m))) as (s2 & E2 & _); [|done..|].
  { destruct (empty_array_ok m Hm). by apply coherent_start. }
  destruct (@uncached_run _ (array_log_cache m) tag_text cs (MkLevels d ∅) (MkLog d [] (empty_array m))) as (s3 & E3);
    [done|done|]. cbn zeta. rewrite E1, E2, E3. by eexists _, _, _, _.
Qed.

Lemma cache_choice_equivalent_witness :
  exists rs s1 s2 s3,
    @log_run heap_cache (heap_log_cache 3) true demo_text demo_calls (MkLog 3 [] (empty_heap 3)) = Some (rs, s1) /\
    @log_run array_cache (array_log_cache 2) true demo_text demo_calls (MkLog 3 [] (empty_array 2)) = Some (rs, s2) /\
    @log_run array_cache (array_log_cache 2) false demo_text demo_calls (MkLog 3 [] (empty_array 2)) = Some (rs, s3).
Proof.
  apply (cache_choice_equivalent demo_text 3 demo_calls 3 2); [lia|reflexivity|reflexivity|
    unfold UINT32_MAX; lia|lia|apply demo_calls_ok|apply demo_texts].
Defined.

(** ** Eviction *)

(** A full binary-heap cache evicts the tag looked up least recently: once [p]
    has been looked up, any further lookups of fewer than [TAG_CACHE_SIZE]
    different tags leave [p] in the cache, so that the next lookup of [p] hits. *)
Theorem heap_keeps_recent (n : nat) (c : heap_cache) (p l : Z) (ts : list (Z * Z)) :
  (0 < n)%nat -> Z.land (Z.of_nat n) (Z.of_nat n + 1) = 0 -> Z.of_nat n < MAX_GENERATION ->
  heap_ok n c -> s_log_cache_entry_count c = n ->
  Forall (fun '(_, l) => 0 <= l < 8) ((p, l) :: ts) ->
  (size (list_to_set ts.*1 : gset Z) < n)%nat ->
  s_log_cache_max_generation c + Z.of_nat (length ts) + 1 < MAX_GENERATION ->
  exists c' v c'', cache_lookups n ((p, l) :: ts) c = Some c' /\
    LogHeap.esp_log_cache_get_level n p c' = Some (Some v, c'').
Proof.
  intros Hn Ha Hsz Hok Hfull [Hl Hts]%Forall_cons HD Hm. pose proof (static_assert_odd n Hn Ha) as Hodd.
  destruct (kept_first n Hodd c p l) as (c1 & E1 & Hk & Hm1); [done|done|lia|done|].
  destruct (kept_run n Hodd Hsz p (list_to_set ts.*1) ts c1 (Hk _)) as (c2 & E2 & [Hok2 Hf2 (e & He & Ep & _)]);
    [intros t Ht; by apply elem_of_list_to_set|done|lia|done|].
  exists c2. cbn [cache_lookups]. rewrite E1, E2.
  destruct (heap_get_law n Hodd Hsz p c2 Hok2) as (r & c3 & E3 & _ & _ & _ & Hmiss).
  destruct r as [v|]; [by exists v, c3|]. destruct (Hmiss eq_refl).
  rewrite entries_tags, (used_full n) by (rewrite (ho_length _ _ _ Hok2), Hf2; done).
  rewrite <- Ep. apply list_elem_of_fmap. by exists e.
Qed.

Definition demo_heap : heap_cache :=
  default (empty_heap 3) (cache_lookups 3 [(1, 3); (2, 3); (3, 3)] (empty_heap 3)).

Lemma demo_heap_ok : heap_ok 3 demo_heap.
Proof.
  assert (exists c, cache_lookups 3 [(1, 3); (2, 3); (3, 3)] (empty_heap 3) = Some c /\ heap_ok 3 c) as (c & E & Hc);
    [|unfold demo_heap; by rewrite E].
  eexists. split; [vm_compute; reflexivity|].
  split; cbn; try lia; try (apply NoDup_ListNoDup; repeat constructor; cbn; lia).
  all: try (intros e He; repeat (apply elem_of_cons in He as [->|He]; [cbn; lia|]); by apply elem_of_nil in He).
  - vm_compute; split; congruence.
  - intros i Hi. destruct i as [|[|[|i]]]; [lia|reflexivity..|lia].
Qed.

Lemma heap_keeps_recent_witness :
  exists c' v c'', cache_lookups 3 [(2, 3); (4, 1); (5, 2); (4, 1); (5, 2)] demo_heap = Some c' /\
    LogHeap.esp_log_cache_get_level 3 2 c' = Some (Some v, c'').
Proof.
  apply (heap_keeps_recent 3 demo_heap 2 3 [(4, 1); (5, 2); (4, 1); (5, 2)]);
    [lia|reflexivity|reflexivity|apply demo_heap_ok|reflexivity|repeat constructor; lia|
     vm_compute; lia|vm_compute; reflexivity].
Defined.

(** ** Two tags with one text *)

Definition twin_text (p : Z) : string := if p =? 9 then "*" else "wifi".

(** Without the proviso on the texts a lookup can return a level that is not
    set: two files define the same tag text at two addresses, both are looked
    up, the level is set, and one of the two keeps the old level, as
    [esp_log_cache_set_level] updates only the first entry with the text. *)
Theorem twin_tag_keeps_level :
  let run C (H : LogCache C) (c : C) := option_map fst (log_run true twin_text
    [LevelGet 1 false true; LevelGet 2 false true; LevelSet 2 5 true; LevelGet 1 false true; LevelGet 2 false true]
    (MkLog 3 [] c)) in
  run heap_cache (heap_log_cache 31) (empty_heap 31) = Some [Some 3; Some 3; None; Some 5; Some 3] /\
  run array_cache (array_log_cache 31) (empty_array 31) = Some [Some 3; Some 3; None; Some 5; Some 3].
Proof. split; vm_compute; reflexivity. Qed.

(** ** Two tasks *)

(** The default level is read before the lock is taken.  A lookup of tag 1
    reads it, another task sets all levels to 5, and the lookup goes on: it
    caches the old default level, which every later lookup of the tag then
    returns. *)
Example stale_default_cached :
  (let text p := if p =? 9 then "*"%string else "wifi"%string in
   let s0 := MkLog 3 [] (empty_heap 31) in
   let level_for_tag := esp_log_default_level s0 in
   let? s1 := @esp_log_level_set _ (heap_log_cache 31) true text 9 5 true s0 in
   let? (r1, s2) := @level_get_locked _ (heap_log_cache 31) true text level_for_tag 1 false true s1 in
   let? (r2, s3) := @esp_log_level_get _ (heap_log_cache 31) true text 1 s2 in
   Some (r1, r2, esp_log_default_level s3)) = Some (3, 3, 5).
Proof. vm_compute. reflexivity. Qed.
