(* ===== verification/Crc.v ===== *)
(** * The CRC functions

    Source: [components/esp_rom/patches/esp_rom_crc.c], tables included.  The
    file shows that each table-driven function computes the polynomial division
    bit by bit, and that the 32-bit CRC of four bytes determines them. *)

From S2P Require Import Prelude.

Definition crc8_be_table : list Z := [
  0x00; 0x07; 0x0e; 0x09; 0x1c; 0x1b; 0x12; 0x15; 0x38; 0x3f; 0x36; 0x31; 0x24; 0x23; 0x2a; 0x2d;
  0x70; 0x77; 0x7e; 0x79; 0x6c; 0x6b; 0x62; 0x65; 0x48; 0x4f; 0x46; 0x41; 0x54; 0x53; 0x5a; 0x5d;
  0xe0; 0xe7; 0xee; 0xe9; 0xfc; 0xfb; 0xf2; 0xf5; 0xd8; 0xdf; 0xd6; 0xd1; 0xc4; 0xc3; 0xca; 0xcd;
  0x90; 0x97; 0x9e; 0x99; 0x8c; 0x8b; 0x82; 0x85; 0xa8; 0xaf; 0xa6; 0xa1; 0xb4; 0xb3; 0xba; 0xbd;
  0xc7; 0xc0; 0xc9; 0xce; 0xdb; 0xdc; 0xd5; 0xd2; 0xff; 0xf8; 0xf1; 0xf6; 0xe3; 0xe4; 0xed; 0xea;
  0xb7; 0xb0; 0xb9; 0xbe; 0xab; 0xac; 0xa5; 0xa2; 0x8f; 0x88; 0x81; 0x86; 0x93; 0x94; 0x9d; 0x9a;
  0x27; 0x20; 0x29; 0x2e; 0x3b; 0x3c; 0x35; 0x32; 0x1f; 0x18; 0x11; 0x16; 0x03; 0x04; 0x0d; 0x0a;
  0x57; 0x50; 0x59; 0x5e; 0x4b; 0x4c; 0x45; 0x42; 0x6f; 0x68; 0x61; 0x66; 0x73; 0x74; 0x7d; 0x7a;
  0x89; 0x8e; 0x87; 0x80; 0x95; 0x92; 0x9b; 0x9c; 0xb1; 0xb6; 0xbf; 0xb8; 0xad; 0xaa; 0xa3; 0xa4;
  0xf9; 0xfe; 0xf7; 0xf0; 0xe5; 0xe2; 0xeb; 0xec; 0xc1; 0xc6; 0xcf; 0xc8; 0xdd; 0xda; 0xd3; 0xd4;
  0x69; 0x6e; 0x67; 0x60; 0x75; 0x72; 0x7b; 0x7c; 0x51; 0x56; 0x5f; 0x58; 0x4d; 0x4a; 0x43; 0x44;
  0x19; 0x1e; 0x17; 0x10; 0x05; 0x02; 0x0b; 0x0c; 0x21; 0x26; 0x2f; 0x28; 0x3d; 0x3a; 0x33; 0x34;
  0x4e; 0x49; 0x40; 0x47; 0x52; 0x55; 0x5c; 0x5b; 0x76; 0x71; 0x78; 0x7f; 0x6a; 0x6d; 0x64; 0x63;
  0x3e; 0x39; 0x30; 0x37; 0x22; 0x25; 0x2c; 0x2b; 0x06; 0x01; 0x08; 0x0f; 0x1a; 0x1d; 0x14; 0x13;
  0xae; 0xa9; 0xa0; 0xa7; 0xb2; 0xb5; 0xbc; 0xbb; 0x96; 0x91; 0x98; 0x9f; 0x8a; 0x8d; 0x84; 0x83;
  0xde; 0xd9; 0xd0; 0xd7; 0xc2; 0xc5; 0xcc; 0xcb; 0xe6; 0xe1; 0xe8; 0xef; 0xfa; 0xfd; 0xf4; 0xf3
].

Definition crc16_be_table : list Z := [
  0x0000; 0x1021; 0x2042; 0x3063; 0x4084; 0x50a5; 0x60c6; 0x70e7; 0x8108; 0x9129; 0xa14a; 0xb16b;
  0xc18c; 0xd1ad; 0xe1ce; 0xf1ef; 0x1231; 0x0210; 0x3273; 0x2252; 0x52b5; 0x4294; 0x72f7; 0x62d6;
  0x9339; 0x8318; 0xb37b; 0xa35a; 0xd3bd; 0xc39c; 0xf3ff; 0xe3de; 0x2462; 0x3443; 0x0420; 0x1401;
  0x64e6; 0x74c7; 0x44a4; 0x5485; 0xa56a; 0xb54b; 0x8528; 0x9509; 0xe5ee; 0xf5cf; 0xc5ac; 0xd58d;
  0x3653; 0x2672; 0x1611; 0x0630; 0x76d7; 0x66f6; 0x5695; 0x46b4; 0xb75b; 0xa77a; 0x9719; 0x8738;
  0xf7df; 0xe7fe; 0xd79d; 0xc7bc; 0x48c4; 0x58e5; 0x6886; 0x78a7; 0x0840; 0x1861; 0x2802; 0x3823;
  0xc9cc; 0xd9ed; 0xe98e; 0xf9af; 0x8948; 0x9969; 0xa90a; 0xb92b; 0x5af5; 0x4ad4; 0x7ab7; 0x6a96;
  0x1a71; 0x0a50; 0x3a33; 0x2a12; 0xdbfd; 0xcbdc; 0xfbbf; 0xeb9e; 0x9b79; 0x8b58; 0xbb3b; 0xab1a;
  0x6ca6; 0x7c87; 0x4ce4; 0x5cc5; 0x2c22; 0x3c03; 0x0c60; 0x1c41; 0xedae; 0xfd8f; 0xcdec; 0xddcd;
  0xad2a; 0xbd0b; 0x8d68; 0x9d49; 0x7e97; 0x6eb6; 0x5ed5; 0x4ef4; 0x3e13; 0x2e32; 0x1e51; 0x0e70;
  0xff9f; 0xefbe; 0xdfdd; 0xcffc; 0xbf1b; 0xaf3a; 0x9f59; 0x8f78; 0x9188; 0x81a9; 0xb1ca; 0xa1eb;
  0xd10c; 0xc12d; 0xf14e; 0xe16f; 0x1080; 0x00a1; 0x30c2; 0x20e3; 0x5004; 0x4025; 0x7046; 0x6067;
  0x83b9; 0x9398; 0xa3fb; 0xb3da; 0xc33d; 0xd31c; 0xe37f; 0xf35e; 0x02b1; 0x1290; 0x22f3; 0x32d2;
  0x4235; 0x5214; 0x6277; 0x7256; 0xb5ea; 0xa5cb; 0x95a8; 0x8589; 0xf56e; 0xe54f; 0xd52c; 0xc50d;
  0x34e2; 0x24c3; 0x14a0; 0x0481; 0x7466; 0x6447; 0x5424; 0x4405; 0xa7db; 0xb7fa; 0x8799; 0x97b8;
  0xe75f; 0xf77e; 0xc71d; 0xd73c; 0x26d3; 0x36f2; 0x0691; 0x16b0; 0x6657; 0x7676; 0x4615; 0x5634;
  0xd94c; 0xc96d; 0xf90e; 0xe92f; 0x99c8; 0x89e9; 0xb98a; 0xa9ab; 0x5844; 0x4865; 0x7806; 0x6827;
  0x18c0; 0x08e1; 0x3882; 0x28a3; 0xcb7d; 0xdb5c; 0xeb3f; 0xfb1e; 0x8bf9; 0x9bd8; 0xabbb; 0xbb9a;
  0x4a75; 0x5a54; 0x6a37; 0x7a16; 0x0af1; 0x1ad0; 0x2ab3; 0x3a92; 0xfd2e; 0xed0f; 0xdd6c; 0xcd4d;
  0xbdaa; 0xad8b; 0x9de8; 0x8dc9; 0x7c26; 0x6c07; 0x5c64; 0x4c45; 0x3ca2; 0x2c83; 0x1ce0; 0x0cc1;
  0xef1f; 0xff3e; 0xcf5d; 0xdf7c; 0xaf9b; 0xbfba; 0x8fd9; 0x9ff8; 0x6e17; 0x7e36; 0x4e55; 0x5e74;
  0x2e93; 0x3eb2; 0x0ed1; 0x1ef0
].

Definition crc32_be_table : list Z := [
  0x00000000; 0x04c11db7; 0x09823b6e; 0x0d4326d9; 0x130476dc; 0x17c56b6b; 0x1a864db2; 0x1e475005;
  0x2608edb8; 0x22c9f00f; 0x2f8ad6d6; 0x2b4bcb61; 0x350c9b64; 0x31cd86d3; 0x3c8ea00a; 0x384fbdbd;
  0x4c11db70; 0x48d0c6c7; 0x4593e01e; 0x4152fda9; 0x5f15adac; 0x5bd4b01b; 0x569796c2; 0x52568b75;
  0x6a1936c8; 0x6ed82b7f; 0x639b0da6; 0x675a1011; 0x791d4014; 0x7ddc5da3; 0x709f7b7a; 0x745e66cd;
  0x9823b6e0; 0x9ce2ab57; 0x91a18d8e; 0x95609039; 0x8b27c03c; 0x8fe6dd8b; 0x82a5fb52; 0x8664e6e5;
  0xbe2b5b58; 0xbaea46ef; 0xb7a96036; 0xb3687d81; 0xad2f2d84; 0xa9ee3033; 0xa4ad16ea; 0xa06c0b5d;
  0xd4326d90; 0xd0f37027; 0xddb056fe; 0xd9714b49; 0xc7361b4c; 0xc3f706fb; 0xceb42022; 0xca753d95;
  0xf23a8028; 0xf6fb9d9f; 0xfbb8bb46; 0xff79a6f1; 0xe13ef6f4; 0xe5ffeb43; 0xe8bccd9a; 0xec7dd02d;
  0x34867077; 0x30476dc0; 0x3d044b19; 0x39c556ae; 0x278206ab; 0x23431b1c; 0x2e003dc5; 0x2ac12072;
  0x128e9dcf; 0x164f8078; 0x1b0ca6a1; 0x1fcdbb16; 0x018aeb13; 0x054bf6a4; 0x0808d07d; 0x0cc9cdca;
  0x7897ab07; 0x7c56b6b0; 0x71159069; 0x75d48dde; 0x6b93dddb; 0x6f52c06c; 0x6211e6b5; 0x66d0fb02;
  0x5e9f46bf; 0x5a5e5b08; 0x571d7dd1; 0x53dc6066; 0x4d9b3063; 0x495a2dd4; 0x44190b0d; 0x40d816ba;
  0xaca5c697; 0xa864db20; 0xa527fdf9; 0xa1e6e04e; 0xbfa1b04b; 0xbb60adfc; 0xb6238b25; 0xb2e29692;
  0x8aad2b2f; 0x8e6c3698; 0x832f1041; 0x87ee0df6; 0x99a95df3; 0x9d684044; 0x902b669d; 0x94ea7b2a;
  0xe0b41de7; 0xe4750050; 0xe9362689; 0xedf73b3e; 0xf3b06b3b; 0xf771768c; 0xfa325055; 0xfef34de2;
  0xc6bcf05f; 0xc27dede8; 0xcf3ecb31; 0xcbffd686; 0xd5b88683; 0xd1799b34; 0xdc3abded; 0xd8fba05a;
  0x690ce0ee; 0x6dcdfd59; 0x608edb80; 0x644fc637; 0x7a089632; 0x7ec98b85; 0x738aad5c; 0x774bb0eb;
  0x4f040d56; 0x4bc510e1; 0x46863638; 0x42472b8f; 0x5c007b8a; 0x58c1663d; 0x558240e4; 0x51435d53;
  0x251d3b9e; 0x21dc2629; 0x2c9f00f0; 0x285e1d47; 0x36194d42; 0x32d850f5; 0x3f9b762c; 0x3b5a6b9b;
  0x0315d626; 0x07d4cb91; 0x0a97ed48; 0x0e56f0ff; 0x1011a0fa; 0x14d0bd4d; 0x19939b94; 0x1d528623;
  0xf12f560e; 0xf5ee4bb9; 0xf8ad6d60; 0xfc6c70d7; 0xe22b20d2; 0xe6ea3d65; 0xeba91bbc; 0xef68060b;
  0xd727bbb6; 0xd3e6a601; 0xdea580d8; 0xda649d6f; 0xc423cd6a; 0xc0e2d0dd; 0xcda1f604; 0xc960ebb3;
  0xbd3e8d7e; 0xb9ff90c9; 0xb4bcb610; 0xb07daba7; 0xae3afba2; 0xaafbe615; 0xa7b8c0cc; 0xa379dd7b;
  0x9b3660c6; 0x9ff77d71; 0x92b45ba8; 0x9675461f; 0x8832161a; 0x8cf30bad; 0x81b02d74; 0x857130c3;
  0x5d8a9099; 0x594b8d2e; 0x5408abf7; 0x50c9b640; 0x4e8ee645; 0x4a4ffbf2; 0x470cdd2b; 0x43cdc09c;
  0x7b827d21; 0x7f436096; 0x7200464f; 0x76c15bf8; 0x68860bfd; 0x6c47164a; 0x61043093; 0x65c52d24;
  0x119b4be9; 0x155a565e; 0x18197087; 0x1cd86d30; 0x029f3d35; 0x065e2082; 0x0b1d065b; 0x0fdc1bec;
  0x3793a651; 0x3352bbe6; 0x3e119d3f; 0x3ad08088; 0x2497d08d; 0x2056cd3a; 0x2d15ebe3; 0x29d4f654;
  0xc5a92679; 0xc1683bce; 0xcc2b1d17; 0xc8ea00a0; 0xd6ad50a5; 0xd26c4d12; 0xdf2f6bcb; 0xdbee767c;
  0xe3a1cbc1; 0xe760d676; 0xea23f0af; 0xeee2ed18; 0xf0a5bd1d; 0xf464a0aa; 0xf9278673; 0xfde69bc4;
  0x89b8fd09; 0x8d79e0be; 0x803ac667; 0x84fbdbd0; 0x9abc8bd5; 0x9e7d9662; 0x933eb0bb; 0x97ffad0c;
  0xafb010b1; 0xab710d06; 0xa6322bdf; 0xa2f33668; 0xbcb4666d; 0xb8757bda; 0xb5365d03; 0xb1f740b4
].

Definition crc8_le_table : list Z := [
  0x00; 0x91; 0xe3; 0x72; 0x07; 0x96; 0xe4; 0x75; 0x0e; 0x9f; 0xed; 0x7c; 0x09; 0x98; 0xea; 0x7b;
  0x1c; 0x8d; 0xff; 0x6e; 0x1b; 0x8a; 0xf8; 0x69; 0x12; 0x83; 0xf1; 0x60; 0x15; 0x84; 0xf6; 0x67;
  0x38; 0xa9; 0xdb; 0x4a; 0x3f; 0xae; 0xdc; 0x4d; 0x36; 0xa7; 0xd5; 0x44; 0x31; 0xa0; 0xd2; 0x43;
  0x24; 0xb5; 0xc7; 0x56; 0x23; 0xb2; 0xc0; 0x51; 0x2a; 0xbb; 0xc9; 0x58; 0x2d; 0xbc; 0xce; 0x5f;
  0x70; 0xe1; 0x93; 0x02; 0x77; 0xe6; 0x94; 0x05; 0x7e; 0xef; 0x9d; 0x0c; 0x79; 0xe8; 0x9a; 0x0b;
  0x6c; 0xfd; 0x8f; 0x1e; 0x6b; 0xfa; 0x88; 0x19; 0x62; 0xf3; 0x81; 0x10; 0x65; 0xf4; 0x86; 0x17;
  0x48; 0xd9; 0xab; 0x3a; 0x4f; 0xde; 0xac; 0x3d; 0x46; 0xd7; 0xa5; 0x34; 0x41; 0xd0; 0xa2; 0x33;
  0x54; 0xc5; 0xb7; 0x26; 0x53; 0xc2; 0xb0; 0x21; 0x5a; 0xcb; 0xb9; 0x28; 0x5d; 0xcc; 0xbe; 0x2f;
  0xe0; 0x71; 0x03; 0x92; 0xe7; 0x76; 0x04; 0x95; 0xee; 0x7f; 0x0d; 0x9c; 0xe9; 0x78; 0x0a; 0x9b;
  0xfc; 0x6d; 0x1f; 0x8e; 0xfb; 0x6a; 0x18; 0x89; 0xf2; 0x63; 0x11; 0x80; 0xf5; 0x64; 0x16; 0x87;
  0xd8; 0x49; 0x3b; 0xaa; 0xdf; 0x4e; 0x3c; 0xad; 0xd6; 0x47; 0x35; 0xa4; 0xd1; 0x40; 0x32; 0xa3;
  0xc4; 0x55; 0x27; 0xb6; 0xc3; 0x52; 0x20; 0xb1; 0xca; 0x5b; 0x29; 0xb8; 0xcd; 0x5c; 0x2e; 0xbf;
  0x90; 0x01; 0x73; 0xe2; 0x97; 0x06; 0x74; 0xe5; 0x9e; 0x0f; 0x7d; 0xec; 0x99; 0x08; 0x7a; 0xeb;
  0x8c; 0x1d; 0x6f; 0xfe; 0x8b; 0x1a; 0x68; 0xf9; 0x82; 0x13; 0x61; 0xf0; 0x85; 0x14; 0x66; 0xf7;
  0xa8; 0x39; 0x4b; 0xda; 0xaf; 0x3e; 0x4c; 0xdd; 0xa6; 0x37; 0x45; 0xd4; 0xa1; 0x30; 0x42; 0xd3;
  0xb4; 0x25; 0x57; 0xc6; 0xb3; 0x22; 0x50; 0xc1; 0xba; 0x2b; 0x59; 0xc8; 0xbd; 0x2c; 0x5e; 0xcf
].

Definition crc16_le_table : list Z := [
  0x0000; 0x1189; 0x2312; 0x329b; 0x4624; 0x57ad; 0x6536; 0x74bf; 0x8c48; 0x9dc1; 0xaf5a; 0xbed3;
  0xca6c; 0xdbe5; 0xe97e; 0xf8f7; 0x1081; 0x0108; 0x3393; 0x221a; 0x56a5; 0x472c; 0x75b7; 0x643e;
  0x9cc9; 0x8d40; 0xbfdb; 0xae52; 0xdaed; 0xcb64; 0xf9ff; 0xe876; 0x2102; 0x308b; 0x0210; 0x1399;
  0x6726; 0x76af; 0x4434; 0x55bd; 0xad4a; 0xbcc3; 0x8e58; 0x9fd1; 0xeb6e; 0xfae7; 0xc87c; 0xd9f5;
  0x3183; 0x200a; 0x1291; 0x0318; 0x77a7; 0x662e; 0x54b5; 0x453c; 0xbdcb; 0xac42; 0x9ed9; 0x8f50;
  0xfbef; 0xea66; 0xd8fd; 0xc974; 0x4204; 0x538d; 0x6116; 0x709f; 0x0420; 0x15a9; 0x2732; 0x36bb;
  0xce4c; 0xdfc5; 0xed5e; 0xfcd7; 0x8868; 0x99e1; 0xab7a; 0xbaf3; 0x5285; 0x430c; 0x7197; 0x601e;
  0x14a1; 0x0528; 0x37b3; 0x263a; 0xdecd; 0xcf44; 0xfddf; 0xec56; 0x98e9; 0x8960; 0xbbfb; 0xaa72;
  0x6306; 0x728f; 0x4014; 0x519d; 0x2522; 0x34ab; 0x0630; 0x17b9; 0xef4e; 0xfec7; 0xcc5c; 0xddd5;
  0xa96a; 0xb8e3; 0x8a78; 0x9bf1; 0x7387; 0x620e; 0x5095; 0x411c; 0x35a3; 0x242a; 0x16b1; 0x0738;
  0xffcf; 0xee46; 0xdcdd; 0xcd54; 0xb9eb; 0xa862; 0x9af9; 0x8b70; 0x8408; 0x9581; 0xa71a; 0xb693;
  0xc22c; 0xd3a5; 0xe13e; 0xf0b7; 0x0840; 0x19c9; 0x2b52; 0x3adb; 0x4e64; 0x5fed; 0x6d76; 0x7cff;
  0x9489; 0x8500; 0xb79b; 0xa612; 0xd2ad; 0xc324; 0xf1bf; 0xe036; 0x18c1; 0x0948; 0x3bd3; 0x2a5a;
  0x5ee5; 0x4f6c; 0x7df7; 0x6c7e; 0xa50a; 0xb483; 0x8618; 0x9791; 0xe32e; 0xf2a7; 0xc03c; 0xd1b5;
  0x2942; 0x38cb; 0x0a50; 0x1bd9; 0x6f66; 0x7eef; 0x4c74; 0x5dfd; 0xb58b; 0xa402; 0x9699; 0x8710;
  0xf3af; 0xe226; 0xd0bd; 0xc134; 0x39c3; 0x284a; 0x1ad1; 0x0b58; 0x7fe7; 0x6e6e; 0x5cf5; 0x4d7c;
  0xc60c; 0xd785; 0xe51e; 0xf497; 0x8028; 0x91a1; 0xa33a; 0xb2b3; 0x4a44; 0x5bcd; 0x6956; 0x78df;
  0x0c60; 0x1de9; 0x2f72; 0x3efb; 0xd68d; 0xc704; 0xf59f; 0xe416; 0x90a9; 0x8120; 0xb3bb; 0xa232;
  0x5ac5; 0x4b4c; 0x79d7; 0x685e; 0x1ce1; 0x0d68; 0x3ff3; 0x2e7a; 0xe70e; 0xf687; 0xc41c; 0xd595;
  0xa12a; 0xb0a3; 0x8238; 0x93b1; 0x6b46; 0x7acf; 0x4854; 0x59dd; 0x2d62; 0x3ceb; 0x0e70; 0x1ff9;
  0xf78f; 0xe606; 0xd49d; 0xc514; 0xb1ab; 0xa022; 0x92b9; 0x8330; 0x7bc7; 0x6a4e; 0x58d5; 0x495c;
  0x3de3; 0x2c6a; 0x1ef1; 0x0f78
].

Definition crc32_le_table : list Z := [
  0x00000000; 0x77073096; 0xee0e612c; 0x990951ba; 0x076dc419; 0x706af48f; 0xe963a535; 0x9e6495a3;
  0x0edb8832; 0x79dcb8a4; 0xe0d5e91e; 0x97d2d988; 0x09b64c2b; 0x7eb17cbd; 0xe7b82d07; 0x90bf1d91;
  0x1db71064; 0x6ab020f2; 0xf3b97148; 0x84be41de; 0x1adad47d; 0x6ddde4eb; 0xf4d4b551; 0x83d385c7;
  0x136c9856; 0x646ba8c0; 0xfd62f97a; 0x8a65c9ec; 0x14015c4f; 0x63066cd9; 0xfa0f3d63; 0x8d080df5;
  0x3b6e20c8; 0x4c69105e; 0xd56041e4; 0xa2677172; 0x3c03e4d1; 0x4b04d447; 0xd20d85fd; 0xa50ab56b;
  0x35b5a8fa; 0x42b2986c; 0xdbbbc9d6; 0xacbcf940; 0x32d86ce3; 0x45df5c75; 0xdcd60dcf; 0xabd13d59;
  0x26d930ac; 0x51de003a; 0xc8d75180; 0xbfd06116; 0x21b4f4b5; 0x56b3c423; 0xcfba9599; 0xb8bda50f;
  0x2802b89e; 0x5f058808; 0xc60cd9b2; 0xb10be924; 0x2f6f7c87; 0x58684c11; 0xc1611dab; 0xb6662d3d;
  0x76dc4190; 0x01db7106; 0x98d220bc; 0xefd5102a; 0x71b18589; 0x06b6b51f; 0x9fbfe4a5; 0xe8b8d433;
  0x7807c9a2; 0x0f00f934; 0x9609a88e; 0xe10e9818; 0x7f6a0dbb; 0x086d3d2d; 0x91646c97; 0xe6635c01;
  0x6b6b51f4; 0x1c6c6162; 0x856530d8; 0xf262004e; 0x6c0695ed; 0x1b01a57b; 0x8208f4c1; 0xf50fc457;
  0x65b0d9c6; 0x12b7e950; 0x8bbeb8ea; 0xfcb9887c; 0x62dd1ddf; 0x15da2d49; 0x8cd37cf3; 0xfbd44c65;
  0x4db26158; 0x3ab551ce; 0xa3bc0074; 0xd4bb30e2; 0x4adfa541; 0x3dd895d7; 0xa4d1c46d; 0xd3d6f4fb;
  0x4369e96a; 0x346ed9fc; 0xad678846; 0xda60b8d0; 0x44042d73; 0x33031de5; 0xaa0a4c5f; 0xdd0d7cc9;
  0x5005713c; 0x270241aa; 0xbe0b1010; 0xc90c2086; 0x5768b525; 0x206f85b3; 0xb966d409; 0xce61e49f;
  0x5edef90e; 0x29d9c998; 0xb0d09822; 0xc7d7a8b4; 0x59b33d17; 0x2eb40d81; 0xb7bd5c3b; 0xc0ba6cad;
  0xedb88320; 0x9abfb3b6; 0x03b6e20c; 0x74b1d29a; 0xead54739; 0x9dd277af; 0x04db2615; 0x73dc1683;
  0xe3630b12; 0x94643b84; 0x0d6d6a3e; 0x7a6a5aa8; 0xe40ecf0b; 0x9309ff9d; 0x0a00ae27; 0x7d079eb1;
  0xf00f9344; 0x8708a3d2; 0x1e01f268; 0x6906c2fe; 0xf762575d; 0x806567cb; 0x196c3671; 0x6e6b06e7;
  0xfed41b76; 0x89d32be0; 0x10da7a5a; 0x67dd4acc; 0xf9b9df6f; 0x8ebeeff9; 0x17b7be43; 0x60b08ed5;
  0xd6d6a3e8; 0xa1d1937e; 0x38d8c2c4; 0x4fdff252; 0xd1bb67f1; 0xa6bc5767; 0x3fb506dd; 0x48b2364b;
  0xd80d2bda; 0xaf0a1b4c; 0x36034af6; 0x41047a60; 0xdf60efc3; 0xa867df55; 0x316e8eef; 0x4669be79;
  0xcb61b38c; 0xbc66831a; 0x256fd2a0; 0x5268e236; 0xcc0c7795; 0xbb0b4703; 0x220216b9; 0x5505262f;
  0xc5ba3bbe; 0xb2bd0b28; 0x2bb45a92; 0x5cb36a04; 0xc2d7ffa7; 0xb5d0cf31; 0x2cd99e8b; 0x5bdeae1d;
  0x9b64c2b0; 0xec63f226; 0x756aa39c; 0x026d930a; 0x9c0906a9; 0xeb0e363f; 0x72076785; 0x05005713;
  0x95bf4a82; 0xe2b87a14; 0x7bb12bae; 0x0cb61b38; 0x92d28e9b; 0xe5d5be0d; 0x7cdcefb7; 0x0bdbdf21;
  0x86d3d2d4; 0xf1d4e242; 0x68ddb3f8; 0x1fda836e; 0x81be16cd; 0xf6b9265b; 0x6fb077e1; 0x18b74777;
  0x88085ae6; 0xff0f6a70; 0x66063bca; 0x11010b5c; 0x8f659eff; 0xf862ae69; 0x616bffd3; 0x166ccf45;
  0xa00ae278; 0xd70dd2ee; 0x4e048354; 0x3903b3c2; 0xa7672661; 0xd06016f7; 0x4969474d; 0x3e6e77db;
  0xaed16a4a; 0xd9d65adc; 0x40df0b66; 0x37d83bf0; 0xa9bcae53; 0xdebb9ec5; 0x47b2cf7f; 0x30b5ffe9;
  0xbdbdf21c; 0xcabac28a; 0x53b39330; 0x24b4a3a6; 0xbad03605; 0xcdd70693; 0x54de5729; 0x23d967bf;
  0xb3667a2e; 0xc4614ab8; 0x5d681b02; 0x2a6f2b94; 0xb40bbe37; 0xc30c8ea1; 0x5a05df1b; 0x2d02ef8d
].
(** [table[i]]; the index is below 256 in every call. *)
Definition entry (table : list Z) (i : Z) : Z := default 0 (table !! Z.to_nat i).

(** The loop over the buffer. *)
Fixpoint crc_loop (step : Z -> Z -> Z) (crc : Z) (buf : list Z) : Z :=
  match buf with [] => crc | b :: buf => crc_loop step (step crc b) buf end.

Definition esp_rom_crc8_be (crc : Z) (buf : list Z) : Z :=
  let crc := u8 (Z.lnot crc) in
  let crc := crc_loop (fun crc b => entry crc8_be_table (Z.lxor crc b)) crc buf in
  u8 (Z.lnot crc).

Definition esp_rom_crc16_be (crc : Z) (buf : list Z) : Z :=
  let crc := u16 (Z.lnot crc) in
  let crc := crc_loop (fun crc b =>
    u16 (Z.lxor (entry crc16_be_table (Z.lxor (Z.shiftr crc 8) b)) (Z.shiftl crc 8))) crc buf in
  u16 (Z.lnot crc).

Definition esp_rom_crc32_be (crc : Z) (buf : list Z) : Z :=
  let crc := u32 (Z.lnot crc) in
  let crc := crc_loop (fun crc b =>
    u32 (Z.lxor (entry crc32_be_table (Z.lxor (Z.shiftr crc 24) b)) (Z.shiftl crc 8))) crc buf in
  u32 (Z.lnot crc).

Definition esp_rom_crc8_le (crc : Z) (buf : list Z) : Z :=
  let crc := u8 (Z.lnot crc) in
  let crc := crc_loop (fun crc b => entry crc8_le_table (Z.lxor crc b)) crc buf in
  u8 (Z.lnot crc).

Definition esp_rom_crc16_le (crc : Z) (buf : list Z) : Z :=
  let crc := u16 (Z.lnot crc) in
  let crc := crc_loop (fun crc b =>
    Z.lxor (entry crc16_le_table (Z.land (Z.lxor crc b) 0xff)) (Z.shiftr crc 8)) crc buf in
  u16 (Z.lnot crc).

Definition esp_rom_crc32_le (crc : Z) (buf : list Z) : Z :=
  let crc := u32 (Z.lnot crc) in
  let crc := crc_loop (fun crc b =>
    Z.lxor (entry crc32_le_table (Z.land (Z.lxor crc b) 0xff)) (Z.shiftr crc 8)) crc buf in
  u32 (Z.lnot crc).

(** ** The reference: division by the polynomial, a bit at a time *)

(** One step of a register of [w] bits, least significant bit first. *)
Definition bit_le (poly c : Z) : Z :=
  if Z.testbit c 0 then Z.lxor (Z.shiftr c 1) poly else Z.shiftr c 1.

(** One step, most significant bit first. *)
Definition bit_be (w poly c : Z) : Z :=
  uN w (if Z.testbit c (w - 1) then Z.lxor (Z.shiftl c 1) poly else Z.shiftl c 1).

Fixpoint times (n : nat) (f : Z -> Z) (c : Z) : Z :=
  match n with O => c | S n => times n f (f c) end.

Definition crc_le (w poly : Z) (crc : Z) (buf : list Z) : Z :=
  uN w (Z.lnot (crc_loop (fun c b => times 8 (bit_le poly) (Z.lxor c b)) (uN w (Z.lnot crc)) buf)).

Definition crc_be (w poly : Z) (crc : Z) (buf : list Z) : Z :=
  uN w (Z.lnot (crc_loop (fun c b => times 8 (bit_be w poly) (Z.lxor c (Z.shiftl b (w - 8)))) (uN w (Z.lnot crc)) buf)).

(** What the functions compute on the usual check string, "123456789". *)
Example crc32_check : esp_rom_crc32_le 0 [0x31; 0x32; 0x33; 0x34; 0x35; 0x36; 0x37; 0x38; 0x39] = 0xcbf43926.
Proof. reflexivity. Qed.
Example crc32_reference_check : crc_le 32 0xedb88320 0 [0x31; 0x32; 0x33; 0x34; 0x35; 0x36; 0x37; 0x38; 0x39] = 0xcbf43926.
Proof. reflexivity. Qed.

(** ** The tables hold the divisions of the bytes *)

Definition bytes : list Z := Z.of_nat <$> seq 0 256.
Definition table_of (f : Z -> Z) (table : list Z) : Prop := table = f <$> bytes.

Lemma entry_table f table i : table_of f table -> 0 <= i < 256 -> entry table i = f i.
Proof.
  intros -> Hi. unfold entry, bytes.
  rewrite !list_lookup_fmap, lookup_seq_lt by lia. cbn. by rewrite Z2Nat.id by lia.
Qed.

Lemma crc8_be_table_ok : table_of (times 8 (bit_be 8 0x07)) crc8_be_table.
Proof. vm_compute. reflexivity. Qed.
Lemma crc16_be_table_ok : table_of (fun i => times 8 (bit_be 16 0x1021) (Z.shiftl i 8)) crc16_be_table.
Proof. vm_compute. reflexivity. Qed.
Lemma crc32_be_table_ok : table_of (fun i => times 8 (bit_be 32 0x04c11db7) (Z.shiftl i 24)) crc32_be_table.
Proof. vm_compute. reflexivity. Qed.
Lemma crc8_le_table_ok : table_of (times 8 (bit_le 0xe0)) crc8_le_table.
Proof. vm_compute. reflexivity. Qed.
Lemma crc16_le_table_ok : table_of (times 8 (bit_le 0x8408)) crc16_le_table.
Proof. vm_compute. reflexivity. Qed.
Lemma crc32_le_table_ok : table_of (times 8 (bit_le 0xedb88320)) crc32_le_table.
Proof. vm_compute. reflexivity. Qed.

(** ** Both divisions are linear *)

Lemma bit_le_lxor poly a b : bit_le poly (Z.lxor a b) = Z.lxor (bit_le poly a) (bit_le poly b).
Proof.
  unfold bit_le. rewrite Z.lxor_spec, Z.shiftr_lxor.
  destruct (Z.testbit a 0), (Z.testbit b 0); cbn [xorb];
    apply Z.bits_inj'; intros i Hi; rewrite !Z.lxor_spec;
    destruct (Z.testbit (Z.shiftr a 1) i), (Z.testbit (Z.shiftr b 1) i), (Z.testbit poly i); done.
Qed.

Lemma bit_be_lxor w poly a b :
  0 <= w -> bit_be w poly (Z.lxor a b) = Z.lxor (bit_be w poly a) (bit_be w poly b).
Proof.
  intros Hw. unfold bit_be. rewrite <- uN_lxor by done. f_equal. rewrite Z.lxor_spec, Z.shiftl_lxor.
  destruct (Z.testbit a (w - 1)), (Z.testbit b (w - 1)); cbn [xorb];
    apply Z.bits_inj'; intros i Hi; rewrite !Z.lxor_spec;
    destruct (Z.testbit (Z.shiftl a 1) i), (Z.testbit (Z.shiftl b 1) i), (Z.testbit poly i); done.
Qed.

Lemma times_lxor n f a b :
  (forall x y, f (Z.lxor x y) = Z.lxor (f x) (f y)) ->
  times n f (Z.lxor a b) = Z.lxor (times n f a) (times n f b).
Proof.
  intros Hf. revert a b. induction n as [|n IH]; intros a b; [done|]. cbn. by rewrite Hf, IH.
Qed.

(** Bits that are not divided are only shifted. *)
Lemma times_le_shift n poly m : times n (bit_le poly) (Z.shiftl m (Z.of_nat n)) = m.
Proof.
  induction n as [|n IH]; [apply Z.shiftl_0_r|]. cbn [times].
  replace (bit_le poly (Z.shiftl m (Z.of_nat (S n)))) with (Z.shiftl m (Z.of_nat n)); [done|].
  unfold bit_le. rewrite Z.shiftl_spec_low by lia. rewrite Z.shiftr_shiftl_l by lia. f_equal. lia.
Qed.

Lemma times_be_shift n w poly m :
  0 <= m -> m * 2 ^ Z.of_nat n < 2 ^ w -> Z.of_nat n <= w ->
  times n (bit_be w poly) m = Z.shiftl m (Z.of_nat n).
Proof.
  revert m. induction n as [|n IH]; intros m Hm Hlt Hw; [by rewrite Z.shiftl_0_r|].
  cbn [times]. replace (2 ^ Z.of_nat (S n)) with (2 * 2 ^ Z.of_nat n) in Hlt
    by (rewrite Nat2Z.inj_succ, Z.pow_succ_r; lia).
  assert (1 <= 2 ^ Z.of_nat n) as H1 by (apply (Z.pow_le_mono_r 2 0); lia).
  assert (2 ^ w = 2 * 2 ^ (w - 1)) as Ew by (rewrite <- Z.pow_succ_r by lia; f_equal; lia).
  assert (bit_be w poly m = 2 * m) as ->.
  { unfold bit_be. rewrite (testbit_high (w - 1)) by nia. rewrite Z.shiftl_mul_pow2 by lia.
    rewrite uN_id; nia. }
  rewrite IH by nia. rewrite !Z.shiftl_mul_pow2 by lia.
  rewrite Nat2Z.inj_succ, Z.pow_succ_r by lia. lia.
Qed.

Lemma low_high c : 0 <= c -> c = Z.lxor (Z.land c 255) (Z.shiftl (Z.shiftr c 8) 8).
Proof.
  intros Hc. apply Z.bits_inj'. intros i Hi. change 255 with (Z.ones 8).
  rewrite Z.lxor_spec, Z.land_spec. destruct (Z.ltb_spec i 8).
  - rewrite Z.ones_spec_low, Z.shiftl_spec_low, xorb_false_r, andb_true_r by lia. done.
  - rewrite Z.ones_spec_high, andb_false_r, Z.shiftl_spec, Z.shiftr_spec by lia.
    cbn. f_equal. lia.
Qed.

Lemma byte_le c poly : 0 <= c ->
  times 8 (bit_le poly) c = Z.lxor (times 8 (bit_le poly) (Z.land c 255)) (Z.shiftr c 8).
Proof.
  intros Hc. rewrite (low_high c) at 1 by done. rewrite times_lxor by apply bit_le_lxor.
  f_equal. apply (times_le_shift 8).
Qed.

(** ** One byte at a time *)

Lemma land_byte c : 0 <= Z.land c 255 < 256.
Proof. change 255 with (Z.ones 8). rewrite Z.land_ones by lia. apply (Z.mod_pos_bound _ 256). lia. Qed.

Lemma shiftr_byte c b : 0 <= b < 256 -> Z.shiftr (Z.lxor c b) 8 = Z.shiftr c 8.
Proof.
  intros Hb. rewrite Z.shiftr_lxor. rewrite (Z.shiftr_div_pow2 b) by lia.
  rewrite (Z.div_small b) by lia. apply Z.lxor_0_r.
Qed.

Lemma step_le table poly c b :
  table_of (times 8 (bit_le poly)) table -> 0 <= c -> 0 <= b < 256 ->
  Z.lxor (entry table (Z.land (Z.lxor c b) 255)) (Z.shiftr c 8) = times 8 (bit_le poly) (Z.lxor c b).
Proof.
  intros Ht Hc Hb. assert (0 <= Z.lxor c b) by (apply Z.lxor_nonneg; lia).
  rewrite (entry_table _ _ _ Ht) by apply land_byte. rewrite (byte_le (Z.lxor c b)) by done.
  by rewrite shiftr_byte.
Qed.

Lemma bit_le_range w poly c : 0 < w -> 0 <= poly < 2 ^ w -> 0 <= c < 2 ^ w -> 0 <= bit_le poly c < 2 ^ w.
Proof.
  intros Hw Hp Hc. assert (0 <= Z.shiftr c 1 < 2 ^ w).
  { rewrite Z.shiftr_div_pow2 by lia. Z.div_mod_to_equations. lia. }
  unfold bit_le. destruct (Z.testbit c 0); [apply lxor_range; lia|done].
Qed.

Lemma times_range (P : Z -> Prop) n f c : (forall x, P x -> P (f x)) -> P c -> P (times n f c).
Proof. intros Hf. revert c. induction n as [|n IH]; intros c Hc; [done|]. cbn. by apply IH, Hf. Qed.

Lemma byte_in w b : 8 <= w -> 0 <= b < 256 -> 0 <= b < 2 ^ w.
Proof. intros Hw Hb. assert (2 ^ 8 <= 2 ^ w) by (apply Z.pow_le_mono_r; lia). lia. Qed.

Lemma step_be w table poly c b :
  8 <= w -> table_of (fun i => times 8 (bit_be w poly) (Z.shiftl i (w - 8))) table ->
  0 <= c < 2 ^ w -> 0 <= b < 256 ->
  uN w (Z.lxor (entry table (Z.lxor (Z.shiftr c (w - 8)) b)) (Z.shiftl c 8)) =
  times 8 (bit_be w poly) (Z.lxor c (Z.shiftl b (w - 8))).
Proof.
  intros Hw Ht Hc Hb.
  assert (2 ^ w = 256 * 2 ^ (w - 8)) as Ew by (change 256 with (2 ^ 8); rewrite <- Z.pow_add_r by lia; f_equal; lia).
  assert (0 < 2 ^ (w - 8)) as Hpos by (apply Z.pow_pos_nonneg; lia).
  assert (0 <= Z.shiftr c (w - 8) < 256) as Hq
    by (rewrite Z.shiftr_div_pow2 by lia; Z.div_mod_to_equations; nia).
  assert (0 <= Z.lxor (Z.shiftr c (w - 8)) b < 256) as Hi by (apply (lxor_range 8); lia).
  rewrite (entry_table _ _ _ Ht Hi).
  set (i := Z.lxor (Z.shiftr c (w - 8)) b) in *. set (low := uN (w - 8) c).
  assert (Hlow : 0 <= low < 2 ^ (w - 8)) by (apply uN_range; lia).
  assert (Z.lxor c (Z.shiftl b (w - 8)) = Z.lxor (Z.shiftl i (w - 8)) low) as ->.
  { unfold i, low. rewrite Z.shiftl_lxor. apply Z.bits_inj'. intros k Hk.
    rewrite !Z.lxor_spec, testbit_uN by lia. destruct (Z.ltb_spec k (w - 8)).
    - rewrite !Z.shiftl_spec_low by lia. by destruct (Z.testbit c k).
    - rewrite !(Z.shiftl_spec _ _ k), Z.shiftr_spec by lia.
      replace (k - (w - 8) + (w - 8)) with k by lia.
      by destruct (Z.testbit c k), (Z.testbit b (k - (w - 8))). }
  rewrite times_lxor by (intros; apply bit_be_lxor; lia).
  rewrite (times_be_shift 8 w poly low) by (change (2 ^ Z.of_nat 8) with 256; lia).
  rewrite uN_lxor by lia. f_equal.
  - apply uN_id. apply times_range; [|rewrite Z.shiftl_mul_pow2 by lia; nia].
    intros x _. apply uN_range. lia.
  - apply Z.bits_inj'. intros k Hk. rewrite testbit_uN by lia. change (Z.of_nat 8) with 8.
    destruct (Z.ltb_spec k 8).
    + rewrite !Z.shiftl_spec_low by lia. apply andb_false_r.
    + rewrite !(Z.shiftl_spec _ _ k) by lia. unfold low. rewrite testbit_uN by lia.
      f_equal. apply Bool.eq_iff_eq_true. rewrite !Z.ltb_lt. lia.
Qed.

(** ** The functions *)

Lemma crc_loop_eq (P : Z -> Prop) step step' c buf :
  P c -> Forall (fun b => 0 <= b < 256) buf ->
  (forall c b, P c -> 0 <= b < 256 -> step c b = step' c b /\ P (step' c b)) ->
  crc_loop step c buf = crc_loop step' c buf /\ P (crc_loop step' c buf).
Proof.
  intros Hc Hb Hs. revert c Hc. induction Hb as [|b buf Hb _ IH]; intros c Hc; [done|]. cbn.
  destruct (Hs c b Hc Hb) as [-> HP]. by apply IH.
Qed.

Lemma le_loop w table poly c buf :
  8 <= w -> table_of (times 8 (bit_le poly)) table -> 0 <= poly < 2 ^ w -> 0 <= c < 2 ^ w ->
  Forall (fun b => 0 <= b < 256) buf ->
  crc_loop (fun c b => Z.lxor (entry table (Z.land (Z.lxor c b) 0xff)) (Z.shiftr c 8)) c buf =
  crc_loop (fun c b => times 8 (bit_le poly) (Z.lxor c b)) c buf.
Proof.
  intros Hw Ht Hp Hc Hb. apply (crc_loop_eq (fun c => 0 <= c < 2 ^ w)); [done..|].
  intros x b Hx Hbb. split; [apply step_le; done || lia|].
  apply (times_range (fun c => 0 <= c < 2 ^ w)); [intros; apply bit_le_range; lia|].
  apply lxor_range; [lia|done|]. apply byte_in; lia.
Qed.

Lemma be_loop w table poly c buf :
  8 <= w -> table_of (fun i => times 8 (bit_be w poly) (Z.shiftl i (w - 8))) table -> 0 <= c < 2 ^ w ->
  Forall (fun b => 0 <= b < 256) buf ->
  crc_loop (fun c b => uN w (Z.lxor (entry table (Z.lxor (Z.shiftr c (w - 8)) b)) (Z.shiftl c 8))) c buf =
  crc_loop (fun c b => times 8 (bit_be w poly) (Z.lxor c (Z.shiftl b (w - 8)))) c buf.
Proof.
  intros Hw Ht Hc Hb. apply (crc_loop_eq (fun c => 0 <= c < 2 ^ w)); [done..|].
  intros x b Hx Hbb. rewrite <- (step_be w table poly) by done. split; [done|].
  apply uN_range. lia.
Qed.

(** C31. The table-driven CRC functions compute the remainder of the bit-by-bit
    division by their polynomials, for every initial value and message. *)
Theorem crc_functions_divide (crc : Z) (buf : list Z) :
  Forall (fun b => 0 <= b < 256) buf ->
  esp_rom_crc8_be crc buf = crc_be 8 0x07 crc buf /\
  esp_rom_crc16_be crc buf = crc_be 16 0x1021 crc buf /\
  esp_rom_crc32_be crc buf = crc_be 32 0x04c11db7 crc buf /\
  esp_rom_crc8_le crc buf = crc_le 8 0xe0 crc buf /\
  esp_rom_crc16_le crc buf = crc_le 16 0x8408 crc buf /\
  esp_rom_crc32_le crc buf = crc_le 32 0xedb88320 crc buf.
Proof.
  intros Hb. pose proof (fun w (Hw : 0 <= w) => uN_range w (Z.lnot crc) Hw) as Hr.
  unfold esp_rom_crc8_be, esp_rom_crc16_be, esp_rom_crc32_be, esp_rom_crc8_le, esp_rom_crc16_le,
    esp_rom_crc32_le, crc_be, crc_le.
  split_and!; do 2 f_equal.
  - apply (crc_loop_eq (fun c => 0 <= c < 2 ^ 8)); [apply Hr; lia|done|].
    intros c b Hc Hbb. rewrite Z.shiftl_0_r.
    rewrite (entry_table _ _ _ crc8_be_table_ok) by (apply (lxor_range 8); lia).
    split; [done|]. apply (times_range (fun c => 0 <= c < 2 ^ 8)); [intros; apply uN_range; lia|].
    apply lxor_range; lia.
  - apply (be_loop 16); [lia|apply crc16_be_table_ok|apply Hr; lia|done].
  - apply (be_loop 32); [lia|apply crc32_be_table_ok|apply Hr; lia|done].
  - apply (crc_loop_eq (fun c => 0 <= c < 2 ^ 8)); [apply Hr; lia|done|].
    intros c b Hc Hbb. assert (0 <= Z.lxor c b < 2 ^ 8) by (apply lxor_range; lia).
    rewrite (entry_table _ _ _ crc8_le_table_ok) by done. split; [done|].
    apply (times_range (fun c => 0 <= c < 2 ^ 8)); [intros; apply bit_le_range; lia|done].
  - apply (le_loop 16); [lia|apply crc16_le_table_ok|lia|apply Hr; lia|done].
  - apply (le_loop 32); [lia|apply crc32_le_table_ok|lia|apply Hr; lia|done].
Qed.

Lemma crc_functions_divide_witness :
  let buf := [0x31; 0x32; 0x33; 0x34] in
  esp_rom_crc8_be 0 buf = crc_be 8 0x07 0 buf /\ esp_rom_crc16_be 0 buf = crc_be 16 0x1021 0 buf /\
  esp_rom_crc32_be 0 buf = crc_be 32 0x04c11db7 0 buf /\ esp_rom_crc8_le 0 buf = crc_le 8 0xe0 0 buf /\
  esp_rom_crc16_le 0 buf = crc_le 16 0x8408 0 buf /\ esp_rom_crc32_le 0 buf = crc_le 32 0xedb88320 0 buf.
Proof. apply crc_functions_divide. repeat constructor; lia. Defined.

(** ** The 32-bit CRC of a word *)

Definition UINT32_MAX : Z := 4294967295.

Lemma times_add n m f c : times n f (times m f c) = times (m + n) f c.
Proof. revert c. induction m as [|m IH]; intros c; [done|]. cbn. apply IH. Qed.

Lemma bit_le_inj w poly a b :
  0 < w -> 0 <= poly < 2 ^ w -> Z.testbit poly (w - 1) = true ->
  0 <= a < 2 ^ w -> 0 <= b < 2 ^ w -> bit_le poly a = bit_le poly b -> a = b.
Proof.
  intros Hw Hp Ht Ha Hb E.
  assert (forall x, 0 <= x < 2 ^ w -> Z.testbit (bit_le poly x) (w - 1) = Z.testbit x 0) as Hbit.
  { intros x Hx. unfold bit_le.
    assert (Z.testbit (Z.shiftr x 1) (w - 1) = false) as Hs
      by (rewrite Z.shiftr_spec by lia; apply (testbit_high w); lia).
    destruct (Z.testbit x 0); [|done]. by rewrite Z.lxor_spec, Hs, Ht. }
  pose proof (Hbit a Ha) as H1. rewrite E, (Hbit b Hb) in H1.
  assert (Z.shiftr a 1 = Z.shiftr b 1) as E1.
  { unfold bit_le in E. rewrite H1 in E. destruct (Z.testbit a 0); [|done].
    apply (f_equal (fun x => Z.lxor x poly)) in E. by rewrite !Z.lxor_assoc, Z.lxor_nilpotent, !Z.lxor_0_r in E. }
  apply Z.bits_inj'. intros i Hi. destruct (decide (i = 0)) as [->|]; [done|].
  replace i with (i - 1 + 1) by lia. by rewrite <- !Z.shiftr_spec, E1 by lia.
Qed.

Lemma times_le_inj n w poly a b :
  0 < w -> 0 <= poly < 2 ^ w -> Z.testbit poly (w - 1) = true ->
  0 <= a < 2 ^ w -> 0 <= b < 2 ^ w -> times n (bit_le poly) a = times n (bit_le poly) b -> a = b.
Proof.
  intros Hw Hp Ht. revert a b. induction n as [|n IH]; intros a b Ha Hb E; [done|]. cbn in E.
  apply IH in E; try (apply bit_le_range; lia). by apply (bit_le_inj w poly).
Qed.

Lemma next_byte n poly c b :
  Z.lxor (times n (bit_le poly) c) b = times n (bit_le poly) (Z.lxor c (Z.shiftl b (Z.of_nat n))).
Proof. rewrite times_lxor by apply bit_le_lxor. by rewrite times_le_shift. Qed.

Lemma word_bytes v : 0 <= v < 2 ^ 32 ->
  v = Z.lxor (Z.lxor (Z.lxor (v mod 256) (Z.shiftl ((v / 256) mod 256) 8))
                 (Z.shiftl ((v / 65536) mod 256) 16)) (Z.shiftl ((v / 16777216) mod 256) 24).
Proof.
  intros Hv.
  assert (forall a b k, 0 <= k -> 0 <= a < 2 ^ k -> 0 <= b -> Z.lxor a (Z.shiftl b k) = a + b * 2 ^ k) as Hadd.
  { intros a b k Hk Ha Hb. rewrite <- Z.shiftl_mul_pow2 by done. symmetry. apply Z.add_nocarry_lxor.
    apply Z.bits_inj'. intros i Hi. rewrite Z.land_spec, Z.bits_0. destruct (Z.ltb_spec i k).
    - rewrite Z.shiftl_spec_low by done. apply andb_false_r.
    - by rewrite (testbit_high k). }
  rewrite (Hadd (v mod 256)) by (Z.div_mod_to_equations; lia).
  rewrite (Hadd (v mod 256 + _)) by (Z.div_mod_to_equations; lia).
  rewrite Hadd by (Z.div_mod_to_equations; lia). Z.div_mod_to_equations. lia.
Qed.

Lemma crc32_word v : 0 <= v < 2 ^ 32 ->
  esp_rom_crc32_le UINT32_MAX (bytes32 v) = 2 ^ 32 - 1 - times 32 (bit_le 0xedb88320) v.
Proof.
  intros Hv. unfold esp_rom_crc32_le.
  rewrite (le_loop 32 _ 0xedb88320); [|lia|apply crc32_le_table_ok|lia|apply uN_range; lia|].
  2:{ unfold bytes32. repeat constructor; apply Z.mod_pos_bound; lia. }
  replace (u32 (Z.lnot UINT32_MAX)) with 0 by reflexivity.
  cbn [bytes32 crc_loop]. rewrite Z.lxor_0_l.
  repeat first [rewrite next_byte | rewrite times_add]. cbn [Nat.add Z.of_nat].
  change (Z.of_nat 8) with 8. change (Z.of_nat 16) with 16. change (Z.of_nat 24) with 24.
  rewrite <- word_bytes by done. apply uN_lnot; [lia|].
  apply (times_range (fun c => 0 <= c < 2 ^ 32)); [intros; apply bit_le_range; lia|done].
Qed.

Lemma crc32_word_inj a b :
  0 <= a < 2 ^ 32 -> 0 <= b < 2 ^ 32 ->
  esp_rom_crc32_le UINT32_MAX (bytes32 a) = esp_rom_crc32_le UINT32_MAX (bytes32 b) -> a = b.
Proof.
  intros Ha Hb. rewrite !crc32_word by done. intros E.
  apply (times_le_inj 32 32 0xedb88320); [lia|lia|reflexivity|done|done|lia].
Qed.

Lemma crc32_word_range v : 0 <= v < 2 ^ 32 -> 0 <= esp_rom_crc32_le UINT32_MAX (bytes32 v) < 2 ^ 32.
Proof.
  intros Hv. rewrite crc32_word by done.
  pose proof (times_range (fun c => 0 <= c < 2 ^ 32) 32 (bit_le 0xedb88320) v) as H.
  cbn beta in H. enough (0 <= times 32 (bit_le 0xedb88320) v < 2 ^ 32) by lia.
  apply H; [intros; apply bit_le_range; lia|done].
Qed.

(** Only the word 0 has the checksum of erased flash. *)
Lemma crc32_word_erased v :
  0 <= v < 2 ^ 32 -> esp_rom_crc32_le UINT32_MAX (bytes32 v) = UINT32_MAX -> v = 0.
Proof. intros Hv E. apply crc32_word_inj; [done|lia|]. rewrite E. reflexivity. Qed.
