(* ===== verification/Flash.v ===== *)
(** * Flash memory and partitions

    Sources: [components/esp_partition/partition_target.c] (reading, writing
    and erasing a partition) and [components/esp_partition/partition.c]
    (finding partitions, registering external ones).

    The chip below [esp_flash_write] and [esp_flash_erase_region] is NOR flash:
    erasing sets bytes to 255, writing can only clear bits.  A chip carries the
    list of the outcomes of its next operations: an operation either completes
    or stops after some bytes with an error; when the list is used up all
    operations complete.  A power failure is an operation that stops, followed
    by operations that stop at once.  The contents are what a read through the
    cache returns, that is, decrypted where the flash is encrypted. *)

From S2P Require Import Prelude EspErr.

Inductive outcome := Done | Stops (n : nat) (err : esp_err_t).

Record flash := MkFlash {
  cells : mem;
  outcomes : list outcome
}.

Definition SPI_FLASH_SEC_SIZE : Z := 4096.

(** Writing clears bits. *)
Definition program (m : mem) (a : Z) (bs : list Z) : mem :=
  fun x => if (a <=? x) && (x <? a + Z.of_nat (length bs))
           then Z.land (m x) (default 255 (bs !! Z.to_nat (x - a))) else m x.

Definition erased (m : mem) (a n : Z) : mem :=
  fun x => if (a <=? x) && (x <? a + n) then 255 else m x.

Definition next_outcome (f : flash) : outcome := default Done (head (outcomes f)).

Definition esp_flash_write (a : Z) (bs : list Z) (f : flash) : esp_err_t * flash :=
  match next_outcome f with
  | Done => (ESP_OK, MkFlash (program (cells f) a bs) (tail (outcomes f)))
  | Stops n err => (err, MkFlash (program (cells f) a (take n bs)) (tail (outcomes f)))
  end.

Definition esp_flash_erase_region (a n : Z) (f : flash) : esp_err_t * flash :=
  match next_outcome f with
  | Done => (ESP_OK, MkFlash (erased (cells f) a n) (tail (outcomes f)))
  | Stops k err => (err, MkFlash (erased (cells f) a (Z.min (Z.of_nat k) n)) (tail (outcomes f)))
  end.

(** Outcomes that are possible: an operation that stops reports an error. *)
Definition outcome_ok (o : outcome) : Prop :=
  match o with Done => True | Stops _ err => err <> ESP_OK end.

(** ** Partitions

    A pointer into the list of partitions is the partition itself: the lookup
    functions return the first of several equal entries. *)

Record esp_partition_t := MkPartition {
  type : Z;
  subtype : Z;
  address : Z;
  size : Z;
  erase_size : Z;
  label : list Z;
  encrypted : bool;
  readonly : bool;
  user_registered : bool
}.

#[export] Instance esp_partition_eq_dec : EqDecision esp_partition_t.
Proof. solve_decision. Defined.

Definition ESP_PARTITION_TYPE_APP : Z := 0x00.
Definition ESP_PARTITION_TYPE_DATA : Z := 0x01.
Definition ESP_PARTITION_TYPE_BOOTLOADER : Z := 0x02.
Definition ESP_PARTITION_TYPE_PARTITION_TABLE : Z := 0x03.
Definition ESP_PARTITION_TYPE_ANY : Z := 0xff.
Definition ESP_PARTITION_SUBTYPE_APP_FACTORY : Z := 0x00.
Definition ESP_PARTITION_SUBTYPE_APP_OTA_MIN : Z := 0x10.
Definition ESP_PARTITION_SUBTYPE_APP_OTA_MAX : Z := 0x20.
Definition ESP_PARTITION_SUBTYPE_APP_TEST : Z := 0x20.
Definition ESP_PARTITION_SUBTYPE_DATA_OTA : Z := 0x00.
Definition ESP_PARTITION_SUBTYPE_DATA_NVS_KEYS : Z := 0x04.
Definition ESP_PARTITION_SUBTYPE_DATA_TEE_OTA : Z := 0x90.
Definition ESP_PARTITION_SUBTYPE_ANY : Z := 0xff.

(** The checks that reading, writing, erasing and mapping share.  The sum of
    address and offset behind them is a 32-bit number. *)
Definition check_range (p : esp_partition_t) (offset n : Z) : esp_err_t :=
  if offset >? size p then ESP_ERR_INVALID_ARG
  else if n >? size p - offset then ESP_ERR_INVALID_SIZE
  else ESP_OK.

Definition esp_partition_read (p : esp_partition_t) (src_offset n : Z) (f : flash) : esp_err_t * list Z :=
  let err := check_range p src_offset n in
  if negb (err =? ESP_OK) then (err, [])
  else (ESP_OK, load_bytes (cells f) (u32 (address p + src_offset)) n).

Definition esp_partition_write (p : esp_partition_t) (dst_offset : Z) (src : list Z) (f : flash) : esp_err_t * flash :=
  if readonly p then (ESP_ERR_NOT_ALLOWED, f)
  else
    let err := check_range p dst_offset (Z.of_nat (length src)) in
    if negb (err =? ESP_OK) then (err, f)
    else esp_flash_write (u32 (address p + dst_offset)) src f.

Definition esp_partition_erase_range (p : esp_partition_t) (offset n : Z) (f : flash) : esp_err_t * flash :=
  if readonly p then (ESP_ERR_NOT_ALLOWED, f)
  else
    let err := check_range p offset n in
    if negb (err =? ESP_OK) then (err, f)
    else if negb (n mod SPI_FLASH_SEC_SIZE =? 0) then (ESP_ERR_INVALID_SIZE, f)
    else if negb (offset mod SPI_FLASH_SEC_SIZE =? 0) then (ESP_ERR_INVALID_ARG, f)
    else esp_flash_erase_region (u32 (address p + offset)) n f.

Definition esp_partition_read_raw := esp_partition_read.

Definition esp_partition_write_raw (p : esp_partition_t) (dst_offset : Z) (src : list Z) (f : flash) : esp_err_t * flash :=
  if readonly p then (ESP_ERR_NOT_ALLOWED, f)
  else
    let err := check_range p dst_offset (Z.of_nat (length src)) in
    if negb (err =? ESP_OK) then (err, f)
    else esp_flash_write (u32 (address p + dst_offset)) src f.

(** ** Iterators *)

Record esp_partition_iterator := MkIterator {
  it_type : Z;
  it_subtype : Z;
  it_label : option (list Z);
  next_item : list esp_partition_t;
  info : option esp_partition_t
}.

Definition matches (it : esp_partition_iterator) (p : esp_partition_t) : bool :=
  if negb (it_type it =? ESP_PARTITION_TYPE_ANY) && negb (it_type it =? type p) then false
  else if negb (it_subtype it =? ESP_PARTITION_SUBTYPE_ANY) && negb (it_subtype it =? subtype p) then false
  else match it_label it with None => true | Some l => bool_decide (l = label p) end.

(** The loop of [esp_partition_next]. *)
Fixpoint skip_items (it : esp_partition_iterator) (items : list esp_partition_t) : list esp_partition_t :=
  match items with
  | [] => []
  | p :: items' => if matches it p then items else skip_items it items'
  end.

(** [None]: the iterator has been released. *)
Definition esp_partition_next (it : esp_partition_iterator) : option esp_partition_iterator :=
  match skip_items it (next_item it) with
  | [] => None
  | p :: items => Some (MkIterator (it_type it) (it_subtype it) (it_label it) items (Some p))
  end.

Section partitions.
(** The loaded list [s_partition_list]. *)
Context (parts : list esp_partition_t).

Definition iterator_create (type subtype : Z) (label : option (list Z)) : esp_partition_iterator :=
  MkIterator type subtype label parts None.

Definition esp_partition_find (type subtype : Z) (label : option (list Z)) : option esp_partition_iterator :=
  if (type =? ESP_PARTITION_TYPE_ANY) && negb (subtype =? ESP_PARTITION_SUBTYPE_ANY) then None
  else esp_partition_next (iterator_create type subtype label).

Definition esp_partition_get (it : esp_partition_iterator) : option esp_partition_t := info it.

Definition esp_partition_find_first (type subtype : Z) (label : option (list Z)) : option esp_partition_t :=
  match esp_partition_find type subtype label with None => None | Some it => esp_partition_get it end.

(** The loop of [esp_partition_verify]; [fuel] exceeds the number of items left. *)
Fixpoint verify_loop (fuel : nat) (partition : esp_partition_t) (it : option esp_partition_iterator) : option esp_partition_t :=
  match fuel, it with
  | S fuel, Some it =>
      match esp_partition_get it with
      | Some p =>
          if (address p =? address partition) && (size partition =? size p) && Bool.eqb (encrypted partition) (encrypted p)
          then Some p else verify_loop fuel partition (esp_partition_next it)
      | None => None
      end
  | _, _ => None
  end.

Definition esp_partition_verify (partition : esp_partition_t) : option esp_partition_t :=
  let lbl := if (0 <? length (label partition))%nat then Some (label partition) else None in
  verify_loop (S (length parts)) partition (esp_partition_find (type partition) (subtype partition) lbl).

(** ** Guards of the flash driver *)

(** The two tests of a region against a partition; sums are [size_t]. *)
Definition region_hits (addr n : Z) (p : esp_partition_t) : bool :=
  ((addr >=? address p) && (addr <? u32 (address p + size p)))
  || ((addr <? address p) && (u32 (addr + n) >? address p)).

(** The iterator with any type and subtype visits every item. *)
Definition esp_partition_is_flash_region_writable (addr n : Z) : bool :=
  forallb (fun p => negb (readonly p && region_hits addr n p)) parts.

(** [p] is the running partition. *)
Definition esp_partition_main_flash_region_safe (table_offset : Z) (p : esp_partition_t) (addr n : Z) : bool :=
  if addr <=? table_offset + 0xC00 then false
  else negb (region_hits addr n p).

Definition esp_partition_unload_all : list esp_partition_t := [].

(** ** External partitions *)

(** [None]: the assertion that both regions are not empty fails. *)
Definition bootloader_util_regions_overlap (start1 end1 start2 end2 : Z) : option bool :=
  configASSERT (end1 >? start1); configASSERT (end2 >? start2);
  Some ((end1 >? start2) && (end2 >? start1)).

(** Addresses are [size_t], the regions [intptr_t]. *)
Fixpoint overlaps_any (offset n : Z) (l : list esp_partition_t) : option bool :=
  match l with
  | [] => Some false
  | it :: l =>
      let? b := bootloader_util_regions_overlap (s32 offset) (s32 (offset + n)) (s32 (address it)) (s32 (address it + size it)) in
      if b then Some true else overlaps_any offset n l
  end.

Definition is_partition_encrypted (flash_encryption encryption_config : bool) (type subtype : Z) : bool :=
  if negb flash_encryption then false
  else if (type =? ESP_PARTITION_TYPE_APP)
       || (type =? ESP_PARTITION_TYPE_BOOTLOADER)
       || (type =? ESP_PARTITION_TYPE_PARTITION_TABLE)
       || ((type =? ESP_PARTITION_TYPE_DATA) && (subtype =? ESP_PARTITION_SUBTYPE_DATA_OTA))
       || ((type =? ESP_PARTITION_TYPE_DATA) && (subtype =? ESP_PARTITION_SUBTYPE_DATA_TEE_OTA))
       || ((type =? ESP_PARTITION_TYPE_DATA) && (subtype =? ESP_PARTITION_SUBTYPE_DATA_NVS_KEYS))
  then true else encryption_config.

(** [strlcpy] into the 17 bytes of the label: at most 16 characters. *)
Definition esp_partition_register_external (chip_size offset n : Z) (lbl : list Z) (type subtype : Z)
    (flash_encryption calloc_ok : bool) : option (esp_err_t * list esp_partition_t * option esp_partition_t) :=
  if u32 (offset + n) >? chip_size then Some (ESP_ERR_INVALID_SIZE, parts, None) else
  if negb calloc_ok then Some (ESP_ERR_NO_MEM, parts, None) else
  let item := MkPartition type subtype offset n SPI_FLASH_SEC_SIZE (take 16 lbl)
                (is_partition_encrypted flash_encryption false type subtype) false true in
  let? b := overlaps_any offset n parts in
  if b then Some (ESP_ERR_INVALID_ARG, parts, None)
  else Some (ESP_OK, parts ++ [item], Some item).
End partitions.

(** [SLIST_FOREACH_SAFE] with [SLIST_REMOVE]. *)
Fixpoint esp_partition_deregister_external (partition : esp_partition_t) (parts : list esp_partition_t)
    : esp_err_t * list esp_partition_t :=
  match parts with
  | [] => (ESP_ERR_NOT_FOUND, [])
  | it :: parts =>
      if bool_decide (it = partition) then
        if negb (user_registered it) then (ESP_ERR_INVALID_ARG, it :: parts) else (ESP_OK, parts)
      else let '(err, parts) := esp_partition_deregister_external partition parts in (err, it :: parts)
  end.
