(* ===== verification/FlashProps.v ===== *)
(** * Properties of flash operations and of the partition list

    The effect of every flash operation on the memory, whatever its outcome;
    erasing, writing and reading back; what the iterators visit; registering
    external partitions; the guards that protect regions. *)

From S2P Require Import Prelude EspErr Flash.

(** ** Programming and erasing a memory *)

Definition is_byte (b : Z) : Prop := 0 <= b < 256.

Lemma land_255 b : is_byte b -> Z.land 255 b = b.
Proof.
  intros Hb. rewrite Z.land_comm. change 255 with (Z.ones 8). rewrite Z.land_ones by lia.
  apply Z.mod_small. unfold is_byte in Hb. lia.
Qed.

Lemma program_other m a bs x : x < a \/ a + Z.of_nat (length bs) <= x -> program m a bs x = m x.
Proof. intros H. unfold program. cmp_cases; cbn; lia || done. Qed.

Lemma program_inside m a bs x b :
  a <= x -> bs !! Z.to_nat (x - a) = Some b -> program m a bs x = Z.land (m x) b.
Proof.
  intros Hx E. pose proof (lookup_lt_Some _ _ _ E) as Hlt. unfold program. rewrite E.
  cmp_cases; cbn; lia || done.
Qed.

Lemma erased_other m a n x : x < a \/ a + n <= x -> erased m a n x = m x.
Proof. intros H. unfold erased. cmp_cases; cbn; lia || done. Qed.

Lemma erased_inside m a n x : a <= x < a + n -> erased m a n x = 255.
Proof. intros H. unfold erased. cmp_cases; cbn; lia || done. Qed.

Lemma program_blank m a bs :
  (forall x, a <= x < a + Z.of_nat (length bs) -> m x = 255) -> Forall is_byte bs ->
  load_bytes (program m a bs) a (Z.of_nat (length bs)) = bs.
Proof.
  intros Hm Hb. apply list_eq. intros i. destruct (decide (i < length bs)%nat) as [Hi|Hi].
  - rewrite load_bytes_lookup by lia. destruct (lookup_lt_is_Some_2 bs i Hi) as [b E].
    rewrite (program_inside _ _ _ _ b), Hm by (rewrite ?Z.add_simpl_l, ?Nat2Z.id; lia || done).
    rewrite E, land_255; [done|]. by eapply (Forall_lookup_1 _ _ _ _ Hb).
  - rewrite !lookup_ge_None_2; rewrite ?length_load_bytes; lia || done.
Qed.

(** ** Every outcome of an operation *)

(** Cells in [a, a+n) may differ. *)
Definition same_outside (a n : Z) (m m' : mem) : Prop :=
  forall x, x < a \/ a + n <= x -> m' x = m x.

Lemma same_outside_refl a n m : same_outside a n m m.
Proof. intros x _. done. Qed.

Lemma same_outside_trans a n m1 m2 m3 :
  same_outside a n m1 m2 -> same_outside a n m2 m3 -> same_outside a n m1 m3.
Proof. intros H1 H2 x Hx. rewrite H2, H1 by done. done. Qed.

Lemma same_outside_weaken a n a' n' m m' :
  same_outside a n m m' -> a' <= a -> a + n <= a' + n' -> same_outside a' n' m m'.
Proof. intros H H1 H2 x Hx. apply H. lia. Qed.

Create HintDb flash.
#[export] Hint Resolve same_outside_refl : flash.

Lemma flash_write_frame a bs f :
  same_outside a (Z.of_nat (length bs)) (cells f) (cells (snd (esp_flash_write a bs f))).
Proof.
  intros x Hx. unfold esp_flash_write. destruct (next_outcome f) as [|n err]; apply program_other; [done|].
  rewrite length_take. lia.
Qed.

Lemma flash_erase_frame a n f :
  same_outside a n (cells f) (cells (snd (esp_flash_erase_region a n f))).
Proof.
  intros x Hx. unfold esp_flash_erase_region. destruct (next_outcome f) as [|k err]; apply erased_other; lia.
Qed.

Definition outcomes_ok (f : flash) : Prop := Forall outcome_ok (outcomes f).

Lemma next_outcome_ok f : outcomes_ok f -> outcome_ok (next_outcome f).
Proof. intros H. unfold next_outcome. by destruct H. Qed.

Lemma outcomes_ok_tail f m : outcomes_ok f -> outcomes_ok (MkFlash m (tail (outcomes f))).
Proof. intros H. unfold outcomes_ok. cbn. by destruct H. Qed.

Lemma flash_write_outcomes a bs f : outcomes_ok f -> outcomes_ok (snd (esp_flash_write a bs f)).
Proof. intros H. unfold esp_flash_write. by destruct (next_outcome f); apply outcomes_ok_tail. Qed.

Lemma flash_erase_outcomes a n f : outcomes_ok f -> outcomes_ok (snd (esp_flash_erase_region a n f)).
Proof. intros H. unfold esp_flash_erase_region. by destruct (next_outcome f); apply outcomes_ok_tail. Qed.

(** An operation that reports success has completed. *)
Lemma flash_write_done a bs f f' :
  outcomes_ok f -> esp_flash_write a bs f = (ESP_OK, f') -> cells f' = program (cells f) a bs.
Proof.
  intros H. unfold esp_flash_write. pose proof (next_outcome_ok f H) as Ho.
  destruct (next_outcome f) as [|n err]; intros E; simplify_eq; done.
Qed.

Lemma flash_erase_done a n f f' :
  outcomes_ok f -> esp_flash_erase_region a n f = (ESP_OK, f') -> cells f' = erased (cells f) a n.
Proof.
  intros H. unfold esp_flash_erase_region. pose proof (next_outcome_ok f H) as Ho.
  destruct (next_outcome f) as [|k err]; intros E; simplify_eq; done.
Qed.

(** ** Operations on a partition *)

Lemma check_range_ok p o n : check_range p o n = ESP_OK <-> o <= size p /\ o + n <= size p.
Proof. unfold check_range. cmp_cases; split; intros ?; try done; lia. Qed.

(** The bytes of a partition. *)
Definition in_part (p : esp_partition_t) (x : Z) : Prop := address p <= x < address p + size p.
Definition changes_only (p : esp_partition_t) (m m' : mem) : Prop := same_outside (address p) (size p) m m'.

(** The partition lies in the 32-bit address space of the flash. *)
Definition addressable (p : esp_partition_t) : Prop := 0 <= address p /\ address p + size p < 2 ^ 32.

Lemma addressable_sum p o : addressable p -> 0 <= o <= size p -> u32 (address p + o) = address p + o.
Proof. intros [? ?] ?. apply u32_id. lia. Qed.

(** Whatever the outcome, only the bytes that were to be written may change. *)
Lemma partition_write_range p o src f :
  addressable p -> 0 <= o ->
  same_outside (address p + o) (Z.of_nat (length src)) (cells f) (cells (snd (esp_partition_write p o src f))) /\
  changes_only p (cells f) (cells (snd (esp_partition_write p o src f))).
Proof.
  intros Hp Ho. unfold esp_partition_write, changes_only. destruct (readonly p); [by split|].
  destruct (Z.eqb_spec (check_range p o (Z.of_nat (length src))) ESP_OK) as [E|E]; [|by split]. cbn [negb].
  apply check_range_ok in E. rewrite addressable_sum by (done || lia).
  pose proof (flash_write_frame (address p + o) src f) as Hf. split; [done|]. eapply same_outside_weaken; [exact Hf|lia..].
Qed.

Lemma partition_erase_range_only p o n f :
  addressable p -> 0 <= o ->
  same_outside (address p + o) n (cells f) (cells (snd (esp_partition_erase_range p o n f))) /\
  changes_only p (cells f) (cells (snd (esp_partition_erase_range p o n f))).
Proof.
  intros Hp Ho. unfold esp_partition_erase_range, changes_only. destruct (readonly p); [by split|].
  destruct (Z.eqb_spec (check_range p o n) ESP_OK) as [E|E]; [|by split]. cbn [negb].
  destruct (negb (n mod SPI_FLASH_SEC_SIZE =? 0)), (negb (o mod SPI_FLASH_SEC_SIZE =? 0)); try by split.
  apply check_range_ok in E. rewrite addressable_sum by (done || lia).
  pose proof (flash_erase_frame (address p + o) n f) as Hf. split; [done|]. eapply same_outside_weaken; [exact Hf|lia..].
Qed.

Lemma partition_write_frame p o src f :
  addressable p -> 0 <= o -> changes_only p (cells f) (cells (snd (esp_partition_write p o src f))).
Proof. intros. by apply partition_write_range. Qed.

Lemma partition_erase_frame p o n f :
  addressable p -> 0 <= o -> changes_only p (cells f) (cells (snd (esp_partition_erase_range p o n f))).
Proof. intros. by apply partition_erase_range_only. Qed.

Lemma partition_write_outcomes p o src f : outcomes_ok f -> outcomes_ok (snd (esp_partition_write p o src f)).
Proof. intros H. unfold esp_partition_write. repeat case_match; try done. by apply flash_write_outcomes. Qed.

Lemma partition_erase_outcomes p o n f : outcomes_ok f -> outcomes_ok (snd (esp_partition_erase_range p o n f)).
Proof. intros H. unfold esp_partition_erase_range. repeat case_match; try done. by apply flash_erase_outcomes. Qed.

#[export] Hint Resolve partition_write_outcomes partition_erase_outcomes : flash.

Lemma partition_write_ok p o src f f' :
  addressable p -> 0 <= o -> outcomes_ok f -> esp_partition_write p o src f = (ESP_OK, f') ->
  readonly p = false /\ o <= size p /\ o + Z.of_nat (length src) <= size p /\
  cells f' = program (cells f) (address p + o) src.
Proof.
  intros Hp Ho H E. unfold esp_partition_write in E. destruct (readonly p); [done|].
  destruct (Z.eqb_spec (check_range p o (Z.of_nat (length src))) ESP_OK) as [Er|Er]; cbn in E; [|simplify_eq; done].
  apply check_range_ok in Er. rewrite addressable_sum in E by (done || lia). apply flash_write_done in E; [|done]. naive_solver.
Qed.

Lemma partition_erase_ok p o n f f' :
  addressable p -> 0 <= o -> outcomes_ok f -> esp_partition_erase_range p o n f = (ESP_OK, f') ->
  readonly p = false /\ o <= size p /\ o + n <= size p /\ n mod SPI_FLASH_SEC_SIZE = 0 /\ o mod SPI_FLASH_SEC_SIZE = 0 /\
  cells f' = erased (cells f) (address p + o) n.
Proof.
  intros Hp Ho H E. unfold esp_partition_erase_range in E. destruct (readonly p); [done|].
  destruct (Z.eqb_spec (check_range p o n) ESP_OK) as [Er|Er]; cbn in E; [|simplify_eq; done].
  destruct (Z.eqb_spec (n mod SPI_FLASH_SEC_SIZE) 0); cbn in E; [|done].
  destruct (Z.eqb_spec (o mod SPI_FLASH_SEC_SIZE) 0); cbn in E; [|done].
  apply check_range_ok in Er. rewrite addressable_sum in E by (done || lia). apply flash_erase_done in E; [|done]. naive_solver.
Qed.

(** A range that is not made of whole sectors of the partition is refused. *)
Lemma partition_erase_refused p o n f :
  n mod SPI_FLASH_SEC_SIZE <> 0 \/ o mod SPI_FLASH_SEC_SIZE <> 0 \/ size p < o + n \/ size p < o ->
  exists err, err <> ESP_OK /\ esp_partition_erase_range p o n f = (err, f).
Proof.
  intros H. unfold esp_partition_erase_range. destruct (readonly p); [by exists ESP_ERR_NOT_ALLOWED|].
  destruct (Z.eqb_spec (check_range p o n) ESP_OK) as [Er|Er]; cbn [negb]; [|by exists (check_range p o n)]. apply check_range_ok in Er.
  destruct (Z.eqb_spec (n mod SPI_FLASH_SEC_SIZE) 0); cbn [negb]; [|by exists ESP_ERR_INVALID_SIZE].
  destruct (Z.eqb_spec (o mod SPI_FLASH_SEC_SIZE) 0); cbn [negb]; [lia|by exists ESP_ERR_INVALID_ARG].
Qed.

(** C38. Erasing a range of a partition and writing data into it, whatever the
    outcomes of the two flash operations: no byte outside the range changes,
    and none outside the partition, also when an operation stops halfway or
    the arguments are wrong.  A range that is not made of whole sectors of the
    partition is refused and nothing is erased.  When both operations report
    success, reading returns the data and the rest of the range is blank.
    (The partition is in the 32-bit address space.) *)
Theorem erase_write_read (p : esp_partition_t) (o n : Z) (bs : list Z) (f f1 f2 : flash) (e1 e2 : esp_err_t) :
  addressable p -> outcomes_ok f -> Forall is_byte bs -> 0 <= o -> Z.of_nat (length bs) <= n ->
  esp_partition_erase_range p o n f = (e1, f1) ->
  esp_partition_write p o bs f1 = (e2, f2) ->
  same_outside (address p + o) n (cells f) (cells f1) /\ same_outside (address p + o) n (cells f) (cells f2) /\
  changes_only p (cells f) (cells f1) /\ changes_only p (cells f) (cells f2) /\
  (o mod SPI_FLASH_SEC_SIZE <> 0 \/ n mod SPI_FLASH_SEC_SIZE <> 0 \/ size p < o + n -> e1 <> ESP_OK /\ f1 = f) /\
  (e1 = ESP_OK -> e2 = ESP_OK ->
   esp_partition_read p o (Z.of_nat (length bs)) f2 = (ESP_OK, bs) /\
   forall x, address p + o + Z.of_nat (length bs) <= x < address p + o + n -> cells f2 x = 255).
Proof.
  intros Hp Ho Hb H0 Hn E1 E2.
  pose proof (partition_erase_outcomes p o n f Ho) as Ho1. rewrite E1 in Ho1. cbn [snd] in Ho1.
  destruct (partition_erase_range_only p o n f Hp H0) as [A1 A2]. rewrite E1 in A1, A2. cbn [snd] in A1, A2.
  destruct (partition_write_range p o bs f1 Hp H0) as [B1 B2]. rewrite E2 in B1, B2. cbn [snd] in B1, B2.
  split_and!; [done| |done|by eapply same_outside_trans| |].
  - eapply same_outside_trans; [exact A1|]. eapply same_outside_weaken; [exact B1|lia..].
  - intros H. destruct (partition_erase_refused p o n f) as (err & Herr & E); [lia|]. rewrite E in E1. by injection E1 as <- <-.
  - intros -> ->. apply partition_erase_ok in E1 as (_ & _ & Hs & _ & _ & E1); [|done..].
    apply partition_write_ok in E2 as (_ & H1 & H2 & E2); [|done..]. split.
    + unfold esp_partition_read. rewrite (proj2 (check_range_ok p o _)), addressable_sum by (done || lia). cbn [negb Z.eqb ESP_OK]. f_equal.
      rewrite E2, E1. apply program_blank; [|done]. intros x Hx. apply erased_inside. lia.
    + intros x Hx. rewrite E2, program_other, E1 by lia. apply erased_inside. lia.
Qed.

Definition sample_part : esp_partition_t :=
  MkPartition 0 0x10 0x10000 0x3000 4096 [] false false false.

(** The erasing completes, the writing stops after two bytes. *)
Lemma erase_write_read_witness :
  let f := MkFlash (fun _ => 7) [Done; Stops 2 ESP_FAIL] in
  let f1 := MkFlash (erased (cells f) 0x11000 0x1000) [Stops 2 ESP_FAIL] in
  let f2 := MkFlash (program (cells f1) 0x11000 [1; 2]) [] in
  let g2 := MkFlash (program (cells f1) 0x11000 [1; 2; 3]) [] in
  same_outside 0x11000 0x1000 (cells f) (cells f2) /\
  (ESP_OK = ESP_OK -> ESP_OK = ESP_OK -> esp_partition_read sample_part 0x1000 3 g2 = (ESP_OK, [1; 2; 3]) /\
   forall x, 0x11003 <= x < 0x12000 -> cells g2 x = 255).
Proof.
  cbv zeta. split.
  - refine (proj1 (proj2 (erase_write_read sample_part 0x1000 0x1000 [1; 2; 3] (MkFlash (fun _ => 7) [Done; Stops 2 ESP_FAIL]) _ _
      ESP_OK ESP_FAIL _ _ _ _ _ _ _))); try reflexivity; try (repeat constructor; done).
  - refine (proj2 (proj2 (proj2 (proj2 (proj2 (erase_write_read sample_part 0x1000 0x1000 [1; 2; 3] (MkFlash (fun _ => 7) [Done]) _ _
      ESP_OK ESP_OK _ _ _ _ _ _ _)))))); try reflexivity; try (repeat constructor; done).
Defined.

(** ** Lookup in the partition list *)

Section list.
Context (parts : list esp_partition_t).

Lemma skip_items_head it it' items :
  (forall p, matches it p = matches it' p) ->
  head (skip_items it items) = head (filter (fun p => matches it' p = true) items).
Proof.
  intros H. induction items as [|p items IH]; [done|]. cbn [skip_items]. rewrite filter_cons, H.
  destruct (matches it' p) eqn:E; [by rewrite decide_True|]. by rewrite decide_False.
Qed.

(** The items that a search with these constraints visits. *)
Definition selected (ty st : Z) (lbl : option (list Z)) : list esp_partition_t :=
  filter (fun p => matches (MkIterator ty st lbl [] None) p = true) parts.

Lemma find_first_head ty st lbl :
  ty <> ESP_PARTITION_TYPE_ANY -> esp_partition_find_first parts ty st lbl = head (selected ty st lbl).
Proof.
  intros Hty. unfold esp_partition_find_first, esp_partition_find, iterator_create, selected.
  rewrite (proj2 (Z.eqb_neq _ _) Hty). cbn [andb].
  rewrite <- (skip_items_head (MkIterator ty st lbl parts None)) by done. unfold esp_partition_next. cbn [next_item it_type it_subtype it_label].
  by destruct (skip_items _ _).
Qed.

Lemma find_first_some ty st p :
  ty <> ESP_PARTITION_TYPE_ANY -> st <> ESP_PARTITION_SUBTYPE_ANY ->
  esp_partition_find_first parts ty st None = Some p -> p ∈ parts /\ type p = ty /\ subtype p = st.
Proof.
  intros Hty Hst. rewrite find_first_head by done. unfold selected. intros E.
  apply head_Some_elem_of, list_elem_of_filter in E as [E Hp]. split; [done|].
  unfold matches in E. cbn in E. rewrite (proj2 (Z.eqb_neq _ _) Hty), (proj2 (Z.eqb_neq _ _) Hst) in E. cbn in E.
  destruct (Z.eqb_spec ty (type p)), (Z.eqb_spec st (subtype p)); cbn in E; done.
Qed.

(** All infos a loop with [esp_partition_next] sees; [n] bounds the iterations. *)
Fixpoint visited (n : nat) (it : option esp_partition_iterator) : list esp_partition_t :=
  match n, it with
  | S n, Some it => match esp_partition_get it with
                    | Some p => p :: visited n (esp_partition_next it)
                    | None => []
                    end
  | _, _ => []
  end.

Lemma visited_next it n :
  (length (next_item it) <= n)%nat ->
  visited n (esp_partition_next it) = filter (fun p => matches it p = true) (next_item it).
Proof.
  revert it. induction n as [|n IH]; intros it Hn.
  - unfold esp_partition_next. destruct (next_item it); [done|]. cbn in Hn. lia.
  - unfold esp_partition_next.
    assert (forall items, (length items <= S n)%nat ->
      visited (S n) (match skip_items it items with
                     | [] => None
                     | p :: items => Some (MkIterator (it_type it) (it_subtype it) (it_label it) items (Some p))
                     end) = filter (fun p => matches it p = true) items) as H; [|by apply H].
    induction items as [|p items IHi]; intros Hi; [done|]. cbn [skip_items length] in *.
    rewrite filter_cons. destruct (matches it p) eqn:E.
    + rewrite decide_True by done. cbn [visited esp_partition_get info]. f_equal.
      rewrite IH by (cbn; lia). cbn [next_item]. apply list_filter_iff. done.
    + rewrite decide_False by done. apply IHi. lia.
Qed.

(** A loop over [esp_partition_find] and [esp_partition_next] visits exactly
    the loaded partitions that satisfy the constraints, each once and in
    order; [esp_partition_find_first] returns the first of them, and a search
    by subtype for any type finds nothing. *)
Theorem iterators_visit_matches (ty st : Z) (lbl : option (list Z)) :
  (ty = ESP_PARTITION_TYPE_ANY -> st = ESP_PARTITION_SUBTYPE_ANY) ->
  visited (length parts) (esp_partition_find parts ty st lbl) =
    filter (fun p => matches (MkIterator ty st lbl [] None) p = true) parts /\
  esp_partition_find_first parts ty st lbl = head (selected ty st lbl) /\
  (forall st', st' <> ESP_PARTITION_SUBTYPE_ANY -> esp_partition_find parts ESP_PARTITION_TYPE_ANY st' lbl = None).
Proof.
  intros Hany.
  assert ((ty =? ESP_PARTITION_TYPE_ANY) && negb (st =? ESP_PARTITION_SUBTYPE_ANY) = false) as Ec.
  { destruct (Z.eqb_spec ty ESP_PARTITION_TYPE_ANY) as [E|]; [|done]. by rewrite Hany. }
  split_and!.
  - unfold esp_partition_find. rewrite Ec. by rewrite visited_next.
  - unfold esp_partition_find_first, esp_partition_find, iterator_create, selected. rewrite Ec.
    rewrite <- (skip_items_head (MkIterator ty st lbl parts None)) by done. unfold esp_partition_next. cbn [next_item it_type it_subtype it_label].
    by destruct (skip_items _ _).
  - intros st' Hst. unfold esp_partition_find. rewrite Z.eqb_refl, (proj2 (Z.eqb_neq _ _) Hst). done.
Qed.

Lemma verify_loop_some n p it q :
  verify_loop n p it = Some q -> q ∈ visited n it /\ address q = address p /\ size q = size p /\ encrypted q = encrypted p.
Proof.
  revert it. induction n as [|n IH]; intros it E; [done|]. destruct it as [it|]; [|done]. cbn in E |- *.
  destruct (esp_partition_get it) as [r|]; [|done].
  destruct (Z.eqb_spec (address r) (address p)), (Z.eqb_spec (size p) (size r)),
    (Bool.eqb (encrypted p) (encrypted r)) eqn:Eb; cbn in E;
    try (apply IH in E as (? & ?); split; [by right|done]).
  simplify_eq. apply eqb_prop in Eb. split; [by left|]. done.
Qed.

Lemma verify_some p q :
  type p <> ESP_PARTITION_TYPE_ANY -> esp_partition_verify parts p = Some q ->
  q ∈ parts /\ address q = address p /\ size q = size p /\ encrypted q = encrypted p /\ type q = type p.
Proof.
  intros Hty E. unfold esp_partition_verify in E. apply verify_loop_some in E as (Hv & ? & ? & ?).
  unfold esp_partition_find in Hv. rewrite (proj2 (Z.eqb_neq _ _) Hty) in Hv. cbn [andb] in Hv.
  rewrite visited_next in Hv by (cbn; lia). apply list_elem_of_filter in Hv as [Hm Hv]. cbn in Hv.
  split_and!; try done. unfold matches in Hm. cbn in Hm.
  rewrite (proj2 (Z.eqb_neq _ _) Hty) in Hm. destruct (Z.eqb_spec (type p) (type q)); done.
Qed.

(** ** Registering external partitions *)

(** Two regions have no byte in common. *)
Definition apart (p q : esp_partition_t) : Prop :=
  address p + size p <= address q \/ address q + size q <= address p.

Definition region_in (chip_size : Z) (p : esp_partition_t) : Prop :=
  0 <= address p /\ 0 < size p /\ address p + size p <= chip_size.
End list.

(** Regions are inside the chip and pairwise disjoint. *)
Inductive layout_ok (chip_size : Z) : list esp_partition_t -> Prop :=
  | layout_nil : layout_ok chip_size []
  | layout_cons p l : region_in chip_size p -> Forall (apart p) l -> layout_ok chip_size l -> layout_ok chip_size (p :: l).

Lemma apart_sym p q : apart p q -> apart q p.
Proof. unfold apart. lia. Qed.

Lemma layout_snoc c l p :
  layout_ok c l -> region_in c p -> Forall (apart p) l -> layout_ok c (l ++ [p]).
Proof.
  intros Hl Hp Ha. induction Hl as [|q l Hq Hql Hl IH]; cbn.
  - repeat constructor; done || apply Hp.
  - apply Forall_cons in Ha as [Hpq Ha]. constructor; [done| |by apply IH].
    apply Forall_app. split; [done|]. constructor; [|done]. by apply apart_sym.
Qed.

Lemma layout_elem c l p : layout_ok c l -> p ∈ l -> region_in c p.
Proof. intros Hl. induction Hl as [|q l Hq Hql Hl IH]; intros [->|Hp]%elem_of_cons || intros Hp%elem_of_nil; eauto; done. Qed.

Lemma layout_apart c l p q : layout_ok c l -> p ∈ l -> q ∈ l -> p <> q -> apart p q.
Proof.
  intros Hl. induction Hl as [|r l Hr Hrl Hl IH]; intros Hp Hq Hne; [by apply elem_of_nil in Hp|].
  rewrite Forall_forall in Hrl.
  apply elem_of_cons in Hp as [->|Hp], Hq as [->|Hq]; [done|by apply Hrl|by apply apart_sym, Hrl|by apply IH].
Qed.

(** No address is so high that it becomes negative as an [intptr_t]. *)
Lemma overlaps_any_spec c l o n :
  c < 2 ^ 31 -> Forall (region_in c) l -> 0 <= o -> 0 < n -> o + n <= c ->
  exists b, overlaps_any o n l = Some b /\
    (b = false <-> Forall (fun q => o + n <= address q \/ address q + size q <= o) l).
Proof.
  intros Hc Hl Ho Hn Hs. induction Hl as [|q l (Hq0 & Hq1 & Hq2) Hl IH]; [by exists false|]. cbn [overlaps_any].
  rewrite !s32_id by lia. unfold bootloader_util_regions_overlap.
  rewrite !(proj2 (Z.gtb_lt _ _)) by lia.
  destruct IH as (b & -> & Hb).
  destruct (Z.gtb_spec (o + n) (address q)), (Z.gtb_spec (address q + size q) o); cbn [andb];
    (eexists; split; [done|]); rewrite Forall_cons; try (rewrite Hb; intuition lia).
  split; [done|]. intros [? _]. lia.
Qed.

(** Registering an external partition keeps the partition list well formed:
    regions inside the chip and pairwise disjoint.  It succeeds exactly when
    memory is available and the region fits and meets no other; otherwise the
    list is unchanged.  (Chip and region below 2 GB, region not empty.) *)
Theorem register_keeps_layout (parts : list esp_partition_t) (chip_size o n : Z) (lbl : list Z) (ty st : Z) (enc calloc_ok : bool) :
  layout_ok chip_size parts -> chip_size < 2 ^ 31 -> 0 <= o -> 0 < n -> o + n < 2 ^ 32 ->
  exists err parts' out,
    esp_partition_register_external parts chip_size o n lbl ty st enc calloc_ok = Some (err, parts', out) /\
    layout_ok chip_size parts' /\
    (err = ESP_OK <-> calloc_ok = true /\ o + n <= chip_size /\
       Forall (fun q => o + n <= address q \/ address q + size q <= o) parts) /\
    (err = ESP_OK -> exists p, out = Some p /\ parts' = parts ++ [p] /\ address p = o /\ size p = n) /\
    (err <> ESP_OK -> parts' = parts /\ out = None).
Proof.
  intros Hl Hc Ho Hn Hs. unfold esp_partition_register_external. rewrite u32_id by lia.
  destruct (Z.gtb_spec (o + n) chip_size).
  { eexists _, _, _. split; [done|]. split_and!; try done. split; [done|]. intros (_ & ? & _). lia. }
  destruct calloc_ok; cbn [negb].
  2:{ eexists _, _, _. split; [done|]. split_and!; try done; split; try done; intros [? _]; done. }
  destruct (overlaps_any_spec chip_size parts o n) as (b & -> & Hb); try lia.
  { apply Forall_forall. intros q. by apply layout_elem. }
  destruct b.
  - eexists _, _, _. split; [done|]. split_and!; try done.
    split; [done|]. intros (_ & _ & H1). by apply Hb in H1.
  - eexists _, _, _. split; [done|]. pose proof (proj1 Hb eq_refl) as Hf. split_and!; try done.
    + apply layout_snoc; [done|done|]. eapply Forall_impl; [exact Hf|]. intros q Hq. exact Hq.
    + intros _. eexists. split_and!; done.
Qed.

Lemma register_keeps_layout_witness :
  exists err parts' out,
    esp_partition_register_external [sample_part] 0x400000 0x20000 0x1000 [65] 1 0x80 false true = Some (err, parts', out) /\
    layout_ok 0x400000 parts'.
Proof.
  destruct (register_keeps_layout [sample_part] 0x400000 0x20000 0x1000 [65] 1 0x80 false true)
    as (err & parts' & out & H1 & H2 & _); [|lia..|by exists err, parts', out].
  repeat constructor; cbn; lia.
Defined.

(** ** The guards of the flash driver *)

(** The guards of the flash driver are exact on regions that do not wrap: a
    write is let through by [esp_partition_is_flash_region_writable] exactly
    when it meets no read-only partition, and an address range that passes
    [esp_partition_main_flash_region_safe] meets neither the running
    application nor the sectors up to the partition table. *)
Theorem guards_exact (parts : list esp_partition_t) (chip_size table_offset addr n : Z) (running : esp_partition_t) :
  layout_ok chip_size parts -> running ∈ parts -> chip_size < 2 ^ 32 -> 0 <= addr -> 0 < n -> addr + n < 2 ^ 32 ->
  (esp_partition_is_flash_region_writable parts addr n = true <->
   forall p, p ∈ parts -> readonly p = true -> addr + n <= address p \/ address p + size p <= addr) /\
  (esp_partition_main_flash_region_safe table_offset running addr n = true <->
   table_offset + 0xC00 < addr /\ (addr + n <= address running \/ address running + size running <= addr)).
Proof.
  intros Hl Hr Hc Ha Hn Hs.
  assert (forall p, p ∈ parts -> region_hits addr n p = false <->
    (addr + n <= address p \/ address p + size p <= addr)) as Hhit.
  { intros p Hp. destruct (layout_elem _ _ _ Hl Hp) as (? & ? & ?). unfold region_hits. rewrite !u32_id by lia.
    cmp_cases; cbn; split; intros; done || lia. }
  split.
  - unfold esp_partition_is_flash_region_writable. rewrite forallb_forall. split.
    + intros H p Hp Hro. apply Hhit; [done|]. specialize (H p). rewrite Hro in H.
      apply negb_true_iff in H; [done|]. by apply list_elem_of_In.
    + intros H p Hp%list_elem_of_In. apply negb_true_iff. destruct (readonly p) eqn:E; [|done].
      apply Hhit; [done|]. by apply H.
  - unfold esp_partition_main_flash_region_safe. destruct (Z.leb_spec addr (table_offset + 0xC00)).
    + split; [done|]. lia.
    + rewrite negb_true_iff, Hhit by done. intuition lia.
Qed.

Lemma guards_exact_witness :
  esp_partition_main_flash_region_safe 0x8000 sample_part 0x20000 0x1000 = true <->
  0x8000 + 0xC00 < 0x20000 /\ (0x20000 + 0x1000 <= 0x10000 \/ 0x10000 + 0x3000 <= 0x20000).
Proof.
  apply (guards_exact [sample_part] 0x400000 0x8000 0x20000 0x1000 sample_part); [|by left|lia..].
  repeat constructor; cbn; lia.
Defined.

Lemma iterators_visit_matches_witness :
  visited 1 (esp_partition_find [sample_part] 0 0x10 None) = [sample_part].
Proof. refine (proj1 (iterators_visit_matches [sample_part] 0 0x10 None _)). done. Defined.
