(* ===== verification/PartTable.v ===== *)
(** * The partition table in flash

    Sources: [components/bootloader_support/src/flash_partitions.c]
    (verification), [load_partitions] of
    [components/esp_partition/partition.c] (the application's list) and
    [bootloader_utility_load_partition_table] of
    [components/bootloader_support/src/bootloader_utility.c] (the bootloader's
    state).  The MD5 function of the ROM is the parameter [md5]. *)

From S2P Require Import Prelude EspErr Flash.

Definition ESP_PARTITION_MAGIC : Z := 0x50AA.
Definition ESP_PARTITION_MAGIC_MD5 : Z := 0xEBEB.
Definition ESP_PARTITION_MD5_OFFSET : Z := 16.
Definition ESP_PARTITION_TABLE_MAX_LEN : Z := 0xC00.
Definition ESP_PARTITION_TABLE_MAX_ENTRIES : Z := 96.
Definition PART_TYPE_APP : Z := 0x00.
Definition PART_SUBTYPE_FACTORY : Z := 0x00.
Definition PART_SUBTYPE_OTA_FLAG : Z := 0x10.
Definition PART_SUBTYPE_OTA_MASK : Z := 0x0f.
Definition PART_SUBTYPE_TEST : Z := 0x20.
Definition PART_TYPE_DATA : Z := 0x01.
Definition PART_SUBTYPE_DATA_OTA : Z := 0x00.
Definition PART_TYPE_END : Z := 0xff.
Definition PART_SUBTYPE_END : Z := 0xff.
Definition PART_FLAG_ENCRYPTED : Z := 1.
Definition PART_FLAG_READONLY : Z := 2.

Record esp_partition_pos_t := MkPos { offset : Z; pos_size : Z }.

(** An entry of the table, 32 bytes. *)
Record esp_partition_info_t := MkInfo {
  i_magic : Z;
  i_type : Z;
  i_subtype : Z;
  i_pos : esp_partition_pos_t;
  i_label : list Z;
  i_flags : Z
}.
Definition INFO_SIZE : Z := 32.

Definition load16 (m : mem) (a : Z) : Z := m a + 256 * m (a + 1).

Definition read_info (m : mem) (a : Z) : esp_partition_info_t :=
  MkInfo (load16 m a) (m (a + 2)) (m (a + 3)) (MkPos (load32 m (a + 4)) (load32 m (a + 8)))
    (load_bytes m (a + 12) 16) (load32 m (a + 28)).

Section table.
Context (md5 : list Z -> list Z) (m : mem) (table : Z).

Definition partition_table (i : Z) : esp_partition_info_t := read_info m (table + INFO_SIZE * i).

(** ** Verification *)

(** The MD5 sum stored in entry [i] is that of the entries before it. *)
Definition md5_matches (i : Z) : bool :=
  bool_decide (load_bytes m (table + INFO_SIZE * i + ESP_PARTITION_MD5_OFFSET) 16 =
               md5 (load_bytes m table (INFO_SIZE * i))).

(** The loop: [n] entries are left, [num_parts] is the index. *)
Fixpoint verify_entries (chip_size : Z) (n : nat) (num_parts md5_found : Z) : esp_err_t * Z :=
  match n with
  | O => (ESP_ERR_INVALID_STATE, 0)
  | S n =>
      let part := partition_table num_parts in
      if i_magic part =? ESP_PARTITION_MAGIC then
        let pos := i_pos part in
        if (offset pos >? chip_size) || (u32 (offset pos + pos_size pos) >? chip_size)
        then (ESP_ERR_INVALID_SIZE, 0)
        else verify_entries chip_size n (num_parts + 1) md5_found
      else if i_magic part =? ESP_PARTITION_MAGIC_MD5 then
        if negb (md5_found =? 0) then (ESP_ERR_INVALID_STATE, 0)
        else if negb (md5_matches num_parts) then (ESP_ERR_INVALID_STATE, 0)
        else verify_entries chip_size n (num_parts + 1) 1
      else if negb (num_parts =? 0) && (i_magic part =? 0xFFFF) && (i_type part =? PART_TYPE_END)
              && (i_subtype part =? PART_SUBTYPE_END)
      then (ESP_OK, num_parts - md5_found)
      else (ESP_ERR_INVALID_STATE, 0)
  end.

(** The error and [*num_partitions]. *)
Definition esp_partition_table_verify (chip_size : Z) : esp_err_t * Z :=
  verify_entries chip_size (Z.to_nat ESP_PARTITION_TABLE_MAX_ENTRIES) 0 0.

(** ** The application's list *)

(** [strncpy] of at most 16 bytes. *)
Fixpoint c_string (l : list Z) : list Z :=
  match l with [] => [] | c :: l => if c =? 0 then [] else c :: c_string l end.

Definition item_of (flash_encryption : bool) (entry : esp_partition_info_t) : esp_partition_t :=
  MkPartition (i_type entry) (i_subtype entry) (offset (i_pos entry)) (pos_size (i_pos entry))
    SPI_FLASH_SEC_SIZE (c_string (i_label entry))
    (is_partition_encrypted flash_encryption (flag (i_flags entry) PART_FLAG_ENCRYPTED) (i_type entry) (i_subtype entry))
    (flag (i_flags entry) PART_FLAG_READONLY) false.

(** The loop over the mapped sector: the items, where the MD5 entry is, and
    whether an allocation failed ([allocs] gives the outcomes of [calloc]). *)
Fixpoint load_entries (CONFIG_PARTITION_TABLE_MD5 flash_encryption : bool) (allocs : Z -> bool) (n : nat) (i : Z)
    : list esp_partition_t * option Z * esp_err_t :=
  match n with
  | O => ([], None, ESP_OK)
  | S n =>
      let entry := partition_table i in
      if CONFIG_PARTITION_TABLE_MD5 && (i_magic entry =? ESP_PARTITION_MAGIC_MD5) then ([], Some i, ESP_OK)
      else if negb (i_magic entry =? ESP_PARTITION_MAGIC) then ([], None, ESP_OK)
      else if negb (allocs i) then ([], None, ESP_ERR_NO_MEM)
      else let '(items, md5_part, err) := load_entries CONFIG_PARTITION_TABLE_MD5 flash_encryption allocs n (i + 1) in
           (item_of flash_encryption entry :: items, md5_part, err)
  end.

Definition load_partitions (CONFIG_PARTITION_TABLE_MD5 flash_encryption : bool) (allocs : Z -> bool)
    : esp_err_t * list esp_partition_t :=
  let '(items, md5_part, err) :=
    load_entries CONFIG_PARTITION_TABLE_MD5 flash_encryption allocs (Z.to_nat (SPI_FLASH_SEC_SIZE / INFO_SIZE)) 0 in
  let err :=
    if negb CONFIG_PARTITION_TABLE_MD5 then err else
    match md5_part with
    | None => ESP_ERR_NOT_FOUND
    | Some i => if md5_matches i then err else ESP_ERR_INVALID_STATE
    end in
  if err =? ESP_OK then (ESP_OK, items) else (err, []).
End table.

(** ** The bootloader's state *)

Definition MAX_OTA_SLOTS : Z := 16.

Record bootloader_state_t := MkBoot {
  ota_info : esp_partition_pos_t;
  factory : esp_partition_pos_t;
  test : esp_partition_pos_t;
  ota : Z -> esp_partition_pos_t;
  app_count : Z
}.

Definition no_pos : esp_partition_pos_t := MkPos 0 0.
Definition empty_state : bootloader_state_t := MkBoot no_pos no_pos no_pos (fun _ => no_pos) 0.

(** The [switch] of [bootloader_utility_load_partition_table]: its stores to the state. *)
Definition load_entry (partition : esp_partition_info_t) (bs : bootloader_state_t) : bootloader_state_t :=
  if i_type partition =? PART_TYPE_APP then
    if i_subtype partition =? PART_SUBTYPE_FACTORY then
      MkBoot (ota_info bs) (i_pos partition) (test bs) (ota bs) (app_count bs)
    else if i_subtype partition =? PART_SUBTYPE_TEST then
      MkBoot (ota_info bs) (factory bs) (i_pos partition) (ota bs) (app_count bs)
    else if Z.land (i_subtype partition) (Z.lnot PART_SUBTYPE_OTA_MASK) =? PART_SUBTYPE_OTA_FLAG then
      let slot := Z.land (i_subtype partition) PART_SUBTYPE_OTA_MASK in
      MkBoot (ota_info bs) (factory bs) (test bs)
        (fun i => if i =? slot then i_pos partition else ota bs i) (u32 (app_count bs + 1))
    else bs
  else if i_type partition =? PART_TYPE_DATA then
    if i_subtype partition =? PART_SUBTYPE_DATA_OTA then
      MkBoot (i_pos partition) (factory bs) (test bs) (ota bs) (app_count bs)
    else bs
  else bs.

Fixpoint load_table (m : mem) (table : Z) (n : nat) (i : Z) (bs : bootloader_state_t) : bootloader_state_t :=
  match n with
  | O => bs
  | S n => load_table m table n (i + 1) (load_entry (partition_table m table i) bs)
  end.

(** [mapped] is the outcome of [bootloader_mmap]; [None] means [false]. *)
Definition bootloader_utility_load_partition_table (md5 : list Z -> list Z) (m : mem) (table chip_size : Z)
    (mapped : bool) (bs : bootloader_state_t) : option bootloader_state_t :=
  if negb mapped then None else
  let '(err, num_partitions) := esp_partition_table_verify md5 m table chip_size in
  if negb (err =? ESP_OK) then None
  else Some (load_table m table (Z.to_nat num_partitions) 0 bs).
