(* ===== verification/OtaData.v ===== *)
(** * OTA selection entries and the secure version

    Sources: [components/bootloader_support/src/bootloader_common_loader.c]
    (validity and choice of the two OTA selection entries),
    [include/esp_flash_partitions.h] (their layout) and
    [components/efuse/src/esp_efuse_fields.c] (the anti-rollback counter). *)

From S2P Require Import Prelude EspErr Crc Flash PartTable.

Definition ESP_OTA_IMG_NEW : Z := 0.
Definition ESP_OTA_IMG_PENDING_VERIFY : Z := 1.
Definition ESP_OTA_IMG_VALID : Z := 2.
Definition ESP_OTA_IMG_INVALID : Z := 3.
Definition ESP_OTA_IMG_ABORTED : Z := 4.
Definition ESP_OTA_IMG_UNDEFINED : Z := 0xFFFFFFFF.

(** The magic numbers of an image and of an application descriptor. *)
Definition ESP_IMAGE_HEADER_MAGIC : Z := 0xE9.
Definition ESP_APP_DESC_MAGIC_WORD : Z := 0xABCD5432.

Record esp_ota_select_entry_t := MkSelect {
  ota_seq : Z;
  seq_label : list Z;
  ota_state : Z;
  crc : Z
}.
Definition SELECT_SIZE : Z := 32.

(** The layout in flash: [ota_seq], 20 bytes of label, [ota_state], [crc]. *)
Definition read_select (m : mem) (a : Z) : esp_ota_select_entry_t :=
  MkSelect (load32 m a) (load_bytes m (a + 4) 20) (load32 m (a + 24)) (load32 m (a + 28)).
Definition select_bytes (s : esp_ota_select_entry_t) : list Z :=
  bytes32 (ota_seq s) ++ seq_label s ++ bytes32 (ota_state s) ++ bytes32 (crc s).

Definition with_state (st : Z) (s : esp_ota_select_entry_t) := MkSelect (ota_seq s) (seq_label s) st (crc s).
Definition with_seq (q : Z) (s : esp_ota_select_entry_t) := MkSelect q (seq_label s) (ota_state s) (crc s).
Definition with_crc (c : Z) (s : esp_ota_select_entry_t) := MkSelect (ota_seq s) (seq_label s) (ota_state s) c.

(** Two entries, [two_otadata[0]] and [two_otadata[1]]. *)
Definition two_otadata : Type := esp_ota_select_entry_t * esp_ota_select_entry_t.
Definition nth_otadata (o : two_otadata) (i : Z) : esp_ota_select_entry_t := if i =? 0 then o.1 else o.2.
Definition set_otadata (i : Z) (s : esp_ota_select_entry_t) (o : two_otadata) : two_otadata :=
  if i =? 0 then (s, o.2) else (o.1, s).

Definition bootloader_common_ota_select_crc (s : esp_ota_select_entry_t) : Z :=
  esp_rom_crc32_le UINT32_MAX (bytes32 (ota_seq s)).

Definition bootloader_common_ota_select_invalid (s : esp_ota_select_entry_t) : bool :=
  (ota_seq s =? UINT32_MAX) || (ota_state s =? ESP_OTA_IMG_INVALID) || (ota_state s =? ESP_OTA_IMG_ABORTED).

Definition bootloader_common_ota_select_valid (s : esp_ota_select_entry_t) : bool :=
  negb (bootloader_common_ota_select_invalid s) && (crc s =? bootloader_common_ota_select_crc s).

Definition bootloader_common_select_otadata (o : two_otadata) (valid_two_otadata : bool * bool) (max : bool) : Z :=
  if valid_two_otadata.1 && valid_two_otadata.2 then
    let condition := if max then Z.max (ota_seq o.1) (ota_seq o.2) else Z.min (ota_seq o.1) (ota_seq o.2) in
    if condition =? ota_seq o.1 then 0 else 1
  else if valid_two_otadata.1 then 0
  else if valid_two_otadata.2 then 1
  else -1.

Definition bootloader_common_get_active_otadata (o : two_otadata) : Z :=
  bootloader_common_select_otadata o
    (bootloader_common_ota_select_valid o.1, bootloader_common_ota_select_valid o.2) true.

(** ** The secure version in the eFuses

    The counter is the number of bits set in the field; [bits] is the field, of
    [size] bits. *)

Fixpoint popcount (n : nat) (v : Z) : Z :=
  match n with O => 0 | S n => Z.b2z (Z.odd v) + popcount n (Z.div2 v) end.

Definition esp_efuse_read_secure_version (size bits : Z) : Z :=
  popcount 32 (Z.land bits (Z.shiftl 1 size - 1)).

Definition esp_efuse_check_secure_version (size bits secure_version : Z) : bool :=
  secure_version >=? esp_efuse_read_secure_version size bits.

(** Programming eFuses can only set bits.  [plain] says that the block has no coding scheme. *)
Definition esp_efuse_update_secure_version (plain : bool) (size secure_version bits : Z) : esp_err_t * Z :=
  if size <? secure_version then (ESP_ERR_INVALID_ARG, bits)
  else if negb plain then (ESP_ERR_NOT_SUPPORTED, bits)
  else
    let sec_ver_hw := esp_efuse_read_secure_version size bits in
    if sec_ver_hw <? secure_version then
      let num_bit_hw := u32 (Z.shiftl 1 sec_ver_hw - 1) in
      let num_bit_app := u32 (Z.shiftl 1 secure_version - 1) in
      (ESP_OK, Z.lor bits (num_bit_app - num_bit_hw))
    else if sec_ver_hw >? secure_version then (ESP_FAIL, bits)
    else (ESP_OK, bits).
