(* ===== verification/OtaDataProps.v ===== *)
(** * Properties of OTA selection entries

    Entries in flash: writing one and reading it back, what an interrupted
    write or erase leaves, and that it can only be taken for a valid entry when
    it is the old or the new one. *)

From S2P Require Import Prelude EspErr Crc Flash FlashProps PartTable OtaData.

(** The checksum is never evaluated in these proofs. *)
#[local] Strategy opaque [esp_rom_crc32_le].

Definition mem_ok (m : mem) : Prop := forall x, is_byte (m x).

Record select_wf (e : esp_ota_select_entry_t) : Prop := {
  wf_seq : 0 <= ota_seq e < 2 ^ 32;
  wf_label : length (seq_label e) = 20%nat;
  wf_bytes : Forall is_byte (seq_label e);
  wf_state : 0 <= ota_state e < 2 ^ 32;
  wf_crc : 0 <= crc e < 2 ^ 32
}.

(** ** Bytes and words *)

Lemma bytes32_ok v : Forall is_byte (bytes32 v).
Proof. unfold bytes32. repeat constructor; unfold is_byte; apply Z.mod_pos_bound; lia. Qed.

Lemma load32_range m a : mem_ok m -> 0 <= load32 m a < 2 ^ 32.
Proof.
  intros H. unfold load32. pose proof (H a). pose proof (H (a + 1)). pose proof (H (a + 2)). pose proof (H (a + 3)).
  unfold is_byte in *. lia.
Qed.

Lemma load32_bytes m a v : 0 <= v < 2 ^ 32 -> load_bytes m a 4 = bytes32 v -> load32 m a = v.
Proof.
  intros Hv E. unfold load_bytes, bytes32 in E. cbn in E. injection E as E0 E1 E2 E3.
  change (m (a + 0) = v mod 256) in E0. change (m (a + 1) = (v / 256) mod 256) in E1.
  change (m (a + 2) = (v / 65536) mod 256) in E2. change (m (a + 3) = (v / 16777216) mod 256) in E3.
  unfold load32. rewrite Z.add_0_r in E0. rewrite E0, E1, E2, E3. Z.div_mod_to_equations. lia.
Qed.

Lemma load32_blank m a : (forall x, a <= x < a + 4 -> m x = 255) -> load32 m a = UINT32_MAX.
Proof. intros H. unfold load32. rewrite !H by lia. done. Qed.

Lemma land_byte_range a b : is_byte a -> is_byte b -> is_byte (Z.land a b).
Proof.
  intros Ha Hb. unfold is_byte in *. split; [apply Z.land_nonneg; lia|].
  rewrite <- (Z.mod_small b 256) by lia. change 256 with (2 ^ 8). rewrite <- Z.land_ones by lia.
  rewrite Z.land_assoc, Z.land_ones by lia. apply Z.mod_pos_bound. lia.
Qed.

Lemma program_mem_ok m a bs : mem_ok m -> Forall is_byte bs -> mem_ok (program m a bs).
Proof.
  intros Hm Hb x. unfold program. destruct (_ && _); [|apply Hm]. apply land_byte_range; [apply Hm|].
  destruct (bs !! _) as [b|] eqn:E; [by eapply (Forall_lookup_1 _ _ _ _ Hb)|done].
Qed.

Lemma erased_mem_ok m a n : mem_ok m -> mem_ok (erased m a n).
Proof. intros Hm x. unfold erased. destruct (_ && _); [done|apply Hm]. Qed.

(** ** Reading entries *)

Lemma read_select_wf m a : mem_ok m -> select_wf (read_select m a).
Proof.
  intros H. constructor; cbn [read_select ota_seq seq_label ota_state crc]; try by apply load32_range.
  - by rewrite length_load_bytes.
  - apply Forall_forall. intros b Hb. unfold load_bytes in Hb. apply list_elem_of_fmap in Hb as (i & -> & _). apply H.
Qed.

Lemma read_select_ext m m' a : (forall x, a <= x < a + 32 -> m' x = m x) -> read_select m' a = read_select m a.
Proof.
  intros H. unfold read_select.
  rewrite !(load32_ext m' m), (load_bytes_ext m' m) by (intros; apply H; lia). done.
Qed.

Lemma length_select_bytes e : select_wf e -> length (select_bytes e) = 32%nat.
Proof. intros [_ Hl _ _ _]. unfold select_bytes. rewrite !length_app, Hl. done. Qed.

Lemma select_bytes_ok e : select_wf e -> Forall is_byte (select_bytes e).
Proof. intros [_ _ Hb _ _]. unfold select_bytes. rewrite !Forall_app. split_and!; done || apply bytes32_ok. Qed.

(** The layout: fields at 0, 4, 24 and 28. *)
Lemma select_bytes_lookup e i :
  select_wf e -> 0 <= i < 32 ->
  select_bytes e !! Z.to_nat i =
    if i <? 4 then bytes32 (ota_seq e) !! Z.to_nat i
    else if i <? 24 then seq_label e !! Z.to_nat (i - 4)
    else if i <? 28 then bytes32 (ota_state e) !! Z.to_nat (i - 24)
    else bytes32 (crc e) !! Z.to_nat (i - 28).
Proof.
  intros [_ Hl _ _ _] Hi. unfold select_bytes.
  assert (forall v, length (bytes32 v) = 4%nat) as H4 by done.
  cmp_cases.
  - apply lookup_app_l. rewrite H4. lia.
  - rewrite lookup_app_r by (rewrite H4; lia). rewrite lookup_app_l by (rewrite Hl, H4; lia). rewrite H4. f_equal. lia.
  - rewrite lookup_app_r by (rewrite H4; lia). rewrite lookup_app_r by (rewrite Hl, H4; lia).
    rewrite lookup_app_l by (rewrite Hl, !H4; lia). rewrite Hl, H4. f_equal. lia.
  - rewrite lookup_app_r by (rewrite H4; lia). rewrite lookup_app_r by (rewrite Hl, H4; lia).
    rewrite lookup_app_r by (rewrite Hl, !H4; lia). rewrite Hl, !H4. f_equal. lia.
Qed.

(** Byte [i] of a memory that holds the first [n] bytes of an entry, then blank bytes. *)
Definition holds (m : mem) (a : Z) (n : Z) (e : esp_ota_select_entry_t) : Prop :=
  forall i, 0 <= i < 32 -> m (a + i) = if i <? n then default 0 (select_bytes e !! Z.to_nat i) else 255.

Lemma holds_field m a n e o v :
  select_wf e -> holds m a n e -> 0 <= v < 2 ^ 32 ->
  (o = 0 /\ v = ota_seq e) \/ (o = 24 /\ v = ota_state e) \/ (o = 28 /\ v = crc e) ->
  o + 4 <= n -> load32 m (a + o) = v.
Proof.
  intros Hw Hh Hv Ho Hn. apply load32_bytes; [done|].
  assert (forall i, (0 <= i < 4) -> m (a + (o + i)) = default 0 (bytes32 v !! Z.to_nat i)) as H.
  { intros i Hi. rewrite Hh by lia. rewrite (proj2 (Z.ltb_lt _ _)) by lia.
    rewrite select_bytes_lookup by (done || lia).
    destruct Ho as [[-> ->]|[[-> ->]|[-> ->]]]; cmp_cases; try lia; do 2 f_equal; lia. }
  unfold load_bytes. change (Z.to_nat 4) with 4%nat. unfold bytes32 in *.
  cbn [seq fmap list_fmap]. rewrite <- !Z.add_assoc.
  pose proof (H 0 ltac:(lia)) as H0. pose proof (H 1 ltac:(lia)) as H1. pose proof (H 2 ltac:(lia)) as H2. pose proof (H 3 ltac:(lia)) as H3.
  cbn in H0, H1, H2, H3. change (Z.of_nat 0) with 0. change (Z.of_nat 1) with 1. change (Z.of_nat 2) with 2. change (Z.of_nat 3) with 3.
  by rewrite H0, H1, H2, H3.
Qed.

Lemma holds_all m a e : select_wf e -> holds m a 32 e -> read_select m a = e.
Proof.
  intros Hw Hh. destruct (Hw) as [Hs Hl Hb Ht Hc]. unfold read_select.
  rewrite (holds_field m a 32 e 24 (ota_state e)), (holds_field m a 32 e 28 (crc e)) by (done || lia).
  replace (load32 m a) with (load32 m (a + 0)) by (f_equal; lia).
  rewrite (holds_field m a 32 e 0 (ota_seq e)) by (done || lia).
  destruct e as [q l st c]; cbn [ota_seq seq_label ota_state crc] in *. f_equal.
  apply list_eq. intros i. destruct (decide (i < 20)%nat) as [Hi|Hi].
  - rewrite load_bytes_lookup by lia. rewrite <- Z.add_assoc, Hh by lia.
    rewrite select_bytes_lookup by (done || lia). cmp_cases; try lia. cbn [seq_label].
    replace (Z.to_nat (4 + Z.of_nat i - 4)) with i by lia.
    destruct (lookup_lt_is_Some_2 l i) as [b ->]; [lia|done].
  - rewrite !lookup_ge_None_2; rewrite ?length_load_bytes; lia || done.
Qed.

Lemma program_holds m a n e :
  select_wf e -> (forall x, a <= x < a + 32 -> m x = 255) ->
  holds (program m a (take n (select_bytes e))) a (Z.of_nat n) e.
Proof.
  intros Hw Hm i Hi. pose proof (select_bytes_ok e Hw) as Hb. pose proof (length_select_bytes e Hw) as Hl.
  destruct (Z.ltb_spec i (Z.of_nat n)).
  - destruct (lookup_lt_is_Some_2 (select_bytes e) (Z.to_nat i)) as [b E]; [lia|]. rewrite E.
    rewrite (program_inside _ _ _ _ b), Hm by (lia || (rewrite Z.add_simpl_l, lookup_take_lt by lia; done)).
    apply land_255. by eapply (Forall_lookup_1 _ _ _ _ Hb).
  - rewrite program_other; [apply Hm; lia|]. rewrite length_take. lia.
Qed.

(** ** Interrupted operations *)

Lemma valid_spec e :
  bootloader_common_ota_select_valid e = true <->
  ota_seq e <> UINT32_MAX /\ ota_state e <> ESP_OTA_IMG_INVALID /\ ota_state e <> ESP_OTA_IMG_ABORTED /\
  crc e = bootloader_common_ota_select_crc e.
Proof.
  unfold bootloader_common_ota_select_valid, bootloader_common_ota_select_invalid.
  rewrite andb_true_iff, negb_true_iff, !orb_false_iff, !Z.eqb_neq, Z.eqb_eq. tauto.
Qed.

(** What the choice of an entry depends on. *)
Definition same_choice (r e : esp_ota_select_entry_t) : Prop :=
  ota_seq r = ota_seq e /\ ota_state r = ota_state e /\ crc r = crc e.

Lemma crc_seq_only r e : ota_seq r = ota_seq e -> bootloader_common_ota_select_crc r = bootloader_common_ota_select_crc e.
Proof. unfold bootloader_common_ota_select_crc. by intros ->. Qed.

(** Part of a new entry in blank flash is valid only when what matters of it is complete. *)
Lemma partial_entry m a n e :
  mem_ok m -> select_wf e -> 0 < ota_seq e -> crc e = bootloader_common_ota_select_crc e ->
  holds m a n e -> bootloader_common_ota_select_valid (read_select m a) = true -> same_choice (read_select m a) e.
Proof.
  intros Hm Hw Hs Hc Hh (Hv1 & _ & _ & Hv)%valid_spec.
  pose proof (read_select_wf m a Hm) as Hr. destruct (Hw) as [Hsw _ _ Hstw Hcw].
  assert (28 <= n) as Hn.
  { destruct (decide (28 <= n)) as [|Hlt]; [done|exfalso].
    assert (crc (read_select m a) = UINT32_MAX) as Hb.
    { cbn. apply load32_blank. intros x Hx. replace x with (a + (x - a)) by lia. rewrite Hh by lia.
      rewrite (proj2 (Z.ltb_ge _ _)) by lia. done. }
    rewrite Hb in Hv. symmetry in Hv. unfold bootloader_common_ota_select_crc in Hv.
    apply (crc32_word_erased _ (wf_seq _ Hr)) in Hv.
    destruct (decide (4 <= n)) as [H4|H4].
    - cbn in Hv. replace a with (a + 0) in Hv by lia. rewrite (holds_field m a n e 0 (ota_seq e)) in Hv by (done || lia). lia.
    - cbn in Hv. unfold load32 in Hv. pose proof (Hh 3 ltac:(lia)) as H3.
      rewrite (proj2 (Z.ltb_ge _ _)) in H3 by lia. pose proof (Hm a). pose proof (Hm (a + 1)). pose proof (Hm (a + 2)).
      unfold is_byte in *. lia. }
  assert (ota_seq (read_select m a) = ota_seq e) as Es.
  { cbn. replace a with (a + 0) at 1 by lia. apply (holds_field m a n e 0); auto; lia. }
  split_and!; [done| |].
  - apply (holds_field m a n e 24); auto; lia.
  - rewrite Hv, Hc. by apply crc_seq_only.
Qed.

(** An entry with blank bytes at its start is valid only when nothing that matters has changed. *)
Lemma partial_erase m a n :
  mem_ok m -> let e := read_select m a in
  crc e = bootloader_common_ota_select_crc e \/ ota_seq e = UINT32_MAX ->
  bootloader_common_ota_select_valid (read_select (erased m a n) a) = true ->
  same_choice (read_select (erased m a n) a) e.
Proof.
  intros Hm e He Hval. pose proof (proj1 (valid_spec _) Hval) as (Hv1 & _ & _ & Hv).
  pose proof (erased_mem_ok m a n Hm) as Hm'.
  assert (n < 4) as Hn.
  { destruct (decide (n < 4)); [done|]. destruct Hv1. cbn. apply load32_blank. intros x Hx. apply erased_inside. lia. }
  assert (forall o, 4 <= o -> load32 (erased m a n) (a + o) = load32 m (a + o)) as Hf.
  { intros o Ho. apply load32_ext. intros x Hx. apply erased_other. lia. }
  assert (ota_state (read_select (erased m a n) a) = ota_state e) as Et by (apply Hf; lia).
  assert (crc (read_select (erased m a n) a) = crc e) as Ec by (apply Hf; lia).
  split_and!; [|done..].
  destruct He as [He|He].
  - rewrite Ec, He in Hv. symmetry in Hv. unfold bootloader_common_ota_select_crc in Hv.
    symmetry in Hv. by apply (crc32_word_inj _ _ (wf_seq _ (read_select_wf _ a Hm)) (wf_seq _ (read_select_wf _ a Hm'))) in Hv.
  - destruct Hv1. cbn in He |- *. unfold load32, UINT32_MAX in *.
    pose proof (Hm a). pose proof (Hm (a + 1)). pose proof (Hm (a + 2)). pose proof (Hm (a + 3)). unfold is_byte in *.
    assert (m a = 255 /\ m (a + 1) = 255 /\ m (a + 2) = 255 /\ m (a + 3) = 255) as (E0 & E1 & E2 & E3) by lia.
    unfold erased. rewrite E0, E1, E2, E3. by repeat destruct (_ && _).
Qed.
