(* ===== verification/Boot.v ===== *)
(** * The bootloader's choice of an application

    Source: [components/bootloader_support/src/bootloader_utility.c], with the
    configuration switches for rollback and anti-rollback as parameters and
    without the TEE and the retained RTC memory.  Whether an image loads
    ([bootloader_load_image]) is the parameter [image_ok], a function of the
    flash contents; [mapped] is the outcome of [bootloader_mmap].  Flash is
    written in place, so a power failure is a stopping operation (see [Flash]).
    [None] is a division by zero. *)

From S2P Require Import Prelude EspErr Crc Flash PartTable OtaData.

Definition FACTORY_INDEX : Z := -1.
Definition TEST_APP_INDEX : Z := -2.
Definition INVALID_INDEX : Z := -99.
Definition FLASH_SECTOR_SIZE : Z := 4096.

(** The C operator on [uint32_t]; the divisor 0 traps. *)
Definition umod (a b : Z) : option Z := configASSERT (negb (b =? 0)); Some (a mod b).

Record boot := MkBootState {
  b_flash : flash;
  b_efuse : Z;
  ota_has_initial_contents : bool
}.
Definition set_b_flash (f : flash) (s : boot) := MkBootState f (b_efuse s) (ota_has_initial_contents s).
Definition set_b_efuse (e : Z) (s : boot) := MkBootState (b_flash s) e (ota_has_initial_contents s).
Definition set_initial (b : bool) (s : boot) := MkBootState (b_flash s) (b_efuse s) b.

(** How [bootloader_utility_load_boot_image] ends. *)
Inductive boot_result := Boots (index : Z) (part : esp_partition_pos_t) | Resets.

(** The two entries of the OTA data at [offset ota_info]. *)
Definition otadata_at (m : mem) (a : Z) : two_otadata :=
  (read_select m a, read_select m (a + FLASH_SECTOR_SIZE)).

Definition bootloader_common_read_otadata (mapped : bool) (m : mem) (ota_info : esp_partition_pos_t) : esp_err_t * two_otadata :=
  let none := otadata_at m 0 in
  if offset ota_info =? 0 then (ESP_ERR_NOT_FOUND, none)
  else if pos_size ota_info <? 2 * FLASH_SECTOR_SIZE then (ESP_FAIL, none)
  else if negb mapped then (ESP_FAIL, none)
  else (ESP_OK, otadata_at m (offset ota_info)).

(** The description behind the image and segment headers. *)
Definition app_desc_offset : Z := 24 + 8.
Record esp_app_desc_t := MkDesc { magic_word : Z; secure_version : Z }.

Definition bootloader_common_get_partition_description (mapped : bool) (m : mem) (partition : esp_partition_pos_t)
    : esp_err_t * esp_app_desc_t :=
  let desc := MkDesc (load32 m (offset partition + app_desc_offset)) (load32 m (offset partition + app_desc_offset + 4)) in
  if offset partition =? 0 then (ESP_ERR_INVALID_ARG, desc)
  else if negb mapped then (ESP_FAIL, desc)
  else if negb (magic_word desc =? ESP_APP_DESC_MAGIC_WORD) then (ESP_ERR_NOT_FOUND, desc)
  else (ESP_OK, desc).

(** Errors of [write_otadata] are only logged by its callers. *)
Definition write_otadata (otadata : esp_ota_select_entry_t) (a : Z) (f : flash) : esp_err_t * flash :=
  let '(err, f) := esp_flash_erase_region (a / FLASH_SECTOR_SIZE * SPI_FLASH_SEC_SIZE) SPI_FLASH_SEC_SIZE f in
  if err =? ESP_OK then esp_flash_write a (select_bytes otadata) f else (err, f).

Definition index_to_partition (bs : bootloader_state_t) (index : Z) : esp_partition_pos_t :=
  if index =? FACTORY_INDEX then factory bs
  else if index =? TEST_APP_INDEX then test bs
  else if (index >=? 0) && (index <? MAX_OTA_SLOTS) && (index <? s32 (app_count bs)) then ota bs index
  else no_pos.

Section boot.
Context (APP_ROLLBACK_ENABLE APP_ANTI_ROLLBACK mapped : bool).
Context (efuse_plain : bool) (efuse_size : Z).
Context (image_ok : mem -> esp_partition_pos_t -> bool).

Definition check_anti_rollback (partition : esp_partition_pos_t) (s : boot) : bool :=
  if APP_ANTI_ROLLBACK then
    let '(err, app_desc) := bootloader_common_get_partition_description mapped (cells (b_flash s)) partition in
    if negb (err =? ESP_OK) then false
    else esp_efuse_check_secure_version efuse_size (b_efuse s) (secure_version app_desc)
  else true.

Definition update_anti_rollback (partition : esp_partition_pos_t) (s : boot) : boot :=
  let '(err, app_desc) := bootloader_common_get_partition_description mapped (cells (b_flash s)) partition in
  if err =? ESP_OK
  then set_b_efuse (snd (esp_efuse_update_secure_version efuse_plain efuse_size (secure_version app_desc) (b_efuse s))) s
  else s.

(** Whether the entry is valid and its slot passes the anti-rollback check. *)
Definition sec_ver_valid (bs : bootloader_state_t) (otadata : esp_ota_select_entry_t) (s : boot) : option bool :=
  if bootloader_common_ota_select_valid otadata then
    let? ota_slot := umod (u32 (ota_seq otadata - 1)) (app_count bs) in
    Some (check_anti_rollback (ota bs ota_slot) s)
  else Some false.

Definition get_active_otadata_with_check_anti_rollback (bs : bootloader_state_t) (o : two_otadata) (s : boot) : option Z :=
  let? v0 := sec_ver_valid bs o.1 s in
  let? v1 := sec_ver_valid bs o.2 s in
  Some (bootloader_common_select_otadata o (v0, v1) true).

(** Entry [i] was running unconfirmed: it is aborted. *)
Definition abort_pending (bs : bootloader_state_t) (i : Z) (o : two_otadata) (s : boot) : two_otadata * boot :=
  if ota_state (nth_otadata o i) =? ESP_OTA_IMG_PENDING_VERIFY then
    let e := with_state ESP_OTA_IMG_ABORTED (nth_otadata o i) in
    let '(_, f) := write_otadata e (offset (ota_info bs) + FLASH_SECTOR_SIZE * i) (b_flash s) in
    (set_otadata i e o, set_b_flash f s)
  else (o, s).

(** Empty or with a wrong checksum. *)
Definition initial_otadata (e : esp_ota_select_entry_t) : bool :=
  (ota_seq e =? UINT32_MAX) || negb (crc e =? bootloader_common_ota_select_crc e).

(** The branch taken when an active entry may exist. *)
Definition boot_from_otadata (bs : bootloader_state_t) (active_otadata : Z) (o : two_otadata) (s : boot) : option (Z * boot) :=
  if negb (active_otadata =? -1) then
    let e := nth_otadata o active_otadata in
    let? boot_index := umod (u32 (ota_seq e - 1)) (app_count bs) in
    let '(e, s) :=
      if APP_ROLLBACK_ENABLE && (ota_state e =? ESP_OTA_IMG_NEW) then
        let e := with_state ESP_OTA_IMG_PENDING_VERIFY e in
        let '(_, f) := write_otadata e (offset (ota_info bs) + FLASH_SECTOR_SIZE * active_otadata) (b_flash s) in
        (e, set_b_flash f s)
      else (e, s) in
    let s := if APP_ANTI_ROLLBACK && (ota_state e =? ESP_OTA_IMG_VALID)
             then update_anti_rollback (ota bs boot_index) s else s in
    Some (boot_index, s)
  else Some (FACTORY_INDEX, s).

Definition bootloader_utility_get_selected_boot_partition (bs : bootloader_state_t) (s : boot) : option (Z * boot) :=
  if offset (ota_info bs) =? 0 then Some (FACTORY_INDEX, s) else
  let '(err, o) := bootloader_common_read_otadata mapped (cells (b_flash s)) (ota_info bs) in
  if negb (err =? ESP_OK) then Some (INVALID_INDEX, s) else
  let s := set_initial false s in
  let '(o, s) :=
    if APP_ROLLBACK_ENABLE
    then let '(o, s) := abort_pending bs 0 o s in abort_pending bs 1 o s
    else (o, s) in
  if negb APP_ANTI_ROLLBACK then
    if (bootloader_common_ota_select_invalid o.1 && bootloader_common_ota_select_invalid o.2) || (app_count bs =? 0)
    then
      if negb (offset (factory bs) =? 0) then Some (FACTORY_INDEX, s)
      else Some (0, if initial_otadata o.1 && initial_otadata o.2 then set_initial true s else s)
    else boot_from_otadata bs (bootloader_common_get_active_otadata o) o s
  else
    if initial_otadata o.1 && initial_otadata o.2 then Some (FACTORY_INDEX, set_initial true s)
    else
      let? active_otadata := get_active_otadata_with_check_anti_rollback bs o s in
      boot_from_otadata bs active_otadata o s.

Definition try_load_partition (partition : esp_partition_pos_t) (s : boot) : bool :=
  if pos_size partition =? 0 then false else image_ok (cells (b_flash s)) partition.

(** [memset(&otadata, 0xFF, sizeof(otadata))] and the assignments that follow. *)
Definition initial_entry (index : Z) : esp_ota_select_entry_t :=
  let e := MkSelect (u32 (index + 1)) (replicate 20 255) ESP_OTA_IMG_VALID UINT32_MAX in
  with_crc (bootloader_common_ota_select_crc e) e.

Definition set_actual_ota_seq (bs : bootloader_state_t) (index : Z) (s : boot) : boot :=
  if (index >? FACTORY_INDEX) && ota_has_initial_contents s then
    let '(_, f) := write_otadata (initial_entry index) (offset (ota_info bs) + FLASH_SECTOR_SIZE * 0) (b_flash s) in
    let s := set_b_flash f s in
    if APP_ANTI_ROLLBACK then update_anti_rollback (ota bs index) s else s
  else s.

(** One iteration of the loops of [bootloader_utility_load_boot_image]. *)
Definition try_index (bs : bootloader_state_t) (index : Z) (s : boot) : option (boot_result * boot) :=
  let part := index_to_partition bs index in
  if pos_size part =? 0 then None
  else if check_anti_rollback part s && try_load_partition part s
  then Some (Boots index part, set_actual_ota_seq bs index s)
  else None.

(** [for (index = start; ...; index += step)], [n] iterations at most. *)
Fixpoint try_loop (bs : bootloader_state_t) (step : Z) (n : nat) (index : Z) (s : boot) : option (boot_result * boot) :=
  match n with
  | O => None
  | S n => match try_index bs index s with
           | Some r => Some r
           | None => try_loop bs step n (index + step) s
           end
  end.

Definition try_test (bs : bootloader_state_t) (s : boot) : bool :=
  check_anti_rollback (test bs) s && try_load_partition (test bs) s.

Definition bootloader_utility_load_boot_image (bs : bootloader_state_t) (start_index : Z) (s : boot) : boot_result * boot :=
  if start_index =? TEST_APP_INDEX then
    if try_test bs s then (Boots TEST_APP_INDEX (test bs), s) else (Resets, s)
  else
    match try_loop bs (-1) (Z.to_nat (start_index - FACTORY_INDEX + 1)) start_index s with
    | Some r => r
    | None =>
        match try_loop bs 1 (Z.to_nat (s32 (app_count bs) - (start_index + 1))) (start_index + 1) s with
        | Some r => r
        | None => if try_test bs s then (Boots TEST_APP_INDEX (test bs), s) else (Resets, s)
        end
    end.

(** [call_start_cpu0]: selection, then loading. *)
Definition boot_app (bs : bootloader_state_t) (s : boot) : option (boot_result * boot) :=
  let? (boot_index, s) := bootloader_utility_get_selected_boot_partition bs s in
  if boot_index =? INVALID_INDEX then Some (Resets, s)
  else Some (bootloader_utility_load_boot_image bs boot_index s).
End boot.
