(* ===== verification/BootProps.v ===== *)
(** * Properties of the bootloader's choice

    The two entries as an abstract state ([two_otadata]): [boot_step] says what
    a boot does to it and which index it selects, and the bootloader is shown
    to implement it.  Then the order in which images are tried. *)

From S2P Require Import Prelude EspErr Crc Flash FlashProps PartTable OtaData OtaDataProps Boot.

(** ** The abstract boot *)

Definition abort_entry (e : esp_ota_select_entry_t) : esp_ota_select_entry_t :=
  if ota_state e =? ESP_OTA_IMG_PENDING_VERIFY then with_state ESP_OTA_IMG_ABORTED e else e.

Definition after_abort (rollback : bool) (o : two_otadata) : two_otadata :=
  if rollback then (abort_entry o.1, abort_entry o.2) else o.

Definition slot_of (app_count seq : Z) : Z := u32 (seq - 1) mod app_count.

(** No entry counts: the default application boots. *)
Definition no_entry (bs : bootloader_state_t) (o : two_otadata) : bool :=
  (bootloader_common_ota_select_invalid o.1 && bootloader_common_ota_select_invalid o.2) || (app_count bs =? 0).

Definition default_index (bs : bootloader_state_t) : Z :=
  if negb (offset (factory bs) =? 0) then FACTORY_INDEX else 0.

(** The index selected and the entries afterwards. *)
Definition boot_step (rollback : bool) (bs : bootloader_state_t) (o : two_otadata) : Z * two_otadata :=
  let o := after_abort rollback o in
  if no_entry bs o then (default_index bs, o)
  else
    let a := bootloader_common_get_active_otadata o in
    if a =? -1 then (FACTORY_INDEX, o)
    else
      let e := nth_otadata o a in
      (slot_of (app_count bs) (ota_seq e),
       if rollback && (ota_state e =? ESP_OTA_IMG_NEW) then set_otadata a (with_state ESP_OTA_IMG_PENDING_VERIFY e) o else o).

(** ** Writing an entry *)

Definition in_sector (a x : Z) : Prop := a <= x < a + FLASH_SECTOR_SIZE.

Lemma sector_start a : a mod FLASH_SECTOR_SIZE = 0 -> a / FLASH_SECTOR_SIZE * SPI_FLASH_SEC_SIZE = a.
Proof. unfold FLASH_SECTOR_SIZE, SPI_FLASH_SEC_SIZE. intros. Z.div_mod_to_equations. lia. Qed.

Lemma write_otadata_frame e a f :
  a mod FLASH_SECTOR_SIZE = 0 -> select_wf e ->
  same_outside a FLASH_SECTOR_SIZE (cells f) (cells (snd (write_otadata e a f))).
Proof.
  intros Ha He. unfold write_otadata. rewrite sector_start by done.
  pose proof (flash_erase_frame a SPI_FLASH_SEC_SIZE f) as H1.
  destruct (esp_flash_erase_region a SPI_FLASH_SEC_SIZE f) as [err f']. cbn [snd] in H1.
  destruct (err =? ESP_OK); [|done]. eapply same_outside_trans; [exact H1|].
  eapply same_outside_weaken; [apply flash_write_frame|lia|].
  rewrite length_select_bytes by done. unfold FLASH_SECTOR_SIZE. lia.
Qed.

(** A flash whose operations all complete, with bytes in its cells. *)
Record calm (f : flash) : Prop := {
  calm_outcomes : outcomes f = [];
  calm_mem : mem_ok (cells f)
}.

Lemma write_otadata_done e a f :
  calm f -> a mod FLASH_SECTOR_SIZE = 0 -> select_wf e ->
  let f' := snd (write_otadata e a f) in
  fst (write_otadata e a f) = ESP_OK /\ calm f' /\ read_select (cells f') a = e /\
  same_outside a FLASH_SECTOR_SIZE (cells f) (cells f').
Proof.
  intros [Ho Hm] Ha He f'.
  split_and!; [..|by apply write_otadata_frame]; subst f'; unfold write_otadata, esp_flash_erase_region, esp_flash_write, next_outcome;
    rewrite Ho, sector_start by done; cbn [head hd_error option_map default from_option tail outcomes].
  - done.
  - constructor; [done|]. apply program_mem_ok; [by apply erased_mem_ok|by apply select_bytes_ok].
  - cbn [snd cells]. apply holds_all; [done|].
    rewrite <- (take_ge (select_bytes e) 32) by (by rewrite length_select_bytes).
    apply (program_holds _ _ 32 e He). intros x Hx. apply erased_inside. unfold SPI_FLASH_SEC_SIZE. lia.
Qed.

Lemma with_state_wf st e : 0 <= st < 2 ^ 32 -> select_wf e -> select_wf (with_state st e).
Proof. intros Hst [? ? ? ? ?]. by constructor. Qed.

Lemma nth_wf o i : select_wf o.1 -> select_wf o.2 -> select_wf (nth_otadata o i).
Proof. unfold nth_otadata. by destruct (i =? 0). Qed.

Section boot.
Context (rollback efuse_plain : bool) (efuse_size : Z) (bs : bootloader_state_t).

Abbreviation base := (offset (ota_info bs)).
Abbreviation get_selected := (bootloader_utility_get_selected_boot_partition rollback false true efuse_plain efuse_size bs).

(** The OTA data partition of a bootloader's state. *)
Record otadata_placed : Prop := {
  placed_offset : 0 < base;
  placed_aligned : base mod FLASH_SECTOR_SIZE = 0;
  placed_size : 2 * FLASH_SECTOR_SIZE <= pos_size (ota_info bs)
}.

Lemma active_range o : bootloader_common_get_active_otadata o = -1 \/ bootloader_common_get_active_otadata o = 0 \/ bootloader_common_get_active_otadata o = 1.
Proof. unfold bootloader_common_get_active_otadata, bootloader_common_select_otadata. repeat case_match; auto. Qed.

Lemma abort_pending_entries i o s :
  (abort_pending bs i o s).1 = set_otadata i (abort_entry (nth_otadata o i)) o.
Proof.
  unfold abort_pending, abort_entry. destruct (_ =? _); [by destruct (write_otadata _ _ _)|].
  cbn. unfold set_otadata, nth_otadata. destruct o; by destruct (i =? 0).
Qed.

(** The index does not depend on the outcomes of the writes. *)
Lemma selected_index s :
  otadata_placed ->
  exists s', get_selected s = Some ((boot_step rollback bs (otadata_at (cells (b_flash s)) base)).1, s').
Proof.
  intros [Hoff _ Hsize]. unfold bootloader_utility_get_selected_boot_partition, bootloader_common_read_otadata.
  rewrite (proj2 (Z.eqb_neq base 0)) by lia. rewrite (proj2 (Z.ltb_ge _ _)) by done. cbn [negb andb].
  set (o := otadata_at _ _). change (negb (ESP_OK =? ESP_OK)) with false. cbn iota.
  assert (exists s2, (if rollback then let '(o, s1) := abort_pending bs 0 o (set_initial false s) in abort_pending bs 1 o s1
                      else (o, set_initial false s)) = (after_abort rollback o, s2)) as [s2 ->].
  { unfold after_abort. destruct rollback; [|by eexists].
    pose proof (abort_pending_entries 0 o (set_initial false s)) as E1.
    destruct (abort_pending bs 0 o (set_initial false s)) as [o1 s1]. cbn [fst] in E1. subst o1.
    pose proof (abort_pending_entries 1 (set_otadata 0 (abort_entry (nth_otadata o 0)) o) s1) as E2.
    destruct (abort_pending bs 1 _ s1) as [o2 s2]. cbn [fst] in E2. subst o2. exists s2. by destruct o. }
  unfold boot_step. fold (no_entry bs (after_abort rollback o)).
  destruct (no_entry bs (after_abort rollback o)) eqn:En.
  - unfold default_index. destruct (negb _); by eexists.
  - unfold boot_from_otadata. destruct (_ =? -1); [by eexists|]. cbn [negb andb].
    unfold no_entry in En. apply orb_false_iff in En as [_ Ec]. unfold umod. rewrite Ec. cbn [negb].
    unfold slot_of. destruct (rollback && _); [|by eexists]. destruct (write_otadata _ _ _). by eexists.
Qed.

(** ** Refinement: flash as an implementation of the two entries *)

(** The entries in a calm flash are [o]. *)
Definition view (f : flash) (o : two_otadata) : Prop := calm f /\ otadata_at (cells f) base = o.

Definition otadata_only (f f' : flash) : Prop := same_outside base (2 * FLASH_SECTOR_SIZE) (cells f) (cells f').

Lemma view_wf f o : view f o -> select_wf o.1 /\ select_wf o.2.
Proof. intros [[_ Hm] <-]. split; by apply read_select_wf. Qed.

Lemma write_view f o i e :
  otadata_placed -> view f o -> i = 0 \/ i = 1 -> select_wf e ->
  exists err f', write_otadata e (base + FLASH_SECTOR_SIZE * i) f = (err, f') /\
    view f' (set_otadata i e o) /\ otadata_only f f'.
Proof.
  intros Hp [Hc Hv] Hi He. destruct Hp as [_ Ha _].
  assert ((base + FLASH_SECTOR_SIZE * i) mod FLASH_SECTOR_SIZE = 0) as Hai
    by (rewrite Z.mul_comm, Z_mod_plus_full; done).
  pose proof (write_otadata_done e _ f Hc Hai He) as (_ & H2 & H3 & H4).
  destruct (write_otadata e _ f) as [err f']. cbn [fst snd] in *. exists err, f'. unfold otadata_only, FLASH_SECTOR_SIZE in *.
  split_and!; [done| |eapply same_outside_weaken; [exact H4|lia..]].
  split; [done|]. rewrite <- Hv. unfold otadata_at, set_otadata, FLASH_SECTOR_SIZE in *. cbn [fst snd].
  destruct Hi as [-> | ->]; cbn; f_equal.
  - by rewrite Z.mul_0_r, Z.add_0_r in H3.
  - apply read_select_ext. intros x Hx. apply H4. lia.
  - apply read_select_ext. intros x Hx. apply H4. lia.
  - by rewrite Z.mul_1_r in H3.
Qed.

Lemma abort_entry_wf e : select_wf e -> select_wf (abort_entry e).
Proof. intros. unfold abort_entry. destruct (_ =? _); [by apply with_state_wf|done]. Qed.

Lemma set_nth_otadata i o : set_otadata i (nth_otadata o i) o = o.
Proof. unfold set_otadata, nth_otadata. destruct o. by destruct (i =? 0). Qed.

Lemma abort_pending_view i o s :
  otadata_placed -> i = 0 \/ i = 1 -> view (b_flash s) o ->
  exists s', abort_pending bs i o s = (set_otadata i (abort_entry (nth_otadata o i)) o, s') /\
    view (b_flash s') (set_otadata i (abort_entry (nth_otadata o i)) o) /\ otadata_only (b_flash s) (b_flash s') /\
    b_efuse s' = b_efuse s.
Proof.
  intros Hp Hi Hv. pose proof (view_wf _ _ Hv) as [Hw1 Hw2]. unfold abort_pending, abort_entry.
  destruct (ota_state (nth_otadata o i) =? ESP_OTA_IMG_PENDING_VERIFY).
  - destruct (write_view (b_flash s) o i (with_state ESP_OTA_IMG_ABORTED (nth_otadata o i))) as (err & f' & -> & Hv' & Ho);
      [done|done|done|by apply with_state_wf, nth_wf|]. by eexists.
  - exists s. rewrite set_nth_otadata. by split_and!.
Qed.

Lemma after_abort_view o s :
  otadata_placed -> view (b_flash s) o ->
  exists s', (if rollback then let '(o, s1) := abort_pending bs 0 o s in abort_pending bs 1 o s1 else (o, s)) =
      (after_abort rollback o, s') /\
    view (b_flash s') (after_abort rollback o) /\ otadata_only (b_flash s) (b_flash s') /\ b_efuse s' = b_efuse s.
Proof.
  intros Hp Hv. unfold after_abort. destruct rollback; [|by exists s; split_and!].
  destruct (abort_pending_view 0 o s) as (s1 & -> & Hv1 & Ho1 & He1); [done|by left|done|].
  destruct (abort_pending_view 1 (set_otadata 0 (abort_entry (nth_otadata o 0)) o) s1) as (s2 & -> & Hv2 & Ho2 & He2);
    [done|by right|done|].
  exists s2. destruct o as [o0 o1]. split_and!; [done|done|by eapply same_outside_trans|by rewrite He2].
Qed.

(** [get_selected] implements [boot_step]. *)
Lemma selected_refines s o :
  otadata_placed -> view (b_flash s) o ->
  exists s', get_selected s = Some ((boot_step rollback bs o).1, s') /\
    view (b_flash s') (boot_step rollback bs o).2 /\ otadata_only (b_flash s) (b_flash s') /\ b_efuse s' = b_efuse s.
Proof.
  intros Hp Hv. destruct (Hp) as [Hoff _ Hsize].
  unfold bootloader_utility_get_selected_boot_partition, bootloader_common_read_otadata.
  rewrite (proj2 (Z.eqb_neq base 0)) by lia. rewrite (proj2 (Z.ltb_ge _ _)) by done. cbn [negb andb].
  change (negb (ESP_OK =? ESP_OK)) with false. cbn iota. rewrite (proj2 Hv).
  destruct (after_abort_view o (set_initial false s)) as (s2 & -> & Hv2 & Ho2 & He2); [done|done|].
  unfold boot_step. fold (no_entry bs (after_abort rollback o)).
  destruct (no_entry bs (after_abort rollback o)) eqn:En.
  - unfold default_index. cbn [fst snd]. destruct (negb (offset (factory bs) =? 0)); [by exists s2|].
    by destruct (_ && _); eexists; split_and!.
  - unfold boot_from_otadata. destruct (_ =? -1) eqn:Ea; [by exists s2|]. cbn [negb andb].
    unfold no_entry in En. apply orb_false_iff in En as [_ Ec]. unfold umod. rewrite Ec. cbn [negb fst snd].
    unfold slot_of. destruct (rollback && _); [|by exists s2].
    pose proof (view_wf _ _ Hv2) as [Hw1 Hw2].
    destruct (write_view (b_flash s2) (after_abort rollback o)
        (bootloader_common_get_active_otadata (after_abort rollback o))
        (with_state ESP_OTA_IMG_PENDING_VERIFY
           (nth_otadata (after_abort rollback o) (bootloader_common_get_active_otadata (after_abort rollback o)))))
      as (err & f' & -> & Hv' & Ho); [done|done| |by apply with_state_wf, nth_wf|].
    { apply Z.eqb_neq in Ea. pose proof (active_range (after_abort rollback o)). tauto. }
    eexists. split_and!; [done|done|by eapply same_outside_trans|done].
Qed.
End boot.

(** ** The order in which images are tried *)

Section order.
Context (rollback anti_rollback mapped efuse_plain : bool) (efuse_size : Z).
Context (image_ok : mem -> esp_partition_pos_t -> bool) (bs : bootloader_state_t).

Abbreviation try_at := (try_loop anti_rollback mapped efuse_plain efuse_size image_ok bs).
Abbreviation set_seq := (set_actual_ota_seq anti_rollback mapped efuse_plain efuse_size bs).

(** An image can be booted from [index]. *)
Definition bootable (s : boot) (index : Z) : bool :=
  let part := index_to_partition bs index in
  negb (pos_size part =? 0) && check_anti_rollback anti_rollback mapped efuse_size part s
  && image_ok (cells (b_flash s)) part.

(** From the start down to the factory application, then up over the remaining
    slots, then the test application. *)
Definition boot_order (start : Z) : list Z :=
  if start =? TEST_APP_INDEX then [TEST_APP_INDEX]
  else ((fun k => start - Z.of_nat k) <$> seq 0 (Z.to_nat (start - FACTORY_INDEX + 1)))
    ++ ((fun k => start + 1 + Z.of_nat k) <$> seq 0 (Z.to_nat (s32 (app_count bs) - (start + 1))))
    ++ [TEST_APP_INDEX].

Definition first_bootable (s : boot) (l : list Z) : option Z := head (filter (fun i => bootable s i = true) l).

Lemma first_bootable_cons s i l :
  first_bootable s (i :: l) = if bootable s i then Some i else first_bootable s l.
Proof.
  unfold first_bootable. rewrite filter_cons. destruct (bootable s i) eqn:E.
  - by rewrite decide_True.
  - by rewrite decide_False.
Qed.

Lemma first_bootable_app s l1 l2 :
  first_bootable s (l1 ++ l2) = match first_bootable s l1 with Some i => Some i | None => first_bootable s l2 end.
Proof.
  induction l1 as [|i l1 IH]; [done|]. cbn [app]. rewrite !first_bootable_cons, IH. by destruct (bootable s i).
Qed.

Lemma try_index_spec index s :
  try_index anti_rollback mapped efuse_plain efuse_size image_ok bs index s =
  if bootable s index then Some (Boots index (index_to_partition bs index), set_seq index s) else None.
Proof.
  unfold try_index, bootable, try_load_partition. destruct (pos_size _ =? 0); [done|]. cbn [negb andb]. done.
Qed.

Lemma try_loop_spec step n index s :
  try_at step n index s =
  match first_bootable s ((fun k => index + step * Z.of_nat k) <$> seq 0 n) with
  | Some i => Some (Boots i (index_to_partition bs i), set_seq i s)
  | None => None
  end.
Proof.
  revert index. induction n as [|n IH]; intros index; [done|]. cbn [try_loop seq fmap list_fmap].
  rewrite first_bootable_cons, try_index_spec. replace (index + step * Z.of_nat 0) with index by lia.
  destruct (bootable s index); [done|]. rewrite IH. rewrite <- fmap_S_seq, <- list_fmap_compose.
  erewrite list_fmap_ext; [done|]. intros i x _. unfold compose. lia.
Qed.

Lemma try_test_spec s : try_test anti_rollback mapped efuse_size image_ok bs s = bootable s TEST_APP_INDEX.
Proof.
  unfold try_test, bootable, try_load_partition. change (index_to_partition bs TEST_APP_INDEX) with (test bs).
  destruct (pos_size (test bs) =? 0); cbn [negb andb]; [apply andb_false_r|done].
Qed.

Lemma boot_order_complete start i :
  FACTORY_INDEX <= start -> i = FACTORY_INDEX \/ 0 <= i < s32 (app_count bs) \/ i = TEST_APP_INDEX ->
  i ∈ boot_order start.
Proof.
  unfold boot_order, FACTORY_INDEX, TEST_APP_INDEX in *. intros Hs Hi. rewrite (proj2 (Z.eqb_neq start (-2))) by lia.
  destruct Hi as [Hi|[Hi | ->]]; [| |apply elem_of_app; right; apply elem_of_app; right; by left].
  1,2: destruct (decide (i <= start)); [apply elem_of_app; left|apply elem_of_app; right; apply elem_of_app; left];
    apply list_elem_of_fmap.
  - exists (Z.to_nat (start - i)). split; [lia|]. apply elem_of_seq. lia.
  - exists (Z.to_nat (i - start - 1)). split; [lia|]. apply elem_of_seq. lia.
  - exists (Z.to_nat (start - i)). split; [lia|]. apply elem_of_seq. lia.
  - exists (Z.to_nat (i - start - 1)). split; [lia|]. apply elem_of_seq. lia.
Qed.

Lemma load_boot_first (start : Z) (s : boot) :
  bootloader_utility_load_boot_image anti_rollback mapped efuse_plain efuse_size image_ok bs start s =
    match first_bootable s (boot_order start) with
    | Some i => (Boots i (index_to_partition bs i), set_seq i s)
    | None => (Resets, s)
    end.
Proof.
  unfold bootloader_utility_load_boot_image, boot_order. rewrite try_test_spec.
  assert (set_seq TEST_APP_INDEX s = s) as Ht by done.
  destruct (start =? TEST_APP_INDEX).
  { rewrite first_bootable_cons. destruct (bootable s TEST_APP_INDEX); [by rewrite Ht|done]. }
  rewrite !try_loop_spec, !first_bootable_app.
  replace ((fun k => start + -1 * Z.of_nat k) <$> seq 0 (Z.to_nat (start - FACTORY_INDEX + 1)))
    with ((fun k => start - Z.of_nat k) <$> seq 0 (Z.to_nat (start - FACTORY_INDEX + 1)))
    by (apply list_fmap_ext; intros; lia).
  replace ((fun k => start + 1 + 1 * Z.of_nat k) <$> seq 0 (Z.to_nat (s32 (app_count bs) - (start + 1))))
    with ((fun k => start + 1 + Z.of_nat k) <$> seq 0 (Z.to_nat (s32 (app_count bs) - (start + 1))))
    by (apply list_fmap_ext; intros; lia).
  destruct (first_bootable s (_ <$> _)); [done|]. destruct (first_bootable s (_ <$> _)); [done|].
  rewrite first_bootable_cons. destruct (bootable s TEST_APP_INDEX); [by rewrite Ht|done].
Qed.

Lemma boots_bootable (start : Z) (s : boot) (i : Z) (part : esp_partition_pos_t) :
  (bootloader_utility_load_boot_image anti_rollback mapped efuse_plain efuse_size image_ok bs start s).1 = Boots i part ->
  part = index_to_partition bs i /\ bootable s i = true.
Proof.
  rewrite load_boot_first. unfold first_bootable.
  destruct (head (filter _ (boot_order start))) as [j|] eqn:Ef; [|done]. intros E. cbn in E. simplify_eq. split; [done|].
  by apply head_Some_elem_of, list_elem_of_filter in Ef as [Hb _].
Qed.

(** C30. [bootloader_utility_load_boot_image] boots the first bootable image in
    the documented order (backwards from the start index to the factory
    application, forwards over the other slots, the test application) and
    resets only if no image of the table can be booted. *)
Theorem boot_order_respected (start : Z) (s : boot) :
  bootloader_utility_load_boot_image anti_rollback mapped efuse_plain efuse_size image_ok bs start s =
    (match first_bootable s (boot_order start) with
     | Some i => (Boots i (index_to_partition bs i), set_seq i s)
     | None => (Resets, s)
     end) /\
  (FACTORY_INDEX <= start ->
   (bootloader_utility_load_boot_image anti_rollback mapped efuse_plain efuse_size image_ok bs start s).1 = Resets ->
   forall i, i = FACTORY_INDEX \/ 0 <= i < s32 (app_count bs) \/ i = TEST_APP_INDEX -> bootable s i = false).
Proof.
  pose proof (load_boot_first start s) as E.
  split; [done|]. intros Hs. rewrite E. intros Hr i Hi.
  destruct (first_bootable s (boot_order start)) as [j|] eqn:Ef; [done|]. clear Hr.
  apply not_true_iff_false. intros Hb. unfold first_bootable in Ef.
  assert (i ∈ filter (fun i => bootable s i = true) (boot_order start)) as Hin
    by (apply list_elem_of_filter; split; [done|by apply boot_order_complete]).
  destruct (filter _ _); [by apply elem_of_nil in Hin|done].
Qed.

(** C29. With anti-rollback the bootloader never starts an image whose
    description cannot be read or whose secure version is below the one in the
    eFuses. *)
Theorem anti_rollback_enforced (start : Z) (s : boot) (i : Z) (part : esp_partition_pos_t) :
  anti_rollback = true ->
  (bootloader_utility_load_boot_image anti_rollback mapped efuse_plain efuse_size image_ok bs start s).1 = Boots i part ->
  part = index_to_partition bs i /\ image_ok (cells (b_flash s)) part = true /\
  exists desc, bootloader_common_get_partition_description mapped (cells (b_flash s)) part = (ESP_OK, desc) /\
    esp_efuse_read_secure_version efuse_size (b_efuse s) <= secure_version desc.
Proof.
  intros Ha E. apply boots_bootable in E as [-> Hb]. unfold bootable, check_anti_rollback in Hb.
  rewrite Ha in Hb. split; [done|].
  destruct (bootloader_common_get_partition_description mapped (cells (b_flash s)) (index_to_partition bs i)) as [err desc].
  destruct (Z.eqb_spec err ESP_OK) as [->|]; cbn [negb] in Hb; [|by rewrite andb_false_r in Hb].
  apply andb_true_iff in Hb as [Hb ->]. apply andb_true_iff in Hb as [_ Hb]. split; [done|]. exists desc. split; [done|].
  unfold esp_efuse_check_secure_version in Hb. lia.
Qed.
End order.

(** ** Examples *)

Definition two_slots : bootloader_state_t :=
  MkBoot (MkPos 0xd000 0x2000) no_pos no_pos
    (fun i => if i =? 0 then MkPos 0x10000 0x100000 else if i =? 1 then MkPos 0x110000 0x100000 else no_pos) 2.

Definition second_only (_ : mem) (p : esp_partition_pos_t) : bool := offset p =? 0x110000.

Lemma boot_order_respected_witness :
  let s := MkBootState (MkFlash (fun _ => 255) []) 0 false in
  bootloader_utility_load_boot_image false true true 4 second_only two_slots 0 s = (Boots 1 (MkPos 0x110000 0x100000), s).
Proof.
  cbv zeta.
  rewrite (proj1 (boot_order_respected false true true 4 second_only two_slots 0 (MkBootState (MkFlash (fun _ => 255) []) 0 false))).
  reflexivity.
Defined.

(** The description of the second slot: its magic word and secure version 3. *)
Definition described : mem :=
  store32 (store32 (fun _ => 255) 0x110020 ESP_APP_DESC_MAGIC_WORD) 0x110024 3.

Lemma anti_rollback_enforced_witness :
  let s := MkBootState (MkFlash described []) 7 false in
  exists desc, bootloader_common_get_partition_description true described (MkPos 0x110000 0x100000) = (ESP_OK, desc) /\
    esp_efuse_read_secure_version 4 7 <= secure_version desc.
Proof.
  cbv zeta.
  destruct (anti_rollback_enforced true true true 4 second_only two_slots 0 (MkBootState (MkFlash described []) 7 false)
    1 (MkPos 0x110000 0x100000)) as (_ & _ & H); [reflexivity|vm_compute; reflexivity|exact H].
Defined.
