(* ===== verification/Ota.v ===== *)
(** * Over-the-air updates: the operations of the application

    Source: [components/app_update/esp_ota_ops.c], without the
    description of the bootloader, and
    [esp_partition_copy] of [components/esp_partition/partition.c].
    Parameters: the loaded partition list [parts], the configuration switches,
    the verification of images [image_ok] (a function of the flash contents,
    as in [Boot]), the outcome [mapped] of mapping flash, the answers of the
    mapping driver while a partition is copied, the flash address
    [phys_offs] of the running code.  [None] is a failed assertion, an abort or
    a division by zero. *)

From S2P Require Import Prelude EspErr Crc Flash PartTable OtaData Boot.

Definition ESP_ERR_OTA_PARTITION_CONFLICT : esp_err_t := 0x1501.
Definition ESP_ERR_OTA_VALIDATE_FAILED : esp_err_t := 0x1503.
Definition ESP_ERR_OTA_SMALL_SEC_VER : esp_err_t := 0x1504.
Definition ESP_ERR_OTA_ROLLBACK_FAILED : esp_err_t := 0x1505.
Definition ESP_ERR_OTA_ROLLBACK_INVALID_STATE : esp_err_t := 0x1506.
Definition OTA_SIZE_UNKNOWN : Z := 0xffffffff.
Definition OTA_WITH_SEQUENTIAL_WRITES : Z := 0xfffffffe.

Definition SUB_TYPE_ID (i : Z) : Z := Z.land i 0x0F.
Definition ALIGN_UP (num align : Z) : Z := Z.land (u32 (num + (align - 1))) (u32 (Z.lnot (align - 1))).

Record ota_ops_entry_t := MkEntry {
  handle : Z;
  staging : esp_partition_t;
  final : esp_partition_t;
  finalize_with_copy : bool;
  need_erase : bool;
  wrote_size : Z;
  partial_bytes : Z;
  ota_resumption : bool;
  partial_data : list Z
}.

Record ota := MkOta {
  o_flash : flash;
  o_efuse : Z;
  s_ota_ops_entries : list ota_ops_entry_t;
  s_ota_ops_last_handle : Z;
  bootloader_offset : Z;
  write_protection : bool
}.

Definition set_o_flash (f : flash) (s : ota) : ota :=
  let (_, b, c, d, e, g) := s in MkOta f b c d e g.
Definition set_o_efuse (v : Z) (s : ota) : ota :=
  let (a, _, c, d, e, g) := s in MkOta a v c d e g.
Definition set_entries (l : list ota_ops_entry_t) (s : ota) : ota :=
  let (a, b, _, d, e, g) := s in MkOta a b l d e g.
Definition esp_image_bootloader_offset_set (v : Z) (s : ota) : ota :=
  let (a, b, c, d, _, g) := s in MkOta a b c d v g.
Definition esp_flash_set_dangerous_write_protection (v : bool) (s : ota) : ota :=
  let (a, b, c, d, e, _) := s in MkOta a b c d e v.

(** Assignments to fields of an entry. *)
Definition with_final (p : esp_partition_t) (copy : bool) (e : ota_ops_entry_t) : ota_ops_entry_t :=
  let (h, st, _, _, n, w, b, r, d) := e in MkEntry h st p copy n w b r d.
Definition with_wrote (w : Z) (e : ota_ops_entry_t) : ota_ops_entry_t :=
  let (h, st, fi, c, n, _, b, r, d) := e in MkEntry h st fi c n w b r d.
Definition with_partial (b : Z) (d : list Z) (e : ota_ops_entry_t) : ota_ops_entry_t :=
  let (h, st, fi, c, n, w, _, r, _) := e in MkEntry h st fi c n w b r d.
Definition with_flags (erase resumed : bool) (w : Z) (e : ota_ops_entry_t) : ota_ops_entry_t :=
  let (h, st, fi, c, _, _, b, _, d) := e in MkEntry h st fi c erase w b resumed d.

(** The first entry with a handle, its update in place and its removal. *)
Definition get_ota_ops_entry (h : Z) (s : ota) : option ota_ops_entry_t :=
  head (filter (fun e => handle e = h) (s_ota_ops_entries s)).
Fixpoint update_entry (e : ota_ops_entry_t) (l : list ota_ops_entry_t) : list ota_ops_entry_t :=
  match l with
  | [] => []
  | x :: l => if handle x =? handle e then e :: l else x :: update_entry e l
  end.
Fixpoint remove_entry (h : Z) (l : list ota_ops_entry_t) : list ota_ops_entry_t :=
  match l with
  | [] => []
  | x :: l => if handle x =? h then l else x :: remove_entry h l
  end.

Definition is_ota_partition (p : esp_partition_t) : bool :=
  (type p =? ESP_PARTITION_TYPE_APP) && (subtype p >=? ESP_PARTITION_SUBTYPE_APP_OTA_MIN)
  && (subtype p <? ESP_PARTITION_SUBTYPE_APP_OTA_MAX).

Definition part_pos (p : esp_partition_t) : esp_partition_pos_t := MkPos (address p) (size p).

Section ota_ops.
Context (parts : list esp_partition_t).
Context (APP_ROLLBACK_ENABLE APP_ANTI_ROLLBACK flash_encryption mapped efuse_plain : bool).
Context (efuse_size phys_offs primary_bootloader_offset chip_size : Z).
Context (image_ok : mem -> esp_partition_pos_t -> bool).
Context (md5 : list Z -> list Z).

(** ** OTA data *)

Definition find_app (subtype : Z) : option esp_partition_t :=
  esp_partition_find_first parts ESP_PARTITION_TYPE_APP subtype None.

Definition read_otadata (f : flash) : option (esp_partition_t * two_otadata) :=
  let? p := esp_partition_find_first parts ESP_PARTITION_TYPE_DATA ESP_PARTITION_SUBTYPE_DATA_OTA None in
  if negb mapped then None
  else Some (p, (read_select (cells f) (address p), read_select (cells f) (address p + erase_size p))).

Definition image_validate (p : esp_partition_t) (f : flash) : esp_err_t :=
  if image_ok (cells f) (part_pos p) then ESP_OK else ESP_ERR_OTA_VALIDATE_FAILED.

Definition set_new_state_otadata : Z :=
  if APP_ROLLBACK_ENABLE then ESP_OTA_IMG_NEW else ESP_OTA_IMG_UNDEFINED.

(** The caller passes [sec_id <= 1]. *)
Definition rewrite_ota_seq (o : two_otadata) (seq sec_id : Z) (p : esp_partition_t) (f : flash) : esp_err_t * flash :=
  if sec_id >? 1 then (ESP_ERR_INVALID_ARG, f) else
  let e := with_seq seq (nth_otadata o sec_id) in
  let e := with_crc (bootloader_common_ota_select_crc e) e in
  let '(ret, f) := esp_partition_erase_range p (sec_id * erase_size p) (erase_size p) f in
  if negb (ret =? ESP_OK) then (ret, f)
  else esp_partition_write p (erase_size p * sec_id) (select_bytes e) f.

(** The loop: 16 is the last count for which the assertion holds. *)
Fixpoint count_apps (fuel : nat) (ota_app_count : Z) : option Z :=
  match find_app (ESP_PARTITION_SUBTYPE_APP_OTA_MIN + ota_app_count) with
  | None => Some ota_app_count
  | Some _ =>
      configASSERT (ota_app_count <? 16);
      match fuel with O => None | S fuel => count_apps fuel (ota_app_count + 1) end
  end.
Definition esp_ota_get_app_partition_count : option Z := count_apps 16 0.

(** [while (seq > x + i * count) i++]; [n] iterations at most. *)
Fixpoint next_seq (n : nat) (seq x count i : Z) : option Z :=
  if seq >? u32 (x + i * count) then
    match n with O => None | S n => next_seq n seq x count (i + 1) end
  else Some i.

Definition inactive (active : Z) : Z := Z.land (Z.lnot active) 1.

(** The number of iterations is at most [seq / count + 1]. *)
Definition esp_rewrite_ota_data (subtype : Z) (f : flash) : option (esp_err_t * flash) :=
  match read_otadata f with
  | None => Some (ESP_ERR_NOT_FOUND, f)
  | Some (otadata_partition, otadata) =>
      let? ota_app_count := esp_ota_get_app_partition_count in
      if SUB_TYPE_ID subtype >=? ota_app_count then Some (ESP_ERR_INVALID_ARG, f) else
      let active_otadata := bootloader_common_get_active_otadata otadata in
      if negb (active_otadata =? -1) then
        let seq := ota_seq (nth_otadata otadata active_otadata) in
        let? x := umod (SUB_TYPE_ID subtype + 1) ota_app_count in
        let? i := next_seq (Z.to_nat (seq / ota_app_count + 1)) seq x ota_app_count 0 in
        let next_otadata := inactive active_otadata in
        let otadata := set_otadata next_otadata (with_state set_new_state_otadata (nth_otadata otadata next_otadata)) otadata in
        Some (rewrite_ota_seq otadata (u32 (x + i * ota_app_count)) next_otadata otadata_partition f)
      else
        let otadata := set_otadata 0 (with_state set_new_state_otadata (nth_otadata otadata 0)) otadata in
        Some (rewrite_ota_seq otadata (SUB_TYPE_ID subtype + 1) 0 otadata_partition f)
  end.

Definition esp_ota_get_partition_description (partition : esp_partition_t) (f : flash) : esp_err_t * esp_app_desc_t :=
  let a := u32 (address partition + app_desc_offset) in
  let desc := MkDesc (load32 (cells f) a) (load32 (cells f) (a + 4)) in
  if negb (type partition =? ESP_PARTITION_TYPE_APP) then (ESP_ERR_NOT_SUPPORTED, desc)
  else
    let err := check_range partition app_desc_offset 256 in
    if negb (err =? ESP_OK) then (err, desc)
    else if negb (magic_word desc =? ESP_APP_DESC_MAGIC_WORD) then (ESP_ERR_NOT_FOUND, desc)
    else (ESP_OK, desc).

Definition with_flash (r : esp_err_t * flash) (s : ota) : esp_err_t * ota := (r.1, set_o_flash r.2 s).

Definition esp_ota_set_boot_partition (partition : option esp_partition_t) (s : ota) : option (esp_err_t * ota) :=
  match partition with
  | None => Some (ESP_ERR_INVALID_ARG, s)
  | Some partition =>
      if negb (image_validate partition (o_flash s) =? ESP_OK) then Some (ESP_ERR_OTA_VALIDATE_FAILED, s) else
      if type partition =? ESP_PARTITION_TYPE_APP then
        if subtype partition =? ESP_PARTITION_SUBTYPE_APP_FACTORY then
          match esp_partition_find_first parts ESP_PARTITION_TYPE_DATA ESP_PARTITION_SUBTYPE_DATA_OTA None with
          | Some find_partition => Some (with_flash (esp_partition_erase_range find_partition 0 (size find_partition) (o_flash s)) s)
          | None => Some (ESP_ERR_NOT_FOUND, s)
          end
        else
          let '(err, desc) := esp_ota_get_partition_description partition (o_flash s) in
          if APP_ANTI_ROLLBACK && negb (err =? ESP_OK) then Some (err, s)
          else if APP_ANTI_ROLLBACK && negb (esp_efuse_check_secure_version efuse_size (o_efuse s) (secure_version desc)) then
            let '(err, s) := with_flash (esp_partition_erase_range partition 0 (size partition) (o_flash s)) s in
            Some (if negb (err =? ESP_OK) then err else ESP_ERR_OTA_SMALL_SEC_VER, s)
          else
            let? r := esp_rewrite_ota_data (subtype partition) (o_flash s) in
            Some (with_flash r s)
      else Some (ESP_ERR_INVALID_ARG, s)
  end.

(** ** Which partition boots and runs *)

(** The loop over the OTA subtypes. *)
Fixpoint first_ota (n : nat) (subtype : Z) : option esp_partition_t :=
  match n with
  | O => None
  | S n => match find_app subtype with Some p => Some p | None => first_ota n (subtype + 1) end
  end.

Definition find_default_boot_partition : option esp_partition_t :=
  match find_app ESP_PARTITION_SUBTYPE_APP_FACTORY with
  | Some p => Some p
  | None =>
      match first_ota 16 ESP_PARTITION_SUBTYPE_APP_OTA_MIN with
      | Some p => Some p
      | None => find_app ESP_PARTITION_SUBTYPE_APP_TEST
      end
  end.

(** The inner option is the returned pointer. *)
Definition esp_ota_get_boot_partition (f : flash) : option (option esp_partition_t) :=
  match read_otadata f with
  | None => Some None
  | Some (_, otadata) =>
      let? ota_app_count := esp_ota_get_app_partition_count in
      if (bootloader_common_ota_select_invalid otadata.1 && bootloader_common_ota_select_invalid otadata.2)
         || (ota_app_count =? 0)
      then Some find_default_boot_partition
      else
        let active_otadata := bootloader_common_get_active_otadata otadata in
        if negb (active_otadata =? -1) then
          let? ota_slot := umod (u32 (ota_seq (nth_otadata otadata active_otadata) - 1)) ota_app_count in
          Some (find_app (ESP_PARTITION_SUBTYPE_APP_OTA_MIN + ota_slot))
        else Some find_default_boot_partition
  end.

(** The loop over the app partitions; [None] is [abort()] or the failed
    assertion; the sum is a 32-bit number. *)
Definition esp_ota_get_running_partition : option esp_partition_t :=
  head (filter (fun p => type p = ESP_PARTITION_TYPE_APP /\ address p <= phys_offs < u32 (address p + size p)) parts).

(** The function itself, which keeps its result in the static variable
    [curr_partition].  The operations above and below use the search: the
    result is the same in every call ([running_partition_kept]). *)
Definition get_running_partition_kept (curr_partition : option esp_partition_t) : option (esp_partition_t * option esp_partition_t) :=
  match curr_partition with
  | Some p => Some (p, Some p)
  | None => let? p := esp_ota_get_running_partition in Some (p, Some p)
  end.

Fixpoint next_update (start_from : esp_partition_t) (n : nat) (t : Z)
    (default_ota : option esp_partition_t) (next_is_result : bool) : option esp_partition_t :=
  match n with
  | O => default_ota
  | S n =>
      match find_app t with
      | None => next_update start_from n (t + 1) default_ota next_is_result
      | Some p =>
          let default_ota := match default_ota with None => Some p | _ => default_ota end in
          if bool_decide (p = start_from) then next_update start_from n (t + 1) default_ota true
          else if next_is_result then Some p
          else next_update start_from n (t + 1) default_ota next_is_result
      end
  end.

Definition esp_ota_get_next_update_partition (start_from : option esp_partition_t) : option (option esp_partition_t) :=
  let? start_from := match start_from with
                     | None => esp_ota_get_running_partition
                     | Some p => esp_partition_verify parts p
                     end in
  Some (next_update start_from 16 ESP_PARTITION_SUBTYPE_APP_OTA_MIN None false).

(** ** Rollback *)

Definition esp_ota_check_rollback_is_possible (f : flash) (efuse : Z) : option bool :=
  match read_otadata f with
  | None => Some false
  | Some (_, otadata) =>
      let? ota_app_count := esp_ota_get_app_partition_count in
      if ota_app_count =? 0 then Some false else
      let valid_otadata := (bootloader_common_ota_select_valid otadata.1, bootloader_common_ota_select_valid otadata.2) in
      let active_ota := bootloader_common_select_otadata otadata valid_otadata true in
      if active_ota =? -1 then Some false else
      let last_active_ota := inactive active_ota in
      let last_valid := if last_active_ota =? 0 then valid_otadata.1 else valid_otadata.2 in
      let factory_ok :=
        negb APP_ANTI_ROLLBACK && negb last_valid &&
        match find_app ESP_PARTITION_SUBTYPE_APP_FACTORY with
        | Some p => image_validate p f =? ESP_OK
        | None => false
        end in
      if factory_ok then Some true
      else if last_valid then
        let? slot := umod (u32 (ota_seq (nth_otadata otadata last_active_ota) - 1)) ota_app_count in
        match find_app (ESP_PARTITION_SUBTYPE_APP_OTA_MIN + slot) with
        | Some p =>
            if image_validate p f =? ESP_OK then
              if APP_ANTI_ROLLBACK then
                let '(err, desc) := esp_ota_get_partition_description p f in
                Some ((err =? ESP_OK) && esp_efuse_check_secure_version efuse_size efuse (secure_version desc))
              else Some true
            else Some false
        | None => Some false
        end
      else Some false
  end.

Definition esp_ota_set_anti_rollback (s : ota) : option (esp_err_t * ota) :=
  let? partition := esp_ota_get_running_partition in
  let '(err, app_desc) := esp_ota_get_partition_description partition (o_flash s) in
  if err =? ESP_OK then
    let '(err, e) := esp_efuse_update_secure_version efuse_plain efuse_size (secure_version app_desc) (o_efuse s) in
    Some (err, set_o_efuse e s)
  else Some (err, s).

Definition esp_ota_current_ota_is_workable (valid : bool) (s : ota) : option (esp_err_t * ota) :=
  match read_otadata (o_flash s) with
  | None => Some (ESP_ERR_NOT_FOUND, s)
  | Some (otadata_partition, otadata) =>
      let active_otadata := bootloader_common_get_active_otadata otadata in
      if active_otadata =? -1 then Some (ESP_FAIL, s) else
      let? ota_app_count := esp_ota_get_app_partition_count in
      if negb (ota_app_count =? 0) then
        let e := nth_otadata otadata active_otadata in
        if valid && negb (ota_state e =? ESP_OTA_IMG_VALID) then
          let otadata := set_otadata active_otadata (with_state ESP_OTA_IMG_VALID e) otadata in
          let '(err, s) := with_flash (rewrite_ota_seq otadata (ota_seq e) active_otadata otadata_partition (o_flash s)) s in
          if APP_ANTI_ROLLBACK && (err =? ESP_OK) then esp_ota_set_anti_rollback s else Some (err, s)
        else if negb valid then
          let? possible := esp_ota_check_rollback_is_possible (o_flash s) (o_efuse s) in
          if negb possible then Some (ESP_ERR_OTA_ROLLBACK_FAILED, s) else
          let otadata := set_otadata active_otadata (with_state ESP_OTA_IMG_INVALID e) otadata in
          Some (with_flash (rewrite_ota_seq otadata (ota_seq e) active_otadata otadata_partition (o_flash s)) s)
        else Some (ESP_OK, s)
      else Some (ESP_FAIL, s)
  end.

Definition esp_ota_mark_app_valid_cancel_rollback := esp_ota_current_ota_is_workable true.
Definition esp_ota_mark_app_invalid_rollback := esp_ota_current_ota_is_workable false.

Definition check_invalid_otadata (e : esp_ota_select_entry_t) : bool :=
  negb (ota_seq e =? UINT32_MAX) && (crc e =? bootloader_common_ota_select_crc e)
  && ((ota_state e =? ESP_OTA_IMG_INVALID) || (ota_state e =? ESP_OTA_IMG_ABORTED)).

Definition get_last_invalid_otadata (o : two_otadata) : Z :=
  bootloader_common_select_otadata o (check_invalid_otadata o.1, check_invalid_otadata o.2) false.

Definition esp_ota_get_last_invalid_partition (f : flash) : option (option esp_partition_t) :=
  match read_otadata f with
  | None => Some None
  | Some (_, otadata) =>
      let invalid_otadata := get_last_invalid_otadata otadata in
      let? ota_app_count := esp_ota_get_app_partition_count in
      if negb (invalid_otadata =? -1) && negb (ota_app_count =? 0) then
        let? ota_slot := umod (u32 (ota_seq (nth_otadata otadata invalid_otadata) - 1)) ota_app_count in
        match find_app (ESP_PARTITION_SUBTYPE_APP_OTA_MIN + ota_slot) with
        | Some p => Some (if image_validate p f =? ESP_OK then Some p else None)
        | None => Some None
        end
      else Some None
  end.

(** The first entry for the slot whose checksum is right. *)
Definition esp_ota_get_state_partition (p : esp_partition_t) (f : flash) : option (esp_err_t * Z) :=
  if negb (is_ota_partition p) then Some (ESP_ERR_NOT_SUPPORTED, 0) else
  let? ota_app_count := esp_ota_get_app_partition_count in
  match read_otadata f with
  | None => Some (ESP_ERR_NOT_FOUND, 0)
  | Some (_, otadata) =>
      if ota_app_count =? 0 then Some (ESP_ERR_NOT_FOUND, 0) else
      let req_ota_slot := subtype p - ESP_PARTITION_SUBTYPE_APP_OTA_MIN in
      let is_slot e := (u32 (ota_seq e - 1) mod ota_app_count =? req_ota_slot)
                       && (crc e =? bootloader_common_ota_select_crc e) in
      if is_slot otadata.1 then Some (ESP_OK, ota_state otadata.1)
      else if is_slot otadata.2 then Some (ESP_OK, ota_state otadata.2)
      else Some (ESP_ERR_NOT_FOUND, 0)
  end.

Definition erase_last_boot_app_partition (skip_app_part_erase : bool) (s : ota) : option (esp_err_t * ota) :=
  match read_otadata (o_flash s) with
  | None => Some (ESP_FAIL, s)
  | Some (ota_data_partition, otadata) =>
      let active_otadata := bootloader_common_get_active_otadata otadata in
      let? ota_app_count := esp_ota_get_app_partition_count in
      if (active_otadata =? -1) || (ota_app_count =? 0) then Some (ESP_FAIL, s) else
      let inactive_otadata := inactive active_otadata in
      let e := nth_otadata otadata inactive_otadata in
      if (ota_seq e =? UINT32_MAX) || negb (crc e =? bootloader_common_ota_select_crc e) then Some (ESP_FAIL, s) else
      let? ota_slot := umod (u32 (ota_seq e - 1)) ota_app_count in
      match find_app (ESP_PARTITION_SUBTYPE_APP_OTA_MIN + ota_slot) with
      | None => Some (ESP_FAIL, s)
      | Some last_boot =>
          let? running_partition := esp_ota_get_running_partition in
          if bool_decide (last_boot = running_partition) then Some (ESP_FAIL, s) else
          let '(err, s) := if skip_app_part_erase then (ESP_OK, s)
                           else with_flash (esp_partition_erase_range last_boot 0 (size last_boot) (o_flash s)) s in
          if negb (err =? ESP_OK) then Some (err, s) else
          Some (with_flash (esp_partition_erase_range ota_data_partition
                  (inactive_otadata * erase_size ota_data_partition) (erase_size ota_data_partition) (o_flash s)) s)
      end
  end.
Definition esp_ota_erase_last_boot_app_partition := erase_last_boot_app_partition false.
Definition esp_ota_invalidate_inactive_ota_data_slot := erase_last_boot_app_partition true.

(** ** Writing an image *)

(** [calloc] and the assignments. *)
Definition esp_ota_init_entry (calloc_ok : bool) (partition : esp_partition_t) (s : ota) : option (ota_ops_entry_t * ota) :=
  if negb calloc_ok then None else
  let h := u32 (s_ota_ops_last_handle s + 1) in
  let e := MkEntry h partition partition false false 0 0 false (replicate 16 0) in
  let (f, ef, l, _, b, w) := s in Some (e, MkOta f ef (e :: l) h b w).

Definition put_entry (e : ota_ops_entry_t) (s : ota) : ota :=
  set_entries (update_entry e (s_ota_ops_entries s)) s.

(** The adjustments for bootloader and partition-table targets. *)
Definition unprotect (p : esp_partition_t) (offset : Z) (s : ota) : ota :=
  let s := if type p =? ESP_PARTITION_TYPE_BOOTLOADER then esp_image_bootloader_offset_set offset s else s in
  if (type p =? ESP_PARTITION_TYPE_BOOTLOADER) || (type p =? ESP_PARTITION_TYPE_PARTITION_TABLE)
  then esp_flash_set_dangerous_write_protection false s else s.

(** Why an app partition is refused; [None] outside is a failed assertion. *)
Definition begin_refused (partition : esp_partition_t) (f : flash) : option (option esp_err_t) :=
  if type partition =? ESP_PARTITION_TYPE_APP then
    if negb (is_ota_partition partition) then Some (Some ESP_ERR_INVALID_ARG) else
    let? running_partition := esp_ota_get_running_partition in
    if bool_decide (partition = running_partition) then Some (Some ESP_ERR_OTA_PARTITION_CONFLICT)
    else if APP_ROLLBACK_ENABLE then
      let? (err, st) := esp_ota_get_state_partition running_partition f in
      Some (if (err =? ESP_OK) && (st =? ESP_OTA_IMG_PENDING_VERIFY)
            then Some ESP_ERR_OTA_ROLLBACK_INVALID_STATE else None)
    else Some None
  else Some None.

(** The erasing before the first write. *)
Definition begin_erase (partition : esp_partition_t) (image_size : Z) (f : flash) : esp_err_t * flash :=
  if negb (image_size =? OTA_WITH_SEQUENTIAL_WRITES) then
    let erase_size := if (image_size =? 0) || (image_size =? OTA_SIZE_UNKNOWN) then size partition
                      else ALIGN_UP image_size (erase_size partition) in
    esp_partition_erase_range partition 0 erase_size f
  else (ESP_OK, f).

(** The handle is returned through [out_handle]. *)
Definition esp_ota_begin (partition : option esp_partition_t) (image_size : Z) (calloc_ok : bool) (s : ota)
    : option (esp_err_t * option Z * ota) :=
  match partition with
  | None => Some (ESP_ERR_INVALID_ARG, None, s)
  | Some partition =>
  match esp_partition_verify parts partition with
  | None => Some (ESP_ERR_NOT_FOUND, None, s)
  | Some partition =>
      let? refused := begin_refused partition (o_flash s) in
      match refused with
      | Some err => Some (err, None, s)
      | None =>
      match esp_ota_init_entry calloc_ok partition s with
      | None => Some (ESP_ERR_NO_MEM, None, s)
      | Some (e, s) =>
          let s := put_entry (with_flags (image_size =? OTA_WITH_SEQUENTIAL_WRITES) false 0 e) s in
          let out_handle := Some (handle e) in
          let s := unprotect partition (address partition) s in
          let '(err, s) := with_flash (begin_erase partition image_size (o_flash s)) s in
          if negb (err =? ESP_OK) then Some (err, out_handle, s) else
          if APP_ROLLBACK_ENABLE && is_ota_partition partition then
            let? (_, s) := esp_ota_invalidate_inactive_ota_data_slot s in Some (ESP_OK, out_handle, s)
          else Some (ESP_OK, out_handle, s)
      end end
  end end.

Definition esp_ota_resume (partition : option esp_partition_t) (erase_sz image_offset : Z) (calloc_ok : bool) (s : ota)
    : option (esp_err_t * option Z * ota) :=
  match partition with
  | None => Some (ESP_ERR_INVALID_ARG, None, s)
  | Some partition =>
  if image_offset >? size partition then Some (ESP_ERR_INVALID_ARG, None, s) else
  match esp_partition_verify parts partition with
  | None => Some (ESP_ERR_NOT_FOUND, None, s)
  | Some partition =>
      if (type partition =? ESP_PARTITION_TYPE_APP) && negb (is_ota_partition partition)
      then Some (ESP_ERR_INVALID_ARG, None, s) else
      let? running_partition := esp_ota_get_running_partition in
      if bool_decide (partition = running_partition) then Some (ESP_ERR_OTA_PARTITION_CONFLICT, None, s) else
      match esp_ota_init_entry calloc_ok partition s with
      | None => Some (ESP_ERR_NO_MEM, None, s)
      | Some (e, s) =>
          let s := unprotect partition (address partition) s in
          Some (ESP_OK, Some (handle e),
                put_entry (with_flags (erase_sz =? OTA_WITH_SEQUENTIAL_WRITES) true image_offset e) s)
      end
  end end.

Definition esp_ota_set_final_partition (h : Z) (final_p : option esp_partition_t) (copy : bool) (s : ota) : esp_err_t * ota :=
  match final_p, get_ota_ops_entry h s with
  | None, _ => (ESP_ERR_INVALID_ARG, s)
  | Some _, None => (ESP_ERR_NOT_FOUND, s)
  | Some final_p, Some it =>
      if negb (ota_resumption it) && negb (wrote_size it =? 0) then (ESP_ERR_INVALID_STATE, s)
      else if bool_decide (staging it = final_p) then (ESP_OK, s)
      else match esp_partition_verify parts final_p with
           | None => (ESP_ERR_NOT_FOUND, s)
           | Some final_partition =>
               let s := put_entry (with_final final_partition copy it) s in
               (ESP_OK, unprotect final_partition (address (staging it)) s)
           end
  end.

(** The erasing at the start of [esp_ota_write]. *)
Definition erase_ahead (it : ota_ops_entry_t) (n : Z) (f : flash) : esp_err_t * flash :=
  let es := erase_size (staging it) in
  let first_sector := wrote_size it / es in
  let last_sector := u32 (wrote_size it + n - 1) / es in
  if wrote_size it mod es =? 0 then
    esp_partition_erase_range (staging it) (wrote_size it) (u32 ((last_sector - first_sector + 1) * es)) f
  else if negb (first_sector =? last_sector) then
    esp_partition_erase_range (staging it) ((first_sector + 1) * es) (u32 ((last_sector - first_sector) * es)) f
  else (ESP_OK, f).

(** The check of the first bytes of an image. *)
Definition check_magic (it : ota_ops_entry_t) (data : list Z) : esp_err_t :=
  if (wrote_size it =? 0) && (partial_bytes it =? 0) then
    if (type (final it) =? ESP_PARTITION_TYPE_APP) || (type (final it) =? ESP_PARTITION_TYPE_BOOTLOADER) then
      if negb (default 0 (data !! 0%nat) =? ESP_IMAGE_HEADER_MAGIC) then ESP_ERR_OTA_VALIDATE_FAILED else ESP_OK
    else if type (final it) =? ESP_PARTITION_TYPE_PARTITION_TABLE then
      if negb (default 0 (data !! 0%nat) + 256 * default 0 (data !! 1%nat) =? ESP_PARTITION_MAGIC)
      then ESP_ERR_OTA_VALIDATE_FAILED else ESP_OK
    else ESP_OK
  else ESP_OK.

(** [memcpy(buf + at, src, length src)] *)
Definition overlay (buf : list Z) (at_ : nat) (src : list Z) : list Z :=
  take at_ buf ++ src ++ drop (at_ + length src) buf.

(** The last statements: write what is left and advance. *)
Definition write_rest (it : ota_ops_entry_t) (data : list Z) (f : flash) : esp_err_t * ota_ops_entry_t * flash :=
  let '(ret, f) := esp_partition_write (staging it) (wrote_size it) data f in
  (ret, if ret =? ESP_OK then with_wrote (u32 (wrote_size it + Z.of_nat (length data))) it else it, f).

(** Trailing bytes that do not fill 16 are kept. *)
Definition keep_tail (it : ota_ops_entry_t) (data : list Z) : ota_ops_entry_t * list Z :=
  let p := (length data mod 16)%nat in
  if negb (Z.of_nat p =? 0)
  then (with_partial (Z.of_nat p) (overlay (partial_data it) 0 (drop (length data - p) data)) it,
        take (length data - p) data)
  else (with_partial 0 (partial_data it) it, data).

(** The body of [esp_ota_write] for the entry found. *)
Definition write_entry (it : ota_ops_entry_t) (data : list Z) (f : flash) : esp_err_t * ota_ops_entry_t * flash :=
  let '(ret, f) := if need_erase it then erase_ahead it (Z.of_nat (length data)) f else (ESP_OK, f) in
  if negb (ret =? ESP_OK) then (ret, it, f) else
  let err := check_magic it data in
  if negb (err =? ESP_OK) then (err, it, f) else
  if flash_encryption then
    if negb (partial_bytes it =? 0) then
      let copy_len := Z.min (16 - partial_bytes it) (Z.of_nat (length data)) in
      let it := with_partial (partial_bytes it + copy_len)
                  (overlay (partial_data it) (Z.to_nat (partial_bytes it)) (take (Z.to_nat copy_len) data)) it in
      if negb (partial_bytes it =? 16) then (ESP_OK, it, f) else
      let '(ret, f) := esp_partition_write (staging it) (wrote_size it) (partial_data it) f in
      if negb (ret =? ESP_OK) then (ret, it, f) else
      let it := with_wrote (u32 (wrote_size it + 16)) (with_partial 0 (replicate 16 255) it) in
      let '(it, data) := keep_tail it (drop (Z.to_nat copy_len) data) in
      write_rest it data f
    else
      let '(it, data) := keep_tail it data in write_rest it data f
  else write_rest it data f.

Definition esp_ota_write (h : Z) (data : list Z) (s : ota) : esp_err_t * ota :=
  if (length data =? 0)%nat then (ESP_OK, s) else
  match get_ota_ops_entry h s with
  | None => (ESP_ERR_INVALID_ARG, s)
  | Some it =>
      let '(ret, it, f) := write_entry it data (o_flash s) in
      (ret, put_entry it (set_o_flash f s))
  end.

Definition esp_ota_write_with_offset (h : Z) (data : list Z) (offset : Z) (s : ota) : option (esp_err_t * ota) :=
  match get_ota_ops_entry h s with
  | None => Some (ESP_ERR_INVALID_ARG, s)
  | Some it =>
      configASSERT (negb (need_erase it));
      if flash_encryption && negb (Z.of_nat (length data) mod 16 =? 0) then Some (ESP_ERR_INVALID_ARG, s) else
      let '(ret, f) := esp_partition_write (staging it) offset data (o_flash s) in
      let it := if ret =? ESP_OK then with_wrote (u32 (wrote_size it + Z.of_nat (length data))) it else it in
      Some (ret, put_entry it (set_o_flash f s))
  end.

Definition esp_ota_abort (h : Z) (s : ota) : esp_err_t * ota :=
  match get_ota_ops_entry h s with
  | None => (ESP_ERR_NOT_FOUND, s)
  | Some it => (ESP_OK, set_entries (remove_entry h (s_ota_ops_entries s)) s)
  end.

Definition ota_verify_partition (it : ota_ops_entry_t) (f : flash) : esp_err_t :=
  if (type (final it) =? ESP_PARTITION_TYPE_APP) || (type (final it) =? ESP_PARTITION_TYPE_BOOTLOADER) then
    if image_ok (cells f) (part_pos (staging it)) then ESP_OK else ESP_ERR_OTA_VALIDATE_FAILED
  else if type (final it) =? ESP_PARTITION_TYPE_PARTITION_TABLE then
    let ret := check_range (staging it) 0 ESP_PARTITION_TABLE_MAX_LEN in
    if negb (ret =? ESP_OK) then ret
    else if negb mapped then ESP_FAIL
    else if negb (fst (esp_partition_table_verify md5 (cells f) (address (staging it)) chip_size) =? ESP_OK)
    then ESP_ERR_OTA_VALIDATE_FAILED else ESP_OK
  else ESP_OK.

(** ** Copying a partition

    What the mapping driver answers: the pages that are free at first, and for
    each call of [esp_partition_mmap] its error and the free pages counted
    after a failure; when the list is used up the calls succeed. *)
Record mmap_answers := MkMmap {
  mmap_free_pages : Z;
  mmap_calls : list (esp_err_t * Z)
}.

Definition MMU_PAGE_SIZE : Z := 0x10000.

(** [esp_partition_mmap] after its checks; the error, the free pages counted
    if there is one, and the answers left. *)
Definition map_source (src : esp_partition_t) (offset n : Z) (maps : list (esp_err_t * Z)) (pages : Z) : esp_err_t * Z * list (esp_err_t * Z) :=
  let '(error, free) := default (ESP_OK, pages) (head maps) in
  let err := check_range src offset n in
  (if negb (err =? ESP_OK) then err else error, free, tail maps).

(** The loop; it gives up at the third failure in a row.  [None]: the fuel is
    used up ([partition_copy_ends] of [OtaWrite] shows that it suffices). *)
Fixpoint copy_loop (n : nat) (maps : list (esp_err_t * Z)) (pages attempts : Z)
    (dest : esp_partition_t) (d : Z) (src : esp_partition_t) (o remaining : Z) (f : flash) : option (esp_err_t * flash) :=
  if remaining <=? 0 then Some (ESP_OK, f) else
  match n with
  | O => None
  | S n =>
      let chunk_size := Z.min remaining (u32 (pages * MMU_PAGE_SIZE)) in
      let '(error, free, maps) := map_source src o chunk_size maps pages in
      if error =? ESP_OK then
        let '(error, f) := esp_partition_write dest d (load_bytes (cells f) (u32 (address src + o)) chunk_size) f in
        if negb (error =? ESP_OK) then Some (error, f)
        else copy_loop n maps pages 0 dest (d + chunk_size) src (o + chunk_size) (remaining - chunk_size) f
      else if attempts + 1 >=? 3 then Some (error, f)
      else copy_loop n maps free (attempts + 1) dest d src o remaining f
  end.

Definition esp_partition_copy (mm : mmap_answers) (dest : esp_partition_t) (dest_offset : Z) (src : esp_partition_t) (src_offset n : Z) (f : flash)
    : option (esp_err_t * flash) :=
  if bool_decide (src = dest) then Some (ESP_ERR_INVALID_ARG, f)
  else if (src_offset >? size src) || (dest_offset >? size dest) then Some (ESP_ERR_INVALID_SIZE, f)
  else
    let '(n, dest_erase_size) := if n =? UINT32_MAX then (size src - src_offset, size dest - dest_offset) else (n, n) in
    if (src_offset + n >? UINT32_MAX) || (src_offset + n >? size src)
       || (dest_offset + n >? UINT32_MAX) || (dest_offset + n >? size dest) then Some (ESP_ERR_INVALID_SIZE, f)
    else
      let '(error, f) := esp_partition_erase_range dest dest_offset (ALIGN_UP dest_erase_size SPI_FLASH_SEC_SIZE) f in
      if negb (error =? ESP_OK) then Some (error, f)
      else copy_loop (Z.to_nat n + length (mmap_calls mm)) (mmap_calls mm) (mmap_free_pages mm) 0 dest dest_offset src src_offset n f.

(** ** Revoking a secure boot key

    [verify_index i pos] is the verification of the image at [pos] with digest
    [i]; [trusted i] says that digest [i] is still trusted. *)

Fixpoint validate_img (verify_index : Z -> esp_partition_pos_t -> bool) (n : nat) (i revoked_key_index : Z) (app_pos : esp_partition_pos_t) : bool :=
  match n with
  | O => false
  | S n =>
      if i =? revoked_key_index then validate_img verify_index n (i + 1) revoked_key_index app_pos
      else if verify_index i app_pos then true
      else validate_img verify_index n (i + 1) revoked_key_index app_pos
  end.

(** The result and the index that is revoked; [revoke_ok] is the outcome of writing the eFuse. *)
Definition esp_ota_revoke_secure_boot_public_key (verify_index : Z -> esp_partition_pos_t -> bool)
    (secure_boot_enabled keys_read revoke_ok : bool) (trusted : Z -> bool) (bootloader_pos : esp_partition_pos_t) (index : Z) (f : flash)
    : option (esp_err_t * option Z) :=
  if negb secure_boot_enabled then Some (ESP_FAIL, None)
  else if negb (index =? 0) && negb (index =? 1) && negb (index =? 2) then Some (ESP_ERR_INVALID_ARG, None) else
  let? running_app_part := esp_ota_get_running_partition in
  let? confirmed :=
    if APP_ROLLBACK_ENABLE then
      let? (ret, st) := esp_ota_get_state_partition running_app_part f in
      Some ((ret =? ESP_OK) && (st =? ESP_OTA_IMG_VALID))
    else Some true in
  if negb confirmed then Some (ESP_FAIL, None)
  else if negb keys_read then Some (ESP_FAIL, None)
  else if negb (trusted index) then Some (ESP_OK, None)
  else if negb (validate_img verify_index 3 0 index (part_pos running_app_part)) then Some (ESP_FAIL, None)
  else if negb (validate_img verify_index 3 0 index bootloader_pos) then Some (ESP_FAIL, None)
  else if negb revoke_ok then Some (ESP_FAIL, None)
  else Some (ESP_OK, Some index).

(** What follows the checks of [esp_ota_end], up to [cleanup]. *)
Definition finish_entry (mm : mmap_answers) (it : ota_ops_entry_t) (f : flash) : option (esp_err_t * flash) :=
  if wrote_size it =? 0 then Some (ESP_ERR_INVALID_ARG, f) else
  let '(ret, f) := if partial_bytes it >? 0 then esp_partition_write (staging it) (wrote_size it) (partial_data it) f
                   else (ESP_OK, f) in
  if negb (ret =? ESP_OK) then Some (ESP_ERR_INVALID_STATE, f) else
  let ret := ota_verify_partition it f in
  if negb (ret =? ESP_OK) then Some (ret, f)
  else if finalize_with_copy it then esp_partition_copy mm (final it) 0 (staging it) 0 (size (final it)) f
  else Some (ret, f).

Definition esp_ota_end (mm : mmap_answers) (h : Z) (s : ota) : option (esp_err_t * ota) :=
  match get_ota_ops_entry h s with
  | None => Some (ESP_ERR_NOT_FOUND, s)
  | Some it =>
      let? (ret, f) := finish_entry mm it (o_flash s) in
      let s := set_o_flash f s in
      let s := if type (final it) =? ESP_PARTITION_TYPE_BOOTLOADER
               then esp_image_bootloader_offset_set primary_bootloader_offset s else s in
      Some (ret, set_entries (remove_entry h (s_ota_ops_entries s)) s)
  end.
End ota_ops.
