(* ===== verification/OtaProps.v ===== *)
(** * Properties of selecting and confirming applications

    Setting the boot partition survives interruptions, and bootloader and
    application agree on what boots.
    The two entries are the abstract state of [BootProps]. *)

From S2P Require Import Prelude EspErr Crc Flash FlashProps PartTable OtaData OtaDataProps Boot BootProps Ota.

(** The checksum is never evaluated in these proofs. *)
#[local] Opaque esp_rom_crc32_le.

(** ** The choice between two entries *)

Definition other (i : Z) : Z := 1 - i.

Lemma inactive_other i : i = 0 \/ i = 1 -> inactive i = other i.
Proof. by intros [-> | ->]. Qed.

Lemma other_range i : i = 0 \/ i = 1 -> other i = 0 \/ other i = 1.
Proof. unfold other. lia. Qed.

Abbreviation valid := bootloader_common_ota_select_valid.
Abbreviation invalid := bootloader_common_ota_select_invalid.
Abbreviation active := bootloader_common_get_active_otadata.

Lemma valid_invalid e : valid e = true -> invalid e = false.
Proof. unfold bootloader_common_ota_select_valid. intros [H _]%andb_true_iff. by apply negb_true_iff. Qed.

Lemma valid_same r e : same_choice r e -> valid r = valid e.
Proof.
  intros (E1 & E2 & E3). unfold bootloader_common_ota_select_valid, bootloader_common_ota_select_invalid.
  by rewrite (crc_seq_only r e), E1, E2, E3.
Qed.

(** The active entry is valid and has the greatest sequence number of the valid ones. *)
Lemma active_some o :
  active o <> -1 ->
  (active o = 0 \/ active o = 1) /\ valid (nth_otadata o (active o)) = true /\
  (valid (nth_otadata o (other (active o))) = true ->
   ota_seq (nth_otadata o (other (active o))) <= ota_seq (nth_otadata o (active o))).
Proof.
  unfold bootloader_common_get_active_otadata, bootloader_common_select_otadata, other. cbn [fst snd].
  destruct (valid o.1) eqn:E1, (valid o.2) eqn:E2; cbn [andb].
  - destruct (Z.eqb_spec (Z.max (ota_seq o.1) (ota_seq o.2)) (ota_seq o.1)); intros _; cbn; split_and!; auto; intros _;
      change (nth_otadata o (1 - 0)) with o.2; change (nth_otadata o (1 - 1)) with o.1; lia.
  - intros _; cbn. split_and!; auto. change (nth_otadata o (1 - 0)) with o.2. by rewrite E2.
  - intros _; cbn. split_and!; auto. change (nth_otadata o (1 - 1)) with o.1. by rewrite E1.
  - done.
Qed.

Lemma active_none o : active o = -1 -> valid o.1 = false /\ valid o.2 = false.
Proof.
  unfold bootloader_common_get_active_otadata, bootloader_common_select_otadata. cbn [fst snd].
  by destruct (valid o.1), (valid o.2); cbn [andb]; try destruct (_ =? _).
Qed.

(** With a valid entry at [i], some entry is active and its number is at least that one's. *)
Lemma active_valid o i :
  i = 0 \/ i = 1 -> valid (nth_otadata o i) = true ->
  active o <> -1 /\ ota_seq (nth_otadata o i) <= ota_seq (nth_otadata o (active o)) /\
  (active o = i \/ (active o = other i /\ valid (nth_otadata o (other i)) = true)).
Proof.
  intros Hi Hv.
  assert (active o <> -1) as Ha.
  { intros [E1 E2]%active_none. destruct Hi as [-> | ->]; cbn in Hv; congruence. }
  destruct (active_some o Ha) as (Hr & Hva & Hmax). split; [done|].
  destruct (decide (active o = i)) as [->|Hne]; [split; [lia|by left]|].
  assert (i = other (active o)) as -> by (unfold other in *; lia).
  replace (other (other (active o))) with (active o) by (unfold other; lia). auto.
Qed.

Definition maybe_abort (rollback : bool) (e : esp_ota_select_entry_t) : esp_ota_select_entry_t :=
  if rollback then abort_entry e else e.

Lemma nth_after_abort rb o i : nth_otadata (after_abort rb o) i = maybe_abort rb (nth_otadata o i).
Proof. unfold after_abort, maybe_abort, nth_otadata. destruct rb; [|done]. by destruct (i =? 0). Qed.

Lemma maybe_abort_id rb e : (rb = true -> ota_state e <> ESP_OTA_IMG_PENDING_VERIFY) -> maybe_abort rb e = e.
Proof.
  intros H. unfold maybe_abort, abort_entry. destruct rb; [|done]. by rewrite (proj2 (Z.eqb_neq _ _)) by auto.
Qed.

Lemma maybe_abort_valid rb e : valid (maybe_abort rb e) = true -> maybe_abort rb e = e.
Proof.
  unfold maybe_abort, abort_entry. destruct rb; [|done]. destruct (_ =? _); [|done].
  intros (_ & _ & H & _)%valid_spec. done.
Qed.

(** What [boot_step] selects, by the active entry that is left. *)
Lemma boot_step_active rb bs o :
  app_count bs <> 0 -> active (after_abort rb o) <> -1 ->
  (boot_step rb bs o).1 = slot_of (app_count bs) (ota_seq (nth_otadata (after_abort rb o) (active (after_abort rb o)))).
Proof.
  intros Hc Ha. unfold boot_step, no_entry. rewrite (proj2 (Z.eqb_neq _ _) Hc), orb_false_r.
  destruct (active_some _ Ha) as (Hr & Hv & _). pose proof (valid_invalid _ Hv) as Hi.
  assert (invalid (after_abort rb o).1 && invalid (after_abort rb o).2 = false) as ->.
  { destruct Hr as [Hr|Hr]; rewrite Hr in Hi; cbn in Hi; rewrite Hi; [done|apply andb_false_r]. }
  by rewrite (proj2 (Z.eqb_neq _ _) Ha).
Qed.

Lemma boot_step_none rb bs o :
  active (after_abort rb o) = -1 -> (boot_step rb bs o).1 = FACTORY_INDEX \/ (boot_step rb bs o).1 = 0.
Proof.
  intros Ha. unfold boot_step. rewrite Ha. destruct (no_entry _ _); [|by left]. cbn [fst]. unfold default_index.
  destruct (negb _); [by left|by right].
Qed.

(** An entry that stays valid after a boot, and is not outnumbered, is selected. *)
Lemma boot_step_choice rb bs o i :
  app_count bs <> 0 -> i = 0 \/ i = 1 ->
  valid (maybe_abort rb (nth_otadata o i)) = true ->
  (valid (maybe_abort rb (nth_otadata o (other i))) = true -> ota_seq (nth_otadata o (other i)) <= ota_seq (nth_otadata o i)) ->
  (boot_step rb bs o).1 = slot_of (app_count bs) (ota_seq (nth_otadata o i)).
Proof.
  intros Hc Hi Hv Hmax. rewrite <- nth_after_abort in Hv, Hmax.
  destruct (active_valid _ i Hi Hv) as (Ha & Hle & Hcase). rewrite boot_step_active by done. f_equal.
  rewrite nth_after_abort in Hv. pose proof (maybe_abort_valid _ _ Hv) as Hid.
  destruct Hcase as [->|[E Hv']]; [by rewrite nth_after_abort, Hid|].
  rewrite E in *. specialize (Hmax Hv'). rewrite !nth_after_abort in *. rewrite Hid in *.
  rewrite (maybe_abort_valid _ _ Hv') in *. lia.
Qed.

(** ** The next sequence number *)

Lemma next_seq_spec n seq x count i :
  0 <= seq -> 0 < count -> 0 <= x < count -> 0 <= i -> seq + count < 2 ^ 32 ->
  (seq <= x + i * count + Z.of_nat n * count) -> (i = 0 \/ x + (i - 1) * count < seq) ->
  exists j, next_seq n seq x count i = Some j /\ 0 <= j /\ seq <= x + j * count /\
    (j = 0 \/ x + (j - 1) * count < seq).
Proof.
  intros H0 Hc Hx. revert i. induction n as [|n IH]; intros i Hi Hs Hn Hb; cbn [next_seq];
    rewrite u32_id by (destruct Hb; nia); destruct (Z.gtb_spec seq (x + i * count)).
  - exfalso. nia.
  - by exists i.
  - apply IH; [lia|lia|nia|right; replace (i + 1 - 1) with i by lia; lia].
  - by exists i.
Qed.

(** The number chosen: at least [seq], less than [count] above it, and for slot [k]. *)
Lemma next_seq_slot seq k count :
  0 < count -> 0 <= k < count -> 0 < seq -> seq + count < 2 ^ 32 ->
  exists i, next_seq (Z.to_nat (seq / count + 1)) seq ((k + 1) mod count) count 0 = Some i /\
    let new := (k + 1) mod count + i * count in
    u32 new = new /\ seq <= new < seq + count /\ slot_of count new = k.
Proof.
  intros Hc Hk Hs Hb. pose proof (Z.mod_pos_bound (k + 1) count Hc) as Hx.
  destruct (next_seq_spec (Z.to_nat (seq / count + 1)) seq ((k + 1) mod count) count 0) as (j & Ej & Hj & Hle & Hlt);
    [lia|done|done|lia|done| |by left|].
  { assert (seq < (seq / count + 1) * count) by (Z.div_mod_to_equations; nia).
    assert (0 <= seq / count) by (apply Z.div_pos; lia). rewrite Z2Nat.id by lia. nia. }
  exists j. split; [done|]. cbv zeta. set (new := (k + 1) mod count + j * count) in *.
  assert (seq <= new < seq + count) as Hnew by (destruct Hlt as [-> |]; subst new; nia).
  split_and!; [apply u32_id; lia|lia|lia|].
  unfold slot_of. rewrite u32_id by lia. subst new.
  rewrite <- (Z.mod_small k count) at 2 by done.
  replace ((k + 1) mod count + j * count - 1) with (k + (j - (k + 1) / count) * count) by (Z.div_mod_to_equations; nia).
  by rewrite Z_mod_plus_full.
Qed.

Lemma slot_of_first k count : 0 <= k < count -> count < 2 ^ 32 -> slot_of count (k + 1) = k.
Proof. intros. unfold slot_of. rewrite u32_id by lia. rewrite Z.add_simpl_r. by apply Z.mod_small. Qed.

(** ** Rewriting an entry, whatever the outcomes *)

(** What the flash needs before an update: bytes, and operations that report their failures. *)
Record flash_ok (f : flash) : Prop := {
  fo_mem : mem_ok (cells f);
  fo_outcomes : outcomes_ok f
}.

(** The OTA data partition of the application, at [base]. *)
Record otadata_part (od : esp_partition_t) : Prop := {
  od_erase : erase_size od = FLASH_SECTOR_SIZE;
  od_size : 2 * FLASH_SECTOR_SIZE <= size od;
  od_rw : readonly od = false;
  od_aligned : address od mod FLASH_SECTOR_SIZE = 0;
  od_space : addressable od
}.

(** An entry that was completely written, or never. *)
Definition complete (e : esp_ota_select_entry_t) : Prop :=
  crc e = bootloader_common_ota_select_crc e \/ ota_seq e = UINT32_MAX.

Definition new_entry (q st : Z) (e : esp_ota_select_entry_t) : esp_ota_select_entry_t :=
  let e := with_seq q (with_state st e) in with_crc (bootloader_common_ota_select_crc e) e.

Lemma new_entry_wf q st e : 0 <= q < 2 ^ 32 -> 0 <= st < 2 ^ 32 -> select_wf e -> select_wf (new_entry q st e).
Proof. intros Hq Hst [? ? ? ? ?]. constructor; try done. cbn. by apply crc32_word_range. Qed.

Lemma new_entry_crc q st e : crc (new_entry q st e) = bootloader_common_ota_select_crc (new_entry q st e).
Proof. done. Qed.

Lemma nth_otadata_at m a i :
  i = 0 \/ i = 1 -> nth_otadata (otadata_at m a) i = read_select m (a + FLASH_SECTOR_SIZE * i).
Proof. intros [-> | ->]; unfold otadata_at, nth_otadata; cbn; f_equal; lia. Qed.

Lemma nth_set_otadata i e o : i = 0 \/ i = 1 -> nth_otadata (set_otadata i e o) i = e.
Proof. by intros [-> | ->]. Qed.

Lemma nth_set_other i e o : i = 0 \/ i = 1 -> nth_otadata (set_otadata i e o) (other i) = nth_otadata o (other i).
Proof. by intros [-> | ->]. Qed.

(** The result of an update of entry [i] of the entries [o] to [e]. *)
Record updated (a : Z) (o : two_otadata) (i : Z) (e : esp_ota_select_entry_t) (f f' : flash) (err : esp_err_t) : Prop := {
  up_flash : flash_ok f';
  up_done : outcomes f = [] -> err = ESP_OK /\ outcomes f' = [];
  up_ok : err = ESP_OK -> nth_otadata (otadata_at (cells f') a) i = e;
  up_other : nth_otadata (otadata_at (cells f') a) (other i) = nth_otadata o (other i);
  up_valid : valid (nth_otadata (otadata_at (cells f') a) i) = true ->
             same_choice (nth_otadata (otadata_at (cells f') a) i) (nth_otadata o i) \/
             same_choice (nth_otadata (otadata_at (cells f') a) i) e;
  up_frame : same_outside a (2 * FLASH_SECTOR_SIZE) (cells f) (cells f')
}.

Lemma same_choice_refl e : same_choice e e.
Proof. done. Qed.

Lemma write_otadata_outcomes e b f : outcomes_ok f -> outcomes_ok (write_otadata e b f).2.
Proof.
  intros H. unfold write_otadata. pose proof (flash_erase_outcomes (b / FLASH_SECTOR_SIZE * SPI_FLASH_SEC_SIZE) SPI_FLASH_SEC_SIZE f H) as H1.
  destruct (esp_flash_erase_region _ _ f) as [err f1]. cbn [snd] in H1.
  destruct (err =? ESP_OK); [by apply flash_write_outcomes|done].
Qed.

(** What a read of the entry finds after a write with any outcome. *)
Lemma write_otadata_reads e b f :
  flash_ok f -> b mod FLASH_SECTOR_SIZE = 0 -> select_wf e ->
  let '(err, f') := write_otadata e b f in
  mem_ok (cells f') /\
  ((err <> ESP_OK /\ exists n, cells f' = erased (cells f) b n) \/
   (exists n, cells f' = program (erased (cells f) b FLASH_SECTOR_SIZE) b (take n (select_bytes e)) /\
              (err = ESP_OK -> n = 32%nat))).
Proof.
  intros [Hm Ho] Hb He. unfold write_otadata. rewrite sector_start by done.
  unfold esp_flash_erase_region. pose proof (next_outcome_ok f Ho) as Hn. destruct (next_outcome f) as [|k err].
  - change (ESP_OK =? ESP_OK) with true. cbn iota. unfold esp_flash_write. cbn [cells].
    pose proof (next_outcome_ok _ (outcomes_ok_tail f (erased (cells f) b SPI_FLASH_SEC_SIZE) Ho)) as Hn2.
    assert (forall n, mem_ok (program (erased (cells f) b SPI_FLASH_SEC_SIZE) b (take n (select_bytes e)))) as Hmo.
    { intros n. apply program_mem_ok; [by apply erased_mem_ok|]. apply Forall_take. by apply select_bytes_ok. }
    destruct (next_outcome _) as [|n err].
    + assert (take 32 (select_bytes e) = select_bytes e) as E32 by (apply take_ge; by rewrite length_select_bytes).
      split; [cbn [cells]; rewrite <- E32; apply Hmo|]. right. exists 32%nat. by rewrite E32.
    + split; [apply Hmo|]. right. exists n. split; [done|]. cbn in Hn2. done.
  - cbn in Hn. rewrite (proj2 (Z.eqb_neq _ _) Hn). split; [by apply erased_mem_ok|]. left. split; [done|]. by eexists.
Qed.

Lemma write_otadata_updates a o i e f :
  flash_ok f -> a mod FLASH_SECTOR_SIZE = 0 -> o = otadata_at (cells f) a -> i = 0 \/ i = 1 ->
  complete (nth_otadata o i) -> select_wf e -> 0 < ota_seq e -> crc e = bootloader_common_ota_select_crc e ->
  let r := write_otadata e (a + FLASH_SECTOR_SIZE * i) f in updated a o i e f r.2 r.1.
Proof.
  intros Hf Ha Eo Hi Hco Hwe Hq Hcrc. cbv zeta. set (b := a + FLASH_SECTOR_SIZE * i).
  assert (b mod FLASH_SECTOR_SIZE = 0) as Hb by (subst b; rewrite Z.mul_comm, Z_mod_plus_full; done).
  pose proof (write_otadata_reads e b f Hf Hb Hwe) as Hr.
  pose proof (write_otadata_frame e b f Hb Hwe) as Hfr. pose proof (write_otadata_outcomes e b f (fo_outcomes _ Hf)) as Hou.
  assert (outcomes f = [] -> (write_otadata e b f).1 = ESP_OK /\ outcomes (write_otadata e b f).2 = []) as Hdone.
  { intros E. destruct (write_otadata_done e b f) as (H1 & [H2 _] & _); [by split; [|apply Hf]|done|done|done]. }
  destruct (write_otadata e b f) as [err f']. cbn [fst snd] in *. destruct Hr as [Hm' Hr].
  assert (FLASH_SECTOR_SIZE = 4096) as HS by done.
  assert (nth_otadata (otadata_at (cells f') a) i = read_select (cells f') b) as En by (by apply nth_otadata_at).
  assert (nth_otadata o i = read_select (cells f) b) as Eno by (subst o; by apply nth_otadata_at).
  assert (forall n, holds (program (erased (cells f) b FLASH_SECTOR_SIZE) b (take n (select_bytes e))) b (Z.of_nat n) e) as Hh.
  { intros n. apply program_holds; [done|]. intros x Hx. apply erased_inside. lia. }
  constructor; [by split|done|..].
  - intros ->. rewrite En. destruct Hr as [[? _]|(n & E & Hn)]; [done|]. rewrite E, (Hn eq_refl). by apply holds_all, (Hh 32%nat).
  - subst o. rewrite !nth_otadata_at by (by apply other_range). apply read_select_ext. intros x Hx. apply Hfr.
    subst b. unfold other in Hx. lia.
  - rewrite En, Eno. intros Hv. destruct Hr as [(_ & n & E)|(n & E & _)]; rewrite E in *.
    + left. apply partial_erase; [apply Hf| |done]. by rewrite <- Eno.
    + right. apply (partial_entry _ _ (Z.of_nat n)); try done.
  - eapply same_outside_weaken; [exact Hfr|subst b; lia..].
Qed.

(** The application writes an entry as the bootloader does. *)
Lemma rewrite_is_write od o i q e f :
  otadata_part od -> i = 0 \/ i = 1 -> nth_otadata o i = e -> select_wf e -> 0 <= q < 2 ^ 32 ->
  rewrite_ota_seq o q i od f =
  write_otadata (with_crc (bootloader_common_ota_select_crc (with_seq q e)) (with_seq q e)) (address od + FLASH_SECTOR_SIZE * i) f.
Proof.
  intros [He Hs Hrw Hal Hsp] Hi <- Hw Hq. unfold rewrite_ota_seq. destruct (Z.gtb_spec i 1); [lia|].
  set (e := with_crc _ _). unfold esp_partition_erase_range, esp_partition_write, write_otadata. rewrite Hrw, He.
  assert (FLASH_SECTOR_SIZE = 4096) as HS by done. assert (SPI_FLASH_SEC_SIZE = 4096) as HS' by done.
  rewrite (proj2 (check_range_ok od (i * FLASH_SECTOR_SIZE) FLASH_SECTOR_SIZE)) by lia.
  change (negb (ESP_OK =? ESP_OK)) with false. cbn iota.
  rewrite (addressable_sum od (i * FLASH_SECTOR_SIZE)), (addressable_sum od (FLASH_SECTOR_SIZE * i)) by (done || lia).
  rewrite sector_start by (rewrite Z.mul_comm, Z_mod_plus_full; done).
  rewrite HS, HS'. rewrite (Z_mod_same_full 4096), (Z_mod_mult i 4096). change (negb (0 =? 0)) with false. cbn iota.
  rewrite (Z.mul_comm i 4096). destruct (esp_flash_erase_region _ _ f) as [err f1].
  destruct (Z.eqb_spec err ESP_OK) as [->|]; [|done]. cbn [negb].
  rewrite length_select_bytes by (constructor; try apply Hw; [done|by apply crc32_word_range]).
  by rewrite (proj2 (check_range_ok od (4096 * i) (Z.of_nat 32))) by lia.
Qed.

(** ** The application's and the bootloader's picture of the partition table *)

Section update.
Context (parts : list esp_partition_t) (od : esp_partition_t) (bs : bootloader_state_t).

(** Both were loaded from the same table ([PartTableProps] derives this). *)
Record views : Prop := {
  v_find : esp_partition_find_first parts ESP_PARTITION_TYPE_DATA ESP_PARTITION_SUBTYPE_DATA_OTA None = Some od;
  v_od : otadata_part od;
  v_pos : part_pos od = ota_info bs;
  v_off : 0 < address od;
  v_count : esp_ota_get_app_partition_count parts = Some (app_count bs);
  v_slots : forall k, 0 <= k < app_count bs ->
    exists p, find_app parts (ESP_PARTITION_SUBTYPE_APP_OTA_MIN + k) = Some p /\ part_pos p = PartTable.ota bs k
}.

Lemma count_apps_range n c m : 0 <= c <= 16 -> count_apps parts n c = Some m -> 0 <= m <= 16.
Proof.
  revert c. induction n as [|n IH]; intros c Hc E; cbn in E; destruct (find_app parts _); try (simplify_eq; lia);
    destruct (Z.ltb_spec c 16); try done. apply (IH (c + 1)); [lia|done].
Qed.

Lemma v_count_range : views -> 0 <= app_count bs <= 16.
Proof. intros Hv. eapply count_apps_range; [|apply Hv]. lia. Qed.

Lemma v_placed : views -> otadata_placed bs.
Proof.
  intros [_ [_ Hs _ Ha] Hp Ho _ _]. unfold part_pos in Hp. constructor; rewrite <- Hp; cbn; done || lia.
Qed.

Lemma v_read f : views -> read_otadata parts true f = Some (od, otadata_at (cells f) (address od)).
Proof.
  intros [Hf [He _ _ _] _ _ _ _]. unfold read_otadata. rewrite Hf. cbn [negb]. by rewrite He.
Qed.

Lemma sub_type_id k : 0 <= k < 16 -> SUB_TYPE_ID (ESP_PARTITION_SUBTYPE_APP_OTA_MIN + k) = k.
Proof.
  intros Hk. unfold SUB_TYPE_ID, ESP_PARTITION_SUBTYPE_APP_OTA_MIN. change 0x0F with (Z.ones 4).
  rewrite Z.land_ones by lia. change (2 ^ 4) with 16. replace (16 + k) with (k + 1 * 16) by lia.
  rewrite Z_mod_plus_full. by apply Z.mod_small.
Qed.

Lemma find_app_spec st p : find_app parts st = Some p -> st <> ESP_PARTITION_SUBTYPE_ANY ->
  p ∈ parts /\ type p = ESP_PARTITION_TYPE_APP /\ subtype p = st.
Proof. intros E Hst. by apply find_first_some in E. Qed.

Context (rb : bool) (efuse_size : Z) (image_ok : mem -> esp_partition_pos_t -> bool).

(** The entries allow an update: the one to be overwritten is complete, and
    the active one, if any, has a number that leaves room and was confirmed. *)
Record updatable (o : two_otadata) : Prop := {
  ud_complete : forall i, i = 0 \/ i = 1 -> complete (nth_otadata o i);
  ud_room : active o <> -1 -> 0 < ota_seq (nth_otadata o (active o)) < 2 ^ 32 - 17;
  ud_confirmed : rb = true -> active o <> -1 -> ota_state (nth_otadata o (active o)) <> ESP_OTA_IMG_PENDING_VERIFY
}.

(** The entry that an update overwrites, and the slot it encodes. *)
Definition target (o : two_otadata) : Z := if active o =? -1 then 0 else inactive (active o).

Lemma target_range o : target o = 0 \/ target o = 1.
Proof.
  unfold target. destruct (Z.eqb_spec (active o) (-1)) as [|Ha]; [by left|].
  destruct (active_some o Ha) as ([-> | ->] & _); auto.
Qed.

Lemma new_state_range : 0 <= set_new_state_otadata rb < 2 ^ 32.
Proof. unfold set_new_state_otadata, ESP_OTA_IMG_NEW, ESP_OTA_IMG_UNDEFINED. destruct rb; lia. Qed.

Lemma rewrite_ota_data_spec k f :
  views -> flash_ok f -> 0 <= k < app_count bs ->
  let o := otadata_at (cells f) (address od) in
  updatable o ->
  exists q r, esp_rewrite_ota_data parts rb true (ESP_PARTITION_SUBTYPE_APP_OTA_MIN + k) f = Some r /\
    0 < q < UINT32_MAX /\ slot_of (app_count bs) q = k /\
    (active o <> -1 -> ota_seq (nth_otadata o (active o)) <= q) /\
    updated (address od) o (target o) (new_entry q (set_new_state_otadata rb) (nth_otadata o (target o))) f r.2 r.1.
Proof.
  intros Hv Hf Hk o Hu. pose proof (v_count_range Hv) as Hc.
  pose proof (target_range o) as Ht. pose proof new_state_range as Hst.
  assert (forall i, i = 0 \/ i = 1 -> select_wf (nth_otadata o i)) as Hw.
  { intros i Hi. subst o. rewrite nth_otadata_at by done. by apply read_select_wf, Hf. }
  assert (forall q, 0 < q < UINT32_MAX ->
    updated (address od) o (target o) (new_entry q (set_new_state_otadata rb) (nth_otadata o (target o))) f
      (rewrite_ota_seq (set_otadata (target o) (with_state (set_new_state_otadata rb) (nth_otadata o (target o))) o) q (target o) od f).2
      (rewrite_ota_seq (set_otadata (target o) (with_state (set_new_state_otadata rb) (nth_otadata o (target o))) o) q (target o) od f).1) as Hup.
  { intros q Hq. assert (0 <= q < 2 ^ 32) by (unfold UINT32_MAX in *; lia).
    erewrite rewrite_is_write; [|apply Hv|done|by apply nth_set_otadata|by apply with_state_wf, Hw|done].
    apply write_otadata_updates; [done|apply Hv|done|done|by apply Hu| |cbn; lia|done].
    by apply (new_entry_wf q (set_new_state_otadata rb) (nth_otadata o (target o))), Hw. }
  unfold esp_rewrite_ota_data. rewrite v_read by done. fold o. rewrite (v_count Hv). rewrite sub_type_id by lia.
  destruct (Z.geb_spec k (app_count bs)); [lia|].
  destruct (Z.eqb_spec (active o) (-1)) as [Ea|Ea]; cbn [negb].
  - exists (k + 1). eexists. split; [done|]. unfold UINT32_MAX. split_and!; [lia|lia|apply slot_of_first; lia|done|].
    assert (target o = 0) as <- by (unfold target; by rewrite Ea). apply Hup. unfold UINT32_MAX. lia.
  - pose proof (ud_room _ Hu Ea) as Hroom.
    destruct (next_seq_slot (ota_seq (nth_otadata o (active o))) k (app_count bs)) as (i & Ei & Eu & Hq & Hs); [lia..|].
    unfold umod. rewrite (proj2 (Z.eqb_neq (app_count bs) 0)) by lia. cbn [negb]. rewrite Ei, Eu.
    exists ((k + 1) mod app_count bs + i * app_count bs). eexists. split; [done|].
    unfold UINT32_MAX in *. split_and!; [lia|lia|done|lia|].
    assert (target o = inactive (active o)) as <- by (unfold target; by rewrite (proj2 (Z.eqb_neq _ _) Ea)).
    apply Hup. lia.
Qed.

(** ** What boots after an update *)

Lemma valid_new q e : 0 < q < UINT32_MAX -> valid (new_entry q (set_new_state_otadata rb) e) = true.
Proof. intros Hq. apply valid_spec. cbn. unfold set_new_state_otadata. destruct rb; split_and!; done || lia. Qed.

Lemma same_choice_abort r e : same_choice r e -> maybe_abort rb e = e -> valid (maybe_abort rb r) = valid e.
Proof.
  intros Hs. pose proof Hs as (_ & E2 & _). unfold maybe_abort, abort_entry. destruct rb; [|intros _; by apply valid_same].
  rewrite E2. destruct (Z.eqb_spec (ota_state e) ESP_OTA_IMG_PENDING_VERIFY) as [Ee|]; [|intros _; by apply valid_same].
  intros E. apply (f_equal ota_state) in E. cbn in E. rewrite Ee in E. discriminate E.
Qed.

Lemma valid_of_abort e : valid (maybe_abort rb e) = true -> valid e = true.
Proof. intros H. pose proof (maybe_abort_valid _ _ H) as E. rewrite E in H. exact H. Qed.

(** The entry that is not overwritten: it is the active one, or not valid. *)
Lemma other_target o :
  valid (nth_otadata o (other (target o))) = true -> active o <> -1 /\ other (target o) = active o.
Proof.
  intros Hv. unfold target in *. destruct (Z.eqb_spec (active o) (-1)) as [Ea|Ea].
  - destruct (active_none o Ea) as [_ H2]. cbn in Hv. change (nth_otadata o (other 0)) with o.2 in Hv. congruence.
  - split; [done|]. destruct (active_some o Ea) as (Hr & _). rewrite inactive_other by done. unfold other. lia.
Qed.

Lemma selects_new o o' q k :
  app_count bs <> 0 -> slot_of (app_count bs) q = k -> 0 < q < UINT32_MAX ->
  (active o <> -1 -> ota_seq (nth_otadata o (active o)) <= q) ->
  nth_otadata o' (other (target o)) = nth_otadata o (other (target o)) ->
  same_choice (nth_otadata o' (target o)) (new_entry q (set_new_state_otadata rb) (nth_otadata o (target o))) ->
  (boot_step rb bs o').1 = k /\ valid (nth_otadata o' (target o)) = true /\ (boot_step false bs o').1 = k.
Proof.
  intros Hc Hs Hq Hle Ho Hn. pose proof (valid_new q (nth_otadata o (target o)) Hq) as Hv.
  assert (maybe_abort rb (new_entry q (set_new_state_otadata rb) (nth_otadata o (target o))) =
          new_entry q (set_new_state_otadata rb) (nth_otadata o (target o))) as Hid.
  { apply maybe_abort_id. cbn. unfold set_new_state_otadata. by intros ->. }
  assert (ota_seq (nth_otadata o' (target o)) = q) as Eq by apply Hn.
  assert (valid (nth_otadata o' (other (target o))) = true ->
          ota_seq (nth_otadata o' (other (target o))) <= ota_seq (nth_otadata o' (target o))) as Hmax.
  { rewrite Ho, Eq. intros H. apply other_target in H as [Ha ->]. by apply Hle. }
  split_and!.
  - rewrite (boot_step_choice rb bs o' (target o)); [by rewrite Eq|done|apply target_range| |].
    + by rewrite (same_choice_abort _ _ Hn Hid).
    + intros H%valid_of_abort. by apply Hmax.
  - by rewrite (valid_same _ _ Hn).
  - rewrite (boot_step_choice false bs o' (target o)); [by rewrite Eq|done|apply target_range| |done].
    cbn. by rewrite (valid_same _ _ Hn).
Qed.

Lemma selects_old o o' :
  app_count bs <> 0 -> updatable o ->
  nth_otadata o' (other (target o)) = nth_otadata o (other (target o)) ->
  (valid (nth_otadata o' (target o)) = true -> same_choice (nth_otadata o' (target o)) (nth_otadata o (target o))) ->
  (boot_step rb bs o').1 = (boot_step rb bs o).1 \/
  (active o = -1 /\ ((boot_step rb bs o').1 = FACTORY_INDEX \/ (boot_step rb bs o').1 = 0)).
Proof.
  intros Hc Hu Ho Hold. destruct (decide (active o = -1)) as [Ea|Ea].
  - right. split; [done|]. apply boot_step_none. destruct (active_none o Ea) as [H1 H2].
    assert (target o = 0) as Et by (unfold target; by rewrite Ea). rewrite Et in *.
    destruct (decide (active (after_abort rb o') = -1)) as [|Ha]; [done|exfalso].
    destruct (active_some _ Ha) as (Hr & Hv & _). rewrite nth_after_abort in Hv. apply valid_of_abort in Hv.
    destruct Hr as [Hr|Hr]; rewrite Hr in Hv.
    + pose proof (Hold Hv) as Hs. rewrite (valid_same _ _ Hs) in Hv. cbn in Hv. congruence.
    + change (nth_otadata o' 1) with (nth_otadata o' (other 0)) in Hv. rewrite Ho in Hv.
      change (nth_otadata o (other 0)) with o.2 in Hv. congruence.
  - left. destruct (active_some o Ea) as (Hr & Hv & Hmax).
    assert (target o = other (active o)) as Et
      by (unfold target; rewrite (proj2 (Z.eqb_neq _ _) Ea); by apply inactive_other).
    rewrite Et in *. assert (other (other (active o)) = active o) as Eo by (unfold other; lia). rewrite Eo in Ho.
    pose proof (maybe_abort_id rb _ (fun H => ud_confirmed _ Hu H Ea)) as Hid.
    rewrite (boot_step_choice rb bs o' (active o)), (boot_step_choice rb bs o (active o)); try done; try by rewrite ?Ho, Hid.
    + by rewrite Ho.
    + intros H%valid_of_abort. by apply Hmax.
    + intros H%valid_of_abort. pose proof (Hold H) as Hs. rewrite Ho. rewrite (proj1 Hs). apply Hmax.
      by rewrite <- (valid_same _ _ Hs).
Qed.

Lemma get_boot_partition_step f k p :
  views -> app_count bs <> 0 -> let o := otadata_at (cells f) (address od) in
  active o <> -1 -> (boot_step false bs o).1 = k ->
  find_app parts (ESP_PARTITION_SUBTYPE_APP_OTA_MIN + k) = Some p ->
  esp_ota_get_boot_partition parts true f = Some (Some p).
Proof.
  intros Hv Hc o Ha Hk Hp. unfold esp_ota_get_boot_partition. rewrite v_read, (v_count Hv) by done. fold o. clearbody o.
  rewrite (boot_step_active false bs o Hc Ha) in Hk.
  destruct (active_some _ Ha) as (Hr & Hva & _). pose proof (valid_invalid _ Hva) as Hi.
  assert (invalid o.1 && invalid o.2 || (app_count bs =? 0) = false) as ->.
  { rewrite (proj2 (Z.eqb_neq _ _) Hc), orb_false_r.
    destruct Hr as [Hr|Hr]; rewrite Hr in Hi; cbn in Hi; rewrite Hi; [done|apply andb_false_r]. }
  rewrite (proj2 (Z.eqb_neq _ _) Ha). cbn [negb]. unfold umod. rewrite (proj2 (Z.eqb_neq _ _) Hc). cbn [negb].
  cbn [after_abort] in Hk. unfold slot_of in Hk. by rewrite Hk, Hp.
Qed.

(** C2. Without anti-rollback, setting the boot partition to an OTA slot with a
    valid image is atomic under power failures, from OTA data that the update
    interface left behind ([updatable]): whatever the outcomes of the flash operations, the
    next boot selects the new slot or what it would have selected before (the
    default application if no entry was valid); when the call reports success,
    the bootloader selects the new slot and [esp_ota_get_boot_partition]
    returns it; it does report success when the flash operations complete; and
    nothing outside the OTA data partition changes.  (Choosing the factory
    application is not atomic: [set_factory_partition] and
    [factory_choice_not_atomic].) *)
Theorem set_boot_partition_atomic (efuse_plain : bool) (efuse : Z) (k : Z) (p : esp_partition_t) (s : ota) :
  views -> flash_ok (o_flash s) -> updatable (otadata_at (cells (o_flash s)) (address od)) ->
  0 <= k < app_count bs -> find_app parts (ESP_PARTITION_SUBTYPE_APP_OTA_MIN + k) = Some p ->
  image_ok (cells (o_flash s)) (part_pos p) = true ->
  exists err s' i b,
    esp_ota_set_boot_partition parts rb false true efuse_size image_ok (Some p) s = Some (err, s') /\
    bootloader_utility_get_selected_boot_partition rb false true efuse_plain efuse_size bs
      (MkBootState (o_flash s') efuse false) = Some (i, b) /\
    (i = k \/ i = (boot_step rb bs (otadata_at (cells (o_flash s)) (address od))).1 \/
     (active (otadata_at (cells (o_flash s)) (address od)) = -1 /\ (i = FACTORY_INDEX \/ i = 0))) /\
    (err = ESP_OK -> i = k /\ esp_ota_get_boot_partition parts true (o_flash s') = Some (Some p)) /\
    (outcomes (o_flash s) = [] -> err = ESP_OK) /\
    changes_only od (cells (o_flash s)) (cells (o_flash s')).
Proof.
  intros Hv Hf Hu Hk Hp Him. set (o := otadata_at _ _) in *. pose proof (v_count_range Hv) as Hcr.
  destruct (find_app_spec _ _ Hp) as (_ & Hty & Hst); [unfold ESP_PARTITION_SUBTYPE_ANY, ESP_PARTITION_SUBTYPE_APP_OTA_MIN; lia|].
  destruct (rewrite_ota_data_spec k (o_flash s) Hv Hf Hk Hu) as (q & r & Er & Hq & Hslot & Hle & Hup). fold o in Hle, Hup.
  exists r.1, (set_o_flash r.2 s).
  assert (esp_ota_set_boot_partition parts rb false true efuse_size image_ok (Some p) s = Some (r.1, set_o_flash r.2 s)) as ->.
  { unfold esp_ota_set_boot_partition, image_validate. rewrite Him, Hty, Hst.
    change (negb (ESP_OK =? ESP_OK)) with false. change (ESP_PARTITION_TYPE_APP =? ESP_PARTITION_TYPE_APP) with true. cbn iota.
    rewrite (proj2 (Z.eqb_neq (ESP_PARTITION_SUBTYPE_APP_OTA_MIN + k) ESP_PARTITION_SUBTYPE_APP_FACTORY))
      by (unfold ESP_PARTITION_SUBTYPE_APP_FACTORY, ESP_PARTITION_SUBTYPE_APP_OTA_MIN; lia).
    destruct (esp_ota_get_partition_description p (o_flash s)). by rewrite Er. }
  destruct s as [f ef en lh bo wp]. cbn [set_o_flash o_flash] in *.
  destruct (selected_index rb efuse_plain efuse_size bs (MkBootState r.2 efuse false) (v_placed Hv)) as [b Eb].
  cbn [b_flash] in Eb.
  assert (offset (ota_info bs) = address od) as Eoff by (by rewrite <- (v_pos Hv)). rewrite Eoff in Eb.
  set (o' := otadata_at (cells r.2) (address od)) in *.
  exists (boot_step rb bs o').1, b. assert (app_count bs <> 0) as Hc by lia.
  pose proof (up_other _ _ _ _ _ _ _ Hup) as Hot. fold o' in Hot.
  assert (same_choice (nth_otadata o' (target o)) (new_entry q (set_new_state_otadata rb) (nth_otadata o (target o))) ->
    (boot_step rb bs o').1 = k /\ esp_ota_get_boot_partition parts true r.2 = Some (Some p)) as Hnew.
  { intros Hn. destruct (selects_new o o' q k Hc Hslot Hq Hle Hot Hn) as (H1 & H2 & H3). split; [done|].
    apply (get_boot_partition_step r.2 k p Hv Hc); [|done..]. by apply (active_valid _ _ (target_range o)). }
  split_and!; [done|done| | | |].
  - destruct (decide (same_choice (nth_otadata o' (target o)) (new_entry q (set_new_state_otadata rb) (nth_otadata o (target o)))))
      as [Hn|Hn]; [left; by apply Hnew|right].
    apply (selects_old o o' Hc Hu Hot). intros Hval. by destruct (up_valid _ _ _ _ _ _ _ Hup Hval).
  - intros E. apply Hnew. pose proof (up_ok _ _ _ _ _ _ _ Hup E) as E1. fold o' in E1. by rewrite E1.
  - intros E. by apply (up_done _ _ _ _ _ _ _ Hup).
  - unfold changes_only. eapply same_outside_weaken; [apply (up_frame _ _ _ _ _ _ _ Hup)|lia|].
    pose proof (od_size _ (v_od Hv)). lia.
Qed.
(** Choosing the factory application erases the OTA data: when that succeeds
    the bootloader selects the factory application (or slot 0 if there is
    none), and nothing else changes.  This choice is not atomic
    ([factory_choice_not_atomic] below). *)
Theorem set_factory_partition (efuse_plain : bool) (efuse : Z) (p : esp_partition_t) (s : ota) :
  views -> flash_ok (o_flash s) -> size od mod SPI_FLASH_SEC_SIZE = 0 ->
  type p = ESP_PARTITION_TYPE_APP -> subtype p = ESP_PARTITION_SUBTYPE_APP_FACTORY -> image_ok (cells (o_flash s)) (part_pos p) = true ->
  exists err s' i b,
    esp_ota_set_boot_partition parts rb false true efuse_size image_ok (Some p) s = Some (err, s') /\
    bootloader_utility_get_selected_boot_partition rb false true efuse_plain efuse_size bs
      (MkBootState (o_flash s') efuse false) = Some (i, b) /\
    (err = ESP_OK -> i = default_index bs) /\
    (outcomes (o_flash s) = [] -> err = ESP_OK) /\
    changes_only od (cells (o_flash s)) (cells (o_flash s')).
Proof.
  intros Hv Hf Hsz Hty Hst Him. pose proof (od_space _ (v_od Hv)) as Hsp. pose proof (od_size _ (v_od Hv)) as Hs2.
  pose proof (partition_erase_frame od 0 (size od) (o_flash s) Hsp ltac:(lia)) as Hfr.
  destruct (esp_partition_erase_range od 0 (size od) (o_flash s)) as [err f'] eqn:Ee. cbn [snd] in Hfr.
  exists err, (set_o_flash f' s).
  assert (o_flash (set_o_flash f' s) = f') as Ef by (by destruct s).
  destruct (selected_index rb efuse_plain efuse_size bs (MkBootState f' efuse false) (v_placed Hv)) as [b Eb]. cbn [b_flash] in Eb.
  assert (offset (ota_info bs) = address od) as Eoff by (by rewrite <- (v_pos Hv)). rewrite Eoff in Eb.
  exists (boot_step rb bs (otadata_at (cells f') (address od))).1, b. rewrite Ef. split_and!; [|done| | |done].
  - unfold esp_ota_set_boot_partition, image_validate. rewrite Him, Hty, Hst, (v_find Hv), Ee. done.
  - intros ->. apply partition_erase_ok in Ee as (_ & _ & _ & _ & _ & Ec); [|done|lia|apply Hf].
    assert (forall i, i = 0 \/ i = 1 -> ota_seq (nth_otadata (otadata_at (cells f') (address od)) i) = UINT32_MAX) as Hblank.
    { intros i Hi. rewrite nth_otadata_at by done. unfold read_select. cbn [ota_seq]. rewrite Ec. unfold load32.
      unfold FLASH_SECTOR_SIZE in *. rewrite !erased_inside by lia. done. }
    unfold boot_step. set (o := after_abort rb _). assert (no_entry bs o = true) as ->; [|done].
    unfold no_entry. apply orb_true_intro. left.
    assert (forall i, i = 0 \/ i = 1 -> bootloader_common_ota_select_invalid (nth_otadata o i) = true) as Hinv.
    { intros i Hi. unfold bootloader_common_ota_select_invalid. assert (ota_seq (nth_otadata o i) = UINT32_MAX) as ->; [|done].
      rewrite <- (Hblank i Hi). subst o. rewrite nth_after_abort. unfold maybe_abort, abort_entry. destruct rb; [|done]. by destruct (_ =? _). }
    apply andb_true_intro. split; [apply (Hinv 0)|apply (Hinv 1)]; auto.
  - intros E. unfold esp_partition_erase_range in Ee. rewrite (od_rw _ (v_od Hv)) in Ee.
    rewrite (proj2 (check_range_ok od 0 (size od))) in Ee by (unfold FLASH_SECTOR_SIZE in *; lia).
    rewrite Hsz in Ee. cbn [negb Z.eqb ESP_OK] in Ee. change (0 mod SPI_FLASH_SEC_SIZE =? 0) with true in Ee. cbn [negb] in Ee.
    unfold esp_flash_erase_region, next_outcome in Ee. rewrite E in Ee. cbn in Ee. congruence.
Qed.
End update.

(** ** An example: two slots and blank OTA data *)

Definition ex_otadata : esp_partition_t := MkPartition 1 0 0xd000 0x2000 4096 [] false false false.
Definition ex_slot (k : Z) : esp_partition_t :=
  MkPartition 0 (0x10 + k) (0x10000 + k * 0x100000) 0x100000 4096 [] false false false.
Definition ex_parts : list esp_partition_t := [ex_otadata; ex_slot 0; ex_slot 1].

Lemma ex_views : views ex_parts ex_otadata two_slots.
Proof.
  constructor; try reflexivity; [by constructor|].
  intros k Hk. cbn in Hk. assert (k = 0 \/ k = 1) as [-> | ->] by lia; eexists; split; reflexivity.
Qed.

Definition ex_state (f : flash) : ota := MkOta f 0 [] 0 0 false.
Definition blank : mem := fun _ => 255.

Lemma blank_ok l : Forall outcome_ok l -> flash_ok (MkFlash blank l).
Proof. split; [done|done]. Qed.

Lemma blank_updatable rb : updatable rb (otadata_at blank 0xd000).
Proof.
  assert (active (otadata_at blank 0xd000) = -1) as E by (vm_compute; reflexivity).
  constructor.
  - intros i [-> | ->]; right; vm_compute; reflexivity.
  - rewrite E. done.
  - rewrite E. done.
Qed.

(** Power fails while the entry is written: the new slot is not selected, the default is. *)
Lemma set_boot_partition_atomic_witness :
  exists err s' i b,
    esp_ota_set_boot_partition ex_parts true false true 4 (fun _ _ => true) (Some (ex_slot 1))
      (ex_state (MkFlash blank [Done; Stops 10 ESP_FAIL])) = Some (err, s') /\
    bootloader_utility_get_selected_boot_partition true false true true 4 two_slots (MkBootState (o_flash s') 0 false) = Some (i, b) /\
    (i = 1 \/ i = 0 \/ i = FACTORY_INDEX).
Proof.
  destruct (set_boot_partition_atomic ex_parts ex_otadata two_slots true 4 (fun _ _ => true) true 0 1 (ex_slot 1)
    (ex_state (MkFlash blank [Done; Stops 10 ESP_FAIL]))) as (err & s' & i & b & E1 & E2 & Hi & _).
  - exact ex_views.
  - apply blank_ok. repeat constructor; done.
  - exact (blank_updatable true).
  - cbn. lia.
  - reflexivity.
  - reflexivity.
  - exists err, s', i, b. split; [exact E1|]. split; [exact E2|].
    destruct Hi as [Hi|[Hi|[_ Hi]]]; [auto| |tauto]. right. left. rewrite Hi. vm_compute. reflexivity.
Defined.

(** Slot 0 runs (number 3 in the first sector, number 2 in the second); the
    power fails when the first of the two sectors has been erased for the
    factory application: the older application in slot 1 boots. *)
Definition numbered_entry (q : Z) : esp_ota_select_entry_t :=
  let e := MkSelect q (replicate 20 255) ESP_OTA_IMG_VALID 0 in with_crc (bootloader_common_ota_select_crc e) e.
Definition ex_factory : esp_partition_t := MkPartition 0 0 0x310000 0x100000 4096 [] false false false.
Definition with_factory : bootloader_state_t := MkBoot (ota_info two_slots) (part_pos ex_factory) no_pos (PartTable.ota two_slots) 2.
Definition ex_numbers : mem := program (program blank 0xd000 (select_bytes (numbered_entry 3))) 0xe000 (select_bytes (numbered_entry 2)).
Definition selected_slot (f : flash) : option Z :=
  fst <$> bootloader_utility_get_selected_boot_partition false false true true 4 with_factory (MkBootState f 0 false).

Example factory_choice_not_atomic :
  (let f := MkFlash ex_numbers [Stops 4096 ESP_FAIL] in
   let? (err, s') := esp_ota_set_boot_partition (ex_factory :: ex_parts) false false true 4 (fun _ _ => true) (Some ex_factory) (ex_state f) in
   Some (selected_slot f, err, selected_slot (o_flash s'))) = Some (Some 0, ESP_FAIL, Some 1).
Proof. vm_compute. reflexivity. Qed.
