(* ===== verification/OtaLife.v ===== *)
(** * The life of an update with rollback

    With [CONFIG_BOOTLOADER_APP_ROLLBACK_ENABLE]: the first boot of a new
    application, its confirmation, its rejection, and what happens when it is
    neither confirmed nor rejected.  All flash operations complete here; the
    interrupted ones are the subject of [OtaProps]. *)

From S2P Require Import Prelude EspErr Crc Flash FlashProps PartTable OtaData OtaDataProps Boot BootProps Ota OtaProps.

#[local] Opaque esp_rom_crc32_le.

Lemma active_greater o i :
  i = 0 \/ i = 1 -> valid (nth_otadata o i) = true ->
  (valid (nth_otadata o (other i)) = true -> ota_seq (nth_otadata o (other i)) < ota_seq (nth_otadata o i)) ->
  active o = i.
Proof.
  intros Hi Hv Hlt. destruct (active_valid o i Hi Hv) as (Ha & Hle & [E|[E Hv']]); [done|].
  specialize (Hlt Hv'). rewrite E in Hle. lia.
Qed.

Lemma boot_step_full rb bs o i :
  app_count bs <> 0 -> i = 0 \/ i = 1 -> active (after_abort rb o) = i ->
  boot_step rb bs o =
    (slot_of (app_count bs) (ota_seq (nth_otadata (after_abort rb o) i)),
     if rb && (ota_state (nth_otadata (after_abort rb o) i) =? ESP_OTA_IMG_NEW)
     then set_otadata i (with_state ESP_OTA_IMG_PENDING_VERIFY (nth_otadata (after_abort rb o) i)) (after_abort rb o)
     else after_abort rb o).
Proof.
  intros Hc Hi Ha. assert (active (after_abort rb o) <> -1) as Hne by lia.
  destruct (active_some _ Hne) as (_ & Hv & _). pose proof (valid_invalid _ Hv) as Hinv. rewrite Ha in Hinv.
  unfold boot_step, no_entry. rewrite (proj2 (Z.eqb_neq _ _) Hc), orb_false_r.
  assert (invalid (after_abort rb o).1 && invalid (after_abort rb o).2 = false) as ->.
  { destruct Hi as [-> | ->]; cbn in Hinv; rewrite Hinv; [done|apply andb_false_r]. }
  by rewrite (proj2 (Z.eqb_neq _ _) Hne), Ha.
Qed.

Lemma after_abort_none o i :
  i = 0 \/ i = 1 -> ota_state (nth_otadata o i) <> ESP_OTA_IMG_PENDING_VERIFY ->
  ota_state (nth_otadata o (other i)) <> ESP_OTA_IMG_PENDING_VERIFY -> after_abort true o = o.
Proof.
  intros Hi H1 H2. unfold after_abort, abort_entry. destruct o as [e0 e1]. cbn [fst snd].
  destruct Hi as [-> | ->]; cbn in H1, H2; change (other 0) with 1 in H2 || change (other 1) with 0 in H2; cbn in H2;
    by rewrite !(proj2 (Z.eqb_neq _ _)).
Qed.

Lemma after_abort_set o i e :
  i = 0 \/ i = 1 -> ota_state e = ESP_OTA_IMG_PENDING_VERIFY ->
  ota_state (nth_otadata o (other i)) <> ESP_OTA_IMG_PENDING_VERIFY ->
  after_abort true (set_otadata i e o) = set_otadata i (with_state ESP_OTA_IMG_ABORTED e) o.
Proof.
  intros Hi H1 H2. unfold after_abort, abort_entry. destruct o as [e0 e1].
  destruct Hi as [-> | ->]; cbn [set_otadata fst snd Z.eqb];
    [change (nth_otadata (e0, e1) (other 0)) with e1 in H2|change (nth_otadata (e0, e1) (other 1)) with e0 in H2];
    by rewrite H1, (proj2 (Z.eqb_neq _ _) H2).
Qed.

Lemma set_set_otadata i e e' o : set_otadata i e (set_otadata i e' o) = set_otadata i e o.
Proof. unfold set_otadata. by destruct (i =? 0). Qed.

Lemma valid_with_state st e :
  valid e = true -> st <> ESP_OTA_IMG_INVALID -> st <> ESP_OTA_IMG_ABORTED -> valid (with_state st e) = true.
Proof. intros (H1 & _ & _ & H2)%valid_spec H3 H4. by apply valid_spec. Qed.

Lemma valid_dead st e : st = ESP_OTA_IMG_INVALID \/ st = ESP_OTA_IMG_ABORTED -> valid (with_state st e) = true -> False.
Proof. intros H (_ & H3 & H4 & _)%valid_spec. cbn in H3, H4. tauto. Qed.

Section life.
Context (parts : list esp_partition_t) (od : esp_partition_t) (bs : bootloader_state_t).
Context (efuse_plain : bool) (efuse_size phys_offs : Z) (image_ok : mem -> esp_partition_pos_t -> bool).

Abbreviation get_selected := (bootloader_utility_get_selected_boot_partition true false true efuse_plain efuse_size bs).
Abbreviation holds_entries f o := (view bs f o).

Context (Hv : views parts od bs).

Lemma base_address : offset (ota_info bs) = address od.
Proof. by rewrite <- (v_pos _ _ _ Hv). Qed.

(** Rewriting the state of a valid entry. *)
Lemma rewrite_state o i st f :
  holds_entries f o -> i = 0 \/ i = 1 -> valid (nth_otadata o i) = true -> 0 <= st < 2 ^ 32 ->
  exists f', rewrite_ota_seq (set_otadata i (with_state st (nth_otadata o i)) o) (ota_seq (nth_otadata o i)) i od f = (ESP_OK, f') /\
    holds_entries f' (set_otadata i (with_state st (nth_otadata o i)) o).
Proof.
  intros Hvw Hi Hval Hst. pose proof (view_wf _ _ _ Hvw) as [Hw1 Hw2]. pose proof (nth_wf o i Hw1 Hw2) as Hw.
  erewrite rewrite_is_write; [|apply Hv|done|by apply nth_set_otadata|by apply with_state_wf|apply Hw].
  assert (with_crc (bootloader_common_ota_select_crc (with_seq (ota_seq (nth_otadata o i)) (with_state st (nth_otadata o i))))
            (with_seq (ota_seq (nth_otadata o i)) (with_state st (nth_otadata o i))) = with_state st (nth_otadata o i)) as ->.
  { apply valid_spec in Hval as (_ & _ & _ & Hc). destruct (nth_otadata o i) as [q l t c]. cbn in *. unfold with_state, with_seq, with_crc.
    cbn. f_equal. symmetry. exact Hc. }
  rewrite <- base_address.
  destruct (write_view bs f o i (with_state st (nth_otadata o i)) (v_placed _ _ _ Hv) Hvw Hi) as (err & f' & E & Hvw' & _);
    [by apply with_state_wf|].
  destruct Hvw as [Hc Ho]. pose proof (v_placed _ _ _ Hv) as [_ Ha _].
  destruct (write_otadata_done (with_state st (nth_otadata o i)) (offset (ota_info bs) + FLASH_SECTOR_SIZE * i) f Hc) as (H1 & _);
    [by rewrite Z.mul_comm, Z_mod_plus_full|by apply with_state_wf|].
  rewrite E in *. cbn in H1. subst err. by exists f'.
Qed.

Lemma current_entries f o : holds_entries f o -> read_otadata parts true f = Some (od, o).
Proof. intros [_ <-]. rewrite (v_read _ _ _ _ Hv). by rewrite base_address. Qed.

(** Entry [i] is a newer application than the other entry, which boots without limits. *)
Record candidate (o : two_otadata) (i : Z) : Prop := {
  cd_index : i = 0 \/ i = 1;
  cd_valid : valid (nth_otadata o i) = true;
  cd_prev : valid (nth_otadata o (other i)) = true;
  cd_prev_state : ota_state (nth_otadata o (other i)) = ESP_OTA_IMG_VALID \/ ota_state (nth_otadata o (other i)) = ESP_OTA_IMG_UNDEFINED;
  cd_newer : ota_seq (nth_otadata o (other i)) < ota_seq (nth_otadata o i)
}.

Lemma prev_not_pending o i : candidate o i -> ota_state (nth_otadata o (other i)) <> ESP_OTA_IMG_PENDING_VERIFY.
Proof. intros [_ _ _ [E|E] _]; rewrite E; done. Qed.

Definition marked (st : Z) (i : Z) (o : two_otadata) : two_otadata := set_otadata i (with_state st (nth_otadata o i)) o.

Lemma marked_same o i : i = 0 \/ i = 1 -> marked (ota_state (nth_otadata o i)) i o = o.
Proof.
  intros Hi. unfold marked. replace (with_state _ _) with (nth_otadata o i) by (by destruct (nth_otadata o i)).
  apply set_nth_otadata.
Qed.

Lemma after_abort_marked o i st :
  candidate o i ->
  after_abort true (marked st i o) =
  marked (if st =? ESP_OTA_IMG_PENDING_VERIFY then ESP_OTA_IMG_ABORTED else st) i o.
Proof.
  intros Hcd. pose proof (cd_index _ _ Hcd) as Hi. pose proof (prev_not_pending _ _ Hcd) as Hp. unfold marked.
  destruct (Z.eqb_spec st ESP_OTA_IMG_PENDING_VERIFY) as [->|Hne].
  - by rewrite (after_abort_set o i (with_state ESP_OTA_IMG_PENDING_VERIFY (nth_otadata o i))).
  - apply (after_abort_none _ i Hi); by rewrite ?nth_set_otadata, ?nth_set_other by done.
Qed.

Lemma active_marked o i st :
  candidate o i -> st <> ESP_OTA_IMG_INVALID -> st <> ESP_OTA_IMG_ABORTED -> active (marked st i o) = i.
Proof.
  intros Hcd H1 H2. pose proof (cd_index _ _ Hcd) as Hi.
  apply active_greater; unfold marked; rewrite ?nth_set_otadata, ?nth_set_other by done; [done| |].
  - by apply valid_with_state; [apply Hcd|..].
  - intros _. apply Hcd.
Qed.

(** A boot with the candidate in state [st]. *)
Lemma boots_candidate o i st s :
  candidate o i -> app_count bs <> 0 -> holds_entries (b_flash s) (marked st i o) ->
  st <> ESP_OTA_IMG_INVALID -> st <> ESP_OTA_IMG_ABORTED -> st <> ESP_OTA_IMG_PENDING_VERIFY ->
  exists s', get_selected s = Some (slot_of (app_count bs) (ota_seq (nth_otadata o i)), s') /\
    holds_entries (b_flash s') (marked (if st =? ESP_OTA_IMG_NEW then ESP_OTA_IMG_PENDING_VERIFY else st) i o).
Proof.
  intros Hcd Hc Hvw H1 H2 H3. pose proof (cd_index _ _ Hcd) as Hi.
  pose proof (after_abort_marked o i st Hcd) as Haa. rewrite (proj2 (Z.eqb_neq st ESP_OTA_IMG_PENDING_VERIFY) H3) in Haa.
  pose proof (active_marked o i st Hcd H1 H2) as Hact.
  destruct (selected_refines true efuse_plain efuse_size bs s _ (v_placed _ _ _ Hv) Hvw) as (s' & E & Hvw' & _).
  rewrite (boot_step_full _ _ _ i Hc Hi) in E, Hvw' by (by rewrite Haa).
  rewrite Haa in E, Hvw'. unfold marked in E, Hvw' |- *. rewrite nth_set_otadata in E, Hvw' by done.
  cbn [fst snd andb ota_seq ota_state with_state] in E, Hvw'.
  exists s'. split; [exact E|]. destruct (st =? ESP_OTA_IMG_NEW); [by rewrite set_set_otadata in Hvw'|done].
Qed.

Lemma boots_previous o i st s :
  candidate o i -> app_count bs <> 0 -> holds_entries (b_flash s) (marked st i o) ->
  st = ESP_OTA_IMG_PENDING_VERIFY \/ st = ESP_OTA_IMG_INVALID \/ st = ESP_OTA_IMG_ABORTED ->
  exists s', get_selected s = Some (slot_of (app_count bs) (ota_seq (nth_otadata o (other i))), s') /\
    holds_entries (b_flash s') (marked (if st =? ESP_OTA_IMG_PENDING_VERIFY then ESP_OTA_IMG_ABORTED else st) i o).
Proof.
  intros Hcd Hc Hvw Hst. pose proof (cd_index _ _ Hcd) as Hi. pose proof (other_range i Hi) as Hoi.
  pose proof (after_abort_marked o i st Hcd) as Haa. set (st' := if st =? _ then _ else st) in *.
  assert (st' = ESP_OTA_IMG_INVALID \/ st' = ESP_OTA_IMG_ABORTED) as Hst'
    by (subst st'; destruct (Z.eqb_spec st ESP_OTA_IMG_PENDING_VERIFY); tauto).
  assert (other (other i) = i) as Hoo by (unfold other; lia).
  assert (active (marked st' i o) = other i) as Hact.
  { apply active_greater; unfold marked; rewrite ?Hoo, ?nth_set_other by done; [done|apply Hcd|].
    rewrite nth_set_otadata by done. intros H. by destruct (valid_dead _ _ Hst' H). }
  destruct (selected_refines true efuse_plain efuse_size bs s _ (v_placed _ _ _ Hv) Hvw) as (s' & E & Hvw' & _).
  rewrite (boot_step_full _ _ _ (other i) Hc Hoi) in E, Hvw' by (by rewrite Haa).
  rewrite Haa in E, Hvw'. unfold marked in E, Hvw' |- *. rewrite nth_set_other in E, Hvw' by done.
  cbn [fst snd andb] in E, Hvw'. exists s'. split; [exact E|].
  destruct (Z.eqb_spec (ota_state (nth_otadata o (other i))) ESP_OTA_IMG_NEW) as [E'|]; [|done].
  destruct (cd_prev_state _ _ Hcd) as [E2|E2]; rewrite E2 in E'; discriminate E'.
Qed.

(** The running application judges itself while it is pending. *)
Lemma marks_valid o i a :
  candidate o i -> app_count bs <> 0 -> holds_entries (o_flash a) (marked ESP_OTA_IMG_PENDING_VERIFY i o) ->
  exists a', esp_ota_mark_app_valid_cancel_rollback parts false true efuse_plain efuse_size phys_offs image_ok a = Some (ESP_OK, a') /\
    holds_entries (o_flash a') (marked ESP_OTA_IMG_VALID i o).
Proof.
  intros Hcd Hc Hvw. pose proof (cd_index _ _ Hcd) as Hi.
  pose proof (active_marked o i ESP_OTA_IMG_PENDING_VERIFY Hcd ltac:(done) ltac:(done)) as Hact.
  unfold esp_ota_mark_app_valid_cancel_rollback, esp_ota_current_ota_is_workable.
  rewrite (current_entries _ _ Hvw), Hact, (v_count _ _ _ Hv).
  rewrite (proj2 (Z.eqb_neq i (-1))) by lia. rewrite (proj2 (Z.eqb_neq _ _) Hc).
  assert (nth_otadata (marked ESP_OTA_IMG_PENDING_VERIFY i o) i = with_state ESP_OTA_IMG_PENDING_VERIFY (nth_otadata o i)) as En
    by (by apply nth_set_otadata).
  destruct (rewrite_state _ i ESP_OTA_IMG_VALID (o_flash a) Hvw Hi) as (f' & Er & Hvw'); [|unfold ESP_OTA_IMG_VALID; lia|].
  { rewrite En. apply valid_with_state; [apply Hcd|done..]. }
  rewrite Er. rewrite En in Hvw' |- *. cbn [negb andb ota_state with_state]. change (ESP_OTA_IMG_PENDING_VERIFY =? ESP_OTA_IMG_VALID) with false.
  cbn [negb andb with_flash fst snd]. eexists. split; [done|]. destruct a as [fa ea la ha ba wa]. cbn [set_o_flash o_flash].
  unfold marked in Hvw'. by rewrite set_set_otadata in Hvw'.
Qed.

Lemma rollback_possible o i f efuse p :
  candidate o i -> app_count bs <> 0 -> holds_entries f (marked ESP_OTA_IMG_PENDING_VERIFY i o) ->
  find_app parts (ESP_PARTITION_SUBTYPE_APP_OTA_MIN + slot_of (app_count bs) (ota_seq (nth_otadata o (other i)))) = Some p ->
  image_ok (cells f) (part_pos p) = true ->
  esp_ota_check_rollback_is_possible parts false true efuse_size image_ok f efuse = Some true.
Proof.
  intros Hcd Hc Hvw Hp Him. pose proof (cd_index _ _ Hcd) as Hi.
  pose proof (active_marked o i ESP_OTA_IMG_PENDING_VERIFY Hcd ltac:(done) ltac:(done)) as Hact.
  unfold esp_ota_check_rollback_is_possible. rewrite (current_entries _ _ Hvw), (v_count _ _ _ Hv).
  rewrite (proj2 (Z.eqb_neq _ _) Hc).
  change (bootloader_common_select_otadata (marked ESP_OTA_IMG_PENDING_VERIFY i o) _ true) with (active (marked ESP_OTA_IMG_PENDING_VERIFY i o)).
  rewrite Hact. rewrite (proj2 (Z.eqb_neq i (-1))) by lia. rewrite (inactive_other i Hi).
  assert ((if other i =? 0 then valid (marked ESP_OTA_IMG_PENDING_VERIFY i o).1 else valid (marked ESP_OTA_IMG_PENDING_VERIFY i o).2) = true) as Hl.
  { rewrite <- (cd_prev _ _ Hcd). unfold marked. by destruct Hi as [-> | ->]. }
  cbn [fst snd]. rewrite Hl. cbn [negb andb]. unfold umod. rewrite (proj2 (Z.eqb_neq _ _) Hc). cbn [negb].
  assert (nth_otadata (marked ESP_OTA_IMG_PENDING_VERIFY i o) (other i) = nth_otadata o (other i)) as -> by (by apply nth_set_other).
  unfold slot_of in Hp. rewrite Hp. unfold image_validate. rewrite Him. done.
Qed.

Lemma marks_invalid o i a p :
  candidate o i -> app_count bs <> 0 -> holds_entries (o_flash a) (marked ESP_OTA_IMG_PENDING_VERIFY i o) ->
  find_app parts (ESP_PARTITION_SUBTYPE_APP_OTA_MIN + slot_of (app_count bs) (ota_seq (nth_otadata o (other i)))) = Some p ->
  image_ok (cells (o_flash a)) (part_pos p) = true ->
  exists a', esp_ota_mark_app_invalid_rollback parts false true efuse_plain efuse_size phys_offs image_ok a = Some (ESP_OK, a') /\
    holds_entries (o_flash a') (marked ESP_OTA_IMG_INVALID i o).
Proof.
  intros Hcd Hc Hvw Hp Him. pose proof (cd_index _ _ Hcd) as Hi.
  pose proof (active_marked o i ESP_OTA_IMG_PENDING_VERIFY Hcd ltac:(done) ltac:(done)) as Hact.
  unfold esp_ota_mark_app_invalid_rollback, esp_ota_current_ota_is_workable.
  rewrite (current_entries _ _ Hvw), Hact, (v_count _ _ _ Hv).
  rewrite (proj2 (Z.eqb_neq i (-1))) by lia. rewrite (proj2 (Z.eqb_neq _ _) Hc). cbn [negb andb].
  rewrite (rollback_possible o i _ _ p Hcd Hc Hvw Hp Him). cbn [negb].
  destruct (rewrite_state _ i ESP_OTA_IMG_INVALID (o_flash a) Hvw Hi) as (f' & Er & Hvw'); [|unfold ESP_OTA_IMG_INVALID; lia|].
  { unfold marked. rewrite nth_set_otadata by done. apply valid_with_state; [apply Hcd|done..]. }
  rewrite Er. cbn [with_flash fst snd]. eexists. split; [done|]. destruct a as [fa ea la ha ba wa]. cbn [set_o_flash o_flash].
  unfold marked in Hvw' |- *. rewrite nth_set_otadata, set_set_otadata in Hvw' by done. exact Hvw'.
Qed.

(** C10. The life of an update with rollback enabled.  The new application [i] is
    selected by its first boot and marked as pending.  If it does not judge
    itself, the second boot aborts it and selects the previous application, as
    every later boot does.  If it confirms itself, every later boot selects
    it.  If it rejects itself, which needs the image of the previous
    application to be intact, the previous application is selected from then
    on. *)
Theorem rollback_life (o : two_otadata) (i : Z) (s : boot) (a : ota) :
  candidate o i -> app_count bs <> 0 -> ota_state (nth_otadata o i) = ESP_OTA_IMG_NEW -> holds_entries (b_flash s) o ->
  let new := slot_of (app_count bs) (ota_seq (nth_otadata o i)) in
  let previous := slot_of (app_count bs) (ota_seq (nth_otadata o (other i))) in
  exists s1, get_selected s = Some (new, s1) /\ holds_entries (b_flash s1) (marked ESP_OTA_IMG_PENDING_VERIFY i o) /\
    (exists s2, get_selected s1 = Some (previous, s2) /\ holds_entries (b_flash s2) (marked ESP_OTA_IMG_ABORTED i o) /\
      exists s3, get_selected s2 = Some (previous, s3) /\ holds_entries (b_flash s3) (marked ESP_OTA_IMG_ABORTED i o)) /\
    (exists a', esp_ota_mark_app_valid_cancel_rollback parts false true efuse_plain efuse_size phys_offs image_ok
        (set_o_flash (b_flash s1) a) = Some (ESP_OK, a') /\ holds_entries (o_flash a') (marked ESP_OTA_IMG_VALID i o) /\
      exists s3, get_selected (set_b_flash (o_flash a') s1) = Some (new, s3) /\
        holds_entries (b_flash s3) (marked ESP_OTA_IMG_VALID i o)) /\
    (forall p, find_app parts (ESP_PARTITION_SUBTYPE_APP_OTA_MIN + previous) = Some p ->
      image_ok (cells (b_flash s1)) (part_pos p) = true ->
      exists a', esp_ota_mark_app_invalid_rollback parts false true efuse_plain efuse_size phys_offs image_ok
        (set_o_flash (b_flash s1) a) = Some (ESP_OK, a') /\ holds_entries (o_flash a') (marked ESP_OTA_IMG_INVALID i o) /\
        exists s3, get_selected (set_b_flash (o_flash a') s1) = Some (previous, s3) /\
          holds_entries (b_flash s3) (marked ESP_OTA_IMG_INVALID i o)).
Proof.
  intros Hcd Hc Hnew Hvw new previous. pose proof (cd_index _ _ Hcd) as Hi.
  rewrite <- (marked_same o i Hi), Hnew in Hvw.
  destruct (boots_candidate o i ESP_OTA_IMG_NEW s Hcd Hc Hvw) as (s1 & E1 & Hvw1); [done..|].
  assert (holds_entries (o_flash (set_o_flash (b_flash s1) a)) (marked ESP_OTA_IMG_PENDING_VERIFY i o)) as Hva by (by destruct a).
  exists s1. split_and!; [exact E1|exact Hvw1|..].
  - destruct (boots_previous o i _ s1 Hcd Hc Hvw1) as (s2 & E2 & Hvw2); [by left|].
    exists s2. split_and!; [exact E2|exact Hvw2|]. apply (boots_previous o i _ s2 Hcd Hc Hvw2). by right; right.
  - destruct (marks_valid o i _ Hcd Hc Hva) as (a' & E2 & Hvw2). exists a'. split_and!; [exact E2|exact Hvw2|].
    apply (boots_candidate o i ESP_OTA_IMG_VALID); [done|done|by destruct s1|done..].
  - intros p Hp Him. destruct (marks_invalid o i (set_o_flash (b_flash s1) a) p Hcd Hc Hva Hp) as (a' & E2 & Hvw2); [by destruct a|].
    exists a'. split_and!; [exact E2|exact Hvw2|].
    apply (boots_previous o i ESP_OTA_IMG_INVALID); [done|done|by destruct s1|by right; left].
Qed.
End life.

(** ** An example: slot 0 confirmed, slot 1 new *)

Definition ex_entry (q st : Z) : esp_ota_select_entry_t := new_entry q st (MkSelect 0 (replicate 20 255) 0 0).
Definition ex_mem : mem :=
  program (program blank 0xd000 (select_bytes (ex_entry 1 ESP_OTA_IMG_VALID))) 0xe000 (select_bytes (ex_entry 2 ESP_OTA_IMG_NEW)).

Lemma ex_mem_ok : mem_ok ex_mem.
Proof.
  assert (forall q st, 0 <= q < 2 ^ 32 -> 0 <= st < 2 ^ 32 -> Forall is_byte (select_bytes (ex_entry q st))) as H.
  { intros q st Hq Hst. apply select_bytes_ok. apply new_entry_wf; [done|done|]. constructor; cbn; lia || done || idtac.
    repeat constructor; done. }
  repeat apply program_mem_ok; [done|apply H..]; unfold ESP_OTA_IMG_VALID, ESP_OTA_IMG_NEW; lia.
Qed.

Lemma ex_candidate : candidate (otadata_at ex_mem 0xd000) 1.
Proof. constructor; [by right|vm_compute; reflexivity..|left; vm_compute; reflexivity|vm_compute; reflexivity]. Qed.

Lemma rollback_life_witness :
  exists s1 s2,
    bootloader_utility_get_selected_boot_partition true false true true 4 two_slots (MkBootState (MkFlash ex_mem []) 0 false) = Some (1, s1) /\
    bootloader_utility_get_selected_boot_partition true false true true 4 two_slots s1 = Some (0, s2).
Proof.
  destruct (rollback_life ex_parts ex_otadata two_slots true 4 0x10000 (fun _ _ => true) ex_views (otadata_at ex_mem 0xd000) 1
    (MkBootState (MkFlash ex_mem []) 0 false) (ex_state (MkFlash ex_mem []))) as (s1 & E1 & _ & (s2 & E2 & _) & _).
  - exact ex_candidate.
  - done.
  - vm_compute. reflexivity.
  - split; [split; [reflexivity|exact ex_mem_ok]|reflexivity].
  - exists s1, s2. split; [rewrite E1|rewrite E2]; vm_compute; reflexivity.
Defined.
