(* ===== verification/PartTableProps.v ===== *)
(** * Properties of the partition table

    What a verified table guarantees and what it does not, and that the
    application's list and the bootloader's state, loaded from the same table,
    describe the same partitions: the relation [views] of [OtaProps]. *)

From S2P Require Import Prelude EspErr Crc Flash FlashProps PartTable OtaData OtaDataProps Boot BootProps Ota OtaProps.

(** The loop over the entries is never unfolded to compare terms. *)
#[local] Strategy 1000 [verify_entries].

Section verified.
Context (md5 : list Z -> list Z) (m : mem) (table chip_size : Z).

Abbreviation ent := (partition_table m table).

(** An entry whose position passed the check. *)
Definition position_checked (e : esp_partition_info_t) : Prop :=
  offset (i_pos e) <= chip_size /\ u32 (offset (i_pos e) + pos_size (i_pos e)) <= chip_size.

Definition partition_entry (j : Z) : Prop := i_magic (ent j) = ESP_PARTITION_MAGIC /\ position_checked (ent j).
Definition md5_entry (j : Z) : Prop := i_magic (ent j) = ESP_PARTITION_MAGIC_MD5 /\ md5_matches md5 m table j = true.
Definition end_entry (j : Z) : Prop :=
  i_magic (ent j) = 0xFFFF /\ i_type (ent j) = PART_TYPE_END /\ i_subtype (ent j) = PART_SUBTYPE_END.

Lemma magic_ne j : partition_entry j -> md5_entry j -> False.
Proof. intros [E _] [E' _]. rewrite E in E'. discriminate E'. Qed.

(** What the loop has seen when it succeeds, from entry [i] on. *)
Definition accepted (i md5_found num total : Z) : Prop :=
  i <= total /\ end_entry total /\ (total = 0 -> False) /\
  (((forall j, i <= j < total -> partition_entry j) /\ num = total - md5_found) \/
   (md5_found = 0 /\ exists j, i <= j < total /\ md5_entry j /\ (forall j', i <= j' < total -> j' <> j -> partition_entry j') /\
      num = total - 1)).

Lemma verify_entries_ok n i c num :
  0 <= i -> c = 0 \/ c = 1 -> verify_entries md5 m table chip_size n i c = (ESP_OK, num) ->
  exists total, total < i + Z.of_nat n /\ accepted i c num total.
Proof.
  revert i c. induction n as [|n IH]; intros i c Hi Hc E; [done|]. cbn [verify_entries] in E.
  destruct (Z.eqb_spec (i_magic (ent i)) ESP_PARTITION_MAGIC) as [Em|Em].
  - destruct ((offset (i_pos (ent i)) >? chip_size) || _) eqn:Eb; [done|]. apply orb_false_iff in Eb as [Eb1 Eb2].
    apply IH in E as (total & Ht & Hle & He & Hz & Hcase); [|lia|done].
    exists total. split; [lia|]. split_and!; [lia|done|done|].
    assert (partition_entry i) as Hp by (split; [done|split; lia]).
    destruct Hcase as [[Hall Hn]|(Hc0 & j & Hj & Hm & Hall & Hn)]; [left|right; split; [done|]; exists j; split; [lia|]].
    + split; [|done]. intros j Hj. destruct (decide (j = i)) as [->|]; [done|]. apply Hall. lia.
    + split_and!; [done| |done]. intros j' Hj' Hne. destruct (decide (j' = i)) as [->|]; [done|]. apply Hall; [lia|done].
  - destruct (Z.eqb_spec (i_magic (ent i)) ESP_PARTITION_MAGIC_MD5) as [Em5|Em5].
    + destruct (Z.eqb_spec c 0) as [->|]; cbn [negb] in E; [|done].
      destruct (md5_matches md5 m table i) eqn:Emm; cbn [negb] in E; [|done].
      apply IH in E as (total & Ht & Hle & He & Hz & Hcase); [|lia|by right].
      exists total. split; [lia|]. split_and!; [lia|done|done|].
      destruct Hcase as [[Hall Hn]|(Hc0 & _)]; [|done]. right. split; [done|]. exists i. split_and!; [lia|lia|by split| |done].
      intros j' Hj' Hne. apply Hall. lia.
    + destruct (negb (i =? 0) && (i_magic (ent i) =? 0xFFFF) && (i_type (ent i) =? PART_TYPE_END) && (i_subtype (ent i) =? PART_SUBTYPE_END)) eqn:Ee;
        [|done].
      apply andb_true_iff in Ee as [Ee E4]. apply andb_true_iff in Ee as [Ee E3]. apply andb_true_iff in Ee as [E1 E2].
      injection E as <-. exists i. split; [lia|]. split_and!; [lia|split_and!; lia| |].
      * intros ->. done.
      * left. split; [intros; lia|done].
Qed.

Lemma position_range j : mem_ok m -> 0 <= offset (i_pos (ent j)) < 2 ^ 32 /\ 0 <= pos_size (i_pos (ent j)) < 2 ^ 32.
Proof. intros Hm. split; apply load32_range; exact Hm. Qed.

(** The kinds of the entries. *)
Lemma verified_shape num :
  esp_partition_table_verify md5 m table chip_size = (ESP_OK, num) ->
  exists total, 0 < total < ESP_PARTITION_TABLE_MAX_ENTRIES /\ end_entry total /\
    ((num = total /\ forall j, 0 <= j < total -> partition_entry j) \/
     (num = total - 1 /\ exists j, 0 <= j < total /\ md5_entry j /\ forall j', 0 <= j' < total -> j' <> j -> partition_entry j')).
Proof.
  intros E. unfold esp_partition_table_verify in E. apply verify_entries_ok in E as (total & Ht & Hle & He & Hz & Hcase); [|lia|by left].
  exists total. split; [unfold ESP_PARTITION_TABLE_MAX_ENTRIES in *; lia|]. split; [done|].
  destruct Hcase as [[Hall ->]|(_ & j & Hj & Hj5 & Hall & ->)]; [left; split; [lia|done]|right]. split; [done|]. by exists j.
Qed.
(** C40. A table that [esp_partition_table_verify] accepts consists of partition
    entries, at most one MD5 entry whose sum is that of the entries before it,
    and an end entry; the number returned is that of the partition entries;
    every partition lies inside the chip unless its offset plus size wraps
    around 2^32. *)
Theorem verified_table (num : Z) :
  mem_ok m -> chip_size < 2 ^ 32 -> esp_partition_table_verify md5 m table chip_size = (ESP_OK, num) ->
  exists total, 0 < total < ESP_PARTITION_TABLE_MAX_ENTRIES /\ end_entry total /\
    ((num = total /\ forall j, 0 <= j < total -> partition_entry j) \/
     (num = total - 1 /\ exists j, 0 <= j < total /\ md5_entry j /\ forall j', 0 <= j' < total -> j' <> j -> partition_entry j')) /\
    (forall j, partition_entry j ->
       let pos := i_pos (ent j) in
       0 <= offset pos /\ 0 <= pos_size pos /\ (offset pos + pos_size pos <= chip_size \/ 2 ^ 32 <= offset pos + pos_size pos)).
Proof.
  intros Hm Hc E. destruct (verified_shape num E) as (total & Ht & He & Hcase). exists total. split; [done|]. split; [done|]. split; [done|].
  - intros j [_ [H1 H2]]. destruct (position_range j Hm) as [Ho Hs]. cbv zeta.
    split_and!; [lia|lia|].
    destruct (decide (offset (i_pos (ent j)) + pos_size (i_pos (ent j)) < 2 ^ 32)); [left|right; lia].
    rewrite u32_id in H2 by lia. exact H2.
Qed.

End verified.

(** ** Sums that wrap around *)

Definition wrapped_entry : list Z :=
  [0xAA; 0x50; 0; 0x10] ++ bytes32 0x10000 ++ bytes32 0xFFFF8000 ++ replicate 16 0 ++ [0; 0; 0; 0].
Definition wrapped_table : mem := program blank 0x8000 wrapped_entry.

(** The check of an entry adds offset and size in 32 bits: a table with a
    partition of nearly 4 GB passes the verification for a 4 MB chip, is
    loaded, and ranges far outside the chip pass the checks of the partition
    functions. *)
Theorem wrapped_partition_accepted :
  esp_partition_table_verify (fun _ => []) wrapped_table 0x8000 0x400000 = (ESP_OK, 1) /\
  (let '(err, parts) := load_partitions (fun _ => []) wrapped_table 0x8000 false false (fun _ => true) in
   err = ESP_OK /\ address <$> parts = [0x10000] /\ size <$> parts = [0xFFFF8000] /\
   (fun p => check_range p 0x80000000 0x1000) <$> parts = [ESP_OK]).
Proof. vm_compute. done. Qed.

(** ** The application and the bootloader load the same partitions *)

Lemma filter_fmap_swap {A B} (f : A -> B) (P : B -> bool) (l : list A) :
  filter (fun y => P y = true) (f <$> l) = f <$> filter (fun x => P (f x) = true) l.
Proof.
  induction l as [|x l IH]; [done|]. rewrite fmap_cons, !filter_cons. destruct (P (f x)) eqn:E.
  - rewrite !decide_True by done. rewrite fmap_cons. by rewrite IH.
  - rewrite !decide_False by done. done.
Qed.

(** Keys of the entries that the two loaders look for. *)
Definition app_key (st : Z) (e : esp_partition_info_t) : bool := (i_type e =? PART_TYPE_APP) && (i_subtype e =? st).
Definition data_key (st : Z) (e : esp_partition_info_t) : bool := (i_type e =? PART_TYPE_DATA) && (i_subtype e =? st).
Definition slot_entry (e : esp_partition_info_t) : bool :=
  (i_type e =? PART_TYPE_APP) && (16 <=? i_subtype e) && (i_subtype e <? 32).

Definition hits (key : esp_partition_info_t -> bool) (es : list esp_partition_info_t) : list esp_partition_info_t :=
  filter (fun e => key e = true) es.

Section loaded.
Context (flash_encryption : bool).
Abbreviation item := (item_of flash_encryption).

Lemma find_first_item es ty st :
  ty <> ESP_PARTITION_TYPE_ANY -> st <> ESP_PARTITION_SUBTYPE_ANY ->
  esp_partition_find_first (item <$> es) ty st None = item <$> head (hits (fun e => (i_type e =? ty) && (i_subtype e =? st)) es).
Proof.
  intros Hty Hst. rewrite find_first_head by done. unfold selected, hits. rewrite filter_fmap_swap.
  rewrite (list_filter_iff _ (fun e => (i_type e =? ty) && (i_subtype e =? st) = true) es).
  - by destruct (filter _ es).
  - intros e. unfold matches. cbn [it_type it_subtype it_label].
    rewrite (proj2 (Z.eqb_neq _ _) Hty), (proj2 (Z.eqb_neq _ _) Hst). cbn [negb andb item_of type subtype].
    rewrite (Z.eqb_sym ty), (Z.eqb_sym st). by destruct (i_type e =? ty), (i_subtype e =? st).
Qed.

(** A field of the state is the position of the last entry with its key. *)
Lemma fold_position (proj : bootloader_state_t -> esp_partition_pos_t) (key : esp_partition_info_t -> bool) es bs :
  (forall e b, e ∈ es -> proj (load_entry e b) = if key e then i_pos e else proj b) ->
  proj (foldl (fun b e => load_entry e b) bs es) =
  match last (hits key es) with Some e => i_pos e | None => proj bs end.
Proof.
  revert bs. induction es as [|e es IH]; intros bs H; [done|]. cbn [foldl]. rewrite IH by (intros; apply H; by right).
  rewrite H by (by left). unfold hits. rewrite filter_cons. destruct (key e).
  - rewrite decide_True by done. rewrite last_cons. by destruct (last _).
  - by rewrite decide_False.
Qed.

Definition subtype_byte (e : esp_partition_info_t) : Prop := is_byte (i_subtype e).

Lemma ota_flag_range st : is_byte st ->
  (Z.land st (Z.lnot PART_SUBTYPE_OTA_MASK) =? PART_SUBTYPE_OTA_FLAG) = (16 <=? st) && (st <? 32) /\
  (16 <= st < 32 -> Z.land st PART_SUBTYPE_OTA_MASK = st - 16).
Proof.
  intros Hb.
  assert (Forall (fun st => (Z.land st (Z.lnot PART_SUBTYPE_OTA_MASK) =? PART_SUBTYPE_OTA_FLAG) = (16 <=? st) && (st <? 32) /\
    ((16 <=? st) && (st <? 32) = true -> Z.land st PART_SUBTYPE_OTA_MASK = st - 16)) (Z.of_nat <$> seq 0 256)) as H.
  { vm_compute. repeat (apply Forall_cons; split; [split; [reflexivity|intros; done]|]). by apply Forall_nil. }
  rewrite Forall_forall in H. destruct (H st) as [H1 H2].
  - apply list_elem_of_fmap. exists (Z.to_nat st). unfold is_byte in Hb. split; [lia|]. apply elem_of_seq. lia.
  - split; [done|]. intros Hr. apply H2. lia.
Qed.

(** Slots and other entries, one at a time. *)
Lemma load_entry_ota e b k :
  subtype_byte e -> 0 <= k < 16 ->
  PartTable.ota (load_entry e b) k = if app_key (16 + k) e then i_pos e else PartTable.ota b k.
Proof.
  intros Hb Hk. destruct (ota_flag_range _ Hb) as [H1 H2]. unfold load_entry, app_key. rewrite H1.
  unfold PART_SUBTYPE_FACTORY, PART_SUBTYPE_TEST.
  destruct (i_type e =? PART_TYPE_APP); cbn [andb]; [|by repeat case_match].
  destruct (Z.eqb_spec (i_subtype e) 0) as [E|]; [by rewrite E, (proj2 (Z.eqb_neq 0 (16 + k))) by lia|].
  destruct (Z.eqb_spec (i_subtype e) 0x20) as [E|]; [by rewrite E, (proj2 (Z.eqb_neq 0x20 (16 + k))) by lia|].
  destruct ((16 <=? i_subtype e) && (i_subtype e <? 32)) eqn:Er.
  - cbn [PartTable.ota]. rewrite H2 by lia.
    destruct (Z.eqb_spec k (i_subtype e - 16)), (Z.eqb_spec (i_subtype e) (16 + k)); done || lia.
  - rewrite (proj2 (Z.eqb_neq (i_subtype e) (16 + k))) by lia. done.
Qed.

Lemma load_entry_ota_info e b : ota_info (load_entry e b) = if data_key PART_SUBTYPE_DATA_OTA e then i_pos e else ota_info b.
Proof.
  unfold load_entry, data_key. destruct (Z.eqb_spec (i_type e) PART_TYPE_APP) as [->|]; [by repeat case_match|].
  by destruct (i_type e =? PART_TYPE_DATA), (i_subtype e =? PART_SUBTYPE_DATA_OTA).
Qed.

Lemma load_entry_count e b :
  subtype_byte e -> app_count (load_entry e b) = if slot_entry e then u32 (app_count b + 1) else app_count b.
Proof.
  intros Hb. destruct (ota_flag_range _ Hb) as [H1 _]. unfold load_entry, slot_entry. rewrite H1.
  unfold PART_SUBTYPE_FACTORY, PART_SUBTYPE_TEST.
  destruct (i_type e =? PART_TYPE_APP); cbn [andb]; [|by repeat case_match].
  destruct (Z.eqb_spec (i_subtype e) 0) as [E|]; [by rewrite E|].
  destruct (Z.eqb_spec (i_subtype e) 0x20) as [E|]; [by rewrite E|].
  by destruct ((16 <=? i_subtype e) && (i_subtype e <? 32)).
Qed.

Lemma fold_count es b :
  Forall subtype_byte es -> 0 <= app_count b -> app_count b + Z.of_nat (length es) < 2 ^ 32 ->
  app_count (foldl (fun b e => load_entry e b) b es) = app_count b + Z.of_nat (length (hits slot_entry es)).
Proof.
  intros Hb. revert b. induction Hb as [|e es He Hb IH]; intros b H0 Hs; [cbn; lia|]. cbn [foldl length] in *.
  unfold hits in *. rewrite filter_cons. rewrite IH; rewrite load_entry_count by done;
    destruct (slot_entry e); rewrite ?u32_id by lia; try lia.
  - rewrite decide_True by done. cbn [length]. lia.
  - by rewrite decide_False.
Qed.

(** The slots, counted by subtype. *)
Definition by_slot (es : list esp_partition_info_t) : list nat :=
  (fun k => length (hits (app_key (16 + Z.of_nat k)) es)) <$> seq 0 16.

Lemma slot_once e : sum_list ((fun k => Nat.b2n (app_key (16 + Z.of_nat k) e)) <$> seq 0 16) = Nat.b2n (slot_entry e).
Proof.
  unfold app_key, slot_entry. destruct (i_type e =? PART_TYPE_APP); cbn [andb]; [|reflexivity].
  destruct ((16 <=? i_subtype e) && (i_subtype e <? 32)) eqn:Er.
  - assert (exists j, (j < 16)%nat /\ i_subtype e = 16 + Z.of_nat j) as (j & Hj & ->)
      by (exists (Z.to_nat (i_subtype e - 16)); lia).
    do 16 (destruct j as [|j]; [reflexivity|]). lia.
  - replace ((fun k => Nat.b2n (i_subtype e =? 16 + Z.of_nat k)) <$> seq 0 16) with (replicate 16 0%nat); [reflexivity|].
    apply list_eq. intros i. rewrite list_lookup_fmap. destruct (decide (i < 16)%nat) as [Hi|Hi].
    + rewrite lookup_seq_lt, lookup_replicate_2 by done. cbn. by rewrite (proj2 (Z.eqb_neq _ _)) by lia.
    + rewrite (lookup_ge_None_2 (replicate _ _)) by (rewrite length_replicate; lia).
      rewrite (lookup_ge_None_2 (seq 0 16)) by (rewrite length_seq; lia). done.
Qed.

Lemma sum_list_add {A} (f g : A -> nat) l :
  sum_list ((fun x => (f x + g x)%nat) <$> l) = (sum_list (f <$> l) + sum_list (g <$> l))%nat.
Proof. induction l as [|x l IH]; [done|]. rewrite !fmap_cons. cbn. rewrite IH. lia. Qed.

Lemma count_by_slot es : length (hits slot_entry es) = sum_list (by_slot es).
Proof.
  induction es as [|e es IH]; [reflexivity|].
  assert (forall key, length (hits key (e :: es)) = (Nat.b2n (key e) + length (hits key es))%nat) as H.
  { intros key. unfold hits. rewrite filter_cons. destruct (key e); [by rewrite decide_True|by rewrite decide_False]. }
  rewrite H, IH, <- slot_once. unfold by_slot. rewrite <- sum_list_add. f_equal. apply list_fmap_ext. intros; by rewrite H.
Qed.

(** A table that an update needs: [n] OTA slots without gaps, none twice, and
    one OTA data partition of two sectors or more. *)
Record table_good (es : list esp_partition_info_t) (n : Z) (od : esp_partition_info_t) : Prop := {
  tg_bytes : Forall subtype_byte es;
  tg_length : (length es <= 96)%nat;
  tg_range : 0 <= n <= 16;
  tg_slots : forall k, 0 <= k < n -> exists e, hits (app_key (16 + k)) es = [e];
  tg_gap : forall k, n <= k < 16 \/ k = n -> hits (app_key (16 + k)) es = [];
  tg_data : hits (data_key PART_SUBTYPE_DATA_OTA) es = [od];
  tg_offset : 0 < offset (i_pos od) /\ offset (i_pos od) mod FLASH_SECTOR_SIZE = 0;
  tg_size : 2 * FLASH_SECTOR_SIZE <= pos_size (i_pos od);
  tg_rw : flag (i_flags od) PART_FLAG_READONLY = false;
  tg_space : offset (i_pos od) + pos_size (i_pos od) < 2 ^ 32
}.

Lemma good_count es n od : table_good es n od -> Z.of_nat (length (hits slot_entry es)) = n.
Proof.
  intros H. rewrite count_by_slot.
  assert (by_slot es = (fun k => Nat.b2n (Z.of_nat k <? n)) <$> seq 0 16) as ->.
  { apply list_fmap_ext. intros i k Hk%lookup_seq. destruct (Z.ltb_spec (Z.of_nat k) n).
    - destruct (tg_slots _ _ _ H (Z.of_nat k)) as [e ->]; [lia|done].
    - rewrite (tg_gap _ _ _ H) by lia. done. }
  pose proof (tg_range _ _ _ H) as Hr. assert (n = Z.of_nat (Z.to_nat n)) as -> by lia. assert (Z.to_nat n <= 16)%nat as Hn by lia.
  revert Hn. generalize (Z.to_nat n) as j. intros j Hj. do 17 (destruct j as [|j]; [reflexivity|]). lia.
Qed.

Lemma find_app_item es k :
  0 <= k <= 16 -> find_app (item <$> es) (ESP_PARTITION_SUBTYPE_APP_OTA_MIN + k) = item <$> head (hits (app_key (16 + k)) es).
Proof.
  intros Hk. unfold find_app, ESP_PARTITION_SUBTYPE_APP_OTA_MIN.
  rewrite find_first_item; [done|done|unfold ESP_PARTITION_SUBTYPE_ANY; lia].
Qed.

Lemma good_app_count es n od : table_good es n od -> esp_ota_get_app_partition_count (item <$> es) = Some n.
Proof.
  intros H. pose proof (tg_range _ _ _ H) as Hr. unfold esp_ota_get_app_partition_count.
  assert (forall fuel c, 0 <= c <= n -> n <= c + Z.of_nat fuel -> count_apps (item <$> es) fuel c = Some n) as Hc.
  { induction fuel as [|fuel IH]; intros c Hc Hf; cbn [count_apps]; rewrite find_app_item by lia;
      (destruct (decide (c = n)) as [->|]; [rewrite (tg_gap _ _ _ H) by lia; done|]); [lia|].
    destruct (tg_slots _ _ _ H c) as [e ->]; [lia|]. cbn [head fmap option_fmap option_map].
    rewrite (proj2 (Z.ltb_lt c 16)) by lia. apply IH; lia. }
  apply Hc; lia.
Qed.

Lemma item_pos e : part_pos (item e) = i_pos e.
Proof. unfold part_pos. cbn. by destruct (i_pos e). Qed.

(** The two loaders' results are related by [views]. *)
Lemma good_views es n od :
  table_good es n od ->
  views (item <$> es) (item od) (foldl (fun b e => load_entry e b) empty_state es) /\
  app_count (foldl (fun b e => load_entry e b) empty_state es) = n.
Proof.
  intros H. pose proof (tg_range _ _ _ H) as Hr. set (bs := foldl _ _ es).
  assert (app_count bs = n) as Ec.
  { subst bs. rewrite fold_count; [|apply H|done|cbn; pose proof (tg_length _ _ _ H); lia]. cbn. by apply (good_count es n od). }
  split; [|done]. constructor.
  - rewrite find_first_item by done.
    change (hits (fun e => (i_type e =? ESP_PARTITION_TYPE_DATA) && (i_subtype e =? ESP_PARTITION_SUBTYPE_DATA_OTA)) es)
      with (hits (data_key PART_SUBTYPE_DATA_OTA) es). by rewrite (tg_data _ _ _ H).
  - constructor; [done|apply H..|]. split; [pose proof (tg_offset _ _ _ H); cbn; lia|apply (tg_space _ _ _ H)].
  - rewrite item_pos. subst bs. rewrite (fold_position ota_info (data_key PART_SUBTYPE_DATA_OTA)).
    + by rewrite (tg_data _ _ _ H).
    + intros. apply load_entry_ota_info.
  - apply H.
  - rewrite Ec. by apply (good_app_count es n od).
  - intros k Hk. rewrite Ec in Hk. destruct (tg_slots _ _ _ H k Hk) as [e He].
    exists (item e). rewrite find_app_item, He by lia. split; [done|]. rewrite item_pos. subst bs.
    rewrite (fold_position (fun b => PartTable.ota b k) (app_key (16 + k))); [by rewrite He|].
    intros e' b He'. apply load_entry_ota; [|lia]. pose proof (tg_bytes _ _ _ H) as Hb. rewrite Forall_forall in Hb. by apply Hb.
Qed.
End loaded.

(** ** From the table in flash *)

Section both.
Context (md5 : list Z -> list Z) (m : mem) (table chip_size : Z).

(** The [n] entries from index [i] on. *)
Definition table_entries (n : nat) (i : Z) : list esp_partition_info_t :=
  (fun k => partition_table m table (i + Z.of_nat k)) <$> seq 0 n.

Lemma table_entries_S n i : table_entries (S n) i = partition_table m table i :: table_entries n (i + 1).
Proof.
  unfold table_entries. cbn [seq]. rewrite fmap_cons, Z.add_0_r. f_equal. rewrite <- fmap_S_seq, <- list_fmap_compose.
  apply list_fmap_ext. intros j k _. cbn. f_equal. lia.
Qed.

Lemma load_table_foldl n i bs :
  load_table m table n i bs = foldl (fun b e => load_entry e b) bs (table_entries n i).
Proof.
  revert i bs. induction n as [|n IH]; intros i bs; [done|]. rewrite table_entries_S. cbn [load_table foldl]. apply IH.
Qed.

(** The application's loop stops at the first entry that is no partition. *)
Lemma load_entries_prefix cfg enc (allocs : Z -> bool) n k i :
  (forall j, allocs j = true) ->
  (forall j, i <= j < i + Z.of_nat n -> i_magic (partition_table m table j) = ESP_PARTITION_MAGIC) ->
  i_magic (partition_table m table (i + Z.of_nat n)) <> ESP_PARTITION_MAGIC ->
  load_entries m table cfg enc allocs (n + S k) i =
  (item_of enc <$> table_entries n i,
   if cfg && (i_magic (partition_table m table (i + Z.of_nat n)) =? ESP_PARTITION_MAGIC_MD5) then Some (i + Z.of_nat n) else None, ESP_OK).
Proof.
  intros Hal. revert i. induction n as [|n IH]; intros i Hm Hend.
  - rewrite Z.add_0_r in *. cbn [Nat.add load_entries]. destruct (cfg && _); [done|]. by rewrite (proj2 (Z.eqb_neq _ _) Hend).
  - cbn [Nat.add load_entries]. rewrite Hm, Hal by lia.
    change (ESP_PARTITION_MAGIC =? ESP_PARTITION_MAGIC_MD5) with false. rewrite andb_false_r.
    change (ESP_PARTITION_MAGIC =? ESP_PARTITION_MAGIC) with true. cbn [negb]. cbn iota.
    replace (i + Z.of_nat (S n)) with (i + 1 + Z.of_nat n) in * by lia.
    rewrite IH; [|intros; apply Hm; lia|done]. by rewrite table_entries_S, fmap_cons.
Qed.

(** What the application makes of a table whose first entry that is no
    partition is entry [k]. *)
Lemma load_partitions_prefix cfg enc (allocs : Z -> bool) k :
  (forall j, allocs j = true) -> 0 <= k < ESP_PARTITION_TABLE_MAX_ENTRIES ->
  (forall j, 0 <= j < k -> i_magic (partition_table m table j) = ESP_PARTITION_MAGIC) ->
  i_magic (partition_table m table k) <> ESP_PARTITION_MAGIC ->
  load_partitions md5 m table cfg enc allocs =
    (if negb cfg || (i_magic (partition_table m table k) =? ESP_PARTITION_MAGIC_MD5) && md5_matches md5 m table k
     then (ESP_OK, item_of enc <$> table_entries (Z.to_nat k) 0)
     else if i_magic (partition_table m table k) =? ESP_PARTITION_MAGIC_MD5 then (ESP_ERR_INVALID_STATE, []) else (ESP_ERR_NOT_FOUND, [])).
Proof.
  intros Hal Hk Hm Hend. unfold load_partitions. unfold ESP_PARTITION_TABLE_MAX_ENTRIES in Hk.
  replace (Z.to_nat (SPI_FLASH_SEC_SIZE / INFO_SIZE)) with (Z.to_nat k + S (127 - Z.to_nat k))%nat
    by (change (Z.to_nat (SPI_FLASH_SEC_SIZE / INFO_SIZE)) with 128%nat; lia).
  rewrite (load_entries_prefix cfg enc allocs) by (rewrite ?Z2Nat.id, ?Z.add_0_l by lia; (done || (intros; apply Hm; lia))).
  rewrite Z2Nat.id, Z.add_0_l by lia. destruct cfg; cbn [negb orb andb]; [|done].
  destruct (_ =? ESP_PARTITION_MAGIC_MD5); [|done]. by destruct (md5_matches md5 m table k).
Qed.

(** C28. From a table that the verification accepts with [num] partitions the
    bootloader loads the entries with the indices below [num].  If the MD5
    entry follows them (the form that the partition tool writes) the
    application loads the same partitions, with or without the MD5 check.
    If there is no MD5 entry it loads the same ones without the check and
    refuses the table with it.  If the MD5 entry is further up, at [k], the
    application loads only the entries before it, while the bootloader takes
    it for a partition and leaves out the last one.  Where both load the same
    entries, and these are [n] consecutive OTA slots and one OTA data
    partition, among others, the results are in the relation that selecting and confirming
    applications relies on: same OTA data, same number of slots, same place
    for each slot. *)
Theorem loaders_agree (enc : bool) (allocs : Z -> bool) (num : Z) :
  (forall j, allocs j = true) ->
  esp_partition_table_verify md5 m table chip_size = (ESP_OK, num) ->
  let es := table_entries (Z.to_nat num) 0 in
  let app cfg := load_partitions md5 m table cfg enc allocs in
  exists bs, bs = foldl (fun b e => load_entry e b) empty_state es /\
    bootloader_utility_load_partition_table md5 m table chip_size true empty_state = Some bs /\
    ((md5_entry md5 m table num /\ forall cfg, app cfg = (ESP_OK, item_of enc <$> es)) \/
     ((forall j, ~ (0 <= j <= num /\ md5_entry md5 m table j)) /\
      app false = (ESP_OK, item_of enc <$> es) /\ app true = (ESP_ERR_NOT_FOUND, [])) \/
     (exists k, 0 <= k < num /\ md5_entry md5 m table k /\ forall cfg, app cfg = (ESP_OK, item_of enc <$> take (Z.to_nat k) es))) /\
    (forall n od, table_good es n od -> views (item_of enc <$> es) (item_of enc od) bs /\ app_count bs = n).
Proof.
  intros Hal Hv es app. exists (foldl (fun b e => load_entry e b) empty_state es). split; [done|]. split_and!.
  - unfold bootloader_utility_load_partition_table. rewrite Hv. cbn [negb]. by rewrite load_table_foldl.
  - destruct (verified_shape md5 m table chip_size num Hv) as (total & Ht & [He _] & [[-> Hall]|(-> & k & Hk & Hmd & Hall)]).
    + right; left. split_and!.
      * intros j [Hj [Hj5 _]]. destruct (decide (j = total)) as [->|]; [by rewrite He in Hj5|].
        destruct (Hall j ltac:(lia)) as [E _]. by rewrite E in Hj5.
      * unfold app. rewrite (load_partitions_prefix false enc allocs total); [done|done|lia|intros; by apply Hall|by rewrite He].
      * unfold app. rewrite (load_partitions_prefix true enc allocs total); [by rewrite He|done|lia|intros; by apply Hall|by rewrite He].
    + assert (forall cfg, app cfg = (ESP_OK, item_of enc <$> table_entries (Z.to_nat k) 0)) as Hk'.
      { intros cfg. destruct Hmd as [E5 Hsum]. unfold app.
        rewrite (load_partitions_prefix cfg enc allocs k); [|done|lia|intros; apply Hall; lia|by rewrite E5].
        rewrite E5, Hsum. by destruct cfg. }
      destruct (decide (k = total - 1)) as [->|Hne]; [by left|]. right; right. exists k. split; [lia|]. split; [done|]. intros cfg. rewrite Hk'.
      unfold es, table_entries. by rewrite <- fmap_take, take_seq, Nat.min_l by lia.
  - intros n od Hg. by apply good_views.
Qed.
End both.

(** ** A table with OTA data and two slots *)

Definition ex_entry (ty st off sz : Z) : list Z :=
  [0xAA; 0x50; ty; st] ++ bytes32 off ++ bytes32 sz ++ replicate 16 0 ++ [0; 0; 0; 0].
Definition ex_table : mem :=
  program (program (program (program blank 0x8000 (ex_entry 1 0 0xd000 0x2000)) 0x8020 (ex_entry 0 0x10 0x10000 0x100000))
    0x8040 (ex_entry 0 0x11 0x110000 0x100000)) 0x8060 ([0xEB; 0xEB] ++ replicate 14 255 ++ replicate 16 7).
Definition ex_md5 : list Z -> list Z := fun _ => replicate 16 7.

Lemma verified_table_witness :
  exists total, 0 < total < ESP_PARTITION_TABLE_MAX_ENTRIES /\ end_entry ex_table 0x8000 total /\ total = 4.
Proof.
  destruct (verified_table ex_md5 ex_table 0x8000 0x400000 3) as (total & Ht & He & Hcase & _).
  - intros x. unfold ex_table. repeat (apply program_mem_ok; [|repeat (apply Forall_cons; split; [vm_compute; split; congruence|]); by apply Forall_nil]).
    intros y. vm_compute. split; congruence.
  - lia.
  - vm_compute. reflexivity.
  - exists total. split; [done|]. split; [done|]. destruct Hcase as [[H Hall]|[H _]]; [|lia].
    exfalso. destruct He as [He _]. rewrite <- H in He. vm_compute in He. discriminate He.
Defined.

Lemma loaders_agree_witness :
  exists bs,
    load_partitions ex_md5 ex_table 0x8000 true false (fun _ => true) = (ESP_OK, ex_parts) /\
    bootloader_utility_load_partition_table ex_md5 ex_table 0x8000 0x400000 true empty_state = Some bs /\
    views ex_parts ex_otadata bs /\ app_count bs = 2.
Proof.
  destruct (loaders_agree ex_md5 ex_table 0x8000 0x400000 false (fun _ => true) 3) as (bs & _ & E2 & E1 & Hg).
  - done.
  - vm_compute. reflexivity.
  - exists bs. split.
    { destruct E1 as [[_ E1]|[[E1 _]|(k & Hk & [E5 _] & _)]]; [exact (E1 true)|exfalso; apply (E1 3)|exfalso].
      - split; [lia|]. split; vm_compute; reflexivity.
      - assert (k = 0 \/ k = 1 \/ k = 2) as [-> |[-> | ->]] by lia; vm_compute in E5; discriminate E5. }
    split; [exact E2|].
    apply (Hg 2 (partition_table ex_table 0x8000 0)). constructor.
    + repeat (apply Forall_cons; split; [vm_compute; split; congruence|]). by apply Forall_nil.
    + vm_compute. lia.
    + lia.
    + intros k Hk. assert (k = 0 \/ k = 1) as [-> | ->] by lia; eexists; vm_compute; reflexivity.
    + intros k Hk. assert (exists j, (2 <= j < 16)%nat /\ k = Z.of_nat j) as (j & Hj & ->) by (exists (Z.to_nat k); lia).
      do 16 (destruct j as [|j]; [lia || (vm_compute; reflexivity)|]). lia.
    + vm_compute. reflexivity.
    + vm_compute. split; reflexivity.
    + vm_compute. congruence.
    + vm_compute. reflexivity.
    + vm_compute. reflexivity.
Defined.
