(* ===== verification/OtaWrite.v ===== *)
(** * Writing an image by handle

    However the data is cut into calls of [esp_ota_write], the partition ends
    up with the concatenation.  The exception is writing with sequential
    erasing and flash encryption, where the last block can go to a sector
    that was never erased. *)

From S2P Require Import Prelude EspErr Crc Flash FlashProps PartTable OtaData OtaDataProps Boot BootProps Ota OtaProps.
From Stdlib Require Import ZifyNat.

(** ** Appending to what a partition stores *)

Abbreviation len l := (Z.of_nat (length l)).

Definition stored (m : mem) (a : Z) (d : list Z) : Prop := load_bytes m a (len d) = d.
Definition blank_at (m : mem) (a b : Z) : Prop := forall x, a <= x < b -> m x = 255.

Lemma stored_ext m m' a d : stored m a d -> (forall x, a <= x < a + len d -> m' x = m x) -> stored m' a d.
Proof. unfold stored. intros H E. by rewrite (load_bytes_ext m' m). Qed.

Lemma write_append p d data lim f f' :
  addressable p -> flash_ok f -> Forall is_byte data -> stored (cells f) (address p) d ->
  blank_at (cells f) (address p + len d) (address p + lim) -> (len d + len data <= size p -> len d + len data <= lim) ->
  esp_partition_write p (len d) data f = (ESP_OK, f') ->
  flash_ok f' /\ stored (cells f') (address p) (d ++ data) /\ len d + len data <= size p /\
  blank_at (cells f') (address p + len d + len data) (address p + lim) /\
  changes_only p (cells f) (cells f').
Proof.
  intros Hsp [Hm Ho] Hb Hs Hbl Hlim E. pose proof (partition_write_outcomes p (len d) data f Ho) as Ho'. rewrite E in Ho'. cbn [snd] in Ho'.
  apply partition_write_ok in E as (_ & _ & Hle & Ec); [|done|lia|done]. specialize (Hlim Hle).
  split_and!; [split; [rewrite Ec; by apply program_mem_ok|done]| |done|..].
  - unfold stored. rewrite length_app, Nat2Z.inj_add, load_bytes_app by lia. rewrite Ec. f_equal.
    + apply (stored_ext (cells f)); [done|]. intros x Hx. apply program_other. lia.
    + apply program_blank; [|done]. intros x Hx. apply Hbl. lia.
  - intros x Hx. rewrite Ec, program_other by lia. apply Hbl. lia.
  - intros x Hx. rewrite Ec. apply program_other. lia.
Qed.

(** ** Lists that are cut *)

Lemma overlay_take buf (t c : list Z) :
  take (length t) buf = t -> (length t + length c <= length buf)%nat ->
  take (length t + length c) (overlay buf (length t) c) = t ++ c /\ length (overlay buf (length t) c) = length buf.
Proof.
  intros Ht Hl. unfold overlay. rewrite Ht. split.
  - rewrite app_assoc. rewrite take_app_length'; [done|]. by rewrite length_app.
  - rewrite !length_app, length_drop. lia.
Qed.

Lemma overlay_start buf (c : list Z) :
  (length c <= length buf)%nat -> take (length c) (overlay buf 0 c) = c /\ length (overlay buf 0 c) = length buf.
Proof. intros H. apply (overlay_take buf [] c); [done|]. exact H. Qed.

Lemma overlay_bytes buf n c : Forall is_byte buf -> Forall is_byte c -> Forall is_byte (overlay buf n c).
Proof. intros. unfold overlay. rewrite !Forall_app. split_and!; [by apply Forall_take|done|by apply Forall_drop]. Qed.

(** ** The state of a handle *)

Section handle.
Context (enc : bool) (p : esp_partition_t).
Context (Hes : erase_size p = 4096) (Hsz : 0 <= size p < 2 ^ 31) (Hsp : addressable p).

(** [er] bytes were erased beforehand, which is enough for the [total] bytes of
    the image and the padding of its last block. *)
Context (er total : Z) (Hfits : forall n, n <= (total + 15) / 16 * 16 -> n <= size p -> n <= er).

(** Bytes kept in [partial_data]. *)
Record cached (it : ota_ops_entry_t) (tail : list Z) : Prop := {
  ca_count : partial_bytes it = len tail;
  ca_small : (length tail < 16)%nat;
  ca_buffer : length (partial_data it) = 16%nat;
  ca_take : take (length tail) (partial_data it) = tail;
  ca_bytes : Forall is_byte (partial_data it)
}.

(** [body] is in flash, [tail] in [partial_data]; up to [lim] the rest is erased. *)
Record written (it : ota_ops_entry_t) (f : flash) (body tail : list Z) (lim : Z) : Prop := {
  wr_flash : flash_ok f;
  wr_staging : staging it = p;
  wr_body : wrote_size it = len body;
  wr_cached : cached it tail;
  wr_bytes : Forall is_byte body;
  wr_stored : stored (cells f) (address p) body;
  wr_blank : blank_at (cells f) (address p + len body) (address p + lim);
  wr_fits : len body <= size p;
  wr_lim : if need_erase it then lim = (len body + 4095) / 4096 * 4096 else lim = er;
  wr_block : enc = true -> len body mod 16 = 0
}.

(** What a call keeps of the entry. *)
Definition same_target (it it' : ota_ops_entry_t) : Prop :=
  handle it' = handle it /\ staging it' = staging it /\ final it' = final it /\
  finalize_with_copy it' = finalize_with_copy it /\ need_erase it' = need_erase it.

Lemma u32_size n : 0 <= n <= size p -> u32 n = n.
Proof. intros. apply u32_id. lia. Qed.

(** Erasing ahead of [n] bytes. *)
Lemma erase_ahead_ok it f body tail lim n f' :
  written it f body tail lim -> need_erase it = true -> 0 < n < 2 ^ 31 ->
  erase_ahead it n f = (ESP_OK, f') ->
  flash_ok f' /\ stored (cells f') (address p) body /\
  blank_at (cells f') (address p + len body) (address p + (len body + n + 4095) / 4096 * 4096) /\
  changes_only p (cells f) (cells f').
Proof.
  intros [[Hm Ho] Hst Hbo _ _ Hsto Hbl Hfit Hlim _] Hne Hn E. rewrite Hne in Hlim. unfold erase_ahead in E.
  rewrite Hst, Hes, Hbo in E. rewrite (u32_id (len body + n - 1)) in E by lia.
  assert (forall o k, 0 <= k -> 0 <= o -> esp_partition_erase_range p o k f = (ESP_OK, f') ->
    flash_ok f' /\ o + k <= size p /\ (forall x, x < address p + o \/ address p + o + k <= x -> cells f' x = cells f x) /\
    blank_at (cells f') (address p + o) (address p + o + k)) as He.
  { intros o k Hk H0 E'. pose proof (partition_erase_outcomes p o k f Ho) as Ho'. rewrite E' in Ho'.
    apply partition_erase_ok in E' as (_ & _ & Hle & _ & _ & Ec); [|done..].
    split_and!; [split; [rewrite Ec; by apply erased_mem_ok|done]|done|..].
    - intros x Hx. rewrite Ec. by apply erased_other.
    - intros x Hx. rewrite Ec. by apply erased_inside. }
  set (w := len body) in *. assert (0 <= w) as Hw by lia.
  destruct (Z.eqb_spec (w mod 4096) 0) as [Em|Em]; [|destruct (Z.eqb_spec (w / 4096) ((w + n - 1) / 4096)) as [Es|Es]]; cbn [negb] in E.
  - rewrite u32_id in E by (Z.div_mod_to_equations; lia).
    apply He in E as (Hf & Hle & Ho' & Hb); [|Z.div_mod_to_equations; lia|lia]. split_and!; [done|..].
    + apply (stored_ext (cells f)); [done|]. intros x Hx. apply Ho'. lia.
    + intros x Hx. apply Hb. Z.div_mod_to_equations; lia.
    + intros x Hx. apply Ho'. lia.
  - injection E as <-. split_and!; [by split|done| |apply same_outside_refl].
    intros x Hx. apply Hbl. Z.div_mod_to_equations; lia.
  - rewrite u32_id in E by (Z.div_mod_to_equations; lia).
    apply He in E as (Hf & Hle & Ho' & Hb); [|Z.div_mod_to_equations; lia..]. split_and!; [done|..].
    + apply (stored_ext (cells f)); [done|]. intros x Hx. apply Ho'. Z.div_mod_to_equations; lia.
    + intros x Hx. destruct (decide (x < address p + (w / 4096 + 1) * 4096)).
      * rewrite Ho' by lia. apply Hbl. Z.div_mod_to_equations; lia.
      * apply Hb. Z.div_mod_to_equations; lia.
    + intros x Hx. apply Ho'. Z.div_mod_to_equations; lia.
Qed.

Lemma same_target_trans it it' it'' : same_target it it' -> same_target it' it'' -> same_target it it''.
Proof. unfold same_target. intros (?&?&?&?&?) (?&?&?&?&?). by split_and!; etrans. Qed.

Lemma keep_tail_ok it data it' data' :
  length (partial_data it) = 16%nat -> Forall is_byte (partial_data it) -> Forall is_byte data ->
  keep_tail it data = (it', data') ->
  exists tail, data = data' ++ tail /\ cached it' tail /\ same_target it it' /\ wrote_size it' = wrote_size it /\ len data' mod 16 = 0.
Proof.
  intros Hbuf Hbb Hb E. unfold keep_tail in E. set (k := (length data mod 16)%nat) in *.
  assert (k < 16)%nat as Hk by (apply Nat.mod_upper_bound; lia).
  assert (Z.of_nat (length data - k) mod 16 = 0) as Hblk by (subst k; Z.div_mod_to_equations; lia).
  assert (k <= length data)%nat as Hkl by (apply Nat.Div0.mod_le).
  exists (drop (length data - k) data).
  assert (length (drop (length data - k) data) = k) as Hl by (rewrite length_drop; lia).
  destruct (Z.eqb_spec (Z.of_nat k) 0) as [Ek|Ek]; cbn [negb] in E; injection E as <- <-.
  - assert (k = 0%nat) as Ek0 by lia. rewrite Ek0, Nat.sub_0_r, drop_all, app_nil_r.
    destruct it as [h st fi c n w b r d]. split_and!; [done| |done|done|by rewrite Ek0, Nat.sub_0_r in Hblk]. constructor; cbn; done || lia.
  - destruct (overlay_start (partial_data it) (drop (length data - k) data)) as [H1 H2]; [lia|]. rewrite Hl in H1.
    rewrite take_drop. destruct it as [h st fi c n w b r d]. split_and!; [done| |done|done|by rewrite length_take_le by lia]. constructor; cbn [with_partial partial_bytes partial_data] in *.
    + by rewrite Hl.
    + lia.
    + by rewrite H2.
    + by rewrite Hl.
    + apply overlay_bytes; [done|by apply Forall_drop].
Qed.

Lemma write_rest_ok it f body tail data lim it' f' :
  flash_ok f -> staging it = p -> wrote_size it = len body -> cached it tail ->
  Forall is_byte body -> Forall is_byte data -> stored (cells f) (address p) body ->
  blank_at (cells f) (address p + len body) (address p + lim) ->
  (if need_erase it then lim = (len body + len data + 4095) / 4096 * 4096 else lim = er) ->
  (need_erase it = false -> len body + len data <= total) -> (enc = true -> (len body + len data) mod 16 = 0) ->
  write_rest it data f = (ESP_OK, it', f') ->
  written it' f' (body ++ data) tail lim /\ same_target it it' /\ changes_only p (cells f) (cells f').
Proof.
  intros Hf Hst Hw Hca Hbb Hbd Hs Hbl Hlim Htot Hblk E. unfold write_rest in E. rewrite Hst, Hw in E.
  destruct (esp_partition_write p (len body) data f) as [ret f1] eqn:Ew.
  destruct (Z.eqb_spec ret ESP_OK) as [->|Hne]; simplify_eq.
  destruct (write_append p body data lim f f' Hsp Hf Hbd Hs Hbl) as (Hf' & Hs' & Hfit & Hbl' & Hch); [|done|].
  { intros H. destruct (need_erase it); [subst lim; Z.div_mod_to_equations; lia|]. subst lim. apply Hfits; [|done].
    specialize (Htot eq_refl). Z.div_mod_to_equations; lia. }
  rewrite u32_size by lia. destruct it as [h st fi c n w b r d].
  split_and!; [|done|done]. constructor; try done; cbn [wrote_size with_wrote need_erase] in *.
  - rewrite length_app. lia.
  - by destruct Hca.
  - by apply Forall_app.
  - rewrite length_app, Nat2Z.inj_add, Z.add_assoc. done.
  - rewrite length_app. lia.
  - rewrite length_app, Nat2Z.inj_add. done.
  - rewrite length_app, Nat2Z.inj_add. done.
Qed.

(** Filling the buffer, and writing it out when it is full. *)
Lemma fill_cache_ok it tail c :
  cached it tail -> Forall is_byte c -> (length tail + length c <= 16)%nat ->
  let it' := with_partial (partial_bytes it + len c) (overlay (partial_data it) (Z.to_nat (partial_bytes it)) c) it in
  partial_bytes it' = len (tail ++ c) /\ length (partial_data it') = 16%nat /\
  take (length (tail ++ c)) (partial_data it') = tail ++ c /\ Forall is_byte (partial_data it') /\
  same_target it it' /\ wrote_size it' = wrote_size it.
Proof.
  intros [Hn Hs Hb Ht Hf] Hc Hle it'. subst it'. rewrite Hn, Nat2Z.id.
  destruct (overlay_take (partial_data it) tail c Ht) as [H1 H2]; [lia|].
  destruct it as [h st fi cp n w b r d]. cbn [with_partial partial_bytes partial_data wrote_size] in *.
  rewrite length_app. split_and!; [lia|lia|done|by apply overlay_bytes|done|done].
Qed.

(** Writing out a full buffer, then the rest of the data. *)
Lemma full_cache_ok it it1 f body rest it' f' :
  staging it = p -> need_erase it = false -> same_target it it1 -> wrote_size it1 = wrote_size it -> wrote_size it = len body ->
  len (partial_data it1) = 16 -> Forall is_byte (partial_data it1) ->
  flash_ok f -> Forall is_byte body -> stored (cells f) (address p) body ->
  blank_at (cells f) (address p + len body) (address p + er) -> Forall is_byte rest ->
  len body + 16 + len rest <= total -> len body mod 16 = 0 ->
  (let '(ret, f) := esp_partition_write (staging it1) (wrote_size it1) (partial_data it1) f in
   if negb (ret =? ESP_OK) then (ret, it1, f) else
   let it := with_wrote (u32 (wrote_size it1 + 16)) (with_partial 0 (replicate 16 255) it1) in
   let '(it, data) := keep_tail it rest in write_rest it data f) = (ESP_OK, it', f') ->
  exists body' tail', body' ++ tail' = body ++ partial_data it1 ++ rest /\ written it' f' body' tail' er /\
    same_target it it' /\ changes_only p (cells f) (cells f').
Proof.
  intros Hst Hne Hs1 Hw1 Hw Hl Hbt Hf Hbb Hsto Hbl Hbr Htot Hblk E. rewrite Hw1, Hw in E.
  destruct (Hs1) as (_ & S2 & _ & _ & S5). rewrite S2, Hst in E.
  destruct (esp_partition_write p (len body) (partial_data it1) f) as [ret f1] eqn:Ew.
  destruct (Z.eqb_spec ret ESP_OK) as [->|]; cbn [negb] in E; [|congruence].
  destruct (write_append p body (partial_data it1) er f f1 Hsp Hf Hbt Hsto Hbl) as (Hf1 & Hsto1 & Hfit1 & Hbl1 & Hch1); [|done|].
  { intros H. apply Hfits; [|done]. Z.div_mod_to_equations; lia. }
  rewrite u32_size in E by lia. cbv zeta in E. set (it2 := with_wrote _ _) in E.
  destruct (keep_tail it2 rest) as [it3 data3] eqn:Ek.
  assert (same_target it1 it2 /\ wrote_size it2 = len body + 16 /\ length (partial_data it2) = 16%nat /\ Forall is_byte (partial_data it2)) as (S6 & S7 & S8 & S9)
    by (subst it2; destruct it1; split_and!; try done; apply Forall_replicate; done).
  destruct (keep_tail_ok it2 rest it3 data3) as (tail' & -> & Hca' & Hsame & Hw' & Hb16); [done|done|done|done|].
  apply Forall_app in Hbr as [Hb1 Hb2].
  assert (same_target it it3) as Hs3 by (eapply same_target_trans; [|done]; by eapply same_target_trans).
  destruct (write_rest_ok it3 f1 (body ++ partial_data it1) tail' data3 er it' f') as (Hwr' & Hsame' & Hch); try done.
  - destruct Hs3 as (_ & -> & _). done.
  - rewrite Hw', S7, length_app. lia.
  - by apply Forall_app.
  - rewrite length_app, Nat2Z.inj_add, Z.add_assoc. done.
  - destruct Hs3 as (_ & _ & _ & _ & ->). by rewrite Hne.
  - intros _. rewrite length_app in Htot. rewrite length_app. lia.
  - intros _. rewrite length_app. Z.div_mod_to_equations; lia.
  - exists ((body ++ partial_data it1) ++ data3), tail'.
    split_and!; [by rewrite <- !app_assoc|done|by eapply same_target_trans|by eapply same_outside_trans].
Qed.

(** A call for an encrypted chip, erased beforehand. *)
Lemma write_encrypted_ok it f body tail data it' f' :
  enc = true -> written it f body tail er -> need_erase it = false -> Forall is_byte data -> data <> [] ->
  len body + len tail + len data <= total ->
  write_entry enc it data f = (ESP_OK, it', f') ->
  exists body' tail', body' ++ tail' = body ++ tail ++ data /\ written it' f' body' tail' er /\
    same_target it it' /\ changes_only p (cells f) (cells f').
Proof.
  intros He Hwr Hne Hb Hnil Htot E. destruct (Hwr) as [Hf Hst Hw Hca Hbb Hsto Hbl Hfit _ Hblk]. specialize (Hblk He).
  unfold write_entry in E. rewrite Hne, He in E. change (negb (ESP_OK =? ESP_OK)) with false in E. cbn iota in E.
  destruct (Z.eqb_spec (check_magic it data) ESP_OK) as [_|Em]; cbn [negb] in E; [|congruence].
  destruct (Z.eqb_spec (partial_bytes it) 0) as [Ep|Ep]; cbn [negb] in E.
  - assert (tail = []) as -> by (destruct Hca as [Hn _ _ _ _]; destruct tail; [done|cbn in Hn; lia]).
    destruct (keep_tail it data) as [it1 data1] eqn:Ek.
    destruct (keep_tail_ok it data it1 data1) as (tail' & -> & Hca' & Hsame & Hw' & Hb16); [apply Hca|apply Hca|done|done|].
    apply Forall_app in Hb as [Hb1 Hb2].
    destruct (write_rest_ok it1 f body tail' data1 er it' f') as (Hwr' & Hsame' & Hch); try done.
    { destruct Hsame as (_ & -> & _). done. } { by rewrite Hw'. }
    { destruct Hsame as (_ & _ & _ & _ & ->). by rewrite Hne. }
    { intros _. rewrite length_app in Htot. cbn in Htot. lia. }
    { intros _. Z.div_mod_to_equations; lia. }
    exists (body ++ data1), tail'. split_and!; [by rewrite <- app_assoc|done|by eapply same_target_trans|done].
  - destruct (Hca) as [Hn Hsm Hbu Htk Htb].
    set (cl := Z.min (16 - partial_bytes it) (len data)) in *.
    set (c := take (Z.to_nat cl) data) in *. set (rest := drop (Z.to_nat cl) data) in *.
    assert (data = c ++ rest) as Ed by (symmetry; apply take_drop).
    assert (len c = cl) as Hcl by (subst c cl; rewrite length_take; lia).
    assert (Forall is_byte c /\ Forall is_byte rest) as [Hbc Hbr] by (apply Forall_app; by rewrite <- Ed).
    destruct (fill_cache_ok it tail c Hca Hbc) as (H1 & H2 & H3 & H4 & H5 & H6); [lia|].
    rewrite <- Hcl in E. set (it1 := with_partial _ _ it) in *.
    destruct (Z.eqb_spec (partial_bytes it1) 16) as [E16|E16]; cbn [negb] in E.
    + assert (partial_data it1 = tail ++ c) as Epd.
      { rewrite <- H3. symmetry. apply take_ge. rewrite H1 in E16. lia. }
      rewrite Ed, (app_assoc tail). rewrite <- Epd in H1 |- *. rewrite H1 in E16.
      apply (full_cache_ok it it1 f body rest it' f'); try done. rewrite Ed, length_app in Htot. rewrite Epd, length_app in E16. lia.
    + simplify_eq. exists body, (tail ++ c).
      assert (rest = []) as Er by (subst rest; apply drop_ge; rewrite H1, length_app in E16; lia).
      rewrite Er, app_nil_r in Ed. split_and!; [by rewrite <- Ed| |done|apply same_outside_refl].
      destruct H5 as (S1 & S2 & S3 & S4 & S5). constructor; try done; [by rewrite S2|by rewrite H6| |by rewrite S5, Hne].
      constructor; try done. rewrite H1, length_app in E16. rewrite length_app. lia.
Qed.

(** A call without encryption, erased beforehand or sector by sector. *)
Lemma write_plain_ok it f body data lim it' f' :
  enc = false -> written it f body [] lim -> Forall is_byte data -> data <> [] -> len data < 2 ^ 31 ->
  (need_erase it = false -> len body + len data <= total) ->
  write_entry enc it data f = (ESP_OK, it', f') ->
  exists lim', written it' f' (body ++ data) [] lim' /\ same_target it it' /\ changes_only p (cells f) (cells f').
Proof.
  intros He Hwr Hb Hnil Hlen Htot E. destruct (Hwr) as [Hf Hst Hw Hca Hbb Hsto Hbl Hfit Hlim _].
  assert (0 < len data) as Hpos by (destruct data; [done|cbn; lia]).
  set (lim' := if need_erase it then (len body + len data + 4095) / 4096 * 4096 else er).
  assert (exists f1, flash_ok f1 /\ stored (cells f1) (address p) body /\
    blank_at (cells f1) (address p + len body) (address p + lim') /\ changes_only p (cells f) (cells f1) /\
    write_rest it data f1 = (ESP_OK, it', f')) as (f1 & Hf1 & Hs1 & Hb1 & Hch1 & Er).
  { unfold write_entry in E. rewrite He in E. unfold lim'. destruct (need_erase it) eqn:Hne.
    - destruct (erase_ahead it (len data) f) as [ret f1] eqn:Ee.
      destruct (Z.eqb_spec ret ESP_OK) as [->|]; cbn [negb] in E; [|congruence].
      destruct (Z.eqb_spec (check_magic it data) ESP_OK) as [_|]; cbn [negb] in E; [|congruence].
      destruct (erase_ahead_ok it f body [] lim (len data) f1 Hwr Hne) as (H1 & H2 & H3 & H4); [lia|done|].
      by exists f1.
    - change (negb (ESP_OK =? ESP_OK)) with false in E. cbn iota in E.
      destruct (Z.eqb_spec (check_magic it data) ESP_OK) as [_|]; cbn [negb] in E; [|congruence].
      rewrite Hlim in Hbl. exists f. split_and!; done || apply same_outside_refl. }
  destruct (write_rest_ok it f1 body [] data lim' it' f') as (H1 & H2 & H3); try done.
  { unfold lim'. by destruct (need_erase it). } { congruence. }
  exists lim'. split_and!; [done|done|by eapply same_outside_trans].
Qed.

(** One call, in the two supported combinations. *)
Lemma write_entry_ok it f body tail data lim it' f' :
  (enc = true -> need_erase it = false) -> (enc = false -> tail = []) ->
  written it f body tail lim -> Forall is_byte data -> data <> [] -> len data < 2 ^ 31 ->
  (need_erase it = false -> len body + len tail + len data <= total) ->
  write_entry enc it data f = (ESP_OK, it', f') ->
  exists body' tail' lim', body' ++ tail' = body ++ tail ++ data /\ written it' f' body' tail' lim' /\
    (enc = false -> tail' = []) /\ same_target it it' /\ changes_only p (cells f) (cells f').
Proof.
  intros Hcomb Hplain Hwr Hb Hnil Hlen Htot E. destruct enc eqn:He.
  - pose proof (Hcomb eq_refl) as Hne. pose proof (wr_lim _ _ _ _ _ Hwr) as Hl. rewrite Hne in Hl. subst lim.
    rewrite <- He in E. destruct (write_encrypted_ok it f body tail data it' f' He Hwr Hne Hb Hnil (Htot Hne) E) as (b' & t' & H1 & H2 & H3 & H4).
    exists b', t', er. split_and!; done.
  - rewrite (Hplain eq_refl) in Hwr, Htot |- *. rewrite <- He in E.
    destruct (write_plain_ok it f body data lim it' f' He Hwr Hb Hnil Hlen ltac:(cbn in Htot; intros H; specialize (Htot H); lia) E) as (l' & H1 & H2 & H3).
    exists (body ++ data), [], l'. split_and!; try done. by rewrite app_nil_r.
Qed.

(** ** Sequences of calls *)

Lemma get_update h e l :
  handle e = h -> (exists x, head (filter (fun e => handle e = h) l) = Some x) ->
  head (filter (fun e => handle e = h) (update_entry e l)) = Some e.
Proof.
  intros He. induction l as [|y l IH]; intros [x Hx]; [done|]. cbn [update_entry].
  destruct (Z.eqb_spec (handle y) (handle e)) as [E|E].
  - rewrite filter_cons, decide_True by done. done.
  - rewrite filter_cons in Hx |- *. rewrite decide_False in Hx |- * by congruence. apply IH. by exists x.
Qed.

Lemma get_put h e s s' :
  s_ota_ops_entries s' = s_ota_ops_entries s -> handle e = h -> (exists x, get_ota_ops_entry h s = Some x) ->
  get_ota_ops_entry h (put_entry e s') = Some e /\ o_flash (put_entry e s') = o_flash s'.
Proof.
  intros Es He Hx. unfold get_ota_ops_entry, put_entry in *. destruct s' as [fa ea la ha ba wa]. cbn in Es |- *. subst la.
  split; [by apply get_update|done].
Qed.

(** The calls [esp_ota_write(h, d, ...)] for the pieces [ds], while they succeed. *)
Fixpoint ota_writes (h : Z) (ds : list (list Z)) (s : ota) : option ota :=
  match ds with
  | [] => Some s
  | d :: ds => let '(err, s) := esp_ota_write enc h d s in if err =? ESP_OK then ota_writes h ds s else None
  end.

Lemma get_handle h s it : get_ota_ops_entry h s = Some it -> handle it = h.
Proof. unfold get_ota_ops_entry. intros E. by apply head_Some_elem_of, list_elem_of_filter in E as [E _]. Qed.

Lemma ota_writes_ok h ds s s' it body tail lim :
  (enc = true -> need_erase it = false) -> (enc = false -> tail = []) ->
  get_ota_ops_entry h s = Some it -> written it (o_flash s) body tail lim ->
  Forall (fun d => Forall is_byte d /\ len d < 2 ^ 31) ds ->
  (need_erase it = false -> len body + len tail + len (concat ds) <= total) ->
  ota_writes h ds s = Some s' ->
  exists it' body' tail' lim', get_ota_ops_entry h s' = Some it' /\ body' ++ tail' = body ++ tail ++ concat ds /\
    written it' (o_flash s') body' tail' lim' /\ (enc = false -> tail' = []) /\
    same_target it it' /\ changes_only p (cells (o_flash s)) (cells (o_flash s')).
Proof.
  revert s it body tail lim. induction ds as [|d ds IH]; intros s it body tail lim Hcomb Hplain Hg Hwr Hds Htot E; cbn in E.
  - simplify_eq. exists it, body, tail, lim. rewrite app_nil_r. split_and!; done || apply same_outside_refl.
  - apply Forall_cons in Hds as [[Hd Hlen] Hds]. unfold esp_ota_write in E. rewrite Hg in E.
    destruct (Nat.eqb_spec (length d) 0) as [E0|E0].
    { apply length_zero_iff_nil in E0 as ->. eapply IH; done. }
    destruct (write_entry enc it d (o_flash s)) as [[ret it1] f1] eqn:Ew.
    destruct (Z.eqb_spec ret ESP_OK) as [->|]; [|done].
    destruct (write_entry_ok it (o_flash s) body tail d lim it1 f1) as (b1 & t1 & l1 & H1 & H2 & H3 & H4 & H5); try done.
    { by destruct d. }
    { intros Hne. specialize (Htot Hne). cbn [concat] in Htot. rewrite length_app in Htot. lia. }
    destruct (get_put h it1 s (set_o_flash f1 s)) as [G1 G2].
    { by destruct s. } { destruct H4 as (-> & _). by eapply get_handle. } { by exists it. }
    assert (o_flash (set_o_flash f1 s) = f1) as Ef by (by destruct s). rewrite Ef in G2.
    edestruct (IH (put_entry it1 (set_o_flash f1 s)) it1 b1 t1 l1) as (it' & b' & t' & l' & K1 & K2 & K3 & K6 & K4 & K5);
      [by destruct H4 as (_ & _ & _ & _ & ->)|done|exact G1|by rewrite G2|done| |exact E|].
    { destruct H4 as (_ & _ & _ & _ & ->). intros Hne. specialize (Htot Hne). cbn [concat] in Htot. rewrite length_app in Htot.
      assert (len (b1 ++ t1) = len (body ++ tail ++ d)) as Hl by (by rewrite H1). rewrite !length_app in Hl. lia. }
    exists it', b', t', l'. split_and!; [done| |done|done|by eapply same_target_trans|].
    + cbn [concat]. rewrite K2, (app_assoc b1 t1), H1. by rewrite <- !app_assoc.
    + rewrite G2 in K5. by eapply same_outside_trans.
Qed.
End handle.

(** ** From [esp_ota_begin] to [esp_ota_end] *)

Lemma partition_erase_flash_ok p o n f : flash_ok f -> flash_ok (esp_partition_erase_range p o n f).2.
Proof.
  intros [Hm Ho]. split; [|by apply partition_erase_outcomes].
  unfold esp_partition_erase_range, esp_flash_erase_region. repeat case_match; try done; by apply erased_mem_ok.
Qed.

Section image.
Context (parts : list esp_partition_t) (chip_size : Z).
Context (rb enc : bool) (phys_offs : Z).
Context (Hl : layout_ok chip_size parts) (Hchip : chip_size < 2 ^ 31) (Hes : Forall (fun p => erase_size p = 4096) parts).

Lemma part_facts p : p ∈ parts -> erase_size p = 4096 /\ 0 <= size p < 2 ^ 31 /\ addressable p.
Proof.
  intros Hp. destruct (layout_elem _ _ _ Hl Hp) as (? & ? & ?).
  rewrite Forall_forall in Hes. split; [by apply Hes|]. split; [lia|]. split; lia.
Qed.

(** The erasing of the inactive entry changes the OTA data partition only. *)
Lemma invalidate_frame s r s' :
  esp_ota_invalidate_inactive_ota_data_slot parts true phys_offs s = Some (r, s') -> flash_ok (o_flash s) ->
  s_ota_ops_entries s' = s_ota_ops_entries s /\ flash_ok (o_flash s') /\
  (o_flash s' = o_flash s \/ exists od, od ∈ parts /\ type od = ESP_PARTITION_TYPE_DATA /\
     changes_only od (cells (o_flash s)) (cells (o_flash s'))).
Proof.
  intros E Hf. unfold esp_ota_invalidate_inactive_ota_data_slot, erase_last_boot_app_partition in E.
  destruct (read_otadata parts true (o_flash s)) as [[od o]|] eqn:Er; [|simplify_eq; auto].
  destruct (esp_ota_get_app_partition_count parts) as [n|]; [|done].
  destruct ((active o =? -1) || (n =? 0)) eqn:Ea; [simplify_eq; auto|].
  destruct ((_ =? UINT32_MAX) || _); [simplify_eq; auto|].
  destruct (umod _ _) as [slot|]; [|done].
  destruct (find_app parts _) as [last|]; [|simplify_eq; auto].
  destruct (esp_ota_get_running_partition parts phys_offs) as [rp|]; [|done].
  destruct (bool_decide (last = rp)); [simplify_eq; auto|].
  change (negb (ESP_OK =? ESP_OK)) with false in E. cbn iota in E.
  unfold read_otadata in Er. destruct (esp_partition_find_first parts _ _ _) as [od'|] eqn:Ef; [|done]. cbn [negb] in Er. simplify_eq.
  apply find_first_some in Ef as (Hod & Hty & _); [|done|done].
  destruct (part_facts od Hod) as (He & _ & Hsp). rewrite He in *.
  unfold with_flash in E. simplify_eq.
  match goal with |- context [esp_partition_erase_range od ?o 4096 (o_flash s)] => set (off := o) end.
  assert (0 <= off) as Hoff by (subst off; unfold inactive; apply Z.mul_nonneg_nonneg; [apply Z.land_nonneg; lia|lia]).
  pose proof (partition_erase_frame od off 4096 (o_flash s) Hsp Hoff) as Hfr.
  pose proof (partition_erase_flash_ok od off 4096 (o_flash s) Hf) as Hok.
  destruct s as [fa ea la ha ba wa]. cbn [set_o_flash o_flash s_ota_ops_entries] in *. split_and!; [done|done|].
  right. by exists od.
Qed.

Lemma unprotect_spec p o s :
  o_flash (unprotect p o s) = o_flash s /\ s_ota_ops_entries (unprotect p o s) = s_ota_ops_entries s.
Proof.
  destruct s as [f ef l h b w]. unfold unprotect. by destruct (type p =? ESP_PARTITION_TYPE_BOOTLOADER), (type p =? ESP_PARTITION_TYPE_PARTITION_TABLE).
Qed.

(** The entry that [esp_ota_begin] leaves at the head of the list. *)
Definition fresh_entry (h : Z) (p : esp_partition_t) (seqw : bool) : ota_ops_entry_t :=
  MkEntry h p p false seqw 0 0 false (replicate 16 0).

Lemma fresh_cached h p b : cached (fresh_entry h p b) [].
Proof. constructor; try done; cbn; try lia. by repeat (apply Forall_cons; split; [done|]). Qed.

(** What is erased beforehand for an image of [sz] bytes. *)
Definition erased_length (p : esp_partition_t) (sz : Z) : Z :=
  if (sz =? 0) || (sz =? OTA_SIZE_UNKNOWN) || (sz =? OTA_WITH_SEQUENTIAL_WRITES) then size p else (sz + 4095) / 4096 * 4096.

(** The argument [image_size]: unknown, or a number whose last sector does not
    wrap around. *)
Definition size_ok (sz : Z) : Prop :=
  sz = 0 \/ sz = OTA_SIZE_UNKNOWN \/ sz = OTA_WITH_SEQUENTIAL_WRITES \/ 0 < sz <= 2 ^ 32 - 4096.

Lemma align_sector sz : 0 < sz <= 2 ^ 32 - 4096 -> ALIGN_UP sz 4096 = (sz + 4095) / 4096 * 4096.
Proof.
  intros Hs. unfold ALIGN_UP. rewrite u32_id by lia. change (u32 (Z.lnot (4096 - 1))) with (Z.shiftl (Z.ones 20) 12).
  change (4096 - 1) with 4095. set (x := sz + 4095).
  assert (0 <= x < 2 ^ 32) as Hx by lia. clearbody x. change 4096 with (2 ^ 12).
  rewrite <- Z.shiftr_div_pow2, <- Z.shiftl_mul_pow2 by lia. apply Z.bits_inj'. intros i Hi.
  rewrite Z.land_spec, !Z.shiftl_spec by done. destruct (Z.ltb_spec i 12).
  - rewrite !(Z.testbit_neg_r _ (i - 12)) by lia. by rewrite andb_false_r.
  - rewrite Z.shiftr_spec by lia. replace (i - 12 + 12) with i by lia. destruct (Z.ltb_spec i 32).
    + rewrite Z.ones_spec_low by lia. apply andb_true_r.
    + rewrite Z.ones_spec_high, andb_false_r by lia. symmetry. apply (Z.bits_above_log2 x i); [lia|].
      destruct (decide (x = 0)) as [->|]; [cbn; lia|]. apply Z.log2_lt_pow2; [lia|]. apply (Z.lt_le_trans _ (2 ^ 32)); [lia|apply Z.pow_le_mono_r; lia].
Qed.

(** The erasing step: the whole partition, the sectors of the image, or
    nothing yet. *)
Lemma begin_erases p sz f f' h :
  p ∈ parts -> flash_ok f -> size_ok sz -> begin_erase p sz f = (ESP_OK, f') ->
  erased_length p sz <= size p /\
  exists lim, written enc p (erased_length p sz) (fresh_entry h p (sz =? OTA_WITH_SEQUENTIAL_WRITES)) f' [] [] lim.
Proof.
  intros Hp Hf Hsz E. destruct (part_facts p Hp) as (He & Hs & Hsp). unfold begin_erase in E.
  destruct (Z.eqb_spec sz OTA_WITH_SEQUENTIAL_WRITES) as [->|Hne]; cbn [negb] in E.
  - injection E as <-. split; [by change (erased_length p OTA_WITH_SEQUENTIAL_WRITES) with (size p)|].
    exists 0. constructor; try done; [apply fresh_cached| |cbn; lia]. intros x Hx. cbn in Hx. lia.
  - assert ((if (sz =? 0) || (sz =? OTA_SIZE_UNKNOWN) then size p else ALIGN_UP sz (erase_size p)) = erased_length p sz) as Ee.
    { unfold erased_length. rewrite (proj2 (Z.eqb_neq _ _) Hne), orb_false_r, He. destruct Hsz as [->|[-> |[->|Hk]]]; [done..|].
      destruct ((sz =? 0) || _); [done|by apply align_sector]. }
    rewrite Ee in E. pose proof (partition_erase_flash_ok p 0 (erased_length p sz) f Hf) as Hok. rewrite E in Hok. cbn [snd] in Hok.
    apply partition_erase_ok in E as (_ & _ & Hle & _ & _ & Ec); [|done|lia|apply Hf]. split; [lia|].
    exists (erased_length p sz). constructor; try done; [apply fresh_cached| |cbn; lia].
    intros x Hx. rewrite Ec. apply erased_inside. cbn in Hx. lia.
Qed.

(** An operation on a data partition does not touch an app partition. *)
Lemma written_elsewhere p q er it f f' body tail lim :
  written enc p er it f body tail lim -> flash_ok f' -> apart p q -> lim <= size p -> changes_only q (cells f) (cells f') ->
  written enc p er it f' body tail lim.
Proof.
  intros [Hf Hst Hw Hca Hbb Hs Hbl Hfit Hlim Hblk] Hf' Hap Hle Hch. unfold apart in Hap. constructor; try done.
  - apply (stored_ext (cells f)); [done|]. intros x Hx. apply Hch. lia.
  - intros x Hx. rewrite Hch by lia. by apply Hbl.
Qed.

Lemma fresh_lim p er h b f lim : written enc p er (fresh_entry h p b) f [] [] lim -> er <= size p -> 0 <= size p -> lim <= size p.
Proof. intros [_ _ _ _ _ _ _ _ Hlim _] He Hs. cbn in Hlim. destruct b; lia. Qed.

Lemma begin_ok q sz s s1 h :
  type q <> ESP_PARTITION_TYPE_ANY -> flash_ok (o_flash s) ->
  size_ok sz ->
  esp_ota_begin parts rb true phys_offs (Some q) sz true s = Some (ESP_OK, Some h, s1) ->
  exists p lim, p ∈ parts /\ address p = address q /\ size p = size q /\ type p = type q /\
    get_ota_ops_entry h s1 = Some (fresh_entry h p (sz =? OTA_WITH_SEQUENTIAL_WRITES)) /\
    written enc p (erased_length p sz) (fresh_entry h p (sz =? OTA_WITH_SEQUENTIAL_WRITES)) (o_flash s1) [] [] lim.
Proof.
  intros Hty Hf Hsz E. unfold esp_ota_begin in E.
  destruct (esp_partition_verify parts q) as [p|] eqn:Ev; [|done]. apply verify_some in Ev as (Hp & Ha & Hs & _ & Ht); [|done].
  destruct (begin_refused parts rb true phys_offs p (o_flash s)) as [[err|]|]; [simplify_eq| |done].
  destruct s as [f ef l lh b w]. cbn [esp_ota_init_entry negb s_ota_ops_last_handle o_flash] in *.
  set (hh := u32 (lh + 1)) in *.
  set (fe := fresh_entry hh p (sz =? OTA_WITH_SEQUENTIAL_WRITES)).
  assert (put_entry (with_flags (sz =? OTA_WITH_SEQUENTIAL_WRITES) false 0 (MkEntry hh p p false false 0 0 false (replicate 16 0)))
            (MkOta f ef (MkEntry hh p p false false 0 0 false (replicate 16 0) :: l) hh b w) = MkOta f ef (fe :: l) hh b w) as Ep.
  { unfold put_entry. cbn [set_entries s_ota_ops_entries update_entry handle with_flags]. by rewrite Z.eqb_refl. }
  rewrite Ep in E. destruct (unprotect_spec p (address p) (MkOta f ef (fe :: l) hh b w)) as [Ef El].
  destruct (unprotect p (address p) (MkOta f ef (fe :: l) hh b w)) as [f2 ef2 l2 h2 b2 w2].
  cbn [o_flash s_ota_ops_entries] in Ef, El. subst f2 l2. unfold with_flash in E. cbn [o_flash set_o_flash] in E.
  destruct (begin_erase p sz f) as [err f3] eqn:Er. cbn [fst snd] in E.
  destruct (Z.eqb_spec err ESP_OK) as [->|]; cbn [negb] in E; [|congruence].
  destruct (begin_erases p sz f f3 hh Hp Hf Hsz Er) as [Hle [lim Hwr]]. fold fe in Hwr.
  assert (get_ota_ops_entry hh (MkOta f3 ef2 (fe :: l) h2 b2 w2) = Some fe) as Hg.
  { unfold get_ota_ops_entry. cbn [s_ota_ops_entries]. by rewrite filter_cons, decide_True. }
  exists p, lim. destruct (rb && is_ota_partition p) eqn:Eo.
  - destruct (esp_ota_invalidate_inactive_ota_data_slot parts true phys_offs _) as [[r s4]|] eqn:Ei; [|done].
    apply invalidate_frame in Ei as (El4 & Hf4 & Hch); [|apply Hwr]. cbn [o_flash s_ota_ops_entries] in *.
    injection E as <- <-. split_and!; try done.
    + unfold get_ota_ops_entry. rewrite El4. exact Hg.
    + destruct Hch as [-> | (od & Hod & Hdt & Hch)]; [done|].
      apply (written_elsewhere p od _ _ f3); [done|done| |eapply fresh_lim; [done|done|by apply part_facts]|done].
      apply (layout_apart _ _ _ _ Hl Hp Hod). intros ->. apply andb_true_iff in Eo as [_ Eo]. unfold is_ota_partition in Eo.
      by rewrite Hdt in Eo.
  - injection E as <- <-. by split_and!.
Qed.

(** The end of the update flushes the buffer. *)
Lemma end_ok p er total it f body tail lim mm pb cs image_ok md5 h s s' :
  get_ota_ops_entry h s = Some it -> o_flash s = f -> written enc p er it f body tail lim -> (need_erase it = true -> tail = []) ->
  (enc = false -> tail = []) -> finalize_with_copy it = false -> 0 <= size p < 2 ^ 31 -> addressable p ->
  (forall n, n <= (total + 15) / 16 * 16 -> n <= size p -> n <= er) -> (need_erase it = false -> len body + len tail <= total) ->
  esp_ota_end true pb cs image_ok md5 mm h s = Some (ESP_OK, s') ->
  stored (cells (o_flash s')) (address p) (body ++ tail) /\ ota_verify_partition true cs image_ok md5 it (o_flash s') = ESP_OK.
Proof.
  intros Hg <- Hwr Hplain Hpl2 Hnc Hs Hsp Hfits Htot E. unfold esp_ota_end in E. rewrite Hg in E.
  destruct (Hwr) as [Hf Hst Hw Hca Hbb Hsto Hbl Hfit Hlim Hblk].
  destruct (finish_entry true cs image_ok md5 mm it (o_flash s)) as [[ret f1]|] eqn:Ef; [|done].
  assert (ret = ESP_OK /\ o_flash s' = f1) as [-> Eo].
  { destruct s as [f ef l lh b w]. cbn [set_o_flash] in E. destruct (type (final it) =? ESP_PARTITION_TYPE_BOOTLOADER); by simplify_eq. }
  rewrite Eo. clear E Eo. unfold finish_entry in Ef. rewrite Hst, Hnc in Ef.
  destruct (wrote_size it =? 0); [done|].
  destruct (Z.gtb_spec (partial_bytes it) 0) as [Hp|Hp].
  - destruct Hca as [Hn Hsm Hbu Htk Hby]. rewrite Hw in Ef.
    destruct (esp_partition_write p (len body) (partial_data it) (o_flash s)) as [r f2] eqn:Ew.
    destruct (Z.eqb_spec r ESP_OK) as [->|]; cbn [negb] in Ef; [|discriminate Ef].
    destruct (Z.eqb_spec (ota_verify_partition true cs image_ok md5 it f2) ESP_OK) as [Ev|]; cbn [negb] in Ef; [|congruence].
    injection Ef as _ ->. assert (need_erase it = false) as Hne
      by (apply not_true_iff_false; intros Hn1; rewrite (Hplain Hn1) in Hn; cbn in Hn; lia).
    rewrite Hne in Hlim. subst lim. split; [|done].
    destruct (write_append p body (partial_data it) er (o_flash s) f1 Hsp Hf Hby Hsto Hbl) as (_ & Hs' & _); [|done|].
    { intros H. apply Hfits; [|done]. specialize (Htot Hne). rewrite Hbu in H |- *. assert (enc = true) as He.
      { destruct enc; [done|]. rewrite (Hpl2 eq_refl) in Hn. cbn in Hn. lia. }
      specialize (Hblk He). Z.div_mod_to_equations; lia. }
    unfold stored in Hs' |- *. rewrite <- (take_drop (length tail) (partial_data it)), Htk, app_assoc, (length_app (body ++ tail)) in Hs'.
    rewrite Nat2Z.inj_add, load_bytes_app in Hs' by lia. apply app_inj_1 in Hs' as [Hs' _]; [done|]. rewrite length_load_bytes. lia.
  - change (negb (ESP_OK =? ESP_OK)) with false in Ef. cbn iota in Ef.
    destruct (Z.eqb_spec (ota_verify_partition true cs image_ok md5 it (o_flash s)) ESP_OK) as [Ev|]; cbn [negb] in Ef; [|congruence].
    injection Ef as _ <-. assert (tail = []) as -> by (destruct Hca as [Hn _ _ _ _]; destruct tail; [done|cbn in Hn; lia]).
    by rewrite app_nil_r.
Qed.

(** C13. However an image is cut into calls of [esp_ota_write], when every call
    from [esp_ota_begin] to [esp_ota_end] reports success the partition holds
    the concatenation of the pieces, starting at its first byte, and for an
    application the image there has been verified: with the partition erased
    beforehand, or only the sectors of an image of known size that is not
    exceeded, with or without flash encryption (and its 16-byte blocks), and
    with sequential erasing on a chip without encryption.  This holds whatever
    else the flash contained and whatever the outcomes of its operations.
    (With sequential erasing and encryption it does not:
    [sequential_encrypted_gap].) *)
Theorem ota_image_stored (q : esp_partition_t) (sz h : Z) (ds : list (list Z)) (s s1 s2 s3 : ota)
    (mm : mmap_answers) (pb cs : Z) (image_ok : mem -> esp_partition_pos_t -> bool) (md5 : list Z -> list Z) :
  type q <> ESP_PARTITION_TYPE_ANY -> flash_ok (o_flash s) ->
  sz = 0 \/ sz = OTA_SIZE_UNKNOWN \/ (sz = OTA_WITH_SEQUENTIAL_WRITES /\ enc = false) \/
    (0 < sz <= 2 ^ 32 - 4096 /\ len (concat ds) <= sz) ->
  Forall (fun d => Forall is_byte d /\ len d < 2 ^ 31) ds ->
  esp_ota_begin parts rb true phys_offs (Some q) sz true s = Some (ESP_OK, Some h, s1) ->
  ota_writes enc h ds s1 = Some s2 ->
  esp_ota_end true pb cs image_ok md5 mm h s2 = Some (ESP_OK, s3) ->
  load_bytes (cells (o_flash s3)) (address q) (len (concat ds)) = concat ds /\
  (type q = ESP_PARTITION_TYPE_APP -> image_ok (cells (o_flash s3)) (MkPos (address q) (size q)) = true).
Proof.
  intros Hty Hf Hsz Hds Eb Ew Ee.
  destruct (begin_ok q sz s s1 h Hty Hf) as (p & lim & Hp & Ha & Hs & Ht & Hg & Hwr); [unfold size_ok; tauto|done|].
  destruct (part_facts p Hp) as (He & Hsp & Had). set (fe := fresh_entry _ _ _) in *. set (er := erased_length p sz) in *.
  set (total := len (concat ds)) in *.
  assert (forall n, n <= (total + 15) / 16 * 16 -> n <= size p -> n <= er) as Hfits.
  { intros n Hn Hn'. subst er. unfold erased_length. destruct (_ || _) eqn:Ez; [done|].
    rewrite !orb_false_iff, !Z.eqb_neq in Ez. destruct Hsz as [->|[->|[[-> _]|Hk]]]; [tauto..|]. Z.div_mod_to_equations; lia. }
  assert (enc = true -> need_erase fe = false) as Hcomb.
  { intros Henc. apply Z.eqb_neq. intros ->. destruct Hsz as [H|[H|[[_ H]|[H _]]]]; [done|done|congruence|].
    unfold OTA_WITH_SEQUENTIAL_WRITES in H. lia. }
  destruct (ota_writes_ok enc p He Hsp Had er total Hfits h ds s1 s2 fe [] [] lim Hcomb) as (it & body & tail & lim' & Hg2 & Hd & Hwr2 & Hpl & Hst & _); try done.
  cbn [app] in Hd. destruct Hst as (_ & Hst & Hfi & Hnc & Hne).
  assert (need_erase it = true -> tail = []) as Hpl'.
  { intros H. apply Hpl. destruct enc; [|done]. by rewrite Hne, (Hcomb eq_refl) in H. }
  destruct (end_ok p er total it (o_flash s2) body tail lim' mm pb cs image_ok md5 h s2 s3) as [Hsto Hver]; try done.
  { intros _. rewrite <- Nat2Z.inj_add, <- length_app, Hd. done. }
  rewrite Hd in Hsto. rewrite <- Ha. split; [exact Hsto|]. intros Happ.
  unfold ota_verify_partition in Hver. rewrite Hfi, Hst in Hver. cbn [final staging fe fresh_entry] in Hver.
  rewrite Ht, Happ in Hver. change (_ || _) with true in Hver. cbn iota in Hver. unfold part_pos in Hver. rewrite <- Hs.
  by destruct (image_ok _ _).
Qed.
End image.

(** ** Copying a partition *)

Definition pages_ok (pages : Z) : Prop := 0 < pages < 65536.

Lemma chunk_positive pages m : pages_ok pages -> 0 < m -> 0 < Z.min m (u32 (pages * MMU_PAGE_SIZE)) <= m.
Proof. intros Hp Hm. unfold pages_ok, MMU_PAGE_SIZE in *. rewrite u32_id by lia. lia. Qed.

Lemma map_source_cases src o n maps pages error free maps' :
  map_source src o n maps pages = (error, free, maps') -> o <= size src -> o + n <= size src ->
  pages_ok pages -> Forall (fun a => pages_ok a.2) maps ->
  pages_ok free /\ Forall (fun a => pages_ok a.2) maps' /\ (length maps' <= length maps)%nat /\
  (error <> ESP_OK -> (length maps' < length maps)%nat).
Proof.
  unfold map_source. intros E H1 H2 Hp Hm. rewrite (proj2 (check_range_ok src o n)) in E by lia. cbn [negb Z.eqb ESP_OK] in E.
  destruct Hm as [|[e pg] maps He Hm]; cbn in E; injection E as <- <- <-; [by split_and!|]. cbn. split_and!; [done|done|lia|lia].
Qed.

(** The fuel of the loop is enough: an iteration copies something or uses up
    an answer. *)
Lemma copy_loop_ends n maps pages attempts dest d src o m f :
  pages_ok pages -> Forall (fun a => pages_ok a.2) maps -> 0 <= o -> o + m <= size src -> (Z.to_nat m + length maps <= n)%nat ->
  is_Some (copy_loop n maps pages attempts dest d src o m f).
Proof.
  revert maps pages attempts d o m f. induction n as [|n IH]; intros maps pages attempts d o m f Hp Hmaps Ho Hm Hn; cbn [copy_loop];
    destruct (Z.leb_spec m 0); [done|lia|done|]. pose proof (chunk_positive pages m Hp ltac:(lia)) as Hc. set (c := Z.min m _) in *.
  destruct (map_source src o c maps pages) as [[error free] maps'] eqn:Em.
  destruct (map_source_cases _ _ _ _ _ _ _ _ Em ltac:(lia) ltac:(lia) Hp Hmaps) as (Hf & Hmaps' & Hle & Hlt).
  destruct (Z.eqb_spec error ESP_OK).
  - destruct (esp_partition_write _ _ _ _) as [err f1]. destruct (negb _); [done|]. apply IH; (done || lia).
  - specialize (Hlt n0). destruct (_ >=? 3); [done|]. apply IH; (done || lia).
Qed.

(** [esp_partition_copy] returns, whatever the mappings and the flash answer,
    if there are always free pages. *)
Theorem partition_copy_ends mm dest d src o n f :
  pages_ok (mmap_free_pages mm) -> Forall (fun a => pages_ok a.2) (mmap_calls mm) -> 0 <= o -> 0 <= d -> 0 <= n <= UINT32_MAX ->
  exists err f', esp_partition_copy mm dest d src o n f = Some (err, f').
Proof.
  intros Hp Hm Ho Hd Hn. unfold esp_partition_copy. destruct (bool_decide _); [by eexists _, _|].
  destruct (_ || _) eqn:Er; [by eexists _, _|]. apply orb_false_iff in Er as [Er1 Er2].
  destruct (if n =? UINT32_MAX then _ else _) as [n1 n2]. destruct (_ || _) eqn:Eo; [by eexists _, _|].
  rewrite !orb_false_iff in Eo. rewrite Z.gtb_ltb, Z.ltb_ge in Er1, Er2. rewrite !Z.gtb_ltb, !Z.ltb_ge in Eo.
  destruct (esp_partition_erase_range _ _ _ f) as [err f1]. destruct (negb _); [by eexists _, _|].
  destruct (copy_loop_ends (Z.to_nat n1 + length (mmap_calls mm)) (mmap_calls mm) (mmap_free_pages mm) 0 dest d src o n1 f1) as [[r f2] E];
    [done|done|lia|lia|lia|rewrite E; by eexists _, _].
Qed.

Lemma load_bytes_ok m a n : mem_ok m -> Forall is_byte (load_bytes m a n).
Proof. intros Hm. unfold load_bytes. apply Forall_fmap, Forall_forall. intros i _. apply Hm. Qed.

Lemma copy_loop_copies n maps pages attempts dest d src o m f f' :
  addressable dest -> addressable src -> apart dest src -> flash_ok f -> 0 <= d -> 0 <= o -> o + m <= size src -> d + m <= size dest ->
  blank_at (cells f) (address dest + d) (address dest + d + m) ->
  copy_loop n maps pages attempts dest d src o m f = Some (ESP_OK, f') ->
  load_bytes (cells f') (address dest + d) m = load_bytes (cells f) (address src + o) m /\
  same_outside (address dest + d) m (cells f) (cells f').
Proof.
  intros Hdest Hsrc Hap. revert maps pages attempts d o m f. induction n as [|n IH]; intros maps pages attempts d o m f Hf Hd Ho Hos Hds Hbl E;
    cbn [copy_loop] in E; destruct (Z.leb_spec m 0) as [Hm|Hm];
    try (injection E as <-; by rewrite !load_bytes_0 by lia); [done|].
  set (c := Z.min m (u32 (pages * MMU_PAGE_SIZE))) in E. assert (0 <= c <= m) as Hc.
  { pose proof (Z.mod_pos_bound (pages * MMU_PAGE_SIZE) (2 ^ 32) ltac:(lia)) as Hu. change (_ mod _) with (u32 (pages * MMU_PAGE_SIZE)) in Hu. lia. }
  destruct (map_source src o c maps pages) as [[error free] maps'] eqn:Em.
  destruct (Z.eqb_spec error ESP_OK) as [->|].
  - rewrite addressable_sum in E by (done || lia). set (bs := load_bytes (cells f) (address src + o) c) in *.
    assert (Z.of_nat (length bs) = c) as Hl by (unfold bs; rewrite length_load_bytes; lia).
    pose proof (partition_write_outcomes dest d bs f (fo_outcomes _ Hf)) as Hou.
    destruct (esp_partition_write dest d bs f) as [err f1] eqn:Ew. cbn [snd] in Hou.
    destruct (Z.eqb_spec err ESP_OK) as [->|]; cbn [negb] in E; [|congruence].
    apply partition_write_ok in Ew as (_ & _ & _ & Ec); [|done|lia|apply Hf].
    assert (flash_ok f1) as Hf1 by (split; [rewrite Ec; apply program_mem_ok; [apply Hf|apply load_bytes_ok, Hf]|done]).
    apply IH in E as [E1 E2]; [|done|lia..|].
    + split.
      * replace m with (c + (m - c)) by lia. rewrite !load_bytes_app by lia. rewrite <- !Z.add_assoc in *. rewrite E1. f_equal.
        -- fold bs. rewrite <- Hl at 1. rewrite <- (program_blank (cells f) (address dest + d) bs) at 2.
           ++ apply load_bytes_ext. intros x Hx. rewrite E2 by lia. by rewrite Ec.
           ++ intros x Hx. apply Hbl. lia.
           ++ apply load_bytes_ok, Hf.
        -- apply load_bytes_ext. intros x Hx. rewrite Ec. apply program_other. unfold apart in Hap. lia.
      * intros x Hx. rewrite E2 by lia. rewrite Ec. apply program_other. lia.
    + intros x Hx. rewrite Ec, program_other by lia. apply Hbl. lia.
  - destruct (_ >=? 3); [congruence|]. by eapply IH.
Qed.

(** A copy that reports success is one: however the source could be mapped,
    and whatever the flash operations answered. *)
Theorem partition_copy_copies mm dest d src o n f f' :
  addressable dest -> addressable src -> apart dest src -> size dest < 2 ^ 31 -> flash_ok f -> 0 <= d -> 0 <= o -> 0 < n < UINT32_MAX ->
  esp_partition_copy mm dest d src o n f = Some (ESP_OK, f') ->
  load_bytes (cells f') (address dest + d) n = load_bytes (cells f) (address src + o) n /\ changes_only dest (cells f) (cells f').
Proof.
  intros Hdest Hsrc Hap Hsz Hf Hd Ho Hn E. unfold esp_partition_copy in E. destruct (bool_decide _); [done|].
  destruct (_ || _) eqn:Er in E; [done|]. apply orb_false_iff in Er as [Er1 Er2]. rewrite Z.gtb_ltb, Z.ltb_ge in Er1, Er2.
  rewrite (proj2 (Z.eqb_neq n UINT32_MAX)) in E by lia. destruct (_ || _) eqn:Eo in E; [done|].
  rewrite !orb_false_iff in Eo. rewrite !Z.gtb_ltb, !Z.ltb_ge in Eo. unfold SPI_FLASH_SEC_SIZE in E. rewrite align_sector in E by lia.
  set (l := (n + 4095) / 4096 * 4096) in *. assert (n <= l) as Hl by (subst l; Z.div_mod_to_equations; lia). clearbody l.
  pose proof (partition_erase_flash_ok dest d l f Hf) as Hf1. pose proof (partition_erase_frame dest d l f Hdest Hd) as Hfr.
  destruct (esp_partition_erase_range dest d l f) as [err f1] eqn:Ee. cbn [snd] in Hf1, Hfr.
  destruct (Z.eqb_spec err ESP_OK) as [->|]; cbn [negb] in E; [|congruence].
  apply partition_erase_ok in Ee as (_ & _ & Hle & _ & _ & Ec); [|done|done|apply Hf].
  apply copy_loop_copies in E as [E1 E2]; [|done|done|done|done|done|done|lia|lia|].
  - split.
    + rewrite E1. apply load_bytes_ext. intros x Hx. apply Hfr. unfold apart in Hap. lia.
    + eapply same_outside_trans; [exact Hfr|]. eapply same_outside_weaken; [exact E2|lia..].
  - intros x Hx. rewrite Ec. apply erased_inside. lia.
Qed.

(** ** Examples *)

Lemma ex_layout : layout_ok 0x400000 ex_parts.
Proof. repeat constructor; cbn; lia. Qed.

Definition ex_begin (m : mem) : ota :=
  match esp_ota_begin ex_parts false true 0x10000 (Some (ex_slot 1)) 25 true (ex_state (MkFlash m [])) with
  | Some (_, _, s) => s
  | None => ex_state (MkFlash m [])
  end.
Definition ex_written (m : mem) : ota :=
  match ota_writes true 1 [[0xE9; 1; 2]; [3; 4]; replicate 20 5] (ex_begin m) with Some s => s | None => ex_begin m end.
Definition ex_maps : mmap_answers := MkMmap 1 [].
Definition ex_end (m : mem) := esp_ota_end true 0x1000 0x400000 (fun _ _ => true) (fun _ => []) ex_maps 1 (ex_written m).
Definition ex_done (m : mem) : ota := match ex_end m with Some (_, s) => s | None => ex_written m end.

Lemma ota_image_stored_witness :
  load_bytes (cells (o_flash (ex_done (fun _ => 0)))) 0x110000 25 = [0xE9; 1; 2; 3; 4] ++ replicate 20 5.
Proof.
  refine (proj1 (ota_image_stored ex_parts 0x400000 false true 0x10000 ex_layout _ _ (ex_slot 1) 25 1
    [[0xE9; 1; 2]; [3; 4]; replicate 20 5] (ex_state (MkFlash (fun _ => 0) [])) (ex_begin (fun _ => 0)) (ex_written (fun _ => 0))
    (ex_done (fun _ => 0)) ex_maps 0x1000 0x400000 (fun _ _ => true) (fun _ => []) _ _ _ _ _ _ _)).
  - lia.
  - by repeat (apply Forall_cons; split; [done|]).
  - done.
  - split; [intros x; vm_compute; split; congruence|by apply Forall_nil].
  - right; right; right. vm_compute. split; [split; congruence|congruence].
  - by repeat (apply Forall_cons; split; [split; [by repeat (apply Forall_cons; split; [done|])|done]|]).
  - assert (fst <$> esp_ota_begin ex_parts false true 0x10000 (Some (ex_slot 1)) 25 true (ex_state (MkFlash (fun _ => 0) [])) =
            Some (ESP_OK, Some 1)) as E by (vm_compute; reflexivity).
    unfold ex_begin. destruct (esp_ota_begin _ _ _ _ _ _ _ _) as [[r s1]|]; [|discriminate E]. cbn in E. injection E as ->. reflexivity.
  - assert (is_Some (ota_writes true 1 [[0xE9; 1; 2]; [3; 4]; replicate 20 5] (ex_begin (fun _ => 0)))) as [s2 E]
      by (apply not_eq_None_Some; intros E; apply (f_equal (fun o => match o with Some _ => true | None => false end)) in E; vm_compute in E; discriminate E).
    unfold ex_written. rewrite E. reflexivity.
  - assert (fst <$> ex_end (fun _ => 0) = Some ESP_OK) as E by (vm_compute; reflexivity).
    unfold ex_done. change (esp_ota_end _ _ _ _ _ _ _ _) with (ex_end (fun _ => 0)).
    destruct (ex_end (fun _ => 0)) as [[r s3]|]; [|discriminate E]. cbn in E. injection E as ->. reflexivity.
Defined.

(** With flash encryption and sequential erasing the end of an image can be
    lost.  After 4092 bytes, 4080 are in flash and 12 are kept; a last call
    with 8 bytes completes the block that ends the first sector and keeps 4
    bytes for the second one, which is not erased because only the 8 bytes
    after offset 4080 are looked at; [esp_ota_end] writes them over what was
    there and reports success. *)
Theorem sequential_encrypted_gap :
  (let? (e1, h, s1) := esp_ota_begin ex_parts false true 0x10000 (Some (ex_slot 1)) OTA_WITH_SEQUENTIAL_WRITES true
                         (ex_state (MkFlash (fun _ => 0) [])) in
   let? h := h in
   let? s2 := ota_writes true h [0xE9 :: replicate 4091 1; replicate 8 2] s1 in
   let? (e3, s3) := esp_ota_end true 0x1000 0x400000 (fun _ _ => true) (fun _ => []) ex_maps h s2 in
   Some (e1, e3, load_bytes (cells (o_flash s3)) (address (ex_slot 1) + 4092) 8))
  = Some (ESP_OK, ESP_OK, [2; 2; 2; 2; 0; 0; 0; 0]).
Proof. vm_compute. reflexivity. Qed.
