(* ===== verification/OtaSafe.v ===== *)
(** * The running application is not touched

    Sequences of calls of the update interface, in any order and with any
    outcome of the flash operations.  The invariant on the list of handles is
    that no handle writes to the running partition. *)

From S2P Require Import Prelude EspErr Crc Flash FlashProps PartTable OtaData Boot BootProps Ota OtaProps OtaWrite.

#[local] Opaque esp_rom_crc32_le.

(** A partition keeps its contents. *)
Definition keeps (r : esp_partition_t) (f f' : flash) : Prop := forall x, in_part r x -> cells f' x = cells f x.

Lemma keeps_same r f : keeps r f f.
Proof. done. Qed.

Lemma keeps_trans r f1 f2 f3 : keeps r f1 f2 -> keeps r f2 f3 -> keeps r f1 f3.
Proof. intros H1 H2 x Hx. rewrite H2, H1; done. Qed.

Lemma keeps_apart p r f f' : apart p r -> changes_only p (cells f) (cells f') -> keeps r f f'.
Proof. unfold apart, keeps, in_part. intros Ha Hc x Hx. apply Hc. lia. Qed.

(** ** Calls *)

Inductive ota_call :=
  | Begin (q : option esp_partition_t) (image_size : Z) (calloc_ok : bool)
  | Resume (q : option esp_partition_t) (erase_sz image_offset : Z) (calloc_ok : bool)
  | SetFinal (h : Z) (q : option esp_partition_t) (copy : bool)
  | Write (h : Z) (data : list Z)
  | WriteWithOffset (h : Z) (data : list Z) (offset : Z)
  | End (mm : mmap_answers) (h : Z)
  | Cancel (h : Z)
  | SetBoot (q : option esp_partition_t)
  | MarkValid
  | MarkInvalid
  | EraseLastBoot
  | InvalidateSlot.

Section calls.
Context (parts : list esp_partition_t) (chip_size : Z).
Context (rb ar enc mapped plain : bool) (efuse_size phys_offs pb : Z).
Context (image_ok : mem -> esp_partition_pos_t -> bool) (md5 : list Z -> list Z).

Definition state_of {A} (r : option (A * ota)) : option ota := snd <$> r.

(** The state after a call; [None] is a failed assertion. *)
Definition run_call (c : ota_call) (s : ota) : option ota :=
  match c with
  | Begin q n ok => state_of (esp_ota_begin parts rb mapped phys_offs q n ok s)
  | Resume q n o ok => state_of (esp_ota_resume parts phys_offs q n o ok s)
  | SetFinal h q copy => Some (esp_ota_set_final_partition parts h q copy s).2
  | Write h data => Some (esp_ota_write enc h data s).2
  | WriteWithOffset h data o => state_of (esp_ota_write_with_offset enc h data o s)
  | End mm h => state_of (esp_ota_end mapped pb chip_size image_ok md5 mm h s)
  | Cancel h => Some (esp_ota_abort h s).2
  | SetBoot q => state_of (esp_ota_set_boot_partition parts rb ar mapped efuse_size image_ok q s)
  | MarkValid => state_of (esp_ota_mark_app_valid_cancel_rollback parts ar mapped plain efuse_size phys_offs image_ok s)
  | MarkInvalid => state_of (esp_ota_mark_app_invalid_rollback parts ar mapped plain efuse_size phys_offs image_ok s)
  | EraseLastBoot => state_of (esp_ota_erase_last_boot_app_partition parts mapped phys_offs s)
  | InvalidateSlot => state_of (esp_ota_invalidate_inactive_ota_data_slot parts mapped phys_offs s)
  end.

Fixpoint run_calls (cs : list ota_call) (s : ota) : option ota :=
  match cs with [] => Some s | c :: cs => let? s := run_call c s in run_calls cs s end.

(** ** Flash operations on other partitions *)

Context (r : esp_partition_t).
Context (Hl : layout_ok chip_size parts) (Hchip : chip_size < 2 ^ 32) (Hes : Forall (fun p => 0 <= erase_size p) parts).
Context (Hr : esp_ota_get_running_partition parts phys_offs = Some r).

Lemma running_app : r ∈ parts /\ type r = ESP_PARTITION_TYPE_APP.
Proof.
  apply head_Some_elem_of, list_elem_of_filter in Hr as [[Ht _] Hp]. done.
Qed.

(** Another partition of the table. *)
Definition elsewhere (p : esp_partition_t) : Prop := p ∈ parts /\ p <> r.

Lemma elsewhere_apart p : elsewhere p -> apart p r.
Proof. intros [Hp Hne]. apply (layout_apart _ _ _ _ Hl Hp); [apply running_app|done]. Qed.

Lemma not_app_elsewhere p : p ∈ parts -> type p <> ESP_PARTITION_TYPE_APP -> elsewhere p.
Proof. intros Hp Ht. split; [done|]. intros ->. apply Ht, running_app. Qed.

Lemma elsewhere_space p : elsewhere p -> addressable p.
Proof. intros [Hp _]. destruct (layout_elem _ _ _ Hl Hp) as (? & ? & ?). split; lia. Qed.

Lemma write_keeps p o src f : elsewhere p -> 0 <= o -> keeps r f (esp_partition_write p o src f).2.
Proof. intros Hp Ho. apply (keeps_apart p); [by apply elsewhere_apart|]. apply partition_write_frame; [by apply elsewhere_space|done]. Qed.

Lemma erase_keeps p o n f : elsewhere p -> 0 <= o -> keeps r f (esp_partition_erase_range p o n f).2.
Proof. intros Hp Ho. apply (keeps_apart p); [by apply elsewhere_apart|]. apply partition_erase_frame; [by apply elsewhere_space|done]. Qed.

Lemma elsewhere_erase_size p : elsewhere p -> 0 <= erase_size p.
Proof. intros [Hp _]. rewrite Forall_forall in Hes. by apply Hes. Qed.

Lemma rewrite_keeps o seq i p f : elsewhere p -> 0 <= i -> keeps r f (rewrite_ota_seq o seq i p f).2.
Proof.
  intros Hp Hi. pose proof (elsewhere_erase_size p Hp) as He. unfold rewrite_ota_seq. destruct (i >? 1); [done|].
  pose proof (erase_keeps p (i * erase_size p) (erase_size p) f Hp ltac:(lia)) as H1.
  destruct (esp_partition_erase_range _ _ _ f) as [ret f1]. cbn [snd] in H1. destruct (negb _); [done|].
  eapply keeps_trans; [exact H1|]. apply write_keeps; [done|lia].
Qed.

Lemma otadata_elsewhere f od o : read_otadata parts mapped f = Some (od, o) -> elsewhere od.
Proof.
  unfold read_otadata. destruct (esp_partition_find_first _ _ _ _) as [p|] eqn:E; [|done].
  apply find_first_some in E as (Hp & Ht & _); [|done|done]. destruct (negb mapped); [done|].
  injection 1 as <- _. apply not_app_elsewhere; [done|]. by rewrite Ht.
Qed.

Lemma active_bounds o : -1 <= bootloader_common_get_active_otadata o <= 1.
Proof.
  unfold bootloader_common_get_active_otadata, bootloader_common_select_otadata. repeat case_match; lia.
Qed.

Lemma inactive_range i : 0 <= inactive i.
Proof. unfold inactive. apply Z.land_nonneg. lia. Qed.

Lemma rewrite_data_keeps st f x : esp_rewrite_ota_data parts rb mapped st f = Some x -> keeps r f x.2.
Proof.
  unfold esp_rewrite_ota_data. destruct (read_otadata _ _ f) as [[od o]|] eqn:Eo; [|by intros [= <-]].
  apply otadata_elsewhere in Eo. destruct (esp_ota_get_app_partition_count _) as [n|]; [|done].
  destruct (_ >=? n); [by intros [= <-]|]. destruct (negb _).
  - destruct (umod _ _); [|done]. destruct (next_seq _ _ _ _ _); [|done]. intros [= <-]. apply rewrite_keeps; [done|apply inactive_range].
  - intros [= <-]. by apply rewrite_keeps.
Qed.

(** ** The list of handles *)

Record entry_ok (e : ota_ops_entry_t) : Prop := {
  eo_staging : elsewhere (staging e);
  eo_final : final e ∈ parts;
  eo_copy : finalize_with_copy e = true -> final e <> r;
  eo_wrote : 0 <= wrote_size e
}.

Definition handles_ok (s : ota) : Prop := Forall entry_ok (s_ota_ops_entries s).

(** What every call guarantees. *)
Record safe (s s' : ota) : Prop := {
  safe_keeps : keeps r (o_flash s) (o_flash s');
  safe_handles : handles_ok s'
}.

Lemma safe_refl s : handles_ok s -> safe s s.
Proof. by split. Qed.

Lemma safe_trans s1 s2 s3 : safe s1 s2 -> safe s2 s3 -> safe s1 s3.
Proof. intros [K1 _] [K2 H]. split; [by eapply keeps_trans|done]. Qed.

Lemma safe_flash s x : handles_ok s -> keeps r (o_flash s) x.2 -> safe s (with_flash x s).2.
Proof. intros H K. destruct s. by split. Qed.

Lemma update_ok e l : Forall entry_ok l -> entry_ok e -> Forall entry_ok (update_entry e l).
Proof. intros Hall He. induction Hall as [|x l Hx Hall IH]; cbn; [done|]. destruct (_ =? _); by constructor. Qed.

Lemma remove_ok h l : Forall entry_ok l -> Forall entry_ok (remove_entry h l).
Proof. intros Hall. induction Hall as [|x l Hx Hall IH]; cbn; [done|]. destruct (_ =? _); [done|by constructor]. Qed.

Lemma put_safe e s : handles_ok s -> entry_ok e -> safe s (put_entry e s).
Proof. intros H He. destruct s. split; [done|]. by apply update_ok. Qed.

Lemma get_ok h s it : handles_ok s -> get_ota_ops_entry h s = Some it -> entry_ok it.
Proof.
  unfold handles_ok, get_ota_ops_entry. rewrite Forall_forall. intros H E.
  apply head_Some_elem_of, list_elem_of_filter in E as [_ E]. by apply H.
Qed.

Lemma unprotect_safe p o s : handles_ok s -> safe s (unprotect p o s).
Proof.
  intros H. destruct s as [f ef l h b w]. unfold unprotect.
  by destruct (type p =? ESP_PARTITION_TYPE_BOOTLOADER), (type p =? ESP_PARTITION_TYPE_PARTITION_TABLE).
Qed.

(** ** Operations on the OTA data *)

Lemma erase_last_safe skip s x :
  handles_ok s -> erase_last_boot_app_partition parts mapped phys_offs skip s = Some x -> safe s x.2.
Proof.
  intros Hs. unfold erase_last_boot_app_partition.
  destruct (read_otadata _ _ _) as [[od o]|] eqn:Eo; [|intros [= <-]; by apply safe_refl]. apply otadata_elsewhere in Eo.
  destruct (esp_ota_get_app_partition_count _) as [n|]; [|done]. set (i := inactive _).
  destruct (_ || _); [intros [= <-]; by apply safe_refl|]. destruct (_ || _); [intros [= <-]; by apply safe_refl|].
  destruct (umod _ _) as [k|]; [|done].
  destruct (find_app parts _) as [last|] eqn:Ef; [|intros [= <-]; by apply safe_refl].
  unfold find_app in Ef. rewrite Hr.
  destruct (bool_decide_reflect (last = r)) as [|Hne]; [intros [= <-]; by apply safe_refl|].
  assert (0 <= i * erase_size od) as Hoff by (apply Z.mul_nonneg_nonneg; [apply inactive_range|by apply elsewhere_erase_size]).
  assert (forall s', safe s s' ->
    safe s (with_flash (esp_partition_erase_range od (i * erase_size od) (erase_size od) (o_flash s')) s').2) as Hlast.
  { intros s' [K H]. eapply safe_trans; [split; [exact K|exact H]|]. apply safe_flash; [done|]. by apply erase_keeps. }
  destruct skip; cbn iota.
  - intros [= <-]. apply Hlast. by apply safe_refl.
  - rewrite find_first_head in Ef by done. apply head_Some_elem_of in Ef. unfold selected in Ef. apply list_elem_of_filter in Ef as [_ Ef].
    assert (safe s (with_flash (esp_partition_erase_range last 0 (size last) (o_flash s)) s).2) as H1
      by (apply safe_flash; [done|]; by apply erase_keeps).
    destruct (with_flash _ _) as [err s1]. cbn [snd] in H1. destruct (negb _); intros [= <-]; [done|]. by apply Hlast.
Qed.

Lemma anti_rollback_safe s x :
  handles_ok s -> esp_ota_set_anti_rollback parts plain efuse_size phys_offs s = Some x -> safe s x.2.
Proof.
  intros Hs. unfold esp_ota_set_anti_rollback. rewrite Hr. destruct (esp_ota_get_partition_description _ _) as [err d].
  destruct (err =? ESP_OK); [|intros [= <-]; by apply safe_refl].
  destruct (esp_efuse_update_secure_version _ _ _ _) as [e v]. intros [= <-]. by destruct s.
Qed.

Lemma workable_safe valid s x :
  handles_ok s -> esp_ota_current_ota_is_workable parts ar mapped plain efuse_size phys_offs image_ok valid s = Some x -> safe s x.2.
Proof.
  intros Hs. unfold esp_ota_current_ota_is_workable.
  destruct (read_otadata _ _ _) as [[od o]|] eqn:Eo; [|intros [= <-]; by apply safe_refl]. apply otadata_elsewhere in Eo.
  pose proof (active_bounds o) as Ha. set (i := bootloader_common_get_active_otadata o) in *.
  destruct (i =? -1) eqn:Ei; [intros [= <-]; by apply safe_refl|].
  destruct (esp_ota_get_app_partition_count _) as [n|]; [|done].
  destruct (negb (n =? 0)); [|intros [= <-]; by apply safe_refl].
  assert (forall o' q, safe s (with_flash (rewrite_ota_seq o' q i od (o_flash s)) s).2) as Hw.
  { intros o' q. apply safe_flash; [done|]. apply rewrite_keeps; [done|lia]. }
  destruct (valid && _).
  - match goal with |- context [with_flash (rewrite_ota_seq ?o' ?q i od _) s] => specialize (Hw o' q) end.
    destruct (with_flash _ s) as [err s1]. cbn [snd] in Hw. destruct (ar && _).
    + intros E. eapply safe_trans; [exact Hw|]. eapply anti_rollback_safe; [apply Hw|done].
    + intros [= <-]. exact Hw.
  - destruct (negb valid); [|intros [= <-]; by apply safe_refl].
    destruct (esp_ota_check_rollback_is_possible _ _ _ _ _ _ _) as [b|]; [|done].
    destruct (negb b); intros [= <-]; [by apply safe_refl|apply Hw].
Qed.

(** With anti-rollback the chosen partition is erased when its version is too low. *)
Lemma set_boot_safe q s x :
  handles_ok s -> (forall p, q = Some p -> ar = true -> elsewhere p) ->
  esp_ota_set_boot_partition parts rb ar mapped efuse_size image_ok q s = Some x -> safe s x.2.
Proof.
  intros Hs Hq. unfold esp_ota_set_boot_partition. destruct q as [p|]; [|intros [= <-]; by apply safe_refl].
  specialize (Hq p eq_refl).
  destruct (negb _); [intros [= <-]; by apply safe_refl|]. destruct (type p =? ESP_PARTITION_TYPE_APP); [|intros [= <-]; by apply safe_refl].
  destruct (subtype p =? ESP_PARTITION_SUBTYPE_APP_FACTORY).
  - destruct (esp_partition_find_first _ _ _ _) as [od|] eqn:E; [|intros [= <-]; by apply safe_refl].
    apply find_first_some in E as (Hp & Ht & _); [|done|done]. intros [= <-]. apply safe_flash; [done|]. apply erase_keeps; [|done].
    apply not_app_elsewhere; [done|]. by rewrite Ht.
  - destruct (esp_ota_get_partition_description p _) as [err d].
    destruct (ar && _); [intros [= <-]; by apply safe_refl|]. destruct (ar && _) eqn:Ear.
    + apply andb_true_iff in Ear as [Ear _]. specialize (Hq Ear).
      assert (safe s (with_flash (esp_partition_erase_range p 0 (size p) (o_flash s)) s).2) as H1
        by (apply safe_flash; [done|]; by apply erase_keeps).
      destruct (with_flash _ s) as [err1 s1]. intros [= <-]. exact H1.
    + destruct (esp_rewrite_ota_data _ _ _ _ _) as [y|] eqn:E; [|done]. intros [= <-]. apply safe_flash; [done|].
      by eapply rewrite_data_keeps.
Qed.

(** ** Operations on handles *)

Lemma verify_elem p q : esp_partition_verify parts p = Some q -> q ∈ parts.
Proof.
  unfold esp_partition_verify. intros E. apply verify_loop_some in E as [Hv _].
  unfold esp_partition_find in Hv. destruct (_ && _); [by apply elem_of_nil in Hv|].
  rewrite visited_next in Hv by (cbn; lia). by apply list_elem_of_filter in Hv as [_ Hv].
Qed.


(** A new handle for another partition. *)
Lemma init_safe ok p s e s' w fl1 fl2 :
  handles_ok s -> elsewhere p -> 0 <= w -> esp_ota_init_entry ok p s = Some (e, s') ->
  handle e = handle (with_flags fl1 fl2 w e) /\ entry_ok (with_flags fl1 fl2 w e) /\ safe s s'.
Proof.
  intros Hs Hp Hw. unfold esp_ota_init_entry. destruct ok; [|done]. destruct s as [f ef l lh b wp]. cbn. intros [= <- <-].
  split_and!; [done| |].
  - constructor; cbn; try done. apply Hp.
  - split; [done|]. apply Forall_cons. split; [|done]. constructor; cbn; try done. apply Hp.
Qed.

Lemma begin_erase_keeps p n f : elsewhere p -> keeps r f (begin_erase p n f).2.
Proof. intros Hp. unfold begin_erase. destruct (negb _); [|done]. by apply erase_keeps. Qed.

Lemma begin_safe q n ok s x :
  handles_ok s -> esp_ota_begin parts rb mapped phys_offs q n ok s = Some x -> safe s x.2.
Proof.
  intros Hs. unfold esp_ota_begin. destruct q as [q|]; [|intros [= <-]; by apply safe_refl].
  destruct (esp_partition_verify parts q) as [p|] eqn:Ev; [|intros [= <-]; by apply safe_refl]. apply verify_elem in Ev.
  destruct (begin_refused parts rb mapped phys_offs p (o_flash s)) as [[err|]|] eqn:Eb; [intros [= <-]; by apply safe_refl| |done].
  assert (elsewhere p) as Hp.
  { split; [done|]. unfold begin_refused in Eb. rewrite Hr in Eb. intros ->. rewrite (proj2 running_app) in Eb. cbn in Eb.
    destruct (negb (is_ota_partition r)); [done|]. by rewrite bool_decide_eq_true_2 in Eb. }
  destruct (esp_ota_init_entry ok p s) as [[e s1]|] eqn:Ei; [|intros [= <-]; by apply safe_refl].
  destruct (init_safe ok p s e s1 0 (n =? OTA_WITH_SEQUENTIAL_WRITES) false Hs Hp ltac:(lia) Ei) as (_ & He & H1).
  set (s2 := put_entry _ s1). assert (safe s s2) as H2 by (eapply safe_trans; [exact H1|]; apply put_safe; [apply H1|done]).
  set (s3 := unprotect p (address p) s2). assert (safe s s3) as H3 by (eapply safe_trans; [exact H2|]; apply unprotect_safe, H2).
  clearbody s3. assert (safe s (with_flash (begin_erase p n (o_flash s3)) s3).2) as H4
    by (eapply safe_trans; [exact H3|]; apply safe_flash; [apply H3|by apply begin_erase_keeps]).
  destruct (with_flash _ s3) as [err s4]. cbn [snd] in H4. destruct (negb _); [intros [= <-]; exact H4|].
  destruct (rb && is_ota_partition p); [|intros [= <-]; exact H4].
  destruct (esp_ota_invalidate_inactive_ota_data_slot _ _ _ s4) as [[e5 s5]|] eqn:E5; [|done]. intros [= <-].
  eapply safe_trans; [exact H4|]. by apply (erase_last_safe true s4 (e5, s5)); [apply H4|].
Qed.

Lemma resume_safe q n o ok s x :
  handles_ok s -> 0 <= o -> esp_ota_resume parts phys_offs q n o ok s = Some x -> safe s x.2.
Proof.
  intros Hs Ho. unfold esp_ota_resume. destruct q as [q|]; [|intros [= <-]; by apply safe_refl].
  destruct (o >? size q); [intros [= <-]; by apply safe_refl|].
  destruct (esp_partition_verify parts q) as [p|] eqn:Ev; [|intros [= <-]; by apply safe_refl]. apply verify_elem in Ev.
  destruct (_ && _); [intros [= <-]; by apply safe_refl|]. rewrite Hr.
  destruct (bool_decide_reflect (p = r)) as [|Hne]; [intros [= <-]; by apply safe_refl|].
  destruct (esp_ota_init_entry ok p s) as [[e s1]|] eqn:Ei; [|intros [= <-]; by apply safe_refl].
  destruct (init_safe ok p s e s1 o (n =? OTA_WITH_SEQUENTIAL_WRITES) true Hs (conj Ev Hne) Ho Ei) as (_ & He & H1).
  intros [= <-]. cbn [snd]. eapply safe_trans; [exact H1|]. pose proof (unprotect_safe p (address p) s1 (safe_handles _ _ H1)) as H2.
  eapply safe_trans; [exact H2|]. apply put_safe; [apply H2|done].
Qed.

Lemma set_final_safe h q copy s :
  handles_ok s -> (copy = true -> forall p, q = Some p -> esp_partition_verify parts p <> Some r) ->
  safe s (esp_ota_set_final_partition parts h q copy s).2.
Proof.
  intros Hs Hq. unfold esp_ota_set_final_partition. destruct q as [p|]; [|by apply safe_refl].
  destruct (get_ota_ops_entry h s) as [it|] eqn:Eg; [|by apply safe_refl]. apply (get_ok h s it Hs) in Eg as [He1 He2 He3 He4].
  destruct (_ && _); [by apply safe_refl|]. destruct (bool_decide _); [by apply safe_refl|].
  destruct (esp_partition_verify parts p) as [fp|] eqn:Ev; [|by apply safe_refl].
  assert (entry_ok (with_final fp copy it)) as He.
  { destruct it as [h' st fi c n w b rs d]. constructor; cbn in *; [done|by apply (verify_elem p)| |done].
    intros Hc ->. by apply (Hq Hc p eq_refl). }
  pose proof (put_safe _ s Hs He) as H1. eapply safe_trans; [exact H1|]. apply unprotect_safe, H1.
Qed.

(** ** Writing through a handle *)

(** An entry and a flash after a step of [esp_ota_write]. *)
Definition step_ok (f : flash) (x : esp_err_t * ota_ops_entry_t * flash) : Prop := entry_ok x.1.2 /\ keeps r f x.2.

Lemma step_ok_trans f1 f2 x : keeps r f1 f2 -> step_ok f2 x -> step_ok f1 x.
Proof. intros K [He K2]. split; [done|]. by eapply keeps_trans. Qed.

Lemma with_partial_ok b d it : entry_ok it -> entry_ok (with_partial b d it).
Proof. intros [? ? ? ?]. destruct it. by constructor. Qed.

Lemma with_wrote_ok w it : 0 <= w -> entry_ok it -> entry_ok (with_wrote w it).
Proof. intros Hw [? ? ? ?]. destruct it. by constructor. Qed.

Lemma u32_nonneg x : 0 <= u32 x.
Proof. apply Z.mod_pos_bound. lia. Qed.

Lemma erase_ahead_keeps it n f : entry_ok it -> keeps r f (erase_ahead it n f).2.
Proof.
  intros [Hst _ _ Hw]. pose proof (elsewhere_erase_size _ Hst) as He. unfold erase_ahead.
  assert (0 <= wrote_size it / erase_size (staging it)) by (destruct (decide (erase_size (staging it) = 0)) as [->|];
    [by rewrite Z.div_0_r|apply Z.div_pos; lia]).
  destruct (_ =? 0); [by apply erase_keeps|]. destruct (negb _); [|done]. apply erase_keeps; [done|nia].
Qed.

Lemma write_rest_step it data f : entry_ok it -> step_ok f (write_rest it data f).
Proof.
  intros He. unfold write_rest. pose proof (write_keeps (staging it) (wrote_size it) data f (eo_staging _ He) (eo_wrote _ He)) as K.
  destruct (esp_partition_write _ _ _ f) as [ret f1]. split; [|done]. cbn [fst snd].
  destruct (ret =? ESP_OK); [|done]. apply with_wrote_ok; [apply u32_nonneg|done].
Qed.

Lemma keep_tail_entry it data : entry_ok it -> entry_ok (keep_tail it data).1.
Proof. intros He. unfold keep_tail. destruct (negb _); by apply with_partial_ok. Qed.

Lemma write_entry_step it data f : entry_ok it -> step_ok f (write_entry enc it data f).
Proof.
  intros He. unfold write_entry.
  assert (keeps r f (if need_erase it then erase_ahead it (Z.of_nat (length data)) f else (ESP_OK, f)).2) as K
    by (destruct (need_erase it); [by apply erase_ahead_keeps|done]).
  destruct (if need_erase it then _ else _) as [ret f1]. cbn [snd] in K. apply (step_ok_trans f f1); [done|].
  destruct (negb _); [done|]. destruct (negb _); [done|].
  destruct enc; [|by apply write_rest_step]. destruct (negb (partial_bytes it =? 0)).
  - set (it1 := with_partial _ _ it). assert (entry_ok it1) as H1 by (by apply with_partial_ok).
    destruct (negb _); [done|].
    pose proof (write_keeps (staging it1) (wrote_size it1) (partial_data it1) f1 (eo_staging _ H1) (eo_wrote _ H1)) as K1.
    destruct (esp_partition_write _ _ _ f1) as [ret2 f2]. cbn [snd] in K1. apply (step_ok_trans f1 f2); [done|].
    destruct (negb _); [done|]. set (it2 := with_wrote _ _).
    assert (entry_ok it2) as H2 by (apply with_wrote_ok; [apply u32_nonneg|by apply with_partial_ok]).
    pose proof (keep_tail_entry it2 (drop (Z.to_nat (Z.min (16 - partial_bytes it) (Z.of_nat (length data)))) data) H2) as H3.
    destruct (keep_tail it2 _) as [it3 data3]. by apply write_rest_step.
  - pose proof (keep_tail_entry it data He) as H3. destruct (keep_tail it data) as [it3 data3]. by apply write_rest_step.
Qed.

Lemma write_back_safe s it f : handles_ok s -> entry_ok it -> keeps r (o_flash s) f -> safe s (put_entry it (set_o_flash f s)).
Proof. intros Hs He K. destruct s. split; [done|]. by apply update_ok. Qed.

Lemma write_safe h data s : handles_ok s -> safe s (esp_ota_write enc h data s).2.
Proof.
  intros Hs. unfold esp_ota_write. destruct (_ =? 0)%nat; [by apply safe_refl|].
  destruct (get_ota_ops_entry h s) as [it|] eqn:Eg; [|by apply safe_refl]. apply (get_ok h s it Hs) in Eg.
  destruct (write_entry_step it data (o_flash s) Eg) as [H1 H2].
  destruct (write_entry enc it data (o_flash s)) as [[ret it1] f1]. by apply write_back_safe.
Qed.

Lemma write_with_offset_safe h data o s x :
  handles_ok s -> 0 <= o -> esp_ota_write_with_offset enc h data o s = Some x -> safe s x.2.
Proof.
  intros Hs Ho. unfold esp_ota_write_with_offset.
  destruct (get_ota_ops_entry h s) as [it|] eqn:Eg; [|intros [= <-]; by apply safe_refl]. apply (get_ok h s it Hs) in Eg.
  destruct (negb (need_erase it)); [|done]. destruct (_ && _); [intros [= <-]; by apply safe_refl|].
  pose proof (write_keeps (staging it) o data (o_flash s) (eo_staging _ Eg) Ho) as K.
  destruct (esp_partition_write _ _ _ _) as [ret f1]. intros [= <-]. apply write_back_safe; [done| |done].
  destruct (ret =? ESP_OK); [|done]. apply with_wrote_ok; [apply u32_nonneg|done].
Qed.

(** ** The end of an update *)

Lemma copy_loop_keeps n maps pages attempts dest d src o m f x :
  elsewhere dest -> 0 <= d -> copy_loop n maps pages attempts dest d src o m f = Some x -> keeps r f x.2.
Proof.
  intros Hd. revert maps pages attempts d o m f. induction n as [|n IH]; intros maps pages attempts d o m f H0 E; cbn [copy_loop] in E;
    destruct (Z.leb_spec m 0); try (by injection E as <-); [done|].
  assert (0 <= Z.min m (u32 (pages * MMU_PAGE_SIZE))) as Hc by (pose proof (u32_nonneg (pages * MMU_PAGE_SIZE)); lia).
  destruct (map_source _ _ _ _ _) as [[error free] maps']. destruct (error =? ESP_OK).
  - set (bs := load_bytes _ _ _) in E. pose proof (write_keeps dest d bs f Hd H0) as K.
    destruct (esp_partition_write dest d bs f) as [err f1]. cbn [snd] in K. destruct (negb _); [by injection E as <-|].
    eapply keeps_trans; [exact K|]. eapply IH; [|exact E]. lia.
  - destruct (_ >=? 3); [by injection E as <-|]. eapply IH; [|exact E]; done.
Qed.

Lemma copy_keeps mm dest src n f x : elsewhere dest -> esp_partition_copy mm dest 0 src 0 n f = Some x -> keeps r f x.2.
Proof.
  intros Hd. unfold esp_partition_copy. destruct (bool_decide _); [by intros [= <-]|]. destruct (_ || _); [by intros [= <-]|].
  destruct (if n =? UINT32_MAX then _ else _) as [n1 n2]. destruct (_ || _); [by intros [= <-]|].
  pose proof (erase_keeps dest 0 (ALIGN_UP n2 SPI_FLASH_SEC_SIZE) f Hd ltac:(lia)) as K.
  destruct (esp_partition_erase_range dest 0 _ f) as [err f1]. cbn [snd] in K. destruct (negb _); [by intros [= <-]|].
  intros E. eapply keeps_trans; [exact K|]. by eapply copy_loop_keeps.
Qed.

Lemma finish_keeps mm it f x : entry_ok it -> finish_entry mapped chip_size image_ok md5 mm it f = Some x -> keeps r f x.2.
Proof.
  intros He. unfold finish_entry. destruct (_ =? 0); [by intros [= <-]|].
  assert (keeps r f (if partial_bytes it >? 0 then esp_partition_write (staging it) (wrote_size it) (partial_data it) f else (ESP_OK, f)).2) as K
    by (destruct (_ >? 0); [apply write_keeps; apply He|done]).
  destruct (if partial_bytes it >? 0 then _ else _) as [ret f1]. cbn [snd] in K. destruct (negb _); [by intros [= <-]|].
  destruct (negb _); [by intros [= <-]|]. destruct (finalize_with_copy it) eqn:Ef; [|by intros [= <-]].
  intros E. eapply keeps_trans; [exact K|]. eapply copy_keeps; [|exact E]. split; [apply He|by apply He].
Qed.

Lemma end_safe mm h s x : handles_ok s -> esp_ota_end mapped pb chip_size image_ok md5 mm h s = Some x -> safe s x.2.
Proof.
  intros Hs. unfold esp_ota_end. destruct (get_ota_ops_entry h s) as [it|] eqn:Eg; [|intros [= <-]; by apply safe_refl].
  apply (get_ok h s it Hs) in Eg. destruct (finish_entry _ _ _ _ _ _ _) as [[ret f1]|] eqn:Ef; [|done]. intros [= <-].
  pose proof (finish_keeps mm it (o_flash s) _ Eg Ef) as K. cbn [snd] in K |- *.
  destruct s as [f ef l lh b w]. cbn [set_o_flash]. destruct (type (final it) =? ESP_PARTITION_TYPE_BOOTLOADER);
    (split; [exact K|by apply remove_ok]).
Qed.

Lemma cancel_safe h s : handles_ok s -> safe s (esp_ota_abort h s).2.
Proof.
  intros Hs. unfold esp_ota_abort. destruct (get_ota_ops_entry h s); [|by apply safe_refl].
  destruct s. split; [done|]. by apply remove_ok.
Qed.

(** ** Any calls *)

(** Arguments: offsets are unsigned; the copy at the end of an
    update does not go to the running partition; with anti-rollback the
    partition to boot is another one of the table. *)
Definition call_ok (c : ota_call) : Prop :=
  match c with
  | Resume _ _ o _ => 0 <= o
  | WriteWithOffset _ _ o => 0 <= o
  | SetFinal _ (Some p) copy => copy = true -> esp_partition_verify parts p <> Some r
  | SetBoot (Some p) => ar = true -> elsewhere p
  | _ => True
  end.

Lemma call_safe c s s' :
  call_ok c -> handles_ok s ->
  run_call c s = Some s' -> safe s s'.
Proof.
  intros Hc Hs. unfold run_call, state_of.
  destruct c; cbn [call_ok] in Hc; (intros (x & E & ->)%fmap_Some || intros [= <-]).
  - by eapply begin_safe.
  - by eapply resume_safe.
  - apply set_final_safe; [done|]. intros Hcopy p ->. by apply Hc.
  - by apply write_safe.
  - by eapply write_with_offset_safe.
  - by eapply end_safe.
  - by apply cancel_safe.
  - eapply set_boot_safe; [done| |done]. intros p -> Har. by apply Hc.
  - by eapply workable_safe.
  - by eapply workable_safe.
  - by eapply erase_last_safe.
  - by eapply erase_last_safe.
Qed.

(** C7. The running application is not overwritten: whatever sequence of calls
    the application makes to begin, resume, write, end or cancel updates, to
    choose, confirm or reject applications, with any outcomes of the flash
    operations, not a byte of the partition it runs from changes.  The calls
    are those of [call_ok]: no copy is directed at the running partition with
    [esp_ota_set_final_partition], which does not check for it
    ([final_partition_unguarded]), and with anti-rollback
    [esp_ota_set_boot_partition], which erases an application with an old
    security version, is called for other partitions. *)
Theorem running_app_untouched (cs : list ota_call) (s s' : ota) :
  Forall call_ok cs -> handles_ok s -> run_calls cs s = Some s' ->
  (forall x, in_part r x -> cells (o_flash s') x = cells (o_flash s) x) /\ handles_ok s'.
Proof.
  intros Hcs Hs. revert s Hs. induction Hcs as [|c cs Hc Hcs IH]; intros s Hs E; cbn [run_calls] in E.
  - injection E as <-. done.
  - destruct (run_call c s) as [s1|] eqn:Ec; [|done]. destruct (call_safe c s s1 Hc Hs Ec) as [K H1].
    destruct (IH s1 H1 E) as [K' H']. split; [|done]. by eapply keeps_trans.
Qed.
End calls.

(** The static variable of [esp_ota_get_running_partition] does not change its
    result while the partition list is loaded. *)
Lemma running_partition_kept parts phys_offs curr p curr' :
  curr = None \/ curr = esp_ota_get_running_partition parts phys_offs ->
  get_running_partition_kept parts phys_offs curr = Some (p, curr') ->
  esp_ota_get_running_partition parts phys_offs = Some p /\ curr' = esp_ota_get_running_partition parts phys_offs.
Proof.
  unfold get_running_partition_kept. intros [->| ->] E; destruct (esp_ota_get_running_partition parts phys_offs); by simplify_eq.
Qed.

(** ** Refused updates *)

Section refusals.
Context (parts : list esp_partition_t) (rb : bool) (phys_offs : Z) (r : esp_partition_t).
Context (Hr : esp_ota_get_running_partition parts phys_offs = Some r).





End refusals.



(** ** What the calls may do to it *)

Lemma ex_parts_layout : layout_ok 0x400000 ex_parts.
Proof. repeat constructor; cbn; lia. Qed.

Definition ex_image (m : mem) (pos : esp_partition_pos_t) : bool := m (offset pos) =? 0xE9.

(** Running from slot 0, an image is written to slot 1 and selected; the write is cut short. *)
Definition ex_calls : list ota_call :=
  [Begin (Some (ex_slot 1)) 0 true; Write 1 [0xE9; 1; 2; 3]; Write 1 [4; 5]; End ex_maps 1; SetBoot (Some (ex_slot 1)); MarkValid].
Definition ex_start : ota := ex_state (MkFlash (fun _ => 7) [Done; Done; Stops 1 ESP_FAIL]).

Lemma running_app_untouched_witness :
  exists s', run_calls ex_parts 0x400000 false false false true true 4 0x10000 0x1000 ex_image (fun _ => []) ex_calls ex_start = Some s' /\
    forall x, 0x10000 <= x < 0x110000 -> cells (o_flash s') x = 7.
Proof.
  assert (is_Some (run_calls ex_parts 0x400000 false false false true true 4 0x10000 0x1000 ex_image (fun _ => []) ex_calls ex_start)) as [s' E].
  { apply not_eq_None_Some. intros E. apply (f_equal (fun o => match o with Some _ => true | None => false end)) in E.
    vm_compute in E. discriminate E. }
  exists s'. split; [exact E|].
  destruct (running_app_untouched ex_parts 0x400000 false false false true true 4 0x10000 0x1000 ex_image (fun _ => [])
    (ex_slot 0) ex_parts_layout ltac:(lia)) with (cs := ex_calls) (s := ex_start) (s' := s') as [H _].
  - repeat (apply Forall_cons; split; [vm_compute; congruence|]). by apply Forall_nil.
  - vm_compute. reflexivity.
  - repeat (apply Forall_cons; split; [cbn; done|]). by apply Forall_nil.
  - by apply Forall_nil.
  - exact E.
  - intros x Hx. rewrite H; [done|]. unfold in_part. cbn. lia.
Defined.

Definition small_slot (k : Z) : esp_partition_t :=
  MkPartition 0 (0x10 + k) (0x10000 + k * 0x1000) 0x1000 4096 [] false false false.
Definition small_parts : list esp_partition_t := [ex_otadata; small_slot 0; small_slot 1].

(** The copy at the end of an update is not guarded like its beginning: a
    handle for slot 1 gets the running slot 0 as its final partition, and
    [esp_ota_end] erases slot 0 and copies the image over it. *)
Lemma final_partition_unguarded :
  (let s := ex_state (MkFlash (fun _ => 7) []) in
   let? (e1, h, s) := esp_ota_begin small_parts false true 0x10000 (Some (small_slot 1)) 0 true s in
   let? h := h in
   let '(e2, s) := esp_ota_set_final_partition small_parts h (Some (small_slot 0)) true s in
   let '(e3, s) := esp_ota_write false h [0xE9; 1; 2; 3] s in
   let? (e4, s) := esp_ota_end true 0x1000 0x400000 ex_image (fun _ => []) ex_maps h s in
   Some ([e1; e2; e3; e4], load_bytes (cells (o_flash s)) 0x10000 6)) =
  Some ([ESP_OK; ESP_OK; ESP_OK; ESP_OK], [0xE9; 1; 2; 3; 255; 255]).
Proof. vm_compute. reflexivity. Qed.

(** ** The test partition *)

Definition test_slot : esp_partition_t := MkPartition 0 0x20 0x210000 0x100000 4096 [] false false false.

(** [esp_ota_set_boot_partition] accepts an app partition that is neither
    the factory app nor an OTA slot: for the test partition (subtype 0x20) the
    lower four bits of the subtype choose slot 0, the call reports success, and
    both the bootloader and [esp_ota_get_boot_partition] then name slot 0. *)
Theorem test_partition_selects_slot0 :
  (let parts := ex_parts ++ [test_slot] in
   let? (e1, s) := esp_ota_set_boot_partition parts false false true 4 (fun _ _ => true) (Some test_slot) (ex_state (MkFlash blank [])) in
   let? boot := esp_ota_get_boot_partition parts true (o_flash s) in
   let? (i, _) := bootloader_utility_get_selected_boot_partition false false true true 4 two_slots (MkBootState (o_flash s) 0 false) in
   Some (e1, boot, i)) = Some (ESP_OK, Some (ex_slot 0), 0).
Proof. vm_compute. reflexivity. Qed.
