(* ===== verification/EspEvent.v ===== *)
(** * Event loops: data and operations

    Sources: [components/esp_event/esp_event.c], its header
    [private_include/esp_event_internal.h] and [default_event_loop.c], without
    profiling, and with posting from interrupts.  A loop has three levels of
    handlers; every list is a list of nodes by value, since a node is in one
    list only, and a handler's context is named by its address ([handler_ctx]).
    [memory] gives the outcomes of the next allocations and the next address.

    A handler runs with the loop's mutex held and may call the interface; the
    calls that the handlers make, in the order in which they are executed, are
    an argument of the dispatching functions.  The mutex is recursive but
    [xSemaphoreTake] with time 0 fails for its holder, so unregistering from a
    handler takes the second branch of
    [esp_event_handler_unregister_with_internal].  The branches of
    [esp_event_post_to] differ in how long they wait for room in the queue: a
    sender that waits makes its step when there is room or its time is over.
    [None] is a dead pointer or fuel that is used up. *)

From S2P Require Import Prelude EspErr.

Definition ESP_EVENT_ANY_BASE : Z := 0.
Definition ESP_EVENT_ANY_ID : Z := -1.
Definition portMAX_DELAY : Z := 0xFFFFFFFF.

Record memory := MkMemory {
  calloc_outcomes : list bool;
  next_address : Z
}.

(** An address, or [None] when the allocation fails.  An address stands for the
    object that was allocated, so none is given twice.  A real allocator may
    give the address of a freed object again; that could be noticed only through
    a pointer to the freed object.  The loop itself follows none ([None] for a
    dead pointer, which no run reaches), and compares addresses only with the
    handle that a caller passes to unregister, or passed before the request was
    queued: a program that uses a handle after it has unregistered it is
    outside of the model. *)
Definition calloc (m : memory) : option Z * memory :=
  let m' := MkMemory (tail (calloc_outcomes m)) (next_address m + 1) in
  (if default true (head (calloc_outcomes m)) then Some (next_address m) else None, m').

Record esp_event_handler_node := MkHandler {
  handler_ctx : Z;
  ctx_handler : Z;
  ctx_arg : Z;
  unregistered : bool
}.

Record esp_event_id_node := MkIdNode {
  id : Z;
  id_handlers : list esp_event_handler_node
}.

Record esp_event_base_node := MkBaseNode {
  base : Z;
  base_handlers : list esp_event_handler_node;
  id_nodes : list esp_event_id_node
}.

Record esp_event_loop_node := MkLoopNode {
  loop_handlers : list esp_event_handler_node;
  base_nodes : list esp_event_base_node
}.

(** What [esp_event_handler_unregister_with_internal] passes on. *)
Record esp_event_remove_handler_context := MkRemove {
  event_base : Z;
  event_id : Z;
  rm_ctx : Z;
  rm_handler : Z;
  legacy : bool
}.

(** The data of a post: none, a copy on the heap, four bytes from an interrupt,
    or the context of an internal cleanup event. *)
Inductive esp_event_post_data :=
  | NoData
  | Copied (bytes : list Z)
  | Value (bytes : list Z)
  | Cleanup (ctx : esp_event_remove_handler_context).

Record esp_event_post_instance := MkPost {
  post_base : Z;
  post_id : Z;
  post_data : esp_event_post_data
}.

(** An execution of a handler. *)
Record execution := Executed {
  ex_ctx : Z;
  ex_handler : Z;
  ex_arg : Z;
  ex_post : esp_event_post_instance
}.

(** A call of the interface, by a handler or by another task. *)
Inductive api_call :=
  | Register (ebase eid event_handler arg : Z)
  | RegisterInstance (ebase eid event_handler arg : Z)
  | Unregister (ebase eid event_handler : Z) (contended : bool)
  | UnregisterInstance (ebase eid : Z) (ctx : option Z) (contended : bool)
  | Post (ebase eid : Z) (event_data : option (list Z)) (mutex_ok : bool)
  | PostFromISR (ebase eid : Z) (event_data : option (list Z)) (event_data_size : nat).

(** What the model records: executions and the results of calls. *)
Inductive event := Exec (e : execution) | Returned (k : api_call) (err : esp_err_t).

Record esp_event_loop_instance := MkLoop {
  queue_size : nat;
  queue : list esp_event_post_instance;
  loop_nodes : list esp_event_loop_node;
  heap : memory;
  log : list event
}.

Definition set_queue (q : list esp_event_post_instance) (s : esp_event_loop_instance) : esp_event_loop_instance :=
  let (n, _, l, m, g) := s in MkLoop n q l m g.
Definition set_nodes (l : list esp_event_loop_node) (s : esp_event_loop_instance) : esp_event_loop_instance :=
  let (n, q, _, m, g) := s in MkLoop n q l m g.
Definition set_memory (m : memory) (s : esp_event_loop_instance) : esp_event_loop_instance :=
  let (n, q, l, _, g) := s in MkLoop n q l m g.
Definition add_log (e : event) (s : esp_event_loop_instance) : esp_event_loop_instance :=
  let (n, q, l, m, g) := s in MkLoop n q l m (g ++ [e]).

Definition with_arg (arg : Z) (h : esp_event_handler_node) : esp_event_handler_node :=
  MkHandler (handler_ctx h) (ctx_handler h) arg (unregistered h).
Definition mark_unregistered (h : esp_event_handler_node) : esp_event_handler_node :=
  MkHandler (handler_ctx h) (ctx_handler h) (ctx_arg h) true.

Definition is_nil {A} (l : list A) : bool := match l with [] => true | _ => false end.

(** ** Adding handlers *)

(** The search of [handler_instances_add]: the first entry with this handler gets the new argument. *)
Fixpoint overwrite_arg (event_handler arg : Z) (handlers : list esp_event_handler_node) : option (list esp_event_handler_node) :=
  match handlers with
  | [] => None
  | it :: l => if event_handler =? ctx_handler it then Some (with_arg arg it :: l)
               else match overwrite_arg event_handler arg l with Some l => Some (it :: l) | None => None end
  end.

(** The error, the list, the new context, the memory. *)
Definition handler_instances_add (handlers : list esp_event_handler_node) (event_handler arg : Z) (legacy : bool) (m : memory)
    : esp_err_t * list esp_event_handler_node * option Z * memory :=
  let (handler_instance, m) := calloc m in
  match handler_instance with
  | None => (ESP_ERR_NO_MEM, handlers, None, m)
  | Some _ =>
      let (context, m) := calloc m in
      match context with
      | None => (ESP_ERR_NO_MEM, handlers, None, m)
      | Some context =>
          match (if legacy then overwrite_arg event_handler arg handlers else None) with
          | Some handlers => (ESP_OK, handlers, None, m)
          | None => (ESP_OK, handlers ++ [MkHandler context event_handler arg false], Some context, m)
          end
      end
  end.

(** Apply a change to the last element with a property. *)
Fixpoint update_last {A B} (P : A -> bool) (f : A -> B * A) (l : list A) : option (B * list A) :=
  match l with
  | [] => None
  | x :: l =>
      match update_last P f l with
      | Some (b, l) => Some (b, x :: l)
      | None => if P x then let (b, y) := f x in Some (b, y :: l) else None
      end
  end.

Definition base_node_add_handler (base_node : esp_event_base_node) (eid event_handler arg : Z) (legacy : bool) (m : memory)
    : esp_err_t * esp_event_base_node * option Z * memory :=
  if eid =? ESP_EVENT_ANY_ID then
    let '(err, l, ctx, m) := handler_instances_add (base_handlers base_node) event_handler arg legacy m in
    (err, MkBaseNode (base base_node) l (id_nodes base_node), ctx, m)
  else
    match update_last (fun it => id it =? eid)
            (fun it => let '(err, l, ctx, m) := handler_instances_add (id_handlers it) event_handler arg legacy m in
                       ((err, ctx, m), MkIdNode (id it) l)) (id_nodes base_node) with
    | Some ((err, ctx, m), l) => (err, MkBaseNode (base base_node) (base_handlers base_node) l, ctx, m)
    | None =>
        let (id_node, m) := calloc m in
        match id_node with
        | None => (ESP_ERR_NO_MEM, base_node, None, m)
        | Some _ =>
            let '(err, l, ctx, m) := handler_instances_add [] event_handler arg legacy m in
            (err, if err =? ESP_OK
                  then MkBaseNode (base base_node) (base_handlers base_node) (id_nodes base_node ++ [MkIdNode eid l])
                  else base_node, ctx, m)
        end
    end.

(** The strings [esp_event_any_base] and [esp_event_handler_cleanup], by address. *)
Definition esp_event_any_base : Z := 1.
Definition esp_event_handler_cleanup : Z := 2.

Definition loop_node_add_handler (loop_node : esp_event_loop_node) (ebase eid event_handler arg : Z) (legacy : bool) (m : memory)
    : esp_err_t * esp_event_loop_node * option Z * memory :=
  if (ebase =? esp_event_any_base) && (eid =? ESP_EVENT_ANY_ID) then
    let '(err, l, ctx, m) := handler_instances_add (loop_handlers loop_node) event_handler arg legacy m in
    (err, MkLoopNode l (base_nodes loop_node), ctx, m)
  else
    let base_node := last (filter (fun it => base it = ebase) (base_nodes loop_node)) in
    let last_base_node := last (base_nodes loop_node) in
    let new_node :=
      match base_node, last_base_node with
      | None, _ | _, None => true
      | Some b, Some l =>
          (negb (is_nil (id_nodes b)) && (eid =? ESP_EVENT_ANY_ID))
          || (negb (base l =? ebase) && negb (is_nil (id_nodes l)) && (eid =? ESP_EVENT_ANY_ID))
      end in
    if new_node then
      let (p, m) := calloc m in
      match p with
      | None => (ESP_ERR_NO_MEM, loop_node, None, m)
      | Some _ =>
          let '(err, b, ctx, m) := base_node_add_handler (MkBaseNode ebase [] []) eid event_handler arg legacy m in
          (err, if err =? ESP_OK then MkLoopNode (loop_handlers loop_node) (base_nodes loop_node ++ [b]) else loop_node, ctx, m)
      end
    else
      match update_last (fun it => base it =? ebase)
              (fun it => let '(err, b, ctx, m) := base_node_add_handler it eid event_handler arg legacy m in ((err, ctx, m), b))
              (base_nodes loop_node) with
      | Some ((err, ctx, m), l) => (err, MkLoopNode (loop_handlers loop_node) l, ctx, m)
      | None => (ESP_FAIL, loop_node, None, m) (* not reached *)
      end.

(** The context is returned through [handler_ctx_arg] if the caller wants it. *)
Definition esp_event_handler_register_with_internal (ebase eid event_handler arg : Z) (legacy : bool) (s : esp_event_loop_instance)
    : esp_err_t * option Z * esp_event_loop_instance :=
  if (ebase =? ESP_EVENT_ANY_BASE) && negb (eid =? ESP_EVENT_ANY_ID) then (ESP_ERR_INVALID_ARG, None, s) else
  let ebase := if ebase =? ESP_EVENT_ANY_BASE then esp_event_any_base else ebase in
  let is_loop_level_handler := (ebase =? esp_event_any_base) && (eid =? ESP_EVENT_ANY_ID) in
  let last_loop_node := last (loop_nodes s) in
  let new_node := match last_loop_node with
                  | None => true
                  | Some l => negb (is_nil (base_nodes l)) && is_loop_level_handler
                  end in
  if new_node then
    let (p, m) := calloc (heap s) in
    match p with
    | None => (ESP_ERR_NO_MEM, None, set_memory m s)
    | Some _ =>
        let '(err, l, ctx, m) := loop_node_add_handler (MkLoopNode [] []) ebase eid event_handler arg legacy m in
        (err, ctx, set_memory m (if err =? ESP_OK then set_nodes (loop_nodes s ++ [l]) s else s))
    end
  else
    match update_last (fun _ => true)
            (fun it => let '(err, l, ctx, m) := loop_node_add_handler it ebase eid event_handler arg legacy (heap s) in ((err, ctx, m), l))
            (loop_nodes s) with
    | Some ((err, ctx, m), l) => (err, ctx, set_memory m (set_nodes l s))
    | None => (ESP_FAIL, None, s) (* not reached *)
    end.

Definition esp_event_handler_register_with (ebase eid event_handler arg : Z) (s : esp_event_loop_instance)
    : esp_err_t * esp_event_loop_instance :=
  let '(err, _, s) := esp_event_handler_register_with_internal ebase eid event_handler arg true s in (err, s).

Definition esp_event_handler_instance_register_with (ebase eid event_handler arg : Z) (s : esp_event_loop_instance)
    : esp_err_t * option Z * esp_event_loop_instance :=
  esp_event_handler_register_with_internal ebase eid event_handler arg false s.

(** ** Removing handlers *)

(** [SLIST_FOREACH_SAFE] up to the first element for which [f] succeeds; the
    element is dropped when [f] leaves it empty ([None]). *)
Fixpoint remove_in {A} (f : A -> option (option A)) (l : list A) : option (list A) :=
  match l with
  | [] => None
  | it :: l =>
      match f it with
      | Some (Some it) => Some (it :: l)
      | Some None => Some l
      | None => match remove_in f l with Some l => Some (it :: l) | None => None end
      end
  end.

(** The handler that a request means. *)
Definition is_handler (ctx : esp_event_remove_handler_context) (it : esp_event_handler_node) : bool :=
  if legacy ctx then ctx_handler it =? rm_handler ctx else handler_ctx it =? rm_ctx ctx.

(** [None] is [ESP_ERR_NOT_FOUND]. *)
Definition handler_instances_remove (ctx : esp_event_remove_handler_context) (handlers : list esp_event_handler_node)
    : option (list esp_event_handler_node) :=
  remove_in (fun it => if is_handler ctx it then Some None else None) handlers.

Definition base_node_remove_handler (ctx : esp_event_remove_handler_context) (base_node : esp_event_base_node)
    : option esp_event_base_node :=
  if event_id ctx =? ESP_EVENT_ANY_ID then
    let? l := handler_instances_remove ctx (base_handlers base_node) in
    Some (MkBaseNode (base base_node) l (id_nodes base_node))
  else
    let? l := remove_in (fun it =>
        if id it =? event_id ctx then
          let? l := handler_instances_remove ctx (id_handlers it) in
          Some (if is_nil l then None else Some (MkIdNode (id it) l))
        else None) (id_nodes base_node) in
    Some (MkBaseNode (base base_node) (base_handlers base_node) l).

Definition loop_node_remove_handler (ctx : esp_event_remove_handler_context) (loop_node : esp_event_loop_node)
    : option esp_event_loop_node :=
  if (event_base ctx =? esp_event_any_base) && (event_id ctx =? ESP_EVENT_ANY_ID) then
    let? l := handler_instances_remove ctx (loop_handlers loop_node) in Some (MkLoopNode l (base_nodes loop_node))
  else
    let? l := remove_in (fun it =>
        if base it =? event_base ctx then
          let? b := base_node_remove_handler ctx it in
          Some (if is_nil (base_handlers b) && is_nil (id_nodes b) then None else Some b)
        else None) (base_nodes loop_node) in
    Some (MkLoopNode (loop_handlers loop_node) l).

Definition loop_remove_handler (ctx : esp_event_remove_handler_context) (s : esp_event_loop_instance)
    : esp_err_t * esp_event_loop_instance :=
  match remove_in (fun it =>
      let? n := loop_node_remove_handler ctx it in
      Some (if is_nil (base_nodes n) && is_nil (loop_handlers n) then None else Some n)) (loop_nodes s) with
  | Some l => (ESP_OK, set_nodes l s)
  | None => (ESP_ERR_NOT_FOUND, s)
  end.

(** ** Posting *)

(** [xQueueSendToBack] when the waiting is over. *)
Definition queue_send (post : esp_event_post_instance) (s : esp_event_loop_instance) : bool * esp_event_loop_instance :=
  if (length (queue s) <? queue_size s)%nat then (true, set_queue (queue s ++ [post]) s) else (false, s).

(** [mutex_ok]: a loop without a task of its own has its mutex taken and given
    back first; the outcome. *)
Definition post_instance (ebase eid : Z) (data : esp_event_post_data) (mutex_ok : bool) (s : esp_event_loop_instance)
    : esp_err_t * esp_event_loop_instance :=
  if (ebase =? ESP_EVENT_ANY_BASE) || (eid =? ESP_EVENT_ANY_ID) then (ESP_ERR_INVALID_ARG, s) else
  let '(copied, s) := match data with
                      | NoData => (true, s)
                      | _ => let (p, m) := calloc (heap s) in (match p with Some _ => true | None => false end, set_memory m s)
                      end in
  if negb copied then (ESP_ERR_NO_MEM, s) else
  if negb mutex_ok then (ESP_ERR_TIMEOUT, s) else
  let '(result, s) := queue_send (MkPost ebase eid data) s in
  (if result then ESP_OK else ESP_ERR_TIMEOUT, s).

(** [event_data] is [None] for a null pointer. *)
Definition esp_event_post_to (ebase eid : Z) (event_data : option (list Z)) (mutex_ok : bool) (s : esp_event_loop_instance)
    : esp_err_t * esp_event_loop_instance :=
  post_instance ebase eid
    (match event_data with Some (b :: l) => Copied (b :: l) | _ => NoData end) mutex_ok s.

(** Here the size is looked at for a null pointer too. *)
Definition esp_event_isr_post_to (ebase eid : Z) (event_data : option (list Z)) (event_data_size : nat) (s : esp_event_loop_instance)
    : esp_err_t * esp_event_loop_instance :=
  if (ebase =? ESP_EVENT_ANY_BASE) || (eid =? ESP_EVENT_ANY_ID) then (ESP_ERR_INVALID_ARG, s) else
  if (4 <? event_data_size)%nat then (ESP_ERR_INVALID_ARG, s) else
  let data := match event_data with Some l => if (event_data_size =? 0)%nat then NoData else Value (take event_data_size l) | None => NoData end in
  let '(result, s) := queue_send (MkPost ebase eid data) s in
  (if result then ESP_OK else ESP_FAIL, s).

(** ** Unregistering *)

(** The scan of one list of handlers: the entry found replaces [found]. *)
Definition scan (ctx : esp_event_remove_handler_context) (found : option esp_event_handler_node) (handlers : list esp_event_handler_node)
    : option esp_event_handler_node :=
  match head (filter (fun it => is_handler ctx it = true) handlers) with Some h => Some h | None => found end.

Fixpoint scan_ids (ctx : esp_event_remove_handler_context) (found : option esp_event_handler_node) (l : list esp_event_id_node)
    : option esp_event_handler_node :=
  match l with
  | [] => found
  | it :: l => scan_ids ctx (if id it =? event_id ctx then scan ctx found (id_handlers it) else found) l
  end.

Fixpoint scan_bases (ctx : esp_event_remove_handler_context) (found : option esp_event_handler_node) (l : list esp_event_base_node)
    : option esp_event_handler_node :=
  match l with
  | [] => found
  | it :: l =>
      if base it =? event_base ctx then
        match scan ctx found (base_handlers it) with
        | Some h => Some h
        | None => scan_bases ctx (scan_ids ctx None (id_nodes it)) l
        end
      else scan_bases ctx found l
  end.

Fixpoint scan_loop (ctx : esp_event_remove_handler_context) (found : option esp_event_handler_node) (l : list esp_event_loop_node)
    : option esp_event_handler_node :=
  match l with
  | [] => found
  | it :: l =>
      match scan ctx found (loop_handlers it) with
      | Some h => Some h
      | None => scan_loop ctx (scan_bases ctx None (base_nodes it)) l
      end
  end.

(** The assignment to [unregistered] of the node with this context. *)
Definition mark_handlers (c : Z) (l : list esp_event_handler_node) : list esp_event_handler_node :=
  (fun h => if handler_ctx h =? c then mark_unregistered h else h) <$> l.
Definition mark_nodes (c : Z) (l : list esp_event_loop_node) : list esp_event_loop_node :=
  (fun n => MkLoopNode (mark_handlers c (loop_handlers n))
     ((fun b => MkBaseNode (base b) (mark_handlers c (base_handlers b))
         ((fun i => MkIdNode (id i) (mark_handlers c (id_handlers i))) <$> id_nodes b)) <$> base_nodes n)) <$> l.

Definition find_and_unregister_handler (ctx : esp_event_remove_handler_context) (s : esp_event_loop_instance)
    : esp_err_t * esp_event_loop_instance :=
  match scan_loop ctx None (loop_nodes s) with
  | None => (ESP_ERR_NOT_FOUND, s)
  | Some handler_to_unregister =>
      if unregistered handler_to_unregister then (ESP_OK, s) else
      let s := set_nodes (mark_nodes (handler_ctx handler_to_unregister) (loop_nodes s)) s in
      let '(copied, s) := if legacy ctx
                          then let (p, m) := calloc (heap s) in (match p with Some _ => true | None => false end, set_memory m s)
                          else (true, s) in
      if negb copied then (ESP_ERR_NO_MEM, s) else
      post_instance esp_event_handler_cleanup 0 (Cleanup ctx) true s
  end.

(** [mutex_free]: [xSemaphoreTake(loop->mutex, 0)] succeeds. *)
Definition esp_event_handler_unregister_with_internal (ebase eid ctx handler : Z) (legacy mutex_free : bool) (s : esp_event_loop_instance)
    : esp_err_t * esp_event_loop_instance :=
  if (ebase =? ESP_EVENT_ANY_BASE) && negb (eid =? ESP_EVENT_ANY_ID) then (ESP_ERR_INVALID_ARG, s) else
  let ebase := if ebase =? ESP_EVENT_ANY_BASE then esp_event_any_base else ebase in
  let remove_handler_ctx := MkRemove ebase eid ctx handler legacy in
  if mutex_free then loop_remove_handler remove_handler_ctx s else find_and_unregister_handler remove_handler_ctx s.

(** The local context of the legacy function has no address that a node has. *)
Definition esp_event_handler_unregister_with (ebase eid handler : Z) (mutex_free : bool) (s : esp_event_loop_instance)
    : esp_err_t * esp_event_loop_instance :=
  esp_event_handler_unregister_with_internal ebase eid 0 handler true mutex_free s.

(** The handler in the context is not looked at. *)
Definition esp_event_handler_instance_unregister_with (ebase eid : Z) (ctx : option Z) (mutex_free : bool) (s : esp_event_loop_instance)
    : esp_err_t * esp_event_loop_instance :=
  match ctx with
  | None => (ESP_ERR_INVALID_ARG, s)
  | Some ctx => esp_event_handler_unregister_with_internal ebase eid ctx 0 false mutex_free s
  end.

(** ** Running the loop *)

(** [held]: the caller holds the mutex; [contended]: another task does. *)
Definition do_call (held : bool) (c : api_call) (s : esp_event_loop_instance) : esp_err_t * esp_event_loop_instance :=
  match c with
  | Register b i h a => esp_event_handler_register_with b i h a s
  | RegisterInstance b i h a => let '(err, _, s) := esp_event_handler_instance_register_with b i h a s in (err, s)
  | Unregister b i h contended => esp_event_handler_unregister_with b i h (negb (held || contended)) s
  | UnregisterInstance b i c contended => esp_event_handler_instance_unregister_with b i c (negb (held || contended)) s
  | Post b i d ok => esp_event_post_to b i d ok s
  | PostFromISR b i d n => esp_event_isr_post_to b i d n s
  end.

Definition run_call (held : bool) (c : api_call) (s : esp_event_loop_instance) : esp_event_loop_instance :=
  let '(err, s) := do_call held c s in add_log (Returned c err) s.

Definition run_calls (held : bool) (cs : list api_call) (s : esp_event_loop_instance) : esp_event_loop_instance :=
  foldl (fun s c => run_call held c s) s cs.

(** The loop and the calls that the next executions make. *)
Definition running : Type := esp_event_loop_instance * list (list api_call).

Definition handler_execute (handler : esp_event_handler_node) (post : esp_event_post_instance) (x : running) : running :=
  let '(s, behaviours) := x in
  let s := add_log (Exec (Executed (handler_ctx handler) (ctx_handler handler) (ctx_arg handler) post)) s in
  (run_calls true (default [] (head behaviours)) s, tail behaviours).

(** [SLIST_FOREACH_SAFE]: the successor is read before the body runs.  The list
    has [len] elements in the current state; the body says whether to [break]. *)
Fixpoint foreach_safe (fuel : nat) (len : running -> nat) (body : nat -> running -> option (running * bool)) (j : nat) (x : running)
    : option running :=
  match fuel with
  | O => None
  | S fuel =>
      let has_next := (S j <? len x)%nat in
      let? (x, stop) := body j x in
      if stop : bool then Some x else if has_next then foreach_safe fuel len body (S j) x else Some x
  end.

(** The iterations: those on the elements there are, and one for each call that may add one. *)
Definition foreach (len : running -> nat) (body : nat -> running -> option (running * bool)) (x : running) : option running :=
  if (len x =? 0)%nat then Some x else foreach_safe (len x + length (concat x.2)) len body 0 x.

(** Execute the handlers of a list that is read from the current state. *)
Definition run_handlers (get : esp_event_loop_instance -> list esp_event_handler_node) (post : esp_event_post_instance) (x : running)
    : option running :=
  foreach (fun x => length (get x.1)) (fun j x =>
    let? handler := get x.1 !! j in
    Some (if unregistered handler then x else handler_execute handler post x, false)) x.

(** The node at a position, as it is now. *)
Definition loop_at (s : esp_event_loop_instance) (i : nat) : esp_event_loop_node := default (MkLoopNode [] []) (loop_nodes s !! i).
Definition base_at (s : esp_event_loop_instance) (i j : nat) : esp_event_base_node := default (MkBaseNode 0 [] []) (base_nodes (loop_at s i) !! j).
Definition id_at (s : esp_event_loop_instance) (i j k : nat) : esp_event_id_node := default (MkIdNode 0 []) (id_nodes (base_at s i j) !! k).

Definition run_id_nodes (i j : nat) (post : esp_event_post_instance) : running -> option running :=
  foreach (fun x => length (id_nodes (base_at x.1 i j))) (fun k x =>
    if id (id_at x.1 i j k) =? post_id post
    then let? x := run_handlers (fun s => id_handlers (id_at s i j k)) post x in Some (x, true)
    else Some (x, false)).

Definition run_base_nodes (i : nat) (post : esp_event_post_instance) : running -> option running :=
  foreach (fun x => length (base_nodes (loop_at x.1 i))) (fun j x =>
    if base (base_at x.1 i j) =? post_base post then
      let? x := run_handlers (fun s => base_handlers (base_at s i j)) post x in
      let? x := run_id_nodes i j post x in Some (x, false)
    else Some (x, false)).

Definition dispatch (post : esp_event_post_instance) : running -> option running :=
  foreach (fun x => length (loop_nodes x.1)) (fun i x =>
    let? x := run_handlers (fun s => loop_handlers (loop_at s i)) post x in
    let? x := run_base_nodes i post x in Some (x, false)).

(** The body of the loop for a post taken from the queue. *)
Definition run_post (post : esp_event_post_instance) (x : running) : option running :=
  let '(s, behaviours) := x in
  if post_base post =? esp_event_handler_cleanup then
    match post_data post with
    | Cleanup ctx => dispatch post ((loop_remove_handler ctx s).2, behaviours)
    | _ => None
    end
  else dispatch post (s, behaviours).

(** A round: the calls the executions make and the ticks that pass.  The
    result says whether the function has returned. *)
Fixpoint run_rounds (forever : bool) (remaining_ticks : Z) (rounds : list (list (list api_call) * Z)) (s : esp_event_loop_instance)
    : option (esp_event_loop_instance * bool) :=
  match rounds with
  | [] => Some (s, false)
  | (behaviours, elapsed) :: rounds =>
      match queue s with
      | [] => Some (s, true)
      | post :: q =>
          let? (s, _) := run_post post (set_queue q s, behaviours) in
          if forever then run_rounds forever remaining_ticks rounds s
          else if remaining_ticks - elapsed <=? 0 then Some (s, true)
          else run_rounds forever (remaining_ticks - elapsed) rounds s
      end
  end.

Definition esp_event_loop_run (ticks_to_run : Z) (rounds : list (list (list api_call) * Z)) (s : esp_event_loop_instance)
    : option (esp_event_loop_instance * bool) :=
  run_rounds (ticks_to_run =? portMAX_DELAY) ticks_to_run rounds s.

(** ** Creating and deleting loops *)

(** The outcomes: memory for the loop, the queue, the mutex, the task (if one is wanted). *)
Definition esp_event_loop_create (size : nat) (task_wanted : bool) (loop_ok queue_ok mutex_ok task_ok : bool) (m : memory)
    : esp_err_t * option esp_event_loop_instance :=
  if negb loop_ok || negb queue_ok || negb mutex_ok then (ESP_ERR_NO_MEM, None)
  else if task_wanted && negb task_ok then (ESP_FAIL, None)
  else (ESP_OK, Some (MkLoop size [] [] m [])).

(** The contexts that are freed, in order, and the posts that are dropped. *)
Definition handler_instances_remove_all (l : list esp_event_handler_node) : list Z := handler_ctx <$> l.
Definition base_node_remove_all_handler (b : esp_event_base_node) : list Z :=
  handler_instances_remove_all (base_handlers b) ++ concat ((fun i => handler_instances_remove_all (id_handlers i)) <$> id_nodes b).
Definition loop_node_remove_all_handler (n : esp_event_loop_node) : list Z :=
  handler_instances_remove_all (loop_handlers n) ++ concat (base_node_remove_all_handler <$> base_nodes n).
Definition esp_event_loop_delete (s : esp_event_loop_instance) : esp_err_t * list Z * list esp_event_post_instance :=
  (ESP_OK, concat (loop_node_remove_all_handler <$> loop_nodes s), queue s).

(** ** The default loop

    [None] stands for [s_default_loop == NULL]. *)

Definition with_default {A} (f : esp_event_loop_instance -> esp_err_t * A * esp_event_loop_instance) (none : A)
    (s_default_loop : option esp_event_loop_instance) : esp_err_t * A * option esp_event_loop_instance :=
  match s_default_loop with
  | None => (ESP_ERR_INVALID_STATE, none, None)
  | Some s => let '(err, a, s) := f s in (err, a, Some s)
  end.

Definition unit_result (r : esp_err_t * esp_event_loop_instance) : esp_err_t * unit * esp_event_loop_instance := (r.1, tt, r.2).

Definition esp_event_handler_register ebase eid event_handler arg :=
  with_default (fun s => unit_result (esp_event_handler_register_with ebase eid event_handler arg s)) tt.
Definition esp_event_handler_instance_register ebase eid event_handler arg :=
  with_default (esp_event_handler_instance_register_with ebase eid event_handler arg) None.
Definition esp_event_handler_unregister ebase eid event_handler mutex_free :=
  with_default (fun s => unit_result (esp_event_handler_unregister_with ebase eid event_handler mutex_free s)) tt.
Definition esp_event_handler_instance_unregister ebase eid ctx mutex_free :=
  with_default (fun s => unit_result (esp_event_handler_instance_unregister_with ebase eid ctx mutex_free s)) tt.
Definition esp_event_post ebase eid event_data mutex_ok :=
  with_default (fun s => unit_result (esp_event_post_to ebase eid event_data mutex_ok s)) tt.
Definition esp_event_isr_post ebase eid event_data event_data_size :=
  with_default (fun s => unit_result (esp_event_isr_post_to ebase eid event_data event_data_size s)) tt.

Definition esp_event_loop_create_default (size : nat) (loop_ok queue_ok mutex_ok task_ok : bool) (m : memory)
    (s_default_loop : option esp_event_loop_instance) : esp_err_t * option esp_event_loop_instance :=
  match s_default_loop with
  | Some s => (ESP_ERR_INVALID_STATE, Some s)
  | None => esp_event_loop_create size true loop_ok queue_ok mutex_ok task_ok m
  end.

Definition esp_event_loop_delete_default (s_default_loop : option esp_event_loop_instance) : esp_err_t * option esp_event_loop_instance :=
  match s_default_loop with
  | None => (ESP_ERR_INVALID_STATE, None)
  | Some s => let '(err, _, _) := esp_event_loop_delete s in if err =? ESP_OK then (ESP_OK, None) else (err, Some s)
  end.
