(* ===== verification/EspEventProps.v ===== *)
(** * Properties of event loops

    The handlers of a loop as one list, in the order in which the dispatching
    visits them, with the events each is registered for.  Adding and removing
    handlers, seen on that list; which handlers an event reaches; unregistering
    while the loop runs. *)

From S2P Require Import Prelude EspErr EspEvent.

Lemma filter_none {A} (P : A -> Prop) `{forall x, Decision (P x)} l : Forall (fun x => ~ P x) l -> filter P l = [].
Proof. induction 1 as [|x l Hx Hl IH]; [done|]. by rewrite filter_cons, decide_False. Qed.

Lemma filter_everything {A} (P : A -> Prop) `{forall x, Decision (P x)} l : Forall P l -> filter P l = l.
Proof. induction 1 as [|x l Hx Hl IH]; [done|]. rewrite filter_cons, decide_True by done. by rewrite IH. Qed.

(** ** The handlers as a list *)

(** The events that a handler is registered for. *)
Inductive level := AnyEvent | OfBase (b : Z) | OfEvent (b i : Z).

#[export] Instance level_eq_dec : EqDecision level.
Proof. solve_decision. Defined.

Definition entry : Type := level * esp_event_handler_node.

Definition level_of (ebase eid : Z) : level :=
  if (ebase =? esp_event_any_base) && (eid =? ESP_EVENT_ANY_ID) then AnyEvent
  else if eid =? ESP_EVENT_ANY_ID then OfBase ebase else OfEvent ebase eid.

Definition matches (b i : Z) (l : level) : bool :=
  match l with AnyEvent => true | OfBase b' => b' =? b | OfEvent b' i' => (b' =? b) && (i' =? i) end.

Definition flat_id (b : Z) (n : esp_event_id_node) : list entry := (fun h => (OfEvent b (id n), h)) <$> id_handlers n.
Definition flat_ids (b : Z) (l : list esp_event_id_node) : list entry := concat (flat_id b <$> l).
Definition flat_base (n : esp_event_base_node) : list entry :=
  ((fun h => (OfBase (base n), h)) <$> base_handlers n) ++ flat_ids (base n) (id_nodes n).
Definition flat_bases (l : list esp_event_base_node) : list entry := concat (flat_base <$> l).
Definition flat_loop (n : esp_event_loop_node) : list entry := ((fun h => (AnyEvent, h)) <$> loop_handlers n) ++ flat_bases (base_nodes n).
Definition flatten (l : list esp_event_loop_node) : list entry := concat (flat_loop <$> l).

Lemma flat_ids_app b l1 l2 : flat_ids b (l1 ++ l2) = flat_ids b l1 ++ flat_ids b l2.
Proof. unfold flat_ids. by rewrite fmap_app, concat_app. Qed.
Lemma flat_bases_app l1 l2 : flat_bases (l1 ++ l2) = flat_bases l1 ++ flat_bases l2.
Proof. unfold flat_bases. by rewrite fmap_app, concat_app. Qed.
Lemma flatten_app l1 l2 : flatten (l1 ++ l2) = flatten l1 ++ flatten l2.
Proof. unfold flatten. by rewrite fmap_app, concat_app. Qed.

(** Ids are different within a base node. *)
Definition base_wf (n : esp_event_base_node) : Prop := NoDup (id <$> id_nodes n).
Definition loop_wf (n : esp_event_loop_node) : Prop := Forall base_wf (base_nodes n).
Definition nodes_wf (l : list esp_event_loop_node) : Prop := Forall loop_wf l.

(** Every event that [lvl] takes, and that [lvl'] takes as well, does not exist. *)
Definition apart (lvl lvl' : level) : Prop := forall b i, matches b i lvl = true -> matches b i lvl' = false.

(** A new entry behind all entries that share an event with it. *)
Definition extends (l l' : list entry) (x : entry) : Prop :=
  exists l1 l2, l = l1 ++ l2 /\ l' = l1 ++ x :: l2 /\ Forall (fun y => apart x.1 y.1) l2.

Lemma extends_end l x : extends l (l ++ [x]) x.
Proof. exists l, []. rewrite app_nil_r. by split_and!. Qed.

Lemma extends_before l l' x p : extends l l' x -> extends (p ++ l) (p ++ l') x.
Proof. intros (l1 & l2 & -> & -> & H). exists (p ++ l1), l2. rewrite <- !app_assoc. by split_and!. Qed.

Lemma extends_after l l' x q : extends l l' x -> Forall (fun y => apart x.1 y.1) q -> extends (l ++ q) (l' ++ q) x.
Proof.
  intros (l1 & l2 & -> & -> & H) Hq. exists l1, (l2 ++ q). rewrite <- !app_assoc. split_and!; [done|done|]. by apply Forall_app.
Qed.

Lemma apart_base b b' lvl lvl' :
  b <> b' -> lvl = OfBase b \/ (exists i, lvl = OfEvent b i) -> lvl' = OfBase b' \/ (exists i, lvl' = OfEvent b' i) -> apart lvl lvl'.
Proof. intros Hne [->|[i ->]] [->|[i' ->]] c j; cbn; lia. Qed.

Lemma apart_id b i i' : i <> i' -> apart (OfEvent b i) (OfEvent b i').
Proof. intros Hne c j; cbn. lia. Qed.

(** The levels in a base node. *)
Lemma flat_base_levels n y : y ∈ flat_base n -> y.1 = OfBase (base n) \/ (exists i, y.1 = OfEvent (base n) i).
Proof.
  unfold flat_base, flat_ids. rewrite elem_of_app. intros [H|H].
  - apply list_elem_of_fmap in H as (h & -> & _). by left.
  - apply list_elem_of_In, in_concat in H as (l & Hl & Hy). apply list_elem_of_In, list_elem_of_fmap in Hl as (i & -> & _).
    apply list_elem_of_In, list_elem_of_fmap in Hy as (h & -> & _). right. by exists (id i).
Qed.

Lemma update_last_some {A B} P (f : A -> B * A) l b l' :
  update_last P f l = Some (b, l') ->
  exists l1 x y l2, l = l1 ++ x :: l2 /\ P x = true /\ f x = (b, y) /\ l' = l1 ++ y :: l2 /\ Forall (fun z => P z = false) l2.
Proof.
  revert l'. induction l as [|a l IH]; intros l' E; [done|]. cbn in E.
  destruct (update_last P f l) as [[b0 l0]|] eqn:El.
  - injection E as <- <-. destruct (IH l0 eq_refl) as (l1 & x & y & l2 & -> & Hx & Hf & -> & Hl2). by exists (a :: l1), x, y, l2.
  - destruct (P a) eqn:Ea; [|done]. destruct (f a) as [b1 y] eqn:Ef. injection E as <- <-.
    exists [], a, y, l. split_and!; try done. clear IH. induction l as [|z l IH]; [done|]. cbn in El.
    destruct (update_last P f l) as [[]|]; [done|]. destruct (P z) eqn:Ez; [by destruct (f z)|]. constructor; [done|by apply IH].
Qed.

Lemma update_last_none {A B} P (f : A -> B * A) l : update_last P f l = None -> Forall (fun z => P z = false) l.
Proof.
  induction l as [|z l IH]; [done|]. cbn. destruct (update_last P f l) as [[]|]; [done|].
  destruct (P z) eqn:Ez; [by destruct (f z)|]. intros _. constructor; [done|by apply IH].
Qed.

(** ** Registering an instance *)

(** What an entry is apart from the argument. *)
Definition identity (x : entry) : level * Z * Z * bool := (x.1, handler_ctx x.2, ctx_handler x.2, unregistered x.2).

(** The outcome of adding a handler: a new entry with a new context, or no
    memory and no change, or, by the legacy function, a new argument. *)
Definition added (legacy : bool) (lvl : level) (h arg : Z) (m m' : memory) (l l' : list entry) (err : esp_err_t) (ctx : option Z) : Prop :=
  next_address m <= next_address m' /\
  ((err = ESP_OK /\ exists c, ctx = Some c /\ next_address m <= c < next_address m' /\ extends l l' (lvl, MkHandler c h arg false)) \/
   (err = ESP_ERR_NO_MEM /\ ctx = None /\ l' = l) \/
   (legacy = true /\ err = ESP_OK /\ ctx = None /\ identity <$> l' = identity <$> l)).

Lemma calloc_spec m : (calloc m).1 = Some (next_address m) \/ (calloc m).1 = None.
Proof. unfold calloc. destruct (default true (head (calloc_outcomes m))); [by left|by right]. Qed.

Lemma calloc_next m : next_address (calloc m).2 = next_address m + 1.
Proof. done. Qed.

Lemma added_later lg lvl h arg m0 m m' l l' err ctx :
  next_address m0 <= next_address m -> added lg lvl h arg m m' l l' err ctx -> added lg lvl h arg m0 m' l l' err ctx.
Proof. intros Hm (H1 & [(-> & c & -> & Hc & He)|[(-> & -> & ->)|(-> & -> & -> & Hi)]]); (split; [lia|]); [left|right; by left|by right; right]. split; [done|]. exists c. split_and!; [done|lia|lia|done]. Qed.

Lemma added_false lg lvl h arg m m' l l' err ctx :
  added false lvl h arg m m' l l' err ctx -> added lg lvl h arg m m' l l' err ctx.
Proof. intros (H1 & [H|[H|(? & _)]]); (split; [done|]); [by left|right; by left|done]. Qed.

Lemma overwrite_identity lvl h arg hs hs' :
  overwrite_arg h arg hs = Some hs' -> identity <$> ((fun x => (lvl, x)) <$> hs') = identity <$> ((fun x => (lvl, x)) <$> hs).
Proof.
  revert hs'. induction hs as [|x hs IH]; intros hs' E; [done|]. cbn in E. destruct (h =? ctx_handler x).
  - injection E as <-. done.
  - destruct (overwrite_arg h arg hs) as [l|]; [|done]. injection E as <-. rewrite !fmap_cons. f_equal. by apply IH.
Qed.

Lemma added_before lg lvl h arg m m' l l' err ctx p :
  added lg lvl h arg m m' l l' err ctx -> added lg lvl h arg m m' (p ++ l) (p ++ l') err ctx.
Proof.
  intros (H1 & [(-> & c & -> & Hc & He)|[(-> & -> & ->)|(-> & -> & -> & Hi)]]); (split; [done|]); [left|right; by left|right; right; split_and!; try done; by rewrite ?fmap_app, Hi].
  split; [done|]. exists c. split_and!; try (done || lia). by apply extends_before.
Qed.

Lemma added_after lg lvl h arg m m' l l' err ctx q :
  added lg lvl h arg m m' l l' err ctx -> Forall (fun y => apart lvl y.1) q -> added lg lvl h arg m m' (l ++ q) (l' ++ q) err ctx.
Proof.
  intros (H1 & [(-> & c & -> & Hc & He)|[(-> & -> & ->)|(-> & -> & -> & Hi)]]) Hq; (split; [done|]); [left|right; by left|right; right; split_and!; try done; by rewrite ?fmap_app, Hi].
  split; [done|]. exists c. split_and!; try (done || lia). by apply extends_after.
Qed.

(** At the end of a list of handlers, all at one level. *)
Lemma instances_added lg lvl hs h arg m :
  let '(err, hs', ctx, m') := handler_instances_add hs h arg lg m in
  added lg lvl h arg m m' ((fun x => (lvl, x)) <$> hs) ((fun x => (lvl, x)) <$> hs') err ctx.
Proof.
  unfold handler_instances_add. destruct (calloc m) as [p m1] eqn:E1. pose proof (calloc_next m) as N1. rewrite E1 in N1. cbn in N1.
  destruct p; [|split; [lia|right; by left]].
  destruct (calloc m1) as [p2 m2] eqn:E2. pose proof (calloc_next m1) as N2. pose proof (calloc_spec m1) as S2. rewrite E2 in N2, S2. cbn in N2, S2.
  destruct p2 as [c|]; [|split; [lia|right; by left]]. destruct S2 as [[= ->]|]; [|done].
  destruct lg; [destruct (overwrite_arg h arg hs) as [hs'|] eqn:Eo; [split; [lia|right; right; split_and!; try done; by eapply overwrite_identity]|]|].
  all: split; [lia|]; left; split; [done|]; exists (next_address m1); split_and!; [done|lia|lia|]; rewrite fmap_app; apply extends_end.
Qed.

(** A new node has no handler to overwrite. *)
Lemma add_first h arg lg m : handler_instances_add [] h arg lg m = handler_instances_add [] h arg false m.
Proof. unfold handler_instances_add. by destruct lg. Qed.
Lemma add_first_base e eid h arg lg m :
  base_node_add_handler (MkBaseNode e [] []) eid h arg lg m = base_node_add_handler (MkBaseNode e [] []) eid h arg false m.
Proof.
  unfold base_node_add_handler. cbn [base base_handlers id_nodes update_last]. destruct (eid =? _); [by rewrite (add_first _ _ lg)|].
  destruct (calloc m) as [[a|] m1]; [by rewrite (add_first _ _ lg)|done].
Qed.
Lemma add_first_loop e eid h arg lg m :
  loop_node_add_handler (MkLoopNode [] []) e eid h arg lg m = loop_node_add_handler (MkLoopNode [] []) e eid h arg false m.
Proof.
  unfold loop_node_add_handler. cbn [loop_handlers base_nodes]. destruct (_ && _); [by rewrite (add_first _ _ lg)|].
  cbn [filter list_filter last]. destruct (calloc m) as [[a|] m1]; [by rewrite (add_first_base _ _ _ _ lg)|done].
Qed.

(** The dispatch position of a handler is behind those of the events it shares. *)
Lemma base_node_added lg n eid h arg m :
  base_wf n -> (eid = ESP_EVENT_ANY_ID -> id_nodes n = []) ->
  let '(err, n', ctx, m') := base_node_add_handler n eid h arg lg m in
  base n' = base n /\ base_wf n' /\
  added lg (if eid =? ESP_EVENT_ANY_ID then OfBase (base n) else OfEvent (base n) eid) h arg m m' (flat_base n) (flat_base n') err ctx.
Proof.
  intros Hwf Hany. unfold base_node_add_handler. destruct (Z.eqb_spec eid ESP_EVENT_ANY_ID) as [Ei|Ei].
  - pose proof (instances_added lg (OfBase (base n)) (base_handlers n) h arg m) as H.
    destruct (handler_instances_add _ _ _ _ _) as [[[err l] ctx] m'].
    split_and!; [done|done|]. unfold flat_base. cbn [base base_handlers id_nodes]. rewrite (Hany Ei). apply added_after; [exact H|by apply Forall_nil].
  - match goal with |- context [update_last _ ?g _] => set (f := g) end. destruct (update_last _ f (id_nodes n)) as [[[[err ctx] m'] l]|] eqn:E.
    + apply update_last_some in E as (l1 & x & y & l2 & En & Hx & Hf & -> & Hl2).
      unfold f in Hf. pose proof (instances_added lg (OfEvent (base n) eid) (id_handlers x) h arg m) as H.
      destruct (handler_instances_add _ _ _ _ _) as [[[err0 l0] ctx0] m0]. injection Hf as -> -> -> <-.
      apply Z.eqb_eq in Hx. split_and!; [done| |].
      * unfold base_wf in *. cbn [id_nodes]. rewrite En in Hwf. rewrite !fmap_app, !fmap_cons in *. done.
      * unfold flat_base. cbn [base base_handlers id_nodes]. rewrite En. apply added_before. rewrite !flat_ids_app. apply added_before.
        change (flat_ids (base n) (?a :: l2)) with (flat_id (base n) a ++ flat_ids (base n) l2).
        apply added_after; [unfold flat_id; cbn [id id_handlers]; rewrite Hx; exact H|].
        apply Forall_forall. intros e He%list_elem_of_In%in_concat. destruct He as (l' & Hl' & He).
        apply list_elem_of_In, list_elem_of_fmap in Hl' as (z & -> & Hz). apply list_elem_of_In, list_elem_of_fmap in He as (hh & -> & _).
        apply apart_id. rewrite Forall_forall in Hl2. apply Hl2 in Hz. lia.
    + destruct (calloc m) as [p m1] eqn:E1. pose proof (calloc_next m) as N1. rewrite E1 in N1. cbn in N1.
      destruct p; [|split_and!; [done|done|split; [lia|right; by left]]].
      rewrite add_first. pose proof (instances_added false (OfEvent (base n) eid) [] h arg m1) as H.
      destruct (handler_instances_add _ _ _ _ _) as [[[err l] ctx] m2].
      apply (added_later _ _ _ _ m) in H; [|lia]. destruct H as (Hm & [(-> & c & -> & Hc & He)|[(-> & -> & Hl)|(? & _)]]); [| |done].
      * change (ESP_OK =? ESP_OK) with true. cbn iota. split_and!; [done| |].
        -- unfold base_wf in *. cbn [id_nodes]. rewrite fmap_app. apply NoDup_app. split_and!; [done| |apply NoDup_singleton].
           intros j Hj Hj'%list_elem_of_singleton. cbn in Hj'. subst. apply list_elem_of_fmap in Hj as (k0 & Ez & Hz).
           apply update_last_none in E. rewrite Forall_forall in E. apply E in Hz as Hz'. apply Z.eqb_neq in Hz'. congruence.
        -- split; [done|]. left. split; [done|]. exists c. split_and!; [done|lia|lia|].
           unfold flat_base. cbn [base base_handlers id_nodes]. rewrite flat_ids_app. apply extends_before.
           rewrite <- (app_nil_r (flat_ids _ (id_nodes n))) at 1. apply extends_before. unfold flat_ids. cbn. rewrite app_nil_r. exact He.
      * change (ESP_ERR_NO_MEM =? ESP_OK) with false. cbn iota. split_and!; [done|done|]. split; [done|right; by left].
Qed.

Lemma flat_bases_levels l y : y ∈ flat_bases l -> exists n, n ∈ l /\ (y.1 = OfBase (base n) \/ (exists i, y.1 = OfEvent (base n) i)).
Proof.
  intros H%list_elem_of_In%in_concat. destruct H as (l' & Hl' & Hy).
  apply list_elem_of_In, list_elem_of_fmap in Hl' as (n & -> & Hn). apply list_elem_of_In, flat_base_levels in Hy. by exists n.
Qed.

Lemma level_below ebase eid :
  (ebase =? esp_event_any_base) && (eid =? ESP_EVENT_ANY_ID) = false ->
  level_of ebase eid = (if eid =? ESP_EVENT_ANY_ID then OfBase ebase else OfEvent ebase eid).
Proof. unfold level_of. by intros ->. Qed.

Lemma is_nil_spec {A} (l : list A) : is_nil l = true <-> l = [].
Proof. by destruct l. Qed.

Lemma loop_node_added lg n ebase eid h arg m :
  loop_wf n -> ((ebase =? esp_event_any_base) && (eid =? ESP_EVENT_ANY_ID) = true -> base_nodes n = []) ->
  let '(err, n', ctx, m') := loop_node_add_handler n ebase eid h arg lg m in
  loop_wf n' /\ added lg (level_of ebase eid) h arg m m' (flat_loop n) (flat_loop n') err ctx.
Proof.
  intros Hwf Hany. unfold loop_node_add_handler.
  destruct ((ebase =? esp_event_any_base) && (eid =? ESP_EVENT_ANY_ID)) eqn:El.
  - pose proof (instances_added lg AnyEvent (loop_handlers n) h arg m) as H.
    destruct (handler_instances_add _ _ _ _ _) as [[[err l] ctx] m']. split; [done|].
    unfold level_of. rewrite El. unfold flat_loop. cbn [loop_handlers base_nodes]. rewrite (Hany eq_refl).
    apply added_after; [exact H|by apply Forall_nil].
  - rewrite (level_below _ _ El).
    match goal with |- context [if ?c then let (_, _) := calloc m in _ else _] => destruct c eqn:Enew end.
    + destruct (calloc m) as [p m1] eqn:E1. pose proof (calloc_next m) as N1. rewrite E1 in N1. cbn in N1.
      destruct p; [|split; [done|split; [lia|right; by left]]].
      rewrite add_first_base. pose proof (base_node_added false (MkBaseNode ebase [] []) eid h arg m1 ltac:(apply NoDup_nil_2) ltac:(done)) as H.
      destruct (base_node_add_handler _ _ _ _ _ _) as [[[err b] ctx] m2]. destruct H as (Hb & Hbwf & H).
      apply (added_later _ _ _ _ m) in H; [|lia]. cbn [base] in H. destruct H as (Hm & [(-> & c & -> & Hc & He)|[(-> & -> & _)|(? & _)]]); [| |done].
      * change (ESP_OK =? ESP_OK) with true. cbn iota. split; [apply Forall_app; by split; [|apply Forall_singleton]|].
        split; [done|]. left. split; [done|]. exists c. split_and!; [done|lia|lia|].
        unfold flat_loop. cbn [loop_handlers base_nodes]. rewrite flat_bases_app. apply extends_before.
        rewrite <- (app_nil_r (flat_bases (base_nodes n))) at 1. apply extends_before. unfold flat_bases. cbn. rewrite app_nil_r. exact He.
      * change (ESP_ERR_NO_MEM =? ESP_OK) with false. cbn iota. split; [done|]. split; [done|right; by left].
    + destruct (last (filter (fun it => base it = ebase) (base_nodes n))) as [b|] eqn:Eb; [|done].
      destruct (last (base_nodes n)) as [lb|]; [|done].
      match goal with |- context [update_last _ ?g _] => set (f := g) end.
      destruct (update_last _ f (base_nodes n)) as [[[[err ctx] m'] l]|] eqn:E.
      * apply update_last_some in E as (l1 & x & y & l2 & En & Hx & Hf & -> & Hl2). apply Z.eqb_eq in Hx.
        assert (x = b) as ->.
        { rewrite En, filter_app, filter_cons, decide_True in Eb by done.
          assert (filter (fun it => base it = ebase) l2 = []) as Hn.
          { apply filter_none. eapply Forall_impl; [exact Hl2|]. intros z Hz. cbn in Hz. lia. }
          rewrite Hn, last_snoc in Eb. by injection Eb. }
        assert (base_wf b) as Hb by (apply (proj1 (Forall_forall _ _) Hwf); rewrite En; apply elem_of_app; right; by left).
        unfold f in Hf. pose proof (base_node_added lg b eid h arg m Hb) as H.
        destruct (base_node_add_handler _ _ _ _ _ _) as [[[err0 b0] ctx0] m0]. injection Hf as -> -> -> <-.
        destruct H as (Hbb & Hb0 & H).
        { intros Ei. apply orb_false_iff in Enew as [Enew _]. rewrite (proj2 (Z.eqb_eq _ _) Ei), andb_true_r in Enew.
          by apply negb_false_iff, is_nil_spec in Enew. }
        split.
        -- unfold loop_wf in *. cbn [base_nodes]. rewrite En, !Forall_app, !Forall_cons in *. tauto.
        -- unfold flat_loop. cbn [loop_handlers base_nodes]. rewrite En. apply added_before. rewrite !flat_bases_app. apply added_before.
           change (flat_bases (?a :: l2)) with (flat_base a ++ flat_bases l2). rewrite Hx in H. apply added_after; [exact H|].
           apply Forall_forall. intros e (z & Hz & Hlv)%flat_bases_levels.
           rewrite Forall_forall in Hl2. apply Hl2 in Hz. apply (apart_base ebase (base z)); [cbn in Hz; lia| |done].
           destruct (eid =? ESP_EVENT_ANY_ID); [by left|right; by exists eid].
      * apply update_last_none in E. exfalso. assert (b ∈ filter (fun it => base it = ebase) (base_nodes n)) as Hb by (by apply last_Some_elem_of).
        apply list_elem_of_filter in Hb as [Hb1 Hb2]. rewrite Forall_forall in E. apply E in Hb2. lia.
Qed.

(** The level that the arguments of a call mean. *)
Definition call_level (ebase eid : Z) : level :=
  level_of (if ebase =? ESP_EVENT_ANY_BASE then esp_event_any_base else ebase) eid.
Definition bad_level (ebase eid : Z) : bool := (ebase =? ESP_EVENT_ANY_BASE) && negb (eid =? ESP_EVENT_ANY_ID).

(** The rest of the loop. *)
Definition same_rest (s s' : esp_event_loop_instance) : Prop :=
  queue_size s' = queue_size s /\ queue s' = queue s /\ log s' = log s.

Lemma register_added lg ebase eid h arg s :
  nodes_wf (loop_nodes s) -> bad_level ebase eid = false ->
  let '(err, ctx, s') := esp_event_handler_register_with_internal ebase eid h arg lg s in
  same_rest s s' /\ nodes_wf (loop_nodes s') /\
  added lg (call_level ebase eid) h arg (heap s) (heap s') (flatten (loop_nodes s)) (flatten (loop_nodes s')) err ctx.
Proof.
  intros Hwf Hbad. unfold esp_event_handler_register_with_internal.
  fold (bad_level ebase eid). rewrite Hbad. unfold call_level. set (eb := if ebase =? ESP_EVENT_ANY_BASE then _ else _).
  destruct s as [n q l m g]. cbn [loop_nodes heap].
  match goal with |- context [if ?c then let (_, _) := calloc m in _ else _] => destruct c eqn:Enew end.
  - destruct (calloc m) as [p m1] eqn:E1. pose proof (calloc_next m) as N1. rewrite E1 in N1. cbn in N1.
    destruct p; [|split; [done|]; split; [done|]; split; cbn; [lia|right; by left]].
    rewrite add_first_loop. pose proof (loop_node_added false (MkLoopNode [] []) eb eid h arg m1 ltac:(by apply Forall_nil) ltac:(done)) as H.
    destruct (loop_node_add_handler _ _ _ _ _ _ _) as [[[err l'] ctx] m2]. destruct H as [Hl' H].
    apply (added_later _ _ _ _ m) in H; [|lia]. destruct H as (Hm & [(-> & c & -> & Hc & He)|[(-> & -> & _)|(? & _)]]); [| |done];
      cbn [Z.eqb ESP_OK ESP_ERR_NO_MEM set_nodes set_memory loop_nodes heap].
    + split; [done|]. split; [apply Forall_app; by split; [|apply Forall_singleton]|]. split; [done|].
      left. split; [done|]. exists c. split_and!; [done|lia|lia|].
      rewrite flatten_app. rewrite <- (app_nil_r (flatten l)) at 1. apply extends_before. unfold flatten. cbn. rewrite app_nil_r. exact He.
    + split; [done|]. split; [done|]. split; [done|]. right; by left.
  - destruct (last l) as [ll|] eqn:Ell; [|done].
    match goal with |- context [update_last _ ?f _] => set (ff := f) end.
    destruct (update_last _ ff l) as [[[[err ctx] m'] l']|] eqn:E.
    + apply update_last_some in E as (l1 & x & y & l2 & -> & _ & Hf & -> & Hl2).
      assert (l2 = []) as -> by (destruct l2 as [|z l2]; [done|by apply Forall_cons in Hl2 as [? _]]).
      rewrite last_snoc in Ell. injection Ell as ->. apply Forall_app in Hwf as [Hwf1 Hwf2]. apply Forall_cons in Hwf2 as [Hwf2 _].
      unfold ff in Hf. pose proof (loop_node_added lg ll eb eid h arg m Hwf2) as H.
      destruct (loop_node_add_handler _ _ _ _ _ _ _) as [[[err0 n0] ctx0] m0]. injection Hf as -> -> -> <-. destruct H as [Hn0 H].
      { intros Ha. rewrite Ha, andb_true_r in Enew. by apply negb_false_iff, is_nil_spec in Enew. }
      cbn [set_nodes set_memory loop_nodes heap]. split; [done|]. split; [apply Forall_app; by split; [|apply Forall_singleton]|].
      rewrite !flatten_app. apply added_before. unfold flatten. cbn. rewrite !app_nil_r. exact H.
    + apply update_last_none in E. exfalso. destruct l as [|z l]; [done|]. by apply Forall_cons in E as [? _].
Qed.

(** ** Removing *)

(** Without the first entry that has a property. *)
Fixpoint remove_first (P : entry -> bool) (l : list entry) : option (list entry) :=
  match l with
  | [] => None
  | x :: l => if P x then Some l else match remove_first P l with Some l => Some (x :: l) | None => None end
  end.

Lemma remove_first_app P l1 l2 :
  remove_first P (l1 ++ l2) =
  match remove_first P l1 with
  | Some l => Some (l ++ l2)
  | None => match remove_first P l2 with Some l => Some (l1 ++ l) | None => None end
  end.
Proof.
  induction l1 as [|x l1 IH]; cbn; [by destruct (remove_first P l2)|]. destruct (P x); [done|]. rewrite IH.
  destruct (remove_first P l1); [done|]. by destruct (remove_first P l2).
Qed.

Lemma remove_first_none P l : Forall (fun x => P x = false) l -> remove_first P l = None.
Proof. induction 1 as [|x l Hx Hl IH]; [done|]. cbn. by rewrite Hx, IH. Qed.

Lemma remove_first_concat {A} P (flat : A -> list entry) f (l : list A) :
  (forall x, x ∈ l -> match f x with
              | Some (Some y) => remove_first P (flat x) = Some (flat y)
              | Some None => remove_first P (flat x) = Some []
              | None => remove_first P (flat x) = None
              end) ->
  remove_first P (concat (flat <$> l)) = (fun l => concat (flat <$> l)) <$> remove_in f l.
Proof.
  induction l as [|x l IH]; intros Hf; [done|]. rewrite fmap_cons. cbn [concat remove_in]. rewrite remove_first_app.
  pose proof (Hf x ltac:(by left)) as Hx. destruct (f x) as [[y|]|]; rewrite Hx; [done|done|].
  rewrite IH by (intros; apply Hf; by right). by destruct (remove_in f l).
Qed.

(** The entry that a request removes. *)
Definition requested (ctx : esp_event_remove_handler_context) (x : entry) : bool :=
  bool_decide (x.1 = level_of (event_base ctx) (event_id ctx)) && is_handler ctx x.2.

Definition at_level (lvl : level) (hs : list esp_event_handler_node) : list entry := (fun h => (lvl, h)) <$> hs.

Lemma remove_handlers ctx lvl hs :
  lvl = level_of (event_base ctx) (event_id ctx) ->
  remove_first (requested ctx) (at_level lvl hs) = at_level lvl <$> handler_instances_remove ctx hs.
Proof.
  intros Hl. unfold handler_instances_remove, at_level. induction hs as [|h hs IH]; [done|]. rewrite fmap_cons. cbn [remove_first remove_in].
  unfold requested at 1. cbn [fst snd]. rewrite bool_decide_eq_true_2 by done. cbn [andb].
  destruct (is_handler ctx h); [done|]. rewrite IH. by destruct (remove_in _ hs).
Qed.

Lemma other_level ctx l : Forall (fun x : entry => x.1 <> level_of (event_base ctx) (event_id ctx)) l -> remove_first (requested ctx) l = None.
Proof.
  intros H. apply remove_first_none. eapply Forall_impl; [exact H|]. intros x Hx. unfold requested. by rewrite bool_decide_eq_false_2.
Qed.

Definition loop_level (ctx : esp_event_remove_handler_context) : bool :=
  (event_base ctx =? esp_event_any_base) && (event_id ctx =? ESP_EVENT_ANY_ID).

Lemma remove_ids ctx b l :
  event_id ctx <> ESP_EVENT_ANY_ID -> b = event_base ctx ->
  remove_first (requested ctx) (flat_ids b l) =
  flat_ids b <$> remove_in (fun it =>
        if id it =? event_id ctx then
          let? l := handler_instances_remove ctx (id_handlers it) in
          Some (if is_nil l then None else Some (MkIdNode (id it) l))
        else None) l.
Proof.
  intros Hid Hb. unfold flat_ids. apply (remove_first_concat (requested ctx) (flat_id b)). intros x _.
  assert (level_of (event_base ctx) (event_id ctx) = OfEvent b (event_id ctx)) as Hlv.
  { unfold level_of. rewrite (proj2 (Z.eqb_neq _ _) Hid), andb_false_r. by subst. }
  destruct (Z.eqb_spec (id x) (event_id ctx)) as [Ex|Ex].
  - change (flat_id b x) with (at_level (OfEvent b (id x)) (id_handlers x)). rewrite remove_handlers by (by rewrite Hlv, Ex).
    destruct (handler_instances_remove ctx (id_handlers x)) as [l0|]; [|done]. by destruct l0.
  - apply other_level, Forall_forall. intros y (h & -> & _)%list_elem_of_fmap. rewrite Hlv. cbn. congruence.
Qed.

Lemma remove_base ctx n :
  loop_level ctx = false -> base n = event_base ctx ->
  remove_first (requested ctx) (flat_base n) = flat_base <$> base_node_remove_handler ctx n.
Proof.
  intros Hll Hb. unfold flat_base, base_node_remove_handler. rewrite remove_first_app.
  change ((fun h => (OfBase (base n), h)) <$> base_handlers n) with (at_level (OfBase (base n)) (base_handlers n)).
  destruct (Z.eqb_spec (event_id ctx) ESP_EVENT_ANY_ID) as [Ei|Ei].
  - assert (OfBase (base n) = level_of (event_base ctx) (event_id ctx)) as Hlv.
    { unfold loop_level in Hll. rewrite level_below by done. rewrite Ei. by rewrite Hb. }
    rewrite remove_handlers by done. destruct (handler_instances_remove ctx (base_handlers n)); [done|]. cbn [fmap option_fmap option_map].
    rewrite other_level; [done|]. rewrite <- Hlv. apply Forall_forall. intros y Hy.
    apply list_elem_of_In, in_concat in Hy as (l' & Hl' & Hy). apply list_elem_of_In, list_elem_of_fmap in Hl' as (x & -> & _).
    apply list_elem_of_In, list_elem_of_fmap in Hy as (h & -> & _). done.
  - rewrite other_level.
    + rewrite (remove_ids ctx (base n)) by done. by destruct (remove_in _ (id_nodes n)).
    + apply Forall_forall. intros y (h & -> & _)%list_elem_of_fmap. cbn. unfold level_of.
      rewrite (proj2 (Z.eqb_neq _ _) Ei), andb_false_r. done.
Qed.

Lemma remove_loop_node ctx n :
  remove_first (requested ctx) (flat_loop n) = flat_loop <$> loop_node_remove_handler ctx n.
Proof.
  unfold flat_loop, loop_node_remove_handler. rewrite remove_first_app. fold (loop_level ctx).
  change ((fun h => (AnyEvent, h)) <$> loop_handlers n) with (at_level AnyEvent (loop_handlers n)).
  destruct (loop_level ctx) eqn:El.
  - assert (AnyEvent = level_of (event_base ctx) (event_id ctx)) as Hlv by (unfold level_of; unfold loop_level in El; by rewrite El).
    rewrite remove_handlers by done. destruct (handler_instances_remove ctx (loop_handlers n)); [done|]. cbn [fmap option_fmap option_map].
    rewrite other_level; [done|]. rewrite <- Hlv. apply Forall_forall. intros y (x & _ & [->|[i ->]])%flat_bases_levels; done.
  - rewrite other_level.
    + unfold flat_bases. match goal with |- context [remove_in ?f _] => rewrite (remove_first_concat _ flat_base f) end;
        [by destruct (remove_in _ (base_nodes n))|].
      intros x _. cbn beta. destruct (Z.eqb_spec (base x) (event_base ctx)) as [Ex|Ex].
      * rewrite remove_base by done. destruct (base_node_remove_handler ctx x) as [b|]; [|done]. cbn [fmap option_fmap option_map].
        destruct (is_nil (base_handlers b) && is_nil (id_nodes b)) eqn:En; [|done].
        apply andb_true_iff in En as [E1%is_nil_spec E2%is_nil_spec]. unfold flat_base. by rewrite E1, E2.
      * apply other_level, Forall_forall. intros y Hy. rewrite level_below by done.
        apply flat_base_levels in Hy as [->|[i ->]]; destruct (event_id ctx =? ESP_EVENT_ANY_ID); congruence.
    + apply Forall_forall. intros y (h & -> & _)%list_elem_of_fmap. cbn. rewrite level_below by done. by destruct (event_id ctx =? ESP_EVENT_ANY_ID).
Qed.

(** The request removes the first handler it means, if there is one. *)
Lemma remove_flatten ctx s :
  let '(err, s') := loop_remove_handler ctx s in
  same_rest s s' /\ heap s' = heap s /\
  match remove_first (requested ctx) (flatten (loop_nodes s)) with
  | Some l => err = ESP_OK /\ flatten (loop_nodes s') = l
  | None => err = ESP_ERR_NOT_FOUND /\ s' = s
  end.
Proof.
  unfold loop_remove_handler, flatten at 1. match goal with |- context [remove_in ?f _] => rewrite (remove_first_concat _ flat_loop f) end.
  - destruct (remove_in _ (loop_nodes s)); [by destruct s|done].
  - intros x _. cbn beta. rewrite remove_loop_node. destruct (loop_node_remove_handler ctx x) as [n|]; [|done]. cbn [fmap option_fmap option_map].
    destruct (is_nil (base_nodes n) && is_nil (loop_handlers n)) eqn:En; [|done].
    apply andb_true_iff in En as [E1%is_nil_spec E2%is_nil_spec]. unfold flat_loop. by rewrite E1, E2.
Qed.

Lemma remove_in_forall {A} (Q : A -> Prop) f l l' :
  (forall x y, Q x -> f x = Some (Some y) -> Q y) -> Forall Q l -> remove_in f l = Some l' -> Forall Q l'.
Proof.
  intros Hf Hl. revert l'. induction Hl as [|x l Hx Hl IH]; intros l' E; [done|]. cbn in E.
  destruct (f x) as [[y|]|] eqn:Ef.
  - injection E as <-. constructor; [by eapply Hf|done].
  - by injection E as <-.
  - destruct (remove_in f l); [|done]. injection E as <-. constructor; [done|by apply IH].
Qed.

Lemma remove_in_sublist {A B} (g : A -> B) f l l' :
  (forall x y, f x = Some (Some y) -> g y = g x) -> remove_in f l = Some l' -> sublist (g <$> l') (g <$> l).
Proof.
  intros Hf. revert l'. induction l as [|x l IH]; intros l' E; [done|]. cbn in E. rewrite fmap_cons.
  destruct (f x) as [[y|]|] eqn:Ef.
  - injection E as <-. rewrite fmap_cons, (Hf _ _ Ef). done.
  - injection E as <-. by apply sublist_cons.
  - destruct (remove_in f l) as [l0|]; [|done]. injection E as <-. rewrite fmap_cons. by apply sublist_skip, IH.
Qed.

Lemma remove_base_wf ctx n n' : base_wf n -> base_node_remove_handler ctx n = Some n' -> base_wf n'.
Proof.
  unfold base_node_remove_handler, base_wf. intros Hn E. destruct (event_id ctx =? ESP_EVENT_ANY_ID).
  - destruct (handler_instances_remove ctx (base_handlers n)); [|done]. by injection E as <-.
  - match type of E with context [remove_in ?f ?l] => destruct (remove_in f l) as [l'|] eqn:El end; [|done]. injection E as <-. cbn [id_nodes].
    eapply sublist_NoDup; [exact Hn|]. eapply remove_in_sublist; [|exact El]. intros x y. cbn beta.
    destruct (id x =? event_id ctx); [|done]. destruct (handler_instances_remove ctx (id_handlers x)) as [l0|]; [|done].
    destruct (is_nil l0); [done|]. by intros [= <-].
Qed.

Lemma remove_wf ctx s : nodes_wf (loop_nodes s) -> nodes_wf (loop_nodes (loop_remove_handler ctx s).2).
Proof.
  intros Hwf. unfold loop_remove_handler. match goal with |- context [remove_in ?f ?l] => destruct (remove_in f l) as [l'|] eqn:El end; [|done].
  destruct s as [n q l m g]. cbn in *. eapply remove_in_forall; [|exact Hwf|exact El]. intros x y Hx. cbn beta.
  destruct (loop_node_remove_handler ctx x) as [z|] eqn:Ez; [|done]. destruct (_ && _); [done|]. intros [= <-].
  unfold loop_node_remove_handler in Ez. destruct (_ && _).
  - destruct (handler_instances_remove _ _); [|done]. by injection Ez as <-.
  - match type of Ez with context [remove_in ?f ?l0] => destruct (remove_in f l0) as [l1|] eqn:El1 end; [|done]. injection Ez as <-.
    unfold loop_wf in *. cbn [base_nodes]. eapply remove_in_forall; [|exact Hx|exact El1]. intros b b' Hb. cbn beta.
    destruct (_ =? _); [|done]. destruct (base_node_remove_handler ctx b) as [b1|] eqn:Eb; [|done]. destruct (_ && _); [done|].
    intros [= <-]. by eapply remove_base_wf.
Qed.

(** ** Marking *)

Definition mark_entry (c : Z) (x : entry) : entry := (x.1, if handler_ctx x.2 =? c then mark_unregistered x.2 else x.2).

Lemma concat_fmap {A B} (f : A -> B) (ls : list (list A)) : f <$> concat ls = concat ((fmap f : list A -> list B) <$> ls).
Proof. induction ls as [|l ls IH]; [done|]. cbn [concat]. rewrite fmap_app, IH. done. Qed.

Lemma mark_level c lvl hs : at_level lvl (mark_handlers c hs) = mark_entry c <$> at_level lvl hs.
Proof. unfold at_level, mark_handlers. rewrite <- !list_fmap_compose. done. Qed.

Lemma flatten_mark c l : flatten (mark_nodes c l) = mark_entry c <$> flatten l.
Proof.
  unfold flatten, mark_nodes. rewrite concat_fmap, <- !list_fmap_compose. f_equal. apply list_fmap_ext. intros _ n _. cbn.
  unfold flat_loop. cbn [loop_handlers base_nodes]. rewrite fmap_app. f_equal; [apply (mark_level c AnyEvent)|].
  unfold flat_bases. rewrite concat_fmap, <- !list_fmap_compose. f_equal. apply list_fmap_ext. intros _ b _. cbn.
  unfold flat_base. cbn [base base_handlers id_nodes]. rewrite fmap_app. f_equal; [apply (mark_level c (OfBase (base b)))|].
  unfold flat_ids. rewrite concat_fmap, <- !list_fmap_compose. f_equal. apply list_fmap_ext. intros _ i _. cbn.
  unfold flat_id. cbn [id id_handlers]. apply (mark_level c (OfEvent (base b) (id i))).
Qed.

Lemma mark_wf c l : nodes_wf l -> nodes_wf (mark_nodes c l).
Proof.
  unfold nodes_wf, mark_nodes. intros H. apply Forall_fmap. eapply Forall_impl; [exact H|]. intros n Hn. unfold loop_wf in *. cbn.
  apply Forall_fmap. eapply Forall_impl; [exact Hn|]. intros b Hb. unfold base_wf in *. cbn. rewrite <- list_fmap_compose. exact Hb.
Qed.

(** What the search finds is a handler of the loop that fits the request. *)
Definition found_in (ctx : esp_event_remove_handler_context) (l : list esp_event_handler_node) (r : option esp_event_handler_node) : Prop :=
  forall h, r = Some h -> h ∈ l /\ is_handler ctx h = true.

Lemma found_weaken ctx l l' r : found_in ctx l r -> (forall h, h ∈ l -> h ∈ l') -> found_in ctx l' r.
Proof. intros H Hl h E. apply H in E as [Hh He]. split; [by apply Hl|done]. Qed.

Lemma scan_found ctx r l p : found_in ctx p r -> found_in ctx (p ++ l) (scan ctx r l).
Proof.
  intros Hr h. unfold scan. destruct (head _) as [h'|] eqn:E.
  - intros [= <-]. apply head_Some_elem_of, list_elem_of_filter in E as [E1 E2]. split; [apply elem_of_app; by right|done].
  - intros E'. apply Hr in E' as [? ?]. split; [apply elem_of_app; by left|done].
Qed.

Lemma scan_ids_found ctx b r l p :
  found_in ctx p r -> found_in ctx (p ++ (flat_ids b l).*2) (scan_ids ctx r l).
Proof.
  revert r p. induction l as [|x l IH]; intros r p Hr; cbn [scan_ids]; [by rewrite app_nil_r|].
  change (flat_ids b (x :: l)) with (flat_id b x ++ flat_ids b l). rewrite fmap_app, app_assoc. apply IH.
  assert ((flat_id b x).*2 = id_handlers x) as ->
    by (unfold flat_id; rewrite <- list_fmap_compose; cbn; apply list_fmap_id).
  destruct (_ =? _); [by apply scan_found|]. eapply found_weaken; [exact Hr|]. intros h Hh. apply elem_of_app. by left.
Qed.

Lemma at_level_snd lvl hs : (at_level lvl hs).*2 = hs.
Proof. unfold at_level. rewrite <- list_fmap_compose. cbn. apply list_fmap_id. Qed.

Lemma scan_bases_found ctx r l p : found_in ctx p r -> found_in ctx (p ++ (flat_bases l).*2) (scan_bases ctx r l).
Proof.
  revert r p. induction l as [|x l IH]; intros r p Hr; cbn [scan_bases]; [by rewrite app_nil_r|].
  change (flat_bases (x :: l)) with (flat_base x ++ flat_bases l). rewrite fmap_app, app_assoc.
  destruct (base x =? event_base ctx).
  - pose proof (scan_found ctx r (base_handlers x) p Hr) as H1. unfold flat_base. rewrite fmap_app.
    change ((fun h => (OfBase (base x), h)) <$> base_handlers x) with (at_level (OfBase (base x)) (base_handlers x)). rewrite at_level_snd.
    destruct (scan ctx r (base_handlers x)) as [h|] eqn:E.
    + eapply found_weaken; [exact H1|]. intros y. rewrite !elem_of_app. tauto.
    + apply IH. eapply found_weaken; [apply (scan_ids_found ctx (base x) None (id_nodes x) []); done|].
      intros y. cbn [app]. rewrite !elem_of_app. tauto.
  - apply IH. eapply found_weaken; [exact Hr|]. intros y Hy. apply elem_of_app. by left.
Qed.

Lemma scan_loop_found ctx r l p : found_in ctx p r -> found_in ctx (p ++ (flatten l).*2) (scan_loop ctx r l).
Proof.
  revert r p. induction l as [|x l IH]; intros r p Hr; cbn [scan_loop]; [by rewrite app_nil_r|].
  change (flatten (x :: l)) with (flat_loop x ++ flatten l). rewrite fmap_app, app_assoc.
  pose proof (scan_found ctx r (loop_handlers x) p Hr) as H1. unfold flat_loop. rewrite fmap_app.
  change ((fun h => (AnyEvent, h)) <$> loop_handlers x) with (at_level AnyEvent (loop_handlers x)). rewrite at_level_snd.
  destruct (scan ctx r (loop_handlers x)) as [h|] eqn:E.
  - eapply found_weaken; [exact H1|]. intros y. rewrite !elem_of_app. tauto.
  - apply IH. eapply found_weaken; [apply (scan_bases_found ctx None (base_nodes x) []); done|].
    intros y. cbn [app]. rewrite !elem_of_app. tauto.
Qed.

Lemma scan_spec ctx l h : scan_loop ctx None l = Some h -> h ∈ (flatten l).*2 /\ is_handler ctx h = true.
Proof. intros E. by apply (scan_loop_found ctx None l []). Qed.

(** ** Dispatching when the handlers make no calls *)

Definition add_logs (es : list event) (s : esp_event_loop_instance) : esp_event_loop_instance :=
  let (n, q, l, m, g) := s in MkLoop n q l m (g ++ es).

Lemma add_logs_nil s : add_logs [] s = s.
Proof. destruct s. cbn. by rewrite app_nil_r. Qed.
Lemma add_logs_app e1 e2 s : add_logs e2 (add_logs e1 s) = add_logs (e1 ++ e2) s.
Proof. destruct s. cbn. by rewrite app_assoc. Qed.

(** The executions for a post of a list of handlers. *)
Definition executions (post : esp_event_post_instance) (hs : list esp_event_handler_node) : list event :=
  (fun h => Exec (Executed (handler_ctx h) (ctx_handler h) (ctx_arg h) post)) <$> filter (fun h => unregistered h = false) hs.

Lemma executions_app post l1 l2 : executions post (l1 ++ l2) = executions post l1 ++ executions post l2.
Proof. unfold executions. by rewrite filter_app, fmap_app. Qed.

(** Up to the first element at which the loop is left. *)
Fixpoint until {A} (stop : A -> bool) (l : list A) : list A :=
  match l with [] => [] | x :: l => x :: if stop x then [] else until stop l end.

Section quiet.
Context {A : Type} (get : esp_event_loop_instance -> list A) (step : A -> list event) (stop : A -> bool).
Context (body : nat -> running -> option (running * bool)).
Context (ok : esp_event_loop_instance -> Prop) (Hok : forall es s, ok s -> ok (add_logs es s)).
Context (Hget : forall es s, get (add_logs es s) = get s).
Context (Hbody : forall s j a, ok s -> get s !! j = Some a -> body j (s, []) = Some ((add_logs (step a) s, []), stop a)).

Lemma foreach_safe_quiet fuel s j :
  ok s -> (j < length (get s))%nat -> (length (get s) - j <= fuel)%nat ->
  foreach_safe fuel (fun x => length (get x.1)) body j (s, []) = Some (add_logs (concat (step <$> until stop (drop j (get s)))) s, []).
Proof.
  revert s j. induction fuel as [|fuel IH]; intros s j Hs Hj Hf; [lia|]. cbn [foreach_safe fst].
  destruct (lookup_lt_is_Some_2 _ _ Hj) as [a Ha]. rewrite (Hbody _ _ _ Hs Ha).
  rewrite (drop_S _ _ _ Ha). cbn [until]. rewrite fmap_cons. cbn [concat].
  destruct (stop a); [by rewrite app_nil_r|].
  destruct (Nat.ltb_spec (S j) (length (get s))).
  - rewrite IH by (rewrite ?Hget; auto || lia). by rewrite Hget, add_logs_app.
  - rewrite drop_ge by lia. cbn. by rewrite app_nil_r.
Qed.

Lemma foreach_quiet s :
  ok s -> foreach (fun x => length (get x.1)) body (s, []) = Some (add_logs (concat (step <$> until stop (get s))) s, []).
Proof.
  intros Hs. unfold foreach. cbn [fst snd]. destruct (Nat.eqb_spec (length (get s)) 0) as [E|E].
  - apply nil_length_inv in E. rewrite E. cbn. by rewrite add_logs_nil.
  - rewrite foreach_safe_quiet by (done || lia). by rewrite drop_0.
Qed.
End quiet.

Lemma until_all {A} (l : list A) : until (fun _ => false) l = l.
Proof. induction l as [|x l IH]; [done|]. cbn. by rewrite IH. Qed.

Lemma run_handlers_quiet get post s :
  (forall es s, get (add_logs es s) = get s) ->
  run_handlers get post (s, []) = Some (add_logs (executions post (get s)) s, []).
Proof.
  intros Hget. unfold run_handlers.
  rewrite (foreach_quiet get (fun h => executions post [h]) (fun _ => false) _ (fun _ => True)); [|done|done| |done].
  - rewrite until_all. f_equal. f_equal. f_equal. generalize (get s) as l. induction l as [|h l IH]; [done|].
    rewrite fmap_cons. cbn [concat]. rewrite IH. by rewrite <- executions_app.
  - intros s' j h _ Hh. cbn [fst]. rewrite Hh. f_equal. unfold executions. rewrite filter_cons. cbn. destruct (unregistered h).
    + by rewrite add_logs_nil.
    + by destruct s'.
Qed.

Lemma loop_at_logs es s i : loop_at (add_logs es s) i = loop_at s i.
Proof. by destruct s. Qed.
Lemma base_at_logs es s i j : base_at (add_logs es s) i j = base_at s i j.
Proof. unfold base_at. by rewrite loop_at_logs. Qed.
Lemma id_at_logs es s i j k : id_at (add_logs es s) i j k = id_at s i j k.
Proof. unfold id_at. by rewrite base_at_logs. Qed.
Lemma nodes_logs es s : loop_nodes (add_logs es s) = loop_nodes s.
Proof. by destruct s. Qed.

(** The entries that an event reaches. *)
Definition takes (post : esp_event_post_instance) (x : entry) : Prop := matches (post_base post) (post_id post) x.1 = true.
#[export] Instance takes_dec post x : Decision (takes post x).
Proof. unfold takes. apply _. Defined.

Definition reached (post : esp_event_post_instance) (l : list entry) : list esp_event_handler_node := (filter (takes post) l).*2.

Lemma reached_app post l1 l2 : reached post (l1 ++ l2) = reached post l1 ++ reached post l2.
Proof. unfold reached. by rewrite filter_app, fmap_app. Qed.

Lemma reached_level post lvl hs :
  reached post (at_level lvl hs) = if matches (post_base post) (post_id post) lvl then hs else [].
Proof.
  unfold reached. destruct (matches _ _ lvl) eqn:E.
  - rewrite filter_everything; [apply at_level_snd|]. apply Forall_forall. intros x (h & -> & _)%list_elem_of_fmap. exact E.
  - rewrite filter_none; [done|]. apply Forall_forall. intros x (h & -> & _)%list_elem_of_fmap. unfold takes. cbn. by rewrite E.
Qed.

Lemma reached_ids post b l :
  NoDup (id <$> l) ->
  reached post (flat_ids b l) =
  if b =? post_base post then concat ((fun n => if id n =? post_id post then id_handlers n else []) <$> until (fun n => id n =? post_id post) l) else [].
Proof.
  induction l as [|x l IH]; intros Hnd; [by destruct (_ =? _)|]. rewrite fmap_cons in Hnd. apply NoDup_cons in Hnd as [Hx Hnd].
  change (flat_ids b (x :: l)) with (at_level (OfEvent b (id x)) (id_handlers x) ++ flat_ids b l).
  rewrite reached_app, reached_level, (IH Hnd). cbn [matches until]. rewrite fmap_cons. cbn [concat].
  destruct (b =? post_base post); cbn [andb]; [|done].
  destruct (Z.eqb_spec (id x) (post_id post)) as [E|E]; [|done]. rewrite fmap_nil. cbn [concat]. f_equal.
  rewrite E in Hx. clear -Hx. induction l as [|y l IH]; [done|]. rewrite fmap_cons in Hx. apply not_elem_of_cons in Hx as [Hy Hx]. cbn [until].
  rewrite fmap_cons. cbn [concat]. rewrite (proj2 (Z.eqb_neq _ _)) by congruence. by apply IH.
Qed.

Lemma run_id_nodes_quiet i j post s :
  base_wf (base_at s i j) ->
  run_id_nodes i j post (s, []) =
  Some (add_logs (executions post (reached post (flat_ids (post_base post) (id_nodes (base_at s i j))))) s, []).
Proof.
  intros Hwf. unfold run_id_nodes.
  rewrite (foreach_quiet (fun s => id_nodes (base_at s i j)) (fun n => executions post (if id n =? post_id post then id_handlers n else []))
             (fun n => id n =? post_id post) _ (fun _ => True)); [|done|intros; by rewrite base_at_logs| |done].
  - rewrite reached_ids, Z.eqb_refl by done. f_equal. f_equal. f_equal.
    generalize (until (fun n => id n =? post_id post) (id_nodes (base_at s i j))) as l.
    induction l as [|n l IH]; [done|]. rewrite !fmap_cons. cbn [concat]. by rewrite IH, executions_app.
  - intros s' k n _ Hn. cbn [fst]. assert (id_at s' i j k = n) as Hk by (unfold id_at; by rewrite Hn). rewrite Hk.
    destruct (id n =? post_id post); [|by rewrite add_logs_nil].
    rewrite run_handlers_quiet by (intros; by rewrite id_at_logs). by rewrite Hk.
Qed.

Lemma reached_base post n :
  base_wf n -> reached post (flat_base n) =
    if base n =? post_base post then base_handlers n ++ reached post (flat_ids (post_base post) (id_nodes n)) else [].
Proof.
  intros Hwf. unfold flat_base. rewrite reached_app.
  change ((fun h => (OfBase (base n), h)) <$> base_handlers n) with (at_level (OfBase (base n)) (base_handlers n)).
  rewrite reached_level. cbn [matches]. rewrite !reached_ids, Z.eqb_refl by done. by destruct (base n =? post_base post).
Qed.

Lemma run_base_nodes_quiet i post s :
  loop_wf (loop_at s i) ->
  run_base_nodes i post (s, []) = Some (add_logs (executions post (reached post (flat_bases (base_nodes (loop_at s i))))) s, []).
Proof.
  intros Hwf. unfold run_base_nodes.
  rewrite (foreach_quiet (fun s => base_nodes (loop_at s i)) (fun n => executions post (reached post (flat_base n))) (fun _ => false) _
    (fun s => loop_wf (loop_at s i))); [|intros; by rewrite loop_at_logs|intros; by rewrite loop_at_logs| |done].
  - rewrite until_all. f_equal. f_equal. f_equal. generalize (base_nodes (loop_at s i)) as l. induction l as [|n l IH]; [done|].
    rewrite fmap_cons. cbn [concat]. rewrite IH. change (flat_bases (n :: l)) with (flat_base n ++ flat_bases l).
    by rewrite reached_app, executions_app.
  - intros s' j n Hs Hn. cbn [fst].
    assert (base_at s' i j = n) as Hb by (unfold base_at; by rewrite Hn).
    assert (base_wf n) as Hw by (apply (proj1 (Forall_forall _ _) Hs); by eapply list_elem_of_lookup_2).
    rewrite Hb, (reached_base _ _ Hw). destruct (base n =? post_base post); [|by rewrite add_logs_nil].
    rewrite run_handlers_quiet by (intros; by rewrite base_at_logs). rewrite Hb.
    rewrite run_id_nodes_quiet by (by rewrite base_at_logs, Hb). by rewrite base_at_logs, Hb, add_logs_app, executions_app.
Qed.

Lemma reached_loop post n : reached post (flat_loop n) = loop_handlers n ++ reached post (flat_bases (base_nodes n)).
Proof.
  unfold flat_loop. rewrite reached_app.
  change ((fun h => (AnyEvent, h)) <$> loop_handlers n) with (at_level AnyEvent (loop_handlers n)). by rewrite reached_level.
Qed.

Lemma dispatch_quiet post s :
  nodes_wf (loop_nodes s) ->
  dispatch post (s, []) = Some (add_logs (executions post (reached post (flatten (loop_nodes s)))) s, []).
Proof.
  intros Hwf. unfold dispatch.
  rewrite (foreach_quiet loop_nodes (fun n => executions post (reached post (flat_loop n))) (fun _ => false) _
    (fun s => nodes_wf (loop_nodes s))); [|intros; by rewrite nodes_logs|intros; by rewrite nodes_logs| |done].
  - rewrite until_all. f_equal. f_equal. f_equal. generalize (loop_nodes s) as l. induction l as [|n l IH]; [done|].
    rewrite fmap_cons. cbn [concat]. rewrite IH. change (flatten (n :: l)) with (flat_loop n ++ flatten l).
    by rewrite reached_app, executions_app.
  - intros s' j n Hs Hn. cbn beta.
    assert (loop_at s' j = n) as Hb by (unfold loop_at; by rewrite Hn).
    assert (loop_wf n) as Hw by (apply (proj1 (Forall_forall _ _) Hs); by eapply list_elem_of_lookup_2).
    rewrite run_handlers_quiet by (intros; by rewrite loop_at_logs). rewrite Hb.
    rewrite run_base_nodes_quiet by (by rewrite loop_at_logs, Hb).
    by rewrite loop_at_logs, Hb, add_logs_app, reached_loop, executions_app.
Qed.
