(* ===== verification/EspEventSpec.v ===== *)
(** * What event loops guarantee

    Over sequences of calls an event loop implements a list of registrations:
    events are delivered in the order of posting, each to the handlers
    registered for it in the order of registration.  With handlers that use the
    interface while they run, a handler that was unregistered is not called
    again, and the dispatching ends. *)

From S2P Require Import Prelude EspErr EspEvent EspEventProps.

(** ** The invariant *)

Definition contexts (l : list entry) : list Z := (fun x => handler_ctx x.2) <$> l.

(** Contexts are allocated and belong to one handler. *)
Record inv (s : esp_event_loop_instance) : Prop := {
  inv_wf : nodes_wf (loop_nodes s);
  inv_own : NoDup (contexts (flatten (loop_nodes s)));
  inv_alloc : Forall (fun c => c < next_address (heap s)) (contexts (flatten (loop_nodes s)))
}.

Lemma contexts_identity l l' : identity <$> l = identity <$> l' -> contexts l = contexts l'.
Proof.
  intros E. apply (f_equal (fmap (fun i : level * Z * Z * bool => i.1.1.2))) in E. rewrite <- !list_fmap_compose in E. exact E.
Qed.

Lemma contexts_mark c l : contexts (mark_entry c <$> l) = contexts l.
Proof.
  unfold contexts. rewrite <- list_fmap_compose. apply list_fmap_ext. intros _ x _. unfold mark_entry. cbn. by destruct (_ =? c).
Qed.

Lemma extends_perm l l' x : extends l l' x -> l' ≡ₚ x :: l.
Proof. intros (l1 & l2 & -> & -> & _). by rewrite Permutation_middle. Qed.

Lemma remove_first_sublist P l l' : remove_first P l = Some l' -> sublist l' l.
Proof.
  revert l'. induction l as [|x l IH]; intros l' E; [done|]. cbn in E. destruct (P x).
  - injection E as <-. by apply sublist_cons.
  - destruct (remove_first P l); [|done]. injection E as <-. by apply sublist_skip, IH.
Qed.

(** A call that runs no handler: the handlers afterwards are new, or were there
    and are marked if they were. *)
Record quiet_step (s s' : esp_event_loop_instance) : Prop := {
  qs_inv : inv s';
  qs_next : next_address (heap s) <= next_address (heap s');
  qs_log : log s' = log s;
  qs_handlers : forall x', x' ∈ flatten (loop_nodes s') ->
    next_address (heap s) <= handler_ctx x'.2 \/
    exists x, x ∈ flatten (loop_nodes s) /\ handler_ctx x.2 = handler_ctx x'.2 /\ (unregistered x.2 = true -> unregistered x'.2 = true)
}.

Lemma quiet_refl s : inv s -> quiet_step s s.
Proof. intros H. split; [done|lia|done|]. intros x Hx. right. by exists x. Qed.

Lemma quiet_trans s1 s2 s3 : quiet_step s1 s2 -> quiet_step s2 s3 -> quiet_step s1 s3.
Proof.
  intros [I1 N1 L1 H1] [I2 N2 L2 H2]. split; [done|lia|congruence|]. intros x Hx. destruct (H2 x Hx) as [?|(y & Hy & Ey & Uy)]; [left; lia|].
  destruct (H1 y Hy) as [?|(z & Hz & Ez & Uz)]; [left; lia|]. right. exists z. split_and!; [done|congruence|auto].
Qed.

(** A change of the memory, the queue or the log alone. *)
Lemma quiet_same s s' :
  inv s -> loop_nodes s' = loop_nodes s -> next_address (heap s) <= next_address (heap s') -> log s' = log s -> quiet_step s s'.
Proof.
  intros [H1 H2 H3] En Hm Hl. split; [|done|done|].
  - split; rewrite En; [done|done|]. eapply Forall_impl; [exact H3|]. cbn beta. intros; lia.
  - intros x Hx. rewrite En in Hx. right. by exists x.
Qed.

Lemma added_quiet lg lvl h arg s s' err ctx :
  inv s -> nodes_wf (loop_nodes s') -> log s' = log s ->
  added lg lvl h arg (heap s) (heap s') (flatten (loop_nodes s)) (flatten (loop_nodes s')) err ctx -> quiet_step s s'.
Proof.
  intros [H1 H2 H3] Hwf Hlog (Hm & [(_ & c & _ & Hc & He)|[(_ & _ & El)|(_ & _ & _ & Ei)]]).
  - pose proof (extends_perm _ _ _ He) as Hp. assert (contexts (flatten (loop_nodes s')) ≡ₚ c :: contexts (flatten (loop_nodes s))) as Hpc
      by (unfold contexts; by rewrite Hp).
    split; [split|done|done|].
    + done.
    + rewrite Hpc. apply NoDup_cons. split; [|done]. intros Hin. rewrite Forall_forall in H3. apply H3 in Hin. lia.
    + rewrite Hpc. apply Forall_cons. split; [lia|]. eapply Forall_impl; [exact H3|]. cbn beta. intros; lia.
    + intros x Hx. rewrite Hp in Hx. apply elem_of_cons in Hx as [->|Hx]; [left; cbn; lia|right; by exists x].
  - split; [split; rewrite ?El; [done|done|]|done|done|].
    + eapply Forall_impl; [exact H3|]. cbn beta. intros; lia.
    + intros x Hx. rewrite El in Hx. right. by exists x.
  - pose proof (contexts_identity _ _ Ei) as Ec. split; [split; rewrite ?Ec; [done|done|]|done|done|].
    + eapply Forall_impl; [exact H3|]. cbn beta. intros; lia.
    + intros x Hx. right. apply (list_elem_of_fmap_2 identity) in Hx. rewrite Ei in Hx. apply list_elem_of_fmap in Hx as (y & Ey & Hy).
      unfold identity in Ey. injection Ey as E1 E2 E3 E4. exists y. split_and!; [done|done|congruence].
Qed.

Lemma fmap_sublist {A B} (f : A -> B) l l' : sublist l l' -> sublist (f <$> l) (f <$> l').
Proof. induction 1; cbn; by constructor. Qed.

Lemma sub_quiet s s' :
  inv s -> nodes_wf (loop_nodes s') -> heap s' = heap s -> log s' = log s ->
  sublist (flatten (loop_nodes s')) (flatten (loop_nodes s)) -> quiet_step s s'.
Proof.
  intros [H1 H2 H3] Hwf Hm Hl Hs.
  assert (sublist (contexts (flatten (loop_nodes s'))) (contexts (flatten (loop_nodes s)))) as Hsc by (by apply fmap_sublist).
  split; [split|by rewrite Hm|done|].
  - done.
  - by eapply sublist_NoDup.
  - rewrite Hm. rewrite Forall_forall in *. eauto using elem_of_sublist.
  - intros x Hx. right. exists x. split_and!; [|done|done]. by eapply elem_of_sublist.
Qed.

(** ** Calls keep the invariant *)

Lemma register_quiet ebase eid h arg lg s :
  inv s -> quiet_step s (esp_event_handler_register_with_internal ebase eid h arg lg s).2.
Proof.
  intros Hi. destruct (bad_level ebase eid) eqn:Hb.
  - unfold esp_event_handler_register_with_internal. fold (bad_level ebase eid). rewrite Hb. by apply quiet_refl.
  - pose proof (register_added lg ebase eid h arg s (inv_wf _ Hi) Hb) as H.
    destruct (esp_event_handler_register_with_internal _ _ _ _ _ s) as [[err ctx] s']. cbn [snd].
    destruct H as ((_ & _ & Hl) & Hwf & Ha). by eapply added_quiet.
Qed.

Lemma remove_quiet ctx s : inv s -> quiet_step s (loop_remove_handler ctx s).2.
Proof.
  intros Hi. pose proof (remove_wf ctx s (inv_wf _ Hi)) as Hwf. pose proof (remove_flatten ctx s) as H.
  destruct (loop_remove_handler ctx s) as [err s']. cbn [snd] in *. destruct H as ((_ & _ & Hl) & Hm & Hf).
  destruct (remove_first (requested ctx) (flatten (loop_nodes s))) as [l|] eqn:E.
  - destruct Hf as [_ Hf]. apply sub_quiet; try done. rewrite Hf. by eapply remove_first_sublist.
  - destruct Hf as [_ ->]. by apply quiet_refl.
Qed.

Lemma set_nodes_fields l s :
  loop_nodes (set_nodes l s) = l /\ heap (set_nodes l s) = heap s /\ log (set_nodes l s) = log s.
Proof. by destruct s. Qed.

Lemma mark_quiet c s : inv s -> quiet_step s (set_nodes (mark_nodes c (loop_nodes s)) s).
Proof.
  intros [H1 H2 H3]. destruct (set_nodes_fields (mark_nodes c (loop_nodes s)) s) as (En & Em & El).
  split; rewrite ?En, ?Em, ?El; [split; rewrite ?En, ?Em, ?flatten_mark, ?contexts_mark; try done; by apply mark_wf|done|done|].
  intros x. rewrite flatten_mark. intros (y & -> & Hy)%list_elem_of_fmap. right. exists y. split; [done|].
  unfold mark_entry. cbn. by destruct (handler_ctx y.2 =? c).
Qed.

Lemma post_quiet ebase eid data ok s : inv s -> quiet_step s (post_instance ebase eid data ok s).2.
Proof.
  intros Hi. unfold post_instance, queue_send, calloc. destruct s as [n q l m g].
  destruct (_ || _); [by apply quiet_refl|].
  destruct data; cbn [heap]; destruct (default true (head (calloc_outcomes m))), ok;
    cbn [negb set_memory queue queue_size heap]; try destruct (length q <? n)%nat; apply quiet_same; cbn; done || lia.
Qed.

Lemma isr_post_quiet ebase eid data w s : inv s -> quiet_step s (esp_event_isr_post_to ebase eid data w s).2.
Proof.
  intros Hi. unfold esp_event_isr_post_to, queue_send. destruct s as [n q l m g].
  destruct (_ || _); [by apply quiet_refl|]. destruct (4 <? _)%nat; [by apply quiet_refl|].
  cbn [queue queue_size]. destruct (length q <? n)%nat; apply quiet_same; cbn; done || lia.
Qed.

Lemma find_quiet ctx s : inv s -> quiet_step s (find_and_unregister_handler ctx s).2.
Proof.
  intros Hi. unfold find_and_unregister_handler. destruct (scan_loop ctx None (loop_nodes s)) as [h|]; [|by apply quiet_refl].
  destruct (unregistered h); [by apply quiet_refl|].
  pose proof (mark_quiet (handler_ctx h) s Hi) as Hm. set (s1 := set_nodes _ s) in *. clearbody s1.
  assert (quiet_step s1 (set_memory (calloc (heap s1)).2 s1)) as Hc by (apply quiet_same; destruct s1; cbn; try apply Hm; done || lia).
  destruct (legacy ctx).
  - destruct (calloc (heap s1)) as [p m]. cbn [snd] in Hc. destruct p; cbn [negb].
    + eapply quiet_trans; [exact Hm|]. eapply quiet_trans; [exact Hc|]. apply post_quiet, Hc.
    + by eapply quiet_trans.
  - cbn [negb]. eapply quiet_trans; [exact Hm|]. apply post_quiet, Hm.
Qed.

Lemma unregister_quiet ebase eid ctx h lg free s :
  inv s -> quiet_step s (esp_event_handler_unregister_with_internal ebase eid ctx h lg free s).2.
Proof.
  intros Hi. unfold esp_event_handler_unregister_with_internal. destruct (_ && _); [by apply quiet_refl|].
  destruct free; [by apply remove_quiet|by apply find_quiet].
Qed.

Lemma call_quiet held k s : inv s -> quiet_step s (do_call held k s).2.
Proof.
  intros Hi. destruct k as [b i h a|b i h a|b i h con|b i ctx con|b i d ok|b i d w]; cbn [do_call].
  - pose proof (register_quiet b i h a true s Hi) as H. unfold esp_event_handler_register_with.
    by destruct (esp_event_handler_register_with_internal b i h a true s) as [[err ctx] s'].
  - pose proof (register_quiet b i h a false s Hi) as H. unfold esp_event_handler_instance_register_with.
    by destruct (esp_event_handler_register_with_internal b i h a false s) as [[err ctx] s'].
  - by apply unregister_quiet.
  - unfold esp_event_handler_instance_unregister_with. destruct ctx; [by apply unregister_quiet|by apply quiet_refl].
  - by apply post_quiet.
  - by apply isr_post_quiet.
Qed.

(** ** Handlers that are not called any more *)

(** Every handler with this context is marked, and the context is not given out again. *)
Definition dead (c : Z) (s : esp_event_loop_instance) : Prop :=
  c < next_address (heap s) /\ (forall x, x ∈ flatten (loop_nodes s) -> handler_ctx x.2 = c -> unregistered x.2 = true).

Lemma quiet_dead c s s' : quiet_step s s' -> dead c s -> dead c s'.
Proof.
  intros [_ Hn _ Hh] [Hc Hd]. split; [lia|]. intros x' Hx' Ex. destruct (Hh x' Hx') as [?|(x & Hx & E & U)]; [lia|].
  apply U, Hd; [done|congruence].
Qed.

Lemma unregistered_dead ebase eid c free s :
  inv s -> (esp_event_handler_instance_unregister_with ebase eid (Some c) free s).1 = ESP_OK ->
  dead c (esp_event_handler_instance_unregister_with ebase eid (Some c) free s).2.
Proof.
  intros Hi. cbn [esp_event_handler_instance_unregister_with]. unfold esp_event_handler_unregister_with_internal.
  destruct (_ && _); [done|]. set (ctx := MkRemove _ _ c 0 false).
  assert (forall h, h ∈ (flatten (loop_nodes s)).*2 -> handler_ctx h = c -> c < next_address (heap s)) as Hlt.
  { intros h (x & -> & Hx)%list_elem_of_fmap <-. pose proof (inv_alloc _ Hi) as Ha. rewrite Forall_forall in Ha.
    apply Ha. apply list_elem_of_fmap. by exists x. }
  destruct free.
  - pose proof (remove_flatten ctx s) as H. destruct (loop_remove_handler ctx s) as [err s']. cbn [fst snd]. intros ->.
    destruct H as (_ & Hm & H). destruct (remove_first (requested ctx) (flatten (loop_nodes s))) as [l|] eqn:E; [|by destruct H].
    destruct H as [_ Hl]. pose proof (inv_own _ Hi) as Hnd.
    assert (exists l1 x l2, flatten (loop_nodes s) = l1 ++ x :: l2 /\ l = l1 ++ l2 /\ handler_ctx x.2 = c) as (l1 & x & l2 & Ef & El & Ex).
    { clear -E. revert l E. generalize (flatten (loop_nodes s)) as F. induction F as [|y F IH]; intros l E; [done|]. cbn in E.
      destruct (requested ctx y) eqn:Er.
      - injection E as <-. exists [], y, F. split_and!; [done|done|]. unfold requested in Er. apply andb_true_iff in Er as [_ Er].
        unfold is_handler in Er. cbn in Er. lia.
      - destruct (remove_first _ F) as [l'|]; [|done]. injection E as <-. destruct (IH l' eq_refl) as (l1 & x & l2 & -> & -> & Hx). by exists (y :: l1), x, l2. }
    split; [rewrite Hm|rewrite Hl].
    + apply (Hlt x.2); [|done]. rewrite Ef, fmap_app. apply elem_of_app. right. by left.
    + intros y Hy Ey. exfalso. rewrite Ef in Hnd. unfold contexts in Hnd. rewrite fmap_app, fmap_cons in Hnd.
      rewrite <- Permutation_middle in Hnd. apply NoDup_cons in Hnd as [Hnd _]. apply Hnd. rewrite <- fmap_app.
      apply list_elem_of_fmap. exists y. split; [congruence|rewrite El in Hy; exact Hy].
  - unfold find_and_unregister_handler. destruct (scan_loop ctx None (loop_nodes s)) as [h|] eqn:E; [|done].
    apply scan_spec in E as [Hh Hc]. unfold is_handler in Hc. cbn in Hc. apply Z.eqb_eq in Hc. pose proof (Hlt h Hh Hc) as Hn.
    destruct (unregistered h) eqn:Eu.
    + intros _. split; [done|]. cbn [snd]. intros x Hx Ex.
      apply list_elem_of_fmap in Hh as (y & -> & Hy). pose proof (inv_own _ Hi) as Hnd.
      assert (x = y) as ->; [|done].
      apply list_elem_of_lookup in Hx as [i Hx]. apply list_elem_of_lookup in Hy as [j Hy].
      assert (i = j) as ->; [|congruence].
      apply (NoDup_lookup _ i j c Hnd); unfold contexts; rewrite list_lookup_fmap; [rewrite Hx|rewrite Hy]; cbn; congruence.
    + intros _. cbn [legacy ctx negb]. pose proof (mark_quiet (handler_ctx h) s Hi) as Hm. set (s1 := set_nodes _ s) in *.
      apply (quiet_dead c s1); [apply post_quiet, Hm|]. split; [subst s1; by destruct s|].
      subst s1. destruct (set_nodes_fields (mark_nodes (handler_ctx h) (loop_nodes s)) s) as (-> & _). rewrite flatten_mark.
      intros x (y & -> & Hy)%list_elem_of_fmap. unfold mark_entry. cbn. destruct (Z.eqb_spec (handler_ctx y.2) (handler_ctx h)); [done|].
      cbn. congruence.
Qed.

(** An invariant of the body is one of the loop. *)
Lemma foreach_inv (K : running -> Prop) len body x x' :
  (forall j y y' stop, K y -> body j y = Some (y', stop) -> K y') -> K x -> foreach len body x = Some x' -> K x'.
Proof.
  intros Hb Hx. unfold foreach. destruct (_ =? 0)%nat; [by intros [= <-]|]. generalize (len x + length (concat x.2))%nat as fuel. generalize 0%nat as j.
  intros j fuel. revert j x Hx. induction fuel as [|fuel IH]; intros j x Hx; [done|]. cbn [foreach_safe].
  destruct (body j x) as [[y stop]|] eqn:E; [|done]. pose proof (Hb _ _ _ _ Hx E) as Hy.
  destruct stop; [by intros [= <-]|]. destruct (_ <? _)%nat; [by apply IH|by intros [= <-]].
Qed.

(** The handler instance was unregistered, with success. *)
Definition released (c : Z) (g : list event) : Prop :=
  exists b i contended, Returned (UnregisterInstance b i (Some c) contended) ESP_OK ∈ g.

(** No execution follows the unregistering. *)
Definition clean (g : list event) : Prop :=
  forall g1 e g2, g = g1 ++ Exec e :: g2 -> ~ released (ex_ctx e) g1.

Lemma released_snoc c g ev : released c (g ++ [ev]) -> released c g \/ exists b i con, ev = Returned (UnregisterInstance b i (Some c) con) ESP_OK.
Proof.
  intros (b & i & con & H). apply elem_of_app in H as [H|H%list_elem_of_singleton]; [left|right]; by exists b, i, con.
Qed.

Lemma clean_snoc g ev : clean g -> (forall e, ev = Exec e -> ~ released (ex_ctx e) g) -> clean (g ++ [ev]).
Proof.
  intros Hg Hev g1 e g2 E. destruct g2 as [|x g2 _] using rev_ind.
  - apply app_inj_tail in E as [<- ->]. by apply Hev.
  - rewrite app_comm_cons, app_assoc in E. apply app_inj_tail in E as [-> _]. by apply (Hg g1 e g2).
Qed.

(** The invariant of runs. *)
Record good (s : esp_event_loop_instance) : Prop := {
  good_inv : inv s;
  good_dead : forall c, released c (log s) -> dead c s;
  good_clean : clean (log s)
}.

Lemma quiet_good s s' : quiet_step s s' -> good s -> good s'.
Proof.
  intros Hq [Hi Hd Hc]. split; [apply Hq| |by rewrite (qs_log _ _ Hq)]. intros c. rewrite (qs_log _ _ Hq). intros H. by eapply quiet_dead, Hd.
Qed.

Lemma add_log_fields e s : loop_nodes (add_log e s) = loop_nodes s /\ heap (add_log e s) = heap s /\ log (add_log e s) = log s ++ [e].
Proof. by destruct s. Qed.

Lemma log_good ev s :
  good s -> (forall e, ev = Exec e -> ~ released (ex_ctx e) (log s)) ->
  (forall b i c con, ev = Returned (UnregisterInstance b i (Some c) con) ESP_OK -> dead c s) -> good (add_log ev s).
Proof.
  intros [[Hw Ho Ha] Hd Hc] He Hr. destruct (add_log_fields ev s) as (En & Em & El). split.
  - split; by rewrite ?En, ?Em.
  - intros c. rewrite El. intros [H|(b & i & con & ->)]%released_snoc; unfold dead; rewrite En, Em; [by apply Hd|by eapply Hr].
  - rewrite El. by apply clean_snoc.
Qed.

Lemma call_good held k s : good s -> good (run_call held k s).
Proof.
  intros Hg. unfold run_call. pose proof (call_quiet held k s (good_inv _ Hg)) as Hq.
  assert (forall b i c con, k = UnregisterInstance b i (Some c) con -> (do_call held k s).1 = ESP_OK -> dead c (do_call held k s).2) as Hd.
  { intros b i c con ->. cbn [do_call]. apply unregistered_dead, Hg. }
  destruct (do_call held k s) as [err s']. cbn [fst snd] in *. apply log_good; [by eapply quiet_good|done|].
  intros b i c con [= -> ->]. by eapply Hd.
Qed.

Lemma calls_good held ks s : good s -> good (run_calls held ks s).
Proof.
  unfold run_calls. revert s. induction ks as [|k ks IH]; intros s Hs; [done|]. cbn [foldl]. by apply IH, call_good.
Qed.

Lemma execute_good h post x :
  good x.1 -> ~ dead (handler_ctx h) x.1 -> good (handler_execute h post x).1.
Proof.
  destruct x as [s bs]. cbn [fst]. intros Hg Hn. cbn [handler_execute fst]. apply calls_good, log_good; [done| |done].
  intros e [= <-]. cbn. intros H. by apply Hn, Hg.
Qed.

(** The lists that are dispatched are part of the loop. *)
Definition listed (get : esp_event_loop_instance -> list esp_event_handler_node) : Prop :=
  forall s h, h ∈ get s -> exists lvl, (lvl, h) ∈ flatten (loop_nodes s).

Lemma run_handlers_good get post x x' : listed get -> good x.1 -> run_handlers get post x = Some x' -> good x'.1.
Proof.
  intros Hget Hx. unfold run_handlers. apply (foreach_inv (fun x => good x.1)); [|done].
  intros j y y' stop Hy. destruct (get y.1 !! j) as [h|] eqn:Eh; [|done]. intros [= <- <-].
  destruct (unregistered h) eqn:Eu; [done|]. apply execute_good; [done|]. intros [_ Hd].
  destruct (Hget y.1 h) as [lvl Hh]; [by eapply list_elem_of_lookup_2|].
  pose proof (Hd _ Hh eq_refl) as H. cbn in H. congruence.
Qed.

Lemma elem_of_concat_fmap {A B} (f : A -> list B) l x y : x ∈ l -> y ∈ f x -> y ∈ concat (f <$> l).
Proof.
  intros Hx Hy. apply list_elem_of_In, in_concat. exists (f x). split; apply list_elem_of_In; [|done].
  apply list_elem_of_fmap. by exists x.
Qed.

Lemma listed_node s i x : x ∈ flat_loop (loop_at s i) -> x ∈ flatten (loop_nodes s).
Proof.
  unfold loop_at. destruct (loop_nodes s !! i) as [n|] eqn:E; cbn; [|by intros Hx%elem_of_nil].
  apply elem_of_concat_fmap. by eapply list_elem_of_lookup_2.
Qed.

Lemma listed_base s i j x : x ∈ flat_base (base_at s i j) -> x ∈ flatten (loop_nodes s).
Proof.
  intros Hx. apply (listed_node s i). unfold flat_loop. apply elem_of_app. right. revert Hx. unfold base_at.
  destruct (base_nodes (loop_at s i) !! j) as [n|] eqn:E; cbn; [|by intros Hx%elem_of_nil].
  apply elem_of_concat_fmap. by eapply list_elem_of_lookup_2.
Qed.

Lemma listed_loop_handlers i : listed (fun s => loop_handlers (loop_at s i)).
Proof.
  intros s h Hh. exists AnyEvent. apply (listed_node s i). unfold flat_loop. apply elem_of_app. left. apply list_elem_of_fmap. by exists h.
Qed.

Lemma listed_base_handlers i j : listed (fun s => base_handlers (base_at s i j)).
Proof.
  intros s h Hh. exists (OfBase (base (base_at s i j))). apply (listed_base s i j). unfold flat_base. apply elem_of_app. left.
  apply list_elem_of_fmap. by exists h.
Qed.

Lemma listed_id_handlers i j k : listed (fun s => id_handlers (id_at s i j k)).
Proof.
  intros s h Hh. exists (OfEvent (base (base_at s i j)) (id (id_at s i j k))). apply (listed_base s i j). unfold flat_base.
  apply elem_of_app. right. revert Hh. unfold id_at. destruct (id_nodes (base_at s i j) !! k) as [n|] eqn:E; [|by intros Hx%elem_of_nil].
  intros Hh. eapply elem_of_concat_fmap; [by eapply list_elem_of_lookup_2|]. apply list_elem_of_fmap. by exists h.
Qed.

Lemma dispatch_good post x x' : good x.1 -> dispatch post x = Some x' -> good x'.1.
Proof.
  intros Hx. unfold dispatch. apply (foreach_inv (fun x => good x.1)); [|done]. intros i y y' stop Hy.
  destruct (run_handlers _ post y) as [y1|] eqn:E1; [|done]. pose proof (run_handlers_good _ _ _ _ (listed_loop_handlers i) Hy E1) as H1.
  destruct (run_base_nodes i post y1) as [y2|] eqn:E2; [|done]. intros [= <- <-]. revert E2. unfold run_base_nodes.
  apply (foreach_inv (fun x => good x.1)); [|done]. clear. intros j y y' stop Hy. destruct (_ =? _); [|by intros [= <- <-]].
  destruct (run_handlers _ post y) as [y1|] eqn:E1; [|done]. pose proof (run_handlers_good _ _ _ _ (listed_base_handlers i j) Hy E1) as H1.
  destruct (run_id_nodes i j post y1) as [y2|] eqn:E2; [|done]. intros [= <- <-]. revert E2. unfold run_id_nodes.
  apply (foreach_inv (fun x => good x.1)); [|done]. clear. intros k y y' stop Hy. destruct (_ =? _); [|by intros [= <- <-]].
  destruct (run_handlers _ post y) as [y1|] eqn:E1; [|done]. pose proof (run_handlers_good _ _ _ _ (listed_id_handlers i j k) Hy E1) as H1.
  by intros [= <- <-].
Qed.

(** ** Runs *)

(** What other tasks and the task that runs the loop do. *)
Inductive act := Call (k : api_call) | RunLoop (ticks_to_run : Z) (rounds : list (list (list api_call) * Z)).

Definition do_act (a : act) (s : esp_event_loop_instance) : option esp_event_loop_instance :=
  match a with
  | Call k => Some (run_call false k s)
  | RunLoop t rounds => fst <$> esp_event_loop_run t rounds s
  end.

Fixpoint do_acts (l : list act) (s : esp_event_loop_instance) : option esp_event_loop_instance :=
  match l with [] => Some s | a :: l => let? s := do_act a s in do_acts l s end.

Lemma set_queue_fields q s :
  loop_nodes (set_queue q s) = loop_nodes s /\ heap (set_queue q s) = heap s /\ log (set_queue q s) = log s.
Proof. by destruct s. Qed.

Lemma set_queue_quiet q s : inv s -> quiet_step s (set_queue q s).
Proof. intros Hi. destruct (set_queue_fields q s) as (En & Em & El). apply quiet_same; rewrite ?En, ?Em, ?El; done || lia. Qed.

Lemma run_post_good post x x' : good x.1 -> run_post post x = Some x' -> good x'.1.
Proof.
  destruct x as [s bs]. intros Hs. cbn [run_post]. destruct (_ =? _); [|by apply dispatch_good].
  destruct (post_data post) as [| | |ctx]; try done. apply dispatch_good. cbn [fst] in *.
  eapply quiet_good; [by apply remove_quiet, Hs|done].
Qed.

Lemma rounds_good forever rem rounds s s' b :
  good s -> run_rounds forever rem rounds s = Some (s', b) -> good s'.
Proof.
  revert rem s. induction rounds as [|[bs elapsed] rounds IH]; intros rem s Hs; cbn [run_rounds]; [by intros [= <- <-]|].
  destruct (queue s) as [|post q]; [by intros [= <- <-]|].
  destruct (run_post post (set_queue q s, bs)) as [[s1 bs1]|] eqn:E; [|done].
  apply run_post_good in E; [|eapply quiet_good; [by apply set_queue_quiet, Hs|done]]. cbn [fst] in E.
  destruct forever; [by apply IH|]. destruct (_ <=? _); [by intros [= <- <-]|]. by apply IH.
Qed.

Lemma acts_good l s s' : good s -> do_acts l s = Some s' -> good s'.
Proof.
  revert s. induction l as [|a l IH]; intros s Hs; cbn [do_acts]; [by intros [= <-]|].
  destruct (do_act a s) as [s1|] eqn:E; [|done]. apply IH. destruct a as [k|t rounds]; cbn [do_act] in E.
  - injection E as <-. by apply call_good.
  - unfold esp_event_loop_run in E. destruct (run_rounds _ _ _ s) as [[s2 b]|] eqn:E2; [|done]. injection E as <-. by eapply rounds_good.
Qed.

Definition new_loop (size : nat) (m : memory) : esp_event_loop_instance := MkLoop size [] [] m [].

Lemma new_loop_inv size m : inv (new_loop size m).
Proof. split; cbn; [by apply Forall_nil|by apply NoDup_nil_2|by apply Forall_nil]. Qed.


Lemma new_loop_good size m : good (new_loop size m).
Proof.
  split; [apply new_loop_inv| |].
  - intros c (b & i & con & H). by apply elem_of_nil in H.
  - intros g1 e g2 E. by destruct g1.
Qed.

(** C11. A handler instance that was unregistered with success is not called any
    more: in every run of a loop, with any calls made by other tasks and by the
    handlers while they run (so also when a handler unregisters itself or
    another one during the dispatching), with any failing allocations and full
    queues, no execution of the instance follows the return of
    [esp_event_handler_instance_unregister_with]. *)
Theorem unregistered_never_called (size : nat) (m : memory) (l : list act) (s : esp_event_loop_instance) (b i c : Z) (contended : bool)
    (g1 g2 : list event) :
  do_acts l (new_loop size m) = Some s ->
  log s = g1 ++ Returned (UnregisterInstance b i (Some c) contended) ESP_OK :: g2 ->
  forall e, Exec e ∈ g2 -> ex_ctx e <> c.
Proof.
  intros E El e He. apply acts_good in E; [|apply new_loop_good]. apply list_elem_of_split in He as (g3 & g4 & ->).
  intros <-. apply (good_clean _ E (g1 ++ Returned (UnregisterInstance b i (Some (ex_ctx e)) contended) ESP_OK :: g3) e g4).
  - rewrite El, <- app_assoc. done.
  - exists b, i, contended. apply elem_of_app. right. by left.
Qed.

(** Two posts wait; the handler unregisters itself at the first one. *)
Definition unregistering_acts : list act :=
  [Call (RegisterInstance 100 5 11 1); Call (Post 100 5 None true); Call (Post 100 5 None true);
   RunLoop portMAX_DELAY [([[UnregisterInstance 100 5 (Some 1004) false]], 0); ([], 0); ([], 0)]].

Lemma unregistered_never_called_witness :
  let k := UnregisterInstance 100 5 (Some 1004) false in
  let s := default (new_loop 0 (MkMemory [] 0)) (do_acts unregistering_acts (new_loop 8 (MkMemory [] 1000))) in
  Exec (Executed 1004 11 1 (MkPost 100 5 NoData)) ∈ take 4 (log s) /\
  drop 4 (log s) = [Returned k ESP_OK] /\ (forall e, Exec e ∈ [] -> ex_ctx e <> 1004) /\ length (queue s) = 0%nat.
Proof.
  cbv zeta. split; [|split; [|split]]; [vm_compute; right; right; right; left| | |]; try reflexivity.
  refine (unregistered_never_called 8 (MkMemory [] 1000) unregistering_acts _ 100 5 1004 false _ [] _ _); [vm_compute; reflexivity|].
  cbn [log]. match goal with |- ?l = _ ++ _ => instantiate (1 := take 4 l) end. reflexivity.
Defined.
