(* ===== verification/EspEventOrder.v ===== *)
(** * Event loops implement a list of registrations

    The abstract state of a loop: the registrations in the order in which they
    were made and the posts that wait.  The sequences of calls are those of the
    instance interface, posts, and runs of the loop with handlers that make no
    calls. *)

From S2P Require Import Prelude EspErr EspEvent EspEventProps EspEventSpec.

(** ** Orders that no event can tell apart *)

Definition agrees (l l' : list entry) : Prop := forall post, filter (takes post) l = filter (takes post) l'.

(** An event for every level. *)
Definition probe (lvl : level) : esp_event_post_instance :=
  match lvl with AnyEvent => MkPost 0 0 NoData | OfBase b => MkPost b 0 NoData | OfEvent b i => MkPost b i NoData end.

Lemma probe_takes x : takes (probe x.1) x.
Proof. unfold takes. destruct x as [[|b|b i] h]; cbn; lia. Qed.

Lemma agrees_elem l l' x : agrees l l' -> x ∈ l <-> x ∈ l'.
Proof.
  intros H. pose proof (H (probe x.1)) as E.
  assert (forall l0 : list entry, x ∈ l0 <-> x ∈ filter (takes (probe x.1)) l0) as Hf.
  { intros l0. rewrite list_elem_of_filter. pose proof (probe_takes x). tauto. }
  rewrite (Hf l), (Hf l'), E. done.
Qed.

Lemma agrees_contexts l l' c : agrees l l' -> c ∈ contexts l <-> c ∈ contexts l'.
Proof.
  intros H. unfold contexts. rewrite !list_elem_of_fmap. split; intros (x & -> & Hx); exists x; (split; [done|]); by apply (agrees_elem l l' x H).
Qed.

Lemma extends_filter l l' x post :
  extends l l' x -> filter (takes post) l' = filter (takes post) l ++ (if decide (takes post x) then [x] else []).
Proof.
  intros (l1 & l2 & -> & -> & H). rewrite !filter_app, filter_cons. destruct (decide (takes post x)) as [Hx|Hx].
  - rewrite (filter_none _ l2); [by rewrite app_nil_r|]. eapply Forall_impl; [exact H|]. intros y Hy Ht.
    unfold takes in *. by rewrite (Hy _ _ Hx) in Ht.
  - by rewrite app_nil_r.
Qed.

Lemma agrees_extend l l' x g : agrees l g -> extends l l' x -> agrees l' (g ++ [x]).
Proof.
  intros H He post. rewrite (extends_filter _ _ _ post He), (H post), filter_app, filter_cons. by destruct (decide _).
Qed.

Lemma remove_first_filter (Q : entry -> Prop) `{forall x, Decision (Q x)} P l :
  (forall x, P x = true -> Q x) -> remove_first P (filter Q l) = filter Q <$> remove_first P l.
Proof.
  intros HP. induction l as [|x l IH]; [done|]. rewrite filter_cons. cbn [remove_first]. destruct (P x) eqn:Ex.
  - rewrite decide_True by auto. cbn [remove_first]. by rewrite Ex.
  - destruct (decide (Q x)) as [Hx|Hx].
    + cbn [remove_first]. rewrite Ex, IH. destruct (remove_first P l); [|done]. cbn [fmap option_fmap option_map]. by rewrite filter_cons, decide_True.
    + rewrite IH. destruct (remove_first P l); [|done]. cbn [fmap option_fmap option_map]. by rewrite filter_cons, decide_False.
Qed.

Lemma remove_first_other (Q : entry -> Prop) `{forall x, Decision (Q x)} P l l' :
  (forall x, P x = true -> ~ Q x) -> remove_first P l = Some l' -> filter Q l' = filter Q l.
Proof.
  intros HP. revert l'. induction l as [|x l IH]; intros l' E; [done|]. cbn in E. rewrite filter_cons. destruct (P x) eqn:Ex.
  - injection E as <-. by rewrite decide_False by auto.
  - destruct (remove_first P l) as [l0|]; [|done]. injection E as <-. rewrite filter_cons, (IH l0) by done. done.
Qed.

(** The removal for a request is the same on both. *)
Lemma agrees_remove ctx l g :
  agrees l g ->
  match remove_first (requested ctx) l, remove_first (requested ctx) g with
  | Some l', Some g' => agrees l' g'
  | None, None => True
  | _, _ => False
  end.
Proof.
  intros H. set (lvl := level_of (event_base ctx) (event_id ctx)).
  assert (forall x, requested ctx x = true -> x.1 = lvl) as Hlvl by (intros x Hx; unfold requested in Hx; by apply andb_true_iff in Hx as [Hx%bool_decide_eq_true _]).
  assert (forall post, matches (post_base post) (post_id post) lvl = true ->
    filter (takes post) <$> remove_first (requested ctx) l = filter (takes post) <$> remove_first (requested ctx) g) as Hin.
  { intros post Hp. rewrite <- !remove_first_filter by (intros x Hx; unfold takes; by rewrite (Hlvl x Hx)). by rewrite (H post). }
  pose proof (Hin (probe lvl) (probe_takes (lvl, MkHandler 0 0 0 false))) as E0.
  destruct (remove_first (requested ctx) l) as [l'|] eqn:El, (remove_first (requested ctx) g) as [g'|] eqn:Eg; try done.
  intros post. destruct (matches (post_base post) (post_id post) lvl) eqn:Ep.
  - specialize (Hin post Ep). by injection Hin.
  - assert (forall x, requested ctx x = true -> ~ takes post x) as Hno by (intros x Hx; unfold takes; rewrite (Hlvl x Hx), Ep; done).
    rewrite (remove_first_other _ _ _ _ Hno El), (remove_first_other _ _ _ _ Hno Eg). apply H.
Qed.

(** ** The specification *)

Record loop_spec := MkSpec { registrations : list entry; waiting : list esp_event_post_instance }.

(** What a call asks to remove, and what it posts. *)
Definition request_of (k : api_call) : option esp_event_remove_handler_context :=
  let named b := if b =? ESP_EVENT_ANY_BASE then esp_event_any_base else b in
  match k with
  | Unregister b i h _ => Some (MkRemove (named b) i 0 h true)
  | UnregisterInstance b i (Some c) _ => Some (MkRemove (named b) i c 0 false)
  | _ => None
  end.

Definition post_of (k : api_call) : option esp_event_post_instance :=
  match k with
  | Post b i d _ => Some (MkPost b i (match d with Some (x :: l) => Copied (x :: l) | _ => NoData end))
  | PostFromISR b i d w => Some (MkPost b i (match d with Some l => if (w =? 0)%nat then NoData else Value (take w l) | None => NoData end))
  | _ => None
  end.

Definition bad_args (k : api_call) : bool :=
  match k with
  | Register b i _ _ | RegisterInstance b i _ _ | Unregister b i _ _ | UnregisterInstance b i (Some _) _ => bad_level b i
  | UnregisterInstance _ _ None _ => true
  | Post b i _ _ => (b =? ESP_EVENT_ANY_BASE) || (i =? ESP_EVENT_ANY_ID)
  | PostFromISR b i d w => (b =? ESP_EVENT_ANY_BASE) || (i =? ESP_EVENT_ANY_ID) || (4 <? w)%nat
  end.

(** A call, its result, the state before and after. *)
Inductive spec_step (size : nat) : api_call -> esp_err_t -> loop_spec -> loop_spec -> Prop :=
  | step_bad k A : bad_args k = true -> spec_step size k ESP_ERR_INVALID_ARG A A
  | step_register b i h a c A :
      bad_level b i = false -> c ∉ contexts (registrations A) ->
      spec_step size (RegisterInstance b i h a) ESP_OK A
        (MkSpec (registrations A ++ [(call_level b i, MkHandler c h a false)]) (waiting A))
  | step_no_memory b i h a A : bad_level b i = false -> spec_step size (RegisterInstance b i h a) ESP_ERR_NO_MEM A A
  | step_remove k ctx l A :
      bad_args k = false -> request_of k = Some ctx -> remove_first (requested ctx) (registrations A) = Some l ->
      spec_step size k ESP_OK A (MkSpec l (waiting A))
  | step_not_found k ctx A :
      bad_args k = false -> request_of k = Some ctx -> remove_first (requested ctx) (registrations A) = None ->
      spec_step size k ESP_ERR_NOT_FOUND A A
  | step_post k p A :
      bad_args k = false -> post_of k = Some p -> (length (waiting A) < size)%nat ->
      spec_step size k ESP_OK A (MkSpec (registrations A) (waiting A ++ [p]))
  | step_no_copy b i x d ok A :
      bad_args (Post b i (Some (x :: d)) ok) = false -> spec_step size (Post b i (Some (x :: d)) ok) ESP_ERR_NO_MEM A A
  | step_full b i d ok A :
      bad_args (Post b i d ok) = false -> ok = false \/ (size <= length (waiting A))%nat -> spec_step size (Post b i d ok) ESP_ERR_TIMEOUT A A
  | step_full_isr b i d w A :
      bad_args (PostFromISR b i d w) = false -> (size <= length (waiting A))%nat -> spec_step size (PostFromISR b i d w) ESP_FAIL A A.

(** The executions for a post: the registrations that take it, in order. *)
Definition delivery (l : list entry) (post : esp_event_post_instance) : list event :=
  (fun x : entry => Exec (Executed (handler_ctx x.2) (ctx_handler x.2) (ctx_arg x.2) post)) <$> filter (takes post) l.

(** Calls of other tasks, and runs of [n] iterations with handlers that make no calls. *)
Inductive quiet_act := Calls (k : api_call) | Runs (n : nat).

Definition act_of (a : quiet_act) : act :=
  match a with Calls k => Call k | Runs n => RunLoop portMAX_DELAY (replicate n ([], 0)) end.

Inductive spec_acts (size : nat) : list quiet_act -> loop_spec -> loop_spec -> list event -> Prop :=
  | spec_nil A : spec_acts size [] A A []
  | spec_call k err l A A1 A2 g : spec_step size k err A A1 -> spec_acts size l A1 A2 g ->
      spec_acts size (Calls k :: l) A A2 (Returned k err :: g)
  | spec_run n l A A2 g : spec_acts size l (MkSpec (registrations A) (drop n (waiting A))) A2 g ->
      spec_acts size (Runs n :: l) A A2 (concat (delivery (registrations A) <$> take n (waiting A)) ++ g).

(** The interface of instances, the mutex being free, and posts of the user's events. *)
Definition in_scope (a : quiet_act) : Prop :=
  match a with
  | Calls (Register _ _ _ _) => False
  | Calls (Unregister _ _ _ con) => con = false
  | Calls (UnregisterInstance _ _ _ con) => con = false
  | Calls (Post b _ _ _) => b <> esp_event_handler_cleanup
  | Calls (PostFromISR b _ _ _) => b <> esp_event_handler_cleanup
  | _ => True
  end.

(** ** The simulation *)

Record sim (size : nat) (s : esp_event_loop_instance) (A : loop_spec) : Prop := {
  sim_inv : inv s;
  sim_order : agrees (flatten (loop_nodes s)) (registrations A);
  sim_live : Forall (fun x : entry => unregistered x.2 = false) (flatten (loop_nodes s));
  sim_size : queue_size s = size;
  sim_queue : queue s = waiting A;
  sim_posts : Forall (fun p => post_base p <> esp_event_handler_cleanup) (waiting A)
}.

Lemma register_sim size b i h a s A :
  sim size s A ->
  exists A', spec_step size (RegisterInstance b i h a) (do_call false (RegisterInstance b i h a) s).1 A A' /\
    sim size (do_call false (RegisterInstance b i h a) s).2 A' /\ log (do_call false (RegisterInstance b i h a) s).2 = log s.
Proof.
  intros [Hi Ho Hl Hs Hq Hp]. pose proof (call_quiet false (RegisterInstance b i h a) s Hi) as Hqs. revert Hqs.
  cbn [do_call]. unfold esp_event_handler_instance_register_with. destruct (bad_level b i) eqn:Hb.
  - unfold esp_event_handler_register_with_internal. fold (bad_level b i). rewrite Hb. intros _. exists A. split_and!; [by constructor|done|done].
  - pose proof (register_added false b i h a s (inv_wf _ Hi) Hb) as H.
    destruct (esp_event_handler_register_with_internal _ _ _ _ _ s) as [[err ctx] s']. cbn [fst snd]. intros Hqs.
    destruct H as ((Es & Eq & El) & Hwf & Hm & [(-> & c & -> & Hc & He)|[(-> & -> & Ef)|(? & _)]]); [| |done].
    + exists (MkSpec (registrations A ++ [(call_level b i, MkHandler c h a false)]) (waiting A)). split_and!; [|constructor|done]; cbn.
      * constructor; [done|]. intros Hin. rewrite <- (agrees_contexts _ _ _ Ho) in Hin. pose proof (inv_alloc _ Hi) as Ha.
        rewrite Forall_forall in Ha. apply Ha in Hin. lia.
      * apply Hqs.
      * by eapply agrees_extend.
      * rewrite (extends_perm _ _ _ He). by constructor.
      * congruence.
      * congruence.
      * done.
    + exists A. split_and!; [by constructor|constructor|done]; rewrite ?Ef; try done; [apply Hqs|congruence..].
Qed.

Lemma remove_sim size k ctx s A :
  sim size s A -> bad_args k = false -> request_of k = Some ctx ->
  exists A', spec_step size k (loop_remove_handler ctx s).1 A A' /\ sim size (loop_remove_handler ctx s).2 A' /\
    log (loop_remove_handler ctx s).2 = log s.
Proof.
  intros Hsim Hb Hk. destruct (Hsim) as [Hi Ho Hl Hs Hq Hp]. pose proof (remove_quiet ctx s Hi) as Hqs.
  pose proof (remove_flatten ctx s) as H. pose proof (agrees_remove ctx _ _ Ho) as Har.
  destruct (loop_remove_handler ctx s) as [err s']. cbn [fst snd] in *. destruct H as ((Es & Eq & El) & Hm & Hf).
  destruct (remove_first (requested ctx) (flatten (loop_nodes s))) as [l|] eqn:E1,
    (remove_first (requested ctx) (registrations A)) as [g|] eqn:E2; try done; destruct Hf as [-> Hf].
  - exists (MkSpec g (waiting A)). split_and!; [by eapply step_remove| |done]. constructor; cbn; [apply Hqs|by rewrite Hf| |congruence|congruence|done].
    rewrite Hf. apply remove_first_sublist in E1. rewrite Forall_forall in *. eauto using elem_of_sublist.
  - subst s'. exists A. split_and!; [by eapply step_not_found|done|done].
Qed.

Lemma unregister_sim size k b i c h lg ctx s A :
  sim size s A -> bad_args k = bad_level b i -> request_of k = Some ctx ->
  ctx = MkRemove (if b =? ESP_EVENT_ANY_BASE then esp_event_any_base else b) i c h lg ->
  let r := esp_event_handler_unregister_with_internal b i c h lg true s in
  exists A', spec_step size k r.1 A A' /\ sim size r.2 A' /\ log r.2 = log s.
Proof.
  intros Hsim Hb Hk ->. cbv zeta. unfold esp_event_handler_unregister_with_internal. fold (bad_level b i).
  destruct (bad_level b i); [|by eapply remove_sim]. exists A. split_and!; [by constructor|done|done].
Qed.

Lemma sim_frame size s s' A :
  sim size s A -> quiet_step s s' -> loop_nodes s' = loop_nodes s -> queue s' = queue s -> queue_size s' = queue_size s -> sim size s' A.
Proof. intros [Hi Ho Hl Hs Hq Hp] Hqs En Eq Es. constructor; rewrite ?En, ?Eq, ?Es; try done. apply Hqs. Qed.

(** Appending to the queue, or not. *)
Lemma send_sim size p s A :
  sim size s A -> post_base p <> esp_event_handler_cleanup ->
  let r := queue_send p s in
  log r.2 = log s /\
  ((r.1 = true /\ (length (waiting A) < size)%nat /\ sim size r.2 (MkSpec (registrations A) (waiting A ++ [p]))) \/
   (r.1 = false /\ (size <= length (waiting A))%nat /\ r.2 = s)).
Proof.
  intros [Hi Ho Hl Hs Hq Hp] Hc. unfold queue_send. rewrite Hq, Hs. destruct (Nat.ltb_spec (length (waiting A)) size); cbn [fst snd].
  - split; [by destruct s|]. left. split_and!; [done|done|].
    destruct (set_queue_fields (waiting A ++ [p]) s) as (En & Em & El).
    constructor; rewrite ?En; try done; [by apply set_queue_quiet|by destruct s|by destruct s|]. cbn. apply Forall_app. by split; [|apply Forall_singleton].
  - split; [done|]. by right.
Qed.

Lemma post_sim size b i d ok s A :
  sim size s A -> b <> esp_event_handler_cleanup ->
  let r := esp_event_post_to b i d ok s in
  exists A', spec_step size (Post b i d ok) r.1 A A' /\ sim size r.2 A' /\ log r.2 = log s.
Proof.
  intros Hsim Hc. cbv zeta. unfold esp_event_post_to, post_instance.
  destruct ((b =? ESP_EVENT_ANY_BASE) || (i =? ESP_EVENT_ANY_ID)) eqn:Hb; [exists A; split_and!; [by constructor|done|done]|].
  set (data := match d with Some (x :: l) => Copied (x :: l) | _ => NoData end).
  assert (forall s1, sim size s1 A -> log s1 = log s ->
    let r := (if negb ok then (ESP_ERR_TIMEOUT, s1) else let '(result, s2) := queue_send (MkPost b i data) s1 in
              (if result then ESP_OK else ESP_ERR_TIMEOUT, s2)) in
    exists A', spec_step size (Post b i d ok) r.1 A A' /\ sim size r.2 A' /\ log r.2 = log s) as Hsend.
  { intros s1 H1 El. cbv zeta. destruct ok; cbn [negb].
    - pose proof (send_sim size (MkPost b i data) s1 A H1 Hc) as Hq. cbv zeta in Hq. destruct (queue_send _ s1) as [res s2]. cbn [fst snd] in *.
      destruct Hq as [El2 [(-> & Hlt & H2)|(-> & Hge & ->)]].
      + eexists. split_and!; [by eapply (step_post _ _ (MkPost b i data))|done|congruence].
      + exists A. split_and!; [apply step_full; [done|by right]|done|done].
    - exists A. split_and!; [apply step_full; [done|by left]|done|done]. }
  destruct d as [[|x d]|]; cbn [data] in *; [by apply Hsend| |by apply Hsend].
  assert (quiet_step s (set_memory (calloc (heap s)).2 s)) as Hc1 by (apply quiet_same; destruct s; cbn; try apply Hsim; done || lia).
  assert (sim size (set_memory (calloc (heap s)).2 s) A) as H1 by (eapply sim_frame; [exact Hsim|done|by destruct s..]).
  destruct (calloc (heap s)) as [[q|] m]; cbn [snd negb] in *.
  - apply Hsend; [done|by destruct s].
  - exists A. split_and!; [by apply step_no_copy|done|by destruct s].
Qed.

Lemma isr_post_sim size b i d w s A :
  sim size s A -> b <> esp_event_handler_cleanup ->
  let r := esp_event_isr_post_to b i d w s in
  exists A', spec_step size (PostFromISR b i d w) r.1 A A' /\ sim size r.2 A' /\ log r.2 = log s.
Proof.
  intros Hsim Hc. cbv zeta. unfold esp_event_isr_post_to.
  destruct ((b =? ESP_EVENT_ANY_BASE) || (i =? ESP_EVENT_ANY_ID)) eqn:Hb;
    [exists A; split_and!; [apply step_bad; unfold bad_args; by rewrite Hb|done|done]|].
  destruct (4 <? w)%nat eqn:Hlen; [exists A; split_and!; [apply step_bad; unfold bad_args; by rewrite Hb, Hlen|done|done]|].
  assert (bad_args (PostFromISR b i d w) = false) as Hbad by (unfold bad_args; by rewrite Hb, Hlen).
  set (data := match d with Some l => if (w =? 0)%nat then NoData else Value (take w l) | None => NoData end).
  pose proof (send_sim size (MkPost b i data) s A Hsim Hc) as Hq. cbv zeta in Hq. destruct (queue_send _ s) as [res s2]. cbn [fst snd] in *.
  destruct Hq as [El2 [(-> & Hlt & H2)|(-> & Hge & ->)]].
  - eexists. split_and!; [by eapply (step_post _ _ (MkPost b i data))|done|done].
  - exists A. split_and!; [by apply step_full_isr|done|done].
Qed.

Lemma call_sim size k s A :
  sim size s A -> in_scope (Calls k) ->
  exists A', spec_step size k (do_call false k s).1 A A' /\ sim size (do_call false k s).2 A' /\ log (do_call false k s).2 = log s.
Proof.
  intros Hsim Hk. destruct k as [b i h a|b i h a|b i h con|b i c con|b i d ok|b i d w]; cbn [in_scope] in Hk.
  - done.
  - by apply register_sim.
  - subst con. cbn [do_call orb negb]. unfold esp_event_handler_unregister_with. by eapply unregister_sim.
  - subst con. cbn [do_call orb negb]. unfold esp_event_handler_instance_unregister_with. destruct c as [c|]; [by eapply unregister_sim|].
    exists A. split_and!; [by constructor|done|done].
  - by apply post_sim.
  - by apply isr_post_sim.
Qed.

Lemma live_executions post l :
  Forall (fun x : entry => unregistered x.2 = false) l -> executions post (reached post l) = delivery l post.
Proof.
  intros Hl. unfold executions, reached, delivery. rewrite filter_everything.
  - by rewrite <- list_fmap_compose.
  - apply Forall_fmap. apply Forall_forall. intros x [_ Hx]%list_elem_of_filter. rewrite Forall_forall in Hl. by apply Hl.
Qed.

Lemma delivery_agrees l g post : agrees l g -> delivery l post = delivery g post.
Proof. intros H. unfold delivery. by rewrite (H post). Qed.

Lemma add_logs_fields es s :
  loop_nodes (add_logs es s) = loop_nodes s /\ heap (add_logs es s) = heap s /\ queue (add_logs es s) = queue s /\
  queue_size (add_logs es s) = queue_size s /\ log (add_logs es s) = log s ++ es.
Proof. by destruct s. Qed.

Lemma logged_sim size es s A : sim size s A -> sim size (add_logs es s) A.
Proof.
  intros [[Hw Ho Ha] Hag Hl Hs Hq Hp]. destruct (add_logs_fields es s) as (En & Em & Eq & Es & El).
  constructor; rewrite ?En, ?Eq, ?Es; try done. split; by rewrite ?En, ?Em.
Qed.

Lemma run_sim size n rem s A :
  sim size s A ->
  exists s' b, run_rounds true rem (replicate n ([], 0)) s = Some (s', b) /\
    sim size s' (MkSpec (registrations A) (drop n (waiting A))) /\
    log s' = log s ++ concat (delivery (registrations A) <$> take n (waiting A)).
Proof.
  revert s A. induction n as [|n IH]; intros s A Hsim.
  - exists s, false. cbn. rewrite app_nil_r. split_and!; [done|by destruct A|done].
  - cbn [replicate run_rounds]. destruct (Hsim) as [Hi Ho Hl Hs Hq Hp]. rewrite Hq. destruct A as [rg [|p q]]; cbn [waiting registrations] in *.
    + exists s, true. cbn. rewrite app_nil_r. done.
    + apply Forall_cons in Hp as [Hp Hps]. unfold run_post. rewrite (proj2 (Z.eqb_neq _ _) Hp).
      destruct (set_queue_fields q s) as (En & Em & El).
      rewrite dispatch_quiet by (rewrite En; apply Hi). rewrite En, live_executions, (delivery_agrees _ _ _ Ho) by done.
      assert (sim size (set_queue q s) (MkSpec rg q)) as H1.
      { constructor; rewrite ?En; try done; [by apply set_queue_quiet|by destruct s|by destruct s]. }
      destruct (IH _ _ (logged_sim size (delivery rg p) _ _ H1)) as (s' & b & Er & Hsim' & Elog).
      exists s', b. split_and!; [exact Er|exact Hsim'|].
      destruct (add_logs_fields (delivery rg p) (set_queue q s)) as (_ & _ & _ & _ & El2). rewrite Elog, El2, El. cbn [take].
      rewrite fmap_cons. cbn [concat]. by rewrite app_assoc.
Qed.

Lemma acts_sim size l s A :
  sim size s A -> Forall in_scope l ->
  exists s' A' g, do_acts (act_of <$> l) s = Some s' /\ spec_acts size l A A' g /\ log s' = log s ++ g /\ sim size s' A'.
Proof.
  intros Hsim Hl. revert s A Hsim. induction Hl as [|a l Ha Hl IH]; intros s A Hsim.
  - exists s, A, []. rewrite app_nil_r. split_and!; [done|constructor|done|done].
  - rewrite fmap_cons. destruct a as [k|n]; cbn [act_of do_acts do_act].
    + destruct (call_sim size k s A Hsim Ha) as (A1 & Hstep & H1 & El). unfold run_call.
      destruct (do_call false k s) as [err s1]. cbn [fst snd] in *.
      assert (sim size (add_log (Returned k err) s1) A1) as H2 by (apply (logged_sim size [Returned k err]) in H1; by destruct s1).
      destruct (IH _ _ H2) as (s' & A' & g & E & Hsp & El' & Hsim').
      exists s', A', (Returned k err :: g). split_and!; [exact E|by econstructor| |done].
      destruct (add_log_fields (Returned k err) s1) as (_ & _ & E3). rewrite El', E3, El, <- app_assoc. done.
    + unfold esp_event_loop_run. change (portMAX_DELAY =? portMAX_DELAY) with true.
      destruct (run_sim size n portMAX_DELAY s A Hsim) as (s1 & b & Er & H1 & El). rewrite Er. cbn [fmap option_fmap option_map fst].
      destruct (IH _ _ H1) as (s' & A' & g & E & Hsp & El' & Hsim').
      exists s', A', (concat (delivery (registrations A) <$> take n (waiting A)) ++ g).
      split_and!; [exact E|by constructor| |done]. by rewrite El', El, app_assoc.
Qed.

Lemma new_sim size m : sim size (new_loop size m) (MkSpec [] []).
Proof. constructor; try done; try apply new_loop_inv; by apply Forall_nil. Qed.

(** C24. Registering by the instance interface, with handlers that make no calls,
    unregistering while no other task has the mutex, posts of the user's own
    bases ([in_scope]): an event loop then implements a list of registrations
    and a queue.  Over any sequence of such calls, of posts and of runs of the
    loop, with any failing allocations, the returned errors are those of the
    specification [spec_step], no run fails, every post that was accepted is
    delivered once, in the order of posting, and each post is delivered to the
    handlers registered for its event, its base or all events at that time, in
    the order of their registration, with their arguments.  (Outside of it:
    [legacy_registration_lost], [failed_unregister_sticks]; handlers that make
    calls: [EspEventSpec], [EspEventEnd].) *)
Theorem delivery_in_registration_order (size : nat) (m : memory) (l : list quiet_act) :
  Forall in_scope l ->
  exists s A, do_acts (act_of <$> l) (new_loop size m) = Some s /\ spec_acts size l (MkSpec [] []) A (log s) /\
    queue s = waiting A /\ forall post, filter (takes post) (flatten (loop_nodes s)) = filter (takes post) (registrations A).
Proof.
  intros Hl. destruct (acts_sim size l _ _ (new_sim size m) Hl) as (s & A & g & E & Hsp & El & Hsim).
  exists s, A. cbn in El. subst g. split_and!; [done|done|apply Hsim|apply Hsim].
Qed.

(** ** Examples *)

Definition B1 : Z := 100.
Definition demo_memory : memory := MkMemory [] 1000.

(** Base level, all events, one event, base level again: the order of registration is kept. *)
Definition demo_acts : list quiet_act :=
  [Calls (RegisterInstance B1 (-1) 11 1); Calls (RegisterInstance 0 (-1) 12 2); Calls (RegisterInstance B1 5 13 3);
   Calls (RegisterInstance B1 (-1) 14 4); Calls (Post B1 5 None true); Calls (Post B1 6 None true); Runs 3].

Lemma delivery_in_registration_order_witness :
  exists s, do_acts (act_of <$> demo_acts) (new_loop 8 demo_memory) = Some s /\
    (exists A, spec_acts 8 demo_acts (MkSpec [] []) A (log s)) /\
    omap (fun e => match e with Exec e => Some (ex_handler e, post_id (ex_post e)) | _ => None end) (log s) =
    [(11, 5); (12, 5); (13, 5); (14, 5); (11, 6); (12, 6); (14, 6)].
Proof.
  destruct (delivery_in_registration_order 8 demo_memory demo_acts) as (s & A & E & Hsp & _).
  - repeat (apply Forall_cons; split; [cbn; done || lia|]). by apply Forall_nil.
  - exists s. split; [exact E|]. split; [by exists A|]. vm_compute in E. injection E as <-. reflexivity.
Defined.
