(* ===== verification/EspEventEnd.v ===== *)
(** * Dispatching an event ends

    Handlers may register further handlers while an event is dispatched, and
    the loops over the lists see those that are added behind the current one.
    No list shrinks during the dispatching and none grows by more than one
    element for a call, so the loops end and every position they visit exists. *)

From S2P Require Import Prelude EspErr EspEvent EspEventProps EspEventSpec EspEventOrder.

(** ** The lists of a loop and their lengths *)

Inductive place :=
  | LoopNodes | LoopHandlers (i : nat) | BaseNodes (i : nat)
  | BaseHandlers (i j : nat) | IdNodes (i j : nat) | IdHandlers (i j k : nat).

Definition len_at (p : place) (s : esp_event_loop_instance) : nat :=
  match p with
  | LoopNodes => length (loop_nodes s)
  | LoopHandlers i => length (loop_handlers (loop_at s i))
  | BaseNodes i => length (base_nodes (loop_at s i))
  | BaseHandlers i j => length (base_handlers (base_at s i j))
  | IdNodes i j => length (id_nodes (base_at s i j))
  | IdHandlers i j k => length (id_handlers (id_at s i j k))
  end.

(** At most one element more. *)
Definition one_more {A} (l l' : list A) : Prop := (length l <= length l' <= S (length l))%nat.

Record grown_id (n n' : esp_event_id_node) : Prop := { gi_handlers : one_more (id_handlers n) (id_handlers n') }.
Definition nth_id (n : esp_event_base_node) (k : nat) : esp_event_id_node := default (MkIdNode 0 []) (id_nodes n !! k).
Record grown_base (n n' : esp_event_base_node) : Prop := {
  gb_handlers : one_more (base_handlers n) (base_handlers n');
  gb_ids : one_more (id_nodes n) (id_nodes n');
  gb_nth : forall k, grown_id (nth_id n k) (nth_id n' k)
}.
Definition nth_base (n : esp_event_loop_node) (j : nat) : esp_event_base_node := default (MkBaseNode 0 [] []) (base_nodes n !! j).
Record grown_loop (n n' : esp_event_loop_node) : Prop := {
  gl_handlers : one_more (loop_handlers n) (loop_handlers n');
  gl_bases : one_more (base_nodes n) (base_nodes n');
  gl_nth : forall j, grown_base (nth_base n j) (nth_base n' j)
}.
Record grown (s s' : esp_event_loop_instance) : Prop := {
  gr_nodes : one_more (loop_nodes s) (loop_nodes s');
  gr_nth : forall i, grown_loop (loop_at s i) (loop_at s' i)
}.

Lemma one_more_refl {A} (l : list A) : one_more l l.
Proof. unfold one_more. lia. Qed.
Lemma one_more_snoc {A} (l : list A) x : one_more l (l ++ [x]).
Proof. unfold one_more. rewrite length_app. cbn. lia. Qed.
Lemma one_more_length {A} (l l' : list A) : length l' = length l -> one_more l l'.
Proof. unfold one_more. lia. Qed.
Create HintDb growth.
#[export] Hint Resolve one_more_refl one_more_snoc : growth.

Lemma grown_id_refl n : grown_id n n.
Proof. split; auto with growth. Qed.
#[export] Hint Resolve grown_id_refl : growth.
Lemma grown_base_refl n : grown_base n n.
Proof. split; auto with growth. Qed.
#[export] Hint Resolve grown_base_refl : growth.
Lemma grown_loop_refl n : grown_loop n n.
Proof. split; auto with growth. Qed.
#[export] Hint Resolve grown_loop_refl : growth.
Lemma grown_refl s : grown s s.
Proof. split; auto with growth. Qed.
#[export] Hint Resolve grown_refl : growth.

(** The elements at a position after a change at one place, or of the end. *)
Lemma nth_update {A} (R : A -> A -> Prop) d l1 x y l2 i :
  (forall z, R z z) -> R x y -> R (default d ((l1 ++ x :: l2) !! i)) (default d ((l1 ++ y :: l2) !! i)).
Proof.
  intros Hr Hxy. destruct (decide (i < length l1)%nat) as [Hi|Hi]; [by rewrite !lookup_app_l|].
  rewrite !lookup_app_r by lia. destruct (i - length l1)%nat; [exact Hxy|apply Hr].
Qed.

Lemma nth_snoc {A} (R : A -> A -> Prop) d l y i :
  (forall z, R z z) -> R d y -> R (default d (l !! i)) (default d ((l ++ [y]) !! i)).
Proof.
  intros Hr Hy. destruct (decide (i < length l)%nat) as [Hi|Hi]; [by rewrite lookup_app_l|].
  rewrite (lookup_ge_None_2 l) by lia. rewrite lookup_app_r by lia. destruct (i - length l)%nat; [exact Hy|apply Hr].
Qed.

Lemma one_more_update {A} (l1 : list A) x y l2 : one_more (l1 ++ x :: l2) (l1 ++ y :: l2).
Proof. apply one_more_length. by rewrite !length_app. Qed.
#[export] Hint Resolve one_more_update : growth.

(** ** Registering *)

Lemma overwrite_length h arg l l' : overwrite_arg h arg l = Some l' -> length l' = length l.
Proof.
  revert l'. induction l as [|x l IH]; intros l' E; [done|]. cbn in E. destruct (h =? ctx_handler x); [by injection E as <-|].
  destruct (overwrite_arg h arg l); [|done]. injection E as <-. cbn. by rewrite IH.
Qed.

Lemma instances_grown hs h arg lg m : one_more hs (handler_instances_add hs h arg lg m).1.1.2.
Proof.
  unfold handler_instances_add. destruct (calloc m) as [[?|] m1]; [|apply one_more_refl].
  destruct (calloc m1) as [[c|] m2]; [|apply one_more_refl].
  destruct lg; [|apply one_more_snoc]. destruct (overwrite_arg h arg hs) eqn:E; [|apply one_more_snoc].
  by apply one_more_length, (overwrite_length h arg).
Qed.

Lemma base_grown n eid h arg lg m : grown_base n (base_node_add_handler n eid h arg lg m).1.1.2.
Proof.
  unfold base_node_add_handler. destruct (eid =? ESP_EVENT_ANY_ID).
  - pose proof (instances_grown (base_handlers n) h arg lg m) as H. destruct (handler_instances_add _ _ _ _ _) as [[[err l] ctx] m'].
    split; auto with growth.
  - match goal with |- context [update_last _ ?g _] => set (f := g) end.
    destruct (update_last _ f (id_nodes n)) as [[[[err ctx] m'] l]|] eqn:E.
    + apply update_last_some in E as (l1 & x & y & l2 & En & _ & Hf & -> & _). unfold f in Hf.
      pose proof (instances_grown (id_handlers x) h arg lg m) as H. destruct (handler_instances_add _ _ _ _ _) as [[[err0 l0] ctx0] m0].
      injection Hf as -> -> -> <-. cbn [fst snd]. split; cbn [base_handlers id_nodes]; rewrite ?En; auto with growth.
      intros k. unfold nth_id. cbn [id_nodes]. rewrite En. apply nth_update; [apply grown_id_refl|by split].
    + destruct (calloc m) as [[p|] m1]; [|apply grown_base_refl].
      pose proof (instances_grown [] h arg lg m1) as H. destruct (handler_instances_add _ _ _ _ _) as [[[err l] ctx] m2]. cbn [fst snd] in *.
      destruct (err =? ESP_OK); [|apply grown_base_refl]. split; cbn [base_handlers id_nodes]; auto with growth.
      intros k. unfold nth_id. cbn [id_nodes]. apply nth_snoc; [apply grown_id_refl|by split].
Qed.

Lemma loop_grown n ebase eid h arg lg m : grown_loop n (loop_node_add_handler n ebase eid h arg lg m).1.1.2.
Proof.
  unfold loop_node_add_handler. destruct (_ && _).
  - pose proof (instances_grown (loop_handlers n) h arg lg m) as H. destruct (handler_instances_add _ _ _ _ _) as [[[err l] ctx] m'].
    split; auto with growth.
  - match goal with |- context [if ?c then let (_, _) := calloc m in _ else _] => destruct c end.
    + destruct (calloc m) as [[p|] m1]; [|apply grown_loop_refl].
      pose proof (base_grown (MkBaseNode ebase [] []) eid h arg lg m1) as H. destruct (base_node_add_handler _ _ _ _ _ _) as [[[err b] ctx] m2].
      cbn [fst snd] in *. destruct (err =? ESP_OK); [|apply grown_loop_refl]. split; cbn [loop_handlers base_nodes]; auto with growth.
      intros k. unfold nth_base. cbn [base_nodes]. apply nth_snoc; [apply grown_base_refl|]. destruct H. by split.
    + match goal with |- context [update_last _ ?g _] => set (f := g) end.
      destruct (update_last _ f (base_nodes n)) as [[[[err ctx] m'] l]|] eqn:E; [|apply grown_loop_refl].
      apply update_last_some in E as (l1 & x & y & l2 & En & _ & Hf & -> & _). unfold f in Hf.
      pose proof (base_grown x eid h arg lg m) as H. destruct (base_node_add_handler _ _ _ _ _ _) as [[[err0 b0] ctx0] m0].
      injection Hf as -> -> -> <-. cbn [fst snd]. split; cbn [loop_handlers base_nodes]; rewrite ?En; auto with growth.
      intros k. unfold nth_base. cbn [base_nodes]. rewrite En. apply nth_update; [apply grown_base_refl|done].
Qed.

(** The nodes alone matter. *)
Lemma grown_nodes s s' : loop_nodes s' = loop_nodes s -> grown s s'.
Proof.
  intros E. split; [rewrite E; apply one_more_refl|]. intros i. unfold loop_at. rewrite E. apply grown_loop_refl.
Qed.

Lemma register_grown ebase eid h arg lg s : grown s (esp_event_handler_register_with_internal ebase eid h arg lg s).2.
Proof.
  unfold esp_event_handler_register_with_internal. destruct (_ && _); [apply grown_refl|]. destruct s as [n q l m g]. cbn [loop_nodes heap].
  set (eb := if ebase =? ESP_EVENT_ANY_BASE then _ else _).
  match goal with |- context [if ?c then let (_, _) := calloc m in _ else _] => destruct c end.
  - destruct (calloc m) as [[p|] m1]; [|by apply grown_nodes].
    pose proof (loop_grown (MkLoopNode [] []) eb eid h arg lg m1) as H. destruct (loop_node_add_handler _ _ _ _ _ _ _) as [[[err b] ctx] m2].
    cbn [fst snd] in *. destruct (err =? ESP_OK); [|by apply grown_nodes]. split; cbn [loop_nodes set_memory set_nodes]; auto with growth.
    intros i. unfold loop_at. cbn [loop_nodes set_memory set_nodes]. apply nth_snoc; [apply grown_loop_refl|done].
  - match goal with |- context [update_last _ ?g _] => set (f := g) end.
    destruct (update_last _ f l) as [[[[err ctx] m'] l']|] eqn:E; [|apply grown_refl].
    apply update_last_some in E as (l1 & x & y & l2 & -> & _ & Hf & -> & _). unfold f in Hf.
    pose proof (loop_grown x eb eid h arg lg m) as H. destruct (loop_node_add_handler _ _ _ _ _ _ _) as [[[err0 b0] ctx0] m0].
    injection Hf as -> -> -> <-. cbn [fst snd]. split; cbn [loop_nodes set_memory set_nodes]; auto with growth.
    intros i. unfold loop_at. cbn [loop_nodes set_memory set_nodes]. apply nth_update; [apply grown_loop_refl|done].
Qed.

(** ** The other calls *)

Lemma grown_same s s1 s' : loop_nodes s' = loop_nodes s1 -> grown s s1 -> grown s s'.
Proof.
  intros E [H1 H2]. split; [by rewrite E|]. intros i. unfold loop_at at 2. rewrite E. apply H2.
Qed.

(** A change of every element that keeps the default. *)
Lemma nth_fmap {A} (R : A -> A -> Prop) (f : A -> A) d (l : list A) (i : nat) :
  (forall z, R z (f z)) -> f d = d -> R (default d (l !! i)) (default d ((f <$> l) !! i)).
Proof.
  intros H Hd. rewrite list_lookup_fmap. destruct (l !! i) as [z|]; [apply H|]. cbn. pose proof (H d) as H1. by rewrite Hd in H1.
Qed.

Lemma mark_grown c s : grown s (set_nodes (mark_nodes c (loop_nodes s)) s).
Proof.
  destruct s as [sz q l m g]. split; cbn [loop_nodes set_nodes]; unfold loop_at, mark_nodes; cbn [loop_nodes].
  - apply one_more_length, length_fmap.
  - intros i. apply nth_fmap; [|done]. intros n. split; cbn [loop_handlers base_nodes]; try apply one_more_length, length_fmap.
    intros j. unfold nth_base; cbn [base_nodes]. apply nth_fmap; [|done]. intros b. split; cbn [base_handlers id_nodes]; try apply one_more_length, length_fmap.
    intros k. unfold nth_id; cbn [id_nodes]. apply nth_fmap; [|done]. intros x. split. apply one_more_length, length_fmap.
Qed.

Lemma post_nodes ebase eid d ok s : loop_nodes (post_instance ebase eid d ok s).2 = loop_nodes s.
Proof.
  unfold post_instance, queue_send. destruct (_ || _); [done|]. destruct s as [sz q l m g].
  destruct d; cbn [heap set_memory]; try destruct (calloc m) as [[a|] m1]; cbn [negb]; destruct ok; cbn [negb queue queue_size]; try done;
    by destruct (_ <? _)%nat.
Qed.

Lemma isr_post_nodes ebase eid d w s : loop_nodes (esp_event_isr_post_to ebase eid d w s).2 = loop_nodes s.
Proof.
  unfold esp_event_isr_post_to, queue_send. destruct (_ || _); [done|]. destruct (4 <? _)%nat; [done|]. destruct s as [sz q l m g].
  cbn [queue queue_size]. by destruct (_ <? _)%nat.
Qed.

Lemma find_grown ctx s : grown s (find_and_unregister_handler ctx s).2.
Proof.
  unfold find_and_unregister_handler. destruct (scan_loop ctx None (loop_nodes s)) as [h|]; [|apply grown_refl].
  destruct (unregistered h); [apply grown_refl|]. pose proof (mark_grown (handler_ctx h) s) as H.
  set (s1 := set_nodes (mark_nodes (handler_ctx h) (loop_nodes s)) s) in *. cbv zeta.
  assert (forall m, loop_nodes (set_memory m s1) = loop_nodes s1) as Hm by (by destruct s1).
  destruct (legacy ctx).
  - destruct (calloc (heap s1)) as [[p|] m1]; cbn [negb].
    + apply (grown_same s s1); [|done]. by rewrite post_nodes, Hm.
    + apply (grown_same s s1); [apply Hm|done].
  - cbn [negb]. apply (grown_same s s1); [|done]. by rewrite post_nodes.
Qed.

(** A handler's call removes nothing. *)
Lemma held_call_grown k s : grown s (do_call true k s).2.
Proof.
  destruct k as [b i h a|b i h a|b i h c|b i [x|] c|b i d ok|b i d w]; cbn [do_call negb orb].
  - pose proof (register_grown b i h a true s) as H. unfold esp_event_handler_register_with.
    by destruct (esp_event_handler_register_with_internal b i h a true s) as [[err ctx] s'].
  - pose proof (register_grown b i h a false s) as H. unfold esp_event_handler_instance_register_with.
    by destruct (esp_event_handler_register_with_internal b i h a false s) as [[err ctx] s'].
  - unfold esp_event_handler_unregister_with, esp_event_handler_unregister_with_internal.
    destruct (_ && _); [apply grown_refl|apply find_grown].
  - unfold esp_event_handler_instance_unregister_with, esp_event_handler_unregister_with_internal.
    destruct (_ && _); [apply grown_refl|apply find_grown].
  - apply grown_refl.
  - apply grown_nodes, post_nodes.
  - apply grown_nodes, isr_post_nodes.
Qed.

(** ** The lengths during the dispatching *)

Lemma grown_len s s' p : grown s s' -> (len_at p s <= len_at p s' <= S (len_at p s))%nat.
Proof.
  intros [H1 H2]. destruct p as [|i|i|i j|i j|i j k]; cbn [len_at]; [exact H1|apply (H2 i)..| | |].
  - apply (gl_nth _ _ (H2 i) j).
  - apply (gl_nth _ _ (H2 i) j).
  - apply (gb_nth _ _ (gl_nth _ _ (H2 i) j) k).
Qed.

(** ** The posts *)

(** The base of the cleanup events is private to the file. *)
Definition proper_call (k : api_call) : Prop :=
  match k with Post b _ _ _ | PostFromISR b _ _ _ => b <> esp_event_handler_cleanup | _ => True end.

Definition proper_post (p : esp_event_post_instance) : Prop :=
  post_base p = esp_event_handler_cleanup -> exists ctx, post_data p = Cleanup ctx.

Definition proper (x : running) : Prop := Forall proper_post (queue x.1) /\ Forall (Forall proper_call) x.2.

Lemma queue_set_memory m s : queue (set_memory m s) = queue s.
Proof. by destruct s. Qed.
Lemma queue_set_nodes l s : queue (set_nodes l s) = queue s.
Proof. by destruct s. Qed.
Lemma queue_set_queue q s : queue (set_queue q s) = q.
Proof. by destruct s. Qed.
Lemma queue_add_log e s : queue (add_log e s) = queue s.
Proof. by destruct s. Qed.
Create Rewrite HintDb event_queue.
#[export] Hint Rewrite queue_set_memory queue_set_nodes queue_set_queue queue_add_log : event_queue.

Lemma queue_send_queue p s : queue (queue_send p s).2 = queue s \/ queue (queue_send p s).2 = queue s ++ [p].
Proof. unfold queue_send. destruct (_ <? _)%nat; [right|left; done]. cbn [snd]. by autorewrite with event_queue. Qed.

Lemma post_queue ebase eid d ok s :
  let q := queue (post_instance ebase eid d ok s).2 in q = queue s \/ q = queue s ++ [MkPost ebase eid d].
Proof.
  unfold post_instance. cbv zeta. destruct (_ || _); [by left|].
  match goal with |- context [let '(copied, s0) := ?c in _] => assert (queue c.2 = queue s) as E; [|destruct c as [copied s1]; cbn [snd] in E] end.
  { destruct d; cbn [snd]; try done; destruct (calloc (heap s)) as [[?|] m]; cbn [snd]; by autorewrite with event_queue. }
  destruct copied; cbn [negb]; [|by left]. destruct ok; cbn [negb]; [|by left].
  pose proof (queue_send_queue (MkPost ebase eid d) s1) as H. rewrite E in H. by destruct (queue_send _ s1) as [[] s2].
Qed.

Lemma register_queue ebase eid h arg lg s : queue (esp_event_handler_register_with_internal ebase eid h arg lg s).2 = queue s.
Proof.
  unfold esp_event_handler_register_with_internal. destruct (_ && _); [done|]. cbv zeta.
  match goal with |- context [if ?c then let (_, _) := calloc _ in _ else _] => destruct c end.
  - destruct (calloc (heap s)) as [[p|] m1]; cbn [snd]; autorewrite with event_queue; [|done].
    destruct (loop_node_add_handler _ _ _ _ _ _ _) as [[[err b] ctx] m2]. cbn [snd]. autorewrite with event_queue.
    destruct (err =? ESP_OK); by autorewrite with event_queue.
  - match goal with |- context [update_last _ ?g _] => destruct (update_last _ g (loop_nodes s)) as [[[[err ctx] m'] l']|] end; [|done].
    cbn [snd]. by autorewrite with event_queue.
Qed.

Lemma find_queue ctx s :
  let q := queue (find_and_unregister_handler ctx s).2 in q = queue s \/ q = queue s ++ [MkPost esp_event_handler_cleanup 0 (Cleanup ctx)].
Proof.
  unfold find_and_unregister_handler. cbv zeta. destruct (scan_loop ctx None (loop_nodes s)) as [h|]; [|by left].
  destruct (unregistered h); [by left|]. set (s1 := set_nodes (mark_nodes (handler_ctx h) (loop_nodes s)) s).
  assert (queue s1 = queue s) as E by apply queue_set_nodes. rewrite <- E. clearbody s1.
  destruct (legacy ctx); [|cbn [negb]; apply post_queue].
  destruct (calloc (heap s1)) as [[p|] m1]; cbn [negb snd]; rewrite ?queue_set_memory; [|by left].
  rewrite <- (queue_set_memory m1 s1). apply post_queue.
Qed.

Lemma remove_queue ctx s : queue (loop_remove_handler ctx s).2 = queue s.
Proof. unfold loop_remove_handler. destruct (remove_in _ _); [cbn [snd]; by autorewrite with event_queue|done]. Qed.

Lemma unregister_queue ebase eid ctx h lg free s :
  Forall proper_post (queue s) -> Forall proper_post (queue (esp_event_handler_unregister_with_internal ebase eid ctx h lg free s).2).
Proof.
  intros H. unfold esp_event_handler_unregister_with_internal. destruct (_ && _); [done|]. cbv zeta.
  destruct free; [by rewrite remove_queue|]. match goal with |- context [find_and_unregister_handler ?c s] => pose proof (find_queue c s) as [->| ->] end; [done|].
  apply Forall_app. split; [done|]. apply Forall_singleton. intros _. by eexists.
Qed.

Lemma call_proper held k s :
  proper_call k -> Forall proper_post (queue s) -> Forall proper_post (queue (do_call held k s).2).
Proof.
  intros Hk H. destruct k as [b i h a|b i h a|b i h c|b i [x|] c|b i d ok|b i d w]; cbn [do_call].
  - pose proof (register_queue b i h a true s) as E. unfold esp_event_handler_register_with.
    destruct (esp_event_handler_register_with_internal b i h a true s) as [[err ctx] s']. cbn [snd] in *. by rewrite E.
  - pose proof (register_queue b i h a false s) as E. unfold esp_event_handler_instance_register_with.
    destruct (esp_event_handler_register_with_internal b i h a false s) as [[err ctx] s']. cbn [snd] in *. by rewrite E.
  - by apply unregister_queue.
  - by apply unregister_queue.
  - done.
  - unfold esp_event_post_to. match goal with |- context [post_instance b i ?d ok s] => pose proof (post_queue b i d ok s) as [->| ->] end; [done|].
    apply Forall_app. split; [done|]. apply Forall_singleton. by intros ?%Hk.
  - unfold esp_event_isr_post_to. destruct (_ || _); [done|]. destruct (4 <? _)%nat; [done|]. cbv zeta.
    match goal with |- context [queue_send ?p s] => pose proof (queue_send_queue p s) as H1; destruct (queue_send p s) as [r s1]; cbn [snd] in H1 |- * end.
    destruct H1 as [->| ->]; [done|]. apply Forall_app. split; [done|]. apply Forall_singleton. by intros ?%Hk.
Qed.

Lemma run_calls_proper held cs s :
  Forall proper_call cs -> Forall proper_post (queue s) -> Forall proper_post (queue (run_calls held cs s)).
Proof.
  intros Hcs. revert s. induction Hcs as [|k cs Hk _ IH]; intros s H; [done|]. cbn [run_calls foldl]. apply IH. unfold run_call.
  pose proof (call_proper held k s Hk H) as H1. destruct (do_call held k s) as [err s1]. by rewrite queue_add_log.
Qed.

(** ** Executions *)

(** The state and the calls left: no list shrinks, and the calls pay for the growth. *)
Record bounded (x x' : running) : Prop := {
  bd_len : forall p, (len_at p x.1 <= len_at p x'.1 /\
    len_at p x'.1 + length (concat x'.2) <= len_at p x.1 + length (concat x.2))%nat;
  bd_proper : proper x -> proper x'
}.

#[export] Instance bounded_preorder : PreOrder bounded.
Proof.
  split; [intros x; split; [lia|done]|]. intros x y z [H1 P1] [H2 P2]. split; [|auto]. intros p. specialize (H1 p). specialize (H2 p). lia.
Qed.

Lemma run_call_len k s p : (len_at p s <= len_at p (run_call true k s) <= S (len_at p s))%nat.
Proof.
  unfold run_call. pose proof (held_call_grown k s) as H. destruct (do_call true k s) as [err s1]. apply grown_len.
  apply (grown_same s s1); [by destruct s1|done].
Qed.

Lemma run_calls_len cs s p :
  (len_at p s <= len_at p (run_calls true cs s) <= len_at p s + length cs)%nat.
Proof.
  revert s. induction cs as [|k cs IH]; intros s; cbn [run_calls foldl length]; [lia|].
  pose proof (run_call_len k s p). pose proof (IH (run_call true k s)). unfold run_calls in *. lia.
Qed.

Lemma handler_execute_bounded h post x : bounded x (handler_execute h post x).
Proof.
  destruct x as [s bs]. unfold handler_execute, proper. set (s1 := add_log _ s). split.
  - intros p. cbn [fst snd]. assert (len_at p s1 = len_at p s) as E by (by destruct s, p).
    pose proof (run_calls_len (default [] (head bs)) s1 p) as H. rewrite E in H. clearbody s1.
    destruct bs as [|b bs]; cbn in *; rewrite ?length_app; lia.
  - intros [Hq Hbs]. cbn [fst snd] in *. destruct Hbs as [|b bs Hb Hbs]; cbn [head tail default fmap option_fmap option_map]; split; try done.
    + unfold s1. cbn. by rewrite queue_add_log.
    + apply run_calls_proper; [done|]. unfold s1. by rewrite queue_add_log.
Qed.

(** ** Loops end *)

Lemma foreach_safe_total fuel len body j x :
  (forall x x', bounded x x' -> (len x <= len x' /\ len x' + length (concat x'.2) <= len x + length (concat x.2))%nat) ->
  (forall j x, (j < len x)%nat -> exists x' b, body j x = Some (x', b) /\ bounded x x') ->
  (j < len x)%nat -> (len x + length (concat x.2) <= fuel + j)%nat ->
  exists x', foreach_safe fuel len body j x = Some x' /\ bounded x x'.
Proof.
  intros Hlen Hbody. revert j x. induction fuel as [|fuel IH]; intros j x Hj Hf; [lia|]. cbn [foreach_safe].
  destruct (Hbody j x Hj) as (x1 & b & -> & Hb). destruct b; [by exists x1|]. pose proof (Hlen _ _ Hb).
  destruct (Nat.ltb_spec (S j) (len x)); [|by exists x1].
  destruct (IH (S j) x1) as (x2 & E & H2); [lia|lia|]. exists x2. split; [exact E|by transitivity x1].
Qed.

Lemma foreach_total (p : place) len body x :
  (forall x, len x = len_at p x.1) ->
  (forall j x, (j < len x)%nat -> exists x' b, body j x = Some (x', b) /\ bounded x x') ->
  exists x', foreach len body x = Some x' /\ bounded x x'.
Proof.
  intros Hp Hbody. unfold foreach. destruct (Nat.eqb_spec (len x) 0) as [E|E]; [by exists x|].
  apply foreach_safe_total; [|exact Hbody|lia..]. intros y y' H. rewrite !Hp. apply (bd_len _ _ H p).
Qed.

Lemma run_handlers_total p get post x :
  (forall s, length (get s) = len_at p s) -> exists x', run_handlers get post x = Some x' /\ bounded x x'.
Proof.
  intros Hp. apply (foreach_total p); [intros y; apply Hp|]. intros j y Hj. cbn beta.
  destruct (lookup_lt_is_Some_2 _ _ Hj) as [h ->]. eexists _, _. split; [reflexivity|].
  destruct (unregistered h); [done|apply handler_execute_bounded].
Qed.

Lemma run_id_nodes_total i j post x : exists x', run_id_nodes i j post x = Some x' /\ bounded x x'.
Proof.
  apply (foreach_total (IdNodes i j)); [done|]. intros k y _. destruct (_ =? _); [|by eexists _, _].
  destruct (run_handlers_total (IdHandlers i j k) (fun s => id_handlers (id_at s i j k)) post y) as (y' & -> & Hy); [done|]. by eexists _, _.
Qed.

Lemma run_base_nodes_total i post x : exists x', run_base_nodes i post x = Some x' /\ bounded x x'.
Proof.
  apply (foreach_total (BaseNodes i)); [done|]. intros j y _. destruct (_ =? _); [|by eexists _, _].
  destruct (run_handlers_total (BaseHandlers i j) (fun s => base_handlers (base_at s i j)) post y) as (y' & -> & Hy); [done|].
  destruct (run_id_nodes_total i j post y') as (z & -> & Hz). eexists _, _. split; [reflexivity|by transitivity y'].
Qed.

Lemma dispatch_total post x : exists x', dispatch post x = Some x' /\ bounded x x'.
Proof.
  apply (foreach_total LoopNodes); [done|]. intros i y _.
  destruct (run_handlers_total (LoopHandlers i) (fun s => loop_handlers (loop_at s i)) post y) as (y' & -> & Hy); [done|].
  destruct (run_base_nodes_total i post y') as (z & -> & Hz). eexists _, _. split; [reflexivity|by transitivity y'].
Qed.

Lemma run_post_total post x : proper_post post -> proper x -> exists x', run_post post x = Some x' /\ proper x'.
Proof.
  destruct x as [s bs]. intros Hp Hx. cbn [run_post]. destruct (Z.eqb_spec (post_base post) esp_event_handler_cleanup) as [E|E].
  - destruct (Hp E) as [ctx ->]. destruct (dispatch_total post ((loop_remove_handler ctx s).2, bs)) as (x' & -> & [_ H]).
    eexists. split; [reflexivity|]. apply H. destruct Hx. split; [cbn [fst]; by rewrite remove_queue|done].
  - destruct (dispatch_total post (s, bs)) as (x' & -> & [_ H]). eexists. split; [reflexivity|by apply H].
Qed.

Definition proper_rounds (rounds : list (list (list api_call) * Z)) : Prop := Forall (fun r => Forall (Forall proper_call) r.1) rounds.

Definition total_ticks (rounds : list (list (list api_call) * Z)) : Z := foldr (fun r t => r.2 + t) 0 rounds.

Lemma rounds_total forever rem rounds s :
  Forall proper_post (queue s) -> proper_rounds rounds ->
  exists s' b, run_rounds forever rem rounds s = Some (s', b) /\ Forall proper_post (queue s') /\
    (forever = false -> rounds <> [] -> rem <= total_ticks rounds -> b = true).
Proof.
  intros Hs Hr. revert rem s Hs. induction Hr as [|[bs elapsed] rounds Hb Hr IH]; intros rem s Hs; cbn [run_rounds].
  { by exists s, false. }
  destruct (queue s) as [|post q] eqn:Eq; [exists s, true; split_and!; try done; by rewrite Eq|].
  apply Forall_cons in Hs as [Hpost Hq].
  destruct (run_post_total post (set_queue q s, bs)) as ([s1 bs1] & -> & Hs1 & _); [done|split; cbn [fst snd]; [by rewrite queue_set_queue|done]|].
  cbn [fst] in Hs1. destruct forever; [|destruct (Z.leb_spec (rem - elapsed) 0)].
  - destruct (IH rem s1 Hs1) as (s' & b & E & H1 & _). by exists s', b.
  - exists s1, true. split_and!; try done.
  - destruct (IH (rem - elapsed) s1 Hs1) as (s' & b & E & H1 & H2). exists s', b. split_and!; try done.
    intros _ _ Ht. cbn [total_ticks foldr snd] in Ht. apply H2; [done|intros ->; cbn in Ht; lia|unfold total_ticks; lia].
Qed.

Definition proper_act (a : act) : Prop :=
  match a with Call k => proper_call k | RunLoop _ rounds => proper_rounds rounds end.

Lemma acts_total l s :
  Forall proper_act l -> Forall proper_post (queue s) -> exists s', do_acts l s = Some s' /\ Forall proper_post (queue s').
Proof.
  intros Hl. revert s. induction Hl as [|a l Ha Hl IH]; intros s Hs; [by exists s|]. cbn [do_acts].
  destruct a as [k|t rounds]; cbn [do_act proper_act] in *.
  - apply IH. pose proof (call_proper false k s Ha Hs) as H. unfold run_call. destruct (do_call false k s) as [err s1]. by rewrite queue_add_log.
  - unfold esp_event_loop_run. destruct (rounds_total (t =? portMAX_DELAY) t rounds s Hs Ha) as (s' & b & -> & H & _). by apply IH.
Qed.

(** C34. Running a loop ends and reads no dead pointer, whatever the handlers do.
    After any history, with any calls by other tasks and by the handlers that
    run (registering further handlers, unregistering, posting; only the
    internal base of the cleanup events is not posted), with failing
    allocations and full queues, [esp_event_loop_run] dispatches every post it
    takes to the end within the fuel of [foreach], and it has returned as soon
    as the rounds together take [ticks_to_run] ticks. *)
Theorem loop_run_returns (size : nat) (m : memory) (l : list act) (t : Z) (rounds : list (list (list api_call) * Z)) :
  Forall proper_act l -> proper_rounds rounds ->
  exists s s' returned, do_acts l (new_loop size m) = Some s /\ esp_event_loop_run t rounds s = Some (s', returned) /\
    (t <> portMAX_DELAY -> rounds <> [] -> t <= total_ticks rounds -> returned = true).
Proof.
  intros Hl Hr. destruct (acts_total l (new_loop size m) Hl) as (s & E & Hs); [by apply Forall_nil|].
  destruct (rounds_total (t =? portMAX_DELAY) t rounds s Hs Hr) as (s' & b & Er & _ & Hb).
  exists s, s', b. split_and!; [exact E|exact Er|]. intros Ht. apply Hb, Z.eqb_neq, Ht.
Qed.

(** ** Runs *)

(** A handler that registers another one while the event is dispatched; the
    new one is behind it in the list and is called for the same event. *)
Definition growing_acts : list act :=
  [Call (RegisterInstance B1 5 11 1); Call (RegisterInstance B1 5 12 2); Call (Post B1 5 None true)].
Definition growing_rounds : list (list (list api_call) * Z) :=
  [([[RegisterInstance B1 5 13 3; Post B1 5 None true]], 1); ([], 1)].

Lemma loop_run_returns_witness :
  exists s s', do_acts growing_acts (new_loop 8 demo_memory) = Some s /\ esp_event_loop_run 2 growing_rounds s = Some (s', true) /\
    omap (fun e => match e with Exec e => Some (ex_handler e) | _ => None end) (log s') = [11; 12; 13; 11; 12; 13].
Proof.
  destruct (loop_run_returns 8 demo_memory growing_acts 2 growing_rounds) as (s & s' & r & E & Er & Hr).
  - repeat (apply Forall_cons; split; [done|]). by apply Forall_nil.
  - repeat (apply Forall_cons; split; [repeat (apply Forall_cons; split; [|]); try done; by apply Forall_nil|]). by apply Forall_nil.
  - assert (r = true) as -> by (apply Hr; done). exists s, s'. split_and!; [exact E|exact Er|].
    vm_compute in E. injection E as <-. vm_compute in Er. injection Er as <-. reflexivity.
Defined.

(** What was executed: the handler, its argument, the base. *)
Definition executed (g : list event) : list (Z * Z * Z) :=
  omap (fun e => match e with Exec e => Some (ex_handler e, ex_arg e, post_base (ex_post e)) | _ => None end) g.

(** One post is taken; the handlers that run make the calls. *)
Definition run_one (behaviours : list (list api_call)) : act := RunLoop 0 [(behaviours, 1)].
Definition E5 : api_call := Post B1 5 None true.

(** With the legacy interface a handler that unregisters itself can hit
    another registration.  A handler is registered for all events and for one
    event; it unregisters itself from the one event while it runs.  The first
    registration for all events is marked as unregistered, the call made for
    the one event still happens and that registration is removed by the
    cleanup event: no event is delivered to the handler any more, and its
    registration for all events stays in the list. *)
Theorem legacy_unregister_hits_other (x y : Z) :
  exists s,
    do_acts [Call (Register ESP_EVENT_ANY_BASE ESP_EVENT_ANY_ID 21 x); Call (Register B1 5 21 y); Call E5;
             run_one [[Unregister B1 5 21 false]]; run_one []; Call E5; run_one []] (new_loop 8 demo_memory) = Some s /\
    executed (log s) = [(21, x, B1); (21, y, B1)] /\ flatten (loop_nodes s) = [(AnyEvent, MkHandler 1002 21 x true)].
Proof. eexists. split; [vm_compute; reflexivity|]. done. Qed.

(** A registration with the legacy interface between the unregistering by the
    handler and the cleanup event is accepted and lost. *)
Lemma legacy_registration_lost (x y : Z) :
  exists s,
    do_acts [Call (Register B1 5 21 x); Call E5; run_one [[Unregister B1 5 21 false]]; Call (Register B1 5 21 y);
             run_one []; Call E5; run_one []] (new_loop 8 demo_memory) = Some s /\
    Returned (Register B1 5 21 y) ESP_OK ∈ log s /\ loop_nodes s = [] /\ executed (log s) = [(21, x, B1)].
Proof. eexists. split; [vm_compute; reflexivity|]. split; [|done]. rewrite list_elem_of_In. cbn. tauto. Qed.

(** The internal cleanup event reaches the handlers for all events. *)
Lemma cleanup_event_dispatched (x y : Z) :
  exists s,
    do_acts [Call (RegisterInstance ESP_EVENT_ANY_BASE ESP_EVENT_ANY_ID 21 x); Call (RegisterInstance B1 5 22 y); Call E5;
             run_one [[]; [UnregisterInstance B1 5 (Some 1006) false]]; run_one []] (new_loop 8 demo_memory) = Some s /\
    executed (log s) = [(21, x, B1); (22, y, B1); (21, x, esp_event_handler_cleanup)].
Proof. eexists. split; [vm_compute; reflexivity|]. done. Qed.

(** Unregistering from a handler when the queue is full fails half-way: the
    call returns [ESP_ERR_TIMEOUT] with the handler marked, a second call
    returns [ESP_OK], and no cleanup event is posted, so that the handler is
    not called for the waiting event and stays in the list when the queue is
    empty. *)
Theorem failed_unregister_sticks (x : Z) :
  let k := UnregisterInstance B1 5 (Some 1004) false in
  exists s,
    do_acts [Call (RegisterInstance B1 5 21 x); Call E5; run_one [[E5; k; k]]; run_one []; run_one []] (new_loop 1 demo_memory) = Some s /\
    log s = [Returned (RegisterInstance B1 5 21 x) ESP_OK; Returned E5 ESP_OK; Exec (Executed 1004 21 x (MkPost B1 5 NoData));
             Returned E5 ESP_OK; Returned k ESP_ERR_TIMEOUT; Returned k ESP_OK] /\
    queue s = [] /\ flatten (loop_nodes s) = [(OfEvent B1 5, MkHandler 1004 21 x true)].
Proof. cbv zeta. eexists. split; [vm_compute; reflexivity|]. done. Qed.
