(* ===== verification/Mmu.v ===== *)
(** * The MMU table and its driver: definitions

    Sources: [hal/mmu_hal.c], the table of the ESP32-S3 in
    [hal/esp32s3/include/hal/mmu_ll.h], and the driver [esp_mm/esp_mmu_map.c]
    with the regions of [esp_mm/port/esp32s3/ext_mem_layout.c].

    The table is a function from entry numbers to words.  A region keeps its
    blocks in a list; the first and the last one are dummies.  A node that was
    freed while it is in a list is marked ([freed]), and a later walk over the
    list is [None], like a failed assertion ([HAL_ASSERT] enabled).  The caches
    are stopped during changes of the table, so a change is one step; the
    driver's lock makes each call one step. *)

From S2P Require Import Prelude EspErr.

(** ** The table *)

Definition SOC_IRAM0_CACHE_ADDRESS_LOW : Z := 0x42000000.
Definition SOC_IRAM0_CACHE_ADDRESS_HIGH : Z := 0x44000000.
Definition SOC_DRAM0_CACHE_ADDRESS_LOW : Z := 0x3C000000.
Definition SOC_DRAM0_CACHE_ADDRESS_HIGH : Z := 0x3E000000.
Definition SOC_MMU_INVALID : Z := 0x4000.
Definition SOC_MMU_VALID : Z := 0.
Definition SOC_MMU_TYPE : Z := 0x8000.
Definition SOC_MMU_ACCESS_FLASH : Z := 0.
Definition SOC_MMU_ACCESS_SPIRAM : Z := 0x8000.
Definition SOC_MMU_VALID_VAL_MASK : Z := 0x3fff.
Definition SOC_MMU_MAX_PADDR_PAGE_NUM : Z := 16384.
Definition SOC_MMU_VADDR_MASK : Z := 0x1FFFFFF.
Definition SOC_MMU_ENTRY_NUM : Z := 512.
Definition SOC_MMU_DBUS_VADDR_BASE : Z := 0x3C000000.
Definition SOC_MMU_IBUS_VADDR_BASE : Z := 0x42000000.
Definition SOC_MMU_LINEAR_ADDR_MASK : Z := 0x1FFFFFF.
Definition MMU_PAGE_64KB : Z := 0x10000.
Definition CONFIG_MMU_PAGE_SIZE : Z := 0x10000.

Definition MMU_VADDR_DATA : Z := 1.
Definition MMU_VADDR_INSTRUCTION : Z := 2.
Definition MMU_TARGET_FLASH0 : Z := 1.
Definition MMU_TARGET_PSRAM0 : Z := 2.
Definition MMU_MEM_CAP_EXEC : Z := 1.
Definition MMU_MEM_CAP_READ : Z := 2.
Definition MMU_MEM_CAP_WRITE : Z := 4.
Definition MMU_MEM_CAP_32BIT : Z := 8.
Definition MMU_MEM_CAP_8BIT : Z := 16.

Definition table := Z -> Z.

Definition in_bus (low high vaddr : Z) : bool := (low <=? vaddr) && (vaddr <? high).

Definition mmu_ll_vaddr_to_laddr (vaddr : Z) : Z := Z.land vaddr SOC_MMU_LINEAR_ADDR_MASK.
Definition mmu_ll_laddr_to_vaddr (laddr vaddr_type : Z) : Z :=
  Z.lor (if vaddr_type =? MMU_VADDR_DATA then SOC_MMU_DBUS_VADDR_BASE else SOC_MMU_IBUS_VADDR_BASE) laddr.

Definition mmu_ll_check_valid_ext_vaddr_region (vaddr_start len type : Z) : bool :=
  let vaddr_end := u32 (vaddr_start + len - 1) in
  (flag type MMU_VADDR_INSTRUCTION
   && in_bus SOC_IRAM0_CACHE_ADDRESS_LOW SOC_IRAM0_CACHE_ADDRESS_HIGH vaddr_start
   && in_bus SOC_IRAM0_CACHE_ADDRESS_LOW SOC_IRAM0_CACHE_ADDRESS_HIGH vaddr_end)
  || (flag type MMU_VADDR_DATA
   && in_bus SOC_DRAM0_CACHE_ADDRESS_LOW SOC_DRAM0_CACHE_ADDRESS_HIGH vaddr_start
   && in_bus SOC_DRAM0_CACHE_ADDRESS_LOW SOC_DRAM0_CACHE_ADDRESS_HIGH vaddr_end).

Definition mmu_ll_check_valid_paddr_region (paddr_start len : Z) : bool :=
  let limit := MMU_PAGE_64KB * SOC_MMU_MAX_PADDR_PAGE_NUM in
  (paddr_start <? limit) && (len <? limit) && (u32 (paddr_start + len - 1) <? limit).

Definition mmu_ll_get_entry_id (vaddr : Z) : Z := Z.shiftr (Z.land vaddr SOC_MMU_VADDR_MASK) 16.
Definition mmu_ll_format_paddr (paddr : Z) : Z := Z.shiftr paddr 16.

Definition mmu_ll_write_entry (entry_id mmu_val target : Z) (t : table) : option table :=
  configASSERT (entry_id <? SOC_MMU_ENTRY_NUM);
  let target_code := if target =? MMU_TARGET_FLASH0 then SOC_MMU_ACCESS_FLASH else SOC_MMU_ACCESS_SPIRAM in
  Some (fun i => if i =? entry_id then Z.lor (Z.lor mmu_val target_code) SOC_MMU_VALID else t i).

Definition mmu_ll_set_entry_invalid (entry_id : Z) (t : table) : option table :=
  configASSERT (entry_id <? SOC_MMU_ENTRY_NUM);
  Some (fun i => if i =? entry_id then SOC_MMU_INVALID else t i).

Definition mmu_ll_check_entry_valid (entry_id : Z) (t : table) : option bool :=
  configASSERT (entry_id <? SOC_MMU_ENTRY_NUM); Some (negb (flag (t entry_id) SOC_MMU_INVALID)).

(** [target_code] is a [bool]. *)
Definition mmu_ll_get_entry_target (entry_id : Z) (t : table) : option Z :=
  configASSERT (entry_id <? SOC_MMU_ENTRY_NUM);
  let target_code := if flag (t entry_id) SOC_MMU_TYPE then 1 else 0 in
  Some (if target_code =? SOC_MMU_ACCESS_FLASH then MMU_TARGET_FLASH0 else MMU_TARGET_PSRAM0).

Definition mmu_ll_entry_id_to_paddr_base (entry_id : Z) (t : table) : option Z :=
  configASSERT (entry_id <? SOC_MMU_ENTRY_NUM);
  Some (u32 (Z.shiftl (Z.land (t entry_id) SOC_MMU_VALID_VAL_MASK) 16)).

(** The loop from entry [i] on, [n] entries; [None] inside is -1. *)
Fixpoint find_entry (n : nat) (i mmu_val target : Z) (t : table) : option (option Z) :=
  match n with
  | O => Some None
  | S n =>
      let? valid := mmu_ll_check_entry_valid i t in
      let? entry_target := mmu_ll_get_entry_target i t in
      if (valid : bool) && (entry_target =? target) && (Z.land (t i) SOC_MMU_VALID_VAL_MASK =? mmu_val)
      then Some (Some i) else find_entry n (i + 1) mmu_val target t
  end.
Definition mmu_ll_find_entry_id_based_on_map_value (mmu_val target : Z) (t : table) : option (option Z) :=
  find_entry (Z.to_nat SOC_MMU_ENTRY_NUM) 0 mmu_val target t.

Definition mmu_ll_entry_id_to_vaddr_base (entry_id type : Z) : Z :=
  mmu_ll_laddr_to_vaddr (u32 (Z.shiftl entry_id 16)) type.

(** [mmu_hal.c]: the page size of this chip is 64 KB. *)
Definition mmu_hal_pages_to_bytes (page_num : Z) : Z := u32 (Z.shiftl page_num 16).

Definition page_count (len : Z) : nat :=
  let page_size_in_bytes := mmu_hal_pages_to_bytes 1 in
  Z.to_nat (u32 (len + page_size_in_bytes - 1) / page_size_in_bytes).

Fixpoint map_pages (page_num : nat) (vaddr mmu_val mem_type : Z) (t : table) : option table :=
  match page_num with
  | O => Some t
  | S page_num =>
      let? t := mmu_ll_write_entry (mmu_ll_get_entry_id vaddr) mmu_val mem_type t in
      map_pages page_num (u32 (vaddr + mmu_hal_pages_to_bytes 1)) (u32 (mmu_val + 1)) mem_type t
  end.

Definition ANY_VADDR : Z := Z.lor MMU_VADDR_DATA MMU_VADDR_INSTRUCTION.

Definition mmu_hal_map_region (mem_type vaddr paddr len : Z) (t : table) : option table :=
  let page_size_in_bytes := mmu_hal_pages_to_bytes 1 in
  configASSERT (vaddr mod page_size_in_bytes =? 0);
  configASSERT (paddr mod page_size_in_bytes =? 0);
  configASSERT (mmu_ll_check_valid_paddr_region paddr len);
  configASSERT (mmu_ll_check_valid_ext_vaddr_region vaddr len ANY_VADDR);
  map_pages (page_count len) vaddr (mmu_ll_format_paddr paddr) mem_type t.

Fixpoint unmap_pages (page_num : nat) (vaddr : Z) (t : table) : option table :=
  match page_num with
  | O => Some t
  | S page_num =>
      let? t := mmu_ll_set_entry_invalid (mmu_ll_get_entry_id vaddr) t in
      unmap_pages page_num (u32 (vaddr + mmu_hal_pages_to_bytes 1)) t
  end.

Definition mmu_hal_unmap_region (vaddr len : Z) (t : table) : option table :=
  let page_size_in_bytes := mmu_hal_pages_to_bytes 1 in
  configASSERT (vaddr mod page_size_in_bytes =? 0);
  configASSERT (mmu_ll_check_valid_ext_vaddr_region vaddr len ANY_VADDR);
  unmap_pages (page_count len) vaddr t.

(** The physical address and the target, if the page is mapped. *)
Definition mmu_hal_vaddr_to_paddr (vaddr : Z) (t : table) : option (option (Z * Z)) :=
  configASSERT (mmu_ll_check_valid_ext_vaddr_region vaddr 1 ANY_VADDR);
  let entry_id := mmu_ll_get_entry_id vaddr in
  let? valid := mmu_ll_check_entry_valid entry_id t in
  if negb valid then Some None else
  let offset := vaddr mod mmu_hal_pages_to_bytes 1 in
  let? out_target := mmu_ll_get_entry_target entry_id t in
  let? paddr_base := mmu_ll_entry_id_to_paddr_base entry_id t in
  Some (Some (Z.lor paddr_base offset, out_target)).

Definition mmu_hal_paddr_to_vaddr (paddr target type : Z) (t : table) : option (option Z) :=
  configASSERT (mmu_ll_check_valid_paddr_region paddr 1);
  let mmu_val := mmu_ll_format_paddr paddr in
  let? entry_id := mmu_ll_find_entry_id_based_on_map_value mmu_val target t in
  match entry_id with
  | None => Some None
  | Some entry_id =>
      let offset := paddr mod mmu_hal_pages_to_bytes 1 in
      let vaddr_base := mmu_ll_entry_id_to_vaddr_base entry_id type in
      if vaddr_base =? 0 then Some None else Some (Some (Z.lor vaddr_base offset))
  end.

Fixpoint invalidate (n : nat) (i : Z) (t : table) : option table :=
  match n with O => Some t | S n => let? t := mmu_ll_set_entry_invalid i t in invalidate n (i + 1) t end.
Definition mmu_ll_unmap_all (t : table) : option table := invalidate (Z.to_nat SOC_MMU_ENTRY_NUM) 0 t.

(** ** The state of the driver *)

Record mem_block := MkBlock {
  laddr_start : Z;
  laddr_end : Z;
  vaddr_start : Z;
  vaddr_end : Z;
  blk_size : Z;
  blk_caps : Z;
  paddr_start : Z;
  paddr_end : Z;
  target : Z;
  freed : bool
}.

Record mem_region := MkRegion {
  bus_id : Z;
  start : Z;
  end_ : Z;
  region_size : Z;
  free_head : Z;
  max_slot_size : Z;
  caps : Z;
  targets : Z;
  mem_block_head : list mem_block
}.

(** [num_regions] is the length of the list. *)
Record mmu_ctx := MkCtx {
  mem_regions : list mem_region;
  mmu_table : table
}.

Definition set_region (i : nat) (r : mem_region) (s : mmu_ctx) : mmu_ctx := MkCtx (<[i := r]> (mem_regions s)) (mmu_table s).
Definition set_blocks (l : list mem_block) (r : mem_region) : mem_region :=
  let (b, st, e, sz, f, m, c, t, _) := r in MkRegion b st e sz f m c t l.
Definition set_max_slot (m : Z) (r : mem_region) : mem_region :=
  let (b, st, e, sz, f, _, c, t, l) := r in MkRegion b st e sz f m c t l.
Definition set_free_head (f : Z) (r : mem_region) : mem_region :=
  let (b, st, e, sz, _, m, c, t, l) := r in MkRegion b st e sz f m c t l.

(** ** Start *)

Definition ALIGN_UP_BY (num align : Z) : Z := Z.land (u32 (num + (align - 1))) (u32 (Z.lnot (align - 1))).
Definition ALIGN_DOWN_BY (num align : Z) : Z := Z.land num (u32 (Z.lnot (align - 1))).
Definition MEM_REGION_MERGED : Z := -1.

(** An entry of [g_mmu_mem_regions] and the copy that [esp_mmu_map_init] makes. *)
Definition CACHE_BUS_IBUS0 : Z := 1.
Definition CACHE_BUS_DBUS0 : Z := 8.
Definition hw_region (bus st e c ts : Z) : mem_region := MkRegion bus st e (e - st) st (e - st) c ts [].
Definition g_mmu_mem_regions : list mem_region :=
  [hw_region (Z.lor CACHE_BUS_IBUS0 CACHE_BUS_DBUS0) 0 0x2000000 0x1F (Z.lor MMU_TARGET_FLASH0 MMU_TARGET_PSRAM0)].

Definition cache_ll_l1_get_bus (vaddr len : Z) : option Z :=
  let vaddr_end := u32 (vaddr + len - 1) in
  if (SOC_IRAM0_CACHE_ADDRESS_LOW <=? vaddr) && (vaddr_end <? SOC_IRAM0_CACHE_ADDRESS_HIGH) then Some CACHE_BUS_IBUS0
  else if (SOC_DRAM0_CACHE_ADDRESS_LOW <=? vaddr) && (vaddr_end <? SOC_DRAM0_CACHE_ADDRESS_HIGH) then Some CACHE_BUS_DBUS0
  else None.

(** The loop of [s_reserve_irom_region] and [s_reserve_drom_region]. *)
Fixpoint reserve_in (bus_mask len : Z) (l : list mem_region) : list mem_region :=
  match l with
  | [] => []
  | r :: l =>
      if Z.land bus_mask (bus_id r) =? bus_mask then
        if region_size r <=? len
        then set_max_slot 0 (set_free_head (end_ r) r) :: reserve_in bus_mask (len - region_size r) l
        else set_max_slot (u32 (max_slot_size r - len)) (set_free_head (u32 (free_head r + len)) r) :: reserve_in bus_mask len l
      else r :: reserve_in bus_mask len l
  end.

Definition s_reserve_region (reserved_start reserved_end : Z) (l : list mem_region) : option (list mem_region) :=
  let len := u32 (reserved_end - reserved_start) in
  configASSERT (u32 (mmu_ll_vaddr_to_laddr reserved_end - mmu_ll_vaddr_to_laddr reserved_start) =? len);
  let len := u32 (len + u32 (reserved_start - ALIGN_DOWN_BY reserved_start CONFIG_MMU_PAGE_SIZE)) in
  let len := ALIGN_UP_BY len CONFIG_MMU_PAGE_SIZE in
  let? bus_mask := cache_ll_l1_get_bus reserved_start len in
  Some (reserve_in bus_mask len l).

(** [a] is the region before the list. *)
Fixpoint coalesce (a : mem_region) (l : list mem_region) : list mem_region :=
  match l with
  | [] => [a]
  | b :: l =>
      if (free_head b =? end_ a) && (caps b =? caps a) && (targets b =? targets a) then
        MkRegion (bus_id a) (start a) (end_ a) (region_size a) (free_head a) (max_slot_size a) MEM_REGION_MERGED (targets a) []
        :: coalesce (MkRegion (Z.lor (bus_id b) (bus_id a)) (start a) (end_ b) (u32 (region_size b + region_size a)) (free_head a)
                       (u32 (max_slot_size b + max_slot_size a)) (caps b) (targets b) []) l
      else a :: coalesce b l
  end.

Definition coalesce_all (l : list mem_region) : list mem_region := match l with [] => [] | a :: l => coalesce a l end.

(** The reserved sections: the addresses that the linker gives. *)
Definition esp_mmu_map_init (irom_start irom_end drom_start drom_end : Z) (hw : list mem_region) (t : table) : option mmu_ctx :=
  configASSERT (forallb (fun r => region_size r mod CONFIG_MMU_PAGE_SIZE =? 0) hw);
  let? l := s_reserve_region irom_start irom_end hw in
  let? l := s_reserve_region drom_start drom_end l in
  Some (MkCtx (filter (fun r => negb (caps r =? MEM_REGION_MERGED) = true) (coalesce_all l)) t).

(** ** Requests *)

Definition s_mem_caps_check (caps : Z) : esp_err_t :=
  if flag caps MMU_MEM_CAP_EXEC && (flag caps MMU_MEM_CAP_8BIT || flag caps MMU_MEM_CAP_WRITE) then ESP_ERR_INVALID_ARG else ESP_OK.

Definition suits (c t : Z) (r : mem_region) : bool := (Z.land (caps r) c =? c) && (Z.land (targets r) t =? t).

Fixpoint max_free (c t max : Z) (l : list mem_region) : Z :=
  match l with
  | [] => max
  | r :: l => max_free c t (if suits c t r && (max <? max_slot_size r) then max_slot_size r else max) l
  end.

Definition esp_mmu_map_get_max_consecutive_free_block_size (c t : Z) (s : mmu_ctx) : esp_err_t * Z :=
  if negb (s_mem_caps_check c =? ESP_OK) then (s_mem_caps_check c, 0) else (ESP_OK, max_free c t 0 (mem_regions s)).

(** The first region that suits; [None] is -1. *)
Definition s_find_available_region (l : list mem_region) (size c t : Z) : option nat :=
  fst <$> list_find (fun r => suits c t r && (size <=? max_slot_size r) = true) l.

Definition vaddr_of (laddr c : Z) : Z :=
  mmu_ll_laddr_to_vaddr laddr (if flag c MMU_MEM_CAP_EXEC then MMU_VADDR_INSTRUCTION else MMU_VADDR_DATA).

Definition esp_mmu_map_reserve_block_with_caps (size c t : Z) (s : mmu_ctx) : esp_err_t * option Z * mmu_ctx :=
  if negb (s_mem_caps_check c =? ESP_OK) then (s_mem_caps_check c, None, s) else
  let aligned_size := ALIGN_UP_BY size CONFIG_MMU_PAGE_SIZE in
  match s_find_available_region (mem_regions s) aligned_size c t with
  | None => (ESP_ERR_NOT_FOUND, None, s)
  | Some i =>
      match mem_regions s !! i with
      | None => (ESP_FAIL, None, s) (* not reached *)
      | Some r =>
          let laddr := free_head r in
          (ESP_OK, Some (vaddr_of laddr c),
           set_region i (set_max_slot (u32 (max_slot_size r - aligned_size)) (set_free_head (u32 (laddr + aligned_size)) r)) s)
      end
  end.

(** A walk over a list of blocks reads live nodes only. *)
Definition live (l : list mem_block) : bool := forallb (fun b => negb (freed b)) l.

(** The blocks between the dummies. *)
Definition inner (l : list mem_block) : list mem_block := removelast (tail l).

Definition covers_paddr (paddr : Z) (b : mem_block) : bool := (paddr_start b <=? paddr) && (paddr <? paddr_end b).

(** The loop over the regions goes on after a match: the last one counts. *)
Fixpoint find_paddr (paddr : Z) (found : option mem_block) (l : list mem_region) : option (option mem_block) :=
  match l with
  | [] => Some found
  | r :: l =>
      configASSERT (live (mem_block_head r));
      find_paddr paddr (match list_find (fun b => covers_paddr paddr b = true) (inner (mem_block_head r)) with
                        | Some (_, b) => Some b
                        | None => found
                        end) l
  end.

Definition esp_mmu_paddr_find_caps (paddr : Z) (s : mmu_ctx) : option (esp_err_t * option Z) :=
  let? found := find_paddr paddr None (mem_regions s) in
  Some (match found with None => (ESP_ERR_NOT_FOUND, None) | Some b => (ESP_OK, Some (blk_caps b)) end).

(** ** Mapping *)

Definition s_is_enclosed (block_start block_end new_block_start new_block_size : Z) : bool :=
  let new_block_end := u32 (new_block_start + new_block_size) in
  (block_start <=? new_block_start) && (new_block_end <=? block_end).

Definition s_is_overlapped (block_start block_end new_block_start new_block_size : Z) : bool :=
  let new_block_end := u32 (new_block_start + new_block_size) in
  ((new_block_start <? block_start) && (block_start <? new_block_end))
  || ((new_block_start <? block_end) && (block_end <? new_block_end)).

Definition ESP_MMU_MMAP_FLAG_PADDR_SHARED : Z := 1.

Inductive paddr_state := Unmapped | Enclosed (b : mem_block) | Overlapped.

(** The loop of [esp_mmu_map] over the blocks of the region found. *)
Fixpoint check_paddr (paddr aligned_size t : Z) (allow_overlap : bool) (l : list mem_block) : paddr_state :=
  match l with
  | [] => Unmapped
  | mem_block :: l =>
      if t =? target mem_block then
        if s_is_enclosed (paddr_start mem_block) (paddr_end mem_block) paddr aligned_size then Enclosed mem_block
        else if negb allow_overlap && s_is_overlapped (paddr_start mem_block) (paddr_end mem_block) paddr aligned_size then Overlapped
        else check_paddr paddr aligned_size t allow_overlap l
      else check_paddr paddr aligned_size t allow_overlap l
  end.

(** The loop that reserves: the position and start of the first slot that is
    large enough, and the largest slot that is left. *)
Fixpoint find_slot (aligned_size : Z) (j : nat) (last_end : Z) (found : option (nat * Z)) (max_slot_len : Z) (l : list mem_block)
    : option (nat * Z) * Z :=
  match l with
  | [] => (found, max_slot_len)
  | mem_block :: l =>
      let slot_len := u32 (laddr_start mem_block - last_end) in
      let '(found, slot_len) :=
        match found with
        | None => if aligned_size <=? slot_len then (Some (j, last_end), u32 (slot_len - aligned_size)) else (None, slot_len)
        | Some _ => (found, slot_len)
        end in
      find_slot aligned_size (S j) (laddr_end mem_block) found (if max_slot_len <? slot_len then slot_len else max_slot_len) l
  end.

(** A node from [heap_caps_calloc] used as a dummy. *)
Definition dummy (laddr c : Z) : mem_block := MkBlock laddr laddr 0 0 0 c 0 0 0 false.

Definition free_node (b : mem_block) : mem_block :=
  MkBlock (laddr_start b) (laddr_end b) (vaddr_start b) (vaddr_end b) (blk_size b) (blk_caps b) (paddr_start b) (paddr_end b) (target b) true.

Definition s_do_mapping (t vaddr paddr size : Z) (tbl : table) : option table :=
  let? tbl := mmu_hal_map_region t vaddr paddr size tbl in
  let? _ := cache_ll_l1_get_bus vaddr size in
  Some tbl.

(** The outcomes of the allocations of the dummies and of the block. *)
Record map_allocs := MkAllocs { head_ok : bool; tail_ok : bool; block_ok : bool }.

(** The last part: the new block in the region found. *)
Definition map_block (paddr aligned_size t c : Z) (i : nat) (r : mem_region) (s : mmu_ctx) : option (esp_err_t * option Z * mmu_ctx) :=
  let l := mem_block_head r in
  let? first := head l in
  let '(found, max_slot_len) := find_slot aligned_size 0 (laddr_end first) None 0 l in
  let? (j, laddr) := found in
  let new_block := MkBlock laddr (u32 (laddr + aligned_size)) (vaddr_of laddr c) (vaddr_of (u32 (laddr + aligned_size)) c)
                     aligned_size c paddr (u32 (paddr + aligned_size)) t false in
  let s := set_region i (set_max_slot max_slot_len (set_blocks (take j l ++ new_block :: drop j l) r)) s in
  let? tbl := s_do_mapping t (vaddr_start new_block) paddr aligned_size (mmu_table s) in
  Some (ESP_OK, Some (vaddr_start new_block), MkCtx (mem_regions s) tbl).

(** The error, [*out_ptr] if it was written, the state. *)
Definition esp_mmu_map (paddr size t c flags : Z) (a : map_allocs) (s : mmu_ctx) : option (esp_err_t * option Z * mmu_ctx) :=
  if negb (paddr mod CONFIG_MMU_PAGE_SIZE =? 0) then Some (ESP_ERR_INVALID_ARG, None, s) else
  if negb (s_mem_caps_check c =? ESP_OK) then Some (s_mem_caps_check c, None, s) else
  let aligned_size := ALIGN_UP_BY size CONFIG_MMU_PAGE_SIZE in
  match s_find_available_region (mem_regions s) aligned_size c t with
  | None => Some (ESP_ERR_NOT_FOUND, None, s)
  | Some i =>
      let? r := mem_regions s !! i in
      let fresh := bool_decide (mem_block_head r = []) in
      if fresh && negb (head_ok a) then Some (ESP_ERR_NO_MEM, None, s) else
      let head := dummy (free_head r) c in
      (* the error path frees the dummies, which stay in the list *)
      if fresh && negb (tail_ok a) then Some (ESP_ERR_NO_MEM, None, set_region i (set_blocks [free_node head] r) s) else
      let r := if fresh then set_blocks [head; dummy (end_ r) c] r else r in
      let failed := set_region i (if fresh then set_blocks (free_node <$> mem_block_head r) r else r) s in
      configASSERT (live (mem_block_head r));
      let allow_overlap := flag flags ESP_MMU_MMAP_FLAG_PADDR_SHARED in
      match check_paddr paddr aligned_size t allow_overlap (mem_block_head r) with
      | Enclosed b => Some (ESP_ERR_INVALID_STATE, Some (vaddr_start b + u32 (paddr - paddr_start b)), failed)
      | Overlapped => Some (ESP_ERR_INVALID_ARG, None, failed)
      | Unmapped =>
          if negb (block_ok a) then Some (ESP_ERR_NO_MEM, None, failed)
          else map_block paddr aligned_size t c i r s
      end
  end.

(** ** Unmapping *)

(** The last region that the address is in. *)
Fixpoint region_of (ptr_laddr : Z) (i : nat) (found : option nat) (l : list mem_region) : option nat :=
  match l with
  | [] => found
  | r :: l => region_of ptr_laddr (S i) (if (free_head r <=? ptr_laddr) && (ptr_laddr <? end_ r) then Some i else found) l
  end.

Definition esp_mmu_unmap (ptr : Z) (s : mmu_ctx) : option (esp_err_t * mmu_ctx) :=
  if ptr =? 0 then Some (ESP_ERR_INVALID_ARG, s) else
  let ptr_laddr := mmu_ll_vaddr_to_laddr ptr in
  match region_of ptr_laddr 0 None (mem_regions s) with
  | None => Some (ESP_ERR_NOT_FOUND, s)
  | Some i =>
      let? r := mem_regions s !! i in
      let l := mem_block_head r in
      configASSERT (live l);
      match list_find (fun b => laddr_start b = ptr_laddr) (inner l) with
      | None => Some (ESP_ERR_NOT_FOUND, s)
      | Some (k, found_block) =>
          (* the position in the list, after the first node *)
          let j := S k in
          let? next := l !! S j in
          let? prev := l !! k in
          let slot_len := u32 (laddr_start next - laddr_end prev) in
          let m := if max_slot_size r <? slot_len then slot_len else max_slot_size r in
          let? tbl := mmu_hal_unmap_region (vaddr_start found_block) (blk_size found_block) (mmu_table s) in
          Some (ESP_OK, MkCtx (<[i := set_max_slot m (set_blocks (delete j l) r)]> (mem_regions s)) tbl)
      end
  end.

(** ** Addresses *)

Definition esp_mmu_vaddr_to_paddr (vaddr : Z) (s : mmu_ctx) : option (esp_err_t * option (Z * Z)) :=
  if vaddr =? 0 then Some (ESP_ERR_INVALID_ARG, None) else
  if negb (mmu_ll_check_valid_ext_vaddr_region vaddr 1 ANY_VADDR) then Some (ESP_ERR_INVALID_ARG, None) else
  let? r := mmu_hal_vaddr_to_paddr vaddr (mmu_table s) in
  Some (match r with None => (ESP_ERR_NOT_FOUND, None) | Some p => (ESP_OK, Some p) end).

Definition esp_mmu_paddr_to_vaddr (paddr t type : Z) (s : mmu_ctx) : option (esp_err_t * option Z) :=
  let? r := mmu_hal_paddr_to_vaddr paddr t type (mmu_table s) in
  Some (match r with None => (ESP_ERR_NOT_FOUND, None) | Some v => (ESP_OK, Some v) end).
