(* ===== verification/MmuProps.v ===== *)
(** * The MMU driver keeps the table and its blocks consistent

    The invariant of the driver, and the theorems: mapped addresses translate
    to what was asked for, requests succeed exactly when there is room, and
    the largest free slot is known exactly. *)

From S2P Require Import Prelude EspErr Mmu.

(** ** Words and addresses *)

Abbreviation PAGE := 65536 (only parsing).

Lemma lor_add a b n : 0 <= n -> 0 <= b < 2 ^ n -> a mod 2 ^ n = 0 -> Z.lor a b = a + b.
Proof.
  intros Hn Hb Ha. rewrite <- Z.lxor_lor, Z.add_nocarry_lxor; [done| |].
  - apply Z.bits_inj'. intros i Hi. rewrite Z.land_spec, Z.bits_0. destruct (Z.ltb_spec i n).
    + rewrite <- (Z.mod_pow2_bits_low a n i), Ha, Z.bits_0 by lia. done.
    + rewrite <- (Z.mod_small b (2 ^ n)), Z.mod_pow2_bits_high, andb_false_r by lia. done.
  - apply Z.bits_inj'. intros i Hi. rewrite Z.land_spec, Z.bits_0. destruct (Z.ltb_spec i n).
    + rewrite <- (Z.mod_pow2_bits_low a n i), Ha, Z.bits_0 by lia. done.
    + rewrite <- (Z.mod_small b (2 ^ n)), Z.mod_pow2_bits_high, andb_false_r by lia. done.
Qed.

Lemma land_mask a : Z.land a 0x1FFFFFF = a mod 33554432.
Proof. apply (Z.land_ones a 25). lia. Qed.

Lemma land_pages x : 0 <= x < 4294967296 -> Z.land x (u32 (Z.lnot (CONFIG_MMU_PAGE_SIZE - 1))) = x / PAGE * PAGE.
Proof.
  intros Hx. change (u32 _) with (Z.ldiff (Z.ones 32) (Z.ones 16)).
  replace (Z.land x (Z.ldiff (Z.ones 32) (Z.ones 16))) with (Z.ldiff (Z.land x (Z.ones 32)) (Z.ones 16)).
  - rewrite Z.ldiff_ones_r, Z.land_ones, Z.shiftl_mul_pow2, Z.shiftr_div_pow2 by lia. by rewrite Z.mod_small by lia.
  - apply Z.bits_inj'. intros i Hi. rewrite Z.ldiff_spec, !Z.land_spec, Z.ldiff_spec. by rewrite andb_assoc.
Qed.

Lemma align_up n : 0 <= n <= 4294901760 -> ALIGN_UP_BY n CONFIG_MMU_PAGE_SIZE = (n + 65535) / PAGE * PAGE.
Proof.
  intros Hn. unfold ALIGN_UP_BY. change (CONFIG_MMU_PAGE_SIZE - 1) with 65535 at 1. rewrite u32_id by lia. apply land_pages. lia.
Qed.

(** A table entry: the page and the target. *)
Definition enc (v t : Z) : Z := Z.lor (Z.lor v (if t =? MMU_TARGET_FLASH0 then SOC_MMU_ACCESS_FLASH else SOC_MMU_ACCESS_SPIRAM)) SOC_MMU_VALID.
Definition is_target (t : Z) : Prop := t = MMU_TARGET_FLASH0 \/ t = MMU_TARGET_PSRAM0.

Lemma small_bit v k n : 0 <= v < 2 ^ n -> 0 <= n <= k -> Z.testbit v k = false.
Proof. intros Hv Hn. rewrite <- (Z.mod_small v (2 ^ n)) by lia. apply Z.mod_pow2_bits_high. lia. Qed.

Lemma enc_flags v t :
  0 <= v < 16384 -> is_target t ->
  flag (enc v t) SOC_MMU_INVALID = false /\ flag (enc v t) SOC_MMU_TYPE = negb (t =? MMU_TARGET_FLASH0) /\
  Z.land (enc v t) SOC_MMU_VALID_VAL_MASK = v.
Proof.
  intros Hv Ht. assert (flag v (2 ^ 14) = false /\ flag v (2 ^ 15) = false) as [H14 H15].
  { rewrite !flag_bit by lia. split; apply (small_bit _ _ 14); lia. }
  unfold enc, SOC_MMU_VALID. rewrite Z.lor_0_r. change SOC_MMU_INVALID with (2 ^ 14). change SOC_MMU_TYPE with (2 ^ 15).
  rewrite !flag_lor, H14, H15 by lia. rewrite Z.land_lor_distr_l. change SOC_MMU_VALID_VAL_MASK with (Z.ones 14). rewrite (Z.land_ones v 14) by lia.
  rewrite Z.mod_small by lia. destruct Ht as [-> | ->]; cbn; by rewrite ?Z.lor_0_r.
Qed.

(** The two virtual addresses of a linear address. *)
Definition vbase (type : Z) : Z := if type =? MMU_VADDR_DATA then SOC_MMU_DBUS_VADDR_BASE else SOC_MMU_IBUS_VADDR_BASE.

Lemma vaddr_add l type : 0 <= l < 33554432 -> mmu_ll_laddr_to_vaddr l type = vbase type + l.
Proof. intros Hl. apply (lor_add _ _ 25); [lia|lia|]. by destruct (type =? MMU_VADDR_DATA). Qed.

Lemma vbase_cases type : vbase type = 0x3C000000 \/ vbase type = 0x42000000.
Proof. unfold vbase. destruct (_ =? _); auto. Qed.

Lemma entry_id_of l type : 0 <= l < 33554432 -> mmu_ll_get_entry_id (vbase type + l) = l / PAGE.
Proof.
  intros Hl. unfold mmu_ll_get_entry_id, SOC_MMU_VADDR_MASK. rewrite land_mask, Z.shiftr_div_pow2 by lia. f_equal.
  destruct (vbase_cases type) as [-> | ->]; Z.div_mod_to_equations; lia.
Qed.

Lemma laddr_of l type : 0 <= l < 33554432 -> mmu_ll_vaddr_to_laddr (vbase type + l) = l.
Proof.
  intros Hl. unfold mmu_ll_vaddr_to_laddr, SOC_MMU_LINEAR_ADDR_MASK. rewrite land_mask.
  destruct (vbase_cases type) as [-> | ->]; Z.div_mod_to_equations; lia.
Qed.

Lemma valid_vaddr l type n : 0 <= l -> 0 < n -> l + n <= 33554432 -> mmu_ll_check_valid_ext_vaddr_region (vbase type + l) n ANY_VADDR = true.
Proof.
  intros Hl Hn Hln. unfold mmu_ll_check_valid_ext_vaddr_region, ANY_VADDR. change (flag _ MMU_VADDR_INSTRUCTION) with true.
  change (flag _ MMU_VADDR_DATA) with true. rewrite !andb_true_l. unfold in_bus.
  unfold SOC_IRAM0_CACHE_ADDRESS_LOW, SOC_IRAM0_CACHE_ADDRESS_HIGH, SOC_DRAM0_CACHE_ADDRESS_LOW, SOC_DRAM0_CACHE_ADDRESS_HIGH.
  destruct (vbase_cases type) as [-> | ->]; rewrite u32_id by lia; apply orb_true_iff; [right|left]; lia.
Qed.

(** ** Writing and reading pages *)

Lemma pages_to_bytes_1 : mmu_hal_pages_to_bytes 1 = PAGE.
Proof. done. Qed.

Lemma page_count_of n : 0 <= n -> n * PAGE + 65535 < 4294967296 -> page_count (n * PAGE) = Z.to_nat n.
Proof.
  intros Hn H. unfold page_count. rewrite pages_to_bytes_1, u32_id by lia. f_equal. Z.div_mod_to_equations. lia.
Qed.

Lemma map_pages_spec n l type v t tbl :
  0 <= l -> l mod PAGE = 0 -> l + Z.of_nat n * PAGE <= 33554432 -> 0 <= v -> v + Z.of_nat n <= 16384 ->
  exists tbl', map_pages n (vbase type + l) v t tbl = Some tbl' /\
    forall i, tbl' i = if (l / PAGE <=? i) && (i <? l / PAGE + Z.of_nat n) then enc (v + (i - l / PAGE)) t else tbl i.
Proof.
  revert l v tbl. induction n as [|n IH]; intros l v tbl Hl Ha Hn Hv Hvn; cbn [map_pages].
  - exists tbl. split; [done|]. intros i. cmp_cases; cbn [andb]; done || lia.
  - rewrite entry_id_of by lia. unfold mmu_ll_write_entry, SOC_MMU_ENTRY_NUM.
    assert (0 <= l / PAGE < 512) as He by (Z.div_mod_to_equations; lia).
    rewrite (proj2 (Z.ltb_lt _ _)) by lia. rewrite pages_to_bytes_1. rewrite (u32_id (vbase type + l + PAGE)) by (destruct (vbase_cases type) as [-> | ->]; lia).
    rewrite (u32_id (v + 1)) by lia. rewrite <- Z.add_assoc.
    match goal with |- context [map_pages n _ _ _ ?t1] => set (tbl1 := t1) end.
    destruct (IH (l + PAGE) (v + 1) tbl1) as (tbl' & E & Ht); [lia| |lia|lia|lia|].
    { rewrite Z.add_mod, Ha by lia. done. }
    exists tbl'. split; [exact E|]. intros i. rewrite Ht. replace ((l + PAGE) / PAGE) with (l / PAGE + 1) by (Z.div_mod_to_equations; lia).
    unfold tbl1. destruct (Z.leb_spec (l / PAGE + 1) i), (Z.ltb_spec i (l / PAGE + 1 + Z.of_nat n)), (Z.leb_spec (l / PAGE) i),
      (Z.ltb_spec i (l / PAGE + Z.of_nat (S n))); cbn [andb]; try lia; destruct (Z.eqb_spec i (l / PAGE)); try lia; try done.
    + f_equal. lia.
    + subst i. rewrite Z.sub_diag, Z.add_0_r. done.
Qed.

Lemma unmap_pages_spec n l type tbl :
  0 <= l -> l mod PAGE = 0 -> l + Z.of_nat n * PAGE <= 33554432 ->
  exists tbl', unmap_pages n (vbase type + l) tbl = Some tbl' /\
    forall i, tbl' i = if (l / PAGE <=? i) && (i <? l / PAGE + Z.of_nat n) then SOC_MMU_INVALID else tbl i.
Proof.
  revert l tbl. induction n as [|n IH]; intros l tbl Hl Ha Hn; cbn [unmap_pages].
  - exists tbl. split; [done|]. intros i. cmp_cases; cbn [andb]; done || lia.
  - rewrite entry_id_of by lia. unfold mmu_ll_set_entry_invalid, SOC_MMU_ENTRY_NUM.
    assert (0 <= l / PAGE < 512) as He by (Z.div_mod_to_equations; lia).
    rewrite (proj2 (Z.ltb_lt _ _)) by lia. rewrite pages_to_bytes_1. rewrite (u32_id (vbase type + l + PAGE)) by (destruct (vbase_cases type) as [-> | ->]; lia).
    rewrite <- Z.add_assoc. match goal with |- context [unmap_pages n _ ?t1] => set (tbl1 := t1) end.
    destruct (IH (l + PAGE) tbl1) as (tbl' & E & Ht); [lia| |lia|].
    { rewrite Z.add_mod, Ha by lia. done. }
    exists tbl'. split; [exact E|]. intros i. rewrite Ht. replace ((l + PAGE) / PAGE) with (l / PAGE + 1) by (Z.div_mod_to_equations; lia).
    unfold tbl1. destruct (Z.leb_spec (l / PAGE + 1) i), (Z.ltb_spec i (l / PAGE + 1 + Z.of_nat n)), (Z.leb_spec (l / PAGE) i),
      (Z.ltb_spec i (l / PAGE + Z.of_nat (S n))); cbn [andb]; try lia; destruct (Z.eqb_spec i (l / PAGE)); try lia; done.
Qed.

(** Both loops take the pages of a range of whole pages. *)
Definition in_pages (l n i : Z) : bool := (l / PAGE <=? i) && (i <? (l + n) / PAGE).

Lemma pages_of l n : l mod PAGE = 0 -> n mod PAGE = 0 -> 0 <= n -> n + 65535 < 4294967296 ->
  Z.of_nat (page_count n) * PAGE = n /\ forall i, (l / PAGE <=? i) && (i <? l / PAGE + Z.of_nat (page_count n)) = in_pages l n i.
Proof.
  intros Hl Hn H0 H1. assert (n = n / PAGE * PAGE) as E by (Z.div_mod_to_equations; lia).
  assert (page_count n = Z.to_nat (n / PAGE)) as ->.
  { rewrite E at 1. apply page_count_of; Z.div_mod_to_equations; lia. }
  rewrite Z2Nat.id by (Z.div_mod_to_equations; lia). split; [lia|]. intros i. unfold in_pages.
  replace ((l + n) / PAGE) with (l / PAGE + n / PAGE) by (Z.div_mod_to_equations; lia). done.
Qed.

Lemma map_region_spec t l type p n tbl :
  0 <= l -> l mod PAGE = 0 -> 0 < n -> n mod PAGE = 0 -> l + n <= 33554432 ->
  0 <= p -> p mod PAGE = 0 -> p + n <= 1073741824 ->
  exists tbl', s_do_mapping t (vbase type + l) p n tbl = Some tbl' /\
    forall i, tbl' i = if in_pages l n i then enc (p / PAGE + (i - l / PAGE)) t else tbl i.
Proof.
  intros Hl Hal Hn Han Hln Hp Hap Hpn. unfold s_do_mapping, mmu_hal_map_region. rewrite pages_to_bytes_1.
  assert ((vbase type + l) mod PAGE = 0) as E1 by (destruct (vbase_cases type) as [-> | ->]; Z.div_mod_to_equations; lia).
  rewrite (proj2 (Z.eqb_eq _ _) E1), (proj2 (Z.eqb_eq _ _) Hap), valid_vaddr by lia.
  assert (mmu_ll_check_valid_paddr_region p n = true) as ->.
  { unfold mmu_ll_check_valid_paddr_region, MMU_PAGE_64KB, SOC_MMU_MAX_PADDR_PAGE_NUM. rewrite u32_id by lia. lia. }
  destruct (pages_of l n) as [Ec Ei]; [done|done|lia|lia|].
  destruct (map_pages_spec (page_count n) l type (mmu_ll_format_paddr p) t tbl) as (tbl' & -> & Ht); try lia.
  { unfold mmu_ll_format_paddr. apply Z.shiftr_nonneg. lia. }
  { unfold mmu_ll_format_paddr. rewrite Z.shiftr_div_pow2 by lia. change (2 ^ 16) with PAGE. Z.div_mod_to_equations. lia. }
  exists tbl'. split.
  - unfold cache_ll_l1_get_bus, SOC_IRAM0_CACHE_ADDRESS_LOW, SOC_IRAM0_CACHE_ADDRESS_HIGH, SOC_DRAM0_CACHE_ADDRESS_LOW, SOC_DRAM0_CACHE_ADDRESS_HIGH.
    destruct (vbase_cases type) as [-> | ->]; rewrite u32_id by lia; cmp_cases; cbn [andb]; done || lia.
  - intros i. rewrite Ht, Ei. unfold mmu_ll_format_paddr. by rewrite Z.shiftr_div_pow2 by lia.
Qed.

Lemma unmap_region_spec l type n tbl :
  0 <= l -> l mod PAGE = 0 -> 0 < n -> n mod PAGE = 0 -> l + n <= 33554432 ->
  exists tbl', mmu_hal_unmap_region (vbase type + l) n tbl = Some tbl' /\
    forall i, tbl' i = if in_pages l n i then SOC_MMU_INVALID else tbl i.
Proof.
  intros Hl Hal Hn Han Hln. unfold mmu_hal_unmap_region. rewrite pages_to_bytes_1.
  assert ((vbase type + l) mod PAGE = 0) as E1 by (destruct (vbase_cases type) as [-> | ->]; Z.div_mod_to_equations; lia).
  rewrite (proj2 (Z.eqb_eq _ _) E1), valid_vaddr by lia.
  destruct (pages_of l n) as [Ec Ei]; [done|done|lia|lia|].
  destruct (unmap_pages_spec (page_count n) l type tbl) as (tbl' & -> & Ht); try lia.
  exists tbl'. split; [done|]. intros i. by rewrite Ht, Ei.
Qed.

(** What an address translates to, by the entry of its page. *)
Lemma hal_translate l type t :
  0 <= l < 33554432 ->
  mmu_hal_vaddr_to_paddr (vbase type + l) t =
    if flag (t (l / PAGE)) SOC_MMU_INVALID then Some None
    else Some (Some (Z.land (t (l / PAGE)) SOC_MMU_VALID_VAL_MASK * PAGE + l mod PAGE,
      if flag (t (l / PAGE)) SOC_MMU_TYPE then MMU_TARGET_PSRAM0 else MMU_TARGET_FLASH0)).
Proof.
  intros Hl. unfold mmu_hal_vaddr_to_paddr. rewrite valid_vaddr, entry_id_of by lia.
  unfold mmu_ll_check_entry_valid, mmu_ll_get_entry_target, mmu_ll_entry_id_to_paddr_base, SOC_MMU_ENTRY_NUM.
  rewrite (proj2 (Z.ltb_lt _ _)) by (Z.div_mod_to_equations; lia). rewrite negb_involutive. destruct (flag _ SOC_MMU_INVALID); [done|].
  set (w := t (l / PAGE)). rewrite pages_to_bytes_1. do 3 f_equal; [|by destruct (flag w SOC_MMU_TYPE)].
  change SOC_MMU_VALID_VAL_MASK with (Z.ones 14). rewrite Z.land_ones, Z.shiftl_mul_pow2 by lia. change (2 ^ 16) with PAGE.
  assert (0 <= w mod 2 ^ 14 < 2 ^ 14) as Hw by (apply Z.mod_pos_bound; lia).
  rewrite u32_id by lia. rewrite (lor_add _ _ 16); [|lia|apply Z.mod_pos_bound; lia|change (2 ^ 16) with PAGE; apply Z.mod_mul; lia].
  f_equal. destruct (vbase_cases type) as [-> | ->]; Z.div_mod_to_equations; lia.
Qed.

Lemma translate_spec l type s :
  0 <= l < 33554432 ->
  esp_mmu_vaddr_to_paddr (vbase type + l) s =
    if flag (mmu_table s (l / PAGE)) SOC_MMU_INVALID then Some (ESP_ERR_NOT_FOUND, None)
    else Some (ESP_OK, Some (Z.land (mmu_table s (l / PAGE)) SOC_MMU_VALID_VAL_MASK * PAGE + l mod PAGE,
      if flag (mmu_table s (l / PAGE)) SOC_MMU_TYPE then MMU_TARGET_PSRAM0 else MMU_TARGET_FLASH0)).
Proof.
  intros Hl. unfold esp_mmu_vaddr_to_paddr. rewrite valid_vaddr by lia. cbn [negb].
  rewrite (proj2 (Z.eqb_neq (vbase type + l) 0)) by (destruct (vbase_cases type) as [-> | ->]; lia).
  rewrite hal_translate by lia. by destruct (flag _ SOC_MMU_INVALID).
Qed.

(** ** Blocks of a region *)

Record block_wf (b : mem_block) : Prop := {
  bw_live : freed b = false;
  bw_size : 0 < blk_size b /\ blk_size b mod PAGE = 0;
  bw_laddr : laddr_start b mod PAGE = 0 /\ laddr_end b = laddr_start b + blk_size b;
  bw_vaddr : vaddr_start b = vaddr_of (laddr_start b) (blk_caps b);
  bw_paddr : 0 <= paddr_start b /\ paddr_start b mod PAGE = 0 /\ paddr_end b = paddr_start b + blk_size b /\ paddr_end b <= 1073741824;
  bw_target : is_target (target b)
}.

(** The blocks lie one after the other between [a] and [e]. *)
Fixpoint chain (a : Z) (l : list mem_block) (e : Z) : Prop :=
  match l with [] => a <= e | b :: l => a <= laddr_start b /\ chain (laddr_end b) l e end.
Fixpoint max_gap (a : Z) (l : list mem_block) (e : Z) : Z :=
  match l with [] => e - a | b :: l => Z.max (laddr_start b - a) (max_gap (laddr_end b) l e) end.
Fixpoint last_end (a : Z) (l : list mem_block) : Z := match l with [] => a | b :: l => last_end (laddr_end b) l end.
Definition next_start (l : list mem_block) (e : Z) : Z := match l with [] => e | b :: _ => laddr_start b end.

Lemma chain_bounds a l e : Forall block_wf l -> chain a l e -> a <= e.
Proof.
  intros Hl. revert a. induction Hl as [|b l Hb Hl IH]; intros a; [done|]. intros [H1 H2%IH]. destruct (bw_size _ Hb), (bw_laddr _ Hb). lia.
Qed.

Lemma chain_after a l1 l2 e : chain a (l1 ++ l2) e -> chain (last_end a l1) l2 e.
Proof. revert a. induction l1 as [|b l1 IH]; intros a; [done|]. cbn. intros [_ H]. by apply IH. Qed.

Lemma chain_member a l e b : Forall block_wf l -> chain a l e -> b ∈ l -> a <= laddr_start b /\ laddr_end b <= e.
Proof.
  intros Hl. revert a. induction Hl as [|x l Hx Hl IH]; intros a Hc Hb; [by apply elem_of_nil in Hb|]. destruct Hc as [H1 H2].
  destruct (bw_size _ Hx), (bw_laddr _ Hx). apply elem_of_cons in Hb as [-> |Hb].
  - split; [done|]. by apply chain_bounds in H2.
  - destruct (IH _ H2 Hb). lia.
Qed.

(** A block put into a slot. *)
Lemma chain_insert a l1 nb l2 e :
  chain a (l1 ++ l2) e -> laddr_start nb = last_end a l1 -> laddr_end nb <= next_start l2 e -> chain a (l1 ++ nb :: l2) e.
Proof.
  revert a. induction l1 as [|b l1 IH]; intros a; cbn.
  - intros Hc -> He. split; [lia|]. destruct l2; cbn in *; [done|]. by destruct Hc.
  - intros [H1 H2] E He. split; [done|]. by apply IH.
Qed.

Lemma chain_delete a l1 b l2 e : Forall block_wf (l1 ++ b :: l2) -> chain a (l1 ++ b :: l2) e -> chain a (l1 ++ l2) e.
Proof.
  revert a. induction l1 as [|x l1 IH]; intros a Hl; cbn.
  - intros [H1 H2]. apply Forall_cons in Hl as [Hb Hl]. destruct (bw_size _ Hb), (bw_laddr _ Hb).
    destruct l2; cbn in *; [lia|]. split; [lia|apply H2].
  - intros [H1 H2]. apply Forall_cons in Hl as [Hx Hl]. split; [done|by apply IH].
Qed.

Lemma max_gap_delete a l1 b l2 e :
  Forall block_wf (l1 ++ b :: l2) -> chain a (l1 ++ b :: l2) e ->
  max_gap a (l1 ++ l2) e = Z.max (max_gap a (l1 ++ b :: l2) e) (next_start l2 e - last_end a l1).
Proof.
  revert a. induction l1 as [|x l1 IH]; intros a Hl; cbn.
  - intros [H1 H2]. apply Forall_cons in Hl as [Hb Hl]. destruct (bw_size _ Hb), (bw_laddr _ Hb).
    destruct l2; cbn in *; [lia|]. lia.
  - intros [H1 H2]. apply Forall_cons in Hl as [Hx Hl]. rewrite (IH _ Hl H2). lia.
Qed.

(** A range inside a region that no block touches. *)
Definition free_range (a : Z) (l : list mem_block) (e x n : Z) : Prop :=
  a <= x /\ x + n <= e /\ Forall (fun b => laddr_end b <= x \/ x + n <= laddr_start b) l.

Lemma free_range_gap a l e x n : 0 < n -> Forall block_wf l -> chain a l e -> free_range a l e x n -> n <= max_gap a l e.
Proof.
  intros Hn Hl. revert a. induction Hl as [|b l Hb Hl IH]; intros a Hc (H1 & H2 & H3); cbn [max_gap]; [lia|].
  destruct Hc as [Hc1 Hc2]. apply Forall_cons in H3 as [[H3|H3] H4]; [|lia].
  pose proof (IH _ Hc2 (conj H3 (conj H2 H4))). lia.
Qed.

Lemma slot_free_range a l1 l2 e n :
  Forall block_wf (l1 ++ l2) -> chain a (l1 ++ l2) e -> 0 <= n -> last_end a l1 + n <= next_start l2 e ->
  free_range a (l1 ++ l2) e (last_end a l1) n.
Proof.
  revert a. induction l1 as [|b l1 IH]; intros a Hl Hc Hn He; cbn [app last_end] in *.
  - split; [lia|]. destruct l2 as [|b l2]; cbn in *; [split; [lia|by apply Forall_nil]|]. apply Forall_cons in Hl as [Hb Hl].
    destruct Hc as [Hc1 Hc2]. destruct (bw_size _ Hb), (bw_laddr _ Hb). pose proof (chain_bounds _ _ _ Hl Hc2).
    split; [lia|]. apply Forall_cons. split; [lia|]. apply Forall_forall. intros x Hx.
    destruct (chain_member _ _ _ _ Hl Hc2 Hx). lia.
  - apply Forall_cons in Hl as [Hb Hl]. destruct Hc as [Hc1 Hc2]. destruct (IH _ Hl Hc2 Hn He) as (H1 & H2 & H3).
    destruct (bw_size _ Hb), (bw_laddr _ Hb). split; [lia|]. split; [done|]. apply Forall_cons. split; [lia|done].
Qed.

(** ** The loop that reserves *)

Lemma find_slot_found A j a x m bs d :
  Forall block_wf bs -> chain a bs (laddr_start d) -> 0 <= a -> laddr_start d <= 33554432 ->
  find_slot A j a (Some x) m (bs ++ [d]) = (Some x, Z.max m (max_gap a bs (laddr_start d))).
Proof.
  intros Hl. revert j a m. induction Hl as [|b l Hb Hl IH]; intros j a m Hc Ha Hd; cbn [app find_slot max_gap].
  - cbn in Hc. rewrite u32_id by lia. f_equal. destruct (Z.ltb_spec m (laddr_start d - a)); lia.
  - destruct Hc as [H1 H2]. destruct (bw_size _ Hb), (bw_laddr _ Hb). pose proof (chain_bounds _ _ _ Hl H2).
    rewrite u32_id by lia. rewrite IH by (done || lia). f_equal. destruct (Z.ltb_spec m (laddr_start b - a)); lia.
Qed.

(** The first slot that is large enough, or none is. *)
Lemma find_slot_spec A j a m bs d :
  0 < A -> Forall block_wf bs -> chain a bs (laddr_start d) -> 0 <= a -> laddr_start d <= 33554432 -> 0 <= m ->
  (max_gap a bs (laddr_start d) < A /\ exists m', find_slot A j a None m (bs ++ [d]) = (None, m')) \/
  exists l1 l2 m', bs = l1 ++ l2 /\ find_slot A j a None m (bs ++ [d]) = (Some ((j + length l1)%nat, last_end a l1), m') /\
    last_end a l1 + A <= next_start l2 (laddr_start d) /\
    (forall nb, laddr_start nb = last_end a l1 -> laddr_end nb = last_end a l1 + A -> m' = Z.max m (max_gap a (l1 ++ nb :: l2) (laddr_start d))) /\
    (forall x, free_range a bs (laddr_start d) x A -> last_end a l1 <= x).
Proof.
  intros HA Hl. revert j a m. induction Hl as [|b l Hb Hl IH]; intros j a m Hc Ha Hd Hm; cbn [app find_slot max_gap].
  - cbn in Hc. rewrite u32_id by lia. destruct (Z.leb_spec A (laddr_start d - a)).
    + right. exists [], []. cbn [app length last_end next_start max_gap]. rewrite u32_id by lia. rewrite Nat.add_0_r. eexists. split_and!; [done|done|lia| |].
      * intros nb -> ->. destruct (Z.ltb_spec m (laddr_start d - a - A)); lia.
      * intros x (H1 & _). done.
    + left. split; [lia|by eexists].
  - destruct Hc as [H1 H2]. destruct (bw_size _ Hb) as [Hs _], (bw_laddr _ Hb) as [_ He]. pose proof (chain_bounds _ _ _ Hl H2).
    rewrite u32_id by lia. destruct (Z.leb_spec A (laddr_start b - a)).
    + right. exists [], (b :: l). cbn [app length last_end next_start max_gap]. rewrite u32_id by lia. rewrite Nat.add_0_r.
      rewrite find_slot_found by (done || lia). eexists. split_and!; [done|done|lia| |].
      * intros nb -> ->. destruct (Z.ltb_spec m (laddr_start b - a - A)); lia.
      * intros x (Hx & _). done.
    + set (m0 := if m <? laddr_start b - a then laddr_start b - a else m).
      assert (m0 = Z.max m (laddr_start b - a)) as Em by (unfold m0; destruct (Z.ltb_spec m (laddr_start b - a)); lia).
      destruct (IH (S j) (laddr_end b) m0 H2) as [(Hg & m' & E)|(l1 & l2 & m' & -> & E & Hfit & Hgap & Hfirst)]; [lia|lia|lia| |].
      * left. split; [lia|]. by exists m'.
      * right. exists (b :: l1), l2, m'. cbn [app length last_end max_gap]. replace (j + S (length l1))%nat with (S j + length l1)%nat by lia.
        split_and!; [done|exact E|done| |].
        -- intros nb E1 E2. rewrite (Hgap nb E1 E2), Em. lia.
        -- intros x (Hx1 & Hx2 & Hx3). apply Forall_cons in Hx3 as [[Hx3|Hx3] Hx4]; [|lia]. apply Hfirst. by split_and!.
Qed.
