(* ===== verification/MmuSpec.v ===== *)
(** * The invariant of the MMU driver and its operations

    Every mapped block is in the table, every other free page is invalid, the
    blocks of a region do not overlap, and [max_slot_size] is exact. *)

From S2P Require Import Prelude EspErr Mmu MmuProps.

(** ** The invariant *)

Definition blocks (r : mem_region) : list mem_block := inner (mem_block_head r).

Record region_wf (r : mem_region) : Prop := {
  rw_bounds : 0 <= free_head r <= end_ r /\ end_ r <= 33554432;
  rw_aligned : free_head r mod PAGE = 0 /\ end_ r mod PAGE = 0;
  rw_list : mem_block_head r = [] \/ exists c, mem_block_head r = dummy (free_head r) c :: blocks r ++ [dummy (end_ r) c];
  rw_blocks : Forall block_wf (blocks r);
  rw_chain : chain (free_head r) (blocks r) (end_ r);
  rw_slot : max_slot_size r = max_gap (free_head r) (blocks r) (end_ r)
}.

(** The pages of a block and the entry of a page. *)
Definition page_of (b : mem_block) (i : Z) : Prop := in_pages (laddr_start b) (blk_size b) i = true.
Definition entry (b : mem_block) (i : Z) : Z := enc (paddr_start b / PAGE + (i - laddr_start b / PAGE)) (target b).

Record inv (s : mmu_ctx) : Prop := {
  inv_regions : Forall region_wf (mem_regions s);
  inv_apart : forall i j ri rj, mem_regions s !! i = Some ri -> mem_regions s !! j = Some rj -> i <> j ->
    end_ ri <= free_head rj \/ end_ rj <= free_head ri;
  inv_table : forall r i, r ∈ mem_regions s -> free_head r <= i * PAGE < end_ r ->
    (forall b, b ∈ blocks r -> page_of b i -> mmu_table s i = entry b i) /\
    ((forall b, b ∈ blocks r -> ~ page_of b i) -> mmu_table s i = SOC_MMU_INVALID)
}.

Lemma inner_dummies d bs d' : inner (d :: bs ++ [d']) = bs.
Proof. unfold inner. cbn [tail]. apply removelast_last. Qed.

Lemma live_dummies d bs d' : freed d = false -> freed d' = false -> Forall block_wf bs -> live (d :: bs ++ [d']) = true.
Proof.
  intros Hd Hd' Hbs. unfold live. cbn [forallb]. rewrite Hd, forallb_app. cbn [forallb]. rewrite Hd'. cbn [negb andb]. rewrite andb_true_r.
  induction Hbs as [|b l Hb _ IH]; [done|]. cbn [forallb]. by rewrite (bw_live _ Hb), IH.
Qed.

Lemma region_live r : region_wf r -> live (mem_block_head r) = true.
Proof.
  intros H. destruct (rw_list _ H) as [-> |[c ->]]; [done|]. by apply live_dummies, (rw_blocks _ H).
Qed.

Lemma page_member r b i : region_wf r -> b ∈ blocks r -> page_of b i -> free_head r <= i * PAGE < end_ r.
Proof.
  intros Hr Hb Hi. destruct (chain_member _ _ _ _ (rw_blocks _ Hr) (rw_chain _ Hr) Hb).
  pose proof (proj1 (Forall_forall _ _) (rw_blocks _ Hr) b Hb) as Hw. destruct (bw_size _ Hw), (bw_laddr _ Hw).
  unfold page_of, in_pages in Hi. Z.div_mod_to_equations. lia.
Qed.

Lemma page_of_addr b x : block_wf b -> laddr_start b <= x < laddr_end b -> page_of b (x / PAGE).
Proof.
  intros Hw Hx. destruct (bw_size _ Hw), (bw_laddr _ Hw). unfold page_of, in_pages. Z.div_mod_to_equations. lia.
Qed.

(** A page is in one block. *)
Lemma page_unique r b b' k : region_wf r -> b ∈ blocks r -> b' ∈ blocks r -> page_of b k -> page_of b' k -> b = b'.
Proof.
  intros Hw. pose proof (rw_chain _ Hw) as Hc. pose proof (rw_blocks _ Hw) as Hl. clear Hw. revert Hc. generalize (free_head r).
  assert (forall a l e x y, Forall block_wf (x :: l) -> chain a (x :: l) e -> y ∈ l -> page_of x k -> page_of y k -> False) as Hfirst.
  { intros a l e x y Hf [Hc1 Hc2] Hy Hx Hyk. apply Forall_cons in Hf as [Hfx Hf]. destruct (chain_member _ _ _ _ Hf Hc2 Hy) as [Hy1 _].
    destruct (bw_size _ Hfx), (bw_laddr _ Hfx). pose proof (proj1 (Forall_forall _ _) Hf y Hy) as Hfy. destruct (bw_laddr _ Hfy).
    unfold page_of, in_pages in *. Z.div_mod_to_equations. lia. }
  induction Hl as [|x l Hx Hl IH]; intros a Hc Hb Hb' H1 H2; [by apply elem_of_nil in Hb|].
  apply elem_of_cons in Hb as [-> |Hb]; apply elem_of_cons in Hb' as [-> |Hb'].
  - done.
  - exfalso. by apply (Hfirst a l (end_ r) x b'); [apply Forall_cons| | | |].
  - exfalso. by apply (Hfirst a l (end_ r) x b); [apply Forall_cons| | | |].
  - destruct Hc as [_ Hc]. by apply (IH _ Hc).
Qed.

(** ** Changes of one region *)

(** A region replaced by one with the same range. *)
Definition same_range (r r' : mem_region) : Prop := free_head r' = free_head r /\ end_ r' = end_ r.

Lemma update_inv s i r r' tbl :
  inv s -> mem_regions s !! i = Some r -> same_range r r' -> region_wf r' ->
  (forall k, free_head r <= k * PAGE < end_ r \/ tbl k = mmu_table s k) ->
  (forall k, free_head r <= k * PAGE < end_ r ->
     (forall b, b ∈ blocks r' -> page_of b k -> tbl k = entry b k) /\ ((forall b, b ∈ blocks r' -> ~ page_of b k) -> tbl k = SOC_MMU_INVALID)) ->
  inv (MkCtx (<[i := r']> (mem_regions s)) tbl).
Proof.
  intros [H1 H2 H3] Hi [Hf He] Hw Hout Hin. pose proof (lookup_lt_Some _ _ _ Hi) as Hlt. split; cbn [mem_regions mmu_table].
  - apply Forall_insert; done.
  - intros j k rj rk Hj Hk Hne. destruct (decide (i = j)) as [<- |Hij], (decide (i = k)) as [<- |Hik].
    + done.
    + rewrite list_lookup_insert_eq in Hj by done. injection Hj as <-. rewrite list_lookup_insert_ne in Hk by done.
      rewrite Hf, He. by apply (H2 i k).
    + rewrite list_lookup_insert_eq in Hk by done. injection Hk as <-. rewrite list_lookup_insert_ne in Hj by done.
      rewrite Hf, He. by apply (H2 j i).
    + rewrite list_lookup_insert_ne in Hj, Hk by done. by apply (H2 j k).
  - intros x k Hx Hk. apply list_elem_of_lookup in Hx as [j Hj]. destruct (decide (i = j)) as [<- |Hij].
    + rewrite list_lookup_insert_eq in Hj by done. injection Hj as <-. rewrite Hf, He in Hk. by apply Hin.
    + rewrite list_lookup_insert_ne in Hj by done. destruct (Hout k) as [Hk2| ->]; [|apply H3; [by eapply list_elem_of_lookup_2|done]].
      destruct (H2 i j r x Hi Hj Hij); lia.
Qed.

(** ** Finding a region *)

Lemma find_region_some l n c t i :
  s_find_available_region l n c t = Some i -> exists r, l !! i = Some r /\ suits c t r = true /\ n <= max_slot_size r.
Proof.
  unfold s_find_available_region. destruct (list_find _ l) as [[k r]|] eqn:E; [|done]. intros [= <-].
  apply list_find_Some in E as (E & H & _). exists r. apply andb_true_iff in H as [H1 H2]. split_and!; [done|done|lia].
Qed.

Lemma find_region_none l n c t :
  s_find_available_region l n c t = None -> forall r, r ∈ l -> suits c t r = true -> max_slot_size r < n.
Proof.
  unfold s_find_available_region. destruct (list_find _ l) as [[k r]|] eqn:E; [done|]. intros _ r Hr Hs.
  apply list_find_None in E. pose proof (proj1 (Forall_forall _ _) E r Hr) as H. cbn in H. rewrite Hs in H.
  destruct (Z.leb_spec n (max_slot_size r)); [by destruct H|done].
Qed.

(** There is room for [n] bytes. *)
Definition has_room (r : mem_region) (n : Z) : Prop := exists x, free_range (free_head r) (blocks r) (end_ r) x n.

(** The loop of [map_block] on a region with its dummies. *)
Lemma find_slot_region r A c j :
  region_wf r -> mem_block_head r = dummy (free_head r) c :: blocks r ++ [dummy (end_ r) c] -> 0 < A -> j = 0%nat ->
  let res := find_slot A j (laddr_end (dummy (free_head r) c)) None 0 (mem_block_head r) in
  (max_slot_size r < A /\ exists m, res = (None, m)) \/
  exists l1 l2 m, blocks r = l1 ++ l2 /\ res = (Some (S (length l1), last_end (free_head r) l1), m) /\
    last_end (free_head r) l1 + A <= next_start l2 (end_ r) /\
    (forall nb, laddr_start nb = last_end (free_head r) l1 -> laddr_end nb = last_end (free_head r) l1 + A ->
       m = max_gap (free_head r) (l1 ++ nb :: l2) (end_ r)) /\
    (forall x, free_range (free_head r) (blocks r) (end_ r) x A -> last_end (free_head r) l1 <= x).
Proof.
  intros Hw El HA ->. cbv zeta. rewrite El. cbn [find_slot laddr_start laddr_end dummy]. rewrite Z.sub_diag. change (u32 0) with 0.
  rewrite (proj2 (Z.leb_gt _ _)) by lia. change (0 <? 0) with false. cbv iota. destruct (rw_bounds _ Hw) as [Hb He].
  destruct (find_slot_spec A 1 (free_head r) 0 (blocks r) (dummy (end_ r) c)) as [(Hg & m & E)|(l1 & l2 & m & Eb & E & Hfit & Hgap & Hfirst)];
    cbn [laddr_start dummy] in *; try apply Hw; try lia; try done.
  - left. rewrite (rw_slot _ Hw). split; [done|by exists m].
  - right. exists l1, l2, m. split_and!; [done|exact E|done| |exact Hfirst].
    intros nb E1 E2. rewrite (Hgap nb E1 E2). apply Z.max_r.
    assert (chain (free_head r) (l1 ++ nb :: l2) (end_ r)) as Hc by (apply chain_insert; [rewrite <- Eb; apply Hw|done|lia]).
    clear -Hc. revert Hc. generalize (free_head r). induction l1 as [|b l1 IH]; intros a; cbn; [intros []; lia|]. intros [H1 H2]. pose proof (IH _ H2). lia.
Qed.

(** ** Mapping *)

Definition apart_paddr (paddr n : Z) (b : mem_block) : Prop := paddr + n <= paddr_start b \/ paddr_end b <= paddr.

Lemma check_paddr_spec paddr A t allow l :
  0 <= paddr -> 0 < A -> paddr + A <= 1073741824 -> (forall b, b ∈ l -> t = target b -> block_wf b) ->
  match check_paddr paddr A t allow l with
  | Unmapped => allow = false -> forall b, b ∈ l -> t = target b -> apart_paddr paddr A b
  | Enclosed b => b ∈ l /\ t = target b /\ paddr_start b <= paddr /\ paddr + A <= paddr_end b
  | Overlapped => allow = false /\ exists b, b ∈ l /\ t = target b /\ ~ apart_paddr paddr A b
  end.
Proof.
  intros Hp HA Hlim. induction l as [|b l IH]; intros Hl; cbn [check_paddr]; [intros _ b Hb; by apply elem_of_nil in Hb|].
  assert (forall b', b' ∈ l -> t = target b' -> block_wf b') as Hl' by (intros b' Hb'; apply Hl; by right).
  specialize (IH Hl'). destruct (Z.eqb_spec t (target b)) as [Et|Et].
  - pose proof (Hl b ltac:(by left) Et) as Hw. destruct (bw_paddr _ Hw) as (P1 & P2 & P3 & P4). destruct (bw_size _ Hw) as [S1 _].
    unfold s_is_enclosed, s_is_overlapped. rewrite u32_id by lia. cbv zeta.
    destruct ((paddr_start b <=? paddr) && (paddr + A <=? paddr_end b)) eqn:E1; [split_and!; [by left|done|lia|lia]|].
    destruct allow; cbn [negb andb] in *.
    + destruct (check_paddr paddr A t true l); [done| |].
      * destruct IH as [H1 H2]. split; [by right|done].
      * destruct IH as [H1 _]. done.
    + match goal with |- context [if ?c then _ else _] => destruct c eqn:E2 end.
      * split; [done|]. exists b. split_and!; [by left|done|]. unfold apart_paddr. lia.
      * destruct (check_paddr paddr A t false l).
        -- intros _ b' Hb' Ht'. apply elem_of_cons in Hb' as [-> |Hb']; [unfold apart_paddr; lia|by apply IH].
        -- destruct IH as [H1 H2]. split; [by right|done].
        -- destruct IH as (H1 & b' & H2 & H3). split; [done|]. exists b'. split; [by right|done].
  - destruct (check_paddr paddr A t allow l).
    + intros Ha b' Hb' Ht'. apply elem_of_cons in Hb' as [-> |Hb']; [done|by apply IH].
    + destruct IH as [H1 H2]. split; [by right|done].
    + destruct IH as (H1 & b' & H2 & H3). split; [done|]. exists b'. split; [by right|done].
Qed.

Definition block_for (paddr n t c laddr : Z) : mem_block :=
  MkBlock laddr (laddr + n) (vaddr_of laddr c) (vaddr_of (laddr + n) c) n c paddr (paddr + n) t false.

Record proper_range (paddr n t : Z) : Prop := {
  pr_size : 0 < n /\ n mod PAGE = 0;
  pr_paddr : 0 <= paddr /\ paddr mod PAGE = 0 /\ paddr + n <= 1073741824;
  pr_target : is_target t
}.

Lemma block_for_wf paddr n t c laddr : proper_range paddr n t -> laddr mod PAGE = 0 -> block_wf (block_for paddr n t c laddr).
Proof. intros [[H1 H2] (H3 & H4 & H5) H6] Hl. by split. Qed.

Lemma last_end_aligned a l : a mod PAGE = 0 -> Forall block_wf l -> last_end a l mod PAGE = 0.
Proof.
  intros Ha Hl. revert a Ha. induction Hl as [|b l Hb _ IH]; intros a Ha; [done|]. cbn. apply IH.
  destruct (bw_size _ Hb), (bw_laddr _ Hb). Z.div_mod_to_equations. lia.
Qed.

(** The region with a block put into the slot between [l1] and [l2]. *)
Definition with_block (l1 l2 : list mem_block) (nb : mem_block) (c : Z) (r : mem_region) : mem_region :=
  set_max_slot (max_gap (free_head r) (l1 ++ nb :: l2) (end_ r))
    (set_blocks (dummy (free_head r) c :: (l1 ++ nb :: l2) ++ [dummy (end_ r) c]) r).

Lemma with_block_fields l1 l2 nb c r :
  same_range r (with_block l1 l2 nb c r) /\ blocks (with_block l1 l2 nb c r) = l1 ++ nb :: l2 /\
  max_slot_size (with_block l1 l2 nb c r) = max_gap (free_head r) (l1 ++ nb :: l2) (end_ r).
Proof.
  destruct r as [bb st e sz f m cc tt l]. unfold with_block, blocks, same_range.
  cbn [set_max_slot set_blocks free_head end_ mem_block_head max_slot_size]. by rewrite inner_dummies.
Qed.

Lemma with_block_wf l1 l2 nb c r :
  region_wf r -> blocks r = l1 ++ l2 -> block_wf nb -> laddr_start nb = last_end (free_head r) l1 -> laddr_end nb <= next_start l2 (end_ r) ->
  region_wf (with_block l1 l2 nb c r).
Proof.
  intros Hw Eb Hnb E1 E2. destruct (with_block_fields l1 l2 nb c r) as ([Ef Ee] & Ebl & Em). destruct Hw as [H1 H2 H3 H4 H5 H6]. rewrite Eb in *.
  split; rewrite ?Ef, ?Ee, ?Ebl, ?Em; try done.
  - right. exists c. destruct r. done.
  - apply Forall_app in H4 as [H4a H4b]. apply Forall_app. split; [done|]. by apply Forall_cons.
  - by apply chain_insert.
Qed.

Lemma table_after s i r r' l1 l2 nb tbl :
  inv s -> mem_regions s !! i = Some r -> same_range r r' -> region_wf r' -> blocks r = l1 ++ l2 -> blocks r' = l1 ++ nb :: l2 ->
  (forall k, tbl k = if in_pages (laddr_start nb) (blk_size nb) k then entry nb k else mmu_table s k) ->
  inv (MkCtx (<[i := r']> (mem_regions s)) tbl).
Proof.
  intros Hi Hr Hsame Hw Eb Eb' Ht. pose proof (list_elem_of_lookup_2 _ _ _ Hr) as Hin. assert (nb ∈ blocks r') as Hnb by (rewrite Eb'; set_solver).
  apply (update_inv s i r r' tbl Hi Hr Hsame Hw).
  - intros k. rewrite Ht. destruct (in_pages (laddr_start nb) (blk_size nb) k) eqn:E; [|by right]. left.
    destruct Hsame as [<- <-]. by apply (page_member r' nb).
  - intros k Hk. destruct (inv_table _ Hi r k Hin Hk) as [T1 T2]. rewrite Ht. split.
    + intros b Hb Hpage. destruct (in_pages (laddr_start nb) (blk_size nb) k) eqn:E.
      * by rewrite (page_unique r' b nb k Hw Hb Hnb Hpage E).
      * apply T1; [|done]. rewrite Eb. rewrite Eb' in Hb. apply elem_of_app in Hb as [Hb|Hb]; [set_solver|].
        apply elem_of_cons in Hb as [-> |Hb]; [|set_solver]. unfold page_of in Hpage. congruence.
    + intros Hno. destruct (in_pages (laddr_start nb) (blk_size nb) k) eqn:E; [by destruct (Hno nb)|]. apply T2. intros b Hb. apply Hno.
      rewrite Eb' . rewrite Eb in Hb. set_solver.
Qed.

Lemma vaddr_of_add laddr c : 0 <= laddr < 33554432 ->
  vaddr_of laddr c = vbase (if flag c MMU_MEM_CAP_EXEC then MMU_VADDR_INSTRUCTION else MMU_VADDR_DATA) + laddr.
Proof. apply vaddr_add. Qed.

Lemma map_block_spec s i r0 r c0 paddr A t c :
  inv s -> mem_regions s !! i = Some r0 -> same_range r0 r -> blocks r = blocks r0 -> region_wf r ->
  mem_block_head r = dummy (free_head r) c0 :: blocks r ++ [dummy (end_ r) c0] -> proper_range paddr A t -> A <= max_slot_size r ->
  exists l1 l2 tbl, let nb := block_for paddr A t c (last_end (free_head r) l1) in let r' := with_block l1 l2 nb c0 r in
    blocks r0 = l1 ++ l2 /\ map_block paddr A t c i r s = Some (ESP_OK, Some (vaddr_start nb), MkCtx (<[i := r']> (mem_regions s)) tbl) /\
    inv (MkCtx (<[i := r']> (mem_regions s)) tbl) /\ block_wf nb /\ laddr_end nb <= next_start l2 (end_ r) /\
    (forall x, free_range (free_head r) (blocks r) (end_ r) x A -> laddr_start nb <= x) /\
    (forall k, tbl k = if in_pages (laddr_start nb) (blk_size nb) k then entry nb k else mmu_table s k).
Proof.
  intros Hi Hr Hsame Ebl Hw El Hp Hfit. pose proof Hp as [[HA HAa] (Hp1 & Hp2 & Hp3) Ht]. destruct (rw_bounds _ Hw) as [Hb1 Hb2], (rw_aligned _ Hw) as [Ha1 Ha2].
  destruct (find_slot_region r A c0 0 Hw El HA eq_refl) as [[Hno _]|(l1 & l2 & m & Eb & Efs & Hslot & Hm & Hfirst)]; [lia|].
  pose proof (rw_blocks _ Hw) as Hbs. pose proof (rw_chain _ Hw) as Hc. rewrite Eb in Hbs, Hc.
  assert (free_head r <= last_end (free_head r) l1 /\ next_start l2 (end_ r) <= end_ r) as [Hlo Hhi].
  { destruct (slot_free_range _ _ _ _ A Hbs Hc) as (H1 & _); [lia|done|]. split; [done|].
    pose proof (chain_after _ _ _ _ Hc) as Hc2. apply Forall_app in Hbs as [_ Hl2]. destruct l2 as [|b l2]; [done|]. cbn.
    destruct (chain_member _ _ _ b Hl2 Hc2 ltac:(by left)). apply Forall_cons in Hl2 as [Hb _]. destruct (bw_size _ Hb), (bw_laddr _ Hb). lia. }
  set (laddr := last_end (free_head r) l1) in *. assert (laddr mod PAGE = 0) as Hal by (apply last_end_aligned; [done|by apply Forall_app in Hbs as [? _]]).
  set (nb := block_for paddr A t c laddr). assert (block_wf nb) as Hnb by (by apply block_for_wf).
  destruct (map_region_spec t laddr (if flag c MMU_MEM_CAP_EXEC then MMU_VADDR_INSTRUCTION else MMU_VADDR_DATA) paddr A (mmu_table s))
    as (tbl & Emap & Htbl); try lia.
  exists l1, l2, tbl. cbv zeta. fold laddr. fold nb. rewrite <- Ebl. split; [done|].
  assert (region_wf (with_block l1 l2 nb c0 r)) as Hw' by (by apply with_block_wf).
  assert (same_range r0 (with_block l1 l2 nb c0 r)) as Hsame'.
  { destruct (with_block_fields l1 l2 nb c0 r) as ([E1 E2] & _). destruct Hsame as [E3 E4]. split; congruence. }
  split; [|split; [|split_and!; [done|exact Hslot|exact Hfirst|exact Htbl]]].
  - unfold map_block. rewrite El. cbn [head]. rewrite <- El. cbv zeta in Efs. rewrite Efs. cbv zeta.
    rewrite !(u32_id (laddr + A)), (u32_id (paddr + A)) by lia. fold (block_for paddr A t c laddr). fold nb.
    change (vaddr_start nb) with (vaddr_of laddr c). rewrite vaddr_of_add by lia.
    change (mmu_table (set_region i _ s)) with (mmu_table s). rewrite Emap. do 2 f_equal. unfold set_region. cbn [mem_regions]. f_equal. f_equal.
    unfold with_block. rewrite <- (Hm nb) by done. f_equal. f_equal. rewrite El, Eb. cbn [take drop app length]. f_equal.
    rewrite <- !app_assoc, take_app_length, drop_app_length. done.
  - apply (table_after s i r0 _ l1 l2 nb tbl Hi Hr Hsame' Hw'); [by rewrite <- Ebl|apply with_block_fields|exact Htbl].
Qed.
