(* ===== verification/MmuMap.v ===== *)
(** * Mapping, unmapping and translating memory

    The outcomes of the driver's functions over every sequence of requests, the
    translation of mapped addresses, round trips, and the requests that the
    code does not handle. *)

From S2P Require Import Prelude EspErr Mmu MmuProps MmuSpec.

(** ** Requests *)

(** [size] rounded up to pages. *)
Definition pages (size : Z) : Z := (size + 65535) / PAGE * PAGE.

(** A request of an application: a size that is not 0 and does not wrap when
    it is rounded, memory that the MMU can address. *)
Record proper_request (paddr size t : Z) : Prop := {
  rq_size : 0 < size <= 4294901760;
  rq_paddr : 0 <= paddr /\ paddr + pages size <= 1073741824;
  rq_target : is_target t
}.

Lemma request_range paddr size t : proper_request paddr size t -> paddr mod PAGE = 0 -> proper_range paddr (pages size) t.
Proof.
  intros [H1 [H2 H3] H4] Ha. unfold pages in *. split; [|done|done]. split; [Z.div_mod_to_equations; lia|apply Z.mod_mul; lia].
Qed.

(** The first request in a region creates its dummies. *)
Definition allocated (a : map_allocs) (s : mmu_ctx) : Prop :=
  (exists r, r ∈ mem_regions s /\ mem_block_head r = []) -> a = MkAllocs true true true.

(** What [esp_mmu_map] does: the error, [*out_ptr] and the state. *)
Inductive map_outcome (paddr size t c flags : Z) (a : map_allocs) (s : mmu_ctx) : esp_err_t -> option Z -> mmu_ctx -> Prop :=
  | map_bad :
      paddr mod PAGE <> 0 \/ s_mem_caps_check c <> ESP_OK ->
      map_outcome paddr size t c flags a s ESP_ERR_INVALID_ARG None s
  | map_no_room :
      (forall r, r ∈ mem_regions s -> suits c t r = true -> ~ has_room r (pages size)) ->
      map_outcome paddr size t c flags a s ESP_ERR_NOT_FOUND None s
  | map_no_memory :
      block_ok a = false -> map_outcome paddr size t c flags a s ESP_ERR_NO_MEM None s
  | map_enclosed r b :
      r ∈ mem_regions s -> b ∈ blocks r -> target b = t -> paddr_start b <= paddr -> paddr + pages size <= paddr_end b ->
      map_outcome paddr size t c flags a s ESP_ERR_INVALID_STATE (Some (vaddr_start b + (paddr - paddr_start b))) s
  | map_overlapped r b :
      flag flags ESP_MMU_MMAP_FLAG_PADDR_SHARED = false -> r ∈ mem_regions s -> b ∈ blocks r -> target b = t ->
      ~ apart_paddr paddr (pages size) b -> map_outcome paddr size t c flags a s ESP_ERR_INVALID_ARG None s
  | map_done i r r' l1 l2 laddr tbl :
      mem_regions s !! i = Some r -> suits c t r = true ->
      (forall j r2, mem_regions s !! j = Some r2 -> (j < i)%nat -> suits c t r2 = true -> ~ has_room r2 (pages size)) ->
      (flag flags ESP_MMU_MMAP_FLAG_PADDR_SHARED = false -> forall b, b ∈ blocks r -> target b = t -> apart_paddr paddr (pages size) b) ->
      same_range r r' -> blocks r = l1 ++ l2 -> blocks r' = l1 ++ block_for paddr (pages size) t c laddr :: l2 ->
      free_range (free_head r) (blocks r) (end_ r) laddr (pages size) ->
      (forall x, free_range (free_head r) (blocks r) (end_ r) x (pages size) -> laddr <= x) ->
      map_outcome paddr size t c flags a s ESP_OK (Some (vaddr_of laddr c)) (MkCtx (<[i := r']> (mem_regions s)) tbl).

(** ** The dummies *)

Definition with_dummies (c : Z) (r : mem_region) : mem_region := set_blocks [dummy (free_head r) c; dummy (end_ r) c] r.

Lemma with_dummies_spec c r :
  region_wf r -> mem_block_head r = [] ->
  same_range r (with_dummies c r) /\ blocks (with_dummies c r) = blocks r /\ region_wf (with_dummies c r) /\
  mem_block_head (with_dummies c r) = dummy (free_head (with_dummies c r)) c :: blocks (with_dummies c r) ++ [dummy (end_ (with_dummies c r)) c] /\
  max_slot_size (with_dummies c r) = max_slot_size r.
Proof.
  intros [H1 H2 H3 H4 H5 H6] E. destruct r as [b st e sz f m cc ts l]. unfold with_dummies, blocks, same_range in *. cbn in *. subst l.
  split_and!; try done. split; cbn; try done. right. by exists c.
Qed.

Lemma room_iff r n : region_wf r -> 0 < n -> has_room r n <-> n <= max_slot_size r.
Proof.
  intros Hw Hn. rewrite (rw_slot _ Hw). split.
  - intros [x Hx]. apply (free_range_gap _ _ _ x n Hn (rw_blocks _ Hw) (rw_chain _ Hw) Hx).
  - intros Hg. destruct (rw_bounds _ Hw). destruct (find_slot_spec n 0 (free_head r) 0 (blocks r) (dummy (end_ r) 0) Hn (rw_blocks _ Hw) (rw_chain _ Hw))
      as [[Hno _]|(l1 & l2 & m & Eb & _ & Hfit & _)]; cbn [laddr_start dummy] in *; try lia.
    exists (last_end (free_head r) l1). pose proof (rw_blocks _ Hw) as H1. pose proof (rw_chain _ Hw) as H2. rewrite Eb in H1, H2 |- *.
    apply slot_free_range; done || lia.
Qed.

Lemma caps_check_cases c : s_mem_caps_check c = ESP_OK \/ s_mem_caps_check c = ESP_ERR_INVALID_ARG.
Proof. unfold s_mem_caps_check. destruct (_ && _); auto. Qed.

Lemma set_same_region i r s : mem_regions s !! i = Some r -> set_region i r s = s.
Proof. intros H. destruct s as [l tbl]. unfold set_region. cbn in *. by rewrite list_insert_id. Qed.

(** In a region with its dummies, from the check of the physical range on. *)
Definition map_tail (paddr A t c flags : Z) (a : map_allocs) (i : nat) (failed : mmu_ctx) (r : mem_region) (s : mmu_ctx) :=
  match check_paddr paddr A t (flag flags ESP_MMU_MMAP_FLAG_PADDR_SHARED) (mem_block_head r) with
  | Enclosed b => Some (ESP_ERR_INVALID_STATE, Some (vaddr_start b + u32 (paddr - paddr_start b)), failed)
  | Overlapped => Some (ESP_ERR_INVALID_ARG, None, failed)
  | Unmapped => if negb (block_ok a) then Some (ESP_ERR_NO_MEM, None, failed) else map_block paddr A t c i r s
  end.

Lemma map_tail_spec paddr size t c flags a s i r0 r c0 failed :
  inv s -> mem_regions s !! i = Some r0 -> suits c t r0 = true ->
  (forall j r2, mem_regions s !! j = Some r2 -> (j < i)%nat -> suits c t r2 = true -> ~ has_room r2 (pages size)) ->
  same_range r0 r -> blocks r = blocks r0 -> region_wf r ->
  mem_block_head r = dummy (free_head r) c0 :: blocks r ++ [dummy (end_ r) c0] -> proper_range paddr (pages size) t ->
  pages size <= max_slot_size r -> failed = s \/ (blocks r0 = [] /\ block_ok a = true) ->
  exists err out s', map_tail paddr (pages size) t c flags a i failed r s = Some (err, out, s') /\ inv s' /\ map_outcome paddr size t c flags a s err out s'.
Proof.
  intros Hi Hr Hsuits Hearlier Hsame Ebl Hw El Hp Hfit Hfailed. unfold map_tail. pose proof (list_elem_of_lookup_2 _ _ _ Hr) as Hin.
  pose proof Hp as [[HA HAa] (Hp1 & Hp2 & Hp3) Ht].
  assert (t <> 0) as Ht0 by (destruct Ht as [-> | ->]; done).
  assert (forall b, b ∈ mem_block_head r -> t = target b -> b ∈ blocks r0 /\ block_wf b) as Hmem.
  { intros b Hb Etb. rewrite El in Hb. rewrite <- Ebl. assert (target b <> 0) as Hb0 by congruence.
    apply elem_of_cons in Hb as [-> |Hb]; [by destruct Hb0|]. apply elem_of_app in Hb as [Hb|Hb].
    - split; [done|]. apply (proj1 (Forall_forall _ _) (rw_blocks _ Hw) b Hb).
    - apply list_elem_of_singleton in Hb as ->. by destruct Hb0. }
  pose proof (check_paddr_spec paddr (pages size) t (flag flags ESP_MMU_MMAP_FLAG_PADDR_SHARED) (mem_block_head r) Hp1 HA Hp3 (fun b H E => proj2 (Hmem b H E))) as Hc.
  assert (forall b, b ∈ mem_block_head r -> t = target b -> failed = s) as Hnotfresh.
  { intros b Hb Etb. destruct Hfailed as [?|[E0 _]]; [done|]. destruct (Hmem b Hb Etb) as [Hb0 _]. rewrite E0 in Hb0. by apply elem_of_nil in Hb0. }
  destruct (check_paddr _ _ _ _ _) as [|b|].
  - destruct (block_ok a) eqn:Ea; cbn [negb].
    + destruct (map_block_spec s i r0 r c0 paddr (pages size) t c Hi Hr Hsame Ebl Hw El Hp Hfit) as (l1 & l2 & tbl & Eb & Emap & Hinv & Hnb & Hslot & Hfirst & Htbl).
      eexists _, _, _. split; [exact Emap|]. split; [exact Hinv|]. destruct Hsame as [Ef Ee].
      destruct (with_block_fields l1 l2 (block_for paddr (pages size) t c (last_end (free_head r) l1)) c0 r) as ([E1 E2] & E3 & _).
      apply (map_done _ _ _ _ _ _ _ i r0 _ l1 l2 (last_end (free_head r) l1)); try done.
      * intros Hf b Hb Etb. apply Hc; [done| |done]. rewrite El, Ebl. set_solver.
      * split; congruence.
      * rewrite <- Ef, <- Ee, <- Ebl. pose proof (rw_blocks _ Hw) as H1. pose proof (rw_chain _ Hw) as H2. rewrite Ebl, Eb in H1, H2 |- *.
        apply slot_free_range; [done|done|lia|exact Hslot].
      * rewrite <- Ef, <- Ee, <- Ebl. exact Hfirst.
    + destruct Hfailed as [-> |[_ ?]]; [|done]. eexists _, _, _. split; [done|]. split; [done|]. by apply map_no_memory.
  - destruct Hc as (Hb & Etb & H1 & H2). rewrite (Hnotfresh b Hb Etb). destruct (Hmem b Hb Etb) as [Hb0 Hbw].
    destruct (bw_paddr _ Hbw) as (P1 & _ & P3 & P4). rewrite u32_id by lia.
    eexists _, _, _. split; [done|]. split; [done|]. by apply (map_enclosed _ _ _ _ _ _ _ r0 b).
  - destruct Hc as (Hf & b & Hb & Etb & Hap). rewrite (Hnotfresh b Hb Etb). destruct (Hmem b Hb Etb) as [Hb0 _].
    eexists _, _, _. split; [done|]. split; [done|]. by apply (map_overlapped _ _ _ _ _ _ _ r0 b).
Qed.

(** Every proper request has one of the outcomes, and the invariant holds afterwards. *)
Lemma map_spec paddr size t c flags a s :
  inv s -> proper_request paddr size t -> allocated a s ->
  exists err out s', esp_mmu_map paddr size t c flags a s = Some (err, out, s') /\ inv s' /\ map_outcome paddr size t c flags a s err out s'.
Proof.
  intros Hi Hrq Hall. unfold esp_mmu_map, CONFIG_MMU_PAGE_SIZE. destruct (Z.eqb_spec (paddr mod 0x10000) 0) as [Hal|Hal]; cbn [negb];
    [|eexists _, _, _; split; [done|]; split; [done|]; apply map_bad; by left].
  destruct (caps_check_cases c) as [Ecaps|Ecaps]; rewrite Ecaps; [change (ESP_OK =? ESP_OK) with true|change (ESP_ERR_INVALID_ARG =? ESP_OK) with false]; cbn [negb];
    [|eexists _, _, _; split; [done|]; split; [done|]; apply map_bad; right; by rewrite Ecaps].
  pose proof (request_range paddr size t Hrq Hal) as Hp. destruct Hrq as [Hs _ _].
  change 0x10000 with CONFIG_MMU_PAGE_SIZE. rewrite (align_up size) by lia. fold (pages size). destruct Hp as [[HA ?] ? ?] eqn:Ep. clear Ep.
  destruct (s_find_available_region (mem_regions s) (pages size) c t) as [i|] eqn:Ef.
  2: { eexists _, _, _. split; [done|]. split; [done|]. apply map_no_room. intros r Hr Hsuit Hroom.
       pose proof (find_region_none _ _ _ _ Ef r Hr Hsuit). pose proof (proj1 (Forall_forall _ _) (inv_regions _ Hi) r Hr) as Hw.
       apply (room_iff r _ Hw HA) in Hroom. lia. }
  destruct (find_region_some _ _ _ _ _ Ef) as (r0 & Hr & Hsuit & Hfit). rewrite Hr. pose proof (list_elem_of_lookup_2 _ _ _ Hr) as Hin.
  pose proof (proj1 (Forall_forall _ _) (inv_regions _ Hi) r0 Hin) as Hw0.
  assert (forall j r2, mem_regions s !! j = Some r2 -> (j < i)%nat -> suits c t r2 = true -> ~ has_room r2 (pages size)) as Hearlier.
  { intros j r2 Hj Hlt Hs2 Hroom. unfold s_find_available_region in Ef. destruct (list_find _ _) as [[k rk]|] eqn:El; [|done]. injection Ef as ->.
    apply list_find_Some in El as (_ & _ & Hno). apply (Hno j r2 Hj Hlt). rewrite Hs2. cbn.
    apply (room_iff r2 _ (proj1 (Forall_forall _ _) (inv_regions _ Hi) r2 (list_elem_of_lookup_2 _ _ _ Hj)) HA) in Hroom. lia. }
  case_bool_decide as Hfresh.
  - assert (a = MkAllocs true true true) as -> by (apply Hall; by exists r0). cbn [head_ok tail_ok negb andb].
    destruct (with_dummies_spec c r0 Hw0 Hfresh) as (Hsame & Ebl & Hw & El & Em). fold (with_dummies c r0).
    rewrite (region_live _ Hw). refine (map_tail_spec paddr size t c flags (MkAllocs true true true) s i r0 (with_dummies c r0) c _ Hi Hr Hsuit Hearlier Hsame Ebl Hw El Hp _ _).
    + by rewrite Em.
    + right. unfold blocks. by rewrite Hfresh.
  - cbn [andb negb]. rewrite set_same_region by done. rewrite (region_live _ Hw0). destruct (rw_list _ Hw0) as [?|[c0 El]]; [done|].
    refine (map_tail_spec paddr size t c flags a s i r0 r0 c0 s Hi Hr Hsuit Hearlier _ _ Hw0 El Hp Hfit _); [by split|done|by left].
Qed.
