(* ===== verification/MmuUnmap.v ===== *)
(** * Unmapping memory

    Unmapping takes exactly the block that starts at the address, makes its
    pages invalid and the largest free slot exact again. *)

From S2P Require Import Prelude EspErr Mmu MmuProps MmuSpec MmuMap.

(** ** Finding the region and the block *)

Definition in_range (x : Z) (r : mem_region) : Prop := free_head r <= x < end_ r.

Lemma region_of_some x k found l i :
  region_of x k found l = Some i -> found = Some i \/ exists r, (k <= i)%nat /\ l !! (i - k)%nat = Some r /\ in_range x r.
Proof.
  revert k found. induction l as [|r l IH]; intros k found; cbn [region_of]; [by left|]. intros H. apply IH in H as [H|(r' & H1 & H2 & H3)].
  - destruct (_ && _) eqn:E; [|by left]. injection H as <-. right. exists r. rewrite Nat.sub_diag. split; [done|]. split; [done|]. unfold in_range. lia.
  - right. exists r'. split; [lia|]. split; [|done]. by replace (i - k)%nat with (S (i - S k)) by lia.
Qed.

Lemma region_of_none x k found l : region_of x k found l = None -> found = None /\ forall r, r ∈ l -> ~ in_range x r.
Proof.
  revert k found. induction l as [|r l IH]; intros k found; cbn [region_of].
  - intros H. split; [done|]. intros r Hr. by apply elem_of_nil in Hr.
  - intros H. apply IH in H as [H1 H2]. destruct (_ && _) eqn:E; [done|]. split; [done|]. intros r' Hr'. apply elem_of_cons in Hr' as [-> |Hr'].
    + unfold in_range. lia.
    + by apply H2.
Qed.

(** The neighbours of a block in the list with the dummies. *)
Lemma last_end_prev a c l1 rest :
  exists prev, (dummy a c :: l1 ++ rest) !! length l1 = Some prev /\ laddr_end prev = last_end a l1.
Proof.
  assert (forall d, laddr_end d = a -> exists prev, (d :: l1 ++ rest) !! length l1 = Some prev /\ laddr_end prev = last_end a l1) as H.
  { revert a. induction l1 as [|b l1 IH]; intros a d Hd; [by exists d|]. cbn [length app last_end]. by apply IH. }
  by apply H.
Qed.

Lemma next_start_next l2 e c : exists next, head (l2 ++ [dummy e c]) = Some next /\ laddr_start next = next_start l2 e.
Proof. destruct l2 as [|b l2]; by eexists. Qed.

(** ** The outcome *)

Definition without_block (l1 l2 : list mem_block) (c : Z) (r : mem_region) : mem_region :=
  set_max_slot (max_gap (free_head r) (l1 ++ l2) (end_ r)) (set_blocks (dummy (free_head r) c :: (l1 ++ l2) ++ [dummy (end_ r) c]) r).

Lemma without_block_fields l1 l2 c r :
  same_range r (without_block l1 l2 c r) /\ blocks (without_block l1 l2 c r) = l1 ++ l2 /\
  max_slot_size (without_block l1 l2 c r) = max_gap (free_head r) (l1 ++ l2) (end_ r).
Proof.
  destruct r as [bb st e sz f m cc tt l]. unfold without_block, blocks, same_range.
  cbn [set_max_slot set_blocks free_head end_ mem_block_head max_slot_size]. by rewrite inner_dummies.
Qed.

Lemma without_block_wf l1 b l2 c r : region_wf r -> blocks r = l1 ++ b :: l2 -> region_wf (without_block l1 l2 c r).
Proof.
  intros Hw Eb. destruct (without_block_fields l1 l2 c r) as ([Ef Ee] & Ebl & Em). destruct Hw as [H1 H2 H3 H4 H5 H6]. rewrite Eb in *.
  split; rewrite ?Ef, ?Ee, ?Ebl, ?Em; try done.
  - right. exists c. by destruct r.
  - apply Forall_app in H4 as [H4a H4b]. apply Forall_cons in H4b as [_ H4b]. by apply Forall_app.
  - by eapply chain_delete.
Qed.

Inductive unmap_outcome (ptr : Z) (s : mmu_ctx) : esp_err_t -> mmu_ctx -> Prop :=
  | unmap_null : ptr = 0 -> unmap_outcome ptr s ESP_ERR_INVALID_ARG s
  | unmap_nothing :
      (forall r b, r ∈ mem_regions s -> b ∈ blocks r -> laddr_start b <> mmu_ll_vaddr_to_laddr ptr) ->
      unmap_outcome ptr s ESP_ERR_NOT_FOUND s
  | unmap_done i r r' l1 b l2 tbl :
      mem_regions s !! i = Some r -> same_range r r' -> blocks r = l1 ++ b :: l2 -> blocks r' = l1 ++ l2 ->
      laddr_start b = mmu_ll_vaddr_to_laddr ptr ->
      (forall k, tbl k = if in_pages (laddr_start b) (blk_size b) k then SOC_MMU_INVALID else mmu_table s k) ->
      unmap_outcome ptr s ESP_OK (MkCtx (<[i := r']> (mem_regions s)) tbl).

(** The table after a block was removed. *)
Lemma table_removed s i r r' l1 b l2 tbl :
  inv s -> mem_regions s !! i = Some r -> same_range r r' -> region_wf r' -> blocks r = l1 ++ b :: l2 -> blocks r' = l1 ++ l2 ->
  (forall k, tbl k = if in_pages (laddr_start b) (blk_size b) k then SOC_MMU_INVALID else mmu_table s k) ->
  inv (MkCtx (<[i := r']> (mem_regions s)) tbl).
Proof.
  intros Hi Hr Hsame Hw' Eb Eb' Ht. pose proof (list_elem_of_lookup_2 _ _ _ Hr) as Hin.
  pose proof (proj1 (Forall_forall _ _) (inv_regions _ Hi) r Hin) as Hw. assert (b ∈ blocks r) as Hb by (rewrite Eb; set_solver).
  assert (forall b', b' ∈ blocks r' -> b' ∈ blocks r) as Hsub by (rewrite Eb, Eb'; set_solver).
  assert (forall b', b' ∈ blocks r' -> b' <> b) as Hne.
  { intros b' Hb' ->. pose proof (rw_chain _ Hw) as Hc. pose proof (rw_blocks _ Hw) as Hl. rewrite Eb, Eb' in *. clear -Hc Hl Hb'.
    revert Hc. generalize (free_head r). induction l1 as [|x l1 IH]; intros a [Hc1 Hc2]; cbn [app] in *; apply Forall_cons in Hl as [Hx Hl];
      destruct (bw_size _ Hx), (bw_laddr _ Hx).
    - destruct (chain_member _ _ _ b Hl Hc2 Hb'). lia.
    - apply elem_of_cons in Hb' as [-> |Hb']; [|by apply (IH Hb' Hl _ Hc2)]. destruct (chain_member _ _ _ x Hl Hc2 ltac:(set_solver)). lia. }
  apply (update_inv s i r r' tbl Hi Hr Hsame Hw').
  - intros k. rewrite Ht. destruct (in_pages (laddr_start b) (blk_size b) k) eqn:E; [|by right]. left. by apply (page_member r b).
  - intros k Hk. destruct (inv_table _ Hi r k Hin Hk) as [T1 T2]. rewrite Ht. split.
    + intros b' Hb' Hpage. destruct (in_pages (laddr_start b) (blk_size b) k) eqn:E.
      * destruct (Hne b' Hb'). by apply (page_unique r b' b k Hw (Hsub b' Hb') Hb).
      * by apply T1; [apply Hsub|].
    + intros Hno. destruct (in_pages (laddr_start b) (blk_size b) k) eqn:E; [done|]. apply T2. intros b' Hb' Hpage.
      rewrite Eb in Hb'. apply elem_of_app in Hb' as [Hb'|Hb']; [by apply (Hno b'); [rewrite Eb'; set_solver|]|].
      apply elem_of_cons in Hb' as [-> |Hb']; [unfold page_of in Hpage; congruence|]. by apply (Hno b'); [rewrite Eb'; set_solver|].
Qed.

(** The slot that removing a block leaves. *)
Lemma removed_gap a l1 b l2 e :
  Forall block_wf (l1 ++ b :: l2) -> chain a (l1 ++ b :: l2) e -> 0 <= next_start l2 e - last_end a l1 <= e - a.
Proof.
  intros Hl Hc. pose proof (chain_after _ _ _ _ (chain_delete _ _ _ _ _ Hl Hc)) as Hc'.
  assert (a <= last_end a l1) as H1.
  { destruct (slot_free_range a l1 (b :: l2) e 0 Hl Hc) as (? & _); [lia| |done]. cbn. pose proof (chain_after _ _ _ _ Hc) as [H _]. lia. }
  apply Forall_app in Hl as [_ Hl]. apply Forall_cons in Hl as [_ Hl]. pose proof (chain_bounds _ _ _ Hl Hc').
  destruct l2 as [|b2 l2]; cbn in *; [lia|]. destruct Hc' as [H2 H3]. apply Forall_cons in Hl as [Hb2w Hl]. pose proof (chain_bounds _ _ _ Hl H3).
  destruct (bw_size _ Hb2w), (bw_laddr _ Hb2w). lia.
Qed.

(** A block in the range of a region is in this region. *)
Lemma block_region s i j ri rj b :
  inv s -> mem_regions s !! i = Some ri -> mem_regions s !! j = Some rj -> b ∈ blocks rj -> in_range (laddr_start b) ri -> i = j.
Proof.
  intros Hi Hri Hrj Hb Hx. destruct (decide (i = j)) as [|Hne]; [done|]. exfalso.
  pose proof (proj1 (Forall_forall _ _) (inv_regions _ Hi) rj (list_elem_of_lookup_2 _ _ _ Hrj)) as Hw.
  destruct (chain_member _ _ _ _ (rw_blocks _ Hw) (rw_chain _ Hw) Hb). pose proof (proj1 (Forall_forall _ _) (rw_blocks _ Hw) b Hb) as Hbw.
  destruct (bw_size _ Hbw), (bw_laddr _ Hbw). unfold in_range in Hx. destruct (inv_apart _ Hi i j ri rj Hri Hrj Hne); lia.
Qed.

Lemma unmap_spec ptr s :
  inv s -> exists err s', esp_mmu_unmap ptr s = Some (err, s') /\ inv s' /\ unmap_outcome ptr s err s'.
Proof.
  intros Hi. unfold esp_mmu_unmap. destruct (Z.eqb_spec ptr 0) as [Ep|Ep]; [eexists _, _; split; [done|]; split; [done|by apply unmap_null]|].
  set (x := mmu_ll_vaddr_to_laddr ptr). destruct (region_of x 0 None (mem_regions s)) as [i|] eqn:Er.
  2: { apply region_of_none in Er as [_ Hno]. eexists _, _. split; [done|]. split; [done|]. apply unmap_nothing. intros r b Hr Hb E.
       pose proof (proj1 (Forall_forall _ _) (inv_regions _ Hi) r Hr) as Hw. apply (Hno r Hr). unfold in_range. fold x in E. rewrite <- E.
       destruct (chain_member _ _ _ _ (rw_blocks _ Hw) (rw_chain _ Hw) Hb). pose proof (proj1 (Forall_forall _ _) (rw_blocks _ Hw) b Hb) as Hbw.
       destruct (bw_size _ Hbw), (bw_laddr _ Hbw). lia. }
  apply region_of_some in Er as [?|(r & _ & Hr & Hx)]; [done|]. rewrite Nat.sub_0_r in Hr. rewrite Hr. pose proof (list_elem_of_lookup_2 _ _ _ Hr) as Hin.
  pose proof (proj1 (Forall_forall _ _) (inv_regions _ Hi) r Hin) as Hw. rewrite (region_live _ Hw). fold (blocks r).
  destruct (list_find (fun b => laddr_start b = x) (blocks r)) as [[k b]|] eqn:Ef.
  2: { eexists _, _. split; [done|]. split; [done|]. apply unmap_nothing. intros r2 b Hr2 Hb E. fold x in E. apply list_find_None in Ef.
       apply list_elem_of_lookup in Hr2 as [i2 Hr2]. rewrite <- E in Hx. rewrite <- (block_region s i i2 r r2 b Hi Hr Hr2 Hb Hx) in Hr2.
       assert (r2 = r) as -> by congruence. by apply (proj1 (Forall_forall _ _) Ef b Hb). }
  apply list_find_Some in Ef as (Hk & Ex & _). pose proof (take_drop_middle _ _ _ Hk) as Esplit. symmetry in Esplit.
  set (l1 := take k (blocks r)) in *. set (l2 := drop (S k) (blocks r)) in *.
  assert (length l1 = k) as Elen by (apply length_take_le; apply lookup_lt_Some in Hk; lia).
  destruct (rw_list _ Hw) as [E0|[c El]]; [unfold blocks in Esplit; rewrite E0 in Esplit; by destruct l1|].
  assert (b ∈ blocks r) as Hb by (by eapply list_elem_of_lookup_2). pose proof (proj1 (Forall_forall _ _) (rw_blocks _ Hw) b Hb) as Hbw.
  destruct (bw_size _ Hbw) as [Hs1 Hs2], (bw_laddr _ Hbw) as [Ha1 Ha2]. destruct (rw_bounds _ Hw) as [Hb1 Hb2].
  destruct (chain_member _ _ _ _ (rw_blocks _ Hw) (rw_chain _ Hw) Hb) as [Hlo Hhi].
  rewrite El, Esplit. rewrite <- app_assoc, <- app_comm_cons.
  destruct (last_end_prev (free_head r) c l1 (b :: l2 ++ [dummy (end_ r) c])) as (prev & Eprev & Hprev). rewrite Elen in Eprev.
  destruct (next_start_next l2 (end_ r) c) as (next & Enext & Hnext).
  assert ((dummy (free_head r) c :: l1 ++ b :: l2 ++ [dummy (end_ r) c]) !! S (S k) = Some next) as ->.
  { rewrite lookup_cons_ne_0 by lia. cbn [pred]. rewrite lookup_app_r by lia. replace (S k - length l1)%nat with 1%nat by lia.
    rewrite lookup_cons_ne_0 by lia. cbn [pred]. by rewrite <- head_lookup. }
  rewrite Eprev, Hprev, Hnext, (bw_vaddr _ Hbw), vaddr_of_add by lia.
  destruct (unmap_region_spec (laddr_start b) (if flag (blk_caps b) MMU_MEM_CAP_EXEC then MMU_VADDR_INSTRUCTION else MMU_VADDR_DATA) (blk_size b) (mmu_table s))
    as (tbl & -> & Htbl); try lia.
  pose proof (rw_blocks _ Hw) as Hl. pose proof (rw_chain _ Hw) as Hc. rewrite Esplit in Hl, Hc. destruct (without_block_fields l1 l2 c r) as (Hsame & Ebl & Em).
  eexists _, _. split; [reflexivity|]. rewrite (rw_slot _ Hw), Esplit.
  pose proof (removed_gap _ _ _ _ _ Hl Hc) as Hgap.
  rewrite u32_id by lia.
  replace (if _ <? _ then _ else _) with (max_gap (free_head r) (l1 ++ l2) (end_ r))
    by (rewrite (max_gap_delete _ _ _ _ _ Hl Hc); destruct (Z.ltb_spec (max_gap (free_head r) (l1 ++ b :: l2) (end_ r)) (next_start l2 (end_ r) - last_end (free_head r) l1)); lia).
  replace (delete (S k) _) with (dummy (free_head r) c :: (l1 ++ l2) ++ [dummy (end_ r) c])
    by (change (delete (S k) (?d :: ?l)) with (d :: delete k l); by rewrite <- app_assoc, <- Elen, delete_middle).
  fold (without_block l1 l2 c r). assert (region_wf (without_block l1 l2 c r)) as Hw' by (by eapply without_block_wf).
  split; [by apply (table_removed s i r _ l1 b l2)|]. by apply (unmap_done ptr s i r _ l1 b l2).
Qed.
