(* ===== verification/MmuLife.v ===== *)
(** * The memory map over its whole life

    From the start of the system on, over any reservations at the start and any
    requests afterwards: no assertion fails, and the table translates the
    mapped blocks and nothing else.  The start is the one of the ESP32-S3. *)

From S2P Require Import Prelude EspErr Mmu MmuProps MmuSpec MmuMap MmuUnmap.

(** ** The start *)

(** The bytes of a section in whole pages. *)
Definition section_len (first last : Z) : Z := pages (last - first + first mod PAGE).

(** Sections that fit, and a table where the bootloader mapped nothing behind them. *)
Record linked (irom_start irom_end drom_start drom_end : Z) (t : table) : Prop := {
  lk_irom : 0x42000000 <= irom_start <= irom_end /\ irom_start + section_len irom_start irom_end <= 0x44000000 /\ irom_end < 0x44000000;
  lk_drom : 0x3C000000 <= drom_start <= drom_end /\ drom_start + section_len drom_start drom_end <= 0x3E000000 /\ drom_end < 0x3E000000;
  lk_some : 0 < section_len irom_start irom_end /\ 0 < section_len drom_start drom_end;
  lk_fit : section_len irom_start irom_end + section_len drom_start drom_end <= 33554432;
  lk_table : forall i, section_len irom_start irom_end + section_len drom_start drom_end <= i * PAGE < 33554432 -> t i = SOC_MMU_INVALID
}.

(** A state without blocks. *)
Definition fresh (s : mmu_ctx) : Prop := inv s /\ Forall (fun r => mem_block_head r = []) (mem_regions s).

Lemma reserve_section type first last l :
  vbase type <= first <= last -> first + section_len first last <= vbase type + 33554432 -> last < vbase type + 33554432 -> 0 < section_len first last ->
  s_reserve_region first last l = Some (reserve_in (if vbase type =? 0x42000000 then CACHE_BUS_IBUS0 else CACHE_BUS_DBUS0) (section_len first last) l).
Proof.
  intros H1 H2 H3 H4. unfold s_reserve_region, ALIGN_DOWN_BY. assert (0x3C000000 <= vbase type <= 0x42000000) as Hv by (destruct (vbase_cases type) as [-> | ->]; lia).
  assert (forall x, vbase type <= x < vbase type + 33554432 -> mmu_ll_vaddr_to_laddr x = x - vbase type) as Hla.
  { intros x Hx. rewrite <- (laddr_of (x - vbase type) type) by lia. f_equal. lia. }
  rewrite land_pages, !Hla by lia. rewrite !(u32_id (last - first)) by lia. replace (last - vbase type - (first - vbase type)) with (last - first) by lia.
  rewrite u32_id, Z.eqb_refl by lia. replace (first - first / PAGE * PAGE) with (first mod PAGE) by (Z.div_mod_to_equations; lia).
  assert (0 <= first mod PAGE < PAGE) by (apply Z.mod_pos_bound; lia). rewrite (u32_id (first mod PAGE)), u32_id by lia.
  rewrite align_up by lia. fold (pages (last - first + first mod PAGE)). fold (section_len first last).
  unfold cache_ll_l1_get_bus. rewrite u32_id by lia.
  unfold SOC_IRAM0_CACHE_ADDRESS_LOW, SOC_IRAM0_CACHE_ADDRESS_HIGH, SOC_DRAM0_CACHE_ADDRESS_LOW, SOC_DRAM0_CACHE_ADDRESS_HIGH.
  destruct (vbase_cases type) as [E|E]; rewrite E in *; cbn [Z.eqb Pos.eqb].
  - rewrite (proj2 (Z.leb_gt _ _)) by lia. cbn [andb]. rewrite (proj2 (Z.leb_le _ _)), (proj2 (Z.ltb_lt _ _)) by lia. done.
  - rewrite (proj2 (Z.leb_le _ _)), (proj2 (Z.ltb_lt _ _)) by lia. done.
Qed.

Lemma fresh_region b st sz f m c ts :
  0 <= f <= 33554432 -> f mod PAGE = 0 -> m = 33554432 - f -> region_wf (MkRegion b st 33554432 sz f m c ts []).
Proof. intros H1 H2 ->. constructor; cbn; [lia|done|by left|by apply Forall_nil|lia|lia]. Qed.

Lemma section_aligned first last : section_len first last mod PAGE = 0.
Proof. apply Z.mod_mul. lia. Qed.

Lemma init_spec irom_start irom_end drom_start drom_end t :
  linked irom_start irom_end drom_start drom_end t ->
  exists s, esp_mmu_map_init irom_start irom_end drom_start drom_end g_mmu_mem_regions t = Some s /\ fresh s.
Proof.
  intros [(I1 & I2 & I3) (D1 & D2 & D3) [Hi Hd] Hfit Ht]. unfold esp_mmu_map_init.
  change (forallb _ g_mmu_mem_regions) with true. cbv iota.
  rewrite (reserve_section MMU_VADDR_INSTRUCTION) by done. change (vbase MMU_VADDR_INSTRUCTION =? _) with true. cbv iota.
  set (L1 := section_len irom_start irom_end) in *. set (L2 := section_len drom_start drom_end) in *.
  pose proof (section_aligned irom_start irom_end) as A1. pose proof (section_aligned drom_start drom_end) as A2. fold L1 in A1. fold L2 in A2.
  unfold g_mmu_mem_regions. cbn [reserve_in hw_region bus_id region_size max_slot_size free_head end_ set_max_slot set_free_head].
  change (Z.land CACHE_BUS_IBUS0 _ =? CACHE_BUS_IBUS0) with true. cbv iota. rewrite (proj2 (Z.leb_gt _ _)) by lia.
  rewrite (reserve_section MMU_VADDR_DATA) by done. change (vbase MMU_VADDR_DATA =? _) with false. cbv iota.
  cbn [reserve_in bus_id region_size max_slot_size free_head end_ set_max_slot set_free_head].
  change (Z.land CACHE_BUS_DBUS0 _ =? CACHE_BUS_DBUS0) with true. cbv iota. rewrite (proj2 (Z.leb_gt _ _)) by (fold L2; lia). fold L2.
  rewrite !(u32_id (0 + L1)), !(u32_id (_ - L1)), !(u32_id (_ - L2)), !(u32_id (_ + L2)) by lia. cbn [coalesce_all coalesce].
  eexists. split; [reflexivity|]. rewrite filter_cons_True by done. cbn [filter list_filter].
  split; [|by apply Forall_singleton]. split; cbn [mem_regions mmu_table].
  - apply Forall_singleton. apply fresh_region; [lia| |lia]. rewrite Z.add_0_l, Z.add_mod, A1, A2 by lia. done.
  - intros i j ri rj Hi' Hj' Hne. apply list_lookup_singleton_Some in Hi' as [-> _]. apply list_lookup_singleton_Some in Hj' as [-> _]. done.
  - intros r i Hr Hk. apply list_elem_of_singleton in Hr as ->. cbn [free_head end_ blocks mem_block_head] in *.
    split; [intros b Hb; by apply elem_of_nil in Hb|]. intros _. apply Ht. lia.
Qed.

(** Reserving at the start moves the free head. *)
Lemma reserve_spec size c t s err out s' :
  fresh s -> 0 < size <= 4294901760 -> esp_mmu_map_reserve_block_with_caps size c t s = (err, out, s') ->
  fresh s' /\ (err = ESP_OK -> exists i r r', mem_regions s !! i = Some r /\ mem_regions s' = <[i := r']> (mem_regions s) /\
    out = Some (vaddr_of (free_head r) c) /\ free_head r' = free_head r + pages size /\ end_ r' = end_ r).
Proof.
  intros [Hi Hf] Hs. unfold esp_mmu_map_reserve_block_with_caps.
  destruct (caps_check_cases c) as [Ec|Ec]; rewrite Ec; [change (ESP_OK =? ESP_OK) with true|change (ESP_ERR_INVALID_ARG =? ESP_OK) with false];
    cbn [negb]; [|by intros [= <- <- <-]].
  rewrite align_up by lia. fold (pages size). destruct (s_find_available_region _ _ _ _) as [i|] eqn:Ef; [|by intros [= <- <- <-]].
  destruct (find_region_some _ _ _ _ _ Ef) as (r & Hr & _ & Hfit). rewrite Hr. pose proof (list_elem_of_lookup_2 _ _ _ Hr) as Hin.
  pose proof (proj1 (Forall_forall _ _) (inv_regions _ Hi) r Hin) as Hw. pose proof (proj1 (Forall_forall _ _) Hf r Hin) as Hnil.
  assert (0 < pages size /\ pages size mod PAGE = 0) as [HA HAa] by (unfold pages; split; [Z.div_mod_to_equations; lia|apply Z.mod_mul; lia]).
  destruct (rw_bounds _ Hw) as [Hb He], (rw_aligned _ Hw) as [Ha1 Ha2]. assert (max_slot_size r = end_ r - free_head r) as Em.
  { rewrite (rw_slot _ Hw). unfold blocks. by rewrite Hnil. }
  rewrite !u32_id by lia. set (r' := set_max_slot _ _). intros [= <- <- <-].
  assert (free_head r' = free_head r + pages size /\ end_ r' = end_ r /\ mem_block_head r' = [] /\ max_slot_size r' = end_ r - (free_head r + pages size)) as (F1 & F2 & F3 & F4).
  { unfold r'. rewrite Em. destruct r as [bb st e sz f m cc ts l]. cbn in *. split_and!; [done|done|done|lia]. }
  assert (region_wf r') as Hw'.
  { constructor; unfold blocks; rewrite ?F1, ?F2, ?F3, ?F4; [lia| |by left|by apply Forall_nil|cbn; lia|done]. split; [|done].
    rewrite Z.add_mod, Ha1, HAa by lia. done. }
  split; [|intros _; exists i, r, r'; by rewrite F1, F2]. pose proof (lookup_lt_Some _ _ _ Hr) as Hlt. split; [|by apply Forall_insert].
  assert (forall j x, <[i:=r']> (mem_regions s) !! j = Some x -> exists y, mem_regions s !! j = Some y /\ free_head y <= free_head x /\ end_ x = end_ y /\ mem_block_head x = []) as Hback.
  { intros j x Hj. destruct (decide (i = j)) as [<- |Hne].
    - rewrite list_lookup_insert_eq in Hj by done. injection Hj as <-. exists r. rewrite F1, F2. split_and!; [done|lia|done|done].
    - rewrite list_lookup_insert_ne in Hj by done. exists x. split_and!; [done|lia|done|]. apply (proj1 (Forall_forall _ _) Hf x). by eapply list_elem_of_lookup_2. }
  constructor; cbn [set_region mem_regions mmu_table].
  - apply Forall_insert; [apply Hi|done].
  - intros j k rj rk Hj Hk Hne. destruct (Hback _ _ Hj) as (yj & Hyj & Hfj & -> & _), (Hback _ _ Hk) as (yk & Hyk & Hfk & -> & _).
    destruct (inv_apart _ Hi j k yj yk Hyj Hyk Hne); lia.
  - intros x k Hx Hk. apply list_elem_of_lookup in Hx as [j Hj]. destruct (Hback _ _ Hj) as (y & Hy & Hfy & Hey & Hnx). unfold blocks. rewrite Hnx.
    split; [intros b Hin'; by apply elem_of_nil in Hin'|]. intros _. pose proof (list_elem_of_lookup_2 _ _ _ Hy) as Hyin.
    apply (inv_table _ Hi y k Hyin); [lia|]. unfold blocks. rewrite (proj1 (Forall_forall _ _) Hf y Hyin). intros b Hin'. by apply elem_of_nil in Hin'.
Qed.

(** ** Runs *)

(** The states that start-up code can leave, and those after requests. *)
Inductive started : mmu_ctx -> Prop :=
  | started_init irom_start irom_end drom_start drom_end t s :
      linked irom_start irom_end drom_start drom_end t ->
      esp_mmu_map_init irom_start irom_end drom_start drom_end g_mmu_mem_regions t = Some s -> started s
  | started_reserve s size c t err out s' :
      started s -> 0 < size <= 4294901760 -> esp_mmu_map_reserve_block_with_caps size c t s = (err, out, s') -> started s'.

Inductive reachable : mmu_ctx -> Prop :=
  | reach_start s : started s -> reachable s
  | reach_map s paddr size t c flags a err out s' :
      reachable s -> proper_request paddr size t -> allocated a s -> esp_mmu_map paddr size t c flags a s = Some (err, out, s') -> reachable s'
  | reach_unmap s ptr err s' : reachable s -> esp_mmu_unmap ptr s = Some (err, s') -> reachable s'.

Lemma started_fresh s : started s -> fresh s.
Proof.
  induction 1 as [i0 i1 d0 d1 t s Hl E|s size c t err out s' _ IH Hs E].
  - destruct (init_spec _ _ _ _ _ Hl) as (s1 & E1 & Hf). congruence.
  - by apply (reserve_spec size c t s err out s').
Qed.

Lemma reachable_inv s : reachable s -> inv s.
Proof.
  induction 1 as [s H|s paddr size t c flags a err out s' _ IH Hr Ha E|s ptr err s' _ IH E].
  - by apply started_fresh.
  - destruct (map_spec paddr size t c flags a s IH Hr Ha) as (e & o & s1 & E1 & H1 & _). congruence.
  - destruct (unmap_spec ptr s IH) as (e & s1 & E1 & H1 & _). congruence.
Qed.

Lemma reachable_wf s r : reachable s -> r ∈ mem_regions s -> region_wf r.
Proof. intros H Hr. apply (proj1 (Forall_forall _ _) (inv_regions _ (reachable_inv s H)) r Hr). Qed.

(** C35. The driver's data are well formed in every state that proper requests
    lead to, from the start-up code over reservations: requests of a size that
    is not 0 and does not wrap, of memory that the MMU can address
    ([proper_request]), for whose first one in a region the memory of the
    dummies is there ([allocated]), and any unmapping.  In each region the
    blocks are in order and do not overlap, lie in whole pages behind the
    reserved part, have the virtual addresses of their pages and valid physical
    ranges, the list has its two dummies, regions do not overlap, and
    [max_slot_size] is the length of the largest gap.  (Otherwise:
    [zero_size_mapping_aborts], [failed_first_mapping_dangles].) *)
Theorem mmu_state_wf (s : mmu_ctx) :
  reachable s ->
  Forall region_wf (mem_regions s) /\
  forall i j ri rj bi bj, mem_regions s !! i = Some ri -> mem_regions s !! j = Some rj -> bi ∈ blocks ri -> bj ∈ blocks rj -> bi <> bj ->
    laddr_end bi <= laddr_start bj \/ laddr_end bj <= laddr_start bi.
Proof.
  intros H. pose proof (reachable_inv s H) as Hi. split; [apply Hi|]. intros i j ri rj bi bj Hri Hrj Hbi Hbj Hne.
  pose proof (reachable_wf s ri H (list_elem_of_lookup_2 _ _ _ Hri)) as Hwi. pose proof (reachable_wf s rj H (list_elem_of_lookup_2 _ _ _ Hrj)) as Hwj.
  destruct (chain_member _ _ _ _ (rw_blocks _ Hwi) (rw_chain _ Hwi) Hbi), (chain_member _ _ _ _ (rw_blocks _ Hwj) (rw_chain _ Hwj) Hbj).
  destruct (decide (i = j)) as [<- |Hij]; [|destruct (inv_apart _ Hi i j ri rj Hri Hrj Hij); lia].
  assert (rj = ri) as -> by congruence. destruct (Z.le_gt_cases (laddr_end bi) (laddr_start bj)); [by left|].
  destruct (Z.le_gt_cases (laddr_end bj) (laddr_start bi)); [by right|]. exfalso. apply Hne.
  pose proof (proj1 (Forall_forall _ _) (rw_blocks _ Hwi) bi Hbi) as Wi. pose proof (proj1 (Forall_forall _ _) (rw_blocks _ Hwi) bj Hbj) as Wj.
  destruct (bw_size _ Wi), (bw_size _ Wj), (bw_laddr _ Wi), (bw_laddr _ Wj).
  apply (page_unique ri bi bj (Z.max (laddr_start bi) (laddr_start bj) / PAGE) Hwi Hbi Hbj); apply page_of_addr; done || lia.
Qed.

(** C25. In every state that proper requests lead to ([reachable]), every proper
    request for which the memory of the first dummies is there ([allocated]) is
    answered as [map_outcome] says, and every unmapping as [unmap_outcome] says,
    without a failed assertion and without an access to a freed node: a request
    gets the lowest free range of the first region that suits, is refused only
    for want of room or memory or for the overlaps that are reported, with the
    error that [map_outcome] gives for each (ESP_ERR_INVALID_STATE for a range
    inside a mapped one, whatever the flags), and changes nothing when it is
    refused. *)
Theorem mmu_requests_answered (s : mmu_ctx) (paddr size t c flags ptr : Z) (a : map_allocs) :
  reachable s -> proper_request paddr size t -> allocated a s ->
  (exists err out s', esp_mmu_map paddr size t c flags a s = Some (err, out, s') /\ map_outcome paddr size t c flags a s err out s') /\
  (exists err s', esp_mmu_unmap ptr s = Some (err, s') /\ unmap_outcome ptr s err s').
Proof.
  intros H Hr Ha. pose proof (reachable_inv s H) as Hi. split.
  - destruct (map_spec paddr size t c flags a s Hi Hr Ha) as (e & o & s1 & E1 & _ & H1). by exists e, o, s1.
  - destruct (unmap_spec ptr s Hi) as (e & s1 & E1 & _ & H1). by exists e, s1.
Qed.

(** C12. The hardware table translates exactly the mapped blocks: every address
    of a block, through the data or the instruction bus, gives the physical
    address at the same offset and the target of the request, and an address of
    the driver's regions that is in no block is reported as not mapped. *)
Theorem mapped_memory_translates (s : mmu_ctx) (r : mem_region) (l type : Z) :
  reachable s -> r ∈ mem_regions s -> in_range l r ->
  (forall b, b ∈ blocks r -> laddr_start b <= l < laddr_end b ->
     esp_mmu_vaddr_to_paddr (mmu_ll_laddr_to_vaddr l type) s = Some (ESP_OK, Some (paddr_start b + (l - laddr_start b), target b))) /\
  ((forall b, b ∈ blocks r -> ~ (laddr_start b <= l < laddr_end b)) ->
     esp_mmu_vaddr_to_paddr (mmu_ll_laddr_to_vaddr l type) s = Some (ESP_ERR_NOT_FOUND, None)).
Proof.
  intros H Hr [Hl1 Hl2]. pose proof (reachable_wf s r H Hr) as Hw. destruct (rw_bounds _ Hw), (rw_aligned _ Hw).
  rewrite vaddr_add by lia. rewrite translate_spec by lia.
  destruct (inv_table _ (reachable_inv s H) r (l / PAGE) Hr) as [T1 T2]; [Z.div_mod_to_equations; lia|]. split.
  - intros b Hb Hlb. pose proof (proj1 (Forall_forall _ _) (rw_blocks _ Hw) b Hb) as Hbw. rewrite (T1 b Hb (page_of_addr b l Hbw Hlb)). unfold entry.
    destruct (bw_size _ Hbw), (bw_laddr _ Hbw), (bw_paddr _ Hbw) as (P1 & P2 & P3 & P4).
    destruct (enc_flags (paddr_start b / PAGE + (l / PAGE - laddr_start b / PAGE)) (target b)) as (-> & -> & ->);
      [Z.div_mod_to_equations; lia|apply bw_target, Hbw|].
    do 4 f_equal; [Z.div_mod_to_equations; lia|]. by destruct (bw_target _ Hbw) as [-> | ->].
  - intros Hno. rewrite T2; [done|]. intros b Hb Hpage. pose proof (proj1 (Forall_forall _ _) (rw_blocks _ Hw) b Hb) as Hbw.
    destruct (bw_laddr _ Hbw), (bw_size _ Hbw). apply (Hno b Hb). unfold page_of, in_pages in Hpage. Z.div_mod_to_equations. lia.
Qed.
