(* ===== verification/MmuTrip.v ===== *)
(** * Round trips of the memory map, and the requests it does not survive *)

From S2P Require Import Prelude EspErr Mmu MmuProps MmuSpec MmuMap MmuUnmap MmuLife.

(** ** Physical to virtual and back *)

Definition hit (mmu_val t i : Z) (tbl : table) : Prop :=
  flag (tbl i) SOC_MMU_INVALID = false /\ (if flag (tbl i) SOC_MMU_TYPE then MMU_TARGET_PSRAM0 else MMU_TARGET_FLASH0) = t /\
  Z.land (tbl i) SOC_MMU_VALID_VAL_MASK = mmu_val.

Lemma find_entry_spec n i mmu_val t tbl :
  0 <= i -> i + Z.of_nat n <= 512 ->
  (find_entry n i mmu_val t tbl = Some None /\ forall j, i <= j < i + Z.of_nat n -> ~ hit mmu_val t j tbl) \/
  exists j, find_entry n i mmu_val t tbl = Some (Some j) /\ i <= j < i + Z.of_nat n /\ hit mmu_val t j tbl.
Proof.
  revert i. induction n as [|n IH]; intros i Hi Hn; cbn [find_entry]; [left; split; [done|lia]|].
  unfold mmu_ll_check_entry_valid, mmu_ll_get_entry_target, SOC_MMU_ENTRY_NUM. rewrite (proj2 (Z.ltb_lt _ _)) by lia.
  destruct (negb (flag (tbl i) SOC_MMU_INVALID) && _ && _) eqn:E.
  - right. exists i. split; [done|]. split; [lia|]. apply andb_true_iff in E as [E E3]. apply andb_true_iff in E as [E1 E2].
    split_and!; [by apply negb_true_iff|apply Z.eqb_eq in E2; rewrite <- E2; by destruct (flag (tbl i) SOC_MMU_TYPE)|lia].
  - assert (~ hit mmu_val t i tbl) as Hno.
    { intros (E1 & E2 & E3). rewrite E1, E3, Z.eqb_refl, andb_true_r in E. cbn [negb andb] in E. apply Z.eqb_neq in E. apply E. rewrite <- E2.
      by destruct (flag (tbl i) SOC_MMU_TYPE). }
    destruct (IH (i + 1)) as [[E1 H1]|(j & E1 & H1 & H2)]; [lia|lia| |].
    + left. split; [exact E1|]. intros j Hj. destruct (decide (j = i)) as [-> |]; [done|]. apply H1. lia.
    + right. exists j. split; [exact E1|]. split; [lia|done].
Qed.

(** The two translations agree: a physical address that is in a mapped block
    has a virtual address on either bus, and translating any address that
    [esp_mmu_paddr_to_vaddr] gives yields the physical address and the target
    again. *)
Theorem addresses_roundtrip (s : mmu_ctx) (paddr t type : Z) :
  reachable s -> 0 <= paddr < 1073741824 -> is_target t ->
  exists r, esp_mmu_paddr_to_vaddr paddr t type s = Some r /\
    match r.2 with
    | Some v => r.1 = ESP_OK /\ esp_mmu_vaddr_to_paddr v s = Some (ESP_OK, Some (paddr, t))
    | None => r.1 = ESP_ERR_NOT_FOUND /\ forall m b, m ∈ mem_regions s -> b ∈ blocks m -> target b = t -> ~ (paddr_start b <= paddr < paddr_end b)
    end.
Proof.
  intros H Hp Ht. unfold esp_mmu_paddr_to_vaddr, mmu_hal_paddr_to_vaddr.
  assert (mmu_ll_check_valid_paddr_region paddr 1 = true) as ->.
  { unfold mmu_ll_check_valid_paddr_region, MMU_PAGE_64KB, SOC_MMU_MAX_PADDR_PAGE_NUM. rewrite u32_id by lia. lia. }
  unfold mmu_ll_find_entry_id_based_on_map_value, mmu_ll_format_paddr. rewrite Z.shiftr_div_pow2 by lia. change (2 ^ 16) with PAGE.
  destruct (find_entry_spec (Z.to_nat SOC_MMU_ENTRY_NUM) 0 (paddr / PAGE) t (mmu_table s)) as [[E Hno]|(j & E & Hj & Hv & Htt & Hval)];
    [lia|done| |]; rewrite E; clear E.
  - eexists. split; [reflexivity|]. cbn [fst snd]. split; [done|]. intros m b Hm Hb Htb Hin.
    pose proof (reachable_wf s m H Hm) as Hw. pose proof (proj1 (Forall_forall _ _) (rw_blocks _ Hw) b Hb) as Hbw. destruct (rw_bounds _ Hw).
    destruct (bw_size _ Hbw), (bw_laddr _ Hbw), (bw_paddr _ Hbw) as (P1 & P2 & P3 & P4).
    destruct (chain_member _ _ _ _ (rw_blocks _ Hw) (rw_chain _ Hw) Hb). set (x := laddr_start b + (paddr - paddr_start b)).
    assert (page_of b (x / PAGE)) as Hpage by (apply page_of_addr; [done|unfold x; lia]).
    apply (Hno (x / PAGE)); [unfold x; change (Z.of_nat _) with 512; Z.div_mod_to_equations; lia|]. unfold hit.
    rewrite (proj1 (inv_table _ (reachable_inv s H) m (x / PAGE) Hm (page_member m b _ Hw Hb Hpage)) b Hb Hpage). unfold entry.
    replace (paddr_start b / PAGE + (x / PAGE - laddr_start b / PAGE)) with (paddr / PAGE) by (unfold x; Z.div_mod_to_equations; lia).
    rewrite Htb. destruct (enc_flags (paddr / PAGE) t) as (-> & -> & ->); [Z.div_mod_to_equations; lia|done|].
    split_and!; [done| |done]. by destruct Ht as [-> | ->].
  - change (Z.of_nat _) with 512 in Hj. unfold mmu_ll_entry_id_to_vaddr_base. rewrite Z.shiftl_mul_pow2 by lia. change (2 ^ 16) with PAGE.
    rewrite u32_id, vaddr_add by lia. rewrite (proj2 (Z.eqb_neq _ _)) by (destruct (vbase_cases type) as [-> | ->]; lia).
    rewrite pages_to_bytes_1. rewrite (lor_add _ _ 16); [|lia|apply Z.mod_pos_bound; lia|].
    2: { change (2 ^ 16) with PAGE. destruct (vbase_cases type) as [-> | ->]; Z.div_mod_to_equations; lia. }
    eexists. split; [reflexivity|]. cbn [fst snd]. split; [done|]. assert (0 <= paddr mod PAGE < PAGE) by (apply Z.mod_pos_bound; lia).
    rewrite <- Z.add_assoc, translate_spec by lia. replace ((j * PAGE + paddr mod PAGE) / PAGE) with j by (Z.div_mod_to_equations; lia).
    rewrite Hv, Hval, Htt. do 4 f_equal. Z.div_mod_to_equations. lia.
Qed.

(** ** Mapping and unmapping *)

Lemma split_unique {A} (b : A) l1 l2 k1 k2 : NoDup (l1 ++ b :: l2) -> l1 ++ b :: l2 = k1 ++ b :: k2 -> l1 ++ l2 = k1 ++ k2.
Proof.
  revert k1. induction l1 as [|x l1 IH]; intros [|y k1] Hnd E; cbn in *.
  - by injection E.
  - injection E as <- ->. apply NoDup_cons in Hnd as [Hn _]. destruct Hn. set_solver.
  - injection E as -> E. apply NoDup_cons in Hnd as [Hn _]. destruct Hn. set_solver.
  - injection E as <- E. apply NoDup_cons in Hnd as [_ Hnd]. f_equal. by apply IH.
Qed.

Lemma chain_nodup a l e : Forall block_wf l -> chain a l e -> NoDup l.
Proof.
  intros Hl. revert a. induction Hl as [|b l Hb Hl IH]; intros a Hc; [by apply NoDup_nil_2|]. destruct Hc as [_ Hc]. apply NoDup_cons. split; [|by apply (IH _ Hc)].
  intros Hin. destruct (chain_member _ _ _ _ Hl Hc Hin). destruct (bw_size _ Hb), (bw_laddr _ Hb). lia.
Qed.

(** Regions and table are the same for every later request and translation. *)
Definition same_map (s s' : mmu_ctx) : Prop :=
  length (mem_regions s') = length (mem_regions s) /\
  forall i r, mem_regions s !! i = Some r -> exists r', mem_regions s' !! i = Some r' /\
    same_range r r' /\ blocks r' = blocks r /\ max_slot_size r' = max_slot_size r /\
    forall k, free_head r <= k * PAGE < end_ r -> mmu_table s' k = mmu_table s k.

Lemma same_blocks_map s s' :
  inv s -> inv s' -> length (mem_regions s') = length (mem_regions s) ->
  (forall i r, mem_regions s !! i = Some r -> exists r', mem_regions s' !! i = Some r' /\ same_range r r' /\ blocks r' = blocks r) -> same_map s s'.
Proof.
  intros Hi Hi' Hlen H. split; [done|]. intros i r Hr. destruct (H i r Hr) as (r' & Hr' & [Ef Ee] & Eb). exists r'. split; [done|]. split; [done|]. split; [done|].
  pose proof (list_elem_of_lookup_2 _ _ _ Hr) as Hin. pose proof (list_elem_of_lookup_2 _ _ _ Hr') as Hin'. split.
  - rewrite (rw_slot r), (rw_slot r'), Ef, Ee, Eb; [done|apply (proj1 (Forall_forall _ _) (inv_regions _ Hi') r' Hin')|apply (proj1 (Forall_forall _ _) (inv_regions _ Hi) r Hin)].
  - intros k Hk. destruct (inv_table _ Hi r k Hin Hk) as [T1 T2]. destruct (inv_table _ Hi' r' k Hin') as [U1 U2]; [by rewrite Ef, Ee|]. rewrite Eb in U1, U2.
    assert (forall b, Decision (page_of b k)) as Hd by (intros b; unfold page_of; apply _).
    destruct (decide (Exists (fun b => page_of b k) (blocks r))) as [He|He].
    + apply Exists_exists in He as (b & Hb & Hpage). by rewrite (T1 b Hb Hpage), (U1 b Hb Hpage).
    + assert (forall b, b ∈ blocks r -> ~ page_of b k) as Hno by (intros b Hb Hpage; apply He, Exists_exists; by exists b). by rewrite T2, U2.
Qed.

(** C36. Unmapping takes back what mapping did: after a successful request,
    unmapping the address that it returned succeeds and gives the blocks, the
    free slots and the table entries that were there before. *)
Theorem map_unmap_roundtrip (s s1 : mmu_ctx) (paddr size t c flags v : Z) (a : map_allocs) :
  reachable s -> proper_request paddr size t -> allocated a s ->
  esp_mmu_map paddr size t c flags a s = Some (ESP_OK, Some v, s1) ->
  exists s2, esp_mmu_unmap v s1 = Some (ESP_OK, s2) /\ same_map s s2.
Proof.
  intros H Hr Ha E. pose proof (reachable_inv s H) as Hi. pose proof (reachable_inv s1 (reach_map _ _ _ _ _ _ _ _ _ _ H Hr Ha E)) as Hi1.
  destruct (map_spec paddr size t c flags a s Hi Hr Ha) as (e & o & s1' & E' & _ & Hout). rewrite E in E'. injection E' as <- <- <-.
  inversion Hout as [|r0 b0| | | |i r r' l1 l2 laddr tbl Hri _ _ _ [Hf1 He1] Eb Eb' Hfree _ Ev Es1]; subst; clear Hout.
  pose proof (lookup_lt_Some _ _ _ Hri) as Hlt. pose proof (reachable_wf s r H (list_elem_of_lookup_2 _ _ _ Hri)) as Hw. destruct (rw_bounds _ Hw).
  destruct Hfree as (F1 & F2 & _). destruct Hr as [Hsz _ _]. assert (0 < pages size) by (unfold pages; Z.div_mod_to_equations; lia).
  rewrite vaddr_of_add by lia. set (ty := if flag c _ then _ else _). set (s1 := MkCtx (<[i:=r']> (mem_regions s)) tbl) in *.
  assert (mem_regions s1 !! i = Some r') as Hr1 by (by apply list_lookup_insert_eq).
  destruct (unmap_spec (vbase ty + laddr) s1 Hi1) as (e & s2 & -> & Hi2 & Hout).
  set (nb := block_for paddr (pages size) t c laddr) in *. assert (nb ∈ blocks r') as Hnb by (rewrite Eb'; set_solver).
  inversion Hout as [|Hno|i2 r1 r2 k1 b k2 tbl2 Hr1' [Hf2 He2] Ek Ek' Hx _]; subst; clear Hout.
  - destruct (vbase_cases ty); lia.
  - exfalso. apply (Hno r' nb (list_elem_of_lookup_2 _ _ _ Hr1) Hnb). rewrite laddr_of by lia. done.
  - rewrite laddr_of in Hx by lia. eexists. split; [reflexivity|]. assert (b ∈ blocks r1) as Hb by (rewrite Ek; set_solver).
    assert (i = i2) as <-.
    { apply (block_region s1 i i2 r' r1 b Hi1 Hr1 Hr1' Hb). unfold in_range. lia. }
    assert (r1 = r') as -> by congruence. pose proof (proj1 (Forall_forall _ _) (inv_regions _ Hi1) r' (list_elem_of_lookup_2 _ _ _ Hr1)) as Hw1.
    assert (b = nb) as ->.
    { pose proof (proj1 (Forall_forall _ _) (rw_blocks _ Hw1) b Hb) as Hbw. pose proof (proj1 (Forall_forall _ _) (rw_blocks _ Hw1) nb Hnb) as Hnw.
      destruct (bw_size _ Hbw), (bw_laddr _ Hbw), (bw_size _ Hnw), (bw_laddr _ Hnw). change (laddr_start nb) with laddr in *.
      apply (page_unique r' b nb (laddr / PAGE) Hw1 Hb Hnb); apply page_of_addr; try done; change (laddr_start nb) with laddr; lia. }
    assert (l1 ++ l2 = k1 ++ k2) as Esplit.
    { apply (split_unique nb); [rewrite <- Eb'; apply (chain_nodup _ _ _ (rw_blocks _ Hw1) (rw_chain _ Hw1))|]. by rewrite <- Eb', Ek. }
    apply same_blocks_map; [done|done| |]; cbn [mem_regions]; unfold s1; cbn [mem_regions]; rewrite list_insert_insert_eq; [apply length_insert|].
    intros j rj Hj. destruct (decide (i = j)) as [<- |Hne].
    + exists r2. rewrite list_lookup_insert_eq by done. assert (rj = r) as -> by congruence. split; [done|]. split; [split; congruence|]. by rewrite Ek', <- Esplit.
    + exists rj. rewrite list_lookup_insert_ne by done. done.
Qed.

(** ** Runs *)

Definition no_table : table := fun _ => SOC_MMU_INVALID.
Definition demo_start : mmu_ctx :=
  default (MkCtx [] no_table) (esp_mmu_map_init 0x42020020 0x42058000 0x3C000020 0x3C018000 g_mmu_mem_regions no_table).
Definition all_ok : map_allocs := MkAllocs true true true.

Lemma demo_linked : linked 0x42020020 0x42058000 0x3C000020 0x3C018000 no_table.
Proof. constructor; [| | | |done]; split_and?; vm_compute; (reflexivity || discriminate). Qed.

Lemma demo_reachable : reachable demo_start.
Proof. apply reach_start. by apply (started_init _ _ _ _ _ _ demo_linked). Qed.

Lemma demo_request : proper_request 0x100000 100000 MMU_TARGET_FLASH0.
Proof. constructor; [lia|split; vm_compute; discriminate|by left]. Qed.

(** Two pages of flash for reading. *)
Definition demo_map : option (esp_err_t * option Z * mmu_ctx) := esp_mmu_map 0x100000 100000 MMU_TARGET_FLASH0 MMU_MEM_CAP_READ 0 all_ok demo_start.
Definition demo_mapped : mmu_ctx := match demo_map with Some (_, _, s) => s | None => demo_start end.
Definition demo_region : mem_region := default (hw_region 0 0 0 0 0) (head (mem_regions demo_mapped)).

Lemma demo_map_ok : demo_map = Some (ESP_OK, Some 0x3C060000, demo_mapped).
Proof. vm_compute. reflexivity. Qed.

Lemma demo_mapped_reachable : reachable demo_mapped.
Proof. eapply reach_map; [exact demo_reachable|exact demo_request| |exact demo_map_ok]. done. Qed.

Lemma mmu_state_wf_witness : Forall region_wf (mem_regions demo_mapped) /\ length (blocks demo_region) = 1%nat /\ max_slot_size demo_region = 0x1F80000.
Proof. split; [apply (mmu_state_wf demo_mapped demo_mapped_reachable)|split; vm_compute; reflexivity]. Defined.

Lemma mmu_requests_answered_witness :
  (exists err out s', demo_map = Some (err, out, s') /\ map_outcome 0x100000 100000 MMU_TARGET_FLASH0 MMU_MEM_CAP_READ 0 all_ok demo_start err out s') /\
  (exists err s', esp_mmu_unmap 0x3C060000 demo_start = Some (err, s') /\ unmap_outcome 0x3C060000 demo_start err s').
Proof. apply (mmu_requests_answered demo_start); [exact demo_reachable|exact demo_request|done]. Defined.

Lemma mapped_memory_translates_witness :
  exists b, b ∈ blocks demo_region /\
    esp_mmu_vaddr_to_paddr (mmu_ll_laddr_to_vaddr 0x70005 MMU_VADDR_INSTRUCTION) demo_mapped =
      Some (ESP_OK, Some (paddr_start b + (0x70005 - laddr_start b), target b)) /\
    paddr_start b + (0x70005 - laddr_start b) = 0x110005 /\
    esp_mmu_vaddr_to_paddr (mmu_ll_laddr_to_vaddr 0x80000 MMU_VADDR_DATA) demo_mapped = Some (ESP_ERR_NOT_FOUND, None).
Proof.
  assert (demo_region ∈ mem_regions demo_mapped) as Hr by (vm_compute; left).
  exists (block_for 0x100000 0x20000 MMU_TARGET_FLASH0 MMU_MEM_CAP_READ 0x60000). split; [vm_compute; left|]. split; [|split; [vm_compute; reflexivity|]].
  - apply (mapped_memory_translates demo_mapped demo_region 0x70005 MMU_VADDR_INSTRUCTION demo_mapped_reachable Hr).
    + vm_compute. split; [discriminate|reflexivity].
    + vm_compute. left.
    + vm_compute. split; [discriminate|reflexivity].
  - apply (mapped_memory_translates demo_mapped demo_region 0x80000 MMU_VADDR_DATA demo_mapped_reachable Hr).
    + vm_compute. split; [discriminate|reflexivity].
    + replace (blocks demo_region) with [block_for 0x100000 0x20000 MMU_TARGET_FLASH0 MMU_MEM_CAP_READ 0x60000] by (vm_compute; reflexivity).
      intros b Hb. apply list_elem_of_singleton in Hb as ->. cbn. lia.
Defined.

Lemma addresses_roundtrip_witness :
  exists r, esp_mmu_paddr_to_vaddr 0x110005 MMU_TARGET_FLASH0 MMU_VADDR_DATA demo_mapped = Some r /\ r = (ESP_OK, Some 0x3C070005) /\
    esp_mmu_vaddr_to_paddr 0x3C070005 demo_mapped = Some (ESP_OK, Some (0x110005, MMU_TARGET_FLASH0)).
Proof.
  destruct (addresses_roundtrip demo_mapped 0x110005 MMU_TARGET_FLASH0 MMU_VADDR_DATA demo_mapped_reachable) as (r & E & H); [lia|by left|].
  exists r. split; [exact E|]. vm_compute in E. injection E as <-. split; [reflexivity|]. apply H.
Defined.

Lemma map_unmap_roundtrip_witness :
  demo_map = Some (ESP_OK, Some 0x3C060000, demo_mapped) /\
  exists s2, esp_mmu_unmap 0x3C060000 demo_mapped = Some (ESP_OK, s2) /\ same_map demo_start s2.
Proof.
  split; [exact demo_map_ok|].
  apply (map_unmap_roundtrip demo_start demo_mapped 0x100000 100000 MMU_TARGET_FLASH0 MMU_MEM_CAP_READ 0 0x3C060000 all_ok demo_reachable demo_request); [done|exact demo_map_ok].
Defined.

(** Sizes that the rounding turns into 0. *)
Lemma align_zero size : size = 0 \/ 4294901760 < size < 4294967296 -> ALIGN_UP_BY size CONFIG_MMU_PAGE_SIZE = 0.
Proof.
  intros [-> |H]; [done|]. unfold ALIGN_UP_BY. change (CONFIG_MMU_PAGE_SIZE - 1) with 65535 at 1.
  replace (u32 (size + 65535)) with (size + 65535 - 4294967296) by (unfold uN; apply (Z.mod_unique _ _ 1); [left|]; lia).
  rewrite land_pages by lia. rewrite Z.div_small by lia. done.
Qed.

(** A size of 0, and every size above 2^32 - 65536, whose rounding wraps to 0,
    is accepted: the request returns [ESP_OK] with a block of no pages in front
    of the first dummy, and unmapping the address that was returned stops the
    system with a failed assertion, since the dummy is taken for the block. *)
Theorem zero_size_mapping_aborts (size : Z) :
  size = 0 \/ 4294901760 < size < 4294967296 ->
  exists s, esp_mmu_map 0x100000 size MMU_TARGET_FLASH0 MMU_MEM_CAP_READ 0 all_ok demo_start = Some (ESP_OK, Some 0x3C060000, s) /\
    esp_mmu_unmap 0x3C060000 s = None.
Proof.
  intros H. unfold esp_mmu_map. rewrite (align_zero size H). change (0x100000 mod CONFIG_MMU_PAGE_SIZE) with 0.
  eexists. split; [vm_compute; reflexivity|]. vm_compute. reflexivity.
Qed.

Lemma zero_size_mapping_aborts_witness :
  exists s, esp_mmu_map 0x100000 0xFFFF0001 MMU_TARGET_FLASH0 MMU_MEM_CAP_READ 0 all_ok demo_start = Some (ESP_OK, Some 0x3C060000, s) /\
    esp_mmu_unmap 0x3C060000 s = None.
Proof. apply (zero_size_mapping_aborts 0xFFFF0001). right. lia. Defined.

(** When the allocation of the first block of a region fails, the error path
    frees the two dummies but leaves them in the list: the next request, and
    every other function that walks over the list, reads freed memory. *)
Theorem failed_first_mapping_dangles (tail : bool) :
  exists s, esp_mmu_map 0x100000 100000 MMU_TARGET_FLASH0 MMU_MEM_CAP_READ 0 (MkAllocs true tail false) demo_start = Some (ESP_ERR_NO_MEM, None, s) /\
    esp_mmu_map 0x100000 100000 MMU_TARGET_FLASH0 MMU_MEM_CAP_READ 0 all_ok s = None /\ esp_mmu_unmap 0x3C060000 s = None /\
    esp_mmu_paddr_find_caps 0x100000 s = None.
Proof. destruct tail; eexists; (split; [vm_compute; reflexivity|]); vm_compute; done. Qed.
