(* ===== verification/BootFlash.v ===== *)
(** * How the bootloader reads the flash

    Source: [bootloader_support/bootloader_flash/src/bootloader_flash.c], the
    version of the bootloader of the ESP32-S3.  The bootloader has no flash
    driver of its own: it moves windows of the MMU table ([Mmu]) over the flash
    and reads through the cache, which also decrypts.  One page, the last one,
    is the window of [bootloader_flash_read]; [bootloader_mmap] maps from the
    first page on.  The cache is disabled and enabled around each change of the
    table, so that reads see the new table.

    [FlashPort] is what [Image] uses of these functions and [FlashPortSpec]
    what it relies on; [boot_port_spec] proves it for the definitions of this
    file. *)

From S2P Require Import Prelude EspErr Mmu MmuProps.

Definition SPI_FLASH_MMU_PAGE_SIZE : Z := CONFIG_MMU_PAGE_SIZE.
Definition MMU_FLASH_MASK : Z := u32 (Z.lnot (SPI_FLASH_MMU_PAGE_SIZE - 1)).
Definition MMU_BLOCK0_VADDR : Z := 0x3C000000.
Definition MMU_TOTAL_SIZE : Z := SOC_DRAM0_CACHE_ADDRESS_HIGH - SOC_DRAM0_CACHE_ADDRESS_LOW.
Definition MMU_END_VADDR : Z := MMU_BLOCK0_VADDR + MMU_TOTAL_SIZE.
Definition FLASH_READ_VADDR : Z := MMU_END_VADDR - CONFIG_MMU_PAGE_SIZE.
Definition MMAP_MMU_SIZE : Z := MMU_TOTAL_SIZE.
Definition MMU_FREE_PAGES : Z := MMAP_MMU_SIZE / CONFIG_MMU_PAGE_SIZE.
Definition FLASH_MMAP_VADDR : Z := MMU_BLOCK0_VADDR.

(** ** The interface

    An operation is [None] if it stops the system.  [map] gives the address of
    the mapping ([None] is the null pointer), [byte] what the processor reads
    at an address. *)

Class FlashPort (S : Type) := {
  read : Z -> Z -> S -> option (esp_err_t * list Z * S);
  free_pages : Z;
  map : Z -> Z -> S -> option (option Z * S);
  byte : Z -> S -> option Z;
  unmap : S -> option S
}.

(** What can be addressed, and the condition under which the operations work:
    nothing is mapped. *)
Class FlashPortSpec (S : Type) `{FlashPort S} (cells : mem) := {
  limit : Z;
  ready : S -> Prop;
  mapped_at : Z -> Z -> Z -> S -> Prop;
  limit_32 : 0 <= limit < 4294967296;
  pages_bounds : 1 < free_pages < 65536;
  read_aligned s a n : ready s -> 0 <= a -> 0 <= n -> a mod 4 = 0 -> n mod 4 = 0 -> a + n <= limit ->
    exists s', read a n s = Some (ESP_OK, load_bytes cells a n, s') /\ ready s';
  read_unaligned s a n : a mod 4 <> 0 -> read a n s = Some (ESP_FAIL, [], s);
  map_ok s a n : ready s -> 0 <= a -> 0 < n -> a mod 4 = 0 -> a + n <= limit ->
    n + a mod SPI_FLASH_MMU_PAGE_SIZE <= free_pages * SPI_FLASH_MMU_PAGE_SIZE ->
    exists p s', map a n s = Some (Some p, s') /\ mapped_at p a n s';
  byte_mapped s p a n i : mapped_at p a n s -> 0 <= i < n -> byte (p + i) s = Some (cells (a + i));
  unmap_ready s p a n : mapped_at p a n s -> exists s', unmap s = Some s' /\ ready s'
}.

(** ** The functions *)

Record bflash := MkBflash {
  boot_table : table;
  mapped : bool;
  current_mapped_size : Z;
  current_read_mapping : Z
}.

Section boot_flash.
Context (cells : mem).

(** A load from the address space of the cache. *)
Definition cache_byte (vaddr : Z) (s : bflash) : option Z :=
  let? r := mmu_hal_vaddr_to_paddr vaddr (boot_table s) in
  match r with
  | Some (paddr, target) => if target =? MMU_TARGET_FLASH0 then Some (cells paddr) else None
  | None => None
  end.

Fixpoint cache_bytes (n : nat) (vaddr : Z) (s : bflash) : option (list Z) :=
  match n with
  | O => Some []
  | S n => let? b := cache_byte vaddr s in let? bs := cache_bytes n (vaddr + 1) s in Some (b :: bs)
  end.

(** The page that is moved for reads. *)
Definition move_window (map_at : Z) (s : bflash) : option bflash :=
  if map_at =? current_read_mapping s then Some s
  else
    let? t := mmu_hal_map_region MMU_TARGET_FLASH0 FLASH_READ_VADDR map_at (SPI_FLASH_MMU_PAGE_SIZE - 1) (boot_table s) in
    Some (MkBflash t (mapped s) (current_mapped_size s) map_at).

(** The loop from [word] on, [n] words; the words are given as bytes. *)
Fixpoint read_words (n : nat) (word src_addr : Z) (s : bflash) : option (list Z * bflash) :=
  match n with
  | O => Some ([], s)
  | S n =>
      let word_src := u32 (src_addr + word * 4) in
      let map_at := Z.land word_src MMU_FLASH_MASK in
      let? s := move_window map_at s in
      let? bs := cache_bytes 4 (FLASH_READ_VADDR + (word_src - map_at)) s in
      let s := MkBflash (boot_table s) (mapped s) (current_mapped_size s) 0xFFFFFFFF in
      let? (rest, s) := read_words n (word + 1) src_addr s in
      Some (bs ++ rest, s)
  end.

Definition bootloader_flash_read_allow_decrypt (src_addr size : Z) (s : bflash) : option (esp_err_t * list Z * bflash) :=
  let? (bs, s) := read_words (Z.to_nat (size / 4)) 0 src_addr s in Some (ESP_OK, bs, s).

(** With [allow_decrypt]; the destination is aligned. *)
Definition bootloader_flash_read (src_addr size : Z) (s : bflash) : option (esp_err_t * list Z * bflash) :=
  if flag src_addr 3 || flag size 3 then Some (ESP_FAIL, [], s)
  else bootloader_flash_read_allow_decrypt src_addr size s.

Definition bootloader_mmap_get_free_pages : Z := MMU_FREE_PAGES.

Definition bootloader_mmap (src_paddr size : Z) (s : bflash) : option (option Z * bflash) :=
  if mapped s then Some (None, s)
  else if size >? MMAP_MMU_SIZE then Some (None, s)
  else
    let src_paddr_aligned := Z.land src_paddr MMU_FLASH_MASK in
    let size_after_paddr_aligned := u32 (src_paddr - src_paddr_aligned + size) in
    if negb (mmu_ll_check_valid_ext_vaddr_region FLASH_MMAP_VADDR size_after_paddr_aligned ANY_VADDR) then Some (None, s)
    else
      let? t := mmu_hal_map_region MMU_TARGET_FLASH0 FLASH_MMAP_VADDR src_paddr_aligned size_after_paddr_aligned (boot_table s) in
      let actual_mapped_len := u32 (Z.of_nat (page_count size_after_paddr_aligned) * CONFIG_MMU_PAGE_SIZE) in
      Some (Some (FLASH_MMAP_VADDR + (src_paddr - src_paddr_aligned)), MkBflash t true actual_mapped_len (current_read_mapping s)).

Definition bootloader_munmap (s : bflash) : option bflash :=
  if mapped s then
    let? t := mmu_ll_unmap_all (boot_table s) in Some (MkBflash t false 0 (current_read_mapping s))
  else Some s.

#[export] Instance boot_port : FlashPort bflash := {
  read := bootloader_flash_read;
  free_pages := bootloader_mmap_get_free_pages;
  map := bootloader_mmap;
  byte := cache_byte;
  unmap := bootloader_munmap
}.

End boot_flash.

(** ** The windows show the flash *)

Definition FLASH_LIMIT : Z := 0x40000000.

(** A region of the table over the pages that hold [p .. p + n - 1]. *)
Lemma window_mapped l p n t :
  0 <= l -> l mod PAGE = 0 -> 0 < n -> l + n <= 33554432 -> 0 <= p -> p mod PAGE = 0 -> p + n <= FLASH_LIMIT ->
  exists t', mmu_hal_map_region MMU_TARGET_FLASH0 (vbase MMU_VADDR_DATA + l) p n t = Some t' /\
    forall i, 0 <= i < (n + 65535) / PAGE * PAGE ->
      mmu_hal_vaddr_to_paddr (vbase MMU_VADDR_DATA + l + i) t' = Some (Some (p + i, MMU_TARGET_FLASH0)).
Proof.
  unfold FLASH_LIMIT. intros Hl Hal Hn Hln Hp Hap Hpn. unfold mmu_hal_map_region. rewrite pages_to_bytes_1.
  assert ((vbase MMU_VADDR_DATA + l) mod PAGE = 0) as E1 by (change (vbase _) with 0x3C000000; Z.div_mod_to_equations; lia).
  rewrite (proj2 (Z.eqb_eq _ _) E1), (proj2 (Z.eqb_eq _ _) Hap), valid_vaddr by lia.
  assert (mmu_ll_check_valid_paddr_region p n = true) as ->.
  { unfold mmu_ll_check_valid_paddr_region, MMU_PAGE_64KB, SOC_MMU_MAX_PADDR_PAGE_NUM. rewrite u32_id by lia. lia. }
  assert (page_count n = Z.to_nat ((n + 65535) / PAGE)) as ->.
  { unfold page_count. rewrite pages_to_bytes_1. rewrite u32_id by lia. do 2 f_equal. lia. }
  assert (mmu_ll_format_paddr p = p / PAGE) as -> by (unfold mmu_ll_format_paddr; by rewrite Z.shiftr_div_pow2).
  destruct (map_pages_spec (Z.to_nat ((n + 65535) / PAGE)) l MMU_VADDR_DATA (p / PAGE) MMU_TARGET_FLASH0 t) as (t' & E & Ht);
    [lia|done|Z.div_mod_to_equations; lia..|].
  exists t'. split; [exact E|]. intros i Hi. rewrite <- Z.add_assoc, hal_translate by (Z.div_mod_to_equations; lia).
  rewrite Ht, Z2Nat.id by (Z.div_mod_to_equations; lia).
  destruct (Z.leb_spec (l / PAGE) ((l + i) / PAGE)); [|Z.div_mod_to_equations; lia].
  destruct (Z.ltb_spec ((l + i) / PAGE) (l / PAGE + (n + 65535) / PAGE)); [|Z.div_mod_to_equations; lia]. cbn [andb].
  destruct (enc_flags (p / PAGE + ((l + i) / PAGE - l / PAGE)) MMU_TARGET_FLASH0) as (-> & -> & ->);
    [Z.div_mod_to_equations; lia|by left|]. cbn.
  do 3 f_equal. Z.div_mod_to_equations. lia.
Qed.

Lemma flag3 a : flag a 3 = negb (a mod 4 =? 0).
Proof. unfold flag. change 3 with (Z.ones 2). by rewrite Z.land_ones. Qed.

Lemma page_mask a : 0 <= a < 4294967296 -> Z.land a MMU_FLASH_MASK = a / PAGE * PAGE.
Proof. apply land_pages. Qed.

Section boot_flash_props.
Context (cells : mem).

Definition boot_ready (s : bflash) : Prop := mapped s = false /\ current_read_mapping s = 0xFFFFFFFF.

Definition boot_mapped_at (p a n : Z) (s : bflash) : Prop :=
  mapped s = true /\ current_read_mapping s = 0xFFFFFFFF /\ forall i, 0 <= i < n -> cache_byte cells (p + i) s = Some (cells (a + i)).

Lemma cache_bytes_4 a b s :
  (forall i, 0 <= i < 4 -> cache_byte cells (a + i) s = Some (cells (b + i))) ->
  cache_bytes cells 4 a s = Some (load_bytes cells b 4).
Proof.
  intros H. cbn [cache_bytes]. rewrite <- !Z.add_assoc. rewrite <- (Z.add_0_r a) at 1. rewrite !H by lia. done.
Qed.

Lemma read_words_spec n k src s :
  boot_ready s -> 0 <= src -> src mod 4 = 0 -> 0 <= k -> src + (k + Z.of_nat n) * 4 <= FLASH_LIMIT ->
  exists s', read_words cells n k src s = Some (load_bytes cells (src + k * 4) (Z.of_nat n * 4), s') /\ boot_ready s'.
Proof.
  unfold FLASH_LIMIT. intros Hr Hs Ha. revert k s Hr. induction n as [|n IH]; intros k s Hr Hk Hl; cbn [read_words].
  - exists s. split; [|done]. by rewrite load_bytes_0 by lia.
  - rewrite u32_id by lia. rewrite page_mask by lia. set (w := src + k * 4). unfold move_window. destruct Hr as [Hm Hc].
    rewrite Hc, (proj2 (Z.eqb_neq _ _)) by (Z.div_mod_to_equations; lia).
    destruct (window_mapped 33488896 (w / PAGE * PAGE) 65535 (boot_table s)) as (t & Et & Ht);
      try (unfold FLASH_LIMIT; Z.div_mod_to_equations; lia).
    change (mmu_hal_map_region MMU_TARGET_FLASH0 FLASH_READ_VADDR (w / 65536 * 65536) (SPI_FLASH_MMU_PAGE_SIZE - 1) (boot_table s))
      with (mmu_hal_map_region MMU_TARGET_FLASH0 (vbase MMU_VADDR_DATA + 33488896) (w / 65536 * 65536) 65535 (boot_table s)).
    rewrite Et. cbn [boot_table mapped current_mapped_size].
    rewrite (cache_bytes_4 _ w).
    2:{ intros i Hi. unfold cache_byte. cbn [boot_table]. change FLASH_READ_VADDR with (vbase MMU_VADDR_DATA + 33488896).
      rewrite <- Z.add_assoc, Ht by (change ((65535 + 65535) / 65536 * 65536) with 65536; subst w; Z.div_mod_to_equations; lia).
      cbn. do 2 f_equal. lia. }
    match goal with |- context [read_words cells n (k + 1) src ?s1] => destruct (IH (k + 1) s1) as (s' & -> & Hr'); [done|lia|lia|] end.
    exists s'. split; [|done]. do 2 f_equal.
    replace (src + (k + 1) * 4) with (w + 4) by (subst w; lia). rewrite <- load_bytes_app by lia. f_equal. lia.
Qed.

Lemma invalidate_total n i t : i + Z.of_nat n <= 512 -> is_Some (invalidate n i t).
Proof.
  revert i t. induction n as [|n IH]; intros i t H; cbn [invalidate]; [by eexists|].
  unfold mmu_ll_set_entry_invalid, SOC_MMU_ENTRY_NUM. rewrite (proj2 (Z.ltb_lt _ _)) by lia. apply IH. lia.
Qed.

Lemma boot_map_ok s a n :
  boot_ready s -> 0 <= a -> 0 < n -> a + n <= FLASH_LIMIT ->
  n + a mod SPI_FLASH_MMU_PAGE_SIZE <= MMU_FREE_PAGES * SPI_FLASH_MMU_PAGE_SIZE ->
  exists p s', bootloader_mmap a n s = Some (Some p, s') /\ boot_mapped_at p a n s'.
Proof.
  intros [Hm Hc] Ha Hn Hl Hf. change (MMU_FREE_PAGES * SPI_FLASH_MMU_PAGE_SIZE) with 33554432 in Hf.
  change SPI_FLASH_MMU_PAGE_SIZE with PAGE in Hf. unfold FLASH_LIMIT in Hl. unfold bootloader_mmap.
  assert (0 <= a mod PAGE) by (apply Z.mod_pos_bound; lia).
  rewrite Hm, Z.gtb_ltb, (proj2 (Z.ltb_ge _ _)) by (change MMAP_MMU_SIZE with 33554432; lia).
  rewrite page_mask by lia. replace (a - a / PAGE * PAGE) with (a mod PAGE) by (Z.div_mod_to_equations; lia). rewrite u32_id by lia.
  change FLASH_MMAP_VADDR with (vbase MMU_VADDR_DATA + 0). rewrite valid_vaddr by lia. cbn [negb].
  destruct (window_mapped 0 (a / PAGE * PAGE) (a mod PAGE + n) (boot_table s)) as (t & -> & Ht);
    try (unfold FLASH_LIMIT; Z.div_mod_to_equations; lia).
  do 2 eexists. split; [done|]. split; [done|]. split; [done|]. intros i Hi. unfold cache_byte. cbn [boot_table].
  rewrite <- Z.add_assoc, Ht by (Z.div_mod_to_equations; lia). cbn. do 2 f_equal. Z.div_mod_to_equations. lia.
Qed.

#[export] Program Instance boot_port_spec : @FlashPortSpec bflash (boot_port cells) cells := {
  limit := FLASH_LIMIT;
  ready := boot_ready;
  mapped_at := boot_mapped_at
}.
Next Obligation. done. Qed.
Next Obligation. done. Qed.
Next Obligation.
  intros s a n Hr Ha Hn Ha4 Hn4 Hl. cbn. unfold bootloader_flash_read, bootloader_flash_read_allow_decrypt.
  rewrite !flag3, Ha4, Hn4. cbn [Z.eqb negb orb].
  destruct (read_words_spec (Z.to_nat (n / 4)) 0 a s) as (s' & -> & Hr'); [done|lia|done|lia|Z.div_mod_to_equations; lia|].
  exists s'. split; [|done]. do 3 f_equal. f_equal; Z.div_mod_to_equations; lia.
Qed.
Next Obligation.
  intros s a n Ha. cbn. unfold bootloader_flash_read. by rewrite flag3, (proj2 (Z.eqb_neq _ _) Ha).
Qed.
Next Obligation. intros s a n Hr Ha Hn _ Hl Hf. by apply boot_map_ok. Qed.
Next Obligation. intros s p a n i (_ & _ & H) Hi. by apply H. Qed.
Next Obligation.
  intros s p a n (Hm & Hc & _). cbn. unfold bootloader_munmap. rewrite Hm.
  destruct (invalidate_total (Z.to_nat SOC_MMU_ENTRY_NUM) 0 (boot_table s)) as [t Et]; [done|].
  unfold mmu_ll_unmap_all. rewrite Et. by eexists.
Qed.

(** Whatever is read is bytes, also outside of what can be addressed. *)
Lemma cache_bytes_are_bytes n a s bs : (forall x, 0 <= cells x < 256) -> cache_bytes cells n a s = Some bs -> Forall (fun b => 0 <= b < 256) bs.
Proof.
  intros Hc. revert a bs. induction n as [|n IH]; intros a bs; cbn [cache_bytes]; [by intros [= <-]|].
  destruct (cache_byte cells a s) as [b|] eqn:Eb; [|done]. destruct (cache_bytes cells n (a + 1) s) as [l|] eqn:El; [|done]. intros [= <-].
  constructor; [|by eapply IH]. unfold cache_byte in Eb. destruct (mmu_hal_vaddr_to_paddr _ _) as [[[x t]|]|]; [|done..].
  destruct (t =? MMU_TARGET_FLASH0); [|done]. by injection Eb as <-.
Qed.

Lemma read_words_are_bytes n k a s bs s' : (forall x, 0 <= cells x < 256) -> read_words cells n k a s = Some (bs, s') -> Forall (fun b => 0 <= b < 256) bs.
Proof.
  intros Hc. revert k s bs s'. induction n as [|n IH]; intros k s bs s'; cbn [read_words]; [by intros [= <- _]|]. destruct (move_window _ s) as [s2|]; [|done].
  destruct (cache_bytes cells 4 _ s2) as [l1|] eqn:E1; [|done]. destruct (read_words cells n (k + 1) a _) as [[l2 s3]|] eqn:E2; [|done].
  intros [= <- _]. apply Forall_app. split; [by eapply cache_bytes_are_bytes|by eapply IH].
Qed.

Lemma boot_reads_bytes a n s err bs s' : (forall x, 0 <= cells x < 256) -> bootloader_flash_read cells a n s = Some (err, bs, s') ->
  Forall (fun b => 0 <= b < 256) bs.
Proof.
  intros Hc. unfold bootloader_flash_read. destruct (_ || _); [by intros [= _ <- _]|]. unfold bootloader_flash_read_allow_decrypt.
  destruct (read_words cells _ 0 a s) as [[l s1]|] eqn:Er; [|done]. intros [= _ <- _]. by eapply read_words_are_bytes.
Qed.

End boot_flash_props.
