(* ===== verification/Image.v ===== *)
(** * Verifying and loading an image

    Sources: [bootloader_support/src/esp_image_format.c], the checks of an image
    header in [bootloader_support/src/bootloader_common_loader.c], and the
    structures of [esp_app_format.h] and [esp_image_format.h], for the
    ESP32-S3 without signatures ([SECURE_BOOT_CHECK_SIGNATURE] 0).

    [load_state] has what the functions share: the access to the flash, the RAM,
    the words that hide loaded code until it is verified, the metadata of the
    image, the open hash (the bytes hashed so far) and the checksum ([None] for
    the null pointer).  An operation ([M]) ends with an error or a value; [None]
    is a failed assertion, an access to memory that is not there or a loop that
    does not end.  [silent] only affects what is printed and is left out;
    pointers given by callers are not null.  RAM that is reachable through both
    buses is one memory ([phys]). *)

From S2P Require Import Prelude EspErr Flash PartTable OtaData Mmu BootFlash.

(** ** Errors and state

    [let! x := m in k] is [CHECK_ERR]: an error of [m] ends the function. *)

Definition M (st A : Type) : Type := st -> option ((esp_err_t + A) * st).

Section monad.
Context {st : Type}.
Definition ret {A} (a : A) : M st A := fun s => Some (inr a, s).
Definition throw {A} (err : esp_err_t) : M st A := fun s => Some (inl err, s).
Definition stop {A} : M st A := fun _ => None.
Definition bind {A B} (m : M st A) (k : A -> M st B) : M st B := fun s =>
  match m s with
  | None => None
  | Some (inl err, s) => Some (inl err, s)
  | Some (inr a, s) => k a s
  end.
Definition get {A} (f : st -> A) : M st A := fun s => Some (inr (f s), s).
Definition modify (f : st -> st) : M st unit := fun s => Some (inr tt, f s).
Definition given {A} (o : option A) : M st A := match o with Some a => ret a | None => stop end.
Definition when (b : bool) (m : M st unit) : M st unit := if b then m else ret tt.
Definition check (b : bool) (err : esp_err_t) : M st unit := if b then ret tt else throw err.
End monad.

Notation "'let!' x := m 'in' k" := (bind m (fun x => k))
  (at level 10, x pattern, m at level 100, k at level 200) : cmodel_scope.
Notation "'do!' m ; k" := (bind m (fun _ => k))
  (at level 10, m at level 100, k at level 200) : cmodel_scope.

(** ** The format *)

Definition ESP_ERR_IMAGE_BASE : Z := 0x2000.
Definition ESP_ERR_IMAGE_INVALID : esp_err_t := ESP_ERR_IMAGE_BASE + 2.
Definition ESP_IMAGE_MAX_SEGMENTS : Z := 16.
Definition ESP_IMAGE_HASH_LEN : Z := 32.
Definition HASH_LEN : Z := ESP_IMAGE_HASH_LEN.
Definition ESP_CHIP_ID_ESP32S3 : Z := 0x0009.
Definition ESP_IMAGE_MAX_FLASH_ADDR_SIZE : Z := 0xFFFFFFFF.
Definition ESP_ROM_CHECKSUM_INITIAL : Z := 0xEF.
Definition STACK_LOAD_HEADROOM : Z := 32768.
Definition ROM_STACK_START : Z := 0x3fceb710.
Definition ESP_PRIMARY_BOOTLOADER_OFFSET : Z := 0.
Definition ESP_PARTITION_TABLE_OFFSET : Z := 0x8000.
Definition ESP_BOOTLOADER_SIZE : Z := ESP_PARTITION_TABLE_OFFSET - ESP_PRIMARY_BOOTLOADER_OFFSET.

(** The packed header as its 24 bytes; little-endian fields of byte strings. *)
Definition esp_image_header_t : Type := list Z.
Definition sizeof_header : Z := 24.
Definition at8 (bs : list Z) (i : nat) : Z := default 0 (bs !! i).
Definition at16 (bs : list Z) (i : nat) : Z := at8 bs i + 256 * at8 bs (i + 1).
Definition at32 (bs : list Z) (i : nat) : Z := at16 bs i + 65536 * at16 bs (i + 2).
Definition h_magic (h : esp_image_header_t) : Z := at8 h 0.
Definition segment_count (h : esp_image_header_t) : Z := at8 h 1.
Definition entry_addr (h : esp_image_header_t) : Z := at32 h 4.
Definition chip_id (h : esp_image_header_t) : Z := at16 h 12.
Definition min_chip_rev_full (h : esp_image_header_t) : Z := at16 h 15.
Definition max_chip_rev_full (h : esp_image_header_t) : Z := at16 h 17.
Definition hash_appended (h : esp_image_header_t) : bool := negb (at8 h 23 =? 0).

Record esp_image_segment_header_t := MkSegment { load_addr : Z; data_len : Z }.
Definition sizeof_segment_header : Z := 8.
Definition segment_header (bs : list Z) : esp_image_segment_header_t := MkSegment (at32 bs 0) (at32 bs 4).

Record esp_image_metadata_t := MkMeta {
  start_addr : Z;
  image : esp_image_header_t;
  segments : list esp_image_segment_header_t;
  segment_data : list Z;
  image_len : Z;
  image_digest : list Z;
  meta_secure_version : Z;
  mmu_page_size : Z
}.

(** [bzero(data, sizeof(esp_image_metadata_t))]. *)
Definition zero_meta : esp_image_metadata_t :=
  MkMeta 0 (replicate 24 0) (replicate 16 (MkSegment 0 0)) (replicate 16 0) 0 (replicate 32 0) 0 0.

Definition set_start_addr a d := MkMeta a (image d) (segments d) (segment_data d) (image_len d) (image_digest d) (meta_secure_version d) (mmu_page_size d).
Definition set_image h d := MkMeta (start_addr d) h (segments d) (segment_data d) (image_len d) (image_digest d) (meta_secure_version d) (mmu_page_size d).
Definition set_segments l d := MkMeta (start_addr d) (image d) l (segment_data d) (image_len d) (image_digest d) (meta_secure_version d) (mmu_page_size d).
Definition set_segment_data l d := MkMeta (start_addr d) (image d) (segments d) l (image_len d) (image_digest d) (meta_secure_version d) (mmu_page_size d).
Definition set_image_len n d := MkMeta (start_addr d) (image d) (segments d) (segment_data d) n (image_digest d) (meta_secure_version d) (mmu_page_size d).
Definition set_image_digest l d := MkMeta (start_addr d) (image d) (segments d) (segment_data d) (image_len d) l (meta_secure_version d) (mmu_page_size d).
Definition set_meta_secure_version v d := MkMeta (start_addr d) (image d) (segments d) (segment_data d) (image_len d) (image_digest d) v (mmu_page_size d).
Definition set_mmu_page_size n d := MkMeta (start_addr d) (image d) (segments d) (segment_data d) (image_len d) (image_digest d) (meta_secure_version d) n.

Inductive esp_image_load_mode_t :=
  ESP_IMAGE_VERIFY | ESP_IMAGE_VERIFY_SILENT | ESP_IMAGE_LOAD | ESP_IMAGE_LOAD_NO_VALIDATE.

Definition is_load (mode : esp_image_load_mode_t) : bool :=
  match mode with ESP_IMAGE_LOAD | ESP_IMAGE_LOAD_NO_VALIDATE => true | _ => false end.
Definition is_verify (mode : esp_image_load_mode_t) : bool :=
  match mode with ESP_IMAGE_LOAD_NO_VALIDATE => false | _ => true end.

(** Configuration, eFuses, the state of the chip, the linker's symbols, and
    SHA-256 with the outcome of allocating its context. *)
Record env := MkEnv {
  bootloader_build : bool;
  anti_rollback : bool;
  skip_validate : bool;
  s_bootloader_partition_offset : Z;
  esp_cpu_dbgr_is_attached : bool;
  deep_sleep_reset : bool;
  efuse_hal_chip_revision : Z;
  efuse_hal_blk_version : Z;
  efuse_hal_get_disable_wafer_version_major : bool;
  efuse_hal_get_disable_blk_version_major : bool;
  efuse_size : Z;
  efuse_bits : Z;
  sha256 : list Z -> list Z;
  sha_available : bool;
  esp_cpu_get_sp : Z;
  dram_start : Z;
  dram_end : Z;
  loader_text_start : Z;
  loader_text_end : Z
}.

(** ** The memory of the ESP32-S3 *)

Definition SOC_DROM_LOW : Z := 0x3C000000.
Definition SOC_DROM_HIGH : Z := 0x3E000000.
Definition SOC_IROM_LOW : Z := 0x42000000.
Definition SOC_IROM_HIGH : Z := 0x44000000.
Definition SOC_IRAM_LOW : Z := 0x40370000.
Definition SOC_IRAM_HIGH : Z := 0x403E0000.
Definition SOC_DRAM_LOW : Z := 0x3FC88000.
Definition SOC_DRAM_HIGH : Z := 0x3FD00000.
Definition SOC_RTC_IRAM_LOW : Z := 0x600FE000.
Definition SOC_RTC_IRAM_HIGH : Z := 0x60100000.
Definition SOC_RTC_DRAM_LOW : Z := 0x600FE000.
Definition SOC_RTC_DRAM_HIGH : Z := 0x60100000.
Definition SOC_RTC_DATA_LOW : Z := 0x50000000.
Definition SOC_RTC_DATA_HIGH : Z := 0x50002000.
Definition SOC_DIRAM_IRAM_LOW : Z := 0x40378000.
Definition SOC_DIRAM_IRAM_HIGH : Z := 0x403E0000.
Definition SOC_DIRAM_DRAM_LOW : Z := 0x3FC88000.
Definition SOC_DIRAM_DRAM_HIGH : Z := 0x3FCF0000.
Definition SOC_I_D_OFFSET : Z := SOC_DIRAM_IRAM_LOW - SOC_DIRAM_DRAM_LOW.

Definition within (low high p : Z) : bool := (p >=? low) && (p <? high).
Definition esp_ptr_in_iram (p : Z) : bool := within SOC_IRAM_LOW SOC_IRAM_HIGH p.
Definition esp_ptr_in_dram (p : Z) : bool := within SOC_DRAM_LOW SOC_DRAM_HIGH p.
Definition esp_ptr_in_diram_dram (p : Z) : bool := within SOC_DIRAM_DRAM_LOW SOC_DIRAM_DRAM_HIGH p.
Definition esp_ptr_in_diram_iram (p : Z) : bool := within SOC_DIRAM_IRAM_LOW SOC_DIRAM_IRAM_HIGH p.
Definition esp_ptr_in_rtc_iram_fast (p : Z) : bool := within SOC_RTC_IRAM_LOW SOC_RTC_IRAM_HIGH p.
Definition esp_ptr_in_rtc_dram_fast (p : Z) : bool := within SOC_RTC_DRAM_LOW SOC_RTC_DRAM_HIGH p.
Definition esp_ptr_in_rtc_slow (p : Z) : bool := within SOC_RTC_DATA_LOW SOC_RTC_DATA_HIGH p.
Definition esp_ptr_diram_dram_to_iram (p : Z) : Z := s32 (SOC_DIRAM_IRAM_LOW + (p - SOC_DIRAM_DRAM_LOW)).
Definition esp_ptr_diram_iram_to_dram (p : Z) : Z := s32 (SOC_DIRAM_DRAM_LOW + (p - SOC_DIRAM_IRAM_LOW)).

(** The byte of RAM behind an address: the instruction bus shows the shared
    part of the RAM [SOC_I_D_OFFSET] higher. *)
Definition phys (a : Z) : Z := if esp_ptr_in_diram_iram a then a - SOC_I_D_OFFSET else a.

Fixpoint write_bytes (a : Z) (bs : list Z) (m : mem) : mem :=
  match bs with
  | [] => m
  | b :: bs => write_bytes (a + 1) bs (fun x => if x =? phys a then b else m x)
  end.

Definition write_word (a w : Z) (m : mem) : mem := write_bytes a (bytes32 w) m.
Definition read_word (a : Z) (m : mem) : Z :=
  m (phys a) + 256 * m (phys (a + 1)) + 65536 * m (phys (a + 2)) + 16777216 * m (phys (a + 3)).

(** The RTC memories, which a bootloader does not use. *)
Definition in_rtc (load_addr_p load_inclusive_end_p : Z) : bool :=
  (esp_ptr_in_rtc_iram_fast load_addr_p && esp_ptr_in_rtc_iram_fast load_inclusive_end_p)
  || (esp_ptr_in_rtc_dram_fast load_addr_p && esp_ptr_in_rtc_dram_fast load_inclusive_end_p)
  || (esp_ptr_in_rtc_slow load_addr_p && esp_ptr_in_rtc_slow load_inclusive_end_p).

Section image_env.
Context (e : env).

(** The part of [load_addr .. load_end] in the shared RAM, at its addresses on
    the other bus. *)
Definition dram_as_iram (load_addr load_end : Z) : Z * Z :=
  (if esp_ptr_in_diram_dram load_addr then esp_ptr_diram_dram_to_iram load_addr
   else esp_ptr_diram_dram_to_iram SOC_DIRAM_DRAM_LOW,
   if esp_ptr_in_diram_dram (s32 (load_end - 1)) then esp_ptr_diram_dram_to_iram load_end
   else esp_ptr_diram_dram_to_iram SOC_DIRAM_DRAM_HIGH).
Definition iram_as_dram (load_addr load_end : Z) : Z * Z :=
  (if esp_ptr_in_diram_iram load_addr then esp_ptr_diram_iram_to_dram load_addr
   else esp_ptr_diram_iram_to_dram SOC_DIRAM_IRAM_LOW,
   if esp_ptr_in_diram_iram (s32 (load_end - 1)) then esp_ptr_diram_iram_to_dram load_end
   else esp_ptr_diram_iram_to_dram SOC_DIRAM_IRAM_HIGH).

(** The addresses are signed ([intptr_t]); [depth] 0 is [no_recurse].  [alias]
    is the last check of each kind of RAM. *)
Fixpoint verify_load_addresses (depth : nat) (load_addr load_end : Z) : option bool :=
  let alias low high (r : Z * Z) := match depth with
    | O => Some true
    | S depth =>
        let? shared := bootloader_util_regions_overlap low high load_addr load_end in
        if negb shared then Some true
        else if r.2 <? r.1 then verify_load_addresses depth r.2 r.1
        else verify_load_addresses depth r.1 r.2
    end in
  let load_inclusive_end_p := s32 (load_end - 1) in
  if load_end =? load_addr then Some true else
  configASSERT (load_end >? load_addr);
  if esp_ptr_in_dram load_addr && esp_ptr_in_dram load_inclusive_end_p then
    let? stack := bootloader_util_regions_overlap (s32 (esp_cpu_get_sp e - STACK_LOAD_HEADROOM)) ROM_STACK_START load_addr load_end in
    if (stack : bool) then Some false else
    let? static := bootloader_util_regions_overlap (dram_start e) (dram_end e) load_addr load_end in
    if (static : bool) then Some false
    else alias SOC_DIRAM_DRAM_LOW SOC_DIRAM_DRAM_HIGH (dram_as_iram load_addr load_end)
  else if esp_ptr_in_iram load_addr && esp_ptr_in_iram load_inclusive_end_p then
    let? loader := bootloader_util_regions_overlap (loader_text_start e) (loader_text_end e) load_addr load_end in
    if (loader : bool) then Some false
    else alias SOC_DIRAM_IRAM_LOW SOC_DIRAM_IRAM_HIGH (iram_as_dram load_addr load_end)
  else Some (in_rtc load_addr load_inclusive_end_p).

Definition should_map (load_addr : Z) : bool :=
  within SOC_IROM_LOW SOC_IROM_HIGH load_addr || within SOC_DROM_LOW SOC_DROM_HIGH load_addr.

Definition should_load (load_addr : Z) : bool :=
  let load_rtc_memory := negb (deep_sleep_reset e) in
  if should_map load_addr then false
  else if load_addr <? 0x10000000 then false
  else if negb load_rtc_memory
          && (within SOC_RTC_IRAM_LOW SOC_RTC_IRAM_HIGH load_addr || within SOC_RTC_DRAM_LOW SOC_RTC_DRAM_HIGH load_addr
              || within SOC_RTC_DATA_LOW SOC_RTC_DATA_HIGH load_addr) then false
  else true.

Definition is_bootloader (offset : Z) : bool :=
  (offset =? ESP_PRIMARY_BOOTLOADER_OFFSET) || (offset =? s_bootloader_partition_offset e).

Definition esp_image_bootloader_offset_get : Z := s_bootloader_partition_offset e.

(** ** The header ([bootloader_common_loader.c]) *)

Definition IS_FIELD_SET (rev_full : Z) : bool := negb (rev_full =? 65535) && negb (rev_full =? 0).

Definition bootloader_common_check_chip_revision_validity (img_hdr : esp_image_header_t) (check_max_revision : bool) : bool :=
  let revision := efuse_hal_chip_revision e in
  if negb (min_chip_rev_full img_hdr <=? revision) then false
  else if check_max_revision then
    let max_rev := max_chip_rev_full img_hdr in
    negb (IS_FIELD_SET max_rev && (revision >? max_rev) && negb (efuse_hal_get_disable_wafer_version_major e))
  else true.

Definition bootloader_common_check_efuse_blk_validity (min_rev_full max_rev_full : Z) : esp_err_t :=
  let revision := efuse_hal_blk_version e in
  let err := if IS_FIELD_SET min_rev_full && negb (min_rev_full <=? revision) then ESP_FAIL else ESP_OK in
  if IS_FIELD_SET max_rev_full && (revision >? max_rev_full) && negb (efuse_hal_get_disable_blk_version_major e)
  then ESP_FAIL else err.

(** [bootloader] is whether the type is [ESP_IMAGE_BOOTLOADER]. *)
Definition bootloader_common_check_chip_validity (img_hdr : esp_image_header_t) (bootloader : bool) : esp_err_t :=
  if negb (ESP_CHIP_ID_ESP32S3 =? chip_id img_hdr) then ESP_FAIL
  else if negb (bootloader_common_check_chip_revision_validity img_hdr (negb bootloader)) then ESP_FAIL
  else ESP_OK.

Definition verify_image_header (src_addr : Z) (image : esp_image_header_t) : esp_err_t :=
  if negb (h_magic image =? ESP_IMAGE_HEADER_MAGIC) then ESP_ERR_IMAGE_INVALID
  else
    let err := bootloader_common_check_chip_validity image (is_bootloader src_addr) in
    if negb (err =? ESP_OK) then err
    else if segment_count image >? ESP_IMAGE_MAX_SEGMENTS then ESP_ERR_IMAGE_INVALID else ESP_OK.

End image_env.

Definition esp_image_bootloader_offset_set (offset : Z) (e : env) : env :=
  MkEnv (bootloader_build e) (anti_rollback e) (skip_validate e) offset (esp_cpu_dbgr_is_attached e)
    (deep_sleep_reset e) (efuse_hal_chip_revision e) (efuse_hal_blk_version e)
    (efuse_hal_get_disable_wafer_version_major e) (efuse_hal_get_disable_blk_version_major e)
    (efuse_size e) (efuse_bits e) (sha256 e) (sha_available e) (esp_cpu_get_sp e) (dram_start e) (dram_end e)
    (loader_text_start e) (loader_text_end e).

Definition esp_image_get_flash_size (app_flash_size : Z) : Z :=
  if app_flash_size =? 0 then 1 * 1024 * 1024
  else if app_flash_size =? 1 then 2 * 1024 * 1024
  else if app_flash_size =? 2 then 4 * 1024 * 1024
  else if app_flash_size =? 3 then 8 * 1024 * 1024
  else if app_flash_size =? 4 then 16 * 1024 * 1024
  else if app_flash_size =? 5 then 32 * 1024 * 1024
  else if app_flash_size =? 6 then 64 * 1024 * 1024
  else if app_flash_size =? 7 then 128 * 1024 * 1024
  else 0.

(** ** Segments *)

Record load_state (st : Type) := MkLoad {
  port : st;
  ram : mem;
  ram_obfs_value : Z * Z;
  draws : list (Z * Z);
  data : esp_image_metadata_t;
  sha : option (list Z);
  checksum : option Z
}.
Arguments MkLoad {st}.
Arguments port {st}.
Arguments ram {st}.
Arguments ram_obfs_value {st}.
Arguments draws {st}.
Arguments data {st}.
Arguments sha {st}.
Arguments checksum {st}.

Section image_ops.
Context {st : Type} `{FlashPort st} (e : env).
Abbreviation io := (M (load_state st)).

Definition set_port (p : st) (s : load_state st) : load_state st := MkLoad p (ram s) (ram_obfs_value s) (draws s) (data s) (sha s) (checksum s).
Definition set_ram m (s : load_state st) : load_state st := MkLoad (port s) m (ram_obfs_value s) (draws s) (data s) (sha s) (checksum s).
Definition set_obfs v l (s : load_state st) : load_state st := MkLoad (port s) (ram s) v l (data s) (sha s) (checksum s).
Definition set_data d (s : load_state st) : load_state st := MkLoad (port s) (ram s) (ram_obfs_value s) (draws s) d (sha s) (checksum s).
Definition set_sha h (s : load_state st) : load_state st := MkLoad (port s) (ram s) (ram_obfs_value s) (draws s) (data s) h (checksum s).
Definition set_checksum c (s : load_state st) : load_state st := MkLoad (port s) (ram s) (ram_obfs_value s) (draws s) (data s) (sha s) c.

Definition update_data (f : esp_image_metadata_t -> esp_image_metadata_t) : io unit := modify (fun s => set_data (f (data s)) s).

Definition flash_read (a n : Z) : io (list Z) := fun s =>
  let? (err, bs, p) := read a n (port s) in
  Some (if err =? ESP_OK then inr bs else inl err, set_port p s).
Definition flash_map (a n : Z) : io (option Z) := fun s => let? (r, p) := map a n (port s) in Some (inr r, set_port p s).
Definition flash_unmap : io unit := fun s => let? p := unmap (port s) in Some (inr tt, set_port p s).

(** Loads through a mapping. *)
Definition mapped_byte (a : Z) : io Z := fun s => let? b := byte a (port s) in Some (inr b, s).
Fixpoint mapped_bytes (n : nat) (a : Z) : io (list Z) :=
  match n with
  | O => ret []
  | S n => let! b := mapped_byte a in let! bs := mapped_bytes n (a + 1) in ret (b :: bs)
  end.

(** [bootloader_sha256_data]; nothing without an open handle. *)
Definition hash_bytes (bs : list Z) : io unit := modify (fun s => set_sha (fmap (fun l => l ++ bs) (sha s)) s).
Definition hash_open (s : load_state st) : bool := match sha s with Some _ => true | None => false end.
Definition has_checksum (s : load_state st) : bool := match checksum s with Some _ => true | None => false end.
Definition xor_checksum (w : Z) : io unit := modify (fun s => set_checksum (fmap (fun c => Z.lxor c w) (checksum s)) s).

(** Drawing random words until both are set. *)
Definition obfs_unset (v : Z * Z) : bool := (v.1 =? 0) || (v.2 =? 0).
Fixpoint next_obfs (l : list (Z * Z)) : option ((Z * Z) * list (Z * Z)) :=
  match l with
  | [] => None
  | v :: l => if obfs_unset v then next_obfs l else Some (v, l)
  end.
Definition fill_obfs : io unit := fun s =>
  if obfs_unset (ram_obfs_value s) then let? (v, l) := next_obfs (draws s) in Some (inr tt, set_obfs v l s)
  else Some (inr tt, s).
Definition obfs_word (v : Z * Z) (w_i : Z) : Z := if flag w_i 1 then v.1 else v.2.

Definition SHA_CHUNK : Z := 1024.

(** The loop over words from [w_i] on, [n] words. *)
Fixpoint word_loop (n : nat) (w_i src data_len dest : Z) (do_load : bool) : io unit :=
  match n with
  | O => ret tt
  | S n =>
      let! bs := mapped_bytes 4 (src + 4 * w_i) in
      let w := at32 bs 0 in
      do! xor_checksum w;
      do! when (bootloader_build e && do_load)
        (modify (fun s => set_ram (write_word (dest + 4 * w_i) (Z.lxor w (obfs_word (ram_obfs_value s) w_i)) (ram s)) s));
      let! hashing := get hash_open in
      do! when (hashing && ((w_i * 4) mod SHA_CHUNK =? 0))
        (let! l := mapped_bytes (Z.to_nat (Z.min SHA_CHUNK (data_len - w_i * 4))) (src + w_i * 4) in hash_bytes l);
      word_loop n (w_i + 1) src data_len dest do_load
  end.

(** The application descriptor is at the start of segment 0. *)
Definition process_esp_app_desc_data (src : Z) : io Z :=
  let! bs := mapped_bytes 8 src in
  if negb (at32 bs 0 =? ESP_APP_DESC_MAGIC_WORD) then stop
  else
    do! update_data (set_meta_secure_version (at32 bs 4));
    do! xor_checksum (Z.lxor (at32 bs 0) (at32 bs 4));
    do! hash_bytes bs;
    ret 8.

Definition process_segment_data (segment : Z) (load_addr data_addr data_len : Z) (do_load is_segment_start : bool) : io unit :=
  let! has_sum := get has_checksum in
  if negb do_load && negb has_sum then ret tt else
  let! m := flash_map data_addr data_len in
  match m with
  | None => throw ESP_FAIL
  | Some src =>
      let! hashing := get hash_open in
      if negb has_sum && negb hashing then
        let! bs := mapped_bytes (Z.to_nat data_len) src in
        do! modify (fun s => set_ram (write_bytes load_addr bs (ram s)) s);
        flash_unmap
      else
        do! when (bootloader_build e) fill_obfs;
        let! start := get (fun s => start_addr (data s)) in
        let! len := (if (segment =? 0) && is_segment_start && negb (is_bootloader e start) then
            let! revs := mapped_bytes 4 (src + 176) in
            let err := bootloader_common_check_efuse_blk_validity e (at16 revs 0) (at16 revs 2) in
            if negb (err =? ESP_OK) then do! flash_unmap; throw err
            else if anti_rollback e then process_esp_app_desc_data src else ret 0
          else ret 0) in
        let data_len := u32 (data_len - len) in
        do! word_loop (Z.to_nat ((data_len + 3) / 4)) 0 (src + len) data_len load_addr do_load;
        flash_unmap
  end.

(** The pieces of a segment that can be mapped at once; the loop makes [n]
    iterations at most. *)
Fixpoint chunk_loop (n : nat) (segment load_addr data_addr data_len_remain : Z) (do_load is_segment_start : bool) : io unit :=
  if data_len_remain =? 0 then ret tt else
  match n with
  | O => stop
  | S n =>
      let offset_page := if negb (Z.land data_addr (SPI_FLASH_MMU_PAGE_SIZE - 1) =? 0) then 1 else 0 in
      let max_pages := if free_pages >? offset_page then free_pages - offset_page else 0 in
      if max_pages =? 0 then throw ESP_ERR_NO_MEM else
      let product := max_pages * SPI_FLASH_MMU_PAGE_SIZE in
      let max_image_len := if product >? 0xFFFFFFFF then 0xFFFFFFFF else product in
      let len := Z.min data_len_remain max_image_len in
      do! process_segment_data segment load_addr data_addr len do_load is_segment_start;
      chunk_loop n segment (u32 (load_addr + len)) (u32 (data_addr + len)) (data_len_remain - len) do_load false
  end.

Definition chunk_fuel (data_len : Z) : nat := S (Z.to_nat (data_len / SPI_FLASH_MMU_PAGE_SIZE)).

Definition put_segment (index : nat) (h : esp_image_segment_header_t) (d : esp_image_metadata_t) : option esp_image_metadata_t :=
  if (index <? length (segments d))%nat then Some (set_segments (<[index := h]> (segments d)) d) else None.
Definition put_segment_data (index : nat) (a : Z) (d : esp_image_metadata_t) : option esp_image_metadata_t :=
  if (index <? length (segment_data d))%nat then Some (set_segment_data (<[index := a]> (segment_data d)) d) else None.

Definition try_update_data (f : esp_image_metadata_t -> option esp_image_metadata_t) : io unit := fun s =>
  let? d := f (data s) in Some (inr tt, set_data d s).

(** The page size is fixed on this chip. *)
Definition verify_segment_header (segment : esp_image_segment_header_t) (segment_data_offs : Z) : io unit :=
  do! check (negb (flag (data_len segment) 3 || (data_len segment >=? ESP_IMAGE_MAX_FLASH_ADDR_SIZE))) ESP_ERR_IMAGE_INVALID;
  do! update_data (set_mmu_page_size SPI_FLASH_MMU_PAGE_SIZE);
  check (negb (should_map (load_addr segment)
               && negb (segment_data_offs mod SPI_FLASH_MMU_PAGE_SIZE =? load_addr segment mod SPI_FLASH_MMU_PAGE_SIZE)))
    ESP_ERR_IMAGE_INVALID.

(** Gives the length of the segment. *)
Definition process_segment (index : nat) (flash_addr : Z) (do_load : bool) : io Z :=
  let! bs := flash_read flash_addr sizeof_segment_header in
  let header := segment_header bs in
  do! try_update_data (put_segment index header);
  do! hash_bytes bs;
  let data_addr := u32 (flash_addr + sizeof_segment_header) in
  do! verify_segment_header header data_addr;
  do! check (data_len header mod 4 =? 0) ESP_ERR_IMAGE_INVALID;
  let do_load := do_load && should_load e (load_addr header) in
  let! loadable := (if bootloader_build e && do_load && (data_len header >? 0)
    then given (verify_load_addresses e 1 (s32 (load_addr header)) (s32 (load_addr header + data_len header)))
    else ret true) in
  do! check loadable ESP_ERR_IMAGE_INVALID;
  do! chunk_loop (chunk_fuel (data_len header)) (Z.of_nat index) (load_addr header) data_addr (data_len header) do_load true;
  ret (data_len header).

(** The loop from segment [i] on, [n] segments; gives the final [next_addr]. *)
Fixpoint segment_loop (n i : nat) (next_addr : Z) (do_load : bool) : io Z :=
  match n with
  | O => ret next_addr
  | S n =>
      let! len := process_segment i next_addr do_load in
      let next_addr := u32 (next_addr + sizeof_segment_header) in
      do! try_update_data (put_segment_data i next_addr);
      segment_loop n (S i) (u32 (next_addr + len)) do_load
  end.

Definition process_segments (do_load : bool) : io unit :=
  let! d := get data in
  let start_segments := u32 (start_addr d + image_len d) in
  let! end_addr := segment_loop (Z.to_nat (segment_count (image d))) 0 start_segments do_load in
  do! check (negb (end_addr <? start_addr d)) ESP_ERR_IMAGE_INVALID;
  update_data (fun d => set_image_len (u32 (image_len d + u32 (end_addr - start_segments))) d).

(** ** The whole image *)

(** [hash] is whether a handle may be opened. *)
Definition process_image_header (part_offset : Z) (hash do_verify : bool) : io unit :=
  do! update_data (fun _ => set_start_addr part_offset zero_meta);
  let! image := flash_read part_offset sizeof_header in
  do! update_data (set_image image);
  do! when do_verify
    (do! when (hash_appended image && hash)
       (if sha_available e then do! modify (set_sha (Some [])); hash_bytes image else throw ESP_ERR_NO_MEM);
     let err := verify_image_header e part_offset image in
     check (err =? ESP_OK) err);
  update_data (set_image_len sizeof_header).

Definition calc_checksum (checksum_word : Z) : Z :=
  u8 (Z.lxor (Z.lxor (Z.lxor (Z.shiftr checksum_word 24) (Z.shiftr checksum_word 16)) (Z.shiftr checksum_word 8)) checksum_word).

(** The bytes from [unpadded_length] to the end of its block of 16. *)
Definition padding_length (unpadded_length : Z) : Z :=
  u32 (Z.land (u32 (u32 (unpadded_length + 1) + 15)) (u32 (Z.lnot 15)) - unpadded_length).

Definition process_checksum (checksum_word : Z) (skip_check_checksum : bool) : io unit :=
  let! d := get data in
  let unpadded_length := image_len d in
  let length := padding_length unpadded_length in
  let! hashing := get hash_open in
  let! buf := (if negb skip_check_checksum || hashing then flash_read (u32 (start_addr d + unpadded_length)) length
               else ret (replicate 16 0)) in
  let read_checksum := at8 buf (Z.to_nat (length - 1)) in
  do! check (skip_check_checksum || (calc_checksum checksum_word =? read_checksum)) ESP_ERR_IMAGE_INVALID;
  do! hash_bytes buf;
  update_data (fun d => set_image_len (u32 (image_len d + length)) d).

Definition process_appended_hash_and_sig (part_len : Z) (do_verify : bool) : io unit :=
  let! d := get data in
  do! when (hash_appended (image d))
    (do! when do_verify
       (let! digest := flash_read (u32 (start_addr d + image_len d)) HASH_LEN in update_data (set_image_digest digest));
     update_data (fun d => set_image_len (u32 (image_len d + HASH_LEN)) d));
  let! d := get data in
  check (negb (image_len d >? part_len)) ESP_ERR_IMAGE_INVALID.

(** Finishes the hash. *)
Definition verify_simple_hash (hashed : list Z) : io unit :=
  do! modify (set_sha None);
  let! d := get data in
  check (bool_decide (image_digest d = sha256 e hashed)) ESP_ERR_IMAGE_INVALID.

Fixpoint deobfuscate_words (n : nat) (j a : Z) (v : Z * Z) (m : mem) : mem :=
  match n with
  | O => m
  | S n => deobfuscate_words n (j + 1) a v (write_word (a + 4 * j) (Z.lxor (read_word (a + 4 * j) m) (obfs_word v j)) m)
  end.

Definition deobfuscate_segment (v : Z * Z) (h : esp_image_segment_header_t) (m : mem) : mem :=
  if should_load e (load_addr h) then deobfuscate_words (Z.to_nat (data_len h / 4)) 0 (load_addr h) v m else m.

Definition deobfuscate (do_load : bool) : io unit := modify (fun s =>
  if do_load && negb ((ram_obfs_value s).1 =? 0) && negb ((ram_obfs_value s).2 =? 0)
  then set_ram (foldl (fun m h => deobfuscate_segment (ram_obfs_value s) h m) (ram s)
                  (take (Z.to_nat (segment_count (image (data s)))) (segments (data s)))) s
  else s).

(** [image_load] after the segments, before its label [err]. *)
Definition image_finish (do_load do_verify verify_sha : bool) (part_len : Z) : io unit :=
  let! checksum_word := get (fun s => default ESP_ROM_CHECKSUM_INITIAL (checksum s)) in
  let skip_check_checksum := negb do_verify || esp_cpu_dbgr_is_attached e in
  do! process_checksum checksum_word skip_check_checksum;
  do! process_appended_hash_and_sig part_len do_verify;
  let! h := get sha in
  do! match h with
      | Some hashed => if verify_sha && negb (esp_cpu_dbgr_is_attached e) then verify_simple_hash hashed else ret tt
      | None => ret tt
      end;
  do! modify (set_sha None);
  do! when (bootloader_build e) (deobfuscate do_load);
  let! d := get data in
  check (negb (bootloader_build e && anti_rollback e && do_load)
         || esp_efuse_check_secure_version (efuse_size e) (efuse_bits e) (meta_secure_version d)) ESP_FAIL.

(** Everything of [image_load] before its label [err]. *)
Definition image_load_body (mode : esp_image_load_mode_t) (part : esp_partition_pos_t) : io unit :=
  let do_load := bootloader_build e && is_load mode in
  let do_verify := negb (bootloader_build e) || is_verify mode in
  let verify_sha := negb (is_bootloader e (offset part)) && do_verify in
  do! check (negb (pos_size part >? ESP_IMAGE_MAX_FLASH_ADDR_SIZE)) ESP_ERR_INVALID_ARG;
  do! process_image_header (offset part) verify_sha do_verify;
  do! process_segments do_load;
  image_finish do_load do_verify verify_sha (pos_size part).

Definition image_load (mode : esp_image_load_mode_t) (part : esp_partition_pos_t) (s : load_state st) : option (esp_err_t * load_state st) :=
  let do_verify := negb (bootloader_build e) || is_verify mode in
  let s := set_checksum (if do_verify then Some ESP_ROM_CHECKSUM_INITIAL else None) (set_sha None s) in
  let? (r, s) := image_load_body mode part s in
  match r with
  | inr _ => Some (ESP_OK, s)
  | inl err => Some (err, set_data zero_meta (set_sha None s))
  end.

Definition bootloader_load_image (part : esp_partition_pos_t) (s : load_state st) : option (esp_err_t * load_state st) :=
  if negb (bootloader_build e) then Some (ESP_FAIL, s)
  else image_load (if skip_validate e then ESP_IMAGE_LOAD_NO_VALIDATE else ESP_IMAGE_LOAD) part s.

Definition bootloader_load_image_no_verify (part : esp_partition_pos_t) (s : load_state st) : option (esp_err_t * load_state st) :=
  if bootloader_build e then image_load ESP_IMAGE_LOAD_NO_VALIDATE part s else Some (ESP_FAIL, s).

Definition esp_image_verify := image_load.

(** No metadata are cleared when it fails. *)
Definition esp_image_get_metadata (part : esp_partition_pos_t) (s : load_state st) : option (esp_err_t * load_state st) :=
  if pos_size part >? ESP_IMAGE_MAX_FLASH_ADDR_SIZE then Some (ESP_ERR_INVALID_ARG, s)
  else
    let body :=
      do! process_image_header (offset part) false false;
      do! process_segments false;
      do! process_checksum 0 true;
      process_appended_hash_and_sig (pos_size part) true in
    let? (r, s) := body (set_checksum None (set_sha None s)) in
    Some (match r with inr _ => ESP_OK | inl err => err end, s).

Definition esp_image_verify_bootloader_data (s : load_state st) : option (esp_err_t * load_state st) :=
  esp_image_verify ESP_IMAGE_VERIFY (MkPos ESP_PRIMARY_BOOTLOADER_OFFSET ESP_BOOTLOADER_SIZE) s.

(** The error and the length. *)
Definition esp_image_verify_bootloader (s : load_state st) : option (esp_err_t * Z * load_state st) :=
  let? (err, s) := esp_image_verify_bootloader_data s in
  Some (err, if err =? ESP_OK then image_len (data s) else 0, s).

End image_ops.
