(* ===== verification/ImageMem.v ===== *)
(** * Where an image may be loaded

    What [verify_load_addresses] guarantees: an accepted range lies in one kind
    of RAM, and no byte of it is, behind either bus, a byte of the memory the
    bootloader runs from. *)

From S2P Require Import Prelude EspErr Flash PartTable OtaData Mmu BootFlash Image.

(** The four kinds of RAM. *)
Inductive in_ram (lo hi : Z) : Prop :=
  | in_dram : SOC_DRAM_LOW <= lo -> hi <= SOC_DRAM_HIGH -> in_ram lo hi
  | in_iram : SOC_IRAM_LOW <= lo -> hi <= SOC_IRAM_HIGH -> in_ram lo hi
  | in_rtc_fast : SOC_RTC_DRAM_LOW <= lo -> hi <= SOC_RTC_DRAM_HIGH -> in_ram lo hi
  | in_rtc_slow : SOC_RTC_DATA_LOW <= lo -> hi <= SOC_RTC_DATA_HIGH -> in_ram lo hi.

Ltac soc := unfold SOC_I_D_OFFSET in *; unfold SOC_DRAM_LOW, SOC_DRAM_HIGH, SOC_IRAM_LOW, SOC_IRAM_HIGH, SOC_RTC_DRAM_LOW, SOC_RTC_DRAM_HIGH, SOC_RTC_IRAM_LOW,
  SOC_RTC_IRAM_HIGH, SOC_RTC_DATA_LOW, SOC_RTC_DATA_HIGH, SOC_DIRAM_IRAM_LOW, SOC_DIRAM_IRAM_HIGH, SOC_DIRAM_DRAM_LOW, SOC_DIRAM_DRAM_HIGH,
  ROM_STACK_START, STACK_LOAD_HEADROOM in *.

Lemma within_spec lo hi p : within lo hi p = true <-> lo <= p < hi.
Proof. unfold within. rewrite andb_true_iff, Z.geb_leb, Z.leb_le, Z.ltb_lt. done. Qed.

Lemma overlap_false a b c d : bootloader_util_regions_overlap a b c d = Some false -> a < b /\ c < d /\ (b <= c \/ d <= a).
Proof.
  unfold bootloader_util_regions_overlap. rewrite !Z.gtb_ltb. destruct (Z.ltb_spec a b), (Z.ltb_spec c d); try done.
  intros [= E]. apply andb_false_iff in E as [E|E]; apply Z.ltb_ge in E; lia.
Qed.

(** Physical addresses differ within one kind of RAM. *)
Lemma phys_inj lo hi a b : in_ram lo hi -> lo <= a < hi -> lo <= b < hi -> phys a = phys b -> a = b.
Proof.
  intros Hr Ha Hb. unfold phys, esp_ptr_in_diram_iram, within. rewrite !Z.geb_leb. destruct Hr; soc; cmp_cases; cbn [andb]; lia.
Qed.

Section image_mem.
Context (e : env).

(** A byte of the memory of the bootloader: its stack with the headroom, its
    static data, its loader code. *)
Definition protected (x : Z) : Prop :=
  esp_cpu_get_sp e - STACK_LOAD_HEADROOM <= x < ROM_STACK_START \/ dram_start e <= x < dram_end e \/
  exists y, loader_text_start e <= y < loader_text_end e /\ x = phys y.

(** The linker script and the startup code give a bootloader in internal RAM. *)
Record env_ok : Prop := {
  eo_stack : SOC_DRAM_LOW <= esp_cpu_get_sp e - STACK_LOAD_HEADROOM < ROM_STACK_START;
  eo_data : SOC_DRAM_LOW <= dram_start e < dram_end e /\ dram_end e <= SOC_DRAM_HIGH;
  eo_loader : SOC_IRAM_LOW <= loader_text_start e < loader_text_end e /\ loader_text_end e <= SOC_IRAM_HIGH
}.

Definition range_32 (lo hi : Z) : Prop := -2147483648 <= lo < 2147483648 /\ -2147483648 <= hi < 2147483648.

(** The range is in one RAM and apart from what the bootloader uses there at
    the addresses of the same bus. *)
Definition dram_apart (lo hi : Z) : Prop :=
  SOC_DRAM_LOW <= lo /\ hi <= SOC_DRAM_HIGH /\
  (ROM_STACK_START <= lo \/ hi <= s32 (esp_cpu_get_sp e - STACK_LOAD_HEADROOM)) /\ (dram_end e <= lo \/ hi <= dram_start e).
Definition iram_apart (lo hi : Z) : Prop :=
  SOC_IRAM_LOW <= lo /\ hi <= SOC_IRAM_HIGH /\ (loader_text_end e <= lo \/ hi <= loader_text_start e).
Definition rtc_range (lo hi : Z) : Prop :=
  (SOC_RTC_DRAM_LOW <= lo /\ hi <= SOC_RTC_DRAM_HIGH) \/ (SOC_RTC_DATA_LOW <= lo /\ hi <= SOC_RTC_DATA_HIGH).

(** The check on the other bus. *)
Definition alias (depth : nat) (low high lo hi : Z) (r : Z * Z) : option bool :=
  match depth with
  | O => Some true
  | S depth =>
      let? shared := bootloader_util_regions_overlap low high lo hi in
      if negb shared then Some true
      else if r.2 <? r.1 then verify_load_addresses e depth r.2 r.1 else verify_load_addresses e depth r.1 r.2
  end.

Lemma both_within lo hi a b : within lo hi a && within lo hi b = true <-> (lo <= a < hi) /\ (lo <= b < hi).
Proof. by rewrite andb_true_iff, !within_spec. Qed.

Lemma in_rtc_spec lo hi : lo < hi -> in_rtc lo (hi - 1) = true -> rtc_range lo hi.
Proof.
  intros Hlt. unfold in_rtc, esp_ptr_in_rtc_iram_fast, esp_ptr_in_rtc_dram_fast, esp_ptr_in_rtc_slow.
  rewrite !orb_true_iff, !both_within. unfold rtc_range. soc. lia.
Qed.

Lemma verify_unfold depth lo hi :
  verify_load_addresses e depth lo hi =
    let load_inclusive_end_p := s32 (hi - 1) in
    if hi =? lo then Some true else
    configASSERT (hi >? lo);
    if esp_ptr_in_dram lo && esp_ptr_in_dram load_inclusive_end_p then
      let? stack := bootloader_util_regions_overlap (s32 (esp_cpu_get_sp e - STACK_LOAD_HEADROOM)) ROM_STACK_START lo hi in
      if (stack : bool) then Some false else
      let? static := bootloader_util_regions_overlap (dram_start e) (dram_end e) lo hi in
      if (static : bool) then Some false
      else alias depth SOC_DIRAM_DRAM_LOW SOC_DIRAM_DRAM_HIGH lo hi (dram_as_iram lo hi)
    else if esp_ptr_in_iram lo && esp_ptr_in_iram load_inclusive_end_p then
      let? loader := bootloader_util_regions_overlap (loader_text_start e) (loader_text_end e) lo hi in
      if (loader : bool) then Some false
      else alias depth SOC_DIRAM_IRAM_LOW SOC_DIRAM_IRAM_HIGH lo hi (iram_as_dram lo hi)
    else Some (in_rtc lo load_inclusive_end_p).
Proof. by destruct depth. Qed.

Lemma verify_cases depth lo hi :
  range_32 lo hi -> lo <> hi -> verify_load_addresses e depth lo hi = Some true ->
  lo < hi /\ ((dram_apart lo hi /\ alias depth SOC_DIRAM_DRAM_LOW SOC_DIRAM_DRAM_HIGH lo hi (dram_as_iram lo hi) = Some true) \/
              (iram_apart lo hi /\ alias depth SOC_DIRAM_IRAM_LOW SOC_DIRAM_IRAM_HIGH lo hi (iram_as_dram lo hi) = Some true) \/
              rtc_range lo hi).
Proof.
  intros [Hlo Hhi] Hne. rewrite verify_unfold. cbv zeta. rewrite (proj2 (Z.eqb_neq _ _)), (Z.gtb_ltb hi lo) by done.
  destruct (Z.ltb_spec lo hi) as [Hlt|]; [|done]. rewrite s32_id by lia. intros E. split; [done|].
  destruct (esp_ptr_in_dram lo && esp_ptr_in_dram (hi - 1)) eqn:E1.
  - apply both_within in E1. left. destruct (bootloader_util_regions_overlap _ ROM_STACK_START lo hi) as [[]|] eqn:O1; try done.
    destruct (bootloader_util_regions_overlap (dram_start e) _ lo hi) as [[]|] eqn:O2; try done.
    apply overlap_false in O1, O2. split; [|done]. unfold dram_apart. lia.
  - destruct (esp_ptr_in_iram lo && esp_ptr_in_iram (hi - 1)) eqn:E2.
    + apply both_within in E2. right; left. destruct (bootloader_util_regions_overlap _ (loader_text_end e) lo hi) as [[]|] eqn:O1; try done.
      apply overlap_false in O1. split; [|done]. unfold iram_apart. lia.
    + right; right. injection E as E. by apply in_rtc_spec.
Qed.

(** The part in the shared RAM, at its addresses on the other bus. *)
Lemma dram_alias lo hi : dram_apart lo hi -> lo < hi -> lo < SOC_DIRAM_DRAM_HIGH ->
  alias 1 SOC_DIRAM_DRAM_LOW SOC_DIRAM_DRAM_HIGH lo hi (dram_as_iram lo hi) = Some true ->
  iram_apart (lo + SOC_I_D_OFFSET) (Z.min hi SOC_DIRAM_DRAM_HIGH + SOC_I_D_OFFSET).
Proof.
  intros (Ha & Hb & _) Hlt Hs. cbn [alias]. unfold bootloader_util_regions_overlap.
  assert ((SOC_DIRAM_DRAM_HIGH >? SOC_DIRAM_DRAM_LOW) = true) as -> by done.
  assert ((hi >? lo) = true) as -> by lia.
  assert ((SOC_DIRAM_DRAM_HIGH >? lo) && (hi >? SOC_DIRAM_DRAM_LOW) = true) as -> by (soc; lia). cbn [negb].
  assert (dram_as_iram lo hi = (lo + SOC_I_D_OFFSET, Z.min hi SOC_DIRAM_DRAM_HIGH + SOC_I_D_OFFSET)) as ->.
  { unfold dram_as_iram, esp_ptr_in_diram_dram, esp_ptr_diram_dram_to_iram. rewrite (s32_id (hi - 1)) by (soc; lia).
    rewrite (proj2 (within_spec _ _ lo)) by (soc; lia). destruct (within _ _ (hi - 1)) eqn:Ew.
    - apply within_spec in Ew. rewrite !s32_id by (soc; lia). f_equal; soc; lia.
    - assert (~ SOC_DIRAM_DRAM_LOW <= hi - 1 < SOC_DIRAM_DRAM_HIGH) by (intros C; apply within_spec in C; congruence).
      rewrite !s32_id by (soc; lia). f_equal; soc; lia. }
  cbn [fst snd]. rewrite (proj2 (Z.ltb_ge _ _)) by (soc; lia). intros E. apply verify_cases in E as (_ & [[D _]|[[D _]|D]]).
  - destruct D as (? & ? & _). soc; lia.
  - done.
  - destruct D; soc; lia.
  - unfold range_32. soc. lia.
  - soc. lia.
Qed.

Lemma iram_alias lo hi : iram_apart lo hi -> lo < hi -> SOC_DIRAM_IRAM_LOW < hi ->
  alias 1 SOC_DIRAM_IRAM_LOW SOC_DIRAM_IRAM_HIGH lo hi (iram_as_dram lo hi) = Some true ->
  dram_apart (Z.max lo SOC_DIRAM_IRAM_LOW - SOC_I_D_OFFSET) (hi - SOC_I_D_OFFSET).
Proof.
  intros (Ha & Hb & _) Hlt Hs. cbn [alias]. unfold bootloader_util_regions_overlap.
  assert ((SOC_DIRAM_IRAM_HIGH >? SOC_DIRAM_IRAM_LOW) = true) as -> by done.
  assert ((hi >? lo) = true) as -> by lia.
  assert ((SOC_DIRAM_IRAM_HIGH >? lo) && (hi >? SOC_DIRAM_IRAM_LOW) = true) as -> by (soc; lia). cbn [negb].
  assert (iram_as_dram lo hi = (Z.max lo SOC_DIRAM_IRAM_LOW - SOC_I_D_OFFSET, hi - SOC_I_D_OFFSET)) as ->.
  { unfold iram_as_dram, esp_ptr_in_diram_iram, esp_ptr_diram_iram_to_dram. rewrite (s32_id (hi - 1)) by (soc; lia).
    rewrite (proj2 (within_spec _ _ (hi - 1))) by (soc; lia). destruct (within _ _ lo) eqn:Ew.
    - apply within_spec in Ew. rewrite !s32_id by (soc; lia). f_equal; soc; lia.
    - assert (~ SOC_DIRAM_IRAM_LOW <= lo < SOC_DIRAM_IRAM_HIGH) by (intros C; apply within_spec in C; congruence).
      rewrite !s32_id by (soc; lia). f_equal; soc; lia. }
  cbn [fst snd]. rewrite (proj2 (Z.ltb_ge _ _)) by (soc; lia). intros E. apply verify_cases in E as (_ & [[D _]|[[D _]|D]]).
  - done.
  - destruct D as (? & ? & _). soc; lia.
  - destruct D; soc; lia.
  - unfold range_32. soc. lia.
  - soc. lia.
Qed.

(** ** The check of a segment *)

Definition seg_range (h : esp_image_segment_header_t) : Z * Z := (load_addr h, load_addr h + data_len h).
Definition verified_range (h : esp_image_segment_header_t) : option bool :=
  verify_load_addresses e 1 (s32 (load_addr h)) (s32 (load_addr h + data_len h)).

Lemma s32_cases a : 0 <= a < 8589934592 -> (a < 2147483648 /\ s32 a = a) \/ (2147483648 <= a < 6442450944 /\ s32 a = a - 4294967296) \/
  (6442450944 <= a /\ s32 a = a - 8589934592).
Proof. intros Ha. unfold sN. change (2 ^ (32 - 1)) with 2147483648. change (2 ^ 32) with 4294967296. Z.div_mod_to_equations. lia. Qed.

Lemma verified_cases h :
  0 <= load_addr h < 4294967296 -> 0 < data_len h < 4294967296 -> verified_range h = Some true ->
  let lo := load_addr h in let hi := load_addr h + data_len h in
  (dram_apart lo hi /\ (lo < SOC_DIRAM_DRAM_HIGH -> iram_apart (lo + SOC_I_D_OFFSET) (Z.min hi SOC_DIRAM_DRAM_HIGH + SOC_I_D_OFFSET))) \/
  (iram_apart lo hi /\ (SOC_DIRAM_IRAM_LOW < hi -> dram_apart (Z.max lo SOC_DIRAM_IRAM_LOW - SOC_I_D_OFFSET) (hi - SOC_I_D_OFFSET))) \/
  rtc_range lo hi.
Proof.
  intros Ha Hl E. cbv zeta. unfold verified_range in E.
  pose proof (s32_cases (load_addr h) ltac:(lia)) as C1. pose proof (s32_cases (load_addr h + data_len h) ltac:(lia)) as C2.
  apply verify_cases in E as (Hlt & E); [|unfold range_32; lia|lia].
  assert (s32 (load_addr h) = load_addr h /\ s32 (load_addr h + data_len h) = load_addr h + data_len h) as [E1 E2].
  { assert (0 < s32 (load_addr h)); [|lia]. destruct E as [[(D & _) _]|[[(D & _) _]|[[D _]|[D _]]]]; soc; lia. }
  rewrite E1, E2 in *. destruct E as [[D A]|[[D A]|D]].
  - left. split; [done|]. intros Hs. by apply dram_alias.
  - right; left. split; [done|]. intros Hs. by apply iram_alias.
  - by right; right.
Qed.

Lemma verified_in_ram h :
  0 <= load_addr h < 4294967296 -> 0 < data_len h < 4294967296 -> verified_range h = Some true -> in_ram (load_addr h) (load_addr h + data_len h).
Proof.
  intros Ha Hl E. destruct (verified_cases h Ha Hl E) as [[(? & ? & _) _]|[[(? & ? & _) _]|[[? ?]|[? ?]]]];
    [by apply in_dram|by apply in_iram|by apply in_rtc_fast|by apply in_rtc_slow].
Qed.

Lemma verified_unprotected h i :
  env_ok -> 0 <= load_addr h < 4294967296 -> 0 <= i < data_len h -> data_len h < 4294967296 -> verified_range h = Some true ->
  ~ protected (phys (load_addr h + i)).
Proof.
  intros [K1 K2 K3] Ha Hi Hl E. pose proof (verified_cases h Ha ltac:(lia) E) as C. cbv zeta in C.
  set (lo := load_addr h) in *. set (hi := lo + data_len h) in *. assert (lo <= lo + i < hi) by (subst hi; lia). clearbody hi. clearbody lo.
  assert (s32 (esp_cpu_get_sp e - STACK_LOAD_HEADROOM) = esp_cpu_get_sp e - STACK_LOAD_HEADROOM) as Es by (apply s32_id; soc; lia).
  unfold protected, phys, esp_ptr_in_diram_iram, within. rewrite !Z.geb_leb.
  intros [P|[P|(y & Hy & P)]]; revert P; cmp_cases; cbn [andb]; intros P;
    (destruct C as [[(A1 & A2 & A3 & A4) B]|[[(A1 & A2 & A3) B]|[[A1 A2]|[A1 A2]]]]);
    try (soc; lia).
  all: destruct B as (B1 & B2 & B3); soc; lia.
Qed.

End image_mem.
