(* ===== verification/ImageProps.v ===== *)
(** * Reading one segment of an image

    What the loops of [process_segment_data] and [process_segment] do to the
    checksum, to the hash and to the RAM, whatever the pieces in which a
    segment is mapped: as if the whole segment were processed at once. *)

From S2P Require Import Prelude EspErr Flash PartTable OtaData Mmu BootFlash Image.

(** ** Running a sequence *)

Lemma bind_inr {st A B} (m : M st A) (k : A -> M st B) s a s1 : m s = Some (inr a, s1) -> bind m k s = k a s1.
Proof. unfold bind. by intros ->. Qed.

Lemma bind_inl {st A B} (m : M st A) (k : A -> M st B) s err s1 : m s = Some (inl err, s1) -> bind m k s = Some (inl err, s1).
Proof. unfold bind. by intros ->. Qed.

(** Rewrites with what the first operation of a sequence does. *)
Ltac run_with H := rewrite (bind_inr _ _ _ _ _ H); cbv beta.
Ltac run := lazymatch goal with |- context [bind ?m ?k ?s] => erewrite (bind_inr m k s); [|reflexivity]; cbv beta end.

(** ** Words of the flash *)

Fixpoint words (m : mem) (n : nat) (a : Z) : list Z :=
  match n with O => [] | S n => load32 m a :: words m n (a + 4) end.

Lemma words_app m n1 n2 a : words m (n1 + n2) a = words m n1 a ++ words m n2 (a + 4 * Z.of_nat n1).
Proof.
  revert a. induction n1 as [|n1 IH]; intros a; cbn [words Nat.add app].
  - f_equal. lia.
  - rewrite IH. do 3 f_equal. lia.
Qed.

Lemma load_bytes_1 m a : load_bytes m a 1 = [m a].
Proof. unfold load_bytes. change (Z.to_nat 1) with 1%nat. cbn -[Z.add]. by rewrite Z.add_0_r. Qed.

Lemma at32_load m a : at32 (load_bytes m a 4) 0 = load32 m a.
Proof.
  unfold at32, at16, at8. rewrite !load_bytes_lookup by lia. unfold load32.
  cbn -[Z.mul Z.add]. rewrite Z.add_0_r. change (Z.of_nat 1) with 1. change (Z.of_nat 2) with 2. change (Z.of_nat 3) with 3. lia.
Qed.

(** The words of a segment, hidden by [v], stored from [dest] on. *)
Fixpoint put_words (m : mem) (n : nat) (k a dest : Z) (v : Z * Z) (r : mem) : mem :=
  match n with
  | O => r
  | S n => put_words m n (k + 1) a dest v (write_word (dest + 4 * k) (Z.lxor (load32 m (a + 4 * k)) (obfs_word v k)) r)
  end.

Lemma obfs_word_even v k j : k mod 2 = 0 -> obfs_word v (k + j) = obfs_word v j.
Proof.
  intros Hk. unfold obfs_word, flag. change 1 with (Z.ones 1). rewrite !Z.land_ones by lia. change (2 ^ 1) with 2.
  by rewrite <- Zplus_mod_idemp_l, Hk.
Qed.

Lemma put_words_shift m n k j a dest v r :
  k mod 2 = 0 -> put_words m n (k + j) a dest v r = put_words m n j (a + 4 * k) (dest + 4 * k) v r.
Proof.
  intros Hk. revert j r. induction n as [|n IH]; intros j r; cbn [put_words]; [done|].
  rewrite <- Z.add_assoc, IH, obfs_word_even by done.
  by replace (a + 4 * (k + j)) with (a + 4 * k + 4 * j) by lia; replace (dest + 4 * (k + j)) with (dest + 4 * k + 4 * j) by lia.
Qed.

Lemma put_words_app m n1 n2 k a dest v r :
  put_words m (n1 + n2) k a dest v r = put_words m n2 (k + Z.of_nat n1) a dest v (put_words m n1 k a dest v r).
Proof.
  revert k r. induction n1 as [|n1 IH]; intros k r; cbn [put_words Nat.add].
  - f_equal. lia.
  - rewrite IH. f_equal. lia.
Qed.

(** ** The effect of processing bytes *)

Section image_props.
Context {st : Type} `{FlashPort st} (e : env) (cells : mem) {spec : FlashPortSpec st cells}.
Implicit Types s : load_state st.

Lemma mapped_byte_spec p a n i s : mapped_at p a n (port s) -> 0 <= i < n -> mapped_byte (p + i) s = Some (inr (cells (a + i)), s).
Proof. intros Hm Hi. unfold mapped_byte. by rewrite (byte_mapped _ _ _ _ _ Hm Hi). Qed.

Lemma mapped_bytes_spec p a n k i s :
  mapped_at p a n (port s) -> 0 <= i -> i + Z.of_nat k <= n ->
  mapped_bytes k (p + i) s = Some (inr (load_bytes cells (a + i) (Z.of_nat k)), s).
Proof.
  intros Hm. revert i. induction k as [|k IH]; intros i Hi Hk; cbn [mapped_bytes].
  - by rewrite load_bytes_0 by lia.
  - run_with (mapped_byte_spec p a n i s Hm ltac:(lia)). rewrite <- Z.add_assoc.
    run_with (IH (i + 1) ltac:(lia) ltac:(lia)). unfold ret. do 3 f_equal.
    replace (Z.of_nat (S k)) with (1 + Z.of_nat k) by lia. rewrite load_bytes_app by lia.
    rewrite load_bytes_1. cbn [app]. do 2 f_equal. lia.
Qed.

(** The bytes of a piece that are hashed from word [k] on: the loop hashes
    [SHA_CHUNK] bytes ahead. *)
Definition hash_from (k : Z) : Z := (4 * k + 1023) / 1024 * 1024.

Definition hashed (bs : list Z) (h : option (list Z)) : option (list Z) := fmap (fun l => l ++ bs) h.
Definition xored (ws : list Z) (c : option Z) : option Z := fmap (fun c => foldl Z.lxor c ws) c.

(** The state after words were processed. *)
Definition after_words (bs ws : list Z) (r : mem) s : load_state st :=
  set_ram r (set_checksum (xored ws (checksum s)) (set_sha (hashed bs (sha s)) s)).

Lemma after_words_nil s : after_words [] [] (ram s) s = s.
Proof.
  destruct s as [p r v l d [h|] [c|]]; unfold after_words, hashed, xored, set_ram, set_checksum, set_sha; cbn; by rewrite ?app_nil_r.
Qed.

Lemma after_words_app bs1 bs2 ws1 ws2 r1 r2 s :
  after_words bs2 ws2 r2 (after_words bs1 ws1 r1 s) = after_words (bs1 ++ bs2) (ws1 ++ ws2) r2 s.
Proof.
  destruct s as [p r v l d [h|] [c|]]; unfold after_words, hashed, xored, set_ram, set_checksum, set_sha; cbn;
    rewrite ?app_assoc, ?foldl_app; done.
Qed.

Lemma xor_checksum_spec w s : xor_checksum w s = Some (inr tt, after_words [] [w] (ram s) s).
Proof.
  destruct s as [p r v l d [h|] [c|]]; unfold xor_checksum, modify, after_words, hashed, xored, set_ram, set_checksum, set_sha; cbn;
    by rewrite ?app_nil_r.
Qed.

Lemma hash_bytes_spec bs s : hash_bytes bs s = Some (inr tt, after_words bs [] (ram s) s).
Proof. by destruct s as [p r v l d [h|] [c|]]. Qed.

Definition stores (do_load : bool) : bool := bootloader_build e && do_load.

Lemma word_loop_spec p a n N i k dest do_load s :
  mapped_at p a N (port s) -> 0 <= i -> 0 <= k -> i + 4 * (k + Z.of_nat n) <= N ->
  word_loop e n k (p + i) (4 * (k + Z.of_nat n)) dest do_load s =
    Some (inr tt, after_words (load_bytes cells (a + i + hash_from k) (4 * (k + Z.of_nat n) - hash_from k)) (words cells n (a + i + 4 * k))
      (if stores do_load then put_words cells n k (a + i) dest (ram_obfs_value s) (ram s) else ram s) s).
Proof.
  intros Hm Hi. revert k s Hm. induction n as [|n IH]; intros k s Hm Hk Hn.
  - cbn [word_loop words put_words]. rewrite load_bytes_0 by (unfold hash_from; Z.div_mod_to_equations; lia).
    destruct (stores do_load); by rewrite after_words_nil.
  - cbn [word_loop]. rewrite <- (Z.add_assoc p).
    run_with (mapped_bytes_spec p a N 4 (i + 4 * k) s Hm ltac:(lia) ltac:(lia)).
    change (Z.of_nat 4) with 4. rewrite at32_load, !Z.add_assoc. run_with (xor_checksum_spec (load32 cells (a + i + 4 * k)) s).
    set (s1 := after_words [] [_] (ram s) s). set (w := load32 _ _).
    set (r1 := if stores do_load then write_word (dest + 4 * k) (Z.lxor w (obfs_word (ram_obfs_value s) k)) (ram s) else ram s).
    assert (when (bootloader_build e && do_load)
        (modify (fun s => set_ram (write_word (dest + 4 * k) (Z.lxor w (obfs_word (ram_obfs_value s) k)) (ram s)) s)) s1
      = Some (inr tt, after_words [] [w] r1 s)) as Ew.
    { unfold r1, stores. destruct (bootloader_build e && do_load); done. }
    run_with Ew. run. set (s2 := after_words [] [w] r1 s).
    set (bs1 := if (k * 4) mod SHA_CHUNK =? 0 then load_bytes cells (a + i + 4 * k) (Z.min SHA_CHUNK (4 * (k + Z.of_nat (S n)) - k * 4)) else []).
    assert (when (hash_open s2 && ((k * 4) mod SHA_CHUNK =? 0))
        (let! l := mapped_bytes (Z.to_nat (Z.min SHA_CHUNK (4 * (k + Z.of_nat (S n)) - k * 4))) (p + i + k * 4) in hash_bytes l) s2
      = Some (inr tt, after_words bs1 [] r1 s2)) as Eh.
    { unfold bs1. destruct (hash_open s2) eqn:Eo; cbn [andb].
      - destruct (_ =? 0); cbn [when]; [|by rewrite <- (after_words_nil s2) at 1].
        rewrite <- (Z.add_assoc p). unfold SHA_CHUNK.
        run_with (mapped_bytes_spec p a N (Z.to_nat (Z.min 1024 (4 * (k + Z.of_nat (S n)) - k * 4))) (i + k * 4) s2 Hm ltac:(lia) ltac:(lia)).
        rewrite Z2Nat.id by lia. rewrite hash_bytes_spec. replace (a + (i + k * 4)) with (a + i + 4 * k) by lia. done.
      - unfold when, ret. f_equal. f_equal. unfold hash_open in Eo. unfold after_words, hashed, xored, set_ram, set_checksum, set_sha.
        destruct s as [p0 r0 v0 l0 d0 [h0|] c0]; cbn in Eo |- *; [done|]. f_equal. by destruct c0. }
    run_with Eh. set (s3 := after_words bs1 [] r1 s2).
    replace (4 * (k + Z.of_nat (S n))) with (4 * (k + 1 + Z.of_nat n)) by lia. rewrite IH; [|exact Hm|lia|lia].
    do 2 f_equal. unfold s3, s2. rewrite !after_words_app. cbn [app]. f_equal.
    + unfold bs1, SHA_CHUNK. replace (k * 4) with (4 * k) by lia. destruct (Z.eqb_spec ((4 * k) mod 1024) 0) as [E0|E0].
      * assert (hash_from k = 4 * k) as Ek by (unfold hash_from; Z.div_mod_to_equations; lia).
        assert (hash_from (k + 1) = 4 * k + 1024) as -> by (unfold hash_from; Z.div_mod_to_equations; lia). rewrite Ek.
        destruct (Z.le_gt_cases (4 * (k + 1 + Z.of_nat n) - 4 * k) 1024).
        -- rewrite (load_bytes_0 _ (a + i + (4 * k + 1024))) by lia. rewrite app_nil_r. f_equal. lia.
        -- rewrite (Z.min_l 1024) by lia. replace (a + i + (4 * k + 1024)) with (a + i + 4 * k + 1024) by lia.
           rewrite <- load_bytes_app by lia. f_equal. lia.
      * assert (hash_from (k + 1) = hash_from k) as -> by (unfold hash_from; Z.div_mod_to_equations; lia). done.
    + replace (a + i + 4 * (k + 1)) with (a + i + 4 * k + 4) by lia. done.
    + unfold r1. by destruct (stores do_load).
Qed.

Lemma hash_from_0 : hash_from 0 = 0.
Proof. done. Qed.

(** The random words can be drawn. *)
Definition obfs_ready s : Prop := obfs_unset (ram_obfs_value s) = false \/ is_Some (next_obfs (draws s)).

Lemma next_obfs_set l v l' : next_obfs l = Some (v, l') -> obfs_unset v = false.
Proof.
  induction l as [|w l IH]; cbn [next_obfs]; [done|]. destruct (obfs_unset w) eqn:E; [exact IH|]. by intros [= <- <-].
Qed.

(** From [s] to [s'] the bytes [bs] were hashed, the words [ws] added to the
    checksum; nothing is mapped, and the random words, once set, stay. *)
Record step_to (bs ws : list Z) (s s' : load_state st) : Prop := {
  st_ready : ready (port s');
  st_obfs_ready : obfs_ready s';
  st_obfs : obfs_unset (ram_obfs_value s) = false -> ram_obfs_value s' = ram_obfs_value s;
  st_sha : sha s' = hashed bs (sha s);
  st_checksum : checksum s' = xored ws (checksum s)
}.

Lemma hashed_app bs1 bs2 h : hashed bs2 (hashed bs1 h) = hashed (bs1 ++ bs2) h.
Proof. destruct h; cbn; by rewrite ?app_assoc. Qed.

Lemma xored_app ws1 ws2 c : xored ws2 (xored ws1 c) = xored (ws1 ++ ws2) c.
Proof. destruct c; cbn; by rewrite ?foldl_app. Qed.

Lemma step_to_trans bs1 ws1 bs2 ws2 s1 s2 s3 :
  step_to bs1 ws1 s1 s2 -> step_to bs2 ws2 s2 s3 -> step_to (bs1 ++ bs2) (ws1 ++ ws2) s1 s3.
Proof.
  intros [A1 A2 A3 A4 A5] [B1 B2 B3 B4 B5]. split; [done|done| | |].
  - intros Hv. specialize (A3 Hv). rewrite B3, A3; [done|]. by rewrite A3.
  - by rewrite B4, A4, hashed_app.
  - by rewrite B5, A5, xored_app.
Qed.

Lemma hashed_nil h : hashed [] h = h.
Proof. destruct h; cbn; by rewrite ?app_nil_r. Qed.

Lemma xored_nil c : xored [] c = c.
Proof. by destruct c. Qed.

Lemma step_to_refl s : ready (port s) -> obfs_ready s -> step_to [] [] s s.
Proof. intros H1 H2. split; [done|done|done| |]; by rewrite ?hashed_nil, ?xored_nil. Qed.

(** ** One piece *)

(** What is stored of a piece. *)
Definition put_data (do_load : bool) (a n dest : Z) (v : Z * Z) (r : mem) : mem :=
  if stores do_load then put_words cells (Z.to_nat (n / 4)) 0 a dest v r else r.

(** Whether the piece starts with the descriptor of an application. *)
Definition has_desc (segment : Z) (is_segment_start : bool) s : bool :=
  (segment =? 0) && is_segment_start && negb (is_bootloader e (start_addr (data s))).

Definition desc_ok (a : Z) : bool :=
  bootloader_common_check_efuse_blk_validity e (load32 cells (a + 176) mod 65536) (load32 cells (a + 176) / 65536) =? ESP_OK.

(** The descriptor can be read, and with anti-rollback it is one and is not
    loaded. *)
Definition desc_there (a n : Z) (do_load : bool) : Prop :=
  180 <= n /\ (anti_rollback e = true -> load32 cells a = ESP_APP_DESC_MAGIC_WORD /\ stores do_load = false).

Definition with_version (first : bool) (a : Z) (d : esp_image_metadata_t) : esp_image_metadata_t :=
  if first && anti_rollback e then set_meta_secure_version (load32 cells (a + 4)) d else d.

Lemma fill_spec s : obfs_ready s ->
  exists v l, when (bootloader_build e) fill_obfs s = Some (inr tt, set_obfs v l s) /\ obfs_ready (set_obfs v l s) /\
    (obfs_unset (ram_obfs_value s) = false -> v = ram_obfs_value s) /\ (bootloader_build e = true -> obfs_unset v = false).
Proof.
  intros Hr. unfold when. destruct (bootloader_build e).
  - unfold fill_obfs. destruct (obfs_unset (ram_obfs_value s)) eqn:E.
    + destruct Hr as [|[[v l] Ev]]; [congruence|]. rewrite Ev. apply next_obfs_set in Ev as Hv.
      exists v, l. split; [done|]. split; [by left|]. by split.
    + exists (ram_obfs_value s), (draws s). split; [by destruct s|]. split; [by left|]. by split.
  - exists (ram_obfs_value s), (draws s). split; [by destruct s|]. split; [by destruct Hr; [left|right]|]. by split.
Qed.

Context (cells_byte : forall x, 0 <= cells x < 256).

Lemma load32_halves a : at16 (load_bytes cells a 4) 0 = load32 cells a mod 65536 /\ at16 (load_bytes cells a 4) 2 = load32 cells a / 65536.
Proof.
  pose proof (at32_load cells a) as E. unfold at32 in E.
  assert (0 <= at16 (load_bytes cells a 4) 0 < 65536) as H0.
  { unfold at16, at8. rewrite !load_bytes_lookup by lia. cbn -[Z.mul Z.add Z.of_nat].
    pose proof (cells_byte (a + Z.of_nat 0)). pose proof (cells_byte (a + Z.of_nat 1)). lia. }
  rewrite Z.add_comm in E. cbn [Nat.add] in E. rewrite <- E. split; Z.div_mod_to_equations; lia.
Qed.

Lemma app_desc_spec p a n s :
  mapped_at p a n (port s) -> 8 <= n -> load32 cells a = ESP_APP_DESC_MAGIC_WORD ->
  process_esp_app_desc_data p s =
    Some (inr 8, after_words (load_bytes cells a 8) (words cells 2 a) (ram s) (set_data (set_meta_secure_version (load32 cells (a + 4)) (data s)) s)).
Proof.
  intros Hm Hn Ha. unfold process_esp_app_desc_data. rewrite <- (Z.add_0_r p).
  run_with (mapped_bytes_spec p a n 8 0 s Hm ltac:(lia) ltac:(lia)). change (Z.of_nat 8) with 8. rewrite Z.add_0_r.
  assert (at32 (load_bytes cells a 8) 0 = load32 cells a) as ->.
  { rewrite <- (at32_load cells a). unfold at32, at16, at8. by rewrite !load_bytes_lookup by lia. }
  assert (at32 (load_bytes cells a 8) 4 = load32 cells (a + 4)) as ->.
  { rewrite <- (at32_load cells (a + 4)). change 8 with (4 + 4). rewrite load_bytes_app by lia.
    unfold at32, at16, at8. by rewrite !lookup_app_r by (rewrite length_load_bytes; lia). }
  rewrite Ha, Z.eqb_refl. cbn [negb].
  do 3 run. unfold ret. do 2 f_equal. destruct s as [p0 r v l d [h|] [c|]]; unfold after_words, hashed, xored, set_data, set_ram, set_checksum, set_sha; cbn;
    by rewrite ?Ha, ?Z.lxor_assoc.
Qed.

(** After the words of a piece from [off] on. *)
Lemma piece_loop p a n off dest do_load s :
  mapped_at p a n (port s) -> 0 <= off <= n -> off mod 4 = 0 -> n mod 4 = 0 -> n < 4294967296 ->
  word_loop e (Z.to_nat ((u32 (n - off) + 3) / 4)) 0 (p + off) (u32 (n - off)) dest do_load s =
    Some (inr tt, after_words (load_bytes cells (a + off) (n - off)) (words cells (Z.to_nat ((n - off) / 4)) (a + off))
      (put_data do_load (a + off) (n - off) dest (ram_obfs_value s) (ram s)) s).
Proof.
  intros Hm Hoff Hom Hnm Hn. rewrite u32_id by lia.
  assert (Z.to_nat ((n - off + 3) / 4) = Z.to_nat ((n - off) / 4)) as -> by (f_equal; Z.div_mod_to_equations; lia).
  set (k := Z.to_nat ((n - off) / 4)). assert (n - off = 4 * (0 + Z.of_nat k)) as E by (subst k; Z.div_mod_to_equations; lia).
  rewrite E at 1. rewrite (word_loop_spec p a k n off 0 dest do_load s Hm) by lia. rewrite hash_from_0, <- E.
  unfold put_data. fold k. do 2 f_equal. f_equal; f_equal; lia.
Qed.

(** A failure inside a segment: the state is good for another image. *)
Definition fails_to (s s' : load_state st) : Prop := ready (port s') /\ obfs_ready s' /\ ram s' = ram s.

Definition piece_done (first do_load : bool) (load a n : Z) (s s' : load_state st) : Prop :=
  step_to (load_bytes cells a n) (words cells (Z.to_nat (n / 4)) a) s s' /\
  data s' = with_version first a (data s) /\
  ram s' = put_data do_load a n load (ram_obfs_value s') (ram s) /\
  (stores do_load = true -> obfs_unset (ram_obfs_value s') = false).

Lemma munmap_spec p a n s : mapped_at p a n (port s) -> exists q, flash_unmap s = Some (inr tt, set_port q s) /\ ready q.
Proof. intros Hm. destruct (unmap_ready _ _ _ _ Hm) as (q & E & Hq). exists q. unfold flash_unmap. by rewrite E. Qed.

(** The part of the descriptor that is processed separately. *)
Lemma desc_part_spec p a n first do_load s :
  mapped_at p a n (port s) -> 0 <= a -> 0 < n -> (first = true -> desc_there a n do_load) ->
  exists off, 
  (if first then
     let! revs := mapped_bytes 4 (p + 176) in
     let err := bootloader_common_check_efuse_blk_validity e (at16 revs 0) (at16 revs 2) in
     if negb (err =? ESP_OK) then do! flash_unmap; throw err
     else if anti_rollback e then process_esp_app_desc_data p else ret 0
   else ret 0) s =
  (if first && negb (desc_ok a) then (let! _ := flash_unmap in throw ESP_FAIL) s
   else Some (inr off, after_words (load_bytes cells a off) (words cells (Z.to_nat (off / 4)) a) (ram s) (set_data (with_version first a (data s)) s)))
  /\ 0 <= off <= n /\ off mod 4 = 0 /\ (off = 0 \/ stores do_load = false).
Proof.
  intros Hm Ha Hn Hd. destruct first; cbn [andb].
  2:{ exists 0. rewrite load_bytes_0 by lia. cbn [words]. split; [|split; [lia|by split; [|left]]]. unfold with_version, ret. cbn [andb].
      do 2 f_equal. destruct s. cbn. symmetry. apply (after_words_nil (MkLoad _ _ _ _ _ _ _)). }
  destruct (Hd eq_refl) as [H180 Hanti]. run_with (mapped_bytes_spec p a n 4 176 s Hm ltac:(lia) ltac:(lia)).
  change (Z.of_nat 4) with 4. destruct (load32_halves (a + 176)) as [-> ->].
  unfold desc_ok. set (err := bootloader_common_check_efuse_blk_validity _ _ _).
  assert (err = ESP_OK \/ err = ESP_FAIL) as [Ee|Ee].
  { unfold err, bootloader_common_check_efuse_blk_validity. repeat case_match; auto. }
  all: rewrite Ee.
  - cbn [negb Z.eqb ESP_OK]. unfold with_version. cbn [andb]. destruct (anti_rollback e).
    + destruct (Hanti eq_refl) as [Hmagic Hst]. exists 8. rewrite (app_desc_spec p a n) by (done || lia). split; [done|]. split; [lia|]. by split; [|right].
    + exists 0. rewrite load_bytes_0 by lia. split; [|split; [lia|by split; [|left]]]. unfold ret. do 2 f_equal. destruct s. cbn. symmetry. apply (after_words_nil (MkLoad _ _ _ _ _ _ _)).
  - exists 0. split; [done|]. split; [lia|]. by split; [|left].
Qed.

Lemma piece_spec segment load a n do_load start s :
  let first := has_desc segment start s in
  has_checksum s = true -> ready (port s) -> obfs_ready s ->
  0 <= a -> 0 < n -> a mod 4 = 0 -> n mod 4 = 0 -> a + n <= limit ->
  n + a mod SPI_FLASH_MMU_PAGE_SIZE <= free_pages * SPI_FLASH_MMU_PAGE_SIZE ->
  (first = true -> desc_there a n do_load) ->
  exists s', if first && negb (desc_ok a)
    then process_segment_data e segment load a n do_load start s = Some (inl ESP_FAIL, s') /\ fails_to s s'
    else process_segment_data e segment load a n do_load start s = Some (inr tt, s') /\ piece_done first do_load load a n s s'.
Proof.
  intros first Hc Hr Ho Ha Hn Ham Hnm Hl Hw Hd. unfold process_segment_data. pose proof limit_32.
  destruct (map_ok (port s) a n Hr Ha Hn Ham Hl Hw) as (p & q & Em & Hm).
  run. rewrite Hc, andb_false_r. cbn [negb].
  assert (flash_map a n s = Some (inr (Some p), set_port q s)) as E by (unfold flash_map; by rewrite Em). run_with E.
  run. cbn [andb]. destruct (fill_spec (set_port q s) Ho) as (v & l & E2 & Ho2 & Hv & Hv2). run_with E2. run. cbn [data set_port set_obfs].
  fold (has_desc segment start s). fold first. set (s2 := set_obfs v l (set_port q s)).
  destruct (desc_part_spec p a n first do_load s2 Hm Ha Hn Hd) as (off & E3 & Hoff & Hoff4 & Hst).
  destruct (first && negb (desc_ok a)) eqn:Ef.
  - destruct (munmap_spec p a n s2 Hm) as (q' & Eu & Hq'). exists (set_port q' s2). split.
    + erewrite bind_inl; [done|]. refine (eq_trans E3 _). by run_with Eu.
    + split; [done|]. split; [done|]. done.
  - erewrite bind_inr; [|exact E3]. cbv beta zeta. set (s3 := after_words _ _ _ _).
    run_with (piece_loop p a n off load do_load s3 Hm Hoff Hoff4 Hnm ltac:(lia)).
    set (s4 := after_words _ _ _ _). destruct (munmap_spec p a n s4 Hm) as (q' & -> & Hq'). exists (set_port q' s4). split; [done|].
    assert (words cells (Z.to_nat (off / 4)) a ++ words cells (Z.to_nat ((n - off) / 4)) (a + off) = words cells (Z.to_nat (n / 4)) a) as Ew.
    { replace (Z.to_nat (n / 4)) with (Z.to_nat (off / 4) + Z.to_nat ((n - off) / 4))%nat by (Z.div_mod_to_equations; lia).
      rewrite words_app. do 2 f_equal. Z.div_mod_to_equations. lia. }
    assert (load_bytes cells a off ++ load_bytes cells (a + off) (n - off) = load_bytes cells a n) as Eb.
    { rewrite <- load_bytes_app by lia. f_equal. lia. }
    split; [|split; [done|split]].
    + split; [done|exact Ho2|exact Hv| |].
      * unfold s4, s3. cbn -[hashed]. by rewrite hashed_app, Eb.
      * unfold s4, s3. cbn -[xored]. by rewrite xored_app, Ew.
    + unfold s4, s3. cbn. unfold put_data. destruct Hst as [-> | ->]; [|done]. by rewrite Z.sub_0_r, Z.add_0_r.
    + intros Hs. apply Hv2. unfold stores in Hs. by destruct (bootloader_build e).
Qed.

(** ** A whole segment *)

Lemma put_data_app do_load a n1 n2 dest v r :
  0 <= n1 -> 0 <= n2 -> n1 mod 8 = 0 ->
  put_data do_load (a + n1) n2 (dest + n1) v (put_data do_load a n1 dest v r) = put_data do_load a (n1 + n2) dest v r.
Proof.
  intros H1 H2 Hm. unfold put_data. destruct (stores do_load); [|done].
  replace (Z.to_nat ((n1 + n2) / 4)) with (Z.to_nat (n1 / 4) + Z.to_nat (n2 / 4))%nat by (Z.div_mod_to_equations; lia).
  rewrite put_words_app, Z.add_0_l. set (k := Z.of_nat (Z.to_nat (n1 / 4))).
  assert (4 * k = n1) as Ek by (subst k; Z.div_mod_to_equations; lia).
  rewrite <- (Z.add_0_r k). rewrite put_words_shift by (Z.div_mod_to_equations; lia). by rewrite Ek.
Qed.

Lemma piece_done_app first do_load load a n1 n2 s s1 s2 :
  0 < n1 -> 0 < n2 -> n1 mod 8 = 0 -> n2 mod 4 = 0 ->
  piece_done first do_load load a n1 s s1 -> piece_done false do_load (load + n1) (a + n1) n2 s1 s2 ->
  piece_done first do_load load a (n1 + n2) s s2.
Proof.
  intros H1 H2 Hm1 Hm2 (A1 & A2 & A3 & A4) (B1 & B2 & B3 & B4). split; [|split; [|split]].
  - pose proof (step_to_trans _ _ _ _ _ _ _ A1 B1) as C. rewrite <- load_bytes_app in C by lia.
    replace (a + n1) with (a + 4 * Z.of_nat (Z.to_nat (n1 / 4))) in C by (Z.div_mod_to_equations; lia). rewrite <- words_app in C.
    replace (Z.to_nat ((n1 + n2) / 4)) with (Z.to_nat (n1 / 4) + Z.to_nat (n2 / 4))%nat by (Z.div_mod_to_equations; lia). exact C.
  - by rewrite B2, A2.
  - rewrite B3, A3. destruct (stores do_load) eqn:Es.
    + rewrite <- put_data_app by lia. by rewrite (st_obfs _ _ _ _ B1 (A4 eq_refl)).
    + unfold put_data. by rewrite Es.
  - exact B4.
Qed.

Lemma fails_to_after s s1 s2 : ram s1 = ram s -> fails_to s1 s2 -> fails_to s s2.
Proof. intros B (C1 & C2 & C3). split; [done|]. split; [done|]. by rewrite C3, B. Qed.

(** The length of the next piece. *)
Lemma next_piece a len : 0 < len -> len mod 4 = 0 ->
  let offset_page := if negb (Z.land a (SPI_FLASH_MMU_PAGE_SIZE - 1) =? 0) then 1 else 0 in
  let max_pages := if free_pages >? offset_page then free_pages - offset_page else 0 in
  let product := max_pages * SPI_FLASH_MMU_PAGE_SIZE in
  let max_image_len := if product >? 0xFFFFFFFF then 0xFFFFFFFF else product in
  let n := Z.min len max_image_len in
  (max_pages =? 0) = false /\ 0 < n <= len /\ n mod 4 = 0 /\ n + a mod SPI_FLASH_MMU_PAGE_SIZE <= free_pages * SPI_FLASH_MMU_PAGE_SIZE /\
  (n = len \/ n mod 8 = 0 /\ SPI_FLASH_MMU_PAGE_SIZE <= n).
Proof.
  pose proof pages_bounds as Hp. intros Hl Hm. cbv zeta.
  assert (Z.land a (SPI_FLASH_MMU_PAGE_SIZE - 1) = a mod 65536) as -> by (apply (Z.land_ones a 16); lia).
  change SPI_FLASH_MMU_PAGE_SIZE with 65536. assert (0 <= a mod 65536 < 65536) by (apply Z.mod_pos_bound; lia).
  assert (forall k, 1 <= k < 65536 -> (if k * 65536 >? 4294967295 then 4294967295 else k * 65536) = k * 65536) as Hk
    by (intros; rewrite Z.gtb_ltb; cmp_cases; lia).
  destruct (Z.eqb_spec (a mod 65536) 0) as [E|E]; cbn [negb].
  - assert ((free_pages >? 0) = true) as -> by lia. rewrite Hk by lia.
    split; [lia|]. destruct (Z.min_spec len ((free_pages - 0) * 65536)) as [[? ->]|[? ->]];
      (split; [lia|]; split; [Z.div_mod_to_equations; lia|]; split; [lia|]); [by left|right; Z.div_mod_to_equations; lia].
  - assert ((free_pages >? 1) = true) as -> by lia. rewrite Hk by lia.
    split; [lia|]. destruct (Z.min_spec len ((free_pages - 1) * 65536)) as [[? ->]|[? ->]];
      (split; [lia|]; split; [Z.div_mod_to_equations; lia|]; split; [lia|]); [by left|right; Z.div_mod_to_equations; lia].
Qed.

Lemma chunk_loop_spec fuel segment load a len do_load start s :
  let first := has_desc segment start s in
  len < Z.of_nat fuel * SPI_FLASH_MMU_PAGE_SIZE -> has_checksum s = true -> ready (port s) -> obfs_ready s ->
  0 <= a -> 0 < len -> a mod 4 = 0 -> len mod 4 = 0 -> a + len <= limit -> 0 <= load ->
  (stores do_load = true -> load + len <= 4294967296) ->
  (first = true -> desc_there a len do_load) ->
  exists s', if first && negb (desc_ok a)
    then chunk_loop e fuel segment load a len do_load start s = Some (inl ESP_FAIL, s') /\ fails_to s s'
    else chunk_loop e fuel segment load a len do_load start s = Some (inr tt, s') /\ piece_done first do_load load a len s s'.
Proof.
  revert load a len start s. induction fuel as [|fuel IH]; intros load a len start s first Hf Hc Hr Ho Ha Hlen Ham Hlm Hl Hload Hst Hd.
  { unfold SPI_FLASH_MMU_PAGE_SIZE, CONFIG_MMU_PAGE_SIZE in Hf. lia. }
  pose proof limit_32. cbn [chunk_loop]. rewrite (proj2 (Z.eqb_neq len 0)) by lia.
  destruct (next_piece a len Hlen Hlm) as (E0 & Hn & Hnm & Hw & Hlast). cbv zeta in E0, Hn, Hnm, Hw, Hlast |- *. rewrite E0.
  match type of Hw with ?n + _ <= _ => set (n1 := n) in * end. clearbody n1. clear E0.
  destruct (piece_spec segment load a n1 do_load start s Hc Hr Ho Ha) as (s1 & H1); [lia|done|done|lia|done| |].
  { intros Hx. destruct (Hd Hx) as [? ?]. split; [|done]. unfold SPI_FLASH_MMU_PAGE_SIZE, CONFIG_MMU_PAGE_SIZE in Hlast. lia. }
  fold first in H1. destruct (first && negb (desc_ok a)).
  { destruct H1 as [E1 F1]. exists s1. split; [by erewrite bind_inl|done]. }
  destruct H1 as [E1 D1]. run_with E1. destruct Hlast as [Hlast|[H8 Hp]].
  - rewrite Hlast, Z.sub_diag in *. exists s1. split; [by destruct fuel|done].
  - destruct (Z.eq_dec n1 len) as [->|Hne].
    { rewrite Z.sub_diag in *. exists s1. split; [by destruct fuel|done]. }
    destruct D1 as (A1 & A2 & A3 & A4). pose proof (st_checksum _ _ _ _ A1) as Hc1.
    assert (has_desc segment false s1 = false) as Hno by (unfold has_desc; by rewrite andb_false_r).
    assert (chunk_loop e fuel segment (u32 (load + n1)) (u32 (a + n1)) (len - n1) do_load false s1
          = chunk_loop e fuel segment (u32 (load + n1)) (a + n1) (len - n1) do_load false s1) as -> by (by rewrite (u32_id (a + n1)) by lia).
    destruct (IH (u32 (load + n1)) (a + n1) (len - n1) false s1) as (s2 & H2);
      try (unfold SPI_FLASH_MMU_PAGE_SIZE, CONFIG_MMU_PAGE_SIZE in *; lia).
    + unfold has_checksum in *. rewrite Hc1. by destruct (checksum s).
    + apply (st_ready _ _ _ _ A1).
    + apply (st_obfs_ready _ _ _ _ A1).
    + Z.div_mod_to_equations. lia.
    + Z.div_mod_to_equations. lia.
    + apply u32_range.
    + intros Hs. specialize (Hst Hs). rewrite u32_id by lia. lia.
    + by rewrite Hno.
    + rewrite Hno in H2. cbn [andb] in H2. destruct H2 as [-> D2]. exists s2. split; [done|].
      replace len with (n1 + (len - n1)) by lia. apply (piece_done_app _ _ _ _ _ _ s s1 s2); [lia|lia|done|Z.div_mod_to_equations; lia|by split|].
      destruct (stores do_load) eqn:Es; [specialize (Hst eq_refl); by rewrite u32_id in D2 by lia|].
      destruct D2 as (B1 & B2 & B3 & B4). split; [done|]. split; [done|]. split; [|done]. rewrite B3. unfold put_data. by rewrite Es.
Qed.
End image_props.
