(* ===== verification/ImageSpec.v ===== *)
(** * What an image is

    The format as a predicate on the flash contents ([image_ok]): headers and
    data of the segments, the checksum over all data bytes, the hash of all
    bytes before it, the length; and that [image_load] accepts exactly that. *)

From S2P Require Import Prelude EspErr Flash PartTable OtaData Mmu BootFlash Image ImageMem ImageProps.

Section format.
Context (e : env) (cells : mem).

(** ** Segments *)

Definition seg_at (a : Z) : esp_image_segment_header_t := MkSegment (load32 cells a) (load32 cells (a + 4)).

(** A header whose data start at [d]. *)
Definition header_ok (h : esp_image_segment_header_t) (d : Z) : bool :=
  (data_len h mod 4 =? 0) && (data_len h <? ESP_IMAGE_MAX_FLASH_ADDR_SIZE)
  && (negb (should_map (load_addr h)) || (d mod SPI_FLASH_MMU_PAGE_SIZE =? load_addr h mod SPI_FLASH_MMU_PAGE_SIZE)).

Definition loads (do_load : bool) (h : esp_image_segment_header_t) : bool :=
  bootloader_build e && do_load && should_load e (load_addr h).

(** Segment 0 of an application has its descriptor. *)
Definition is_desc (off : Z) (i : nat) (h : esp_image_segment_header_t) : bool :=
  (i =? 0)%nat && negb (is_bootloader e off) && (0 <? data_len h).

Definition segment_ok (off : Z) (do_load : bool) (i : nat) (a : Z) : bool :=
  let h := seg_at a in
  header_ok h (a + 8)
  && (negb (loads do_load h && (0 <? data_len h)) || bool_decide (verified_range e h = Some true))
  && (negb (is_desc off i h) || desc_ok e cells (a + 8)).

(** What the code needs not to stop the system: the flash can be read there,
    and its assertions on the load addresses and the descriptor hold. *)
Definition segment_safe (limit off : Z) (do_load : bool) (i : nat) (a : Z) : Prop :=
  let h := seg_at a in
  a + 8 <= limit /\ (header_ok h (a + 8) = true ->
    a + 8 + data_len h <= limit /\
    (loads do_load h = true -> 0 < data_len h -> is_Some (verified_range e h)) /\
    (is_desc off i h = true -> desc_there e cells (a + 8) (data_len h) (do_load && should_load e (load_addr h)))).

Definition seg_next (a : Z) : Z := a + 8 + data_len (seg_at a).

(** The metadata after a segment. *)
Definition after_segment (off : Z) (i : nat) (a : Z) (d : esp_image_metadata_t) : esp_image_metadata_t :=
  with_version e cells (is_desc off i (seg_at a)) (a + 8)
    (set_mmu_page_size SPI_FLASH_MMU_PAGE_SIZE (set_segments (<[i := seg_at a]> (segments d)) d)).
End format.

(** ** What is not written *)

Lemma write_bytes_other a bs m x : (forall i, 0 <= i < Z.of_nat (length bs) -> x <> phys (a + i)) -> write_bytes a bs m x = m x.
Proof.
  revert a m. induction bs as [|b bs IH]; intros a m Hx; cbn [write_bytes length] in *; [done|]. rewrite IH.
  - rewrite (proj2 (Z.eqb_neq _ _)); [done|]. rewrite <- (Z.add_0_r a). apply Hx. lia.
  - intros i Hi. rewrite <- Z.add_assoc. apply Hx. lia.
Qed.

Lemma write_word_other a w m x : (forall i, 0 <= i < 4 -> x <> phys (a + i)) -> write_word a w m x = m x.
Proof. intros Hx. by apply write_bytes_other. Qed.

Lemma put_words_other m n k a dest v r x :
  (forall i, 4 * k <= i < 4 * (k + Z.of_nat n) -> x <> phys (dest + i)) -> put_words m n k a dest v r x = r x.
Proof.
  revert k r. induction n as [|n IH]; intros k r Hx; cbn [put_words]; [done|]. rewrite IH by (intros; apply Hx; lia).
  apply write_word_other. intros i Hi. rewrite <- Z.add_assoc. apply Hx. lia.
Qed.

(** The bytes of the bootloader stay. *)
Definition frame (e : env) (r r' : mem) : Prop := env_ok e -> forall x, protected e x -> r' x = r x.

Lemma frame_refl e r : frame e r r.
Proof. done. Qed.

Lemma frame_trans e r1 r2 r3 : frame e r1 r2 -> frame e r2 r3 -> frame e r1 r3.
Proof. intros H1 H2 He x Hx. by rewrite H2, H1. Qed.

Section image_spec.
Context {st : Type} `{FlashPort st} (e : env) (cells : mem) {spec : FlashPortSpec st cells}.
Context (cells_byte : forall x, 0 <= cells x < 256).
Implicit Types s : load_state st.

Lemma load32_bounds a : 0 <= load32 cells a < 4294967296.
Proof.
  unfold load32. pose proof (cells_byte a). pose proof (cells_byte (a + 1)). pose proof (cells_byte (a + 2)). pose proof (cells_byte (a + 3)). lia.
Qed.

Lemma flash_read_spec a n s :
  ready (port s) -> 0 <= a -> 0 <= n -> a mod 4 = 0 -> n mod 4 = 0 -> a + n <= limit ->
  exists q, flash_read a n s = Some (inr (load_bytes cells a n), set_port q s) /\ ready q.
Proof.
  intros Hr Ha Hn Ham Hnm Hl. destruct (read_aligned (port s) a n Hr Ha Hn Ham Hnm Hl) as (q & E & Hq).
  exists q. unfold flash_read. by rewrite E.
Qed.

Lemma segment_header_load a : segment_header (load_bytes cells a 8) = seg_at cells a.
Proof.
  unfold segment_header, seg_at. f_equal.
  - rewrite <- (at32_load cells a). unfold at32, at16, at8. by rewrite !load_bytes_lookup by lia.
  - rewrite <- (at32_load cells (a + 4)). change 8 with (4 + 4). rewrite load_bytes_app by lia.
    unfold at32, at16, at8. by rewrite !lookup_app_r by (rewrite length_load_bytes; lia).
Qed.

(** What is checked of a header. *)
Lemma verify_segment_header_spec h d s : 0 <= data_len h ->
  exists m, verify_segment_header h d s = Some (if header_ok h d then inr tt else inl ESP_ERR_IMAGE_INVALID, set_data m s) /\
    (header_ok h d = true -> m = set_mmu_page_size SPI_FLASH_MMU_PAGE_SIZE (data s)).
Proof.
  intros Hl. unfold verify_segment_header, header_ok. rewrite flag3, Z.geb_leb. unfold check.
  destruct (data_len h mod 4 =? 0) eqn:E1; cbn [negb orb andb].
  2:{ exists (data s). split; [by destruct s|done]. }
  rewrite Z.leb_antisym. destruct (data_len h <? ESP_IMAGE_MAX_FLASH_ADDR_SIZE); cbn [negb andb].
  2:{ exists (data s). split; [by destruct s|done]. }
  do 2 run. exists (set_mmu_page_size SPI_FLASH_MMU_PAGE_SIZE (data s)). split; [|done].
  by destruct (should_map (load_addr h)), (d mod _ =? _).
Qed.

(** Both possible ends of an operation on a state with a checksum. *)
Definition segment_done (off : Z) (do_load : bool) (i : nat) (a : Z) (s s' : load_state st) : Prop :=
  let h := seg_at cells a in
  step_to cells (load_bytes cells a (8 + data_len h)) (words cells (Z.to_nat (data_len h / 4)) (a + 8)) s s' /\
  data s' = after_segment e cells off i a (data s) /\
  ram s' = put_data e cells (do_load && should_load e (load_addr h)) (a + 8) (data_len h) (load_addr h) (ram_obfs_value s') (ram s) /\
  (loads e do_load h = true -> 0 < data_len h -> obfs_unset (ram_obfs_value s') = false).

Lemma loads_stores do_load h : stores e (do_load && should_load e (load_addr h)) = loads e do_load h.
Proof. unfold stores, loads. by rewrite andb_assoc. Qed.

(** The check of the load addresses. *)
Lemma loadable_spec do_load h s : (loads e do_load h = true -> 0 < data_len h -> is_Some (verified_range e h)) ->
  (if bootloader_build e && (do_load && should_load e (load_addr h)) && (data_len h >? 0)
   then given (verified_range e h) else ret true) s =
  Some (inr (negb (loads e do_load h && (0 <? data_len h)) || bool_decide (verified_range e h = Some true)), s).
Proof.
  intros Hs. rewrite andb_assoc. fold (loads e do_load h). rewrite Z.gtb_ltb.
  destruct (loads e do_load h), (Z.ltb_spec 0 (data_len h)); cbn [andb negb orb]; try done.
  destruct Hs as [b ->]; [done|done|]. cbn [negb orb given]. unfold ret. do 3 f_equal. destruct b; symmetry; [by apply bool_decide_eq_true_2|by apply bool_decide_eq_false_2].
Qed.

Lemma chunk_fuel_enough n : 0 <= n -> n < Z.of_nat (chunk_fuel n) * SPI_FLASH_MMU_PAGE_SIZE.
Proof. intros Hn. unfold chunk_fuel, SPI_FLASH_MMU_PAGE_SIZE, CONFIG_MMU_PAGE_SIZE. Z.div_mod_to_equations. lia. Qed.

#[local] Opaque chunk_loop chunk_fuel load_bytes words put_words verify_load_addresses.

Lemma process_segment_spec off do_load i a s :
  has_checksum s = true -> ready (port s) -> obfs_ready s -> start_addr (data s) = off -> (i < length (segments (data s)))%nat ->
  0 <= a -> a mod 4 = 0 -> segment_safe e cells limit off do_load i a ->
  exists s', if segment_ok e cells off do_load i a
    then process_segment e i a do_load s = Some (inr (data_len (seg_at cells a)), s') /\ segment_done off do_load i a s s'
    else exists err, process_segment e i a do_load s = Some (inl err, s') /\ err <> ESP_OK /\ fails_to cells s s'.
Proof.
  intros Hc Hr Ho Hoff Hi Ha Ham [Hl Hsafe]. pose proof limit_32. unfold process_segment, sizeof_segment_header.
  destruct (flash_read_spec a 8 s Hr Ha ltac:(lia) Ham ltac:(done) Hl) as (q & E1 & Hq). run_with E1.
  rewrite segment_header_load. set (h := seg_at cells a) in *.
  assert (0 <= data_len h < 4294967296) as Hlen by apply load32_bounds. assert (0 <= load_addr h < 4294967296) as Hla by apply load32_bounds.
  set (s1 := set_data (set_segments (<[i := h]> (segments (data s))) (data s)) (set_port q s)).
  assert (try_update_data (put_segment i h) (set_port q s) = Some (inr tt, s1)) as E2.
  { unfold try_update_data, put_segment. cbn [data set_port]. by rewrite (proj2 (Nat.ltb_lt _ _) Hi). }
  run_with E2. run_with (hash_bytes_spec (load_bytes cells a 8) s1). set (s2 := after_words _ _ _ s1).
  rewrite (u32_id (a + 8)) by lia. destruct (verify_segment_header_spec h (a + 8) s2) as (m & E3 & Hm); [lia|].
  unfold segment_ok. fold h. destruct (header_ok h (a + 8)) eqn:Eh; cbn [andb].
  2:{ exists (set_data m s2), ESP_ERR_IMAGE_INVALID. split; [by erewrite bind_inl|]. split; [done|]. by repeat split. }
  run_with E3. rewrite Hm by done. set (s3 := set_data _ s2). destruct (Hsafe eq_refl) as (Hend & Hload & Hdesc).
  unfold header_ok in Eh. apply andb_true_iff in Eh as [Eh _]. apply andb_true_iff in Eh as [Hlm _]. rewrite Hlm. apply Z.eqb_eq in Hlm.
  run. fold (verified_range e h). run_with (loadable_spec do_load h s3 Hload).
  destruct (negb (loads e do_load h && (0 <? data_len h)) || bool_decide (verified_range e h = Some true)) eqn:Er; cbn [check andb].
  2:{ exists s3, ESP_ERR_IMAGE_INVALID. split; [by erewrite bind_inl|]. split; [done|]. by repeat split. }
  run. set (dl := do_load && should_load e (load_addr h)) in *.
  assert (step_to cells (load_bytes cells a 8) [] s s3) as Hstep.
  { by split. }
  assert (has_checksum s3 = true) as Hc3 by (revert Hc; unfold has_checksum; cbn; by destruct (checksum s)).
  destruct (Z.eq_dec (data_len h) 0) as [E0|E0].
  - (* nothing to process *)
    exists s3. unfold is_desc. rewrite E0, Z.ltb_irrefl, andb_false_r. cbn [negb orb]. split; [done|].
    unfold segment_done. fold h. rewrite E0. split; [|split; [|split; [|lia]]].
    + by rewrite Z.add_0_r.
    + unfold after_segment, is_desc. fold h. rewrite E0, Z.ltb_irrefl, andb_false_r. done.
    + unfold put_data. by destruct (stores e _).
  - assert (has_desc e (Z.of_nat i) true s3 = is_desc e off i h) as Ed.
    { unfold has_desc, is_desc. change (start_addr (data s3)) with (start_addr (data s)).
      rewrite Hoff, (proj2 (Z.ltb_lt 0 (data_len h))) by lia. destruct i; [by rewrite !andb_true_r|done]. }
    destruct (chunk_loop_spec e cells cells_byte (chunk_fuel (data_len h)) (Z.of_nat i) (load_addr h) (a + 8) (data_len h) dl true s3) as (s4 & H4);
      [by apply chunk_fuel_enough; lia|done|done|done|lia|lia|Z.div_mod_to_equations; lia|done|lia|lia| | |].
    { unfold dl. rewrite loads_stores. intros Hs. rewrite Hs, (proj2 (Z.ltb_lt 0 (data_len h))) in Er by lia. cbn in Er.
      apply bool_decide_eq_true, verified_in_ram in Er as []; soc; lia. }
    { intros Hd. apply Hdesc. by rewrite <- Ed. }
    rewrite Ed in H4. destruct (is_desc e off i h) eqn:Edesc; cbn [negb orb andb] in H4 |- *.
    + destruct (desc_ok e cells (a + 8)); cbn [negb] in H4.
      * exists s4. destruct H4 as [E4 (D1 & D2 & D3 & D4)]. split; [by run_with E4|]. unfold segment_done. fold h.
        split; [|split; [|split]].
        -- pose proof (step_to_trans cells _ _ _ _ _ _ _ Hstep D1) as D. rewrite <- load_bytes_app in D by lia. exact D.
        -- unfold after_segment. fold h. by rewrite Edesc, D2.
        -- exact D3.
        -- intros Hs _. apply D4. unfold dl. by rewrite loads_stores.
      * exists s4, ESP_FAIL. destruct H4 as [E4 F4]. split; [by erewrite bind_inl|]. split; [done|]. by apply (fails_to_after cells s s3).
    + exists s4. destruct H4 as [E4 (D1 & D2 & D3 & D4)]. split; [by run_with E4|]. unfold segment_done. fold h.
      split; [|split; [|split]].
      * pose proof (step_to_trans cells _ _ _ _ _ _ _ Hstep D1) as D. rewrite <- load_bytes_app in D by lia. exact D.
      * unfold after_segment. fold h. by rewrite Edesc, D2.
      * exact D3.
      * intros Hs _. apply D4. unfold dl. by rewrite loads_stores.
Qed.

(** ** All segments *)

Fixpoint segs_ok (off : Z) (do_load : bool) (n i : nat) (a : Z) : bool :=
  match n with
  | O => true
  | S n => segment_ok e cells off do_load i a && segs_ok off do_load n (S i) (seg_next cells a)
  end.

Fixpoint segs_end (n : nat) (a : Z) : Z := match n with O => a | S n => segs_end n (seg_next cells a) end.

Fixpoint segs_safe (lim off : Z) (do_load : bool) (n i : nat) (a : Z) : Prop :=
  match n with
  | O => True
  | S n => segment_safe e cells lim off do_load i a /\
           (segment_ok e cells off do_load i a = true -> segs_safe lim off do_load n (S i) (seg_next cells a))
  end.

(** The words of the data of all segments. *)
Fixpoint segs_words (n : nat) (a : Z) : list Z :=
  match n with
  | O => []
  | S n => words cells (Z.to_nat (data_len (seg_at cells a) / 4)) (a + 8) ++ segs_words n (seg_next cells a)
  end.

Fixpoint put_segs (do_load : bool) (n : nat) (a : Z) (v : Z * Z) (r : mem) : mem :=
  match n with
  | O => r
  | S n =>
      let h := seg_at cells a in
      put_segs do_load n (seg_next cells a) v
        (put_data e cells (do_load && should_load e (load_addr h)) (a + 8) (data_len h) (load_addr h) v r)
  end.

Fixpoint segs_data (off : Z) (n i : nat) (a : Z) (d : esp_image_metadata_t) : esp_image_metadata_t :=
  match n with
  | O => d
  | S n =>
      let d := after_segment e cells off i a d in
      segs_data off n (S i) (seg_next cells a) (set_segment_data (<[i := a + 8]> (segment_data d)) d)
  end.

(** Whether something is stored. *)
Fixpoint segs_store (do_load : bool) (n : nat) (a : Z) : bool :=
  match n with
  | O => false
  | S n => (loads e do_load (seg_at cells a) && (0 <? data_len (seg_at cells a))) || segs_store do_load n (seg_next cells a)
  end.

(** Where segments are loaded, with their contents. *)
Fixpoint layout (n : nat) (a : Z) : list (Z * esp_image_segment_header_t) :=
  match n with O => [] | S n => (a + 8, seg_at cells a) :: layout n (seg_next cells a) end.

Lemma put_data_frame off do_load i a v r : segment_ok e cells off do_load i a = true ->
  let h := seg_at cells a in
  frame e r (put_data e cells (do_load && should_load e (load_addr h)) (a + 8) (data_len h) (load_addr h) v r).
Proof.
  intros Hok h He x Hx. unfold put_data. rewrite loads_stores. destruct (loads e do_load h) eqn:El; [|done].
  apply put_words_other. intros j Hj ->. unfold segment_ok in Hok. fold h in Hok. rewrite El, !andb_true_iff in Hok.
  destruct Hok as [[_ Hv] _]. pose proof (load32_bounds (a + 4) : 0 <= data_len h < _). pose proof (load32_bounds a : 0 <= load_addr h < _).
  rewrite (proj2 (Z.ltb_lt 0 (data_len h))) in Hv by (Z.div_mod_to_equations; lia). cbn in Hv. apply bool_decide_eq_true in Hv.
  apply (verified_unprotected e h j He); [done|Z.div_mod_to_equations; lia|lia|done|done].
Qed.

Lemma put_segs_frame off do_load n i a v r : segs_ok off do_load n i a = true -> frame e r (put_segs do_load n a v r).
Proof.
  revert i a r. induction n as [|n IH]; intros i a r Hok; cbn [put_segs segs_ok] in *; [done|].
  apply andb_true_iff in Hok as [H1 H2]. eapply frame_trans; [by apply (put_data_frame off do_load i)|by apply (IH (S i))].
Qed.

Definition segs_done (off : Z) (do_load : bool) (n i : nat) (a : Z) (s s' : load_state st) : Prop :=
  step_to cells (load_bytes cells a (segs_end n a - a)) (segs_words n a) s s' /\
  data s' = segs_data off n i a (data s) /\
  ram s' = put_segs do_load n a (ram_obfs_value s') (ram s) /\
  (segs_store do_load n a = true -> obfs_unset (ram_obfs_value s') = false).

Lemma segs_end_le n a : a <= segs_end n a.
Proof.
  revert a. induction n as [|n IH]; intros a; cbn [segs_end]; [lia|]. specialize (IH (seg_next cells a)).
  unfold seg_next in *. pose proof (load32_bounds (a + 4)). cbn in *. lia.
Qed.

Lemma after_segment_fields off i a d :
  start_addr (after_segment e cells off i a d) = start_addr d /\
  segments (after_segment e cells off i a d) = <[i := seg_at cells a]> (segments d) /\
  segment_data (after_segment e cells off i a d) = segment_data d.
Proof. unfold after_segment, with_version. by destruct (is_desc _ _ _ _ && anti_rollback e). Qed.

Lemma put_data_none a n dest v r : put_data e cells false a n dest v r = r.
Proof. unfold put_data, stores. by rewrite andb_false_r. Qed.

Lemma put_data_same do_load h a v w r :
  (loads e do_load h = true -> 0 < data_len h -> v = w) -> 0 <= data_len h ->
  put_data e cells (do_load && should_load e (load_addr h)) a (data_len h) (load_addr h) v r =
  put_data e cells (do_load && should_load e (load_addr h)) a (data_len h) (load_addr h) w r.
Proof.
  intros Hv Hl. unfold put_data. rewrite loads_stores. destruct (loads e do_load h); [|done].
  destruct (Z.eq_dec (data_len h) 0) as [->|]; [done|]. by rewrite Hv by (done || lia).
Qed.

(** A failure in some segment: the state is good for another image. *)
Definition stops_at (do_load : bool) (s s' : load_state st) : Prop :=
  ready (port s') /\ obfs_ready s' /\ (do_load = false -> ram s' = ram s) /\ frame e (ram s) (ram s').

Lemma segment_loop_spec off do_load n i a s :
  has_checksum s = true -> ready (port s) -> obfs_ready s -> start_addr (data s) = off ->
  length (segments (data s)) = 16%nat -> length (segment_data (data s)) = 16%nat -> (i + n <= 16)%nat ->
  0 <= a -> a mod 4 = 0 -> segs_safe limit off do_load n i a ->
  exists s', if segs_ok off do_load n i a
    then segment_loop e n i a do_load s = Some (inr (segs_end n a), s') /\ segs_done off do_load n i a s s'
    else exists err, segment_loop e n i a do_load s = Some (inl err, s') /\ err <> ESP_OK /\ stops_at do_load s s'.
Proof.
  revert i a s. induction n as [|n IH]; intros i a s Hc Hr Ho Hoff Hl1 Hl2 Hn Ha Ham Hsafe; cbn [segment_loop segs_ok].
  - exists s. split; [done|]. split; [|done]. cbn [segs_end segs_words]. rewrite Z.sub_diag, load_bytes_0 by lia. by apply step_to_refl.
  - cbn [segs_safe] in Hsafe. destruct Hsafe as [Hs1 Hs2]. pose proof limit_32.
    destruct (process_segment_spec off do_load i a s Hc Hr Ho Hoff ltac:(lia) Ha Ham Hs1) as (s1 & H1).
    destruct (segment_ok e cells off do_load i a) eqn:Eok; cbn [andb].
    2:{ destruct H1 as (err & E1 & Herr & G1 & G2 & G3). exists s1, err. split; [by erewrite bind_inl|]. split; [done|]. split; [done|]. split; [done|]. rewrite G3. by split. }
    destruct H1 as [E1 (D1 & D2 & D3 & D4)]. run_with E1. set (h := seg_at cells a) in *.
    assert (header_ok h (a + 8) = true) as Eh by (unfold segment_ok in Eok; fold h in Eok; by destruct (header_ok h (a + 8))).
    destruct Hs1 as [Hl8 Hs1]. fold h in Hs1. destruct (Hs1 Eh) as (Hend & _).
    assert (0 <= data_len h) as Hdl by apply load32_bounds.
    assert (data_len h mod 4 = 0) as Hdm by (unfold header_ok in Eh; rewrite !andb_true_iff in Eh; lia).
    destruct (after_segment_fields off i a (data s)) as (F1 & F2 & F3). rewrite <- D2 in F1, F2, F3.
    unfold sizeof_segment_header. rewrite (u32_id (a + 8)) by lia. set (s2 := set_data (set_segment_data (<[i := a + 8]> (segment_data (data s1))) (data s1)) s1).
    assert (try_update_data (put_segment_data i (a + 8)) s1 = Some (inr tt, s2)) as E2.
    { unfold try_update_data, put_segment_data. by rewrite (proj2 (Nat.ltb_lt _ _)) by (rewrite F3; lia). }
    run_with E2. rewrite u32_id by lia. change (a + 8 + data_len h) with (seg_next cells a).
    pose proof (st_ready _ _ _ _ _ D1) as R1. pose proof (st_obfs_ready _ _ _ _ _ D1) as O1. pose proof (st_checksum _ _ _ _ _ D1) as C1.
    destruct (IH (S i) (seg_next cells a) s2) as (s3 & H3); try done.
    + unfold has_checksum in *. change (checksum s2) with (checksum s1). rewrite C1. by destruct (checksum s).
    + unfold s2. cbn. by rewrite F1.
    + unfold s2. cbn. by rewrite F2, length_insert.
    + unfold s2. cbn. by rewrite length_insert, F3.
    + lia.
    + unfold seg_next. fold h. lia.
    + unfold seg_next. fold h. Z.div_mod_to_equations. lia.
    + by apply Hs2.
    + destruct (segs_ok off do_load n (S i) (seg_next cells a)).
      2:{ destruct H3 as (err & E3 & Herr & (G1 & G2 & G3 & G4)). exists s3, err. split; [done|]. split; [done|]. split; [done|]. split; [done|].
          split; [|eapply frame_trans; [|exact G4]; change (ram s2) with (ram s1); rewrite D3; by apply (put_data_frame off do_load i)].
          intros ->. rewrite G3 by done. change (ram s2) with (ram s1). by rewrite D3, andb_false_l, put_data_none. }
      exists s3. destruct H3 as [E3 (G1 & G2 & G3 & G4)]. split; [done|]. cbn [segs_end].
      assert (step_to cells (load_bytes cells a (8 + data_len h)) (words cells (Z.to_nat (data_len h / 4)) (a + 8)) s s2) as D1' by (destruct D1; by split).
      split; [|split; [|split]].
      * pose proof (step_to_trans cells _ _ _ _ _ _ _ D1' G1) as G. pose proof (segs_end_le n (seg_next cells a)).
        replace (seg_next cells a) with (a + (8 + data_len h)) in G at 1 by (unfold seg_next; fold h; lia).
        rewrite <- load_bytes_app in G by lia.
        replace (8 + data_len h + (segs_end n (seg_next cells a) - seg_next cells a)) with (segs_end n (seg_next cells a) - a) in G
          by (unfold seg_next; fold h; lia). exact G.
      * cbn [segs_data]. by rewrite G2, <- D2.
      * cbn [put_segs]. fold h. rewrite G3. f_equal. change (ram s2) with (ram s1). rewrite D3. apply put_data_same; [|done].
        intros Hs Hp. symmetry. apply (st_obfs _ _ _ _ _ G1). by apply D4.
      * cbn [segs_store]. fold h. intros [Hs|Hs]%orb_true_iff; [|by apply G4]. apply andb_true_iff in Hs as [Hs Hp].
        pose proof (D4 Hs ltac:(lia)) as Hu. rewrite (st_obfs _ _ _ _ _ G1); exact Hu.
Qed.

End image_spec.
