(* ===== verification/ImageWhole.v ===== *)
(** * An image is accepted exactly when it is well-formed

    The format of a whole image as a predicate on the flash contents, and the
    outcome of [image_load] for the modes that verify. *)

From S2P Require Import Prelude EspErr Flash PartTable OtaData Mmu BootFlash Image ImageMem ImageProps ImageSpec.

#[local] Opaque chunk_loop chunk_fuel put_words verify_load_addresses.

(** ** The checksum, byte by byte *)

Lemma calc_lxor a b : calc_checksum (Z.lxor a b) = Z.lxor (calc_checksum a) (calc_checksum b).
Proof.
  unfold calc_checksum. apply Z.bits_inj'. intros i Hi. rewrite Z.lxor_spec, !testbit_uN by lia.
  rewrite !Z.lxor_spec, !Z.shiftr_spec, !Z.lxor_spec by lia. destruct (i <? 8); [|done]. cbn [andb].
  destruct (Z.testbit a _), (Z.testbit a _), (Z.testbit a _), (Z.testbit a _), (Z.testbit b _), (Z.testbit b _), (Z.testbit b _), (Z.testbit b _); done.
Qed.

Lemma u8_lxor a b : u8 (Z.lxor a b) = Z.lxor (u8 a) (u8 b).
Proof.
  apply Z.bits_inj'. intros i Hi. rewrite Z.lxor_spec, !testbit_uN, Z.lxor_spec by lia. by destruct (i <? 8).
Qed.

Section checksum.
Context (cells : mem) (cells_byte : forall x, 0 <= cells x < 256).

Lemma calc_load32 a :
  calc_checksum (load32 cells a) = foldl Z.lxor 0 (load_bytes cells a 4).
Proof.
  replace (load_bytes cells a 4) with [cells a; cells (a + 1); cells (a + 2); cells (a + 3)] by
    (unfold load_bytes; change (Z.to_nat 4) with 4%nat; cbn -[Z.add Z.of_nat]; by rewrite Z.add_0_r).
  unfold calc_checksum. cbn [foldl]. rewrite !u8_lxor, !Z.shiftr_div_pow2 by lia. rewrite Z.lxor_0_l. unfold uN.
  pose proof (cells_byte a). pose proof (cells_byte (a + 1)). pose proof (cells_byte (a + 2)). pose proof (cells_byte (a + 3)).
  set (w := load32 cells a).
  assert ((w / 2 ^ 24) mod 2 ^ 8 = cells (a + 3)) as -> by (subst w; unfold load32; Z.div_mod_to_equations; lia).
  assert ((w / 2 ^ 16) mod 2 ^ 8 = cells (a + 2)) as -> by (subst w; unfold load32; Z.div_mod_to_equations; lia).
  assert ((w / 2 ^ 8) mod 2 ^ 8 = cells (a + 1)) as -> by (subst w; unfold load32; Z.div_mod_to_equations; lia).
  assert (w mod 2 ^ 8 = cells a) as -> by (subst w; unfold load32; Z.div_mod_to_equations; lia).
  apply Z.bits_inj'. intros i Hi. rewrite !Z.lxor_spec.
  destruct (Z.testbit (cells a) i), (Z.testbit (cells (a + 1)) i), (Z.testbit (cells (a + 2)) i), (Z.testbit (cells (a + 3)) i); done.
Qed.

Lemma foldl_lxor c l : foldl Z.lxor c l = Z.lxor c (foldl Z.lxor 0 l).
Proof.
  revert c. induction l as [|x l IH]; intros c; cbn [foldl]; [by rewrite Z.lxor_0_r|].
  rewrite IH, (IH (Z.lxor 0 x)), Z.lxor_0_l. apply Z.lxor_assoc.
Qed.

Lemma calc_words n a c :
  calc_checksum (foldl Z.lxor c (words cells n a)) = foldl Z.lxor (calc_checksum c) (load_bytes cells a (4 * Z.of_nat n)).
Proof.
  revert a c. induction n as [|n IH]; intros a c; cbn [words foldl]; [by rewrite load_bytes_0 by lia|].
  rewrite IH, calc_lxor, calc_load32. replace (4 * Z.of_nat (S n)) with (4 + 4 * Z.of_nat n) by lia.
  rewrite load_bytes_app, foldl_app by lia. f_equal. by rewrite (foldl_lxor (calc_checksum c)).
Qed.

Lemma segment_ok_len e off do_load i a : segment_ok e cells off do_load i a = true -> data_len (seg_at cells a) mod 4 = 0.
Proof. unfold segment_ok, header_ok. rewrite !andb_true_iff. intros [[[[E _] _] _] _]. by apply Z.eqb_eq in E. Qed.

(** The data bytes of all segments. *)
Fixpoint payload (n : nat) (a : Z) : list Z :=
  match n with
  | O => []
  | S n => load_bytes cells (a + 8) (data_len (seg_at cells a)) ++ payload n (seg_next cells a)
  end.

Lemma calc_segs e off do_load n i a c : segs_ok e cells off do_load n i a = true ->
  calc_checksum (foldl Z.lxor c (segs_words cells n a)) = foldl Z.lxor (calc_checksum c) (payload n a).
Proof.
  revert i a c. induction n as [|n IH]; intros i a c Hok; cbn [segs_words payload]; [done|].
  cbn [segs_ok] in Hok. apply andb_true_iff in Hok as [H1 H2]. rewrite !foldl_app, (IH (S i)), calc_words by done.
  apply segment_ok_len in H1. pose proof (load32_bounds cells cells_byte (a + 4)) as Hb.
  do 2 f_equal. cbn [data_len seg_at] in *. f_equal. Z.div_mod_to_equations. lia.
Qed.

Lemma segs_end_mod e off do_load n i a : segs_ok e cells off do_load n i a = true -> segs_end cells n a mod 4 = a mod 4.
Proof.
  revert i a. induction n as [|n IH]; intros i a Hok; cbn [segs_end]; [done|].
  cbn [segs_ok] in Hok. apply andb_true_iff in Hok as [H1 H2]. rewrite (IH (S i)) by done.
  apply segment_ok_len in H1. unfold seg_next. Z.div_mod_to_equations. lia.
Qed.
End checksum.

(** ** The padding *)

Lemma land_16 x : 0 <= x < 4294967296 -> Z.land x (u32 (Z.lnot 15)) = x / 16 * 16.
Proof.
  intros Hx. change (u32 _) with (Z.ldiff (Z.ones 32) (Z.ones 4)).
  replace (Z.land x (Z.ldiff (Z.ones 32) (Z.ones 4))) with (Z.ldiff (Z.land x (Z.ones 32)) (Z.ones 4)).
  - rewrite Z.ldiff_ones_r, Z.land_ones, Z.shiftl_mul_pow2, Z.shiftr_div_pow2 by lia. by rewrite Z.mod_small by lia.
  - apply Z.bits_inj'. intros i Hi. rewrite Z.ldiff_spec, !Z.land_spec, Z.ldiff_spec. by rewrite andb_assoc.
Qed.

(** The length with the checksum, a multiple of 16. *)
Definition padded (n : Z) : Z := n / 16 * 16 + 16.

Lemma padding_length_spec n : 0 <= n < 4294967280 -> padding_length n = padded n - n.
Proof.
  intros Hn. unfold padding_length, padded. rewrite (u32_id (n + 1)), (u32_id (n + 1 + 15)) by lia. rewrite land_16 by lia.
  rewrite u32_id; Z.div_mod_to_equations; lia.
Qed.

(** ** The format *)

Section whole.
Context (e : env) (cells : mem).

Definition header_at (off : Z) : esp_image_header_t := load_bytes cells off 24.
Definition n_segs (off : Z) : nat := Z.to_nat (segment_count (header_at off)).
Definition data_end (off : Z) : Z := segs_end cells (n_segs off) (off + 24).
Definition hashed_len (off : Z) : Z := padded (data_end off - off).
Definition image_size (off : Z) : Z := hashed_len off + (if hash_appended (header_at off) then 32 else 0).

Definition checksum_ok (off : Z) : bool :=
  foldl Z.lxor ESP_ROM_CHECKSUM_INITIAL (payload cells (n_segs off) (off + 24)) =? cells (off + hashed_len off - 1).

Definition hash_ok (off : Z) : bool :=
  bool_decide (load_bytes cells (off + hashed_len off) 32 = sha256 e (load_bytes cells off (hashed_len off))).

Definition hash_wanted (off : Z) : bool := hash_appended (header_at off) && negb (is_bootloader e off).

(** The version that the image declares, where anti-rollback reads it. *)
Definition version_ok (off : Z) : bool :=
  negb (anti_rollback e) ||
  esp_efuse_check_secure_version (efuse_size e) (efuse_bits e)
    (if is_desc e off 0 (seg_at cells (off + 24)) && (0 <? segment_count (header_at off)) then load32 cells (off + 36) else 0).

(** A debugger that is attached turns the checksum and the hash off. *)
Definition image_wf (do_load : bool) (off size : Z) : bool :=
  (off mod 4 =? 0)
  && (verify_image_header e off (header_at off) =? ESP_OK)
  && segs_ok e cells off do_load (n_segs off) 0 (off + 24)
  && (esp_cpu_dbgr_is_attached e || checksum_ok off)
  && (image_size off <=? size)
  && (negb (hash_wanted off) || esp_cpu_dbgr_is_attached e || hash_ok off)
  && (negb do_load || version_ok off).

(** The image can be read, and no assertion fails on the way. *)
Definition image_safe (limit off : Z) (do_load : bool) : Prop :=
  0 <= off /\ off + 24 <= limit /\
  (verify_image_header e off (header_at off) = ESP_OK ->
   segs_safe e cells limit off do_load (n_segs off) 0 (off + 24) /\
   (segs_ok e cells off do_load (n_segs off) 0 (off + 24) = true -> data_end off + 48 <= limit)).

Definition start_meta (off : Z) : esp_image_metadata_t :=
  set_image_len 24 (set_image (header_at off) (set_start_addr off zero_meta)).

Definition image_meta (off : Z) : esp_image_metadata_t :=
  let d := set_image_len (image_size off) (segs_data e cells off (n_segs off) 0 (off + 24) (start_meta off)) in
  if hash_appended (header_at off) then set_image_digest (load_bytes cells (off + hashed_len off) 32) d else d.
End whole.

(** ** The parts of [image_load] *)

Section image_whole.
Context {st : Type} `{FlashPort st} (e : env) (cells : mem) {spec : FlashPortSpec st cells}.
Context (cells_byte : forall x, 0 <= cells x < 256) (sha_ok : sha_available e = true).
Implicit Types s : load_state st.

Definition open_hash (b : bool) (l : list Z) : option (list Z) := if b then Some l else None.

Lemma header_spec off hash s :
  ready (port s) -> sha s = None -> 0 <= off -> off mod 4 = 0 -> off + 24 <= limit ->
  exists q d h, ready q /\
    process_image_header e off hash true s =
      Some (if verify_image_header e off (header_at cells off) =? ESP_OK then inr tt else inl (verify_image_header e off (header_at cells off)),
            set_data d (set_sha h (set_port q s))) /\
    (verify_image_header e off (header_at cells off) = ESP_OK ->
     d = start_meta cells off /\ h = open_hash (hash_appended (header_at cells off) && hash) (load_bytes cells off 24)).
Proof.
  intros Hr Hsha Ho Hm Hl. unfold process_image_header, sizeof_header. run.
  set (s0 := set_data _ s). destruct (flash_read_spec cells off 24 s0) as (q & E & Hq); [done..|].
  run_with E. run. fold (header_at cells off). set (hd := header_at cells off).
  set (d1 := set_image hd (set_start_addr off zero_meta)). cbn [when]. set (s1 := set_data _ _).
  assert (when (hash_appended hd && hash)
       (if sha_available e then do! modify (set_sha (Some [])); hash_bytes hd else throw ESP_ERR_NO_MEM) s1
     = Some (inr tt, set_data d1 (set_sha (open_hash (hash_appended hd && hash) hd) (set_port q s)))) as E1.
  { rewrite sha_ok. destruct (hash_appended hd && hash); cbn [when open_hash]; [done|]. unfold ret. do 2 f_equal.
    unfold s1, set_data, set_sha, set_port. cbn. by rewrite Hsha. }
  set (err := verify_image_header e off hd). set (s2 := set_data d1 _) in E1.
  assert ((do! when (hash_appended hd && hash) (if sha_available e then do! modify (set_sha (Some [])); hash_bytes hd else throw ESP_ERR_NO_MEM);
           (let err := verify_image_header e off hd in check (err =? ESP_OK) err)) s1 =
          Some (if err =? ESP_OK then inr tt else inl err, s2)) as E2.
  { run_with E1. cbv zeta. fold err. by destruct (err =? ESP_OK). }
  exists q. destruct (decide (err = ESP_OK)) as [Ee|Ee].
  - exists (start_meta cells off), (open_hash (hash_appended hd && hash) hd). split; [done|]. split; [|done].
    rewrite (proj2 (Z.eqb_eq _ _) Ee) in E2. erewrite bind_inr; [|exact E2]. by rewrite (proj2 (Z.eqb_eq _ _) Ee).
  - exists d1, (open_hash (hash_appended hd && hash) hd). split; [done|]. split; [|done].
    rewrite (proj2 (Z.eqb_neq _ _) Ee) in E2. erewrite bind_inl; [|exact E2]. by rewrite (proj2 (Z.eqb_neq _ _) Ee).
Qed.

Lemma n_segs_nat off : Z.of_nat (n_segs cells off) = segment_count (header_at cells off).
Proof.
  unfold n_segs. rewrite Z2Nat.id; [done|]. unfold segment_count, at8, header_at. rewrite load_bytes_lookup by lia. apply cells_byte.
Qed.

Lemma header_segs off : verify_image_header e off (header_at cells off) = ESP_OK -> (n_segs cells off <= 16)%nat.
Proof.
  unfold verify_image_header. destruct (negb (h_magic _ =? _)); [done|]. set (err := bootloader_common_check_chip_validity _ _ _).
  destruct (Z.eqb_spec err ESP_OK) as [Ee|Ee]; cbn [negb]; [|done]. rewrite Z.gtb_ltb.
  destruct (Z.ltb_spec ESP_IMAGE_MAX_SEGMENTS (segment_count (header_at cells off))); [done|]. intros _.
  rewrite <- n_segs_nat in *. unfold ESP_IMAGE_MAX_SEGMENTS in *. lia.
Qed.

Lemma segs_data_fields off n i a d :
  start_addr (segs_data e cells off n i a d) = start_addr d /\ image (segs_data e cells off n i a d) = image d /\
  image_len (segs_data e cells off n i a d) = image_len d.
Proof.
  revert i a d. induction n as [|n IH]; intros i a d; cbn [segs_data]; [done|].
  destruct (IH (S i) (seg_next cells a) (set_segment_data (<[i := a + 8]> (segment_data (after_segment e cells off i a d))) (after_segment e cells off i a d)))
    as (-> & -> & ->). unfold after_segment, with_version. by destruct (is_desc _ _ _ _ && anti_rollback e).
Qed.

Definition segments_done (off : Z) (do_load : bool) (s s' : load_state st) : Prop :=
  step_to cells (load_bytes cells (off + 24) (data_end cells off - (off + 24))) (segs_words cells (n_segs cells off) (off + 24)) s s' /\
  data s' = set_image_len (data_end cells off - off) (segs_data e cells off (n_segs cells off) 0 (off + 24) (start_meta cells off)) /\
  ram s' = put_segs e cells do_load (n_segs cells off) (off + 24) (ram_obfs_value s') (ram s) /\
  (segs_store e cells do_load (n_segs cells off) (off + 24) = true -> obfs_unset (ram_obfs_value s') = false).

Lemma segments_spec off do_load s :
  has_checksum s = true -> ready (port s) -> obfs_ready s -> data s = start_meta cells off ->
  0 <= off -> off mod 4 = 0 -> off + 24 <= limit -> (n_segs cells off <= 16)%nat ->
  segs_safe e cells limit off do_load (n_segs cells off) 0 (off + 24) ->
  (segs_ok e cells off do_load (n_segs cells off) 0 (off + 24) = true -> data_end cells off + 48 <= limit) ->
  exists s', if segs_ok e cells off do_load (n_segs cells off) 0 (off + 24)
    then process_segments e do_load s = Some (inr tt, s') /\ segments_done off do_load s s'
    else exists err, process_segments e do_load s = Some (inl err, s') /\ err <> ESP_OK /\ stops_at e cells do_load s s'.
Proof.
  intros Hc Hr Ho Hd Hoff Hm Hl Hn Hsafe Hend. pose proof limit_32. unfold process_segments. run. rewrite Hd.
  assert (u32 (start_addr (start_meta cells off) + image_len (start_meta cells off)) = off + 24) as -> by (apply u32_id; cbn; lia).
  change (image (start_meta cells off)) with (header_at cells off). fold (n_segs cells off).
  destruct (segment_loop_spec e cells cells_byte off do_load (n_segs cells off) 0 (off + 24) s) as (s1 & H1);
    [done|done|done|by rewrite Hd|by rewrite Hd|by rewrite Hd|lia|lia|Z.div_mod_to_equations; lia|done|].
  destruct (segs_ok e cells off do_load (n_segs cells off) 0 (off + 24)) eqn:Eok.
  2:{ destruct H1 as (err & E1 & H1). exists s1, err. by erewrite bind_inl. }
  destruct H1 as [E1 (D1 & D2 & D3 & D4)]. run_with E1. fold (data_end cells off) in *. specialize (Hend eq_refl).
  pose proof (segs_end_le cells cells_byte (n_segs cells off) (off + 24)) as Hle. fold (data_end cells off) in Hle.
  change (start_addr (start_meta cells off)) with off. rewrite (proj2 (Z.ltb_ge (data_end cells off) off)) by lia. cbn [negb check]. run.
  eexists. split; [done|]. split; [by destruct D1; split|]. split; [|done]. cbn [data set_data].
  rewrite D2, Hd. destruct (segs_data_fields off (n_segs cells off) 0 (off + 24) (start_meta cells off)) as (_ & _ & ->).
  cbn [image_len start_meta set_image_len]. rewrite !u32_id by (rewrite ?u32_id by lia; lia). f_equal. lia.
Qed.

(** ** The checksum, the hash and the length *)

Definition len_meta (n : Z) (off : Z) : esp_image_metadata_t :=
  set_image_len n (segs_data e cells off (n_segs cells off) 0 (off + 24) (start_meta cells off)).

Lemma len_meta_fields n off :
  start_addr (len_meta n off) = off /\ image (len_meta n off) = header_at cells off /\ image_len (len_meta n off) = n.
Proof.
  unfold len_meta. destruct (segs_data_fields off (n_segs cells off) 0 (off + 24) (start_meta cells off)) as (E1 & E2 & _).
  cbn. by rewrite E1, E2.
Qed.

Lemma padded_bounds n : 0 <= n -> n < padded n <= n + 16.
Proof. intros Hn. unfold padded. Z.div_mod_to_equations. lia. Qed.

Lemma checksum_spec off w skip s :
  let L := data_end cells off - off in
  ready (port s) -> data s = len_meta L off -> 0 <= off -> off mod 4 = 0 -> 24 <= L -> L mod 4 = 0 -> data_end cells off + 16 <= limit ->
  let ok := skip || (calc_checksum w =? cells (off + hashed_len cells off - 1)) in
  exists q s', ready q /\ process_checksum w skip s = Some (if ok then inr tt else inl ESP_ERR_IMAGE_INVALID, s') /\
    (ok = true -> s' = set_data (len_meta (hashed_len cells off) off)
                        (set_sha (hashed (load_bytes cells (data_end cells off) (hashed_len cells off - L)) (sha s)) (set_port q s))) /\
    (ok = false -> s' = set_port q s).
Proof.
  intros L Hr Hd Ho Hom HL HLm Hl ok. pose proof limit_32. destruct (len_meta_fields L off) as (F1 & F2 & F3).
  pose proof (padded_bounds L ltac:(lia)) as Hp. unfold process_checksum. run. rewrite Hd, F1, F3. rewrite padding_length_spec by lia. run.
  fold L in Hp |- *. change (padded L) with (hashed_len cells off) in *. set (n := hashed_len cells off - L) in *.
  assert (n mod 4 = 0 /\ 0 < n) as [Hnm Hn0] by (subst n; unfold hashed_len, padded in *; fold L; Z.div_mod_to_equations; lia).
  replace (u32 (off + L)) with (data_end cells off) by (rewrite u32_id; subst L; lia).
  assert (exists q buf, ready q /\
    (if negb skip || hash_open s then flash_read (data_end cells off) n else ret (replicate 16 0)) s = Some (inr buf, set_port q s) /\
    (skip = false -> buf = load_bytes cells (data_end cells off) n) /\ (sha s <> None -> buf = load_bytes cells (data_end cells off) n)) as (q & buf & Hq & E1 & B1 & B2).
  { destruct (negb skip || hash_open s) eqn:Eb.
    - destruct (flash_read_spec cells (data_end cells off) n s) as (q & E & Hq); [done|lia|lia| |done|subst n L; lia|].
      { subst L. Z.div_mod_to_equations. lia. }
      exists q, (load_bytes cells (data_end cells off) n). done.
    - exists (port s), (replicate 16 0). split; [done|]. split; [by destruct s|]. apply orb_false_iff in Eb as [E1 E2]. split; [by destruct skip|].
      unfold hash_open in E2. by destruct (sha s). }
  run_with E1. assert (skip || (calc_checksum w =? at8 buf (Z.to_nat (n - 1))) = ok) as ->.
  { unfold ok. destruct skip; [done|]. cbn [orb]. rewrite B1 by done. unfold at8. rewrite load_bytes_lookup by lia. cbn [default].
    unfold id. by replace (data_end cells off + Z.of_nat (Z.to_nat (n - 1))) with (off + hashed_len cells off - 1) by (subst n L; lia). }
  destruct ok; cbn [check].
  - run. run_with (hash_bytes_spec buf (set_port q s)). eexists q, _. split; [done|]. split; [done|]. split; [|done]. intros _.
    cbn [data set_data after_words set_ram set_checksum set_sha set_port]. rewrite Hd.
    unfold after_words, set_data, set_ram, set_checksum, set_sha, set_port. cbn [port ram ram_obfs_value draws data sha checksum].
    f_equal; [|by destruct (sha s); [rewrite B2|]|by rewrite xored_nil].
    unfold len_meta. cbn. rewrite u32_id by (subst n; lia). by replace (L + n) with (hashed_len cells off) by (subst n; lia).
  - eexists q, _. split; [done|]. split; [by erewrite bind_inl|done].
Qed.

Lemma appended_spec off size s :
  ready (port s) -> data s = len_meta (hashed_len cells off) off -> 0 <= off -> off mod 4 = 0 -> 24 <= data_end cells off - off -> data_end cells off + 48 <= limit ->
  exists q, ready q /\ process_appended_hash_and_sig size true s =
      Some (if image_size cells off <=? size then inr tt else inl ESP_ERR_IMAGE_INVALID, set_data (image_meta e cells off) (set_port q s)).
Proof.
  intros Hr Hd Ho Hom HL Hl. pose proof limit_32. destruct (len_meta_fields (hashed_len cells off) off) as (F1 & F2 & F3).
  pose proof (padded_bounds (data_end cells off - off) ltac:(lia)) as Hp. fold (hashed_len cells off) in Hp.
  assert (hashed_len cells off mod 4 = 0) as Hm4 by (unfold hashed_len, padded; Z.div_mod_to_equations; lia).
  unfold process_appended_hash_and_sig. run. rewrite Hd, F1, F2, F3.
  assert (exists q, ready q /\ when (hash_appended (header_at cells off))
    (do! when true (let! digest := flash_read (u32 (off + hashed_len cells off)) HASH_LEN in update_data (set_image_digest digest));
     update_data (fun d => set_image_len (u32 (image_len d + HASH_LEN)) d)) s = Some (inr tt, set_data (image_meta e cells off) (set_port q s))) as (q & Hq & E).
  { unfold image_meta, image_size. destruct (hash_appended (header_at cells off)); cbn [when].
    - rewrite u32_id by lia. unfold HASH_LEN, ESP_IMAGE_HASH_LEN.
      destruct (flash_read_spec cells (off + hashed_len cells off) 32 s) as (q & E & Hq); [done|lia|lia| |done|lia|].
      { Z.div_mod_to_equations. lia. }
      exists q. split; [done|]. set (dg := load_bytes cells (off + hashed_len cells off) 32) in *.
      assert ((let! digest := flash_read (off + hashed_len cells off) 32 in update_data (set_image_digest digest)) s
              = Some (inr tt, set_data (set_image_digest dg (data s)) (set_port q s))) as E2 by (by run_with E).
      run_with E2. unfold update_data, modify. cbn [data set_data]. do 2 f_equal. rewrite Hd. unfold set_data. cbn [port ram ram_obfs_value draws data sha checksum].
      f_equal. cbn [image_len set_image_digest]. rewrite F3, u32_id by lia. done.
    - exists (port s). split; [done|]. unfold ret. do 2 f_equal. rewrite Z.add_0_r. unfold len_meta in Hd. rewrite <- Hd. by destruct s. }
  exists q. split; [done|]. run_with E. run. cbn [data set_data].
  assert (image_len (image_meta e cells off) = image_size cells off) as -> by (unfold image_meta; by destruct (hash_appended _)).
  rewrite Z.gtb_ltb, Z.ltb_antisym, negb_involutive. by destruct (image_size cells off <=? size).
Qed.

(** ** [image_load] *)

Lemma segs_data_version off n i a d : (0 < i)%nat -> meta_secure_version (segs_data e cells off n i a d) = meta_secure_version d.
Proof.
  revert i a d. induction n as [|n IH]; intros i a d Hi; cbn [segs_data]; [done|]. rewrite IH by lia.
  unfold after_segment, with_version, is_desc. destruct i; [lia|done].
Qed.

Lemma image_meta_version off : anti_rollback e = true ->
  meta_secure_version (image_meta e cells off) =
    if is_desc e off 0 (seg_at cells (off + 24)) && (0 <? segment_count (header_at cells off)) then load32 cells (off + 36) else 0.
Proof.
  intros Ha. assert (meta_secure_version (image_meta e cells off) =
    meta_secure_version (segs_data e cells off (n_segs cells off) 0 (off + 24) (start_meta cells off))) as ->
    by (unfold image_meta; by destruct (hash_appended _)).
  rewrite <- n_segs_nat. destruct (n_segs cells off) as [|n]; cbn [segs_data]; [by rewrite andb_false_r|].
  rewrite segs_data_version by lia. rewrite (proj2 (Z.ltb_lt 0 (Z.of_nat (S n)))), andb_true_r by lia.
  unfold after_segment, with_version. rewrite Ha, andb_true_r. destruct (is_desc _ _ _ _); [|done]. cbn. f_equal. lia.
Qed.

Lemma image_meta_image off : image (image_meta e cells off) = header_at cells off.
Proof.
  destruct (segs_data_fields off (n_segs cells off) 0 (off + 24) (start_meta cells off)) as (_ & E & _).
  unfold image_meta. by destruct (hash_appended _).
Qed.

Definition loading (mode : esp_image_load_mode_t) : bool := bootloader_build e && is_load mode.

(** The RAM after loading, with the words that hid the code. *)
Definition ram_after (do_load : bool) (off : Z) (v : Z * Z) (r : mem) : mem :=
  let r := put_segs e cells do_load (n_segs cells off) (off + 24) v r in
  if do_load && negb (v.1 =? 0) && negb (v.2 =? 0)
  then foldl (fun m h => deobfuscate_segment e v h m) r (take (n_segs cells off) (segments (image_meta e cells off)))
  else r.

Lemma deobfuscate_words_other n j a v m x :
  (forall i, 4 * j <= i < 4 * (j + Z.of_nat n) -> x <> phys (a + i)) -> deobfuscate_words n j a v m x = m x.
Proof.
  revert j m. induction n as [|n IH]; intros j m Hx; cbn [deobfuscate_words]; [done|]. rewrite IH by (intros; apply Hx; lia).
  apply write_word_other. intros i Hi. rewrite <- Z.add_assoc. apply Hx. lia.
Qed.

(** The headers that were recorded are those in the flash. *)
Lemma segs_data_segments off n i a d : length (segments d) = 16%nat -> (i + n <= 16)%nat ->
  take (i + n) (segments (segs_data e cells off n i a d)) = take i (segments d) ++ (layout cells n a).*2.
Proof.
  revert i a d. induction n as [|n IH]; intros i a d Hl Hn; cbn [segs_data layout fmap list_fmap]; [by rewrite app_nil_r, Nat.add_0_r|].
  destruct (after_segment_fields e cells off i a d) as (_ & E & _).
  replace (i + S n)%nat with (S i + n)%nat by lia. rewrite IH; [|cbn; by rewrite E, length_insert|lia]. cbn [segments set_segment_data].
  rewrite E. rewrite (take_S_r _ i (seg_at cells a)) by (rewrite list_lookup_insert_eq; [done|lia]).
  rewrite take_insert_ge by lia. by rewrite <- app_assoc.
Qed.

Lemma image_segments off : (n_segs cells off <= 16)%nat ->
  take (n_segs cells off) (segments (image_meta e cells off)) = (layout cells (n_segs cells off) (off + 24)).*2.
Proof.
  intros Hn. assert (segments (image_meta e cells off) = segments (segs_data e cells off (n_segs cells off) 0 (off + 24) (start_meta cells off))) as ->
    by (unfold image_meta; by destruct (hash_appended _)).
  by rewrite (segs_data_segments off (n_segs cells off) 0) by (done || lia).
Qed.

Lemma deobfuscate_frame off do_load n i a v r : do_load = do_load && bootloader_build e -> do_load = true -> segs_ok e cells off do_load n i a = true ->
  frame e r (foldl (fun m h => deobfuscate_segment e v h m) r (layout cells n a).*2).
Proof.
  intros Hb Hd. revert i a r. induction n as [|n IH]; intros i a r Hok; cbn [layout fmap list_fmap foldl]; [done|].
  cbn [segs_ok] in Hok. apply andb_true_iff in Hok as [H1 H2]. eapply frame_trans; [|by apply (IH (S i))].
  intros He x Hx. cbn [snd]. unfold deobfuscate_segment. set (h := seg_at cells a). destruct (should_load e (load_addr h)) eqn:El; [|done].
  apply deobfuscate_words_other. intros j Hj ->. unfold segment_ok, loads in H1. fold h in H1. rewrite El in H1. rewrite !andb_true_iff in H1.
  destruct H1 as [[_ Hv] _]. pose proof (load32_bounds cells cells_byte (a + 4) : 0 <= data_len h < _). pose proof (load32_bounds cells cells_byte a : 0 <= load_addr h < _).
  rewrite (proj2 (Z.ltb_lt 0 (data_len h))) in Hv by (Z.div_mod_to_equations; lia). rewrite Hd in Hv, Hb. cbn [andb] in Hb. rewrite <- Hb in Hv. cbn in Hv.
  apply bool_decide_eq_true in Hv. apply (verified_unprotected e h j He); [done|Z.div_mod_to_equations; lia|lia|done|done].
Qed.

Lemma ram_after_frame off do_load v r : do_load = do_load && bootloader_build e -> (n_segs cells off <= 16)%nat ->
  segs_ok e cells off do_load (n_segs cells off) 0 (off + 24) = true -> frame e r (ram_after do_load off v r).
Proof.
  intros Hb Hn Hok. unfold ram_after. pose proof (put_segs_frame e cells cells_byte off do_load (n_segs cells off) 0 (off + 24) v r Hok) as F.
  destruct (do_load && negb (v.1 =? 0) && negb (v.2 =? 0)) eqn:Ed; [|done]. rewrite image_segments by done.
  eapply frame_trans; [exact F|]. destruct do_load eqn:El; [|done]. by apply (deobfuscate_frame off true _ 0).
Qed.

Definition ends_well (do_load : bool) (off : Z) (s s' : load_state st) : Prop :=
  data s' = image_meta e cells off /\ sha s' = None /\
  (segs_store e cells do_load (n_segs cells off) (off + 24) = true -> obfs_unset (ram_obfs_value s') = false) /\
  ram s' = ram_after do_load off (ram_obfs_value s') (ram s).

(** The steps after the segments. *)
Lemma tail_spec do_load off size s0 s :
  ready (port s) -> obfs_ready s -> data s = len_meta (data_end cells off - off) off -> 0 <= off -> off mod 4 = 0 ->
  segs_ok e cells off do_load (n_segs cells off) 0 (off + 24) = true -> data_end cells off + 48 <= limit ->
  do_load = do_load && bootloader_build e ->
  checksum s = Some (foldl Z.lxor ESP_ROM_CHECKSUM_INITIAL (segs_words cells (n_segs cells off) (off + 24))) ->
  sha s = open_hash (hash_wanted e cells off) (load_bytes cells off (data_end cells off - off)) ->
  (do_load = false -> ram s = ram s0) -> (n_segs cells off <= 16)%nat ->
  ram s = put_segs e cells do_load (n_segs cells off) (off + 24) (ram_obfs_value s) (ram s0) ->
  (segs_store e cells do_load (n_segs cells off) (off + 24) = true -> obfs_unset (ram_obfs_value s) = false) ->
  exists r s', image_finish e do_load true (negb (is_bootloader e off) && true) size s = Some (r, s') /\
    ready (port s') /\ obfs_ready s' /\ (do_load = false -> ram s' = ram s0) /\ frame e (ram s0) (ram s') /\
    if (esp_cpu_dbgr_is_attached e || checksum_ok cells off) && (image_size cells off <=? size)
       && (negb (hash_wanted e cells off) || esp_cpu_dbgr_is_attached e || hash_ok e cells off) && (negb do_load || version_ok e cells off)
    then r = inr tt /\ ends_well do_load off s0 s'
    else exists err, r = inl err /\ err <> ESP_OK.
Proof.
  intros Hr Ho Hd Hoff Hom Hok Hl Hdl Hsum Hsha Hram Hn Hput Hst.
  assert (frame e (ram s0) (ram s)) as Hfr by (rewrite Hput; by apply (put_segs_frame e cells cells_byte off do_load _ 0)).
  pose proof (segs_end_le cells cells_byte (n_segs cells off) (off + 24)) as Hle. fold (data_end cells off) in Hle.
  assert ((data_end cells off - off) mod 4 = 0) as HLm.
  { pose proof (segs_end_mod cells e off do_load (n_segs cells off) 0 (off + 24) Hok) as E. fold (data_end cells off) in E. Z.div_mod_to_equations. lia. }
  pose proof (padded_bounds (data_end cells off - off) ltac:(lia)) as Hpad. fold (hashed_len cells off) in Hpad.
  unfold image_finish. run. rewrite Hsum. cbn [default negb orb]. unfold id. set (w := foldl _ _ _).
  assert (calc_checksum w = foldl Z.lxor ESP_ROM_CHECKSUM_INITIAL (payload cells (n_segs cells off) (off + 24))) as Ew
    by (exact (calc_segs cells cells_byte e off do_load (n_segs cells off) 0 (off + 24) ESP_ROM_CHECKSUM_INITIAL Hok)).
  destruct (checksum_spec off w (esp_cpu_dbgr_is_attached e) s Hr Hd Hoff Hom) as (q & s1 & Hq & E1 & Hs1 & Hs1'); [lia|done|lia|].
  rewrite Ew in E1, Hs1, Hs1'. fold (checksum_ok cells off) in E1, Hs1, Hs1'.
  destruct (esp_cpu_dbgr_is_attached e || checksum_ok cells off) eqn:Ec; cbn [andb].
  2:{ rewrite Hs1' in E1 by done. exists (inl ESP_ERR_IMAGE_INVALID), (set_port q s). split; [by erewrite bind_inl|]. by eauto 7. }
  rewrite Hs1 in E1 by done. run_with E1. clear s1 Hs1 Hs1'. set (s1 := set_data _ _).
  destruct (appended_spec off size s1 Hq) as (q2 & Hq2 & E2); [done|done|done|lia|done|].
  set (s2 := set_data (image_meta e cells off) (set_port q2 s1)) in E2.
  assert (sha s2 = open_hash (hash_wanted e cells off) (load_bytes cells off (hashed_len cells off))) as Hsha2.
  { unfold s2, s1. cbn -[hashed]. rewrite Hsha. unfold open_hash. destruct (hash_wanted e cells off); [|done]. cbn. f_equal.
    replace (data_end cells off) with (off + (data_end cells off - off)) at 2 by lia. rewrite <- load_bytes_app by lia. f_equal. lia. }
  destruct (image_size cells off <=? size); cbn [andb].
  2:{ exists (inl ESP_ERR_IMAGE_INVALID), s2. split; [by erewrite bind_inl|]. by eauto 7. }
  run_with E2. run. rewrite Hsha2.
  set (hm := match open_hash _ _ with Some hashed => _ | None => _ end).
  set (good := negb (hash_wanted e cells off) || esp_cpu_dbgr_is_attached e || hash_ok e cells off).
  assert (exists h, hm s2 = Some (if good then inr tt else inl ESP_ERR_IMAGE_INVALID, set_sha h s2)) as (h & E3).
  { unfold hm, good. destruct (hash_wanted e cells off) eqn:Eh; cbn [open_hash negb orb].
    2:{ exists (sha s2). by destruct s2. }
    unfold hash_wanted in Eh. apply andb_true_iff in Eh as [Ha Hb]. rewrite Hb. destruct (esp_cpu_dbgr_is_attached e); cbn [andb negb orb].
    { exists (sha s2). by destruct s2. }
    exists None. unfold verify_simple_hash. run. run. cbn [data set_sha s2 set_data].
    assert (image_digest (image_meta e cells off) = load_bytes cells (off + hashed_len cells off) 32) as -> by (unfold image_meta; by rewrite Ha).
    fold (hash_ok e cells off). by destruct (hash_ok e cells off). }
  destruct good; cbn [andb].
  2:{ exists (inl ESP_ERR_IMAGE_INVALID), (set_sha h s2). split; [by erewrite bind_inl|]. by eauto 7. }
  run_with E3. run. set (s3 := set_sha None (set_sha h s2)).
  assert (when (bootloader_build e) (deobfuscate e do_load) s3 = Some (inr tt, set_ram (ram_after do_load off (ram_obfs_value s) (ram s0)) s3)) as E4.
  { unfold ram_after. rewrite <- Hput. change (ram_obfs_value s) with (ram_obfs_value s3). change (ram s) with (ram s3).
    assert (forall r, r = ram s3 -> set_ram r s3 = s3) as Hset by (intros r ->; by destruct s3).
    destruct (bootloader_build e); cbn [when].
    - unfold deobfuscate, modify. do 2 f_equal. destruct (do_load && _ && _); [|by rewrite Hset].
      change (data s3) with (image_meta e cells off). by rewrite image_meta_image.
    - assert (do_load = false) as -> by (by rewrite Hdl, andb_false_r). cbn [andb]. by rewrite Hset. }
  run_with E4. run. set (s4 := set_ram _ s3). change (data s4) with (image_meta e cells off).
  assert (negb (bootloader_build e && anti_rollback e && do_load)
    || esp_efuse_check_secure_version (efuse_size e) (efuse_bits e) (meta_secure_version (image_meta e cells off)) = negb do_load || version_ok e cells off) as ->.
  { unfold version_ok. destruct do_load; [|by rewrite andb_false_r]. cbn [andb] in Hdl. rewrite <- Hdl, andb_true_r. cbn [andb negb orb].
    destruct (anti_rollback e) eqn:Ear; [|done]. cbn [negb orb]. by rewrite image_meta_version. }
  exists (if negb do_load || version_ok e cells off then inr tt else inl ESP_FAIL), s4.
  split; [by destruct (negb do_load || _)|]. split; [done|]. split; [done|]. split.
  { intros Hf. unfold s4, ram_after. cbn [ram set_ram]. rewrite <- Hput. rewrite Hf. cbn [andb]. by apply Hram. }
  split; [by apply ram_after_frame|].
  destruct (negb do_load || _); [|by eauto]. split; [done|]. by repeat split.
Qed.

Definition bad_end (do_load : bool) (err : esp_err_t) (s s' : load_state st) : Prop :=
  err <> ESP_OK /\ ready (port s') /\ obfs_ready s' /\ (do_load = false -> ram s' = ram s) /\ frame e (ram s) (ram s').

(** Before the error path. *)
Lemma body_spec mode part s :
  let off := offset part in let do_load := loading mode in
  negb (bootloader_build e) || is_verify mode = true -> 
  ready (port s) -> obfs_ready s -> sha s = None -> checksum s = Some ESP_ROM_CHECKSUM_INITIAL ->
  0 <= pos_size part < 4294967296 -> image_safe e cells limit off do_load ->
  exists r s', image_load_body e mode part s = Some (r, s') /\
    if image_wf e cells do_load off (pos_size part)
    then r = inr tt /\ ready (port s') /\ obfs_ready s' /\ (do_load = false -> ram s' = ram s) /\ frame e (ram s) (ram s') /\ ends_well do_load off s s'
    else exists err, r = inl err /\ bad_end do_load err s s'.
Proof.
  intros off do_load Hv Hr Ho Hsha Hsum Hsz (Hoff & Hl & Hsafe). unfold image_load_body. rewrite Hv.
  change (bootloader_build e && is_load mode) with do_load. fold off.
  assert ((pos_size part >? ESP_IMAGE_MAX_FLASH_ADDR_SIZE) = false) as -> by (unfold ESP_IMAGE_MAX_FLASH_ADDR_SIZE; lia). run.
  unfold image_wf. destruct (Z.eqb_spec (off mod 4) 0) as [Hm|Hm]; cbn [andb].
  2:{ set (s1 := set_data (set_start_addr off zero_meta) s). exists (inl ESP_FAIL), s1. split.
      - assert (flash_read off sizeof_header s1 = Some (inl ESP_FAIL, s1)) as E.
        { unfold flash_read. rewrite read_unaligned by done. by destruct s1. }
        erewrite bind_inl; [done|]. unfold process_image_header. run. erewrite bind_inl; [done|exact E].
      - exists ESP_FAIL. by repeat split. }
  destruct (header_spec off (negb (is_bootloader e off) && true) s Hr Hsha Hoff Hm Hl) as (q & d & h & Hq & E1 & Hdh).
  set (s1 := set_data d _) in E1. destruct (Z.eqb_spec (verify_image_header e off (header_at cells off)) ESP_OK) as [Eh|Eh]; cbn [andb].
  2:{ exists (inl (verify_image_header e off (header_at cells off))), s1. split; [by erewrite bind_inl|]. eexists. by repeat split. }
  destruct (Hdh Eh) as [-> ->]. destruct (Hsafe Eh) as [Hsegs Hend]. run_with E1.
  destruct (segments_spec off do_load s1) as (s2 & H2); [by unfold has_checksum, s1; cbn; rewrite Hsum|done|done|done|done|done|done|by apply header_segs|done|done|].
  destruct (segs_ok e cells off do_load (n_segs cells off) 0 (off + 24)) eqn:Eok; cbn [andb].
  2:{ destruct H2 as (err & E2 & Herr & G). exists (inl err), s2. split; [by erewrite bind_inl|]. exists err. by split. }
  destruct H2 as [E2 ([R1 R2 R3 R4 R5] & D2 & D3 & D4)]. run_with E2.
  pose proof (segs_end_le cells cells_byte (n_segs cells off) (off + 24)) as Hle. fold (data_end cells off) in Hle.
  destruct (tail_spec do_load off (pos_size part) s s2) as (r & s3 & E3 & T1 & T2 & T3 & T5 & T4);
    [done|done|done|done|done|done|by apply Hend| | | | |by apply header_segs|done|done|].
  { unfold do_load, loading. by destruct (bootloader_build e), (is_load mode). }
  { rewrite R5. change (checksum s1) with (checksum s). by rewrite Hsum. }
  { rewrite R4. unfold s1. cbn [sha set_data set_sha]. unfold hash_wanted. rewrite andb_true_r. unfold open_hash.
    destruct (hash_appended (header_at cells off) && negb (is_bootloader e off)); [|done]. cbn. f_equal. rewrite <- load_bytes_app by lia. f_equal. lia. }
  { intros Hf. rewrite D3, Hf. change (ram s1) with (ram s). clear. generalize (off + 24). induction (n_segs cells off) as [|n IH]; intros a; [done|].
    cbn [put_segs]. by rewrite andb_false_l, put_data_none. }
  exists r, s3. split; [done|].
  destruct ((esp_cpu_dbgr_is_attached e || checksum_ok cells off) && _ && _ && _).
  - by destruct T4 as [-> T4].
  - destruct T4 as (err & -> & Herr). by exists err.
Qed.

(** [image_load] in a mode that verifies ends; it succeeds exactly for a
    well-formed image, and leaves no metadata when it fails. *)
Lemma image_load_outcome mode part s :
  let off := offset part in let do_load := loading mode in
  negb (bootloader_build e) || is_verify mode = true -> ready (port s) -> obfs_ready s ->
  0 <= pos_size part < 4294967296 -> image_safe e cells limit off do_load ->
  exists err s', image_load e mode part s = Some (err, s') /\ ready (port s') /\ obfs_ready s' /\ (do_load = false -> ram s' = ram s) /\ frame e (ram s) (ram s') /\
    if image_wf e cells do_load off (pos_size part) then err = ESP_OK /\ ends_well do_load off s s'
    else err <> ESP_OK /\ data s' = zero_meta.
Proof.
  intros off do_load Hv Hr Ho Hsz Hsafe. unfold image_load. rewrite Hv.
  destruct (body_spec mode part (set_checksum (Some ESP_ROM_CHECKSUM_INITIAL) (set_sha None s))) as (r & s1 & E & H1); try done.
  rewrite E. fold off do_load in H1. destruct (image_wf e cells do_load off (pos_size part)).
  - destruct H1 as (-> & G1 & G2 & G3 & G4 & G5). exists ESP_OK, s1. split; [done|]. split; [exact G1|]. split; [exact G2|].
    split; [exact G3|]. split; [exact G4|]. by split.
  - destruct H1 as (err & -> & G0 & G1 & G2 & G3 & G4). eexists err, _. split; [done|]. by repeat split.
Qed.

End image_whole.
