(* ===== verification/ImageFrame.v ===== *)
(** * What loading writes, whatever is in the flash

    [ImageWhole] describes the runs on images that can be read and that fail no
    assertion.  Here the flash is arbitrary and may change between two reads:
    as long as the bootloader does not check the application descriptor
    ([anti_rollback]), a run that ends has not written to the memory of the
    bootloader, in any mode.  [keeps D m E] is a triple over the metadata: from
    metadata with [D] a run of [m] leaves that memory alone and, if it gives a
    value [a], ends in metadata with [E a]. *)

From S2P Require Import Prelude EspErr Flash PartTable OtaData Mmu BootFlash.
From S2P Require Import Image ImageMem ImageProps ImageSpec ImageWhole.

Section keeps.
Context {st : Type} `{FlashPort st} (e : env).
Abbreviation io := (M (load_state st)).

Definition keeps {A} (D : esp_image_metadata_t -> Prop) (m : io A) (E : A -> esp_image_metadata_t -> Prop) : Prop :=
  forall s r s', D (data s) -> m s = Some (r, s') ->
    frame e (ram s) (ram s') /\ match r with inr a => E a (data s') | inl _ => True end.

(** It leaves the metadata alone. *)
Definition quiet {A} (m : io A) : Prop := forall D, keeps D m (fun _ => D).

Lemma keeps_bind {A B} D E F (m : io A) (k : A -> io B) : keeps D m E -> (forall a, keeps (E a) (k a) F) -> keeps D (bind m k) F.
Proof.
  intros Hm Hk s r s' HD. unfold bind. destruct (m s) as [[[err|a] s1]|] eqn:Em; [| |done].
  - intros [= <- <-]. by apply (Hm s _ s1) in Em as [? _].
  - intros Ek. apply (Hm s _ s1) in Em as [F1 HE]; [|done]. apply (Hk a s1) in Ek as [F2 HF]; [|done]. split; [by eapply frame_trans|done].
Qed.

Lemma keeps_mono {A} D D' E (m : io A) : (forall d, D d -> D' d) -> keeps D' m E -> keeps D m E.
Proof. intros HD Hm s r s' Hs. apply Hm. by apply HD. Qed.

Lemma keeps_post {A} D E E' (m : io A) : (forall a d, E a d -> E' a d) -> keeps D m E -> keeps D m E'.
Proof. intros HE Hm s r s' Hs Er. destruct (Hm s r s' Hs Er) as [F HF]. split; [done|]. destruct r; [done|]. by apply HE. Qed.

Lemma quiet_bind {A B} (m : io A) (k : A -> io B) : quiet m -> (forall a, quiet (k a)) -> quiet (bind m k).
Proof. intros Hm Hk D. eapply keeps_bind; [apply Hm|]. intros a. apply Hk. Qed.

Lemma quiet_ret {A} (a : A) : quiet (ret a : io A).
Proof. intros D s r s' HD [= <- <-]. by split. Qed.

Lemma keeps_throw {A} D E err : keeps D (throw err : io A) E.
Proof. intros s r s' HD [= <- <-]. by split. Qed.

Lemma keeps_stop {A} D E : keeps D (stop : io A) E.
Proof. done. Qed.

Lemma quiet_get {A} (f : load_state st -> A) : quiet (get f).
Proof. intros D s r s' HD [= <- <-]. by split. Qed.

Lemma keeps_data D : keeps D (get data) (fun d d' => D d' /\ d = d').
Proof. intros s r s' HD [= <- <-]. by split. Qed.

Lemma keeps_check D b err : keeps D (check b err) (fun _ d => D d /\ b = true).
Proof. destruct b; [|apply keeps_throw]. intros s r s' HD [= <- <-]. by split. Qed.

Lemma keeps_given {A} D (o : option A) : keeps D (given o) (fun a d => D d /\ o = Some a).
Proof. destruct o; [|apply keeps_stop]. intros s r s' HD [= <- <-]. by split. Qed.

Lemma quiet_check b err : quiet (check b err).
Proof. intros D. eapply keeps_post; [|apply keeps_check]. by intros ? ? [? _]. Qed.

Lemma quiet_modify f : (forall s, frame e (ram s) (ram (f s)) /\ data (f s) = data s) -> quiet (modify f).
Proof. intros Hf D s r s' HD [= <- <-]. destruct (Hf s) as [F E]. split; [done|]. by rewrite E. Qed.

Lemma keeps_update D E f : (forall d, D d -> E (f d)) -> keeps D (update_data f) (fun _ => E).
Proof. intros Hf s r s' HD [= <- <-]. split; [done|]. by apply Hf. Qed.

Lemma keeps_try D E f : (forall d d', D d -> f d = Some d' -> E d') -> keeps D (try_update_data f) (fun _ => E).
Proof. intros Hf s r s' HD. unfold try_update_data. destruct (f (data s)) eqn:Ef; [|done]. intros [= <- <-]. split; [done|]. by eapply Hf. Qed.

Lemma keeps_when D b m : keeps D m (fun _ => D) -> keeps D (when b m) (fun _ => D).
Proof. intros Hm. destruct b; [done|apply quiet_ret]. Qed.

Lemma quiet_when b m : quiet m -> quiet (when b m).
Proof. intros Hm D. by apply keeps_when. Qed.

(** ** The flash, the hash and the checksum *)

Lemma quiet_flash_read a n : quiet (flash_read a n).
Proof. intros D s r s' HD. unfold flash_read. destruct (read _ _ _) as [[[err bs] p]|]; [|done]. intros [= <- <-]. split; [done|]. by destruct (err =? ESP_OK). Qed.

Lemma quiet_flash_map a n : quiet (flash_map a n).
Proof. intros D s r s' HD. unfold flash_map. destruct (map _ _ _) as [[o p]|]; [|done]. by intros [= <- <-]. Qed.

Lemma quiet_flash_unmap : quiet flash_unmap.
Proof. intros D s r s' HD. unfold flash_unmap. destruct (unmap _) as [p|]; [|done]. by intros [= <- <-]. Qed.

Lemma quiet_mapped_byte a : quiet (mapped_byte a).
Proof. intros D s r s' HD. unfold mapped_byte. destruct (byte _ _) as [b|]; [|done]. by intros [= <- <-]. Qed.

Lemma quiet_mapped_bytes n a : quiet (mapped_bytes n a).
Proof.
  revert a. induction n as [|n IH]; intros a; [apply quiet_ret|]. apply quiet_bind; [apply quiet_mapped_byte|]. intros b.
  apply quiet_bind; [apply IH|]. intros bs. apply quiet_ret.
Qed.

Lemma quiet_fill_obfs : quiet fill_obfs.
Proof.
  intros D s r s' HD. unfold fill_obfs. destruct (obfs_unset _); [|by intros [= <- <-]].
  destruct (next_obfs _) as [[v l]|]; [|done]. by intros [= <- <-].
Qed.

Lemma quiet_hash_bytes bs : quiet (hash_bytes bs).
Proof. by apply quiet_modify. Qed.

Lemma quiet_xor_checksum w : quiet (xor_checksum w).
Proof. by apply quiet_modify. Qed.
End keeps.

Create HintDb image_keeps.
#[export] Hint Resolve quiet_ret quiet_get quiet_check quiet_when quiet_flash_read quiet_flash_map quiet_flash_unmap quiet_mapped_byte
  quiet_mapped_bytes quiet_fill_obfs quiet_hash_bytes quiet_xor_checksum keeps_throw keeps_stop : image_keeps.

(** ** One segment *)

Section frame.
Context {st : Type} `{FlashPort st} (e : env).

(** None of [n] bytes from [lo] on is one of the bootloader. *)
Definition clear (lo n : Z) : Prop := env_ok e -> forall i, 0 <= i < n -> ~ protected e (phys (lo + i)).

Lemma clear_sub lo n k m : clear lo n -> 0 <= k -> k + m <= n -> clear (lo + k) m.
Proof. intros Hc Hk Hm He i Hi. rewrite <- Z.add_assoc. apply Hc; [done|lia]. Qed.

Lemma clear_write lo n bs m : clear lo n -> Z.of_nat (length bs) <= n -> frame e m (write_bytes lo bs m).
Proof. intros Hc Hn He x Hx. apply write_bytes_other. intros i Hi ->. apply (Hc He i); [lia|done]. Qed.

Lemma clear_word lo n k w m : clear lo n -> 0 <= k -> 4 * k + 4 <= n -> frame e m (write_word (lo + 4 * k) w m).
Proof. intros Hc Hk Hn. apply (clear_write _ 4); [apply (clear_sub lo n); [done|lia..]|done]. Qed.

Lemma mapped_bytes_length n a D : keeps e D (mapped_bytes n a) (fun bs d => D d /\ length bs = n).
Proof.
  revert a. induction n as [|n IH]; intros a; cbn [mapped_bytes].
  - intros s r s' HD [= <- <-]. by split.
  - eapply keeps_bind; [apply quiet_mapped_byte|]. intros b. eapply keeps_bind; [apply IH|]. intros bs s r s' [HD Hl] [= <- <-].
    split; [done|]. split; [done|]. cbn. by rewrite Hl.
Qed.

Lemma quiet_word_loop n w_i src len dest do_load :
  0 <= w_i -> (do_load = true -> clear dest (4 * (w_i + Z.of_nat n))) -> quiet e (word_loop e n w_i src len dest do_load).
Proof.
  revert w_i. induction n as [|n IH]; intros w_i Hw Hc; cbn [word_loop]; [apply quiet_ret|]. apply quiet_bind; [apply quiet_mapped_bytes|]. intros bs.
  apply quiet_bind; [apply quiet_xor_checksum|]. intros _. apply quiet_bind.
  - destruct (bootloader_build e && do_load) eqn:Ed; [|apply quiet_ret]. apply andb_true_iff in Ed as [_ Ed]. apply quiet_modify. intros s.
    split; [|done]. apply (clear_word _ _ _ _ _ (Hc Ed)); lia.
  - intros _. apply quiet_bind; [apply quiet_get|]. intros hashing. apply quiet_bind.
    + apply quiet_when, quiet_bind; [apply quiet_mapped_bytes|]. intros l. apply quiet_hash_bytes.
    + intros _. apply IH; [lia|]. intros Ed. replace (w_i + 1 + Z.of_nat n) with (w_i + Z.of_nat (S n)) by lia. by apply Hc.
Qed.

Context (no_desc : anti_rollback e = false).

Lemma quiet_piece segment load a n do_load start :
  0 <= n < 4294967296 -> n mod 4 = 0 -> (do_load = true -> clear load n) -> quiet e (process_segment_data e segment load a n do_load start).
Proof.
  intros Hn Hm Hc. unfold process_segment_data. rewrite no_desc. apply quiet_bind; [apply quiet_get|]. intros has_sum.
  destruct (negb do_load && negb has_sum) eqn:E1; [apply quiet_ret|]. apply quiet_bind; [apply quiet_flash_map|]. intros [src|]; [|intros D; apply keeps_throw].
  apply quiet_bind; [apply quiet_get|]. intros hashing. destruct (negb has_sum && negb hashing) eqn:E2.
  - intros D. eapply keeps_bind; [apply mapped_bytes_length|]. intros bs. apply (keeps_bind e _ (fun _ => D)); [|intros _; apply quiet_flash_unmap].
    intros s r s' [HD Hl] [= <- <-]. split; [|done]. apply (clear_write _ n); [|rewrite Hl; lia]. apply Hc. by destruct do_load, has_sum.
  - apply quiet_bind; [auto with image_keeps|]. intros _. apply quiet_bind; [auto with image_keeps|]. intros start0.
    assert (forall k, quiet e (bind (word_loop e (Z.to_nat ((u32 (n - 0) + 3) / 4)) 0 k (u32 (n - 0)) load do_load) (fun _ => flash_unmap))) as Hw.
    { intros k. apply quiet_bind; [|intros _; apply quiet_flash_unmap]. rewrite Z.sub_0_r, u32_id by lia. apply quiet_word_loop; [lia|].
      intros Ed. replace (4 * (0 + Z.of_nat (Z.to_nat ((n + 3) / 4)))) with n by (Z.div_mod_to_equations; lia). by apply Hc. }
    intros D. apply (keeps_bind e D (fun len d => D d /\ len = 0)).
    + assert (keeps (st := st) e D (ret 0) (fun len d => D d /\ len = 0)) as H0 by (by intros s r s' HD [= <- <-]).
      destruct (_ && _ && _); [|exact H0]. eapply keeps_bind; [apply quiet_mapped_bytes|]. intros revs. cbv zeta. destruct (negb (_ =? ESP_OK)); [|exact H0].
      apply (keeps_bind e D (fun _ => D)); [apply quiet_flash_unmap|]. intros _. apply keeps_throw.
    + intros len s r s' [HD ->]. by apply Hw.
Qed.

Lemma quiet_chunk_loop n segment load a len do_load start :
  0 <= len < 0xFFFFFFFF -> len mod 4 = 0 -> (do_load = true -> 0 <= load /\ load + len < 4294967296 /\ clear load len) ->
  quiet e (chunk_loop e n segment load a len do_load start).
Proof.
  revert load a len start. induction n as [|n IH]; intros load a len start Hl Hm Hc; cbn [chunk_loop]; destruct (len =? 0);
    try apply quiet_ret; [intros D; apply keeps_stop|]. cbv zeta.
  set (pages := if free_pages >? _ then _ else 0). destruct (pages =? 0) eqn:Ep; [intros D; apply keeps_throw|].
  assert (0 < pages) as Hp.
  { subst pages. destruct (free_pages >? _) eqn:Eg; [|done]. rewrite Z.gtb_ltb in Eg. lia. }
  clearbody pages. set (piece := Z.min len _). assert (0 <= piece <= len /\ piece mod 4 = 0) as [Hr Hpm].
  { subst piece. change SPI_FLASH_MMU_PAGE_SIZE with 65536 in *. rewrite Z.gtb_ltb. destruct (Z.ltb_spec 0xFFFFFFFF (pages * 65536)); [rewrite Z.min_l by lia; lia|].
    destruct (Z.min_spec len (pages * 65536)) as [[_ ->]|[? ->]]; [lia|]. split; [lia|]. Z.div_mod_to_equations; lia. }
  clearbody piece. apply quiet_bind.
  - apply quiet_piece; [lia|done|]. intros Ed. destruct (Hc Ed) as (_ & _ & Hcl). rewrite <- (Z.add_0_r load). apply (clear_sub _ len); [done|lia..].
  - intros _. apply IH; [lia|Z.div_mod_to_equations; lia|]. intros Ed. destruct (Hc Ed) as (H0 & H1 & Hcl). rewrite u32_id by lia.
    split; [lia|]. split; [lia|]. apply (clear_sub _ len); [done|lia..].
Qed.
End frame.

(** ** The whole image

    [recorded n d]: the first [n] segment headers in the metadata [d] were
    checked, so that the data hidden by [word_loop] can be shown in place. *)

Section whole.
Context {st : Type} `{FlashPort st} (e : env) (no_desc : anti_rollback e = false).
Context (reads_bytes : forall a n p err bs p', read a n p = Some (err, bs, p') -> Forall (fun b => 0 <= b < 256) bs).

Definition stored (do_load : bool) (h : esp_image_segment_header_t) : Prop :=
  do_load = true -> should_load e (load_addr h) = true -> 0 < data_len h -> clear e (load_addr h) (data_len h).

Definition recorded (do_load : bool) (n : nat) (d : esp_image_metadata_t) : Prop :=
  forall j h, (j < n)%nat -> segments d !! j = Some h -> stored do_load h.

Lemma at8_bounds bs i : Forall (fun b => 0 <= b < 256) bs -> 0 <= at8 bs i < 256.
Proof. intros Hb. unfold at8. destruct (bs !! i) eqn:E; [|cbn; lia]. by apply (Forall_lookup_1 _ _ _ _ Hb E). Qed.

Lemma at32_bounds bs i : Forall (fun b => 0 <= b < 256) bs -> 0 <= at32 bs i < 4294967296.
Proof. intros Hb. unfold at32, at16. pose proof (at8_bounds bs i Hb). pose proof (at8_bounds bs (i + 1) Hb). pose proof (at8_bounds bs (i + 2) Hb). pose proof (at8_bounds bs (i + 2 + 1) Hb). lia. Qed.

Lemma flash_read_bytes a n D : keeps e D (flash_read a n) (fun bs d => D d /\ Forall (fun b => 0 <= b < 256) bs).
Proof.
  intros s r s' HD. unfold flash_read. destruct (read _ _ _) as [[[err bs] p]|] eqn:E; [|done]. intros [= <- <-]. split; [done|].
  destruct (err =? ESP_OK); [|done]. split; [done|]. by apply reads_bytes in E.
Qed.

Lemma keeps_pure {A} (P : Prop) D E (m : M (load_state st) A) : (P -> keeps e D m E) -> keeps e (fun d => D d /\ P) m E.
Proof. intros Hm s r s' [HD HP]. by apply Hm. Qed.

Lemma keeps_header h a D : (forall d, D d -> D (set_mmu_page_size SPI_FLASH_MMU_PAGE_SIZE d)) ->
  keeps (st := st) e D (verify_segment_header h a) (fun _ d => D d /\ data_len h < 0xFFFFFFFF).
Proof.
  intros Hd. unfold verify_segment_header. eapply keeps_bind; [apply keeps_check|]; cbv beta; intros _. apply keeps_pure. intros Hb.
  apply negb_true_iff, orb_false_iff in Hb as [_ Hb]. rewrite Z.geb_leb in Hb. apply Z.leb_gt in Hb.
  eapply keeps_bind; [apply (keeps_update e D D); done|]; cbv beta; intros _. eapply keeps_post; [|apply quiet_check]. by intros ? d Hd'.
Qed.

Context (do_load : bool) (build : do_load = true -> bootloader_build e = true).

(** A segment that is to be stored has been checked. *)
Definition storable (h : esp_image_segment_header_t) : Prop :=
  do_load && should_load e (load_addr h) = true -> 0 <= load_addr h /\ load_addr h + data_len h < 4294967296 /\ clear e (load_addr h) (data_len h).

Lemma keeps_loadable h D : 0 <= load_addr h < 4294967296 -> 0 <= data_len h < 4294967296 ->
  keeps (st := st) e D (if bootloader_build e && (do_load && should_load e (load_addr h)) && (data_len h >? 0)
     then given (verify_load_addresses e 1 (s32 (load_addr h)) (s32 (load_addr h + data_len h))) else ret true)
   (fun ok d => D d /\ (ok = true -> storable h)).
Proof.
  intros Ha Hl. rewrite Z.gtb_ltb. destruct (bootloader_build e && _ && _) eqn:Eb.
  - apply andb_true_iff in Eb as [_ Eb%Z.ltb_lt]. eapply keeps_post; [|apply keeps_given]. intros ok d [HD Ev]. split; [done|]. intros -> _. split; [lia|]. split.
    + destruct (verified_in_ram e h Ha ltac:(lia) Ev); soc; lia.
    + intros He i Hi. apply verified_unprotected; [done|done|done|lia|done].
  - intros s r s' HD [= <- <-]. split; [done|]. split; [done|]. intros _ Ed. rewrite Ed in Eb. apply andb_true_iff in Ed as [Ed _].
    rewrite (build Ed) in Eb. apply Z.ltb_ge in Eb. split; [lia|]. split; [lia|]. intros _ i Hi. lia.
Qed.

Definition kept (c : Z) (n : nat) (d : esp_image_metadata_t) : Prop := segment_count (image d) = c /\ recorded do_load n d.

Lemma keeps_segment c i a : keeps e (kept c i) (process_segment e i a do_load) (fun _ => kept c (S i)).
Proof.
  unfold process_segment. eapply keeps_bind; [apply flash_read_bytes|]. intros bs. apply keeps_pure. intros Hbs. cbv zeta. set (h := segment_header bs).
  assert (0 <= load_addr h < 4294967296 /\ 0 <= data_len h < 4294967296) as [Hla Hdl] by (split; by apply at32_bounds).
  set (D d := kept c i d /\ segments d !! i = Some h).
  eapply keeps_bind; [apply (keeps_try e (kept c i) D)|].
  { intros d d' [Hc Hr]. unfold put_segment. destruct (Nat.ltb_spec i (length (segments d))); [|done]. intros [= <-]. split; cbn.
    - split; [done|]. intros j h' Hj. cbn. rewrite list_lookup_insert_ne by lia. by apply Hr.
    - by apply list_lookup_insert_eq. }
  cbv beta. intros _. eapply keeps_bind; [apply quiet_hash_bytes|]; cbv beta; intros _. eapply keeps_bind; [apply (keeps_header h _ D); by intros d|]; cbv beta; intros _. apply keeps_pure. intros Hlen.
  eapply keeps_bind; [apply keeps_check|]; cbv beta; intros _. apply keeps_pure. intros Hm%Z.eqb_eq.
  eapply keeps_bind; [by apply keeps_loadable|]. intros ok. apply keeps_pure. intros Hok.
  eapply keeps_bind; [apply keeps_check|]; cbv beta; intros _. apply keeps_pure. intros Hst. specialize (Hok Hst).
  eapply keeps_bind; [apply quiet_chunk_loop; [done|lia|done|exact Hok]|]; cbv beta; intros _. eapply keeps_post; [|apply quiet_ret].
  intros _ d [[Hc Hr] Hi]. split; [done|]. intros j h' Hj Hh. destruct (decide (j = i)) as [->|]; [|apply (Hr j); [lia|done]].
  rewrite Hi in Hh. injection Hh as <-. intros Hd Hs _. by apply Hok; rewrite Hd, Hs.
Qed.

Lemma keeps_segment_loop c n i a : keeps e (kept c i) (segment_loop e n i a do_load) (fun _ => kept c (i + n)).
Proof.
  revert i a. induction n as [|n IH]; intros i a; cbn [segment_loop].
  - rewrite Nat.add_0_r. apply quiet_ret.
  - eapply keeps_bind; [apply keeps_segment|]. intros len. eapply keeps_bind; [apply (keeps_try e _ (kept c (S i)))|].
    + intros d d' Hd. unfold put_segment_data. destruct (_ <? _)%nat; [|done]. by intros [= <-].
    + cbv beta. intros _. replace (i + S n)%nat with (S i + n)%nat by lia. apply IH.
Qed.

(** The metadata that [deobfuscate] goes by. *)
Definition known (d : esp_image_metadata_t) : Prop := recorded do_load (Z.to_nat (segment_count (image d))) d.

Lemma keeps_segments : keeps e (fun _ => True) (process_segments e do_load) (fun _ => known).
Proof.
  unfold process_segments. eapply keeps_bind; [apply keeps_data|]. intros d. cbv zeta.
  eapply keeps_bind; [eapply keeps_mono; [|apply (keeps_segment_loop (segment_count (image d)) _ 0)]|].
  { intros d' [_ ->]. split; [done|]. intros j h Hj. lia. }
  intros end_addr. eapply keeps_bind; [apply quiet_check|]; cbv beta; intros _. apply keeps_update. intros d' [Hc Hr]. unfold known. cbn. by rewrite Hc.
Qed.

Lemma deobfuscate_known d v r : known d ->
  frame e r (if do_load then foldl (fun m h => deobfuscate_segment e v h m) r (take (Z.to_nat (segment_count (image d))) (segments d)) else r).
Proof.
  unfold known. destruct do_load eqn:Ed; [|done]. rewrite <- Ed. generalize (Z.to_nat (segment_count (image d))) as n. intros n Hr.
  assert (Forall (stored do_load) (take n (segments d))) as Hs.
  { apply Forall_lookup_2. intros j h Hj. apply lookup_take_Some in Hj as [Hj Hl]. by apply (Hr j). }
  clear Hr. revert r. induction Hs as [|h l Hh _ IH]; intros r; cbn [foldl]; [done|]. eapply frame_trans; [|apply IH].
  unfold deobfuscate_segment. destruct (should_load e (load_addr h)) eqn:El; [|done]. intros He x Hx. apply deobfuscate_words_other. intros i Hi ->.
  apply (Hh Ed El ltac:(Z.div_mod_to_equations; lia) He i); [Z.div_mod_to_equations; lia|done].
Qed.
Lemma keeps_deobfuscate : keeps (st := st) e known (deobfuscate e do_load) (fun _ => known).
Proof.
  intros s r s' HD [= <- <-]. cbv beta. destruct (do_load && _ && _) eqn:Ed; [|done]. split; [|done]. cbn [ram set_ram].
  pose proof (deobfuscate_known (data s) (ram_obfs_value s) (ram s) HD) as F. rewrite !andb_true_iff in Ed. by rewrite (proj1 (proj1 Ed)) in F.
Qed.

(** What changes neither the headers nor their number. *)
Lemma keeps_known f : (forall d, segments (f d) = segments d /\ image (f d) = image d) -> keeps (st := st) e known (update_data f) (fun _ => known).
Proof. intros Hf. apply keeps_update. intros d Hd. destruct (Hf d) as [E1 E2]. unfold known, recorded. rewrite E1, E2. apply Hd. Qed.

Lemma keeps_checksum w skip : keeps e known (process_checksum w skip) (fun _ => known).
Proof.
  unfold process_checksum. eapply keeps_bind; [apply quiet_get|]. intros d. eapply keeps_bind; [apply quiet_get|]. intros hashing.
  eapply keeps_bind; [instantiate (1 := fun _ => known)|].
  { destruct (_ || _); [apply quiet_flash_read|apply quiet_ret]. }
  intros buf. eapply keeps_bind; [apply quiet_check|]. intros x1. eapply keeps_bind; [apply quiet_hash_bytes|]. intros x2. by apply keeps_known.
Qed.

Lemma keeps_appended size do_verify : keeps e known (process_appended_hash_and_sig size do_verify) (fun _ => known).
Proof.
  unfold process_appended_hash_and_sig. eapply keeps_bind; [apply quiet_get|]. intros d. eapply keeps_bind; [instantiate (1 := fun _ => known)|].
  - destruct (hash_appended (image d)); [|apply quiet_ret]. eapply keeps_bind; [instantiate (1 := fun _ => known)|intros x1; by apply keeps_known].
    destruct do_verify; [|apply quiet_ret]. eapply keeps_bind; [apply quiet_flash_read|]. intros digest. by apply keeps_known.
  - intros x1. eapply keeps_bind; [apply quiet_get|]. intros d'. apply quiet_check.
Qed.

Lemma keeps_finish do_verify verify_sha size : keeps e known (image_finish e do_load do_verify verify_sha size) (fun _ => known).
Proof.
  unfold image_finish. eapply keeps_bind; [apply quiet_get|]. intros w. eapply keeps_bind; [apply keeps_checksum|]. intros x1.
  eapply keeps_bind; [apply keeps_appended|]. intros x2. eapply keeps_bind; [apply quiet_get|]. intros h. eapply keeps_bind; [instantiate (1 := fun _ => known)|].
  - destruct h as [hashed|]; [|apply quiet_ret]. destruct (_ && _); [|apply quiet_ret]. unfold verify_simple_hash.
    eapply keeps_bind; [by apply quiet_modify|]. intros x3. eapply keeps_bind; [apply quiet_get|]. intros d. apply quiet_check.
  - intros x3. eapply keeps_bind; [by apply quiet_modify|]. intros x4. eapply keeps_bind; [instantiate (1 := fun _ => known)|].
    + apply keeps_when, keeps_deobfuscate.
    + intros x5. eapply keeps_bind; [apply quiet_get|]. intros d. apply quiet_check.
Qed.
End whole.

Section loads.
Context {st : Type} `{FlashPort st} (e : env) (no_desc : anti_rollback e = false).
Context (reads_bytes : forall a n p err bs p', read a n p = Some (err, bs, p') -> Forall (fun b => 0 <= b < 256) bs).

Lemma keeps_image_header off hash do_verify : keeps (st := st) e (fun _ => True) (process_image_header e off hash do_verify) (fun _ _ => True).
Proof.
  set (D := fun _ : esp_image_metadata_t => True). assert (forall f, keeps (st := st) e D (update_data f) (fun _ => D)) as Hu by (intros f; by apply keeps_update).
  unfold process_image_header. eapply keeps_bind; [apply Hu|]. intros x1. eapply keeps_bind; [apply quiet_flash_read|]. intros image.
  eapply keeps_bind; [apply Hu|]. intros x2. eapply keeps_bind; [|intros x3; apply (keeps_mono _ _ D); [done|apply Hu]].
  apply quiet_when, quiet_bind; [|intros x3; apply quiet_check].
  apply quiet_when. destruct (sha_available e); [|intros D'; apply keeps_throw]. apply quiet_bind; [by apply quiet_modify|]. intros x3. apply quiet_hash_bytes.
Qed.

(** The memory of the bootloader stays, in every mode. *)
Lemma image_load_frame mode part s err s' : image_load e mode part s = Some (err, s') -> frame e (ram s) (ram s').
Proof.
  unfold image_load, image_load_body. set (do_load := bootloader_build e && is_load mode). cbv zeta.
  match goal with |- context [bind ?m ?k ?s0] => destruct (bind m k s0) as [[r s1]|] eqn:Er; [|done]; change (ram s) with (ram s0) end.
  assert (frame e (ram s) (ram s1)) as F; [|destruct r; by intros [= <- <-]].
  refine (proj1 (keeps_bind e (fun _ => True) (fun _ _ => True) (fun _ _ => True) _ _ _ _ _ _ _ I Er)); [apply quiet_check|]. intros x1.
  assert (do_load = true -> bootloader_build e = true) as Hb by (intros E; unfold do_load in E; by apply andb_true_iff in E as [? _]).
  eapply keeps_bind; [apply keeps_image_header|]. intros x2. eapply keeps_bind; [by apply (keeps_segments e no_desc reads_bytes)|].
  intros x3. eapply keeps_post; [|by apply keeps_finish]. done.
Qed.
End loads.
