(* ===== verification/ImageLoad.v ===== *)
(** * What loading leaves in the RAM

    Words are stored hidden by random words and shown again after the image was
    verified; for segments that do not overlap, the RAM then holds the image. *)

From S2P Require Import Prelude EspErr Flash PartTable OtaData Mmu BootFlash Image ImageMem ImageProps ImageSpec ImageWhole.

#[local] Opaque chunk_loop chunk_fuel verify_load_addresses.

(** ** Words in one kind of RAM *)

Lemma write_bytes_at lo hi a bs m i : in_ram lo hi -> lo <= a -> a + Z.of_nat (length bs) <= hi -> 0 <= i < Z.of_nat (length bs) ->
  write_bytes a bs m (phys (a + i)) = default 0 (bs !! Z.to_nat i).
Proof.
  intros Hr. revert a m i. induction bs as [|b bs IH]; intros a m i Ha Hl Hi; cbn [write_bytes length] in *; [lia|].
  destruct (Z.eq_dec i 0) as [->|].
  - rewrite write_bytes_other.
    + by rewrite Z.add_0_r, Z.eqb_refl.
    + intros j Hj E. apply (phys_inj lo hi) in E; [lia|done|lia|lia].
  - replace (a + i) with (a + 1 + (i - 1)) by lia. rewrite IH by lia.
    replace (Z.to_nat i) with (S (Z.to_nat (i - 1))) by lia. done.
Qed.

Lemma read_word_ext a m1 m2 : (forall i, 0 <= i < 4 -> m1 (phys (a + i)) = m2 (phys (a + i))) -> read_word a m1 = read_word a m2.
Proof.
  intros Hx. unfold read_word. rewrite <- (Z.add_0_r a) at 1 5. by rewrite !Hx by lia.
Qed.

Lemma read_write_word lo hi a w m : in_ram lo hi -> lo <= a -> a + 4 <= hi -> read_word a (write_word a w m) = w mod 2 ^ 32.
Proof.
  intros Hr Ha Hl. unfold read_word, write_word.
  assert (forall i, 0 <= i < 4 -> write_bytes a (bytes32 w) m (phys (a + i)) = default 0 (bytes32 w !! Z.to_nat i)) as Hw
    by (intros i Hi; by apply (write_bytes_at lo hi)).
  pose proof (Hw 0 ltac:(lia)) as H0. rewrite Z.add_0_r in H0. rewrite H0, !Hw by lia.
  change (Z.to_nat 0) with 0%nat. change (Z.to_nat 1) with 1%nat. change (Z.to_nat 2) with 2%nat. change (Z.to_nat 3) with 3%nat.
  unfold bytes32. cbn -[Z.mul Z.add Z.modulo Z.div]. Z.div_mod_to_equations. lia.
Qed.

Lemma read_write_other lo hi a b w m : in_ram lo hi -> lo <= a -> a + 4 <= hi -> lo <= b -> b + 4 <= hi -> a + 4 <= b \/ b + 4 <= a ->
  read_word a (write_word b w m) = read_word a m.
Proof.
  intros Hr Ha Hal Hb Hbl Hab. apply read_word_ext. intros i Hi. apply write_word_other. intros j Hj E.
  apply (phys_inj lo hi) in E; [lia|done|lia|lia].
Qed.

(** Hiding twice shows. *)
Lemma unhide w o : Z.lxor (Z.lxor w o mod 2 ^ 32) o mod 2 ^ 32 = w mod 2 ^ 32.
Proof.
  apply Z.bits_inj'. intros i Hi. destruct (Z.ltb_spec i 32).
  - rewrite !Z.mod_pow2_bits_low, Z.lxor_spec, Z.mod_pow2_bits_low, Z.lxor_spec by lia. by destruct (Z.testbit w i), (Z.testbit o i).
  - by rewrite !Z.mod_pow2_bits_high by lia.
Qed.

Lemma put_words_read lo hi cells n k a dest v r j :
  in_ram lo hi -> lo <= dest + 4 * k -> dest + 4 * (k + Z.of_nat n) <= hi -> k <= j < k + Z.of_nat n ->
  read_word (dest + 4 * j) (put_words cells n k a dest v r) = Z.lxor (load32 cells (a + 4 * j)) (obfs_word v j) mod 2 ^ 32.
Proof.
  intros Hr. revert k r. induction n as [|n IH]; intros k r Hk Hl Hj; cbn [put_words]; [lia|].
  destruct (Z.eq_dec j k) as [->|]; [|by apply IH; lia].
  rewrite (read_word_ext _ _ (write_word (dest + 4 * k) (Z.lxor (load32 cells (a + 4 * k)) (obfs_word v k)) r)); [by apply (read_write_word lo hi); lia||done|].
  intros i Hi. apply put_words_other. intros i' Hi' E. rewrite <- Z.add_assoc in E. apply (phys_inj lo hi) in E; [lia|done|lia|lia].
Qed.

Lemma deobfuscate_read lo hi n k a v r j :
  in_ram lo hi -> lo <= a + 4 * k -> a + 4 * (k + Z.of_nat n) <= hi -> k <= j < k + Z.of_nat n ->
  read_word (a + 4 * j) (deobfuscate_words n k a v r) = Z.lxor (read_word (a + 4 * j) r) (obfs_word v j) mod 2 ^ 32.
Proof.
  intros Hr. revert k r. induction n as [|n IH]; intros k r Hk Hl Hj; cbn [deobfuscate_words]; [lia|].
  destruct (Z.eq_dec j k) as [->|].
  - rewrite (read_word_ext _ _ (write_word (a + 4 * k) (Z.lxor (read_word (a + 4 * k) r) (obfs_word v k)) r)); [by apply (read_write_word lo hi); lia||done|].
    intros i Hi. apply deobfuscate_words_other. intros i' Hi' E. rewrite <- Z.add_assoc in E. apply (phys_inj lo hi) in E; [lia|done|lia|lia].
  - rewrite IH by lia. do 2 f_equal. apply (read_write_other lo hi); lia || done.
Qed.

(** ** Segments *)

Section image_load_props.
Context (e : env) (cells : mem) (cells_byte : forall x, 0 <= cells x < 256).

(** The bytes of RAM that a segment takes. *)
Definition occupied (h : esp_image_segment_header_t) (x : Z) : Prop := exists i, 0 <= i < data_len h / 4 * 4 /\ x = phys (load_addr h + i).

Definition shows (d : Z) (h : esp_image_segment_header_t) (r : mem) : Prop :=
  forall j, 0 <= j < data_len h / 4 -> read_word (load_addr h + 4 * j) r = load32 cells (d + 4 * j).

Definition hides (v : Z * Z) (d : Z) (h : esp_image_segment_header_t) (r : mem) : Prop :=
  forall j, 0 <= j < data_len h / 4 -> read_word (load_addr h + 4 * j) r = Z.lxor (load32 cells (d + 4 * j)) (obfs_word v j) mod 2 ^ 32.

Definition fits_ram (h : esp_image_segment_header_t) : Prop := 0 < data_len h -> in_ram (load_addr h) (load_addr h + data_len h).

Lemma occupied_word h j i : 0 <= j < data_len h / 4 -> 0 <= i < 4 -> occupied h (phys (load_addr h + 4 * j + i)).
Proof. intros Hj Hi. exists (4 * j + i). split; [lia|]. f_equal. lia. Qed.

Lemma word_kept h r r' j : 0 <= j < data_len h / 4 -> (forall x, occupied h x -> r' x = r x) ->
  read_word (load_addr h + 4 * j) r' = read_word (load_addr h + 4 * j) r.
Proof. intros Hj Hx. apply read_word_ext. intros i Hi. by apply Hx, occupied_word. Qed.

Lemma put_hides h d v r : fits_ram h -> 0 <= data_len h -> hides v d h (put_words cells (Z.to_nat (data_len h / 4)) 0 d (load_addr h) v r).
Proof.
  intros Hf Hl j Hj. apply (put_words_read (load_addr h) (load_addr h + data_len h)); [apply Hf|..]; Z.div_mod_to_equations; lia.
Qed.

Lemma put_other h d v r x : 0 <= data_len h -> ~ occupied h x -> put_words cells (Z.to_nat (data_len h / 4)) 0 d (load_addr h) v r x = r x.
Proof. intros Hl Hx. apply put_words_other. intros i Hi ->. apply Hx. exists i. split; [lia|done]. Qed.

Lemma deobfuscate_shows h d v r : fits_ram h -> 0 <= data_len h -> should_load e (load_addr h) = true -> hides v d h r ->
  shows d h (deobfuscate_segment e v h r).
Proof.
  intros Hf Hl Hs Hh j Hj. unfold deobfuscate_segment. rewrite Hs.
  rewrite (deobfuscate_read (load_addr h) (load_addr h + data_len h)); [|apply Hf; Z.div_mod_to_equations; lia|Z.div_mod_to_equations; lia..].
  rewrite Hh, unhide by done. apply Z.mod_small. apply (load32_bounds cells cells_byte).
Qed.

Lemma deobfuscate_other h v r x : 0 <= data_len h -> (should_load e (load_addr h) = true -> ~ occupied h x) -> deobfuscate_segment e v h r x = r x.
Proof.
  intros Hl Hx. unfold deobfuscate_segment. destruct (should_load e (load_addr h)); [|done].
  apply deobfuscate_words_other. intros i Hi ->. apply Hx; [done|]. exists i. split; [lia|done].
Qed.

Definition loaded (h : esp_image_segment_header_t) : Prop := should_load e (load_addr h) = true.

(** No two loaded segments share a byte of RAM. *)
Fixpoint disjoint_segs (l : list (Z * esp_image_segment_header_t)) : Prop :=
  match l with
  | [] => True
  | (_, h) :: l => (loaded h -> forall d' h', (d', h') ∈ l -> loaded h' -> forall x, occupied h x -> ~ occupied h' x) /\ disjoint_segs l
  end.

Definition good_layout (l : list (Z * esp_image_segment_header_t)) : Prop :=
  forall d h, (d, h) ∈ l -> 0 <= data_len h /\ (loaded h -> fits_ram h).

(** The segments are stored one after the other ([put_segs] with [do_load]). *)
Definition put_all (v : Z * Z) (l : list (Z * esp_image_segment_header_t)) (r : mem) : mem :=
  foldl (fun r '(d, h) => if should_load e (load_addr h) then put_words cells (Z.to_nat (data_len h / 4)) 0 d (load_addr h) v r else r) r l.

Definition show_all (v : Z * Z) (l : list (Z * esp_image_segment_header_t)) (r : mem) : mem :=
  foldl (fun r h => deobfuscate_segment e v h r) r l.*2.

Lemma put_all_cons v d h l r :
  put_all v ((d, h) :: l) r =
  put_all v l (if should_load e (load_addr h) then put_words cells (Z.to_nat (data_len h / 4)) 0 d (load_addr h) v r else r).
Proof. done. Qed.

Lemma show_all_cons v d h l r : show_all v ((d, h) :: l) r = show_all v l (deobfuscate_segment e v h r).
Proof. done. Qed.

Lemma put_all_other v l r x : good_layout l -> (forall d h, (d, h) ∈ l -> loaded h -> ~ occupied h x) -> put_all v l r x = r x.
Proof.
  revert r. induction l as [|[d h] l IH]; intros r Hg Hx; [done|]. rewrite put_all_cons.
  destruct (Hg d h ltac:(left)) as [Hl Hf].
  rewrite IH; [|by intros d' h' Hin; apply (Hg d'); right|by intros d' h' Hin; apply (Hx d'); right].
  destruct (should_load e (load_addr h)) eqn:Es; [|done]. apply put_other; [done|]. apply (Hx d h); [left|done].
Qed.

Lemma show_all_other v l r x : good_layout l -> (forall d h, (d, h) ∈ l -> loaded h -> ~ occupied h x) -> show_all v l r x = r x.
Proof.
  revert r. induction l as [|[d h] l IH]; intros r Hg Hx; [done|].
  destruct (Hg d h ltac:(left)) as [Hl Hf]. rewrite show_all_cons.
  rewrite IH; [|by intros d' h' Hin; apply (Hg d'); right|by intros d' h' Hin; apply (Hx d'); right].
  apply deobfuscate_other; [done|]. apply (Hx d h). left.
Qed.

Lemma put_all_hides v l r d h : good_layout l -> disjoint_segs l -> (d, h) ∈ l -> loaded h -> hides v d h (put_all v l r).
Proof.
  revert r. induction l as [|[d0 h0] l IH]; intros r Hg Hd Hin Hh; [by apply not_elem_of_nil in Hin|]. destruct Hd as [Hd1 Hd2].
  assert (good_layout l) as Hgl by (intros d' h' ?; apply (Hg d'); by right).
  rewrite put_all_cons. apply elem_of_cons in Hin as [[= -> ->]|Hin]; [|by apply IH].
  destruct (Hg d0 h0 ltac:(left)) as [Hl Hf]. intros j Hj. rewrite (word_kept h0 (put_words cells (Z.to_nat (data_len h0 / 4)) 0 d0 (load_addr h0) v r)); [|done|].
  - by apply put_hides; [apply Hf|..].
  - intros x Hx. rewrite Hh. apply put_all_other; [done|]. intros d' h' Hin' Hh'. by apply (Hd1 Hh d').
Qed.

Lemma show_all_shows v l r : good_layout l -> disjoint_segs l -> (forall d h, (d, h) ∈ l -> loaded h -> hides v d h r) ->
  forall d h, (d, h) ∈ l -> loaded h -> shows d h (show_all v l r).
Proof.
  revert r. induction l as [|[d0 h0] l IH]; intros r Hg Hd Hhid d h Hin Hh; [by apply not_elem_of_nil in Hin|]. destruct Hd as [Hd1 Hd2].
  assert (good_layout l) as Hgl by (intros d' h' ?; apply (Hg d'); by right). destruct (Hg d0 h0 ltac:(left)) as [Hl Hf].
  rewrite show_all_cons. apply elem_of_cons in Hin as [[= -> ->]|Hin].
  - intros j Hj. rewrite (word_kept h0 (deobfuscate_segment e v h0 r)); [|done|].
    + apply deobfuscate_shows; [by apply Hf|done|done|apply Hhid; [left|done]|done].
    + intros x Hx. apply show_all_other; [done|]. intros d' h' Hin' Hh'. by apply (Hd1 Hh d').
  - apply IH; [done|done| |done|done]. intros d' h' Hin' Hh' j Hj. rewrite (word_kept h' r); [by apply (Hhid d' h'); [right| |]|done|].
    intros x Hx. apply deobfuscate_other; [done|]. intros Hh0 Hx0. by apply (Hd1 Hh0 d' h' Hin' Hh' x).
Qed.
End image_load_props.

(** ** The image in RAM *)

Section image_load.
Context {st : Type} `{FlashPort st} (e : env) (cells : mem) {spec : FlashPortSpec st cells}.
Context (cells_byte : forall x, 0 <= cells x < 256) (sha_ok : sha_available e = true) (boot : bootloader_build e = true).
Implicit Types s : load_state st.

Lemma put_segs_all n a v r : put_segs e cells true n a v r = put_all e cells v (layout cells n a) r.
Proof.
  revert a r. induction n as [|n IH]; intros a r; cbn [put_segs layout]; [done|]. rewrite IH, put_all_cons.
  unfold put_data, stores. rewrite boot. cbn [andb]. by destruct (should_load _ _).
Qed.

Lemma segs_good off n i a : segs_ok e cells off true n i a = true -> good_layout e (layout cells n a).
Proof.
  revert i a. induction n as [|n IH]; intros i a Hok d h Hin; cbn [layout] in Hin; [by apply not_elem_of_nil in Hin|].
  cbn [segs_ok] in Hok. apply andb_true_iff in Hok as [H1 H2]. apply elem_of_cons in Hin as [[= -> ->]|Hin]; [|by apply (IH (S i) (seg_next cells a) H2 d)].
  pose proof (load32_bounds cells cells_byte (a + 4) : 0 <= data_len (seg_at cells a) < _) as Hl. split; [apply Hl|]. intros Hs Hp.
  unfold segment_ok, loads in H1. unfold loaded in Hs. rewrite boot, Hs, (proj2 (Z.ltb_lt 0 _) Hp), !andb_true_iff in H1. destruct H1 as [[_ Hv] _].
  apply bool_decide_eq_true in Hv. apply (verified_in_ram e); [apply (load32_bounds cells cells_byte a)|lia|done].
Qed.

Lemma nothing_stored n a d h : segs_store e cells true n a = false -> (d, h) ∈ layout cells n a -> loaded e h -> data_len h <= 0.
Proof.
  revert a. induction n as [|n IH]; intros a Hs Hin Hh; cbn [layout segs_store] in *; [by apply not_elem_of_nil in Hin|].
  apply orb_false_iff in Hs as [H1 H2]. apply elem_of_cons in Hin as [[= -> ->]|Hin]; [|by apply (IH (seg_next cells a))].
  unfold loads in H1. unfold loaded in Hh. rewrite boot, Hh in H1. cbn in H1. by apply Z.ltb_ge in H1.
Qed.

Lemma ram_after_shows off v r :
  let l := layout cells (n_segs cells off) (off + 24) in
  (n_segs cells off <= 16)%nat -> segs_ok e cells off true (n_segs cells off) 0 (off + 24) = true -> disjoint_segs e l ->
  (segs_store e cells true (n_segs cells off) (off + 24) = true -> obfs_unset v = false) ->
  (forall d h, (d, h) ∈ l -> loaded e h -> shows cells d h (ram_after e cells true off v r)) /\
  (forall x, (forall d h, (d, h) ∈ l -> loaded e h -> ~ occupied h x) -> ram_after e cells true off v r x = r x).
Proof.
  intros l Hn Hok Hdis Hv. pose proof (segs_good off _ _ _ Hok) as Hg. fold l in Hg. unfold ram_after. rewrite image_segments, put_segs_all by done. fold l. cbn [andb].
  destruct (negb (v.1 =? 0) && negb (v.2 =? 0)) eqn:Ev.
  - split.
    + apply (show_all_shows e cells cells_byte v l); [done|done|]. intros d h Hin Hh. by apply put_all_hides.
    + intros x Hx. fold (show_all e v l (put_all e cells v l r)). rewrite (show_all_other e v l) by done. by apply put_all_other.
  - assert (segs_store e cells true (n_segs cells off) (off + 24) = false) as Hno.
    { apply not_true_iff_false. intros Hs. specialize (Hv Hs). unfold obfs_unset in Hv. by destruct (v.1 =? 0), (v.2 =? 0). }
    split.
    + intros d h Hin Hh j Hj. pose proof (nothing_stored _ _ d h Hno Hin Hh). exfalso. Z.div_mod_to_equations. lia.
    + intros x Hx. by apply put_all_other.
Qed.

(** The outcome of loading a well-formed image. *)
Lemma load_outcome part s :
  let off := offset part in
  skip_validate e = false -> ready (port s) -> obfs_ready s -> 0 <= pos_size part < 4294967296 -> image_safe e cells limit off true ->
  image_wf e cells true off (pos_size part) = true -> disjoint_segs e (layout cells (n_segs cells off) (off + 24)) ->
  exists s', bootloader_load_image e part s = Some (ESP_OK, s') /\ data s' = image_meta e cells off /\
    (forall d h, (d, h) ∈ layout cells (n_segs cells off) (off + 24) -> loaded e h -> shows cells d h (ram s')) /\
    (forall x, (forall d h, (d, h) ∈ layout cells (n_segs cells off) (off + 24) -> loaded e h -> ~ occupied h x) -> ram s' x = ram s x).
Proof.
  intros off Hskip Hr Ho Hsz Hsafe Hwf Hdis. unfold bootloader_load_image. rewrite boot, Hskip. cbn [negb].
  destruct (image_load_outcome e cells cells_byte sha_ok ESP_IMAGE_LOAD part s) as (err & s' & E & _ & _ & _ & _ & H1); try done.
  { by rewrite orb_true_r. }
  { unfold loading. by rewrite boot. }
  assert (loading e ESP_IMAGE_LOAD = true) as El by (unfold loading; by rewrite boot). rewrite El in H1. fold off in H1. rewrite Hwf in H1.
  destruct H1 as (-> & D1 & _ & D3 & D4). exists s'. split; [done|]. split; [done|]. rewrite D4.
  unfold image_wf in Hwf. rewrite !andb_true_iff in Hwf. destruct Hwf as [[[[[[_ Hh] Hok] _] _] _] _]. apply Z.eqb_eq in Hh.
  apply ram_after_shows; [by apply (header_segs e cells cells_byte)|done|done|done].
Qed.
End image_load.
