(* ===== verification/ImageBoot.v ===== *)
(** * Booting a verified image

    The claims about images for any way to read the flash ([FlashPortSpec]),
    their composition with the bootloader's choice of an image ([Boot]), whose
    parameter [image_ok] they instantiate, and runs on a small image through
    the bootloader's own flash access ([BootFlash]). *)

From S2P Require Import Prelude EspErr Flash PartTable OtaData Boot BootProps Mmu BootFlash.
From S2P Require Import Image ImageMem ImageProps ImageSpec ImageWhole ImageFrame ImageLoad.

#[local] Opaque chunk_loop chunk_fuel verify_load_addresses.

Section claims.
Context {st : Type} `{FlashPort st} (e : env) (cells : mem) {spec : FlashPortSpec st cells}.
Context (cells_byte : forall x, 0 <= cells x < 256) (sha_ok : sha_available e = true).

(** C8. For an image that can be read and fails no assertion ([image_safe]: all
    parts that the checks before them let through lie in the mappable range of
    the flash, the load addresses of a segment do not wrap, with anti-rollback
    the descriptor is there), in a mode that verifies: verifying ends, and
    accepts exactly the images that are well-formed: header for this chip, all
    segment headers valid, the xor of all data bytes equal to the checksum byte,
    the hash over every byte from the header to the padding equal to the
    appended one, the image inside its partition.  The pieces in which the flash
    is mapped and the order of the loops do not matter; the metadata describe
    the image, or are cleared.  Other images can stop the bootloader instead of
    being refused: [oversized_segment_aborts]. *)
Theorem verify_accepts_wellformed (mode : esp_image_load_mode_t) (part : esp_partition_pos_t) (s : load_state st) :
  negb (bootloader_build e) || is_verify mode = true -> ready (port s) -> obfs_ready s ->
  0 <= pos_size part < 4294967296 -> image_safe e cells limit (offset part) (loading e mode) ->
  exists err s', esp_image_verify e mode part s = Some (err, s') /\
    (err = ESP_OK <-> image_wf e cells (loading e mode) (offset part) (pos_size part) = true) /\
    data s' = (if err =? ESP_OK then image_meta e cells (offset part) else zero_meta) /\
    ready (port s') /\ obfs_ready s'.
Proof.
  intros Hv Hr Ho Hsz Hsafe.
  destruct (image_load_outcome e cells cells_byte sha_ok mode part s Hv Hr Ho Hsz Hsafe) as (err & s' & E & R1 & R2 & _ & _ & H1).
  exists err, s'. split; [exact E|]. destruct (image_wf e cells (loading e mode) (offset part) (pos_size part)).
  - destruct H1 as (-> & D & _). by repeat split.
  - destruct H1 as [Herr D]. rewrite (proj2 (Z.eqb_neq _ _) Herr). by repeat split.
Qed.

(** C26. Loading a well-formed image whose loaded segments do not share RAM:
    afterwards every word of every loaded segment is at its load address, and
    no other byte of RAM was changed. *)
Theorem load_shows_image (part : esp_partition_pos_t) (s : load_state st) :
  bootloader_build e = true -> skip_validate e = false -> ready (port s) -> obfs_ready s ->
  0 <= pos_size part < 4294967296 -> image_safe e cells limit (offset part) true ->
  image_wf e cells true (offset part) (pos_size part) = true ->
  disjoint_segs e (layout cells (n_segs cells (offset part)) (offset part + 24)) ->
  exists s', bootloader_load_image e part s = Some (ESP_OK, s') /\
    (forall d h, (d, h) ∈ layout cells (n_segs cells (offset part)) (offset part + 24) -> loaded e h ->
       forall j, 0 <= j < data_len h / 4 -> read_word (load_addr h + 4 * j) (ram s') = load32 cells (d + 4 * j)) /\
    (forall x, (forall d h, (d, h) ∈ layout cells (n_segs cells (offset part)) (offset part + 24) -> loaded e h -> ~ occupied h x) ->
       ram s' x = ram s x).
Proof.
  intros Hb Hskip Hr Ho Hsz Hsafe Hwf Hdis.
  destruct (load_outcome e cells cells_byte sha_ok Hb part s Hskip Hr Ho Hsz Hsafe Hwf Hdis) as (s' & E & _ & Hs & Hx).
  by exists s'.
Qed.

(** C9. The bootloader is not overwritten by what it loads.  Built without the
    check of the application descriptor ([anti_rollback]): whatever the flash
    gives, also if it changes between two reads, and in every mode, a run of
    [image_load] that ends has not written to the memory the bootloader runs
    from (stack with headroom, static data, loader code), through neither of
    the two buses, whether the image is accepted or not.  With or without that
    check: verifying or loading with verification an image that can be read
    and fails no assertion ([image_safe]) ends, and the same holds.  For other
    images the check breaks it: [descriptor_length_wraps]. *)
Theorem load_keeps_bootloader (mode : esp_image_load_mode_t) (part : esp_partition_pos_t) (s : load_state st) :
  env_ok e -> (forall a n p err bs p', read a n p = Some (err, bs, p') -> Forall (fun b => 0 <= b < 256) bs) ->
  (anti_rollback e = false -> forall err s', image_load e mode part s = Some (err, s') -> forall x, protected e x -> ram s' x = ram s x) /\
  (negb (bootloader_build e) || is_verify mode = true -> ready (port s) -> obfs_ready s ->
   0 <= pos_size part < 4294967296 -> image_safe e cells limit (offset part) (loading e mode) ->
   exists err s', image_load e mode part s = Some (err, s') /\ forall x, protected e x -> ram s' x = ram s x).
Proof.
  intros He Hbytes. split.
  - intros Hd err s' E. by apply (image_load_frame e Hd Hbytes mode part s err s' E).
  - intros Hv Hr Ho Hsz Hsafe. destruct (image_load_outcome e cells cells_byte sha_ok mode part s Hv Hr Ho Hsz Hsafe) as (err & s' & E & _ & _ & _ & F & _).
    exists err, s'. split; [exact E|]. by apply F.
Qed.

(** C27. The choice of the bootloader with the real verification, not skipped,
    for a table all of whose images can be read and fail no assertion
    ([image_safe]): the image that [bootloader_utility_load_boot_image] boots is
    one that [bootloader_load_image] loads, and if it resets instead, loading
    fails for every image of the table that anti-rollback allows; in whatever
    state the attempts before left the loader.  (An image that fails an assertion
    stops the bootloader before it tries the others.) *)
Theorem boot_choice_loads (rollback mapped plain : bool) (size : Z) (bs : bootloader_state_t) (start : Z) (b : boot) (s : load_state st) :
  let image_ok m p := image_wf e m true (offset p) (pos_size p) in
  let r := (bootloader_utility_load_boot_image rollback mapped plain size image_ok bs start b).1 in
  bootloader_build e = true -> skip_validate e = false -> Flash.cells (b_flash b) = cells -> ready (port s) -> obfs_ready s -> FACTORY_INDEX <= start ->
  (forall i, pos_size (index_to_partition bs i) <> 0 ->
     0 <= pos_size (index_to_partition bs i) < 4294967296 /\ image_safe e cells limit (offset (index_to_partition bs i)) true) ->
  (forall i part, r = Boots i part -> exists s', bootloader_load_image e part s = Some (ESP_OK, s') /\ data s' = image_meta e cells (offset part)) /\
  (r = Resets -> forall i, i = FACTORY_INDEX \/ 0 <= i < s32 (app_count bs) \/ i = TEST_APP_INDEX ->
     let part := index_to_partition bs i in pos_size part <> 0 -> check_anti_rollback rollback mapped size part b = true ->
     exists err s', bootloader_load_image e part s = Some (err, s') /\ err <> ESP_OK).
Proof.
  intros image_ok r Hb Hskip Hc Hr Ho Hstart Hsafe.
  assert (forall i, pos_size (index_to_partition bs i) <> 0 -> exists err s', bootloader_load_image e (index_to_partition bs i) s = Some (err, s') /\
    if image_ok cells (index_to_partition bs i) then err = ESP_OK /\ data s' = image_meta e cells (offset (index_to_partition bs i)) else err <> ESP_OK) as Hl.
  { intros i Hp. destruct (Hsafe i Hp) as [Hsz Hsf]. unfold bootloader_load_image. rewrite Hb, Hskip. cbn [negb].
    destruct (image_load_outcome e cells cells_byte sha_ok ESP_IMAGE_LOAD (index_to_partition bs i) s) as (err & s' & E & _ & _ & _ & _ & H1); try done.
    { by rewrite orb_true_r. }
    { unfold loading. by rewrite Hb. }
    assert (loading e ESP_IMAGE_LOAD = true) as El by (unfold loading; by rewrite Hb). rewrite El in H1.
    exists err, s'. split; [done|]. unfold image_ok. destruct (image_wf _ _ _ _ _); [by destruct H1 as (-> & D & _)|by destruct H1]. }
  split.
  - intros i part E. apply boots_bootable in E as [-> E]. unfold bootable in E. rewrite Hc, !andb_true_iff in E. destruct E as [[Hp _] E].
    apply negb_true_iff, Z.eqb_neq in Hp. destruct (Hl i Hp) as (err & s' & El & H1). rewrite E in H1. destruct H1 as [-> H1]. by exists s'.
  - intros E i Hi part Hp Ha. destruct (Hl i Hp) as (err & s' & El & H1). exists err, s'. split; [done|].
    assert (bootable rollback mapped size image_ok bs b i = false) as Hno.
    { apply not_true_iff_false. intros Hb'. unfold r in E. rewrite load_boot_first in E. unfold first_bootable in E.
      assert (i ∈ filter (fun i => bootable rollback mapped size image_ok bs b i = true) (boot_order bs start)) as Hin
        by (apply list_elem_of_filter; split; [done|by apply boot_order_complete]).
      destruct (filter _ _); [by apply elem_of_nil in Hin|done]. }
    unfold bootable in Hno. fold part in Hno. rewrite (proj2 (Z.eqb_neq _ _) Hp), Ha, Hc in Hno. cbn [negb andb] in Hno. fold part in H1. by rewrite Hno in H1.
Qed.
End claims.

(** ** A small image

    An application for the ESP32-S3 with a descriptor in segment 0 and a second
    segment of three words that is loaded to internal RAM. *)

Module Demo.
Definition hash (l : list Z) : list Z := replicate 32 (foldl Z.add 0 l mod 256).
Definition header (n : Z) : list Z := [0xE9; n; 0; 0; 0; 0; 0; 0; 0; 0; 0; 0; 9; 0; 0; 0; 0; 0xff; 0xff; 0; 0; 0; 0; 1].
Definition segment (a : Z) (bs : list Z) : list Z := bytes32 a ++ bytes32 (Z.of_nat (length bs)) ++ bs.
Definition closed (l : list Z) (c : Z) : list Z :=
  l ++ replicate (Z.to_nat (padded (Z.of_nat (length l)) - Z.of_nat (length l) - 1)) 0 ++ [c].
Definition desc : list Z := bytes32 ESP_APP_DESC_MAGIC_WORD ++ bytes32 7 ++ replicate 248 0.
Definition code : list Z := [1; 2; 3; 4; 5; 6; 7; 8; 9; 10; 11; 12].
Definition body : list Z := closed (header 2 ++ segment 0x3C000020 desc ++ segment 0x3FC90000 code) (foldl Z.lxor 0xEF (desc ++ code)).
Definition flash : mem := store_bytes (fun _ => 255) 0x10000 (body ++ hash body).
Definition part : esp_partition_pos_t := MkPos 0x10000 0x1000.

(** The bootloader: 36 KB of stack below [ROM_STACK_START], data, loader code. *)
Definition e : env :=
  MkEnv true false false 0 false false 1 0 false false 16 0 hash true 0x3fceb000 0x3FCD0000 0x3FCD8000 0x403C0000 0x403C8000.
Definition s0 : load_state bflash :=
  MkLoad (MkBflash (fun _ => SOC_MMU_INVALID) false 0 0xFFFFFFFF) (fun _ => 0) (0, 0) [(0, 5); (77, 1234567)] zero_meta None None.

Lemma store_bytes_byte m a bs : (forall x, 0 <= m x < 256) -> forallb (fun b => (0 <=? b) && (b <? 256)) bs = true ->
  forall x, 0 <= store_bytes m a bs x < 256.
Proof.
  intros Hm Hb x. unfold store_bytes. destruct (_ && _); [|apply Hm]. destruct (bs !! Z.to_nat (x - a)) as [b|] eqn:E; [|cbn; lia].
  apply list_elem_of_lookup_2, list_elem_of_In in E. apply (proj1 (forallb_forall _ _) Hb) in E. cbn. lia.
Qed.

Lemma flash_byte x : 0 <= flash x < 256.
Proof. apply store_bytes_byte; [lia|by vm_compute]. Qed.

Lemma layout_2 : layout flash 2 0x10018 = [(0x10020, MkSegment 0x3C000020 256); (0x10128, MkSegment 0x3FC90000 12)].
Proof. by vm_compute. Qed.

Lemma segs_2 : n_segs flash 0x10000 = 2%nat.
Proof. by vm_compute. Qed.

Lemma wf do_load : image_wf e flash do_load 0x10000 0x1000 = true.
Proof. destruct do_load; by vm_compute. Qed.

Lemma safe do_load : image_safe e flash FLASH_LIMIT 0x10000 do_load.
Proof.
  split; [lia|]. split; [done|]. intros _. rewrite segs_2.
  assert (seg_at flash (0x10000 + 24) = MkSegment 0x3C000020 256) as E1 by (by vm_compute).
  assert (seg_at flash 0x10120 = MkSegment 0x3FC90000 12) as E2 by (by vm_compute).
  split; [|intros _; by vm_compute].
  cbn [segs_safe]. unfold segment_safe, seg_next. rewrite E1. cbn [data_len load_addr]. change (0x10000 + 24 + 8 + 256) with 0x10120. rewrite E2.
  cbn [data_len load_addr]. split; [|intros _; split; [|done]].
  - split; [done|]. intros _. split; [done|]. split; [intros Hl; exfalso; revert Hl; by destruct do_load|]. intros _. split; [done|]. intros [=].
  - split; [done|]. intros _. split; [done|]. split; [|done]. intros _ _. exists true. by vm_compute.
Qed.

Lemma ready_0 : boot_ready (port s0) /\ obfs_ready s0.
Proof. split; [done|]. right. by eexists. Qed.

Lemma bootloader_ok : env_ok e.
Proof. by split; vm_compute. Qed.

Lemma disjoint : disjoint_segs e (layout flash (n_segs flash 0x10000) (0x10000 + 24)).
Proof.
  rewrite segs_2. change (0x10000 + 24) with 0x10018. rewrite layout_2. split; [done|]. split; [|done]. intros _ d h Hin. by apply not_elem_of_nil in Hin.
Qed.
End Demo.

Lemma verify_accepts_wellformed_witness :
  exists s', esp_image_verify (H := boot_port Demo.flash) Demo.e ESP_IMAGE_VERIFY Demo.part Demo.s0 = Some (ESP_OK, s') /\ image_len (data s') = 352.
Proof.
  destruct Demo.ready_0 as [Hr Ho].
  destruct (verify_accepts_wellformed (H := boot_port Demo.flash) Demo.e Demo.flash (spec := boot_port_spec Demo.flash) Demo.flash_byte eq_refl
    ESP_IMAGE_VERIFY Demo.part Demo.s0 eq_refl Hr Ho ltac:(cbn; lia) (Demo.safe false)) as (err & s' & E & Hw & D & _).
  rewrite (proj2 Hw (Demo.wf false)) in *. exists s'. split; [exact E|]. rewrite D. by vm_compute.
Defined.

Lemma load_shows_image_witness :
  exists s', bootloader_load_image (H := boot_port Demo.flash) Demo.e Demo.part Demo.s0 = Some (ESP_OK, s') /\ read_word 0x3FC90008 (ram s') = 0x0C0B0A09.
Proof.
  destruct Demo.ready_0 as [Hr Ho].
  destruct (load_shows_image (H := boot_port Demo.flash) Demo.e Demo.flash (spec := boot_port_spec Demo.flash) Demo.flash_byte eq_refl
    Demo.part Demo.s0 eq_refl eq_refl Hr Ho ltac:(cbn; lia) (Demo.safe true) (Demo.wf true) Demo.disjoint) as (s' & E & Hs & _).
  exists s'. split; [exact E|].
  assert ((0x10128, MkSegment 0x3FC90000 12) ∈ layout Demo.flash (n_segs Demo.flash 0x10000) (0x10000 + 24)) as Hin
    by (rewrite Demo.segs_2; change (0x10000 + 24) with 0x10018; rewrite Demo.layout_2; right; left).
  refine (eq_trans (Hs _ _ Hin eq_refl 2 ltac:(split; vm_compute; congruence)) _). by vm_compute.
Defined.

Lemma load_keeps_bootloader_witness :
  exists err s', image_load (H := boot_port Demo.flash) Demo.e ESP_IMAGE_LOAD Demo.part Demo.s0 = Some (err, s') /\ forall x, protected Demo.e x -> ram s' x = 0.
Proof.
  destruct Demo.ready_0 as [Hr Ho].
  destruct (load_keeps_bootloader (H := boot_port Demo.flash) Demo.e Demo.flash (spec := boot_port_spec Demo.flash) Demo.flash_byte eq_refl
    ESP_IMAGE_LOAD Demo.part Demo.s0 Demo.bootloader_ok (fun a n p err bs p' => boot_reads_bytes Demo.flash a n p err bs p' Demo.flash_byte)) as [Hany Hsafe].
  destruct (Hsafe eq_refl Hr Ho ltac:(cbn; lia) (Demo.safe true)) as (err & s' & E & _).
  exists err, s'. split; [exact E|]. exact (Hany eq_refl err s' E).
Defined.

Definition factory_only : bootloader_state_t := MkBoot no_pos Demo.part no_pos (fun _ => no_pos) 0.

Lemma boot_choice_loads_witness :
  exists s', bootloader_load_image (H := boot_port Demo.flash) Demo.e Demo.part Demo.s0 = Some (ESP_OK, s') /\ data s' = image_meta Demo.e Demo.flash 0x10000.
Proof.
  destruct Demo.ready_0 as [Hr Ho].
  assert (forall i, pos_size (index_to_partition factory_only i) <> 0 -> index_to_partition factory_only i = Demo.part) as Hi.
  { intros i. unfold index_to_partition. destruct (_ =? _); [done|]. destruct (_ =? _); [done|]. by destruct (_ && _). }
  apply (proj1 (boot_choice_loads (H := boot_port Demo.flash) Demo.e Demo.flash (spec := boot_port_spec Demo.flash) Demo.flash_byte eq_refl
    false true true 4 factory_only FACTORY_INDEX (MkBootState (MkFlash Demo.flash []) 0 false) Demo.s0 eq_refl eq_refl eq_refl Hr Ho ltac:(done)
    (fun i Hp => ltac:(rewrite (Hi i Hp); split; [cbn; lia|exact (Demo.safe true)]))) FACTORY_INDEX Demo.part).
  unfold bootloader_utility_load_boot_image, try_loop, try_index, try_load_partition. vm_compute. reflexivity.
Defined.

(** ** Where the code surprises *)

(** [esp_image_get_metadata] does not check the header: an image with more than
    16 segments is written over the end of the metadata. *)
Definition seventeen : mem := store_bytes (fun _ => 0) 0x10000 (Demo.header 17).

Lemma metadata_overflow : esp_image_get_metadata (H := boot_port seventeen) Demo.e Demo.part Demo.s0 = None.
Proof. by vm_compute. Qed.

(** Nor is the sum of the lengths checked against wrapping: a segment of almost
    4 GB gives an image of 32 bytes. *)
Definition wrapping : mem := store_bytes (fun _ => 255) 0x10000 (take 23 (Demo.header 1) ++ [0] ++ bytes32 0 ++ bytes32 0xFFFFFFF0).

Lemma metadata_length_wraps :
  match esp_image_get_metadata (H := boot_port wrapping) Demo.e Demo.part Demo.s0 with
  | Some (err, s) => err = ESP_OK /\ image_len (data s) = 32 /\ (segments (data s)) !! O = Some (MkSegment 0 0xFFFFFFF0)
  | None => False
  end.
Proof. by vm_compute. Qed.

(** A segment for RAM that is longer than the address space behind its load
    address stops the bootloader instead of being refused. *)
Definition oversized : mem := store_bytes (fun _ => 255) 0x10000 (Demo.header 1 ++ bytes32 0x3FC90000 ++ bytes32 0x60000000).

Lemma oversized_segment_aborts : image_load (H := boot_port oversized) Demo.e ESP_IMAGE_LOAD Demo.part Demo.s0 = None.
Proof. by vm_compute. Qed.

(** Loading without verification after another image was verified: the words
    are copied as they are, but shown all the same. *)
Lemma load_after_verify_garbles :
  match esp_image_verify (H := boot_port Demo.flash) Demo.e ESP_IMAGE_VERIFY Demo.part Demo.s0 with
  | Some (err1, s1) =>
      match bootloader_load_image_no_verify (H := boot_port Demo.flash) Demo.e Demo.part s1 with
      | Some (err2, s2) => err1 = ESP_OK /\ err2 = ESP_OK /\ read_word 0x3FC90000 (ram s2) <> load32 Demo.flash 0x10128
      | None => False
      end
  | None => False
  end.
Proof. by vm_compute. Qed.

(** With anti-rollback the first 8 bytes of segment 0 are taken as the start of
    the application descriptor, whatever the length of the segment: the length
    that is left of 4 bytes is almost 4 GB, and the loop goes on behind the end
    of the segment, which was checked, into the data of the bootloader.  (The
    first two words are enough to see it; it ends with the mapping.) *)
Definition rollback_env : env :=
  MkEnv true true false 0 false false 1 0 false false 16 0 Demo.hash true 0x3fceb000 0x3FCD0000 0x3FCD8000 0x403C0000 0x403C8000.
Definition short : mem := store_bytes (fun _ => 255) 0x10000 (Demo.header 1 ++ Demo.segment 0x3FCCFFFC (bytes32 ESP_APP_DESC_MAGIC_WORD)).

Lemma descriptor_length_wraps :
  verified_range rollback_env (MkSegment 0x3FCCFFFC 4) = Some true /\ protected rollback_env 0x3FCD0000 /\ u32 (4 - 8) = 4294967292 /\
  match (let! src := flash_map (H := boot_port short) 0x10020 4 in
         let! len := process_esp_app_desc_data (H := boot_port short) (default 0 src) in
         word_loop (H := boot_port short) rollback_env 2 0 (default 0 src + len) (u32 (4 - len)) 0x3FCCFFFC true) Demo.s0 with
  | Some (inr tt, s) => ram s 0x3FCD0000 <> ram Demo.s0 0x3FCD0000
  | _ => False
  end.
Proof. split; [by vm_compute|]. split; [right; left; vm_compute; split; congruence|]. split; by vm_compute. Qed.
