(* ===== verification/Threads.v ===== *)
(** * Tasks and an interrupt over shared memory

    Code that runs concurrently is a [prog]: a sequence of steps, each of which
    is one access to the shared state (or one critical section) and gives the
    rest of the program.  A system has a task per number and one interrupt
    handler; [event]s choose who makes the next step.  [wp] is the program logic
    for tasks: an invariant [Inv] over the shared state and a ghost value per
    task, which every step of every task keeps; what a task knows about the
    shared state is what the invariant says for its ghost value, so that it
    survives the steps of the others.  [exec_ok] is its soundness. *)

From stdpp Require Import functions.
From S2P Require Import Prelude.

(** ** Programs *)

Inductive outcome (X : Type) := Blocked | Crashed | Next (x : X).
Arguments Blocked {X}.
Arguments Crashed {X}.
Arguments Next {X} x.

Definition then_ {X Y} (o : outcome X) (k : X -> outcome Y) : outcome Y :=
  match o with Next x => k x | Blocked => Blocked | Crashed => Crashed end.

Inductive prog (S A : Type) :=
  | Ret (a : A)
  | Act (R : Type) (f : S -> outcome (S * R)) (k : R -> prog S A).
Arguments Ret {S A} a.
Arguments Act {S A R} f k.

Section prog.
Context {S : Type}.

Fixpoint bindp {A B} (p : prog S A) (k : A -> prog S B) : prog S B :=
  match p with
  | Ret a => k a
  | Act f k' => Act f (fun r => bindp (k' r) k)
  end.

Definition access {A} (f : S -> outcome (S * A)) : prog S A := Act f Ret.
Definition load {A} (f : S -> A) : prog S A := access (fun s => Next (s, f s)).
Definition store (f : S -> S) : prog S unit := access (fun s => Next (f s, tt)).
Definition crash {A} : prog S A := access (fun _ => Crashed).
Definition asserted (b : bool) : prog S unit := if b then Ret tt else crash.
Definition whenp (b : bool) (p : prog S unit) : prog S unit := if b then p else Ret tt.

(** A program that nobody interrupts, and one that is a single step. *)
Fixpoint run {A} (p : prog S A) (s : S) : outcome (S * A) :=
  match p with
  | Ret a => Next (s, a)
  | Act f k => then_ (f s) (fun '(s, r) => run (k r) s)
  end.
Definition critical {A} (p : prog S A) : prog S A := access (run p).

Lemma run_bindp {A B} (p : prog S A) (k : A -> prog S B) s :
  run (bindp p k) s = then_ (run p s) (fun '(s, a) => run (k a) s).
Proof.
  revert s. induction p as [a|R f k' IH]; intros s; [done|]. cbn. destruct (f s) as [| |[s' r]]; [done..|]. apply IH.
Qed.

Lemma run_assoc {A B C} (p : prog S A) (k : A -> prog S B) (k' : B -> prog S C) s :
  run (bindp p (fun a => bindp (k a) k')) s = then_ (run (bindp p k) s) (fun '(s, b) => run (k' b) s).
Proof. revert s. induction p as [a|R f k'' IH]; intros s; [exact (run_bindp (k a) k' s)|]. cbn. destruct (f s) as [| |[s' r]]; [done..|]. apply IH. Qed.
End prog.

Declare Scope prog_scope.
Notation "'let%' x := p 'in' k" := (bindp p (fun x => k))
  (at level 10, x pattern, p at level 100, k at level 200) : prog_scope.
Notation "'do%' p ; k" := (bindp p (fun _ => k)) (at level 10, p at level 100, k at level 200) : prog_scope.

(** ** Systems

    With [one_core], the tasks run on the core that serves the interrupt: they
    stand still until the handler has returned.  A task between two calls has
    returned [Ret tt].  [enter] is the handler, if the interrupt is enabled. *)

Inductive event (C : Type) := Step (d : nat) | Call (d : nat) (c : C) | Irq | IsrStep.
Arguments Step {C} d.
Arguments Call {C} d c.
Arguments Irq {C}.
Arguments IsrStep {C}.

Record sys (S K : Type) := MkSys {
  shared : S;
  threads : nat -> prog S unit;
  clients : nat -> K;
  isr : option (prog S unit)
}.
Arguments MkSys {S K}.
Arguments shared {S K}.
Arguments threads {S K}.
Arguments clients {S K}.
Arguments isr {S K}.

Section system.
Context {S K C : Type}.
Context (one_core : bool).
Context (enabled : S -> bool) (handler : prog S unit).
Context (legal : K -> C -> bool) (next_client : K -> C -> K) (code : nat -> C -> prog S unit) (n_tasks : nat).

Definition step_prog (p : prog S unit) (s : S) : outcome (S * prog S unit) :=
  match p with
  | Ret _ => Blocked
  | Act f k => then_ (f s) (fun '(s, r) => Next (s, k r))
  end.

Definition tasks_run (x : sys S K) : bool := negb one_core || match isr x with None => true | Some _ => false end.
Definition in_call (p : prog S unit) : bool := match p with Ret _ => false | Act _ _ => true end.

Definition exec (ev : event C) (x : sys S K) : outcome (sys S K) :=
  match ev with
  | Step d =>
      if tasks_run x then
        then_ (step_prog (threads x d) (shared x)) (fun '(s, p) => Next (MkSys s (<[d:=p]> (threads x)) (clients x) (isr x)))
      else Blocked
  | Call d c =>
      if tasks_run x && (d <? n_tasks)%nat && negb (in_call (threads x d)) && legal (clients x d) c then
        Next (MkSys (shared x) (<[d:=code d c]> (threads x)) (<[d:=next_client (clients x d) c]> (clients x)) (isr x))
      else Blocked
  | Irq =>
      match isr x with
      | None => if enabled (shared x) then Next (MkSys (shared x) (threads x) (clients x) (Some handler)) else Blocked
      | Some _ => Blocked
      end
  | IsrStep =>
      match isr x with
      | None => Blocked
      | Some (Ret _) => Next (MkSys (shared x) (threads x) (clients x) None)
      | Some p => then_ (step_prog p (shared x)) (fun '(s, p) => Next (MkSys s (threads x) (clients x) (Some p)))
      end
  end.

Fixpoint exec_all (evs : list (event C)) (x : sys S K) : outcome (sys S K) :=
  match evs with
  | [] => Next x
  | ev :: evs => then_ (exec ev x) (exec_all evs)
  end.

Inductive reachable (x0 : sys S K) : sys S K -> Prop :=
  | reach_start : reachable x0 x0
  | reach_step ev x y : reachable x0 x -> exec ev x = Next y -> reachable x0 y.

Lemma exec_all_reachable x0 evs x y : reachable x0 x -> exec_all evs x = Next y -> reachable x0 y.
Proof.
  revert x. induction evs as [|ev evs IH]; intros x Hr E; [by injection E as <-|]. cbn in E.
  destruct (exec ev x) as [| |x'] eqn:Ex; try done. eapply IH; [|exact E]. by eapply reach_step.
Qed.
End system.

(** ** The logic *)

Section logic.
Context {S G : Type} (Inv : S -> (nat -> G) -> Prop) (may_block : S -> (nat -> G) -> nat -> (S -> bool) -> Prop).

(** In which states an action cannot be done. *)
Definition blocks {R} (f : S -> outcome (S * R)) (s : S) : bool := match f s with Blocked => true | _ => false end.

(** [p], as task [d] with the ghost value [g], never crashes, keeps the
    invariant, waits only where [may_block] allows it, and ends with a result
    and a ghost value in [Q]. *)
Fixpoint wp {A} (d : nat) (p : prog S A) (g : G) (Q : A -> G -> Prop) : Prop :=
  match p with
  | Ret a => Q a g
  | Act f k => forall s γ, γ d = g -> Inv s γ ->
      match f s with
      | Crashed => False
      | Blocked => may_block s γ d (blocks f)
      | Next (s, r) => exists g, Inv s (<[d:=g]> γ) /\ wp d (k r) g Q
      end
  end.

Lemma wp_mono {A} d (p : prog S A) g (Q Q' : A -> G -> Prop) : (forall a g, Q a g -> Q' a g) -> wp d p g Q -> wp d p g Q'.
Proof.
  intros HQ. revert g. induction p as [a|R f k IH]; intros g; [apply HQ|]. cbn. intros Hp s γ Hg HI. specialize (Hp s γ Hg HI).
  destruct (f s) as [| |[s' r]]; [done..|]. destruct Hp as (g' & HI' & Hp). eauto.
Qed.

Lemma wp_bindp {A B} d (p : prog S A) (k : A -> prog S B) g Q : wp d p g (fun a g => wp d (k a) g Q) -> wp d (bindp p k) g Q.
Proof.
  revert g. induction p as [a|R f k' IH]; intros g; [done|]. cbn. intros Hp s γ Hg HI. specialize (Hp s γ Hg HI).
  destruct (f s) as [| |[s' r]]; [done..|]. destruct Hp as (g' & HI' & Hp). eauto.
Qed.

Lemma wp_ret {A} d (a : A) g (Q : A -> G -> Prop) : Q a g -> wp d (Ret a) g Q.
Proof. done. Qed.

Lemma wp_access {A} d (f : S -> outcome (S * A)) g (Q : A -> G -> Prop) :
  (forall s γ, γ d = g -> Inv s γ ->
     match f s with Crashed => False | Blocked => may_block s γ d (blocks f) | Next (s, a) => exists g, Inv s (<[d:=g]> γ) /\ Q a g end) ->
  wp d (access f) g Q.
Proof. done. Qed.

(** Loads keep the invariant; the ghost value may record what was read. *)
Lemma wp_load {A} d (f : S -> A) g (Q : A -> G -> Prop) :
  (forall s γ, γ d = g -> Inv s γ -> exists g, Inv s (<[d:=g]> γ) /\ Q (f s) g) -> wp d (load f) g Q.
Proof. intros Hf s γ Hg HI. cbn. eauto. Qed.

Lemma wp_store d (f : S -> S) g (Q : unit -> G -> Prop) :
  (forall s γ, γ d = g -> Inv s γ -> exists g, Inv (f s) (<[d:=g]> γ) /\ Q tt g) -> wp d (store f) g Q.
Proof. intros Hf s γ Hg HI. cbn. eauto. Qed.

(** ** Soundness *)

Context {K C : Type}.
Context (enabled : S -> bool) (handler : prog S unit).
Context (legal : K -> C -> bool) (next_client : K -> C -> K) (code : nat -> C -> prog S unit) (n_tasks : nat).
Context (quiet : K -> G -> Prop).
Context (handler_ok : forall s γ, Inv s γ -> enabled s = true -> exists s', run handler s = Next (s', tt) /\ Inv s' γ).
Context (call_ok : forall d k c g, (d < n_tasks)%nat -> legal k c = true -> quiet k g ->
  wp d (code d c) g (fun _ g => quiet (next_client k c) g)).

Record sys_ok (x : sys S K) (γ : nat -> G) : Prop := {
  ok_shared : match isr x with
    | None => Inv (shared x) γ
    | Some p => exists s, run p (shared x) = Next (s, tt) /\ Inv s γ
    end;
  ok_threads d : wp d (threads x d) (γ d) (fun _ g => quiet (clients x d) g)
}.

Lemma step_prog_run p (s : S) : match step_prog p s with
  | Next (s', q) => run p s = run q s' | Blocked => in_call p = true -> run p s = Blocked | Crashed => run p s = Crashed end.
Proof. destruct p as [a|R f k]; [done|]. cbn. by destruct (f s) as [| |[s' r]]. Qed.

Lemma exec_ok ev x γ : sys_ok x γ -> exec true enabled handler legal next_client code n_tasks ev x <> Crashed /\
  forall y, exec true enabled handler legal next_client code n_tasks ev x = Next y -> exists γ, sys_ok y γ.
Proof.
  intros [Hs Ht]. destruct ev as [d|d c| |]; cbn.
  - unfold tasks_run. destruct (isr x) as [p|] eqn:Ei; [done|]. cbn. specialize (Ht d) as Hd.
    destruct (threads x d) as [a|R f k] eqn:Ed; [done|]. cbn. cbn in Hd. specialize (Hd _ _ eq_refl Hs).
    destruct (f (shared x)) as [| |[s r]]; [done..|]. destruct Hd as (g & HI & Hw). split; [done|]. intros y [= <-].
    exists (<[d:=g]> γ). split; cbn; [done|]. intros e. destruct (decide (d = e)) as [<-|Hne]; [by rewrite !fn_lookup_insert|].
    by rewrite !fn_lookup_insert_ne.
  - unfold tasks_run. destruct (isr x) as [p|] eqn:Ei; [done|]. cbn. destruct (_ && _) eqn:E; [|done]. split; [done|]. intros y [= <-].
    rewrite !andb_true_iff in E. destruct E as [[Hd Hc] Hl]. apply Nat.ltb_lt in Hd. exists γ. split; cbn; [done|]. intros e.
    destruct (decide (d = e)) as [<-|Hne]; [|by rewrite !fn_lookup_insert_ne]. rewrite !fn_lookup_insert. apply call_ok; [done..|].
    specialize (Ht d). by destruct (threads x d).
  - destruct (isr x) as [p|] eqn:Ei; [done|]. destruct (enabled (shared x)) eqn:E; [|done]. split; [done|]. intros y [= <-].
    exists γ. split; cbn; [|done]. by apply handler_ok.
  - destruct (isr x) as [p|] eqn:Ei; [|done]. destruct Hs as (s & Hr & HI). destruct p as [[]|R f k].
    + split; [done|]. intros y [= <-]. exists γ. split; cbn; [|done]. cbn in Hr. by injection Hr as ->.
    + cbn in *. destruct (f (shared x)) as [| |[s' r]]; [done..|]. split; [done|]. intros y [= <-]. exists γ. split; cbn; [by exists s|done].
Qed.

(** A task in a call that cannot go on may wait. *)
Lemma blocked_ok x γ d : (forall s γ d b b', (forall s, b s = b' s) -> may_block s γ d b -> may_block s γ d b') -> sys_ok x γ -> isr x = None -> in_call (threads x d) = true -> step_prog (threads x d) (shared x) = Blocked ->
  may_block (shared x) γ d (fun s => match step_prog (threads x d) s with Blocked => true | _ => false end).
Proof.
  intros may_ext [Hs Ht] Ei Hc Hb. specialize (Ht d). rewrite Ei in Hs. destruct (threads x d) as [a|R f k]; [done|]. cbn in *.
  specialize (Ht _ _ eq_refl Hs). destruct (f (shared x)) as [| |[s r]]; try done.
  revert Ht. apply may_ext. intros s. unfold blocks. by destruct (f s) as [| |[]].
Qed.

(** No reachable step crashes, and the invariant holds whenever no handler is
    running. *)
Lemma reachable_ok x0 γ0 x : sys_ok x0 γ0 -> reachable true enabled handler legal next_client code n_tasks x0 x -> exists γ, sys_ok x γ.
Proof.
  intros H0. induction 1 as [|ev x y Hr IH E]; [by exists γ0|]. destruct IH as [γ H]. by apply (exec_ok ev x γ H).
Qed.
End logic.
