(* ===== verification/BusLock.v ===== *)
(** * The lock of an SPI bus

    Source: [esp_hw_support/spi_bus_lock.c].  The tasks of the devices on a bus
    and the interrupt that serves queued transactions (the "background", BG)
    take turns on the bus.  All of it rests on one word of status bits, changed
    by atomic operations: a LOCK bit per device that wants the bus for its task,
    and a REQ and a PEND bit per device that has work for the interrupt.

    A function is a [prog]; each access to the shared lock is one step, and a
    critical section is one step.  A device is named by its slot.  The functions
    that switch the interrupt are callbacks of the driver ([BusClient]). *)

From stdpp Require Import functions.
From S2P Require Import Prelude EspErr Threads.
Open Scope prog_scope.

Definition MAX_DEV_NUM : Z := 10.
Definition DEV_NUM_MAX : nat := 6.
Definition LOCK_SHIFT : Z := 20.
Definition PENDING_SHIFT : Z := 10.
Definition REQ_SHIFT : Z := 0.
Definition WEAK_BG_FLAG : Z := Z.shiftl 1 30.
Definition BIT1_MASK (high low : Z) : Z := Z.lxor (u32 (Z.shiftl 0xFFFFFFFF high)) (u32 (Z.shiftl 0xFFFFFFFF low)).
Definition LOCK_BIT (mask : Z) : Z := Z.shiftl mask LOCK_SHIFT.
Definition REQUEST_BIT (mask : Z) : Z := Z.shiftl mask REQ_SHIFT.
Definition PENDING_BIT (mask : Z) : Z := Z.shiftl mask PENDING_SHIFT.
Definition DEV_MASK (id : nat) : Z :=
  let b := Z.shiftl 1 (Z.of_nat id) in Z.lor (Z.lor (LOCK_BIT b) (PENDING_BIT b)) (REQUEST_BIT b).
Definition REQ_MASK : Z := BIT1_MASK (REQ_SHIFT + MAX_DEV_NUM) REQ_SHIFT.
Definition PEND_MASK : Z := BIT1_MASK (PENDING_SHIFT + MAX_DEV_NUM) PENDING_SHIFT.
Definition BG_MASK : Z := BIT1_MASK (REQ_SHIFT + MAX_DEV_NUM * 2) REQ_SHIFT.
Definition LOCK_MASK : Z := BIT1_MASK (LOCK_SHIFT + MAX_DEV_NUM) LOCK_SHIFT.
Definition DEV_REQ_MASK (dev : nat) : Z := Z.land (DEV_MASK dev) REQ_MASK.
Definition DEV_PEND_MASK (dev : nat) : Z := Z.land (DEV_MASK dev) PEND_MASK.
Definition DEV_BG_MASK (dev : nat) : Z := Z.land (DEV_MASK dev) BG_MASK.
Definition DEV_LOCK_MASK (dev : nat) : Z := Z.land (DEV_MASK dev) LOCK_MASK.

(** The lowest set bit from bit [32 - n] on, counted from 1; 0 if none. *)
Fixpoint ffs_from (n : nat) (i mask : Z) : Z :=
  match n with
  | O => 0
  | S n => if Z.testbit mask i then i + 1 else ffs_from n (i + 1) mask
  end.
Definition ID_DEV_MASK (mask : Z) : Z := ffs_from 32 0 mask - 1.
Definition mask_get_id (mask : Z) : nat := Z.to_nat (ID_DEV_MASK mask).

(** A slot is free, occupied by a registration in progress, or a device. *)
Inductive slot := Free | Taken | Device.

(** [spi_bus_lock_t] with the semaphores of its devices. *)
Record bus_lock := MkLock {
  status : Z;
  acquiring_dev : option nat;
  acq_dev_bg_active : bool;
  in_isr : bool;
  dev : list slot;
  last_dev : option nat;
  periph_cs_num : nat;
  semphr : nat -> bool
}.

Definition set_status v l := MkLock v (acquiring_dev l) (acq_dev_bg_active l) (in_isr l) (dev l) (last_dev l) (periph_cs_num l) (semphr l).
Definition set_acquiring_dev v l := MkLock (status l) v (acq_dev_bg_active l) (in_isr l) (dev l) (last_dev l) (periph_cs_num l) (semphr l).
Definition set_acq_dev_bg_active v l := MkLock (status l) (acquiring_dev l) v (in_isr l) (dev l) (last_dev l) (periph_cs_num l) (semphr l).
Definition set_in_isr v l := MkLock (status l) (acquiring_dev l) (acq_dev_bg_active l) v (dev l) (last_dev l) (periph_cs_num l) (semphr l).
Definition set_dev v l := MkLock (status l) (acquiring_dev l) (acq_dev_bg_active l) (in_isr l) v (last_dev l) (periph_cs_num l) (semphr l).
Definition set_last_dev v l := MkLock (status l) (acquiring_dev l) (acq_dev_bg_active l) (in_isr l) (dev l) v (periph_cs_num l) (semphr l).
Definition set_semphr d v l := MkLock (status l) (acquiring_dev l) (acq_dev_bg_active l) (in_isr l) (dev l) (last_dev l) (periph_cs_num l) (<[d:=v]> (semphr l)).

(** What the lock needs of the state of its user: the callbacks that
    [spi_bus_lock_set_bg_control] stores. *)
Class BusClient (S : Type) := {
  lock : S -> bus_lock;
  set_lock : bus_lock -> S -> S;
  enable_bg : S -> S;
  disable_bg : S -> S
}.

Section bus_lock.
Context {S : Type} `{BusClient S}.

Definition get {A} (f : bus_lock -> A) : prog S A := load (fun s => f (lock s)).
Definition put (f : bus_lock -> bus_lock) : prog S unit := store (fun s => set_lock (f (lock s)) s).

(** ** Atomic operations on the status *)

Definition lock_status_fetch_set (set : Z) : prog S Z :=
  access (fun s => Next (set_lock (set_status (Z.lor (status (lock s)) set) (lock s)) s, status (lock s))).
Definition lock_status_fetch_clear (clear : Z) : prog S Z :=
  access (fun s => Next (set_lock (set_status (Z.land (status (lock s)) (u32 (Z.lnot clear))) (lock s)) s, status (lock s))).
Definition lock_status_fetch : prog S Z := get status.
Definition lock_status_clear (clear : Z) : prog S Z :=
  let% state := lock_status_fetch_clear clear in Ret (Z.land state (u32 (Z.lnot clear))).

(** ** Scheduling *)

Definition resume_dev (d : nat) : prog S unit := put (set_semphr d true).
Definition resume_dev_in_isr (d : nat) : prog S unit := put (set_semphr d true).
Definition bg_enable : prog S unit := store enable_bg.
Definition bg_disable : prog S unit := store disable_bg.

(** The device of a slot; NULL is [None].  Following the 1 of a slot that is
    being registered, or reading behind the array, crashes. *)
Definition atomic_load_dev (id : nat) : prog S (option nat) :=
  let% v := get (fun l => dev l !! id) in
  match v with
  | Some Free => Ret None
  | Some Device => Ret (Some id)
  | _ => crash
  end.

Definition req_core (d : nat) : prog S unit :=
  let% acq := get acquiring_dev in
  if bool_decide (acq = Some d) then
    do% put (set_acq_dev_bg_active true);
    let% status := lock_status_fetch_set (DEV_REQ_MASK d) in
    whenp (Z.land status (DEV_BG_MASK d) =? 0) bg_enable
  else
    let% status := lock_status_fetch_set (DEV_REQ_MASK d) in
    whenp (status =? 0) bg_enable.

Definition acquire_core (d : nat) : prog S bool :=
  let% status := critical (lock_status_fetch_set (DEV_LOCK_MASK d)) in
  if Z.land status (Z.lor BG_MASK LOCK_MASK) =? 0 then
    do% put (set_acquiring_dev (Some d));
    do% whenp (flag status WEAK_BG_FLAG) bg_disable;
    Ret true
  else Ret false.

(** Whether to yield to a task, and the desired device. *)
Definition schedule_core (status : Z) : prog S (bool * option nat) :=
  let lock_bits := Z.shiftr (Z.land status LOCK_MASK) LOCK_SHIFT in
  let bg_bits := Z.land status BG_MASK in
  let bg_bits := Z.land (Z.lor (Z.shiftr bg_bits REQ_SHIFT) (Z.shiftr bg_bits PENDING_SHIFT)) REQ_MASK in
  if negb (lock_bits =? 0) then
    let% lock_dev := atomic_load_dev (mask_get_id lock_bits) in
    match lock_dev with
    | None => crash
    | Some l =>
        if negb (bg_bits =? 0) && (Z.land bg_bits (DEV_MASK l) =? 0) then
          let% desired_dev := atomic_load_dev (mask_get_id bg_bits) in
          do% put (set_acquiring_dev None);
          do% put (set_acq_dev_bg_active false);
          Ret (false, desired_dev)
        else
          do% put (set_acquiring_dev (Some l));
          let bg_yield := Z.land bg_bits (DEV_MASK l) =? 0 in
          do% put (set_acq_dev_bg_active (negb bg_yield));
          Ret (bg_yield, Some l)
    end
  else
    do% put (set_acq_dev_bg_active false);
    if negb (bg_bits =? 0) then
      let% desired_dev := atomic_load_dev (mask_get_id bg_bits) in
      do% put (set_acquiring_dev None);
      Ret (false, desired_dev)
    else
      do% put (set_acquiring_dev None);
      Ret (true, None).

Definition acquire_end_core (d : nat) : prog S unit :=
  let% (status, (bg_yield, desired_dev)) := critical (
    let% status := lock_status_clear (DEV_LOCK_MASK d) in
    let% r := schedule_core status in
    Ret (status, r)) in
  if negb bg_yield then bg_enable
  else
    match desired_dev with
    | Some e => resume_dev e
    | None => whenp (flag status WEAK_BG_FLAG) bg_enable
    end.

Definition update_pend_core (status : Z) : prog S unit :=
  let active_req_bits := Z.land status REQ_MASK in
  let pending_mask := u32 (Z.shiftl active_req_bits (PENDING_SHIFT - REQ_SHIFT)) in
  let% _ := lock_status_fetch_set pending_mask in
  let% _ := lock_status_fetch_clear active_req_bits in
  Ret tt.

Definition clear_pend_core (d : nat) : prog S bool :=
  let% status := lock_status_clear (DEV_PEND_MASK d) in
  let% acq := get acquiring_dev in
  if bool_decide (acq = Some d) then
    let finished := Z.land status (DEV_REQ_MASK d) =? 0 in
    do% whenp finished (put (set_acq_dev_bg_active false));
    Ret finished
  else Ret (status =? 0).

Definition bg_entry_core : prog S bool :=
  do% bg_disable;
  let% b := get in_isr in
  if (b : bool) then Ret false else do% put (set_in_isr true); Ret true.

(** [lock->acquiring_dev->...]. *)
Definition acquiring : prog S nat :=
  let% a := get acquiring_dev in match a with Some d => Ret d | None => crash end.

Definition bg_exit_core (wip : bool) : prog S bool :=
  if wip then do% bg_enable; Ret true
  else
    let% status := lock_status_fetch in
    let% acq := get acquiring_dev in
    let% ret := match acq with
      | Some _ =>
          let% a := acquiring in
          if negb (Z.land status (DEV_BG_MASK a) =? 0) then Ret false
          else let% a := acquiring in do% resume_dev_in_isr a; Ret true
      | None =>
          if negb (Z.land status BG_MASK =? 0) then Ret false
          else if negb (Z.land status LOCK_MASK =? 0) then
            let% _ := schedule_core status in
            let% a := acquiring in
            do% resume_dev_in_isr a; Ret true
          else Ret true
      end in
    do% whenp ret (put (set_in_isr false));
    Ret ret.

Definition dev_wait_prepare (d : nat) : prog S unit := put (set_semphr d false).

(** Waits without a timeout. *)
Definition dev_wait (d : nat) : prog S unit :=
  access (fun s => if semphr (lock s) d then Next (set_lock (set_semphr d false (lock s)) s, tt) else Blocked).

(** ** Registering devices *)

(** [atomic_compare_exchange_strong] of a slot from NULL to 1. *)
Definition claim_slot (i : nat) : prog S bool :=
  access (fun s => match dev (lock s) !! i with
    | None => Crashed
    | Some Free => Next (set_lock (set_dev (<[i:=Taken]> (dev (lock s))) (lock s)) s, true)
    | Some _ => Next (s, false)
    end).

(** The loops over slots: up from [i], [n] slots; down from slot [n - 1]. *)
Fixpoint claim_up (n i : nat) : prog S (option nat) :=
  match n with
  | O => Ret None
  | Datatypes.S n => let% ok := claim_slot i in if (ok : bool) then Ret (Some i) else claim_up n (Datatypes.S i)
  end.
Fixpoint claim_down (n : nat) : prog S (option nat) :=
  match n with
  | O => Ret None
  | Datatypes.S n => let% ok := claim_slot n in if (ok : bool) then Ret (Some n) else claim_down n
  end.

(** [None] is -1. *)
Definition try_acquire_free_dev (cs_required : bool) : prog S (option nat) :=
  if cs_required then let% n := get periph_cs_num in claim_up n 0 else claim_down DEV_NUM_MAX.

(** [dev_ok] and [sem_ok] are whether the allocations succeed. *)
Definition spi_bus_lock_register_dev (cs_required dev_ok sem_ok : bool) : prog S (esp_err_t + nat) :=
  let% id := try_acquire_free_dev cs_required in
  match id with
  | None => Ret (inl ESP_ERR_NOT_SUPPORTED)
  | Some id =>
      if negb dev_ok then Ret (inl ESP_ERR_NO_MEM)
      else if negb sem_ok then
        do% put (fun l => set_dev (<[id:=Free]> (dev l)) l);
        Ret (inl ESP_ERR_NO_MEM)
      else
        do% put (fun l => set_dev (<[id:=Device]> (dev l)) (set_semphr id false l));
        Ret (inr id)
  end.

Definition spi_bus_lock_unregister_dev (d : nat) : prog S unit :=
  let% last := get last_dev in
  do% whenp (bool_decide (last = Some d)) (put (set_last_dev None));
  put (fun l => set_dev (<[d:=Free]> (dev l)) l).

Definition spi_bus_lock_get_dev_id (dev_handle : option nat) : Z :=
  match dev_handle with Some d => ID_DEV_MASK (DEV_MASK d) | None => -1 end.

Definition spi_bus_lock_touch (d : nat) : prog S bool :=
  let% last := get last_dev in
  do% put (set_last_dev (Some d));
  Ret (negb (bool_decide (last = Some d))).

(** ** The interface

    [forever] is whether the time to wait is [portMAX_DELAY]. *)

Definition spi_bus_lock_acquire_start (d : nat) (forever : bool) : prog S esp_err_t :=
  if negb forever then Ret ESP_ERR_INVALID_ARG
  else
    do% dev_wait_prepare d;
    let% ok := acquire_core d in
    do% whenp (negb ok) (dev_wait d);
    let% _ := lock_status_fetch in
    Ret ESP_OK.

Definition spi_bus_lock_acquire_end (d : nat) : prog S esp_err_t :=
  let% acq := get acquiring_dev in
  if negb (bool_decide (acq = Some d)) then Ret ESP_ERR_INVALID_STATE
  else do% acquire_end_core d; Ret ESP_OK.

Definition spi_bus_lock_get_acquiring_dev : prog S (option nat) := get acquiring_dev.

Definition spi_bus_lock_bg_entry : prog S bool := bg_entry_core.
Definition spi_bus_lock_bg_exit (wip : bool) : prog S bool := bg_exit_core wip.

Definition spi_bus_lock_bg_request (d : nat) : prog S esp_err_t := do% req_core d; Ret ESP_OK.

Definition spi_bus_lock_wait_bg_done (d : nat) (forever : bool) : prog S esp_err_t :=
  let% acq := get acquiring_dev in
  if negb (bool_decide (acq = Some d)) then Ret ESP_ERR_INVALID_STATE
  else if negb forever then Ret ESP_ERR_INVALID_ARG
  else
    let% status := lock_status_fetch in
    do% whenp (negb (Z.land status (DEV_BG_MASK d) =? 0))
      (do% dev_wait_prepare d;
       let% status := lock_status_fetch in
       whenp (negb (Z.land status (DEV_BG_MASK d) =? 0)) (dev_wait d));
    Ret ESP_OK.

Definition spi_bus_lock_bg_clear_req (d : nat) : prog S bool := clear_pend_core d.

Definition spi_bus_lock_bg_check_dev_acq : prog S (bool * option nat) :=
  let% status := lock_status_fetch in schedule_core status.

Definition spi_bus_lock_bg_check_dev_req (d : nat) : prog S bool :=
  let% status := lock_status_fetch in
  let dev_status := Z.land status (DEV_MASK d) in
  if negb (Z.land dev_status REQ_MASK =? 0) then do% update_pend_core status; Ret true
  else Ret (negb (Z.land dev_status PEND_MASK =? 0)).

Definition spi_bus_lock_bg_req_exist : prog S bool :=
  let% status := lock_status_fetch in Ret (negb (Z.land status BG_MASK =? 0)).
End bus_lock.

(** [ok] is whether the allocation succeeds. *)
Definition spi_bus_init_lock (cs_num : nat) (ok : bool) : esp_err_t + bus_lock :=
  if ok then inr (MkLock 0 None false false (replicate DEV_NUM_MAX Free) None cs_num (fun _ => false))
  else inl ESP_ERR_NO_MEM.

(** [None] if the assertion fails. *)
Definition spi_bus_deinit_lock (l : bus_lock) : option unit :=
  configASSERT (forallb (fun v => match v with Free => true | _ => false end) (dev l)); Some tt.
