(* ===== verification/SpiMaster.v ===== *)
(** * The SPI master driver on a shared bus

    Source: [esp_driver_spi/src/gpspi/spi_master.c], the part that shares the
    bus among devices: queueing a transaction for the interrupt, the interrupt
    itself, polling transactions, occupying and releasing the bus.  The
    registers and DMA of the peripheral are not modelled; [started] records the
    transactions that the hardware was given, [sent] those that were put into
    the queue of each device and [received] those that its task got back (none
    of the three is a variable of the code). *)

From stdpp Require Import functions.
From S2P Require Import Prelude EspErr Threads BusLock.
Open Scope prog_scope.

(** A transaction: its descriptor, the flag SPI_TRANS_CS_KEEP_ACTIVE, and what
    [check_trans_valid] and [setup_priv_desc] say of the descriptor. *)
Record trans := MkTrans { trans_desc : Z; cs_keep_active : bool; trans_check : esp_err_t; trans_setup : esp_err_t }.

Inductive processor := Task | Isr.

(** What the code reads of the configuration of a device: the length of its
    queues, and the flag SPI_DEVICE_NO_RETURN_RESULT. *)
Record dev_config := MkConfig { queue_size : nat; no_return_result : bool }.

(** [spi_host_t], with the queues and the configuration of its devices; [device]
    is whether the entry of that number is not NULL. *)
Record spi_host := MkHost {
  bus : bus_lock;
  intr_enabled : bool;
  cur_cs : nat;
  cur_trans : trans;
  device_acquiring_lock : option nat;
  polling : bool;
  trans_queue : nat -> list trans;
  ret_queue : nat -> list trans;
  started : list (processor * nat * trans);
  sent : nat -> list trans;
  received : nat -> list trans;
  config : nat -> dev_config;
  device : nat -> bool
}.

Definition set_bus v h := MkHost v (intr_enabled h) (cur_cs h) (cur_trans h) (device_acquiring_lock h) (polling h) (trans_queue h) (ret_queue h) (started h) (sent h) (received h) (config h) (device h).
Definition set_intr v h := MkHost (bus h) v (cur_cs h) (cur_trans h) (device_acquiring_lock h) (polling h) (trans_queue h) (ret_queue h) (started h) (sent h) (received h) (config h) (device h).
Definition set_cur_cs v h := MkHost (bus h) (intr_enabled h) v (cur_trans h) (device_acquiring_lock h) (polling h) (trans_queue h) (ret_queue h) (started h) (sent h) (received h) (config h) (device h).
Definition set_cur_trans v h := MkHost (bus h) (intr_enabled h) (cur_cs h) v (device_acquiring_lock h) (polling h) (trans_queue h) (ret_queue h) (started h) (sent h) (received h) (config h) (device h).
Definition set_acquiring_lock v h := MkHost (bus h) (intr_enabled h) (cur_cs h) (cur_trans h) v (polling h) (trans_queue h) (ret_queue h) (started h) (sent h) (received h) (config h) (device h).
Definition set_polling v h := MkHost (bus h) (intr_enabled h) (cur_cs h) (cur_trans h) (device_acquiring_lock h) v (trans_queue h) (ret_queue h) (started h) (sent h) (received h) (config h) (device h).
Definition set_trans_queue d v h := MkHost (bus h) (intr_enabled h) (cur_cs h) (cur_trans h) (device_acquiring_lock h) (polling h) (<[d:=v]> (trans_queue h)) (ret_queue h) (started h) (sent h) (received h) (config h) (device h).
Definition set_ret_queue d v h := MkHost (bus h) (intr_enabled h) (cur_cs h) (cur_trans h) (device_acquiring_lock h) (polling h) (trans_queue h) (<[d:=v]> (ret_queue h)) (started h) (sent h) (received h) (config h) (device h).
Definition add_started x h := MkHost (bus h) (intr_enabled h) (cur_cs h) (cur_trans h) (device_acquiring_lock h) (polling h) (trans_queue h) (ret_queue h) (started h ++ [x]) (sent h) (received h) (config h) (device h).
Definition set_sent d v h := MkHost (bus h) (intr_enabled h) (cur_cs h) (cur_trans h) (device_acquiring_lock h) (polling h) (trans_queue h) (ret_queue h) (started h) (<[d:=v]> (sent h)) (received h) (config h) (device h).
Definition set_received d v h := MkHost (bus h) (intr_enabled h) (cur_cs h) (cur_trans h) (device_acquiring_lock h) (polling h) (trans_queue h) (ret_queue h) (started h) (sent h) (<[d:=v]> (received h)) (config h) (device h).

#[export] Instance spi_bus_client : BusClient spi_host := {
  lock := bus;
  set_lock := set_bus;
  enable_bg := set_intr true;
  disable_bg := set_intr false
}.

Abbreviation code := (prog spi_host).

(** ** Queues of FreeRTOS *)

Definition xQueueSend (d : nat) (t : trans) (forever : bool) : code bool :=
  access (fun h =>
    if (length (trans_queue h d) <? queue_size (config h d))%nat
    then Next (set_sent d (sent h d ++ [t]) (set_trans_queue d (trans_queue h d ++ [t]) h), true)
    else if forever then Blocked else Next (h, false)).
Definition xQueueReceive (d : nat) (forever : bool) : code (option trans) :=
  access (fun h =>
    match ret_queue h d with
    | t :: q => Next (set_received d (received h d ++ [t]) (set_ret_queue d q h), Some t)
    | [] => if forever then Blocked else Next (h, None)
    end).
Definition trans_queue_receive_from_isr (d : nat) : code (option trans) :=
  access (fun h =>
    match trans_queue h d with
    | t :: q => Next (set_cur_trans t (set_trans_queue d q h), Some t)
    | [] => Next (h, None)
    end).
Definition ret_queue_send_from_isr (d : nat) : code unit :=
  store (fun h =>
    if (length (ret_queue h d) <? queue_size (config h d))%nat then set_ret_queue d (ret_queue h d ++ [cur_trans h]) h else h).

(** ** The hardware *)

Definition spi_setup_device (d : nat) : code bool := spi_bus_lock_touch d.

Definition spi_new_trans (who : processor) (d : nat) (t : trans) : code unit :=
  do% store (set_cur_cs d);
  let% _ := spi_setup_device d in
  store (add_started (who, d, t)).

Definition spi_post_trans : code unit :=
  let% cs := load cur_cs in
  let% dev := load (fun h => device h cs) in
  do% asserted dev;
  store (set_cur_cs DEV_NUM_MAX).

Definition get_acquiring_dev : code (option nat) := spi_bus_lock_get_acquiring_dev.

Definition spi_bus_device_is_polling (d : nat) : code bool :=
  let% acq := get_acquiring_dev in
  if bool_decide (acq = Some d) then load polling else Ret false.

(** ** The interrupt *)

Fixpoint intr_loop (n : nat) : code unit :=
  match n with
  | O => crash
  | S n =>
      let% acq_dev_lock := spi_bus_lock_get_acquiring_dev in
      let% (resume_task, desired_dev) := match acq_dev_lock with
        | None => spi_bus_lock_bg_check_dev_acq
        | Some _ => Ret (false, acq_dev_lock)
        end in
      let% trans_found := (if (resume_task : bool) then Ret false else
        match desired_dev with
        | None => crash
        | Some d =>
            let% dev_has_req := spi_bus_lock_bg_check_dev_req d in
            if (dev_has_req : bool) then
              let% device_to_send := load (fun h => device h d) in
              do% asserted device_to_send;
              let% found := trans_queue_receive_from_isr d in
              match found with
              | None => let% _ := spi_bus_lock_bg_clear_req d in Ret false
              | Some t => do% spi_new_trans Isr d t; Ret true
              end
            else Ret false
        end) in
      let% exit := spi_bus_lock_bg_exit trans_found in
      if (exit : bool) then Ret tt else intr_loop n
  end.

(** Enough iterations: each one that does not leave the loop finishes the
    requests of a device. *)
Definition intr_rounds : nat := DEV_NUM_MAX + 1.

Definition spi_intr : code unit :=
  let% entered := spi_bus_lock_bg_entry in
  do% whenp (negb entered)
    (let% cs := load cur_cs in
     do% asserted (negb (cs =? DEV_NUM_MAX)%nat);
     do% spi_post_trans;
     let% no_result := load (fun h => no_return_result (config h cs)) in
     whenp (negb no_result) (ret_queue_send_from_isr cs));
  let% cs := load cur_cs in
  do% asserted (cs =? DEV_NUM_MAX)%nat;
  intr_loop intr_rounds.

(** ** The functions of the driver *)

Definition spi_device_queue_trans (d : nat) (t : trans) (forever : bool) : code esp_err_t :=
  if negb (trans_check t =? ESP_OK) then Ret (trans_check t)
  else
    let% is_polling := spi_bus_device_is_polling d in
    if (is_polling : bool) then Ret ESP_ERR_INVALID_STATE
    else
      let% owner := load device_acquiring_lock in
      if negb (bool_decide (owner = Some d)) && cs_keep_active t then Ret ESP_ERR_INVALID_ARG
      else if negb (trans_setup t =? ESP_OK) then Ret (trans_setup t)
      else
        let% r := xQueueSend d t forever in
        if negb r then Ret ESP_ERR_TIMEOUT else spi_bus_lock_bg_request d.

Definition spi_device_get_trans_result (d : nat) (forever : bool) : code (esp_err_t * option trans) :=
  let% no_result := load (fun h => no_return_result (config h d)) in
  if (no_result : bool) then Ret (ESP_ERR_NOT_SUPPORTED, None)
  else
    let% r := xQueueReceive d forever in
    match r with
    | None => Ret (ESP_ERR_TIMEOUT, None)
    | Some t => Ret (ESP_OK, Some t)
    end.

Definition spi_device_transmit (d : nat) (t : trans) : code esp_err_t :=
  let% ret := spi_device_queue_trans d t true in
  if negb (ret =? ESP_OK) then Ret ret
  else
    let% (ret, ret_trans) := spi_device_get_trans_result d true in
    if negb (ret =? ESP_OK) then Ret ret
    else
      do% asserted (match ret_trans with Some t' => trans_desc t' =? trans_desc t | None => false end);
      Ret ESP_OK.

Definition spi_device_acquire_bus (d : nat) (forever : bool) : code esp_err_t :=
  if negb forever then Ret ESP_ERR_INVALID_ARG
  else
    let% is_polling := spi_bus_device_is_polling d in
    if (is_polling : bool) then Ret ESP_ERR_INVALID_STATE
    else
      let% ret := spi_bus_lock_acquire_start d forever in
      if negb (ret =? ESP_OK) then Ret ret
      else
        do% store (set_acquiring_lock (Some d));
        let% _ := spi_setup_device d in
        Ret ESP_OK.

Definition spi_device_release_bus (d : nat) : code unit :=
  let% is_polling := spi_bus_device_is_polling d in
  do% asserted (negb is_polling);
  do% store (set_acquiring_lock None);
  let% ret := spi_bus_lock_acquire_end d in
  asserted (ret =? ESP_OK).

Definition spi_device_polling_start (d : nat) (t : trans) (forever : bool) : code esp_err_t :=
  if negb forever then Ret ESP_ERR_INVALID_ARG
  else if negb (trans_check t =? ESP_OK) then Ret (trans_check t)
  else
    let% is_polling := spi_bus_device_is_polling d in
    if (is_polling : bool) then Ret ESP_ERR_INVALID_STATE
    else if negb (trans_setup t =? ESP_OK) then Ret (trans_setup t)
    else
      let% owner := load device_acquiring_lock in
      let% ret := (if negb (bool_decide (owner = Some d)) then
          if cs_keep_active t then Ret ESP_ERR_INVALID_ARG else spi_bus_lock_acquire_start d forever
        else spi_bus_lock_wait_bg_done d forever) in
      if negb (ret =? ESP_OK) then Ret ret
      else
        do% store (set_polling true);
        do% store (set_cur_trans t);
        do% spi_new_trans Task d t;
        Ret ESP_OK.

(** [in_time] is whether the transaction ends within the time to wait. *)
Definition spi_device_polling_end (d : nat) (in_time : bool) : code esp_err_t :=
  let% cs := load cur_cs in
  do% asserted (cs =? d)%nat;
  let% acq := get_acquiring_dev in
  do% asserted (bool_decide (acq = Some d));
  if negb in_time then Ret ESP_ERR_TIMEOUT
  else
    do% spi_post_trans;
    do% store (set_polling false);
    let% owner := load device_acquiring_lock in
    if negb (bool_decide (owner = Some d)) then
      let% owner := load device_acquiring_lock in
      do% asserted (bool_decide (owner = None));
      let% _ := spi_bus_lock_acquire_end d in
      Ret ESP_OK
    else Ret ESP_OK.

Definition spi_device_polling_transmit (d : nat) (t : trans) : code esp_err_t :=
  let% ret := spi_device_polling_start d t true in
  if negb (ret =? ESP_OK) then Ret ret else spi_device_polling_end d true.
