(* ===== verification/BusLockBits.v ===== *)
(** * The bits of the status word

    What the atomic operations of [BusLock] do to the LOCK, REQ and PEND bits of
    each device, and [schedule_core] in terms of these bits. *)

From stdpp Require Import functions.
From S2P Require Import Prelude EspErr Threads BusLock.

Definition rq (v : Z) (d : nat) : bool := Z.testbit v (Z.of_nat d).
Definition pd (v : Z) (d : nat) : bool := Z.testbit v (10 + Z.of_nat d).
Definition lk (v : Z) (d : nat) : bool := Z.testbit v (20 + Z.of_nat d).
Definition bg (v : Z) (d : nat) : bool := rq v d || pd v d.

(** Only bits of the ten possible devices, no weak background. *)
Definition word (v : Z) : Prop := 0 <= v < 2 ^ 30.

Definition any (f : nat -> bool) : bool := existsb f (seq 0 10).

Lemma any_true f : any f = true <-> exists d, (d < 10)%nat /\ f d = true.
Proof. unfold any. rewrite existsb_exists. setoid_rewrite in_seq. split; intros (d & Hd & E); exists d; split; [lia|done|lia|done]. Qed.

Lemma any_false f d : any f = false -> (d < 10)%nat -> f d = false.
Proof. intros Ha Hd. apply not_true_iff_false. intros E. apply not_true_iff_false in Ha. apply Ha, any_true. eauto. Qed.

(** A bit of a word is a bit of a device. *)
Lemma word_bit v i : word v -> Z.testbit v i = true -> exists d, (d < 10)%nat /\
  (i = Z.of_nat d /\ rq v d = true \/ i = 10 + Z.of_nat d /\ pd v d = true \/ i = 20 + Z.of_nat d /\ lk v d = true).
Proof.
  intros Hv Hi. destruct (Z_lt_le_dec i 0) as [H0|H0]; [by rewrite Z.testbit_neg_r in Hi|].
  destruct (Z_lt_le_dec i 30) as [H30|H30]; [|rewrite (testbit_high 30) in Hi by done; done].
  unfold rq, pd, lk. destruct (Z_lt_le_dec i 10), (Z_lt_le_dec i 20); try lia.
  - exists (Z.to_nat i). rewrite Z2Nat.id by lia. split; [lia|]. tauto.
  - exists (Z.to_nat (i - 10)). rewrite Z2Nat.id by lia. replace (10 + (i - 10)) with i by lia. split; [lia|]. tauto.
  - exists (Z.to_nat (i - 20)). rewrite Z2Nat.id by lia. replace (20 + (i - 20)) with i by lia. split; [lia|]. tauto.
Qed.

Lemma bg_false v d : bg v d = false <-> rq v d = false /\ pd v d = false.
Proof. apply orb_false_iff. Qed.

Lemma word_zero v : word v -> v = 0 <-> any (bg v) = false /\ any (lk v) = false.
Proof.
  intros Hv. split; [by intros ->|]. intros [Hb Hl]. apply Z.bits_inj_0. intros i. apply not_true_iff_false. intros Hi.
  apply word_bit in Hi as (d & Hd & Hc); [|done]. apply (any_false _ d) in Hb, Hl; [|done..]. apply bg_false in Hb as [E1 E2].
  destruct Hc as [[_ E]|[[_ E]|[_ E]]]; congruence.
Qed.

(** Words with no bit in common. *)
Lemma land_zero a b : Z.land a b = 0 <-> forall i, Z.testbit a i = true -> Z.testbit b i = false.
Proof.
  split.
  - intros E i Ha. apply (f_equal (fun x => Z.testbit x i)) in E. rewrite Z.land_spec, Ha, Z.bits_0 in E. done.
  - intros Hab. apply Z.bits_inj_0. intros i. rewrite Z.land_spec. destruct (Z.testbit a i) eqn:Ha; [|done]. by rewrite (Hab i Ha).
Qed.

Lemma of_nat_neq d e : (d <> e)%nat -> Z.of_nat d <> Z.of_nat e.
Proof. lia. Qed.

(** ** Setting and clearing *)

Lemma lk_lor v m d : lk (Z.lor v m) d = lk v d || lk m d.
Proof. apply Z.lor_spec. Qed.
Lemma rq_lor v m d : rq (Z.lor v m) d = rq v d || rq m d.
Proof. apply Z.lor_spec. Qed.
Lemma pd_lor v m d : pd (Z.lor v m) d = pd v d || pd m d.
Proof. apply Z.lor_spec. Qed.

Lemma testbit_clear v m i : 0 <= i < 32 -> Z.testbit (Z.land v (u32 (Z.lnot m))) i = Z.testbit v i && negb (Z.testbit m i).
Proof. intros Hi. rewrite Z.land_spec, testbit_uN, Z.lnot_spec by lia. by rewrite (proj2 (Z.ltb_lt i 32)) by lia. Qed.

Lemma lk_clear v m d : (d < 10)%nat -> lk (Z.land v (u32 (Z.lnot m))) d = lk v d && negb (lk m d).
Proof. intros. apply testbit_clear. lia. Qed.
Lemma rq_clear v m d : (d < 10)%nat -> rq (Z.land v (u32 (Z.lnot m))) d = rq v d && negb (rq m d).
Proof. intros. apply testbit_clear. lia. Qed.
Lemma pd_clear v m d : (d < 10)%nat -> pd (Z.land v (u32 (Z.lnot m))) d = pd v d && negb (pd m d).
Proof. intros. apply testbit_clear. lia. Qed.

Lemma word_of_bits v : 0 <= v -> (forall i, 30 <= i -> Z.testbit v i = false) -> word v.
Proof.
  intros Hv Hb. assert (v = uN 30 v) as ->; [|apply uN_range; lia]. apply Z.bits_inj'. intros i Hi. rewrite testbit_uN by lia.
  destruct (Z.ltb_spec i 30); [done|]. by rewrite Hb.
Qed.

Lemma word_lor v m : word v -> word m -> word (Z.lor v m).
Proof.
  intros Hv Hm. apply word_of_bits; [apply Z.lor_nonneg; split; [apply Hv|apply Hm]|]. intros i Hi.
  by rewrite Z.lor_spec, (testbit_high 30 v), (testbit_high 30 m).
Qed.

Lemma word_land v m : word v -> word (Z.land v m).
Proof.
  intros Hv. apply word_of_bits; [apply Z.land_nonneg; left; apply Hv|]. intros i Hi. by rewrite Z.land_spec, (testbit_high 30 v).
Qed.

Lemma word_clear v m : word v -> word (Z.land v (u32 (Z.lnot m))).
Proof. apply word_land. Qed.

(** ** The masks *)

Lemma dev_cases d : (d < 10)%nat -> d ∈ seq 0 10.
Proof. intros Hd. apply elem_of_seq. lia. Qed.

Lemma for_devs (P : nat -> Prop) : Forall P (seq 0 10) -> forall d, (d < 10)%nat -> P d.
Proof. intros HP d Hd. by apply (proj1 (Forall_forall _ _) HP), dev_cases. Qed.

Ltac each_dev := match goal with |- forall d, (d < 10)%nat -> @?P d => apply (for_devs P); repeat constructor end.

Lemma req_mask d : (d < 10)%nat -> DEV_REQ_MASK d = 2 ^ Z.of_nat d.
Proof. revert d. each_dev. Qed.
Lemma pend_mask d : (d < 10)%nat -> DEV_PEND_MASK d = 2 ^ (10 + Z.of_nat d).
Proof. revert d. each_dev. Qed.
Lemma lock_mask d : (d < 10)%nat -> DEV_LOCK_MASK d = 2 ^ (20 + Z.of_nat d).
Proof. revert d. each_dev. Qed.
Lemma bg_mask d : (d < 10)%nat -> DEV_BG_MASK d = Z.lor (DEV_REQ_MASK d) (DEV_PEND_MASK d).
Proof. revert d. each_dev. Qed.
Lemma dev_mask d : (d < 10)%nat -> DEV_MASK d = Z.lor (Z.lor (DEV_LOCK_MASK d) (DEV_PEND_MASK d)) (DEV_REQ_MASK d).
Proof. revert d. each_dev. Qed.

Lemma word_req d : (d < 10)%nat -> word (DEV_REQ_MASK d).
Proof. revert d. each_dev; done. Qed.
Lemma word_lock d : (d < 10)%nat -> word (DEV_LOCK_MASK d).
Proof. revert d. each_dev; done. Qed.

Section mask_bits.
Context (d e : nat) (Hd : (d < 10)%nat) (He : (e < 10)%nat).

Lemma rq_req : rq (DEV_REQ_MASK d) e = (e =? d)%nat.
Proof. unfold rq. rewrite req_mask, Z.pow2_bits_eqb by lia. destruct (Nat.eqb_spec e d); lia. Qed.
Lemma pd_req : pd (DEV_REQ_MASK d) e = false.
Proof. unfold pd. rewrite req_mask, Z.pow2_bits_eqb by lia. lia. Qed.
Lemma lk_req : lk (DEV_REQ_MASK d) e = false.
Proof. unfold lk. rewrite req_mask, Z.pow2_bits_eqb by lia. lia. Qed.
Lemma rq_pend : rq (DEV_PEND_MASK d) e = false.
Proof. unfold rq. rewrite pend_mask, Z.pow2_bits_eqb by lia. lia. Qed.
Lemma pd_pend : pd (DEV_PEND_MASK d) e = (e =? d)%nat.
Proof. unfold pd. rewrite pend_mask, Z.pow2_bits_eqb by lia. destruct (Nat.eqb_spec e d); lia. Qed.
Lemma lk_pend : lk (DEV_PEND_MASK d) e = false.
Proof. unfold lk. rewrite pend_mask, Z.pow2_bits_eqb by lia. lia. Qed.
Lemma rq_lock : rq (DEV_LOCK_MASK d) e = false.
Proof. unfold rq. rewrite lock_mask, Z.pow2_bits_eqb by lia. lia. Qed.
Lemma pd_lock : pd (DEV_LOCK_MASK d) e = false.
Proof. unfold pd. rewrite lock_mask, Z.pow2_bits_eqb by lia. lia. Qed.
Lemma lk_lock : lk (DEV_LOCK_MASK d) e = (e =? d)%nat.
Proof. unfold lk. rewrite lock_mask, Z.pow2_bits_eqb by lia. destruct (Nat.eqb_spec e d); lia. Qed.
End mask_bits.

(** ** One device's bit *)

Section one_bit.
Context (v : Z) (d e : nat) (Hd : (d < 10)%nat) (He : (e < 10)%nat).

Lemma lk_set_lock : lk (Z.lor v (DEV_LOCK_MASK d)) e = lk v e || (e =? d)%nat.
Proof. by rewrite lk_lor, lk_lock. Qed.
Lemma bg_set_lock : bg (Z.lor v (DEV_LOCK_MASK d)) e = bg v e.
Proof. unfold bg. by rewrite rq_lor, pd_lor, rq_lock, pd_lock, !orb_false_r. Qed.
Lemma lk_set_req : lk (Z.lor v (DEV_REQ_MASK d)) e = lk v e.
Proof. by rewrite lk_lor, lk_req, orb_false_r. Qed.
Lemma bg_set_req : bg (Z.lor v (DEV_REQ_MASK d)) e = bg v e || (e =? d)%nat.
Proof. unfold bg. rewrite rq_lor, pd_lor, rq_req, pd_req, orb_false_r by done. destruct (rq v e), (pd v e), (e =? d)%nat; done. Qed.
Lemma pd_set_req : pd (Z.lor v (DEV_REQ_MASK d)) e = pd v e.
Proof. by rewrite pd_lor, pd_req, orb_false_r. Qed.
Lemma pd_set_lock : pd (Z.lor v (DEV_LOCK_MASK d)) e = pd v e.
Proof. by rewrite pd_lor, pd_lock, orb_false_r. Qed.
Lemma lk_clear_lock : lk (Z.land v (u32 (Z.lnot (DEV_LOCK_MASK d)))) e = lk v e && negb (e =? d)%nat.
Proof. by rewrite lk_clear, lk_lock. Qed.
Lemma bg_clear_lock : bg (Z.land v (u32 (Z.lnot (DEV_LOCK_MASK d)))) e = bg v e.
Proof. unfold bg. by rewrite rq_clear, pd_clear, rq_lock, pd_lock, !andb_true_r. Qed.
Lemma lk_clear_pend : lk (Z.land v (u32 (Z.lnot (DEV_PEND_MASK d)))) e = lk v e.
Proof. by rewrite lk_clear, lk_pend, andb_true_r. Qed.
Lemma rq_clear_pend : rq (Z.land v (u32 (Z.lnot (DEV_PEND_MASK d)))) e = rq v e.
Proof. by rewrite rq_clear, rq_pend, andb_true_r. Qed.
Lemma pd_clear_pend : pd (Z.land v (u32 (Z.lnot (DEV_PEND_MASK d)))) e = pd v e && negb (e =? d)%nat.
Proof. by rewrite pd_clear, pd_pend. Qed.
End one_bit.

Lemma any_ext f g : (forall d, (d < 10)%nat -> f d = g d) -> any f = any g.
Proof. intros Hfg. apply eq_true_iff_eq. rewrite !any_true. split; intros (d & Hd & E); exists d; (split; [done|]); [rewrite <- Hfg|rewrite Hfg]; done. Qed.

Lemma land_pow2_zero v k : 0 <= k -> (Z.land v (2 ^ k) =? 0) = negb (Z.testbit v k).
Proof. intros Hk. rewrite <- flag_bit by done. unfold flag. by rewrite negb_involutive. Qed.

Lemma land_bg v d : (d < 10)%nat -> (Z.land v (DEV_BG_MASK d) =? 0) = negb (bg v d).
Proof.
  intros Hd. rewrite bg_mask, req_mask, pend_mask, Z.land_lor_distr_r by done. unfold bg, rq, pd.
  pose proof (land_pow2_zero v (Z.of_nat d) ltac:(lia)) as E1. pose proof (land_pow2_zero v (10 + Z.of_nat d) ltac:(lia)) as E2.
  destruct (Z.testbit v (Z.of_nat d)), (Z.testbit v (10 + Z.of_nat d)); cbn in *; apply Z.eqb_neq || apply Z.eqb_eq; apply Z.eqb_neq in E1 || apply Z.eqb_eq in E1;
    apply Z.eqb_neq in E2 || apply Z.eqb_eq in E2; rewrite Z.lor_eq_0_iff; tauto.
Qed.

Lemma land_req v d : (d < 10)%nat -> (Z.land v (DEV_REQ_MASK d) =? 0) = negb (rq v d).
Proof. intros Hd. rewrite req_mask by done. apply land_pow2_zero. lia. Qed.

(** The bits of the masks of all devices. *)
Lemma mask_range m hi lo i : m = Z.shiftl (Z.ones (hi - lo)) lo -> 0 <= lo <= hi -> 0 <= i -> Z.testbit m i = (lo <=? i) && (i <? hi).
Proof.
  intros -> Hlo Hi. rewrite Z.shiftl_spec by done. destruct (Z.leb_spec lo i) as [H1|H1].
  - rewrite Z.testbit_ones_nonneg by lia. cbn. lia.
  - rewrite Z.testbit_neg_r by lia. done.
Qed.

Lemma bg_mask_bit i : 0 <= i -> Z.testbit BG_MASK i = (i <? 20).
Proof. intros Hi. rewrite (mask_range BG_MASK 20 0 i eq_refl) by lia. lia. Qed.
Lemma lock_mask_bit i : 0 <= i -> Z.testbit LOCK_MASK i = (20 <=? i) && (i <? 30).
Proof. intros Hi. by apply (mask_range LOCK_MASK 30 20 i eq_refl). Qed.
Lemma req_mask_bit i : 0 <= i -> Z.testbit REQ_MASK i = (i <? 10).
Proof. intros Hi. rewrite (mask_range REQ_MASK 10 0 i eq_refl) by lia. lia. Qed.
Lemma pend_mask_bit i : 0 <= i -> Z.testbit PEND_MASK i = (10 <=? i) && (i <? 20).
Proof. intros Hi. by apply (mask_range PEND_MASK 20 10 i eq_refl). Qed.

Lemma land_any_bg v : word v -> (Z.land v BG_MASK =? 0) = negb (any (bg v)).
Proof.
  intros Hv. apply eq_true_iff_eq. rewrite Z.eqb_eq, negb_true_iff, land_zero. split.
  - intros Hz. apply not_true_iff_false. intros (d & Hd & Hb)%any_true. unfold bg, rq, pd in Hb.
    apply orb_true_iff in Hb as [E|E]; apply Hz in E; rewrite bg_mask_bit in E; lia.
  - intros Ha i Hi. apply word_bit in Hi as (d & Hd & Hc); [|done]. rewrite bg_mask_bit by lia.
    apply (any_false _ d) in Ha as [E1 E2]%bg_false; [|done]. destruct Hc as [[_ E]|[[_ E]|[-> _]]]; [congruence..|lia].
Qed.

Lemma land_any_lock v : word v -> (Z.land v LOCK_MASK =? 0) = negb (any (lk v)).
Proof.
  intros Hv. apply eq_true_iff_eq. rewrite Z.eqb_eq, negb_true_iff, land_zero. split.
  - intros Hz. apply not_true_iff_false. intros (d & Hd & E)%any_true. unfold lk in E. apply Hz in E. rewrite lock_mask_bit in E; lia.
  - intros Ha i Hi. apply word_bit in Hi as (d & Hd & Hc); [|done]. rewrite lock_mask_bit by lia.
    apply (any_false _ d) in Ha as E; [|done]. destruct Hc as [[-> _]|[[-> _]|[_ E']]]; [lia..|congruence].
Qed.

Lemma land_any v : word v -> (Z.land v (Z.lor BG_MASK LOCK_MASK) =? 0) = (v =? 0).
Proof.
  intros Hv. apply eq_true_iff_eq. rewrite !Z.eqb_eq, Z.land_lor_distr_r, Z.lor_eq_0_iff, (word_zero v Hv).
  pose proof (land_any_bg v Hv) as E1. pose proof (land_any_lock v Hv) as E2. rewrite <- !Z.eqb_eq, E1, E2, !negb_true_iff. done.
Qed.

Lemma weak_bit v : word v -> flag v WEAK_BG_FLAG = false.
Proof. intros Hv. change WEAK_BG_FLAG with (2 ^ 30). rewrite flag_bit by lia. by apply (testbit_high 30). Qed.

(** All REQ bits moved to PEND bits. *)
Definition active_req (v : Z) : Z := Z.land v REQ_MASK.
Definition pended (v : Z) : Z :=
  Z.land (Z.lor v (u32 (Z.shiftl (active_req v) (PENDING_SHIFT - REQ_SHIFT)))) (u32 (Z.lnot (active_req v))).

Lemma active_req_bit v i : 0 <= i -> Z.testbit (active_req v) i = Z.testbit v i && (i <? 10).
Proof. intros Hi. unfold active_req. by rewrite Z.land_spec, req_mask_bit. Qed.

Lemma new_pend_bit v i : 0 <= i < 32 -> Z.testbit (u32 (Z.shiftl (active_req v) (PENDING_SHIFT - REQ_SHIFT))) i = (10 <=? i) && (i <? 20) && Z.testbit v (i - 10).
Proof.
  intros Hi. change (PENDING_SHIFT - REQ_SHIFT) with 10. rewrite testbit_uN, (proj2 (Z.ltb_lt i 32)), Z.shiftl_spec by lia.
  destruct (Z.leb_spec 10 i) as [H1|H1]; [|rewrite Z.testbit_neg_r by lia; done].
  rewrite active_req_bit by lia. destruct (Z.testbit v (i - 10)); cbn; lia.
Qed.

Lemma pended_word v : word v -> word (pended v).
Proof.
  intros Hv. apply word_clear, word_lor; [done|]. apply word_of_bits; [apply uN_range; lia|]. intros i Hi.
  destruct (Z_lt_le_dec i 32) as [Hi'|Hi'].
  - rewrite new_pend_bit by lia. lia.
  - rewrite testbit_uN by lia. by rewrite (proj2 (Z.ltb_ge i 32)) by lia.
Qed.

Section pended.
Context (v : Z) (d : nat) (Hd : (d < 10)%nat).

Lemma rq_pended : rq (pended v) d = false.
Proof.
  unfold pended. rewrite rq_clear, rq_lor by done. unfold rq. rewrite new_pend_bit, active_req_bit by lia.
  rewrite (proj2 (Z.ltb_lt _ 10)) by lia. rewrite (proj2 (Z.leb_gt 10 _)) by lia. destruct (Z.testbit v _); done.
Qed.
Lemma pd_pended : pd (pended v) d = bg v d.
Proof.
  unfold pended. rewrite pd_clear, pd_lor by done. unfold bg, rq, pd. rewrite new_pend_bit, active_req_bit by lia.
  rewrite (proj2 (Z.ltb_ge _ 10)) by lia. rewrite (proj2 (Z.ltb_lt _ 20)) by lia. rewrite (proj2 (Z.leb_le 10 _)) by lia.
  replace (10 + Z.of_nat d - 10) with (Z.of_nat d) by lia. rewrite andb_false_r, andb_true_r. apply orb_comm.
Qed.
Lemma bg_pended : bg (pended v) d = bg v d.
Proof. unfold bg at 1. by rewrite rq_pended, pd_pended. Qed.
Lemma lk_pended : lk (pended v) d = lk v d.
Proof.
  unfold pended. rewrite lk_clear, lk_lor by done. unfold lk. rewrite new_pend_bit, active_req_bit by lia.
  rewrite (proj2 (Z.ltb_ge _ 10)) by lia. rewrite (proj2 (Z.ltb_ge _ 20)) by lia. by rewrite !andb_false_r, orb_false_r, andb_true_r.
Qed.
End pended.

Lemma land_dev_req v d : (d < 10)%nat -> (Z.land (Z.land v (DEV_MASK d)) REQ_MASK =? 0) = negb (rq v d).
Proof. intros Hd. rewrite <- Z.land_assoc. fold (DEV_REQ_MASK d). by apply land_req. Qed.
Lemma land_dev_pend v d : (d < 10)%nat -> (Z.land (Z.land v (DEV_MASK d)) PEND_MASK =? 0) = negb (pd v d).
Proof. intros Hd. rewrite <- Z.land_assoc. fold (DEV_PEND_MASK d). rewrite pend_mask by done. apply land_pow2_zero. lia. Qed.

(** ** Scheduling *)

Definition lock_bits (v : Z) : Z := Z.shiftr (Z.land v LOCK_MASK) LOCK_SHIFT.
Definition bg_bits (v : Z) : Z :=
  let b := Z.land v BG_MASK in Z.land (Z.lor (Z.shiftr b REQ_SHIFT) (Z.shiftr b PENDING_SHIFT)) REQ_MASK.

Lemma lock_bits_bit v i : word v -> 0 <= i -> Z.testbit (lock_bits v) i = (i <? 10) && Z.testbit v (20 + i).
Proof.
  intros Hv Hi. unfold lock_bits, LOCK_SHIFT. rewrite Z.shiftr_spec, Z.land_spec, lock_mask_bit by lia. rewrite (Z.add_comm i).
  destruct (Z.ltb_spec i 10); destruct (Z.testbit v (20 + i)); cbn; lia.
Qed.

Lemma bg_bits_bit v i : 0 <= i -> Z.testbit (bg_bits v) i = (i <? 10) && (Z.testbit v i || Z.testbit v (10 + i)).
Proof.
  intros Hi. unfold bg_bits, REQ_SHIFT, PENDING_SHIFT. rewrite Z.shiftr_0_r, Z.land_spec, Z.lor_spec, Z.shiftr_spec, !Z.land_spec, !bg_mask_bit, req_mask_bit by lia.
  rewrite (Z.add_comm i 10). destruct (Z.ltb_spec i 10); [|by rewrite andb_false_r]. rewrite (proj2 (Z.ltb_lt i 20)), (proj2 (Z.ltb_lt (10 + i) 20)) by lia. by rewrite !andb_true_r.
Qed.

(** [f] are the bits of a mask with ten bits. *)
Definition ten_bits (m : Z) (f : nat -> bool) : Prop :=
  forall i, 0 <= i -> Z.testbit m i = (i <? 10) && f (Z.to_nat i).

Lemma lock_bits_ten v : word v -> ten_bits (lock_bits v) (lk v).
Proof. intros Hv i Hi. rewrite lock_bits_bit by done. unfold lk. by rewrite Z2Nat.id. Qed.
Lemma bg_bits_ten v : ten_bits (bg_bits v) (bg v).
Proof. intros i Hi. rewrite bg_bits_bit by done. unfold bg, rq, pd. by rewrite Z2Nat.id. Qed.

Lemma ten_zero m f : ten_bits m f -> (m =? 0) = negb (any f).
Proof.
  intros Hm. apply eq_true_iff_eq. rewrite Z.eqb_eq, negb_true_iff. split.
  - intros -> . apply not_true_iff_false. intros (d & Hd & E)%any_true. specialize (Hm (Z.of_nat d) ltac:(lia)).
    rewrite Z.bits_0, Nat2Z.id, E in Hm. lia.
  - intros Ha. apply Z.bits_inj_0. intros i. destruct (Z_lt_le_dec i 0); [by rewrite Z.testbit_neg_r|]. rewrite Hm by done.
    destruct (Z.ltb_spec i 10); [|done]. apply (any_false f); [done|lia].
Qed.

Lemma ffs_from_spec n i m : (exists j, i <= j < i + Z.of_nat n /\ Z.testbit m j = true) ->
  i < ffs_from n i m <= i + Z.of_nat n /\ Z.testbit m (ffs_from n i m - 1) = true.
Proof.
  revert i. induction n as [|n IH]; intros i (j & Hj & E); [lia|]. cbn [ffs_from]. destruct (Z.testbit m i) eqn:Ei.
  - replace (i + 1 - 1) with i by lia. split; [lia|done].
  - destruct (IH (i + 1)) as [H1 H2]; [|split; [lia|done]]. exists j. split; [|done]. assert (j <> i) by congruence. lia.
Qed.

(** The device that is chosen from a mask. *)
Lemma mask_get_id_ten m f : ten_bits m f -> any f = true -> (mask_get_id m < 10)%nat /\ f (mask_get_id m) = true.
Proof.
  intros Hm (d & Hd & E)%any_true. unfold mask_get_id, ID_DEV_MASK.
  destruct (ffs_from_spec 32 0 m) as [H1 H2].
  { exists (Z.of_nat d). split; [lia|]. rewrite Hm, Nat2Z.id, E by lia. lia. }
  rewrite Hm in H2 by lia. apply andb_true_iff in H2 as [H2 H3]. split; [lia|done].
Qed.

Lemma bg_bits_dev v d : (d < 10)%nat -> (Z.land (bg_bits v) (DEV_MASK d) =? 0) = negb (bg v d).
Proof.
  intros Hd. apply eq_true_iff_eq. rewrite Z.eqb_eq, negb_true_iff, land_zero. split.
  - intros Hz. apply not_true_iff_false. intros E. specialize (Hz (Z.of_nat d)). rewrite bg_bits_ten, Nat2Z.id, E in Hz by lia.
    rewrite (proj2 (Z.ltb_lt (Z.of_nat d) 10)) in Hz by lia. specialize (Hz eq_refl).
    rewrite dev_mask, Z.lor_spec, req_mask, Z.pow2_bits_true, orb_true_r in Hz by lia. done.
  - intros E i Hi. destruct (Z_lt_le_dec i 0) as [H0|H0]; [by rewrite Z.testbit_neg_r in Hi|]. rewrite bg_bits_ten in Hi by done.
    apply andb_true_iff in Hi as [H10 Hi]. apply Z.ltb_lt in H10. rewrite dev_mask, !Z.lor_spec, lock_mask, pend_mask, req_mask, !Z.pow2_bits_eqb by lia.
    destruct (Z.eqb_spec (Z.of_nat d) i) as [<-|]; [rewrite Nat2Z.id in Hi; congruence|]. lia.
Qed.

(** What [schedule_core] decides: whether to yield to a task, the desired
    device, and the new acquiring device. *)
Inductive scheduled (v : Z) : bool -> option nat -> option nat -> Prop :=
  | to_nobody : any (lk v) = false -> any (bg v) = false -> scheduled v true None None
  | to_bg d : any (lk v) = false -> (d < 10)%nat -> bg v d = true -> scheduled v false (Some d) None
  | to_other l d : (l < 10)%nat -> lk v l = true -> bg v l = false -> (d < 10)%nat -> bg v d = true -> scheduled v false (Some d) None
  | to_task l : (l < 10)%nat -> lk v l = true -> any (bg v) = false -> scheduled v true (Some l) (Some l)
  | to_device l : (l < 10)%nat -> lk v l = true -> bg v l = true -> scheduled v false (Some l) (Some l).

Section schedule.
Context {S : Type} `{BusClient S} (lock_set : forall l s, lock (set_lock l s) = l) (set_set : forall l l' s, set_lock l (set_lock l' s) = set_lock l s).

Definition registered (l : bus_lock) (d : nat) : Prop := dev l !! d = Some Device.

Lemma run_schedule v s : word v -> (forall d, (d < 10)%nat -> lk v d || bg v d = true -> registered (lock s) d) ->
  exists yield desired acq act,
    run (schedule_core v) s = Next (set_lock (set_acq_dev_bg_active act (set_acquiring_dev acq (lock s))) s, (yield, desired)) /\
    scheduled v yield desired acq.
Proof.
  intros Hv Hr. unfold schedule_core. fold (lock_bits v). fold (bg_bits v). cbv zeta.
  rewrite (ten_zero _ _ (lock_bits_ten v Hv)), (ten_zero _ _ (bg_bits_ten v)), !negb_involutive.
  destruct (any (lk v)) eqn:El, (any (bg v)) eqn:Eb.
  all: try (destruct (mask_get_id_ten _ _ (lock_bits_ten v Hv) El) as [Hl1 Hl2]).
  all: try (destruct (mask_get_id_ten _ _ (bg_bits_ten v) Eb) as [Hb1 Hb2]).
  all: try (assert (registered (lock s) (mask_get_id (lock_bits v))) as Rl by (apply Hr; [done|by rewrite Hl2])).
  all: try (assert (registered (lock s) (mask_get_id (bg_bits v))) as Rb by (apply Hr; [done|by rewrite Hb2, orb_true_r])).
  all: unfold registered in *; cbn; rewrite ?Rl; cbn.
  - rewrite bg_bits_dev by done. destruct (bg v (mask_get_id (lock_bits v))) eqn:E; cbn; rewrite ?Rb; cbn; rewrite ?lock_set, ?set_set.
    + do 4 eexists. split; [reflexivity|]. by apply to_device.
    + do 4 eexists. split; [reflexivity|]. by apply (to_other _ (mask_get_id (lock_bits v))).
  - rewrite bg_bits_dev by done. rewrite (any_false _ _ Eb Hl1). cbn. rewrite ?lock_set, ?set_set.
    do 4 eexists. split; [reflexivity|]. by apply to_task.
  - rewrite ?lock_set. cbn. rewrite Rb. cbn. rewrite ?lock_set, ?set_set. do 4 eexists. split; [reflexivity|]. by apply to_bg.
  - rewrite ?lock_set, ?set_set. do 4 eexists. split; [reflexivity|]. by apply to_nobody.
Qed.
End schedule.
