(* ===== verification/SpiInv.v ===== *)
(** * Who has the bus

    The invariant of the tasks and the interrupt that share an SPI bus.  When
    the status word is not zero there is exactly one [holder] of the bus, the
    interrupt or one task; the [phase] of a task (its ghost value) says what it
    knows, and from it and the shared state follows whether it is the holder. *)

From stdpp Require Import functions.
From S2P Require Import Prelude EspErr Threads BusLock SpiMaster BusLockBits.

(** Where a task is.

    [Out]: without the bus.  [Prepared]: the same, its semaphore cleared.
    [Enabling]: about to enable the interrupt.  [Claiming]: its LOCK bit was the
    first bit.  [Waiting]: for its semaphore, with its LOCK bit set.  [Owner]: it
    may use the bus.  [Polling]: it does.  [Shared]: it is the acquiring device
    and may have requests at the interrupt.  [EnablingHeld]: the same, about to
    enable the interrupt for the first of them.  [SharedPrepared]: its semaphore
    cleared.  [WaitBg]: waiting until they are done.  [Resuming e]: about to
    hand the bus to [e]. *)
Inductive phase :=
  | Out | Prepared | Enabling | Claiming | Waiting | Owner | Polling
  | Shared | EnablingHeld | SharedPrepared | WaitBg | Resuming (e : nat).

#[export] Instance phase_eq_dec : EqDecision phase.
Proof. solve_decision. Defined.

(** With whether it occupies the bus explicitly, whether it has set [polling],
    whether it has queued a transaction but not yet set its REQ bit; the
    transactions it has queued and not got back; the length of its queues, and
    whether it gets results. *)
Record ghost := MkGhost { ph : phase; explicit : bool; pol : bool; sending : bool; out : list trans; limit : nat; returning : bool }.
Definition upd (p : phase) (e po s : bool) (g : ghost) : ghost := MkGhost p e po s (out g) (limit g) (returning g).

Inductive holder := ByIsr | ByTask (d : nat).

Definition st (h : spi_host) : Z := status (bus h).
Definition acq (h : spi_host) : option nat := acquiring_dev (bus h).
Definition sem (h : spi_host) (d : nat) : bool := semphr (bus h) d.

Definition holds_lock (p : phase) : bool :=
  match p with Out | Prepared | Enabling | Resuming _ => false | _ => true end.

Definition has_token (h : spi_host) (d : nat) (p : phase) : bool :=
  match p with
  | Out | Prepared => false
  | Enabling | Claiming | Owner | Polling | EnablingHeld | Resuming _ => true
  | Shared | SharedPrepared => negb (bg (st h) d)
  | Waiting | WaitBg => sem h d
  end.

(** The transactions of a device that the interrupt has started. *)
Definition by_isr (d : nat) (x : processor * nat * trans) : option trans :=
  match x with (Isr, e, t) => if (e =? d)%nat then Some t else None | _ => None end.
Definition isr_started (h : spi_host) (d : nat) : list trans := omap (by_isr d) (started h).

(** The transaction of a device that the interrupt has on the bus. *)
Definition in_flight (h : spi_host) (d : nat) : list trans := if in_isr (bus h) && (cur_cs h =? d)%nat then [cur_trans h] else [].

Definition phase_ok (h : spi_host) (d : nat) (p : phase) : Prop :=
  match p with
  | Out | Enabling | Resuming _ => acq h <> Some d
  | Prepared => acq h <> Some d /\ sem h d = false
  | Claiming => acq h <> Some d /\ bg (st h) d = false
  | Waiting => sem h d = true -> acq h = Some d /\ bg (st h) d = false
  | Owner | Polling => acq h = Some d /\ bg (st h) d = false
  | Shared => acq h = Some d
  | EnablingHeld => acq h = Some d /\ bg (st h) d = true
  | SharedPrepared | WaitBg => acq h = Some d /\ (sem h d = true -> bg (st h) d = false)
  end.

(** What holds of one device. *)
Record dev_ok (T : option holder) (h : spi_host) (d : nat) (g : ghost) : Prop := {
  dev_lk : lk (st h) d = holds_lock (ph g);
  dev_tok : T = Some (ByTask d) <-> has_token h d (ph g) = true;
  dev_expl : device_acquiring_lock h = Some d <-> explicit g = true;
  dev_pol : acq h = Some d -> polling h = pol g;
  dev_pol_ph : pol g = true -> ph g = Owner \/ ph g = Polling;
  dev_queue : trans_queue h d <> [] -> bg (st h) d = true \/ sending g = true;
  dev_sent : sent h d = isr_started h d ++ trans_queue h d;
  dev_config_ok : config h d = MkConfig (limit g) (negb (returning g));
  dev_out : returning g = true -> out g = ret_queue h d ++ in_flight h d ++ trans_queue h d /\ sent h d = received h d ++ out g;
  dev_limit : returning g = true -> (length (out g) <= limit g)%nat;
  dev_cs : cur_cs h = d -> in_isr (bus h) = true \/ ph g = Polling;
  dev_polling : ph g = Polling -> cur_cs h = d;
  dev_ph : phase_ok h d (ph g)
}.

Section spi_inv.
Context (n : nat) (n_le : (n <= DEV_NUM_MAX)%nat).

(** What holds of the bus. *)
Record bus_ok (T : option holder) (h : spi_host) : Prop := {
  bus_word : word (st h);
  bus_none : T = None <-> st h = 0;
  bus_intr : intr_enabled h = true <-> T = Some ByIsr;
  bus_reg d : (d < n)%nat -> registered (bus h) d;
  bus_device d : (d < n)%nat -> device h d = true;
  bus_bits d : (d < 10)%nat -> lk (st h) d || bg (st h) d = true -> (d < n)%nat;
  bus_isr : in_isr (bus h) = true -> T = Some ByIsr /\ (cur_cs h < n)%nat /\ pd (st h) (cur_cs h) = true /\ forall a, acq h = Some a -> a = cur_cs h;
  bus_cs : cur_cs h = DEV_NUM_MAX \/ (cur_cs h < n)%nat;
  bus_pol : acq h = None -> polling h = false;
  bus_acq a : acq h = Some a -> (a < n)%nat;
  bus_queues d : (d < n)%nat -> (0 < queue_size (config h d))%nat;
  bus_task d : T = Some (ByTask d) -> (d < n)%nat;
  bus_expl a : device_acquiring_lock h = Some a -> acq h = Some a
}.

(** The interrupt, or a task about to enable it, has something to do. *)
Definition work (h : spi_host) : Prop :=
  any (bg (st h)) = true /\ forall a, acq h = Some a -> bg (st h) a = true.

(** What the holder knows. *)
Definition holder_ok (T : option holder) (h : spi_host) (γ : nat -> ghost) : Prop :=
  match T with
  | None => True
  | Some ByIsr => work h
  | Some (ByTask d) =>
      match ph (γ d) with
      | Enabling => work h
      | Claiming => acq h = None
      | Resuming e => (e < n)%nat /\ e <> d /\ ph (γ e) = Waiting /\ acq h = Some e /\ bg (st h) e = false
      | _ => True
      end
  end.

Record inv (T : option holder) (h : spi_host) (γ : nat -> ghost) : Prop := {
  inv_bus : bus_ok T h;
  inv_dev d : (d < n)%nat -> dev_ok T h d (γ d);
  inv_holder : holder_ok T h γ
}.

Definition Inv (h : spi_host) (γ : nat -> ghost) : Prop := exists T, inv T h γ.

(** ** Consequences *)

Lemma n_10 d : (d < n)%nat -> (d < 10)%nat.
Proof. unfold DEV_NUM_MAX in n_le. lia. Qed.

(** The acquiring device holds its LOCK bit. *)
Lemma acq_lk T h γ a : inv T h γ -> acq h = Some a -> (a < n)%nat /\ lk (st h) a = true.
Proof.
  intros [Hb Hd _] Ha. pose proof (bus_acq _ _ Hb _ Ha) as Hn. specialize (Hd a Hn). split; [done|].
  rewrite (dev_lk _ _ _ _ Hd). pose proof (dev_ph _ _ _ _ Hd) as Hp. destruct (ph (γ a)); cbn in *; try done; destruct Hp; congruence.
Qed.

Lemma zero_acq T h γ : inv T h γ -> st h = 0 -> acq h = None.
Proof. intros HI E. destruct (acq h) as [a|] eqn:Ea; [|done]. destruct (acq_lk T h γ a HI Ea) as [_ H]. unfold lk in H. by rewrite E, Z.bits_0 in H. Qed.

(** The holder is not in a transaction of the interrupt. *)
Lemma task_not_in_isr T h d γ : inv T h γ -> T = Some (ByTask d) -> in_isr (bus h) = false.
Proof. intros [Hb _ _] ->. destruct (in_isr (bus h)) eqn:E; [|done]. by destruct (bus_isr _ _ Hb E). Qed.

(** A holder that does not poll finds no transaction on the bus. *)
Lemma task_idle_cs T h d γ : inv T h γ -> T = Some (ByTask d) -> ph (γ d) <> Polling -> cur_cs h = DEV_NUM_MAX.
Proof.
  intros HI HT Hp. destruct (bus_cs _ _ (inv_bus _ _ _ HI)) as [E|Hc]; [done|]. exfalso.
  pose proof (inv_dev _ _ _ HI _ Hc) as Hd. destruct (dev_cs _ _ _ _ Hd eq_refl) as [E|E].
  - by rewrite (task_not_in_isr _ _ _ _ HI HT) in E.
  - assert (T = Some (ByTask (cur_cs h))) as HT' by (apply (dev_tok _ _ _ _ Hd); by rewrite E). congruence.
Qed.

(** What must not change for a device to keep its [dev_ok]. *)
Record unchanged (T : option holder) (h : spi_host) (T' : option holder) (h' : spi_host) (e : nat) : Prop := {
  same_lk : lk (st h') e = lk (st h) e;
  same_bg : bg (st h') e = bg (st h) e;
  same_sem : sem h' e = sem h e;
  same_acq : acq h' = Some e <-> acq h = Some e;
  same_tok : T' = Some (ByTask e) <-> T = Some (ByTask e);
  same_expl : device_acquiring_lock h' = Some e <-> device_acquiring_lock h = Some e;
  same_pol : acq h' = Some e -> polling h' = polling h;
  same_queue : trans_queue h' e = trans_queue h e;
  same_sent : sent h' e = sent h e;
  same_started : isr_started h' e = isr_started h e;
  same_config : config h' e = config h e;
  same_ret : ret_queue h' e = ret_queue h e;
  same_received : received h' e = received h e;
  same_flight : in_flight h' e = in_flight h e;
  same_cs : cur_cs h' = e -> cur_cs h = e;
  same_cs' : cur_cs h = e -> cur_cs h' = e \/ in_isr (bus h) = true;
  same_isr : cur_cs h' = e -> in_isr (bus h) = true -> in_isr (bus h') = true
}.

Lemma has_token_same h h' e p : bg (st h') e = bg (st h) e -> sem h' e = sem h e -> has_token h' e p = has_token h e p.
Proof. intros E1 E2. destruct p; cbn; congruence. Qed.

Lemma dev_ok_same T h T' h' e g : unchanged T h T' h' e -> (ph g = Polling -> in_isr (bus h) = false) -> dev_ok T h e g -> dev_ok T' h' e g.
Proof.
  intros U Hpi D. split.
  - rewrite (same_lk _ _ _ _ _ U). apply (dev_lk _ _ _ _ D).
  - rewrite (same_tok _ _ _ _ _ U), (dev_tok _ _ _ _ D), (has_token_same h h'); [done|apply U..].
  - rewrite (same_expl _ _ _ _ _ U). apply (dev_expl _ _ _ _ D).
  - intros Ha. rewrite (same_pol _ _ _ _ _ U Ha). apply (dev_pol _ _ _ _ D), (same_acq _ _ _ _ _ U), Ha.
  - apply (dev_pol_ph _ _ _ _ D).
  - rewrite (same_queue _ _ _ _ _ U), (same_bg _ _ _ _ _ U). apply (dev_queue _ _ _ _ D).
  - rewrite (same_sent _ _ _ _ _ U), (same_started _ _ _ _ _ U), (same_queue _ _ _ _ _ U). apply (dev_sent _ _ _ _ D).
  - rewrite (same_config _ _ _ _ _ U). apply (dev_config_ok _ _ _ _ D).
  - rewrite (same_ret _ _ _ _ _ U), (same_received _ _ _ _ _ U), (same_flight _ _ _ _ _ U), (same_queue _ _ _ _ _ U), (same_sent _ _ _ _ _ U). apply (dev_out _ _ _ _ D).
  - apply (dev_limit _ _ _ _ D).
  - intros Hc. destruct (dev_cs _ _ _ _ D (same_cs _ _ _ _ _ U Hc)); [left; by apply (same_isr _ _ _ _ _ U Hc)|by right].
  - intros Hp. destruct (same_cs' _ _ _ _ _ U (dev_polling _ _ _ _ D Hp)) as [E|E]; [done|]. rewrite (Hpi Hp) in E. done.
  - pose proof (dev_ph _ _ _ _ D) as P. pose proof (same_acq _ _ _ _ _ U) as A. pose proof (same_bg _ _ _ _ _ U) as B. pose proof (same_sem _ _ _ _ _ U) as S.
    destruct (ph g); cbn in *; rewrite ?A, ?B, ?S; done.
Qed.

(** A step of task [d] that leaves the other devices alone. *)
Lemma inv_step T h γ T' h' d g : inv T h γ -> (d < n)%nat ->
  bus_ok T' h' -> dev_ok T' h' d g -> holder_ok T' h' (<[d:=g]> γ) ->
  (forall e, (e < n)%nat -> e <> d -> unchanged T h T' h' e) -> inv T' h' (<[d:=g]> γ).
Proof.
  intros HI Hd Hb Hg Hh Hu. split; [done| |done]. intros e He. destruct (decide (d = e)) as [<-|Hne]; [by rewrite fn_lookup_insert|].
  rewrite fn_lookup_insert_ne by done. eapply dev_ok_same; [by apply Hu| |by apply HI].
  intros Hp. pose proof (inv_dev _ _ _ HI e He) as De.
  apply (task_not_in_isr T h e γ HI). apply (dev_tok _ _ _ _ De). by rewrite Hp.
Qed.

Lemma unchanged_refl T h e : unchanged T h T h e.
Proof. by split; try tauto. Qed.

Lemma inv_ext T h γ γ' : (forall e, γ' e = γ e) -> inv T h γ -> inv T h γ'.
Proof.
  intros Eg HI. split; [apply HI|intros e He; rewrite Eg; by apply HI|]. pose proof (inv_holder _ _ _ HI) as Hh. unfold holder_ok in *.
  destruct T as [[|e]|]; try done. rewrite Eg. destruct (ph (γ e)); rewrite ?Eg; done.
Qed.

(** A task that learns or forgets something. *)
Lemma inv_ghost T h γ d g : inv T h γ -> (d < n)%nat -> dev_ok T h d g -> holder_ok T h (<[d:=g]> γ) -> inv T h (<[d:=g]> γ).
Proof. intros HI Hd Hg Hh. apply (inv_step T h γ T h d g); try done; [by apply HI|]. intros. apply unchanged_refl. Qed.

(** What the holder knows does not depend on another task. *)
Lemma holder_ok_other T h γ d g : holder_ok T h γ -> T <> Some (ByTask d) -> (forall e, T = Some (ByTask e) -> ph (γ e) = Resuming d -> ph g = Waiting) ->
  holder_ok T h (<[d:=g]> γ).
Proof.
  unfold holder_ok. destruct T as [[|e]|]; [done| |done]. intros Hh Hne Hr. assert (d <> e) as He by congruence.
  rewrite fn_lookup_insert_ne by done. destruct (ph (γ e)) as [| | | | | | | | | | |x] eqn:E; try done.
  destruct (decide (d = x)) as [<-|Hx]; [|by rewrite fn_lookup_insert_ne]. rewrite fn_lookup_insert.
  destruct Hh as (H1 & H2 & H3 & H4). split; [done|]. split; [done|]. split; [by apply (Hr e)|done].
Qed.
End spi_inv.
