(* ===== verification/SpiStep.v ===== *)
(** * The steps of a task on the bus

    One lemma for each access that changes the shared state: it keeps the
    invariant, and moves the task to its next phase. *)

From stdpp Require Import functions.
From S2P Require Import Prelude EspErr Threads BusLock SpiMaster BusLockBits SpiInv.

Definition with_ph (p : phase) (g : ghost) : ghost := upd p (explicit g) (pol g) (sending g) g.

(** Fields that a step does not touch. *)
Ltac fields := unfold st, acq, sem, registered in *; cbn in *; rewrite ?fn_lookup_insert, ?fn_lookup_insert_ne by done.
Ltac keep := split; fields; try done; try tauto.

(** The fields of [bus_ok] and of [dev_ok], each from the old one. *)
Ltac bus_fields B := split;
  [ pose proof (bus_word _ _ _ B) as P | pose proof (bus_none _ _ _ B) as P | pose proof (bus_intr _ _ _ B) as P
  | pose proof (bus_reg _ _ _ B) as P | pose proof (bus_device _ _ _ B) as P | pose proof (bus_bits _ _ _ B) as P | pose proof (bus_isr _ _ _ B) as P
  | pose proof (bus_cs _ _ _ B) as P | pose proof (bus_pol _ _ _ B) as P | pose proof (bus_acq _ _ _ B) as P
  | pose proof (bus_queues _ _ _ B) as P | pose proof (bus_task _ _ _ B) as P | pose proof (bus_expl _ _ _ B) as P ]; fields; try done; try (intuition congruence).
Ltac dev_fields D E := split;
  [ pose proof (dev_lk _ _ _ _ D) as P | pose proof (dev_tok _ _ _ _ D) as P | pose proof (dev_expl _ _ _ _ D) as P
  | pose proof (dev_pol _ _ _ _ D) as P | pose proof (dev_pol_ph _ _ _ _ D) as P | pose proof (dev_queue _ _ _ _ D) as P
  | pose proof (dev_sent _ _ _ _ D) as P | pose proof (dev_config_ok _ _ _ _ D) as P | pose proof (dev_out _ _ _ _ D) as P | pose proof (dev_limit _ _ _ _ D) as P
  | pose proof (dev_cs _ _ _ _ D) as P | pose proof (dev_polling _ _ _ _ D) as P
  | pose proof (dev_ph _ _ _ _ D) as P ]; try rewrite E in *; fields; try done; try (intuition congruence).

(** Phases in which the holder knows nothing more. *)
Definition plain (p : phase) : bool := match p with Enabling | Claiming | Resuming _ => false | _ => true end.

Section spi_step.
Context (n : nat) (n_le : (n <= DEV_NUM_MAX)%nat).
Context (d : nat) (Hd : (d < n)%nat).

Lemma holder_keep T h h' γ g : holder_ok n T h γ -> st h' = st h -> acq h' = acq h ->
  (T = Some (ByTask d) -> plain (ph g) = true) -> (ph (γ d) = Waiting -> T = Some (ByTask d) \/ ph g = Waiting) ->
  holder_ok n T h' (<[d:=g]> γ).
Proof.
  intros Hh Es Ea Hp Hw. destruct T as [[|e]|]; [|destruct (decide (d = e)) as [<-|Hne]|done].
  - unfold holder_ok, work in *. by rewrite Es, Ea.
  - unfold holder_ok. rewrite fn_lookup_insert. specialize (Hp eq_refl). by destruct (ph g).
  - assert (holder_ok n (Some (ByTask e)) h (<[d:=g]> γ)) as H.
    { apply holder_ok_other; [done|congruence|]. intros e' [= <-] Er. unfold holder_ok in Hh. rewrite Er in Hh. destruct Hh as (_ & _ & Hh & _). destruct (Hw Hh); congruence. }
    unfold holder_ok, work in *. by rewrite Es, Ea.
Qed.

(** A step that changes nothing of the bus but [d]'s own affairs. *)
Ltac own_step := match goal with HI : inv _ ?T ?h _ |- Inv _ _ _ => exists T; apply (inv_step n T h); try done end.

(** ** The semaphore *)

Lemma step_prepare h γ g p : γ d = g -> Inv n h γ -> ph g = Out /\ p = Prepared \/ ph g = Shared /\ p = SharedPrepared ->
  Inv n (set_bus (set_semphr d false (bus h)) h) (<[d:=with_ph p g]> γ).
Proof.
  intros Hg [T HI] Hp. pose proof (inv_bus _ _ _ _ HI) as B. pose proof (inv_dev _ _ _ _ HI d Hd) as D. rewrite Hg in D. own_step.
  - by bus_fields B.
  - destruct Hp as [[E ->]|[E ->]]; dev_fields D E.
  - apply (holder_keep T h); try done; [apply HI|intros _; by destruct Hp as [[_ ->]|[_ ->]]|]. rewrite Hg. by destruct Hp as [[-> _]|[-> _]].
  - intros e He Hne. keep.
Qed.

(** Taking the semaphore makes the task the owner. *)
Lemma step_wait h γ g : γ d = g -> Inv n h γ -> ph g = Waiting \/ ph g = WaitBg -> sem h d = true ->
  Inv n (set_bus (set_semphr d false (bus h)) h) (<[d:=with_ph Owner g]> γ).
Proof.
  intros Hg [T HI] Hp Hs. pose proof (inv_bus _ _ _ _ HI) as B. pose proof (inv_dev _ _ _ _ HI d Hd) as D. rewrite Hg in D.
  assert (T = Some (ByTask d)) as HT by (apply (dev_tok _ _ _ _ D); by destruct Hp as [-> | ->]). own_step.
  - by bus_fields B.
  - destruct Hp as [E|E]; dev_fields D E.
  - apply (holder_keep T h); try done; [apply HI|tauto].
  - intros e He Hne. keep.
Qed.

(** Giving the semaphore hands the bus over. *)
Lemma step_resume h γ g e : γ d = g -> Inv n h γ -> ph g = Resuming e ->
  Inv n (set_bus (set_semphr e true (bus h)) h) (<[d:=with_ph Out g]> γ).
Proof.
  intros Hg [T HI] Hp. pose proof (inv_bus _ _ _ _ HI) as B. pose proof (inv_dev _ _ _ _ HI d Hd) as D. rewrite Hg in D.
  assert (T = Some (ByTask d)) as HT by (apply (dev_tok _ _ _ _ D); by rewrite Hp).
  pose proof (inv_holder _ _ _ _ HI) as Hh. unfold holder_ok in Hh. rewrite HT, Hg, Hp in Hh. destruct Hh as (He & Hne & Hw & Ha & Hb).
  exists (Some (ByTask e)). split.
  - bus_fields B.
  - intros x Hx. destruct (decide (d = x)) as [<-|Hdx]; [|destruct (decide (x = e)) as [->|Hex]].
    + rewrite fn_lookup_insert. dev_fields D Hp.
    + rewrite fn_lookup_insert_ne by done. pose proof (inv_dev _ _ _ _ HI e He) as De. dev_fields De Hw.
    + rewrite fn_lookup_insert_ne by done. apply (dev_ok_same T h); [keep; rewrite HT; split; congruence| |by apply HI].
      intros Hpo. apply (task_not_in_isr n T h x γ HI). apply (dev_tok _ _ _ _ (inv_dev _ _ _ _ HI x Hx)). by rewrite Hpo.
  - unfold holder_ok. rewrite fn_lookup_insert_ne by done. by rewrite Hw.
Qed.
(** ** Claiming the bus *)

Definition with_lock (h : spi_host) : spi_host := set_bus (set_status (Z.lor (status (bus h)) (DEV_LOCK_MASK d)) (bus h)) h.
Definition with_req (h : spi_host) : spi_host := set_bus (set_status (Z.lor (status (bus h)) (DEV_REQ_MASK d)) (bus h)) h.

Lemma with_lock_bits h e : (e < 10)%nat -> lk (st (with_lock h)) e = lk (st h) e || (e =? d)%nat /\ bg (st (with_lock h)) e = bg (st h) e /\ pd (st (with_lock h)) e = pd (st h) e.
Proof. intros He. pose proof (n_10 n n_le d Hd). unfold with_lock, st; cbn. by rewrite lk_set_lock, bg_set_lock, pd_set_lock. Qed.
Lemma with_req_bits h e : (e < 10)%nat -> lk (st (with_req h)) e = lk (st h) e /\ bg (st (with_req h)) e = bg (st h) e || (e =? d)%nat /\ pd (st (with_req h)) e = pd (st h) e.
Proof. intros He. pose proof (n_10 n n_le d Hd). unfold with_req, st; cbn. by rewrite lk_set_req, bg_set_req, pd_set_req. Qed.

Lemma set_nonzero v m : 0 <= v -> 0 < m -> Z.lor v m <> 0.
Proof. intros Hv Hm E. apply Z.lor_eq_0_iff in E. lia. Qed.

(** Another task's new bit does not bother the holder. *)
Lemma holder_more T h h' γ g : inv n T h γ -> T <> Some (ByTask d) -> ph (γ d) <> Waiting -> acq h' = acq h ->
  (forall e, (e < 10)%nat -> bg (st h) e = true -> bg (st h') e = true) -> (forall e, (e < n)%nat -> e <> d -> bg (st h') e = bg (st h) e) ->
  holder_ok n T h' (<[d:=g]> γ).
Proof.
  intros HI HT Hp Ea Hm Hs. pose proof (inv_holder _ _ _ _ HI) as Hh.
  assert (work h -> work h') as Hw.
  { intros [Hb Hq]. split.
    - apply any_true in Hb as (e & He & Hb). apply any_true. exists e. split; [done|by apply Hm].
    - intros a Ha. rewrite Ea in Ha. apply Hm; [|by apply Hq]. apply (n_10 n n_le), (acq_lk n T h γ a HI Ha). }
  destruct T as [[|x]|]; [by apply Hw| |done]. unfold holder_ok in *. assert (d <> x) as Hx by congruence.
  rewrite fn_lookup_insert_ne by done. destruct (ph (γ x)) as [| | | | | | | | | | |e]; try done; [by apply Hw|congruence|].
  destruct Hh as (H1 & H2 & H3 & H4 & H5). assert (d <> e) as Hde by congruence. rewrite fn_lookup_insert_ne, Hs, Ea by done. done.
Qed.

(** Setting a bit with a holder [T'] afterwards. *)
Definition still (T T' : option holder) : Prop :=
  T' <> None /\ (T' = Some ByIsr <-> T = Some ByIsr) /\ (forall e, T' = Some (ByTask e) -> e = d \/ T = Some (ByTask e)).

Lemma bus_with_lock T T' h : bus_ok n T h -> still T T' -> bus_ok n T' (with_lock h).
Proof.
  intros B (HT & Hi & Ht). pose proof (n_10 n n_le d Hd) as H10. bus_fields B.
  - apply word_lor; [done|by apply word_lock].
  - split; [done|]. intros E. exfalso. revert E. apply set_nonzero; [apply (bus_word _ _ _ B)|]. rewrite lock_mask by done. lia.
  - intros x Hx. rewrite lk_set_lock, bg_set_lock by done. destruct (Nat.eqb_spec x d) as [->|]; [done|]. rewrite orb_false_r. by apply P.
  - intros H. destruct (P H) as (H1 & H2 & H3 & H4). rewrite pd_set_lock; [tauto|done|]. by apply (n_10 n n_le).
  - intros x Hx. destruct (Ht x Hx) as [->|]; [done|by apply P].
Qed.

Lemma bus_with_req T T' h : bus_ok n T h -> still T T' -> bus_ok n T' (with_req h).
Proof.
  intros B (HT & Hi & Ht). pose proof (n_10 n n_le d Hd) as H10. bus_fields B.
  - apply word_lor; [done|by apply word_req].
  - split; [done|]. intros E. exfalso. revert E. apply set_nonzero; [apply (bus_word _ _ _ B)|]. rewrite req_mask by done. lia.
  - intros x Hx. rewrite lk_set_req, bg_set_req by done. destruct (Nat.eqb_spec x d) as [->|]; [done|]. rewrite orb_false_r. by apply P.
  - intros H. destruct (P H) as (H1 & H2 & H3 & H4). rewrite pd_set_req; [tauto|done|]. by apply (n_10 n n_le).
  - intros x Hx. destruct (Ht x Hx) as [->|]; [done|by apply P].
Qed.

Lemma other_with_lock T T' h e : (e < n)%nat -> e <> d -> (T' = Some (ByTask e) <-> T = Some (ByTask e)) -> unchanged T h T' (with_lock h) e.
Proof.
  intros He Hne Ht. destruct (with_lock_bits h e (n_10 n n_le e He)) as (E1 & E2 & _). rewrite (proj2 (Nat.eqb_neq e d) Hne), orb_false_r in E1.
  by split; try done; tauto.
Qed.

Lemma other_with_req T T' h e : (e < n)%nat -> e <> d -> (T' = Some (ByTask e) <-> T = Some (ByTask e)) -> unchanged T h T' (with_req h) e.
Proof.
  intros He Hne Ht. destruct (with_req_bits h e (n_10 n n_le e He)) as (E1 & E2 & _). rewrite (proj2 (Nat.eqb_neq e d) Hne), orb_false_r in E2.
  by split; try done; tauto.
Qed.

(** With no bit set there is no holder and no acquiring device. *)
Lemma zero_facts h γ : Inv n h γ -> st h = 0 -> inv n None h γ /\ acq h = None.
Proof.
  intros [T HI] Ez. assert (T = None) as -> by (by apply (bus_none _ _ _ (inv_bus _ _ _ _ HI))). split; [done|]. by eapply zero_acq.
Qed.

Lemma nonzero_facts T h γ : inv n T h γ -> st h <> 0 -> T <> None.
Proof. intros HI Hz ->. apply Hz. by apply (bus_none _ _ _ (inv_bus _ _ _ _ HI)). Qed.

Lemma still_none : still None (Some (ByTask d)).
Proof. unfold still. split; [done|]. split; [done|]. intros e [= ->]. by left. Qed.
Lemma still_same T : T <> None -> still T T.
Proof. unfold still. tauto. Qed.

Lemma none_other e : e <> d -> Some (ByTask d) = Some (ByTask e) <-> None = Some (ByTask e).
Proof. intros. split; congruence. Qed.

Lemma step_lock_first h γ g : γ d = g -> Inv n h γ -> ph g = Prepared -> st h = 0 -> Inv n (with_lock h) (<[d:=with_ph Claiming g]> γ).
Proof.
  intros Hg HI0 Hp Hz. destruct (zero_facts _ _ HI0 Hz) as [HI Ha]. pose proof (inv_bus _ _ _ _ HI) as B. pose proof (inv_dev _ _ _ _ HI d Hd) as D. rewrite Hg in D.
  destruct (with_lock_bits h d (n_10 n n_le d Hd)) as (E1 & E2 & _). rewrite Nat.eqb_refl, orb_true_r in E1.
  assert (bg (st h) d = false) as Eb by (rewrite Hz; unfold bg, rq, pd; by rewrite !Z.bits_0).
  exists (Some (ByTask d)). apply (inv_step n None h); try done.
  - apply (bus_with_lock None); [done|apply still_none].
  - clear HI HI0 B. unfold with_lock in *. dev_fields D Hp.
  - unfold holder_ok. by rewrite fn_lookup_insert.
  - intros e He Hne. apply other_with_lock; [done..|by apply none_other].
Qed.

Lemma step_lock_wait h γ g : γ d = g -> Inv n h γ -> ph g = Prepared -> st h <> 0 -> Inv n (with_lock h) (<[d:=with_ph Waiting g]> γ).
Proof.
  intros Hg [T HI] Hp Hz. pose proof (nonzero_facts _ _ _ HI Hz) as HT. pose proof (inv_bus _ _ _ _ HI) as B. pose proof (inv_dev _ _ _ _ HI d Hd) as D. rewrite Hg in D.
  destruct (with_lock_bits h d (n_10 n n_le d Hd)) as (E1 & E2 & _). rewrite Nat.eqb_refl, orb_true_r in E1.
  assert (T <> Some (ByTask d)) as HTd by (rewrite (dev_tok _ _ _ _ D), Hp; done).
  assert (sem h d = false) as Es by (pose proof (dev_ph _ _ _ _ D) as P; rewrite Hp in P; apply P).
  exists T. apply (inv_step n T h); try done.
  - apply (bus_with_lock T); [done|by apply still_same].
  - clear HI B. unfold with_lock in *. dev_fields D Hp.
  - apply (holder_more T h); [done|done|by rewrite Hg, Hp|done|intros e He; by rewrite (proj1 (proj2 (with_lock_bits h e He)))|].
    intros e He _. apply (with_lock_bits h e (n_10 n n_le e He)).
  - intros e He Hne. by apply other_with_lock.
Qed.

(** Becoming the acquiring device. *)
Lemma step_claim h γ g : γ d = g -> Inv n h γ -> ph g = Claiming ->
  Inv n (set_bus (set_acquiring_dev (Some d) (bus h)) h) (<[d:=with_ph Owner g]> γ).
Proof.
  intros Hg [T HI] Hp. pose proof (inv_bus _ _ _ _ HI) as B. pose proof (inv_dev _ _ _ _ HI d Hd) as D. rewrite Hg in D.
  assert (T = Some (ByTask d)) as HT by (apply (dev_tok _ _ _ _ D); by rewrite Hp).
  pose proof (inv_holder _ _ _ _ HI) as Ha. unfold holder_ok in Ha. rewrite HT, Hg, Hp in Ha.
  assert (polling h = false) as Hpo by (by apply (bus_pol _ _ _ B)).
  assert (pol g = false) as Hpg by (apply not_true_iff_false; intros E; apply (dev_pol_ph _ _ _ _ D) in E; rewrite Hp in E; by destruct E).
  exists T. apply (inv_step n T h); try done.
  - clear HI D. bus_fields B. intros a Ex. apply P in Ex. congruence.
  - clear HI B. dev_fields D Hp.
  - rewrite HT. unfold holder_ok. by rewrite fn_lookup_insert.
  - intros e He Hne. keep; rewrite Ha; split; congruence.
Qed.

(** ** Requests *)

Definition sent_off (p : phase) (g : ghost) : ghost := upd p (explicit g) (pol g) false g.

(** The first request of a task without the bus, when the bus is free. *)
Lemma step_req_first h γ g : γ d = g -> Inv n h γ -> ph g = Out -> st h = 0 -> Inv n (with_req h) (<[d:=sent_off Enabling g]> γ).
Proof.
  intros Hg HI0 Hp Hz. destruct (zero_facts _ _ HI0 Hz) as [HI Ha]. pose proof (inv_bus _ _ _ _ HI) as B. pose proof (inv_dev _ _ _ _ HI d Hd) as D. rewrite Hg in D.
  pose proof (n_10 n n_le d Hd) as H10.
  destruct (with_req_bits h d H10) as (E1 & E2 & _). rewrite Nat.eqb_refl, orb_true_r in E2.
  exists (Some (ByTask d)). apply (inv_step n None h); try done.
  - apply (bus_with_req None); [done|apply still_none].
  - clear HI HI0 B. unfold with_req in *. dev_fields D Hp.
  - unfold holder_ok. rewrite fn_lookup_insert. split; [apply any_true; by exists d|]. intros a Ea. unfold with_req, acq in *. cbn in Ea. congruence.
  - intros e He Hne. apply other_with_req; [done..|by apply none_other].
Qed.

(** Another request of a task without the bus, or of one that has it and whose
    requests the interrupt is serving. *)
Lemma step_req_more h γ g : γ d = g -> Inv n h γ -> ph g = Out /\ st h <> 0 \/ ph g = Shared /\ bg (st h) d = true ->
  Inv n (with_req h) (<[d:=sent_off (ph g) g]> γ).
Proof.
  intros Hg [T HI] Hp. pose proof (inv_bus _ _ _ _ HI) as B. pose proof (inv_dev _ _ _ _ HI d Hd) as D. rewrite Hg in D.
  pose proof (n_10 n n_le d Hd) as H10.
  assert (st h <> 0) as Hz by (destruct Hp as [[_ Hp]|[_ Hp]]; [done|]; intros E; rewrite E in Hp; unfold bg, rq, pd in Hp; by rewrite !Z.bits_0 in Hp).
  pose proof (nonzero_facts _ _ _ HI Hz) as HT.
  destruct (with_req_bits h d H10) as (E1 & E2 & _). rewrite Nat.eqb_refl, orb_true_r in E2.
  assert (T <> Some (ByTask d)) as HTd by (rewrite (dev_tok _ _ _ _ D); destruct Hp as [[-> _]|[-> Hp]]; cbn; [|rewrite Hp]; done).
  exists T. apply (inv_step n T h); try done.
  - apply (bus_with_req T); [done|by apply still_same].
  - clear HI B. unfold with_req in *. destruct Hp as [[E Hp]|[E Hp]]; dev_fields D E; rewrite E2; cbn; intuition congruence.
  - apply (holder_more T h); [done|done|rewrite Hg; by destruct Hp as [[-> _]|[-> _]]|done| |].
    + intros e He. rewrite (proj1 (proj2 (with_req_bits h e He))). by intros ->.
    + intros e He Hne. rewrite (proj1 (proj2 (with_req_bits h e (n_10 n n_le e He)))), (proj2 (Nat.eqb_neq e d) Hne). apply orb_false_r.
  - intros e He Hne. by apply other_with_req.
Qed.

(** The first request of a task that has the bus. *)
Lemma step_req_held h γ g : γ d = g -> Inv n h γ -> ph g = Shared -> bg (st h) d = false -> Inv n (with_req h) (<[d:=sent_off EnablingHeld g]> γ).
Proof.
  intros Hg [T HI] Hp Hb. pose proof (inv_bus _ _ _ _ HI) as B. pose proof (inv_dev _ _ _ _ HI d Hd) as D. rewrite Hg in D.
  pose proof (n_10 n n_le d Hd) as H10. destruct (with_req_bits h d H10) as (E1 & E2 & _). rewrite Nat.eqb_refl, orb_true_r in E2.
  assert (T = Some (ByTask d)) as HT by (apply (dev_tok _ _ _ _ D); by rewrite Hp; cbn; rewrite Hb).
  exists T. apply (inv_step n T h); try done.
  - apply (bus_with_req T); [done|apply still_same; by rewrite HT].
  - clear HI B. unfold with_req in *. dev_fields D Hp.
  - rewrite HT. unfold holder_ok. by rewrite fn_lookup_insert.
  - intros e He Hne. by apply other_with_req.
Qed.

(** Enabling the interrupt makes it the holder. *)
Lemma step_enable h γ g : γ d = g -> Inv n h γ -> ph g = Enabling \/ ph g = EnablingHeld ->
  Inv n (set_intr true h) (<[d:=with_ph (if decide (ph g = Enabling) then Out else Shared) g]> γ).
Proof.
  intros Hg [T HI] Hp. pose proof (inv_bus _ _ _ _ HI) as B. pose proof (inv_dev _ _ _ _ HI d Hd) as D. rewrite Hg in D.
  pose proof (n_10 n n_le d Hd) as H10.
  assert (T = Some (ByTask d)) as HT by (apply (dev_tok _ _ _ _ D); by destruct Hp as [-> | ->]).
  pose proof (task_not_in_isr n T h d γ HI HT) as Hi.
  exists (Some ByIsr). apply (inv_step n T h); try done.
  - clear HI D. rewrite HT in B. by bus_fields B.
  - clear HI B. assert (ph g = EnablingHeld -> bg (st h) d = true) as Hb by (intros E; pose proof (dev_ph _ _ _ _ D) as P; rewrite E in P; apply P).
    destruct Hp as [E|E]; rewrite E; destruct (decide _); try done; dev_fields D E. specialize (Hb eq_refl). unfold st in *. cbn in *. by rewrite Hb.
  - unfold holder_ok. destruct Hp as [E|E].
    + pose proof (inv_holder _ _ _ _ HI) as Hh. unfold holder_ok in Hh. rewrite HT, Hg, E in Hh. done.
    + pose proof (dev_ph _ _ _ _ D) as P. rewrite E in P. destruct P as [P1 P2]. split; [apply any_true; by exists d|]. intros a Ea. unfold acq in *. cbn in Ea. assert (a = d) as -> by congruence. exact P2.
  - intros e He Hne. keep. rewrite HT. split; congruence.
Qed.

(** ** Releasing the bus *)

Section release.
Context (h : spi_host) (γ : nat -> ghost) (g : ghost) (Hg : γ d = g) (HI : inv n (Some (ByTask d)) h γ).
Context (Hp : ph g = Owner) (He : explicit g = false) (Hpol : pol g = false).

Definition cleared : Z := Z.land (status (bus h)) (u32 (Z.lnot (DEV_LOCK_MASK d))).
Definition rescheduled (act : bool) (a : option nat) : spi_host :=
  set_bus (set_acq_dev_bg_active act (set_acquiring_dev a (set_status cleared (bus h)))) h.

Lemma owner_facts : acq h = Some d /\ bg (st h) d = false /\ polling h = false /\ device_acquiring_lock h = None /\ in_isr (bus h) = false /\ intr_enabled h = false.
Proof.
  pose proof (inv_bus _ _ _ _ HI) as B. pose proof (inv_dev _ _ _ _ HI d Hd) as D. rewrite Hg in D.
  pose proof (dev_ph _ _ _ _ D) as P. rewrite Hp in P. destruct P as [P1 P2]. split; [done|]. split; [done|].
  split; [by rewrite (dev_pol _ _ _ _ D P1)|]. split; [|split].
  - destruct (device_acquiring_lock h) as [a|] eqn:E; [|done]. pose proof (bus_expl _ _ _ B a E) as Ea.
    assert (a = d) as -> by congruence. apply (dev_expl _ _ _ _ D) in E. congruence.
  - by eapply (task_not_in_isr n).
  - apply not_true_iff_false. intros E. by apply (bus_intr _ _ _ B) in E.
Qed.

Lemma cleared_bits e : (e < 10)%nat -> lk cleared e = lk (st h) e && negb (e =? d)%nat /\ bg cleared e = bg (st h) e.
Proof. intros H10. pose proof (n_10 n n_le d Hd). unfold cleared. by rewrite lk_clear_lock, bg_clear_lock. Qed.

Lemma cleared_word : word cleared.
Proof. apply word_clear, (bus_word _ _ _ (inv_bus _ _ _ _ HI)). Qed.

(** The next device waits for its semaphore. *)
Lemma next_waits l : (l < 10)%nat -> lk cleared l = true -> (l < n)%nat /\ l <> d /\ ph (γ l) = Waiting /\ sem h l = false.
Proof.
  intros Hl El. destruct (cleared_bits l Hl) as [E1 _]. rewrite E1 in El. apply andb_true_iff in El as [El Hne]. apply negb_true_iff, Nat.eqb_neq in Hne.
  assert (l < n)%nat as Hln by (apply (bus_bits _ _ _ (inv_bus _ _ _ _ HI)); [done|by rewrite El]). split; [done|]. split; [done|].
  pose proof (inv_dev _ _ _ _ HI l Hln) as D. pose proof (dev_lk _ _ _ _ D) as P1. pose proof (dev_tok _ _ _ _ D) as P2. pose proof (dev_ph _ _ _ _ D) as P3.
  destruct owner_facts as (Ha & _). rewrite El in P1.
  assert (has_token h l (ph (γ l)) <> true) as Ht by (intros E; apply P2 in E; congruence).
  destruct (ph (γ l)); cbn in *; try done; try (destruct P3; congruence).
  - split; [done|]. by apply not_true_iff_false.
  - congruence.
Qed.

Lemma rescheduled_bus T act a : T = None /\ cleared = 0 \/ T = Some (ByTask d) /\ cleared <> 0 -> (forall l, a = Some l -> (l < n)%nat) ->
  bus_ok n T (rescheduled act a).
Proof.
  intros HT Ha. destruct owner_facts as (Hacq & Hb & Hpo & Hdal & Hisr & Hintr). pose proof (inv_bus _ _ _ _ HI) as B. pose proof cleared_word as Hw.
  pose proof cleared_bits as Hc. pose proof (n_10 n n_le) as H10. unfold rescheduled.
  split; fields.
  - done.
  - destruct HT as [[-> ->]|[-> ?]]; done.
  - rewrite Hintr. destruct HT as [[-> _]|[-> _]]; done.
  - apply (bus_reg _ _ _ B).
  - apply (bus_device _ _ _ B).
  - intros e Hx Eb. destruct (Hc e Hx) as [E1 E2]. rewrite E1, E2 in Eb. apply (bus_bits _ _ _ B); [done|]. unfold st. destruct (lk _ _), (bg _ _); done.
  - congruence.
  - apply (bus_cs _ _ _ B).
  - done.
  - done.
  - apply (bus_queues _ _ _ B).
  - intros e. destruct HT as [[-> _]|[-> _]]; [done|]. by intros [= <-].
  - congruence.
Qed.

Lemma rescheduled_own T act a p : (T = None /\ p = Out \/ T = Some (ByTask d) /\ has_token h d p = true /\ holds_lock p = false) ->
  a <> Some d -> dev_ok T (rescheduled act a) d (with_ph p g).
Proof.
  intros HT Ha. destruct owner_facts as (Hacq & Hb & Hpo & Hdal & Hisr & Hintr). pose proof (inv_dev _ _ _ _ HI d Hd) as D. rewrite Hg in D.
  destruct (cleared_bits d (n_10 n n_le d Hd)) as [E1 E2]. rewrite Nat.eqb_refl, andb_false_r in E1. unfold rescheduled.
  pose proof (dev_cs _ _ _ _ D) as Hcs. rewrite Hp in Hcs.
  pose proof (dev_expl _ _ _ _ D) as H1. pose proof (dev_queue _ _ _ _ D) as H2. pose proof (dev_sent _ _ _ _ D) as H3. pose proof (dev_config_ok _ _ _ _ D) as H4. pose proof (dev_out _ _ _ _ D) as H5. pose proof (dev_limit _ _ _ _ D) as H6. clear HI D.
  destruct HT as [[-> ->]|(-> & Ht & Hl)]; [|destruct p; try done].
  all: split; fields; try rewrite E1; try rewrite E2; try done; try (intuition congruence).
Qed.

Lemma rescheduled_other T act a e : T = None \/ T = Some (ByTask d) -> a <> Some e -> (e < n)%nat -> e <> d -> unchanged (Some (ByTask d)) h T (rescheduled act a) e.
Proof.
  intros HT Ha Hen Hne. destruct owner_facts as (Hacq & Hb & Hpo & Hdal & Hisr & Hintr). destruct (cleared_bits e (n_10 n n_le e Hen)) as [E1 E2].
  rewrite (proj2 (Nat.eqb_neq e d) Hne), andb_true_r in E1. unfold rescheduled. split; fields; try done; try tauto; [split; congruence|].
  destruct HT as [-> | ->]; split; congruence.
Qed.

(** The device that gets the bus, or whose requests come first. *)
Lemma rescheduled_next act l : (l < n)%nat -> l <> d -> ph (γ l) = Waiting -> sem h l = false ->
  dev_ok (Some (ByTask d)) (rescheduled act (Some l)) l (γ l).
Proof.
  intros Hln Hne Hw Hs. destruct owner_facts as (Hacq & Hb & Hpo & Hdal & Hisr & Hintr). pose proof (inv_dev _ _ _ _ HI l Hln) as D.
  destruct (cleared_bits l (n_10 n n_le l Hln)) as [E1 E2]. rewrite (proj2 (Nat.eqb_neq l d) Hne), andb_true_r in E1. clear HI. unfold rescheduled.
  assert (pol (γ l) = false) as Hpl by (apply not_true_iff_false; intros E; apply (dev_pol_ph _ _ _ _ D) in E; rewrite Hw in E; by destruct E).
  dev_fields D Hw; try rewrite E1; try rewrite E2; try done; try (intuition congruence).
Qed.
End release.

Lemma bit_nonzero v e : lk v e = true \/ bg v e = true -> v <> 0.
Proof. intros [E|E] ->; unfold lk, bg, rq, pd in E; by rewrite ?Z.bits_0 in E. Qed.

(** Where [acquire_end_core] leaves the task. *)
Definition after_release (y : bool) (desired : option nat) : phase :=
  if y then match desired with Some e => Resuming e | None => Out end else Enabling.

Lemma release_scheduled h γ g y desired a act : γ d = g -> inv n (Some (ByTask d)) h γ -> ph g = Owner -> explicit g = false -> pol g = false ->
  scheduled (cleared h) y desired a -> Inv n (rescheduled h act a) (<[d:=with_ph (after_release y desired) g]> γ).
Proof.
  intros Hg HI Hp He Hpol Hsch. pose proof (cleared_bits h) as Hc. pose proof (n_10 n n_le) as H10.
  assert (forall p T, (T = None /\ p = Out /\ cleared h = 0 \/ T = Some (ByTask d) /\ has_token h d p = true /\ holds_lock p = false /\ cleared h <> 0) ->
    a = None -> holder_ok n T (rescheduled h act a) (<[d:=with_ph p g]> γ) -> inv n T (rescheduled h act a) (<[d:=with_ph p g]> γ)) as Hnone.
  { intros p T HT -> Hh. apply (inv_step n (Some (ByTask d)) h); try done.
    - eapply rescheduled_bus; try done. naive_solver.
    - eapply rescheduled_own; try done. naive_solver.
    - intros e Hen Hne. eapply rescheduled_other; try done. naive_solver. }
  assert (forall p l, has_token h d p = true -> holds_lock p = false -> a = Some l -> (l < 10)%nat -> lk (cleared h) l = true ->
    (l <> d -> ph (γ l) = Waiting -> holder_ok n (Some (ByTask d)) (rescheduled h act a) (<[d:=with_ph p g]> γ)) ->
    inv n (Some (ByTask d)) (rescheduled h act a) (<[d:=with_ph p g]> γ)) as Hsome.
  { intros p l Ht Hl -> Hl10 El Hh. destruct (next_waits h γ g Hg HI Hp He Hpol l Hl10 El) as (Hln & Hne & Hw & Hs). split.
    - eapply rescheduled_bus; try done; [right; split; [done|by eapply bit_nonzero; left]|by intros x [= <-]].
    - intros e Hen. destruct (decide (d = e)) as [<-|Hde]; [|rewrite fn_lookup_insert_ne by done; destruct (decide (e = l)) as [->|Hel]].
      + rewrite fn_lookup_insert. eapply rescheduled_own; try done; [tauto|congruence].
      + by eapply rescheduled_next.
      + eapply dev_ok_same; [eapply rescheduled_other; try done; [by right|congruence]| |by apply HI]. intros Hpo. by eapply (task_not_in_isr n).
    - by apply Hh. }
  destruct Hsch as [E1 E2|b E1 Hb E2|l b Hl E1 E2 Hb E3|l Hl E1 E2|l Hl E1 E2]; cbn [after_release].
  - exists None. apply Hnone; [|done..]. left. split; [done|]. split; [done|]. apply word_zero; [by eapply cleared_word|done].
  - exists (Some (ByTask d)). apply Hnone; [right; repeat split; by eapply bit_nonzero; right|done|].
    unfold holder_ok. rewrite fn_lookup_insert. split; [apply any_true; by exists b|done].
  - exists (Some (ByTask d)). apply Hnone; [right; repeat split; by eapply bit_nonzero; right|done|].
    unfold holder_ok. rewrite fn_lookup_insert. split; [apply any_true; by exists b|done].
  - exists (Some (ByTask d)). apply (Hsome _ l); try done. intros Hne Hw. unfold holder_ok. rewrite fn_lookup_insert. cbn.
    assert (l < n)%nat by (eapply next_waits; try done). rewrite fn_lookup_insert_ne by done. repeat split; try done. by apply (any_false _ l) in E2.
  - exists (Some (ByTask d)). apply (Hsome _ l); try done. intros Hne Hw. unfold holder_ok. rewrite fn_lookup_insert. cbn.
    split; [apply any_true; by exists l|]. by intros x [= <-].
Qed.

Lemma step_release h γ g : γ d = g -> Inv n h γ -> ph g = Owner -> explicit g = false -> pol g = false ->
  exists h' v y desired,
    run (let% status := lock_status_clear (DEV_LOCK_MASK d) in let% r := schedule_core status in Ret (status, r)) h = Next (h', (v, (y, desired))) /\
    word v /\ Inv n h' (<[d:=with_ph (after_release y desired) g]> γ).
Proof.
  intros Hg [T HI] Hp He Hpol. pose proof (inv_dev _ _ _ _ HI d Hd) as D. rewrite Hg in D.
  assert (T = Some (ByTask d)) as -> by (apply (dev_tok _ _ _ _ D); by rewrite Hp).
  pose proof (cleared_word h γ HI) as Hw. pose proof (inv_bus _ _ _ _ HI) as B.
  rewrite run_bindp. unfold lock_status_clear, lock_status_fetch_clear. cbn. fold (cleared h). rewrite run_bindp.
  destruct (run_schedule (H:=spi_bus_client) (fun l s => eq_refl) (fun l l' s => eq_refl) (cleared h) (set_bus (set_status (cleared h) (bus h)) h) Hw) as (y & des & a & act & E & Hsch).
  { intros e He10 Hb. cbn. apply (bus_reg _ _ _ B). apply (bus_bits _ _ _ B); [done|]. destruct (cleared_bits h e He10) as [E1 E2].
    rewrite E1, E2 in Hb. destruct (lk _ _), (bg _ _); done. }
  rewrite E. cbn. do 4 eexists. split; [reflexivity|]. split; [done|].
  apply (release_scheduled h γ g y des a act); done.
Qed.
End spi_step.
