(* ===== verification/SpiTask.v ===== *)
(** * The functions of the lock and of the driver, run by a task

    For each function of [BusLock] and [SpiMaster] that tasks call: it never
    crashes, whatever the other tasks and the interrupt do between its steps,
    and where it leaves the task. *)

From stdpp Require Import functions.
From S2P Require Import Prelude EspErr Threads BusLock SpiMaster BusLockBits SpiInv SpiStep.

#[local] Arguments bindp : simpl never.
#[local] Arguments access : simpl never.
#[local] Arguments load : simpl never.
#[local] Arguments store : simpl never.
#[local] Arguments critical : simpl never.
#[local] Arguments wp : simpl never.

(** The status word, however it is written. *)
Ltac status_word h := change (status (lock h)) with (st h); change (status (bus h)) with (st h).

(** A task waits for the bus while somebody else has it, or for a result. *)
Definition calling (p : phase) : Prop := p = Out \/ p = Owner \/ p = Shared \/ p = Polling.
Definition may_wait (h : spi_host) (γ : nat -> ghost) (d : nat) (blocked : spi_host -> bool) : Prop :=
  has_token h d (ph (γ d)) = false /\ st h <> 0 \/
  ret_queue h d = [] /\ calling (ph (γ d)) /\ sending (γ d) = false /\ forall t, blocked (set_ret_queue d [t] h) = false.

Lemma may_wait_ext h γ d b b' : (forall h, b h = b' h) -> may_wait h γ d b -> may_wait h γ d b'.
Proof. intros E [H|(H1 & H2 & H3 & H4)]; [by left|right]. repeat split; try done. intros t. by rewrite <- E. Qed.

Section spi_task.
Context (n : nat) (n_le : (n <= DEV_NUM_MAX)%nat).
Context (d : nat) (Hd : (d < n)%nat).
Abbreviation task p g Q := (wp (Inv n) may_wait d p g Q).

(** ** Steps that concern nobody else *)

(** What the invariant looks at. *)
Record same_bus (h h' : spi_host) : Prop := {
  eq_st : st h' = st h;
  eq_acq : acq h' = acq h;
  eq_sem : semphr (bus h') = semphr (bus h);
  eq_dev : dev (bus h') = dev (bus h);
  eq_isr : in_isr (bus h') = in_isr (bus h);
  eq_intr : intr_enabled h' = intr_enabled h;
  eq_cs : cur_cs h' = cur_cs h;
  eq_expl : device_acquiring_lock h' = device_acquiring_lock h;
  eq_pol : polling h' = polling h;
  eq_queue : trans_queue h' = trans_queue h;
  eq_ret : ret_queue h' = ret_queue h;
  eq_received : received h' = received h;
  eq_config : config h' = config h;
  eq_device : device h' = device h;
  eq_flight : forall e, in_flight h' e = in_flight h e;
  eq_sent : sent h' = sent h;
  eq_started : forall e, isr_started h' e = isr_started h e
}.

Lemma same_dev T h h' e g : same_bus h h' -> dev_ok T h e g -> dev_ok T h' e g.
Proof.
  intros [E1 E2 E3 E4 E5 E6 E7 E8 E9 E10 E11 E12 E13 E14 E15 E16 E17] D. unfold sem in *.
  assert (has_token h' e (ph g) = has_token h e (ph g)) as Et by (apply has_token_same; [by rewrite E1|unfold sem; by rewrite E3]).
  assert (phase_ok h' e (ph g) <-> phase_ok h e (ph g)) as Ep by (unfold phase_ok, sem; rewrite E1, E2, E3; done).
  split; rewrite ?Et, ?Ep, ?E1, ?E2, ?E3, ?E5, ?E7, ?E8, ?E9, ?E10, ?E11, ?E12, ?E13, ?E14, ?E15, ?E16, ?E17; apply D.
Qed.

Lemma same_inv_ext h h' γ γ' : same_bus h h' -> (forall e, γ' e = γ e) -> Inv n h γ -> Inv n h' γ'.
Proof.
  intros S Eg [T HI]. exists T. pose proof S as [E1 E2 E3 E4 E5 E6 E7 E8 E9 E10 E11 E12 E13 E14 E15 E16 E17]. split.
  - pose proof (inv_bus _ _ _ _ HI) as B. split; unfold registered; rewrite ?E1, ?E2, ?E4, ?E5, ?E6, ?E7, ?E8, ?E9, ?E13, ?E14; apply B.
  - intros e He. rewrite Eg. eapply same_dev; [done|by apply HI].
  - pose proof (inv_holder _ _ _ _ HI) as Hh. unfold holder_ok, work in *. destruct T as [[|e]|]; rewrite ?E1, ?E2; try done.
    rewrite Eg. destruct (ph (γ e)); rewrite ?Eg; done.
Qed.

Lemma insert_own (γ : nat -> ghost) g : γ d = g -> forall e, (<[d:=g]> γ : nat -> ghost) e = γ e.
Proof. intros Hg e. destruct (decide (d = e)) as [<-|Hne]; [by rewrite fn_lookup_insert|by rewrite fn_lookup_insert_ne]. Qed.

Lemma same_inv h h' γ g : same_bus h h' -> γ d = g -> Inv n h γ -> Inv n h' (<[d:=g]> γ).
Proof. intros S Hg. apply same_inv_ext; [done|by apply insert_own]. Qed.

Lemma same_refl h : same_bus h h.
Proof. by split. Qed.

Lemma wp_keep {A} (f : spi_host -> A) g (Q : A -> ghost -> Prop) :
  (forall h γ, γ d = g -> Inv n h γ -> Q (f h) g) -> task (load f) g Q.
Proof. intros HQ. apply wp_load. intros h γ Hg HI. exists g. split; [by apply (same_inv h)|by eapply HQ]. Qed.

Lemma wp_quiet f g (Q : unit -> ghost -> Prop) : (forall h, same_bus h (f h)) -> Q tt g -> task (store f) g Q.
Proof. intros Hf HQ. apply wp_store. intros h γ Hg HI. exists g. split; [by apply (same_inv h)|done]. Qed.

(** The device of a task. *)
Lemma own_dev h γ g : γ d = g -> Inv n h γ -> exists T, inv n T h γ /\ dev_ok T h d g.
Proof. intros <- [T HI]. exists T. split; [done|]. by apply HI. Qed.

Lemma lock_nonzero h γ g : γ d = g -> Inv n h γ -> holds_lock (ph g) = true -> st h <> 0.
Proof.
  intros Hg HI Hp. destruct (own_dev h γ g Hg HI) as (T & _ & D). apply (bit_nonzero _ d). left. by rewrite (dev_lk _ _ _ _ D).
Qed.

(** Waiting for the semaphore. *)
Lemma wait_sem h γ g b : γ d = g -> Inv n h γ -> ph g = Waiting \/ ph g = WaitBg -> sem h d = false -> may_wait h γ d b.
Proof. intros Hg HI Hp Hs. left. split; [rewrite Hg; by destruct Hp as [-> | ->]|]. eapply lock_nonzero; [done..|]. by destruct Hp as [-> | ->]. Qed.

Lemma wp_is_polling g Q : ph g = Out \/ ph g = Owner \/ ph g = Shared \/ ph g = Polling -> Q (pol g) g ->
  task (spi_bus_device_is_polling d) g Q.
Proof.
  intros Hp HQ. unfold spi_bus_device_is_polling. apply wp_bindp, wp_keep. intros h γ Hg HI. cbn.
  destruct (own_dev h γ g Hg HI) as (T & _ & D). pose proof (dev_ph _ _ _ _ D) as P. pose proof (dev_pol_ph _ _ _ _ D) as Pp.
  destruct (bool_decide _) eqn:E.
  - apply wp_keep. intros h' γ' Hg' HI'. destruct (own_dev h' γ' g Hg' HI') as (T' & _ & D').
    rewrite (dev_pol _ _ _ _ D'); [done|]. pose proof (dev_ph _ _ _ _ D') as P'. apply bool_decide_eq_true in E.
    destruct Hp as [Hp|[Hp|[Hp|Hp]]]; rewrite Hp in *; cbn in *; [done|tauto..].
  - apply bool_decide_eq_false in E. destruct Hp as [Hp|[Hp|[Hp|Hp]]]; rewrite Hp in *; cbn in *; try (exfalso; tauto).
    destruct (pol g); [|done]. exfalso. by destruct (Pp eq_refl).
Qed.

(** ** The lock *)

Lemma wp_acquire_start g Q : ph g = Out -> Q ESP_OK (with_ph Owner g) -> task (spi_bus_lock_acquire_start d true) g Q.
Proof.
  intros Hp HQ. unfold spi_bus_lock_acquire_start. cbn [negb].
  assert (task lock_status_fetch (with_ph Owner g) (fun _ g' => g' = with_ph Owner g)) as Hf by (by apply wp_keep).
  apply wp_bindp, wp_store. intros h γ Hg HI. exists (with_ph Prepared g). split; [eapply step_prepare; try done; tauto|].
  apply wp_bindp. unfold acquire_core. apply wp_bindp, wp_access. clear h γ Hg HI. intros h γ Hg HI. cbn.
  destruct (decide (st h = 0)) as [Ez|Ez].
  - exists (with_ph Claiming g). split; [by eapply step_lock_first with (g := with_ph Prepared g)|].
    status_word h. rewrite Ez. cbn. apply wp_bindp, wp_store. clear h γ Hg HI Ez. intros h γ Hg HI. exists (with_ph Owner g).
    split; [by eapply step_claim with (g := with_ph Claiming g)|]. change (flag 0 WEAK_BG_FLAG) with false.
    apply wp_bindp, wp_ret, wp_ret, wp_bindp, wp_ret, wp_bindp. eapply wp_mono; [|exact Hf]. by intros ? ? ->.
  - exists (with_ph Waiting g). split; [by eapply step_lock_wait with (g := with_ph Prepared g)|].
    destruct (own_dev _ _ _ Hg HI) as (T & HI' & _). status_word h. rewrite (land_any _ (bus_word _ _ _ (inv_bus _ _ _ _ HI'))), (proj2 (Z.eqb_neq _ _) Ez).
    cbn. apply wp_bindp, wp_access. clear h γ Hg HI Ez T HI'. intros h γ Hg HI. change (semphr (lock h) d) with (sem h d). destruct (sem h d) eqn:Es; [|by eapply wait_sem; [..|left|]].
    exists (with_ph Owner g). split; [eapply step_wait with (g := with_ph Waiting g); try done; by left|].
    apply wp_bindp. eapply wp_mono; [|exact Hf]. by intros ? ? ->.
Qed.

Lemma wp_bg_request g Q : ph g = Out \/ ph g = Shared -> Q ESP_OK (sent_off (ph g) g) -> task (spi_bus_lock_bg_request d) g Q.
Proof.
  intros Hp HQ. unfold spi_bus_lock_bg_request, req_core. apply wp_bindp, wp_bindp, wp_keep. intros h γ Hg HI. cbn.
  destruct (own_dev h γ g Hg HI) as (T & _ & D). pose proof (dev_ph _ _ _ _ D) as P. clear T D HI Hg γ.
  destruct Hp as [Hp|Hp]; rewrite Hp in *; cbn in P.
  - rewrite bool_decide_eq_false_2 by done. apply wp_bindp, wp_access. clear h P. intros h γ Hg HI. cbn.
    destruct (decide (st h = 0)) as [Ez|Ez].
    + exists (sent_off Enabling g). split; [by eapply step_req_first|]. status_word h. rewrite Ez. cbn. apply wp_store.
      clear h γ Hg HI Ez. intros h γ Hg HI. exists (sent_off Out g). split; [|done].
      eapply step_enable with (g := sent_off Enabling g); try done. by left.
    + exists (sent_off Out g). split; [rewrite <- Hp; eapply step_req_more; try done; tauto|]. status_word h. by rewrite (proj2 (Z.eqb_neq _ _) Ez).
  - rewrite bool_decide_eq_true_2 by done. apply wp_bindp, wp_quiet; [by split|]. apply wp_bindp, wp_access. clear h P. intros h γ Hg HI. cbn.
    pose proof (n_10 n n_le d Hd) as H10. status_word h. rewrite land_bg by done. destruct (bg (st h) d) eqn:Eb; cbn.
    + exists (sent_off Shared g). split; [rewrite <- Hp; eapply step_req_more; try done; tauto|done].
    + exists (sent_off EnablingHeld g). split; [by eapply step_req_held|]. apply wp_store. clear h γ Hg HI Eb.
      intros h γ Hg HI. exists (sent_off Shared g). split; [|done]. eapply step_enable with (g := sent_off EnablingHeld g); try done. by right.
Qed.

(** A task that looks at its BG bits, or stops looking. *)
Lemma ghost_phase h γ g p : γ d = g -> Inv n h γ ->
  (ph g = Shared \/ ph g = SharedPrepared) /\ bg (st h) d = false /\ p = Owner \/
  ph g = SharedPrepared /\ bg (st h) d = true /\ p = WaitBg \/ ph g = Owner /\ pol g = false /\ p = Shared ->
  Inv n h (<[d:=with_ph p g]> γ).
Proof.
  intros Hg HI0 Hp. destruct (own_dev h γ g Hg HI0) as (T & HI & D). exists T. apply inv_ghost; [done|done| |].
  - assert (ph g = SharedPrepared -> bg (st h) d = true -> sem h d = false) as Hs.
    { intros E Eb. apply not_true_iff_false. intros Es. pose proof (dev_ph _ _ _ _ D) as P. rewrite E in P. destruct P as [_ P]. rewrite (P Es) in Eb. done. }
    assert (ph g = Owner -> bg (st h) d = false) as Ho by (intros E; pose proof (dev_ph _ _ _ _ D) as P; rewrite E in P; apply P).
    destruct Hp as [([E|E] & Hb & ->)|[(E & Hb & ->)|(E & Hpo & ->)]]; first [specialize (Hs E Hb) | clear Hs]; first [specialize (Ho E); rename Ho into Hb | clear Ho]; clear HI HI0; dev_fields D E;
      unfold st, acq, sem in *; rewrite ?Hb in *; cbn in *; intuition congruence.
  - apply (holder_keep n d T h); try done; [apply HI| |].
    + intros _. by destruct Hp as [(_ & _ & ->)|[(_ & _ & ->)|(_ & _ & ->)]].
    + rewrite Hg. by destruct Hp as [([-> | ->] & _)|[(-> & _)|(-> & _)]].
Qed.

(** The owner may forget that it has no requests. *)
Lemma wp_forget {A} (p : prog spi_host A) g Q : in_call (bindp p (fun _ => Ret tt)) = true -> ph g = Owner -> pol g = false ->
  task p (with_ph Shared g) Q -> task p g Q.
Proof.
  intros Hc Hp Hpo. destruct p as [a|R f k]; [done|]. intros Hw h γ Hg HI.
  assert (Inv n h (<[d:=with_ph Shared g]> γ)) as HI' by (apply (ghost_phase h γ g); [done..|tauto]).
  specialize (Hw h (<[d:=with_ph Shared g]> γ) ltac:(by rewrite fn_lookup_insert) HI'). destruct (f h) as [| |[h' r]]; [|done|].
  { unfold may_wait in *. rewrite fn_lookup_insert in Hw. destruct Hw as [[Ht Hz]|(Hr & _ & Hse & Hb)]; [|right; rewrite Hg, Hp; split; [done|split; [right; by left|done]]].
    cbn in Ht. destruct (own_dev h γ g Hg HI) as (T & _ & D). pose proof (dev_ph _ _ _ _ D) as P. rewrite Hp in P. destruct P as [_ P]. by rewrite P in Ht. }
  destruct Hw as (g' & HI'' & Hw). exists g'. split; [|done]. revert HI''. apply same_inv_ext; [by split|].
  intros e. destruct (decide (d = e)) as [<-|Hne]; [by rewrite !fn_lookup_insert|by rewrite !fn_lookup_insert_ne].
Qed.

Lemma wp_wait_bg_done g Q : ph g = Shared -> Q ESP_OK (with_ph Owner g) -> task (spi_bus_lock_wait_bg_done d true) g Q.
Proof.
  intros Hp HQ. unfold spi_bus_lock_wait_bg_done. apply wp_bindp, wp_keep. intros h γ Hg HI.
  destruct (own_dev h γ g Hg HI) as (T & _ & D). pose proof (dev_ph _ _ _ _ D) as P. rewrite Hp in P. cbn in P.
  rewrite (bool_decide_eq_true_2 _ P). cbn [negb]. clear h γ Hg HI T D P. pose proof (n_10 n n_le d Hd) as H10.
  apply wp_bindp, wp_load. intros h γ Hg HI. status_word h. rewrite land_bg, negb_involutive by done. destruct (bg (st h) d) eqn:Eb.
  - exists g. split; [by apply (same_inv h)|]. apply wp_bindp, wp_bindp, wp_store. clear h γ Hg HI Eb. intros h γ Hg HI.
    exists (with_ph SharedPrepared g). split; [eapply step_prepare; try done; tauto|].
    apply wp_bindp, wp_load. clear h γ Hg HI. intros h γ Hg HI. status_word h. rewrite land_bg, negb_involutive by done. destruct (bg (st h) d) eqn:Eb.
    + exists (with_ph WaitBg g). split; [eapply ghost_phase with (g := with_ph SharedPrepared g); try done; tauto|].
      apply wp_access. clear h γ Hg HI Eb. intros h γ Hg HI. change (semphr (lock h) d) with (sem h d). destruct (sem h d) eqn:Es; [|by eapply wait_sem; [..|right|]].
      exists (with_ph Owner g). split; [eapply step_wait with (g := with_ph WaitBg g); try done; by right|done].
    + exists (with_ph Owner g). split; [eapply ghost_phase with (g := with_ph SharedPrepared g); try done; left; tauto|done].
  - exists (with_ph Owner g). split; [eapply ghost_phase; try done; left; tauto|done].
Qed.

Lemma wp_acquire_end g Q : ph g = Owner -> explicit g = false -> pol g = false -> Q ESP_OK (with_ph Out g) -> task (spi_bus_lock_acquire_end d) g Q.
Proof.
  intros Hp He Hpo HQ. unfold spi_bus_lock_acquire_end. apply wp_bindp, wp_keep. intros h γ Hg HI.
  destruct (own_dev h γ g Hg HI) as (T & _ & D). pose proof (dev_ph _ _ _ _ D) as P. rewrite Hp in P. destruct P as [P _].
  rewrite (bool_decide_eq_true_2 _ P). cbn [negb]. clear h γ Hg HI T D P.
  unfold acquire_end_core. apply wp_bindp, wp_bindp, wp_access. intros h γ Hg HI.
  destruct (step_release n n_le d Hd h γ g Hg HI Hp He Hpo) as (h' & v & y & desired & E & Hw & HI'). rewrite E.
  exists (with_ph (after_release y desired) g). split; [done|]. clear h h' γ Hg HI E HI'.
  destruct y; cbn [negb after_release]; [destruct desired as [e|]|].
  - apply wp_store. intros h γ Hg HI. exists (with_ph Out g). split; [by eapply step_resume with (g := with_ph (Resuming e) g)|done].
  - by rewrite (weak_bit v Hw).
  - apply wp_store. intros h γ Hg HI. exists (with_ph Out g). split; [|done]. eapply step_enable with (g := with_ph Enabling g); try done. by left.
Qed.

(** ** The driver *)

(** Steps of the owner of the bus on the variables of the driver. *)
Lemma step_own h f γ g g' : γ d = g -> Inv n h γ -> ph g = Owner \/ ph g = Polling -> ph g' = Owner \/ ph g' = Polling ->
  (forall T, inv n T h γ -> bus_ok n T h -> dev_ok T h d g -> bus_ok n T (f h) /\ dev_ok T (f h) d g' /\
     forall e, (e < n)%nat -> e <> d -> unchanged T h T (f h) e) ->
  Inv n (f h) (<[d:=g']> γ).
Proof.
  intros Hg HI0 Hp Hp' Hf. destruct (own_dev h γ g Hg HI0) as (T & HI & D). pose proof (inv_bus _ _ _ _ HI) as B.
  assert (T = Some (ByTask d)) as HT by (apply (dev_tok _ _ _ _ D); by destruct Hp as [-> | ->]).
  destruct (Hf T HI B D) as (B' & D' & U). exists T. apply (inv_step n T h); try done.
  rewrite HT. unfold holder_ok. rewrite fn_lookup_insert. by destruct Hp' as [-> | ->].
Qed.

Lemma wp_own f g g' (Q : unit -> ghost -> Prop) : ph g = Owner \/ ph g = Polling -> ph g' = Owner \/ ph g' = Polling ->
  (forall h T, acq h = Some d -> in_isr (bus h) = false -> (ph g = Owner -> cur_cs h = DEV_NUM_MAX) -> dev_ok T h d g -> bus_ok n T h -> bus_ok n T (f h) /\ dev_ok T (f h) d g' /\
     forall e, (e < n)%nat -> e <> d -> unchanged T h T (f h) e) -> Q tt g' -> task (store f) g Q.
Proof.
  intros Hp Hp' Hf HQ. apply wp_store. intros h γ Hg HI. exists g'. split; [|done]. apply (step_own h f γ g g'); try done.
  intros T HI' B D. assert (T = Some (ByTask d)) as HT by (apply (dev_tok _ _ _ _ D); by destruct Hp as [-> | ->]). apply Hf; [| | |done..].
  - pose proof (dev_ph _ _ _ _ D) as P. destruct Hp as [E|E]; rewrite E in P; apply P.
  - by apply (task_not_in_isr n T h d γ).
  - intros E. apply (task_idle_cs n T h d γ); [done..|]. by rewrite Hg, E.
Qed.

Lemma no_flight h e : in_isr (bus h) = false -> in_flight h e = [].
Proof. unfold in_flight. by intros ->. Qed.

(** Such a step, by cases. *)
Ltac own E := let h := fresh in let T := fresh in let Ha := fresh "Ha" in let B := fresh "B" in let D := fresh "D" in
  let Hi := fresh "Hi" in let Hc := fresh "Hc" in
  intros h T Ha Hi Hc D B; first [specialize (Hc E) | pose proof (dev_polling _ _ _ _ D E); clear Hc]; split; [clear D; bus_fields B|split; [clear B; dev_fields D E|intros e He Hne;
    pose proof (fun Hx => bus_expl _ _ _ B e Hx) as P; keep]]; unfold DEV_NUM_MAX in *; try (intuition (lia || congruence));
  try (rewrite !no_flight in * by done; done).

Lemma wp_set_polling b g Q : ph g = Owner -> Q tt (upd Owner (explicit g) b (sending g) g) -> task (store (set_polling b)) g Q.
Proof. intros E HQ. eapply wp_own; [by left| | |exact HQ]; [by left|]. own E. Qed.

Lemma wp_set_acquiring_lock (b : bool) g Q : ph g = Owner -> Q tt (upd Owner b (pol g) (sending g) g) ->
  task (store (set_acquiring_lock (if b then Some d else None))) g Q.
Proof.
  intros E HQ. eapply wp_own; [by left| | |exact HQ]; [by left|]. destruct b; own E.
Qed.

Lemma wp_set_cur_trans t g Q : ph g = Owner -> Q tt (upd Owner (explicit g) (pol g) (sending g) g) -> task (store (set_cur_trans t)) g Q.
Proof. intros E HQ. eapply wp_own; [by left| | |exact HQ]; [by left|]. own E. Qed.

(** Starting a transaction, and its end. *)
Lemma wp_new_trans t g Q : ph g = Owner -> Q tt (upd Polling (explicit g) (pol g) (sending g) g) -> task (spi_new_trans Task d t) g Q.
Proof.
  intros E HQ. unfold spi_new_trans. apply wp_bindp. apply (wp_own _ g (upd Polling (explicit g) (pol g) (sending g) g)); [by left|by right| |].
  - own E.
  - unfold spi_setup_device, spi_bus_lock_touch. apply wp_bindp, wp_bindp, wp_keep. intros h γ Hg HI. apply wp_bindp, wp_quiet; [by split|].
    apply wp_ret, wp_quiet; [|done]. intros h'. split; try done. intros e. unfold isr_started. cbn. by rewrite omap_app, app_nil_r.
Qed.

Lemma wp_post_trans g Q : ph g = Polling -> Q tt (upd Owner (explicit g) (pol g) (sending g) g) -> task spi_post_trans g Q.
Proof.
  intros E HQ. unfold spi_post_trans. apply wp_bindp, wp_keep. intros h γ Hg HI.
  destruct (own_dev h γ g Hg HI) as (T & _ & D). rewrite (dev_polling _ _ _ _ D E). clear h γ Hg HI T D.
  apply wp_bindp, wp_keep. intros h γ Hg [T HI].
  rewrite (bus_device _ _ _ (inv_bus _ _ _ _ HI) d Hd). apply wp_bindp, wp_ret. eapply wp_own; [by right| | |exact HQ]; [by left|]. own E.
Qed.
(** The transactions that a task has out, after it has got one back, and after
    it has queued one. *)
Definition set_out (l : list trans) (g : ghost) : ghost := MkGhost (ph g) (explicit g) (pol g) (sending g) l (limit g) (returning g).

Lemma get_back h γ g t q : γ d = g -> Inv n h γ -> calling (ph g) -> ret_queue h d = t :: q -> returning g = true ->
  exists l, out g = t :: l /\ Inv n (set_received d (received h d ++ [t]) (set_ret_queue d q h)) (<[d:=set_out l g]> γ).
Proof.
  intros Hg HI0 Hc Eq Hret. destruct (own_dev h γ g Hg HI0) as (T & HI & D). destruct (dev_out _ _ _ _ D Hret) as [Eo Es].
  pose proof (dev_limit _ _ _ _ D Hret) as Hlim. rewrite Eq in Eo. cbn in Eo. exists (q ++ in_flight h d ++ trans_queue h d). split; [done|].
  exists T. pose proof (inv_bus _ _ _ _ HI) as B. apply (inv_step n T h); try done.
  - clear HI HI0 D. by bus_fields B.
  - clear HI HI0 B. destruct D as [D1 D2 D3 D4 D5 D6 D7 D8 D9 D10 D11 D12 D13]. split; try done; cbn; rewrite ?fn_lookup_insert.
    + intros _. split; [done|]. by rewrite Es, Eo, <- app_assoc.
    + intros _. rewrite Eo in Hlim. cbn in Hlim. lia.
  - apply (holder_keep n d T h); try done; [apply HI| |].
    + intros _. cbn. by destruct Hc as [-> |[-> |[-> | ->]]].
    + rewrite Hg. by right.
  - intros e He Hne. by keep.
Qed.

Lemma wp_get_trans_result forever g (Q : esp_err_t * option trans -> ghost -> Prop) : calling (ph g) -> sending g = false ->
  (forall r, fst r <> ESP_OK -> (forever = true -> returning g = false) -> Q r g) ->
  (forall t l, returning g = true -> out g = t :: l -> Q (ESP_OK, Some t) (set_out l g)) -> task (spi_device_get_trans_result d forever) g Q.
Proof.
  intros Hc Hse HQ1 HQ2. unfold spi_device_get_trans_result. apply wp_bindp, wp_keep. intros h γ Hg HI.
  destruct (own_dev h γ g Hg HI) as (T & _ & D). rewrite (dev_config_ok _ _ _ _ D). cbn. clear h γ Hg HI T D.
  destruct (returning g) eqn:Er; cbn [negb]; [|by apply wp_ret, HQ1].
  apply wp_bindp, wp_access. intros h γ Hg HI. destruct (ret_queue h d) as [|t q] eqn:Eq; [destruct forever|].
  - right. rewrite Hg. repeat split; try done. intros t. unfold blocks. cbn. by rewrite fn_lookup_insert.
  - exists g. split; [by apply (same_inv h)|]. by apply wp_ret, HQ1.
  - destruct (get_back h γ g t q Hg HI Hc Eq Er) as (l & El & HI'). exists (set_out l g). split; [done|]. by apply wp_ret, HQ2.
Qed.

Lemma wp_acquire_bus forever g (Q : esp_err_t -> ghost -> Prop) : ph g = Out \/ ph g = Polling -> (ph g = Polling <-> pol g = true) ->
  (ph g = Out -> forever = true -> Q ESP_OK (upd Owner true (pol g) (sending g) g)) -> (forall r, pol g = true \/ forever = false -> Q r g) ->
  task (spi_device_acquire_bus d forever) g Q.
Proof.
  intros Hp Hpo HQ1 HQ2. unfold spi_device_acquire_bus. destruct forever; cbn [negb]; [|apply wp_ret, HQ2; by right].
  apply wp_bindp, wp_is_polling; [tauto|]. destruct (pol g) eqn:E; [apply wp_ret, HQ2; by left|]. destruct Hp as [Hp|Hp]; [|by apply Hpo in Hp].
  apply wp_bindp, wp_acquire_start; [done|]. cbn. apply wp_bindp, (wp_set_acquiring_lock true); [done|]. cbn.
  unfold spi_setup_device, spi_bus_lock_touch. apply wp_bindp, wp_bindp, wp_keep. intros h γ Hg HI. apply wp_bindp, wp_quiet; [by split|].
  apply wp_ret, wp_ret. rewrite E. by apply HQ1.
Qed.

Lemma wp_release_bus g (Q : unit -> ghost -> Prop) : ph g = Owner -> pol g = false ->
  Q tt (upd Out false (pol g) (sending g) g) -> task (spi_device_release_bus d) g Q.
Proof.
  intros Hp Hpo HQ. unfold spi_device_release_bus. apply wp_bindp, wp_is_polling; [tauto|]. rewrite Hpo. cbn.
  apply wp_bindp, (wp_set_acquiring_lock false); [done|]. apply wp_bindp, wp_acquire_end; [done..|]. exact HQ.
Qed.
(** What a task may start a polling transaction with. *)
Definition may_poll (t : trans) (forever : bool) (g : ghost) : bool :=
  forever && (trans_check t =? ESP_OK) && (trans_setup t =? ESP_OK) && (explicit g || negb (cs_keep_active t)).

Lemma wp_polling_start t forever g (Q : esp_err_t -> ghost -> Prop) :
  ph g = Out /\ explicit g = false \/ ph g = Shared /\ explicit g = true -> pol g = false ->
  (may_poll t forever g = true -> Q ESP_OK (upd Polling (explicit g) true (sending g) g)) ->
  (forall r, may_poll t forever g = false -> r <> ESP_OK -> Q r g) -> task (spi_device_polling_start d t forever) g Q.
Proof.
  intros Hp Hpo HQ1 HQ2. unfold spi_device_polling_start, may_poll in *. destruct forever; cbn [negb andb] in *; [|apply wp_ret; by apply HQ2].
  destruct (Z.eqb_spec (trans_check t) ESP_OK); cbn [negb andb] in *; [|apply wp_ret; by apply HQ2].
  assert (forall g', g' = with_ph Owner g -> task (do% store (set_polling true); do% store (set_cur_trans t); do% spi_new_trans Task d t; Ret ESP_OK) g'
    (fun r g'' => r = ESP_OK /\ g'' = upd Polling (explicit g) true (sending g) g)) as Hrest.
  { intros g' ->. apply wp_bindp, wp_set_polling; [done|]. apply wp_bindp, wp_set_cur_trans; [done|]. apply wp_bindp, wp_new_trans; [done|]. by apply wp_ret. }
  apply wp_bindp, wp_is_polling; [tauto|]. rewrite Hpo.
  destruct (Z.eqb_spec (trans_setup t) ESP_OK); cbn [negb andb] in *; [|apply wp_ret; by apply HQ2].
  apply wp_bindp, wp_keep. intros h γ Hg HI. destruct (own_dev h γ g Hg HI) as (T & _ & D). pose proof (dev_expl _ _ _ _ D) as P. clear T D.
  destruct Hp as [[Hp He]|[Hp He]]; rewrite He in *; cbn [orb] in *.
  - rewrite bool_decide_eq_false_2 by (intros E; by apply P in E). cbn. destruct (cs_keep_active t); cbn [negb] in *.
    + apply wp_bindp, wp_ret. apply wp_ret. by apply HQ2.
    + apply wp_bindp, wp_acquire_start; [done|]. cbn. eapply wp_mono; [|by apply Hrest]. intros r g' [-> ->]. by apply HQ1.
  - rewrite bool_decide_eq_true_2 by (by apply P). cbn. apply wp_bindp, wp_wait_bg_done; [done|]. cbn.
    eapply wp_mono; [|by apply Hrest]. intros r g' [-> ->]. by apply HQ1.
Qed.

Lemma wp_polling_end in_time g (Q : esp_err_t -> ghost -> Prop) : ph g = Polling ->
  (in_time = false -> Q ESP_ERR_TIMEOUT g) ->
  (in_time = true -> Q ESP_OK (upd (if explicit g then Owner else Out) (explicit g) false (sending g) g)) ->
  task (spi_device_polling_end d in_time) g Q.
Proof.
  intros Hp HQ1 HQ2. unfold spi_device_polling_end. apply wp_bindp, wp_keep. intros h γ Hg HI.
  destruct (own_dev h γ g Hg HI) as (T & _ & D). rewrite (dev_polling _ _ _ _ D Hp), Nat.eqb_refl. clear h γ Hg HI T D.
  apply wp_bindp, wp_ret, wp_bindp, wp_keep. intros h γ Hg HI. destruct (own_dev h γ g Hg HI) as (T & _ & D).
  pose proof (dev_ph _ _ _ _ D) as P. rewrite Hp in P. destruct P as [P _]. change (acquiring_dev (lock h)) with (acq h).
  rewrite (bool_decide_eq_true_2 _ P). clear h γ Hg HI T D P. apply wp_bindp, wp_ret. destruct in_time; cbn [negb]; [|by apply wp_ret, HQ1].
  apply wp_bindp, wp_post_trans; [done|]. apply wp_bindp, wp_set_polling; [done|]. cbn. apply wp_bindp, wp_keep. intros h γ Hg HI.
  destruct (own_dev h γ _ Hg HI) as (T & _ & D). pose proof (dev_expl _ _ _ _ D) as P. cbn in P. destruct (explicit g) eqn:He.
  - rewrite bool_decide_eq_true_2 by (by apply P). cbn. by apply wp_ret, HQ2.
  - rewrite bool_decide_eq_false_2 by (intros E; by apply P in E). cbn. clear h γ Hg HI T D P. apply wp_bindp, wp_keep. intros h γ Hg HI.
    destruct (own_dev h γ _ Hg HI) as (T & HI' & D). pose proof (dev_expl _ _ _ _ D) as P. cbn in P.
    pose proof (dev_ph _ _ _ _ D) as [Pa _]. assert (device_acquiring_lock h = None) as ->.
    { destruct (device_acquiring_lock h) as [a|] eqn:E; [|done]. apply (bus_expl _ _ _ (inv_bus _ _ _ _ HI')) in E. exfalso. cut (false = true); [done|]. apply P. congruence. }
    clear h γ Hg HI T HI' D P Pa. rewrite bool_decide_eq_true_2 by done. apply wp_bindp, wp_ret, wp_bindp, wp_acquire_end; [done..|]. by apply wp_ret, HQ2.
Qed.
(** A transaction in the queue whose request is not yet made. *)
Definition queued (s : bool) (t : trans) (g : ghost) : ghost := MkGhost (ph g) (explicit g) (pol g) s (out g ++ [t]) (limit g) (returning g).

(** A task that gets results leaves room for them in the queues. *)
Definition has_room (g : ghost) : Prop := returning g = true -> (length (out g) < limit g)%nat.

Lemma send_room T h g : bus_ok n T h -> dev_ok T h d g -> has_room g -> returning g = true -> (length (trans_queue h d) < queue_size (config h d))%nat.
Proof.
  intros B D Hroom Hret. specialize (Hroom Hret). destruct (dev_out _ _ _ _ D Hret) as [E _]. rewrite E, !length_app in Hroom.
  rewrite (dev_config_ok _ _ _ _ D). cbn. lia.
Qed.

Lemma wp_send t forever g (Q : bool -> ghost -> Prop) : ph g = Out \/ ph g = Shared -> sending g = false -> has_room g ->
  Q true (queued true t g) -> (returning g = false -> Q false g) -> task (xQueueSend d t forever) g Q.
Proof.
  intros Hp Hse Hroom HQ1 HQ2. unfold xQueueSend. apply wp_access. intros h γ Hg HI. destruct (own_dev h γ g Hg HI) as (T & HI' & D).
  pose proof (inv_bus _ _ _ _ HI') as B. pose proof (send_room T h g B D Hroom) as Hfree.
  destruct (Nat.ltb_spec (length (trans_queue h d)) (queue_size (config h d))) as [_|Hfull]; [|destruct forever].
  - exists (queued true t g). split; [|done]. exists T. apply (inv_step n T h); try done.
    + clear HI HI' D. by bus_fields B.
    + clear HI HI' B. pose proof (dev_limit _ _ _ _ D) as Hlim.
      destruct Hp as [E|E]; dev_fields D E; unfold isr_started in *; cbn in *; rewrite ?E; try done; try (by rewrite P, app_assoc).
      all: intros Hret; first [destruct (P Hret) as [-> ->]; by rewrite <- !app_assoc|rewrite length_app; cbn; specialize (Hroom Hret); lia].
    + apply (holder_keep n d T h); try done; [apply HI'|intros _; cbn; by destruct Hp as [-> | ->]|]. rewrite Hg. cbn. by destruct Hp as [-> | ->].
    + intros e He Hne. by keep.
  - left. rewrite Hg. pose proof (bus_queues _ _ _ B d Hd) as Hpos.
    assert (bg (st h) d = true) as Eb by (destruct (dev_queue _ _ _ _ D); [intros Eq; rewrite Eq in Hfull; cbn in Hfull; lia|done|congruence]).
    split; [destruct Hp as [E|E]; rewrite E; [done|]; cbn; by rewrite Eb|]. apply (bit_nonzero _ d). by right.
  - exists g. split; [by apply (same_inv h)|]. apply HQ2. destruct (returning g); [|done]. specialize (Hfree eq_refl). lia.
Qed.

(** A transaction for the interrupt, queued by a task that does not hold the bus
    or may have requests at the interrupt. *)
Lemma wp_queue_trans t forever g (Q : esp_err_t -> ghost -> Prop) : ph g = Out \/ ph g = Shared -> sending g = false -> has_room g ->
  (forall r, r <> ESP_OK -> Q r g) -> Q ESP_OK (queued false t g) -> task (spi_device_queue_trans d t forever) g Q.
Proof.
  intros Hp Hs Hroom HQ1 HQ2. unfold spi_device_queue_trans. destruct (Z.eqb_spec (trans_check t) ESP_OK); cbn [negb]; [|by apply wp_ret, HQ1].
  apply wp_bindp, wp_is_polling; [tauto|]. destruct (pol g) eqn:Epo; [by apply wp_ret, HQ1|]. apply wp_bindp, wp_keep. intros h γ Hg HI.
  destruct (_ && _); [by apply wp_ret, HQ1|]. destruct (Z.eqb_spec (trans_setup t) ESP_OK); cbn [negb]; [|by apply wp_ret, HQ1].
  apply wp_bindp, wp_send; [done..| |intros _; by apply wp_ret, HQ1].
  apply wp_bg_request; [done|]. exact HQ2.
Qed.
End spi_task.
