(* ===== verification/SpiIntr.v ===== *)
(** * The interrupt of the SPI master driver

    Run from a state in which the interrupt is the holder of the bus, it never
    crashes, its loop ends, and it leaves a state of the invariant: with the next
    transaction on the bus, or after it has handed the bus to a task. *)

From stdpp Require Import functions.
From S2P Require Import Prelude EspErr Threads BusLock SpiMaster BusLockBits SpiInv SpiStep.

#[local] Arguments Nat.ltb : simpl never.

Section spi_intr.
Context (n : nat) (n_le : (n <= DEV_NUM_MAX)%nat).

(** While the interrupt runs: the invariant of the state it would leave. *)
Definition user (h : spi_host) : option holder := if st h =? 0 then None else Some ByIsr.
Definition at_rest (h : spi_host) : spi_host := set_intr (negb (st h =? 0)) (set_bus (set_in_isr false (bus h)) h).

Record serving (h : spi_host) (γ : nat -> ghost) : Prop := {
  sv_bus : bus_ok n (user h) (at_rest h);
  sv_dev d : (d < n)%nat -> dev_ok (user h) (at_rest h) d (γ d);
  sv_intr : intr_enabled h = false;
  sv_isr : in_isr (bus h) = true
}.

Lemma user_task h e : user h <> Some (ByTask e).
Proof. unfold user. by destruct (_ =? _). Qed.

Section facts.
Context (h : spi_host) (γ : nat -> ghost) (V : serving h γ).

Lemma sv_tok e : (e < n)%nat -> has_token h e (ph (γ e)) = false.
Proof. intros He. apply not_true_iff_false. intros E. by apply (dev_tok _ _ _ _ (sv_dev _ _ V e He)), user_task in E. Qed.

Lemma sv_word : word (st h).
Proof. apply (bus_word _ _ _ (sv_bus _ _ V)). Qed.

Lemma sv_cs : cur_cs h = DEV_NUM_MAX.
Proof.
  destruct (bus_cs _ _ _ (sv_bus _ _ V)) as [E|Hc]; [done|]. cbn in Hc. pose proof (sv_tok _ Hc) as Ht.
  destruct (dev_cs _ _ _ _ (sv_dev _ _ V _ Hc) eq_refl) as [E|E]; [done|]. by rewrite E in Ht.
Qed.

(** A device with its LOCK bit that is not the acquiring device waits. *)
Lemma sv_waits l : (l < 10)%nat -> lk (st h) l = true -> acq h <> Some l -> (l < n)%nat /\ ph (γ l) = Waiting /\ sem h l = false.
Proof.
  intros Hl El Ha. assert (l < n)%nat as Hln by (apply (bus_bits _ _ _ (sv_bus _ _ V)); [done|by apply orb_true_iff; left]). split; [done|].
  pose proof (sv_tok l Hln) as Ht. pose proof (sv_dev _ _ V l Hln) as D. pose proof (dev_lk _ _ _ _ D) as P1. pose proof (dev_ph _ _ _ _ D) as P2.
  change (st (at_rest h)) with (st h) in P1. rewrite El in P1. change (acq h) with (acq (at_rest h)) in Ha.
  destruct (ph (γ l)); cbn in *; try done; destruct P2; congruence.
Qed.

Definition has_bus (p : phase) : Prop := p = Waiting \/ p = Shared \/ p = SharedPrepared \/ p = WaitBg.

Lemma sv_acq a : acq h = Some a -> (a < n)%nat /\ lk (st h) a = true /\ has_bus (ph (γ a)).
Proof.
  intros Ha. assert (a < n)%nat as Han by (by apply (bus_acq _ _ _ (sv_bus _ _ V))). split; [done|].
  pose proof (sv_tok a Han) as Ht. pose proof (sv_dev _ _ V a Han) as D. pose proof (dev_lk _ _ _ _ D) as P1. pose proof (dev_ph _ _ _ _ D) as P2.
  change (st (at_rest h)) with (st h) in P1. rewrite P1. change (acq h) with (acq (at_rest h)) in Ha. unfold has_bus.
  destruct (ph (γ a)); cbn in *; try done; try (destruct P2; congruence); tauto.
Qed.
End facts.

(** ** Entering *)

Lemma enter h γ : Inv n h γ -> intr_enabled h = true -> in_isr (bus h) = false ->
  serving (set_bus (set_in_isr true (bus h)) (set_intr false h)) γ /\ work h.
Proof.
  intros [T HI] Hi Hr. pose proof (inv_bus _ _ _ _ HI) as B. assert (T = Some ByIsr) as -> by (by apply (bus_intr _ _ _ B)).
  assert (st h <> 0) as Hz by (intros E; by apply (bus_none _ _ _ B) in E). split; [|apply (inv_holder _ _ _ _ HI)].
  assert (user (set_bus (set_in_isr true (bus h)) (set_intr false h)) = Some ByIsr) as Eu by (unfold user, st in *; cbn; by rewrite (proj2 (Z.eqb_neq _ _) Hz)).
  assert (at_rest (set_bus (set_in_isr true (bus h)) (set_intr false h)) = h) as Er.
  { unfold at_rest, st in *. cbn. rewrite (proj2 (Z.eqb_neq _ _) Hz). destruct h as [b]. destruct b. cbn in *. by subst. }
  split; rewrite ?Eu, ?Er; try done. apply HI.
Qed.

(** The end of the transaction on the bus, whose result goes to its device. *)
Definition ended (h : spi_host) (rets : nat -> list trans) : spi_host :=
  MkHost (bus h) false DEV_NUM_MAX (cur_trans h) (device_acquiring_lock h) (polling h) (trans_queue h) rets (started h) (sent h) (received h) (config h) (device h).

Definition gives_back (h : spi_host) (γ : nat -> ghost) (rets : nat -> list trans) : Prop :=
  (forall e, e <> cur_cs h -> rets e = ret_queue h e) /\
  (returning (γ (cur_cs h)) = true -> rets (cur_cs h) = ret_queue h (cur_cs h) ++ [cur_trans h]).

Lemma finish h γ rets : Inv n h γ -> intr_enabled h = true -> in_isr (bus h) = true -> gives_back h γ rets ->
  serving (ended h rets) γ /\ work h.
Proof.
  intros [T HI] Hi Hr [Hr1 Hr2]. pose proof (inv_bus _ _ _ _ HI) as B. assert (T = Some ByIsr) as -> by (by apply (bus_intr _ _ _ B)).
  assert (st h <> 0) as Hz by (intros E; by apply (bus_none _ _ _ B) in E). split; [|apply (inv_holder _ _ _ _ HI)].
  assert (user (ended h rets) = Some ByIsr) as Eu by (unfold user, st in *; cbn; by rewrite (proj2 (Z.eqb_neq _ _) Hz)).
  assert (negb (st (ended h rets) =? 0) = true) as En by (unfold st in *; cbn; by rewrite (proj2 (Z.eqb_neq _ _) Hz)).
  split; rewrite ?Eu; unfold at_rest; rewrite ?En; try done.
  - clear HI. by bus_fields B; left.
  - intros e He. pose proof (inv_dev _ _ _ _ HI e He) as D.
    assert (ph (γ e) <> Polling) as Hp by (intros Hp; assert (Some ByIsr = Some (ByTask e)) by (apply (dev_tok _ _ _ _ D); by rewrite Hp); done).
    unfold ended. destruct D as [D1 D2 D3 D4 D5 D6 D7 D8 D9 D10 D11 D12 D13]. split; try done; cbn; try tauto.
    + intros Hret. destruct (D9 Hret) as [E1 E2]. split; [|done]. rewrite E1. unfold in_flight. rewrite Hr. cbn. destruct (Nat.eqb_spec (cur_cs h) e) as [<-|Hne].
      * rewrite Hr2 by done. by rewrite <- app_assoc.
      * by rewrite Hr1 by done.
    + intros E. unfold DEV_NUM_MAX in *. lia.
Qed.

(** ** The loop *)

Section steps.
Context (h : spi_host) (γ : nat -> ghost) (V : serving h γ).

Lemma zero_bits v v' : word v -> word v' -> (forall e, (e < 10)%nat -> lk v' e = lk v e /\ bg v' e = bg v e) -> v' = 0 <-> v = 0.
Proof.
  intros Hv Hv' He. rewrite !word_zero by done. by rewrite (any_ext (bg v') (bg v)), (any_ext (lk v') (lk v)) by (intros; by apply He).
Qed.

(** A new status word with the same LOCK bits and requests. *)
Lemma sv_status v : word v -> (forall e, (e < 10)%nat -> lk v e = lk (st h) e /\ bg v e = bg (st h) e) ->
  serving (set_bus (set_status v (bus h)) h) γ.
Proof.
  intros Hv He. pose proof (zero_bits _ v (sv_word _ _ V) Hv He) as Hz. set (h' := set_bus _ h).
  assert (user h' = user h) as Eu.
  { unfold user, st in *. cbn. destruct (Z.eqb_spec v 0), (Z.eqb_spec (status (bus h)) 0); try done; tauto. }
  assert (negb (v =? 0) = negb (st h =? 0)) as En.
  { f_equal. destruct (Z.eqb_spec v 0), (Z.eqb_spec (st h) 0); try done; tauto. }
  pose proof (sv_bus _ _ V) as B. split; rewrite ?Eu; try apply V.
  - unfold st in *. bus_fields B; rewrite ?En; try done. intros e Hx. destruct (He e Hx) as [-> ->]. by apply P.
  - intros e Hn. pose proof (sv_dev _ _ V e Hn) as D. destruct (He e (n_10 n n_le e Hn)) as [E1 E2].
    eapply dev_ok_same; [|intros Hp|exact D]; [|done]. unfold st in *. keep.
Qed.

(** The device that [schedule_core] chooses. *)
Lemma sv_schedule y desired a act : acq h = None -> any (bg (st h)) = true -> scheduled (st h) y desired a ->
  let h' := set_bus (set_acq_dev_bg_active act (set_acquiring_dev a (bus h))) h in
  serving h' γ /\ work h' /\ y = false /\ exists d, desired = Some d /\ (d < n)%nat /\ bg (st h') d = true /\ (forall x, acq h' = Some x -> x = d).
Proof.
  intros Ha Hb Hs h'.
  assert (forall l, a = Some l -> (l < 10)%nat /\ lk (st h) l = true) as Hl by (destruct Hs; by intros ? [= <-]).
  assert (serving h' γ) as V'.
  { pose proof (sv_bus _ _ V) as B. split; try apply V.
    - pose proof (bus_pol _ _ _ B Ha) as Hpo. pose proof (fun x Hx => bus_expl _ _ _ B x Hx) as Hx. unfold at_rest in *. bus_fields B.
      + intros l E. destruct (Hl l E) as [H1 H2]. eapply (sv_waits h γ V l H1 H2). unfold acq. congruence.
      + intros x E. apply P in E. congruence.
    - intros e Hn. pose proof (sv_dev _ _ V e Hn) as D. destruct (decide (a = Some e)) as [->|Hne].
      + destruct (Hl e eq_refl) as [H1 H2]. destruct (sv_waits h γ V e H1 H2 ltac:(by rewrite Ha)) as (_ & Hw & Hse).
        pose proof (bus_pol _ _ _ B Ha) as Hpo.
        assert (pol (γ e) = false) as Hpl by (apply not_true_iff_false; intros E; apply (dev_pol_ph _ _ _ _ D) in E; rewrite Hw in E; by destruct E).
        unfold at_rest in *. dev_fields D Hw.
      + unfold acq in Ha. eapply dev_ok_same; [|intros _|exact D]; keep. split; congruence. }
  split; [done|].
  assert (forall d, (d < 10)%nat -> bg (st h) d = true -> (d < n)%nat) as Hn by (intros d Hd E; apply (bus_bits _ _ _ (sv_bus _ _ V)); [done|by apply orb_true_iff; right]).
  assert (work h' <-> forall x, a = Some x -> bg (st h) x = true) as Hw by (unfold work; tauto).
  destruct Hs as [E1 E2|d E1 Hd E|l d H1 E1 E2 Hd E|l H1 E1 E2|l H1 E1 E2]; try congruence; rewrite Hw; (split; [|split; [done|]]).
  - done.
  - exists d. repeat split; try done. by apply Hn.
  - done.
  - exists d. repeat split; try done. by apply Hn.
  - by intros x [= <-].
  - exists l. repeat split; try done; [by apply Hn|by intros x [= <-]].
Qed.

Lemma user_isr : st h <> 0 -> user h = Some ByIsr.
Proof. intros Hz. unfold user. by rewrite (proj2 (Z.eqb_neq _ _) Hz). Qed.

(** The next transaction of a device on the bus. *)
Lemma sv_start d t q last : work h -> (d < n)%nat -> (forall x, acq h = Some x -> x = d) -> pd (st h) d = true -> trans_queue h d = t :: q ->
  Inv n (MkHost (set_last_dev last (bus h)) true d t (device_acquiring_lock h) (polling h) (<[d:=q]> (trans_queue h)) (ret_queue h) (started h ++ [(Isr, d, t)]) (sent h) (received h) (config h) (device h)) γ.
Proof.
  intros Hwork Hd Hx Hpd Hq. assert (st h <> 0) as Hz by (intros E; rewrite E in Hpd; unfold pd in Hpd; by rewrite Z.bits_0 in Hpd).
  pose proof (sv_bus _ _ V) as B. rewrite (user_isr Hz) in B. pose proof (sv_cs h γ V) as Hc.
  exists (Some ByIsr). set (h' := MkHost _ _ _ _ _ _ _ _ _ _ _ _ _). split; [|intros e He|exact Hwork].
  - unfold at_rest in B. by bus_fields B.
  - pose proof (sv_dev _ _ V e He) as D. rewrite (user_isr Hz) in D. pose proof (sv_tok h γ V e He) as Ht.
    assert (isr_started h' e = isr_started h e ++ if (d =? e)%nat then [t] else []) as Es.
    { unfold isr_started. cbn. rewrite omap_app. cbn. by destruct (d =? e)%nat. }
    destruct (Nat.eqb_spec d e) as [->|Hne].
    + assert (bg (st h) e = true) as Hb by (unfold bg; by rewrite Hpd, orb_true_r).
      assert (sent h e = isr_started h e ++ t :: q) as Hsent by (pose proof (dev_sent _ _ _ _ D) as P; cbn in P; by rewrite <- Hq).
      unfold at_rest, h' in *. destruct D as [D1 D2 D3 D4 D5 D6 D7 D8 D9 D10 D11 D12 D13]. split; try done; fields; try tauto; try (intuition congruence).
      * unfold isr_started in Es. cbn in Es. by rewrite Es, <- app_assoc.
      * intros Hret. destruct (D9 Hret) as [E1 E2]. split; [|done]. rewrite E1. unfold in_flight. cbn. by rewrite (sv_isr _ _ V), Nat.eqb_refl, Hq.
      * intros _. left. by apply (sv_isr _ _ V).
    + rewrite app_nil_r in Es. unfold at_rest, h' in *. eapply dev_ok_same; [| |exact D]; [|done]; keep.
      * unfold in_flight. cbn. by rewrite (proj2 (Nat.eqb_neq d e) Hne), andb_false_r.
      * unfold DEV_NUM_MAX in *. intros E. lia.
Qed.

(** Handing the bus to device [a]. *)
Lemma sv_resume a v b : (a < n)%nat -> acq h = Some a \/ acq h = None /\ lk (st h) a = true ->
  word v -> (forall e, (e < 10)%nat -> lk v e = lk (st h) e /\ (e <> a -> bg v e = bg (st h) e)) -> bg v a = false -> (trans_queue h a <> [] -> sending (γ a) = true) ->
  Inv n (set_bus (MkLock v (Some a) b false (dev (bus h)) (last_dev (bus h)) (periph_cs_num (bus h)) (<[a:=true]> (semphr (bus h)))) h) γ.
Proof.
  intros Ha Hacq Hv He Hba Hq. pose proof (n_10 n n_le a Ha) as H10.
  assert (lk (st h) a = true /\ has_bus (ph (γ a))) as [Hl Hp].
  { destruct Hacq as [E|[E Hl]]; [by eapply sv_acq|]. split; [done|]. left. eapply (sv_waits h γ V); [done..|by rewrite E]. }
  assert (v <> 0) as Hz by (apply (bit_nonzero v a); left; by rewrite (proj1 (He a H10))).
  pose proof (sv_bus _ _ V) as B. exists (Some (ByTask a)). pose proof (sv_intr _ _ V) as Hi.
  set (h' := set_bus _ h). split; [|intros e Hn|].
  - unfold at_rest, h', st in *. bus_fields B.
    + intros e Hx. destruct (decide (e = a)) as [->|Hne]; [done|]. destruct (He e Hx) as [-> E]. rewrite E by done. by apply P.
    + intros x E. apply P in E. destruct Hacq as [Hacq|[Hacq _]]; unfold acq in *; congruence.
  - pose proof (sv_dev _ _ V e Hn) as D. pose proof (sv_tok h γ V e Hn) as Ht. destruct (He e (n_10 n n_le e Hn)) as [E1 E2]. destruct (decide (e = a)) as [->|Hne].
    + assert (polling h = pol (γ a)) as Hpo.
      { destruct Hacq as [E|[E _]]; [by apply (dev_pol _ _ _ _ D)|]. pose proof (bus_pol _ _ _ B E) as P. cbn in P. rewrite P. symmetry.
        apply not_true_iff_false. intros Hx. apply (dev_pol_ph _ _ _ _ D) in Hx. destruct Hx as [Hx|Hx], Hp as [Hp|[Hp|[Hp|Hp]]]; congruence. }
      unfold at_rest, h', acq, st in *. destruct D as [D1 D2 D3 D4 D5 D6 D7 D8 D9 D10 D11 D12 D13]. split; try done; fields; try tauto; try (intuition congruence).
      all: destruct Hp as [-> |[-> |[-> | ->]]]; cbn; unfold st, sem; cbn; rewrite ?fn_lookup_insert, ?Hba; try done; tauto.
    + specialize (E2 Hne). unfold at_rest, h', acq, st in *. eapply dev_ok_same; [| |exact D]; [|done]; keep.
      * destruct Hacq as [->|[-> _]]; split; congruence.
      * split; [congruence|intros E; by apply user_task in E].
  - unfold holder_ok. by destruct Hp as [-> |[-> |[-> | ->]]].
Qed.

(** The requests of a device are done. *)
Lemma sv_clear d v : acq h = None -> (d < n)%nat -> trans_queue h d = [] -> word v -> bg v d = false ->
  (forall e, (e < 10)%nat -> lk v e = lk (st h) e /\ (e <> d -> bg v e = bg (st h) e)) -> serving (set_bus (set_status v (bus h)) h) γ.
Proof.
  intros Ha Hd Hq Hv Hb He. set (h' := set_bus _ h). pose proof (sv_bus _ _ V) as B. pose proof (n_10 n n_le) as H10.
  assert (user h' = None <-> v = 0) as Hu by (unfold user, st; cbn; destruct (Z.eqb_spec v 0); done).
  assert (user h' = Some ByIsr <-> v <> 0) as Hu' by (unfold user, st; cbn; destruct (Z.eqb_spec v 0); done).
  split; [|intros e Hn|apply V..].
  - unfold at_rest, h', st in *. bus_fields B.
    + rewrite negb_true_iff, Z.eqb_neq. by rewrite Hu'.
    + intros e Hx. destruct (He e Hx) as [-> E]. destruct (decide (e = d)) as [->|Hne]; [done|]. rewrite E by done. by apply P.
  - pose proof (sv_dev _ _ V e Hn) as D. pose proof (sv_tok h γ V e Hn) as Ht. destruct (He e (H10 e Hn)) as [E1 E2].
    pose proof (user_task h e) as U1. pose proof (user_task h' e) as U2. destruct (decide (e = d)) as [->|Hne].
    + assert (ph (γ d) = Out \/ ph (γ d) = Prepared \/ ph (γ d) = Waiting) as Hp.
      { pose proof (dev_ph _ _ _ _ D) as P. clear D B Hu Hu' U1 U2. unfold acq, at_rest in *. destruct (ph (γ d)); cbn in *; try done; try tauto; exfalso; intuition congruence. }
      unfold at_rest, h', acq, st in *. destruct Hp as [Hp|[Hp|Hp]]; dev_fields D Hp.
    + specialize (E2 Hne). unfold at_rest, h', acq, st in *. eapply dev_ok_same; [| |exact D]; [|done]; keep.
Qed.

(** Nothing left to do. *)
Lemma sv_nothing b : acq h = None -> any (bg (st h)) = false -> any (lk (st h)) = false ->
  Inv n (set_bus (MkLock (status (bus h)) None b false (dev (bus h)) (last_dev (bus h)) (periph_cs_num (bus h)) (semphr (bus h))) h) γ.
Proof.
  intros Ha Hb Hl. assert (st h = 0) as Hz by (apply word_zero; [by eapply sv_word|done]).
  assert (user h = None) as Eu by (unfold user; by rewrite Hz). pose proof (sv_bus _ _ V) as B. rewrite Eu in B. pose proof (sv_intr _ _ V) as Hi.
  exists None. split; [|intros e Hn|done].
  - unfold at_rest, acq, st in *. bus_fields B. intros x E. apply P in E. congruence.
  - pose proof (sv_dev _ _ V e Hn) as D. rewrite Eu in D. unfold at_rest, acq, st in *. eapply dev_ok_same; [| |exact D]; [|done]; keep. rewrite Ha. split; congruence.
Qed.
End steps.

(** The flag [acq_dev_bg_active] is not read in the model. *)
Lemma sv_active h γ b : serving h γ -> serving (set_bus (set_acq_dev_bg_active b (bus h)) h) γ.
Proof. intros [B D H1 H2]. split; [|intros d Hd; specialize (D d Hd)|done..]; unfold user, at_rest in *; [destruct B|destruct D]; by split. Qed.

(** ** The code *)

Lemma set_status_same h : set_bus (set_status (status (bus h)) (bus h)) h = h.
Proof. destruct h as [[] ]. done. Qed.

(** A new status word. *)
Definition with_st (v : Z) (h : spi_host) : spi_host := set_bus (set_status v (bus h)) h.

Lemma run_check_req h d : word (st h) -> (d < 10)%nat -> bg (st h) d = true ->
  exists v, run (spi_bus_lock_bg_check_dev_req (H:=spi_bus_client) d) h = Next (with_st v h, true) /\
    word v /\ (forall e, (e < 10)%nat -> lk v e = lk (st h) e /\ bg v e = bg (st h) e) /\ rq v d = false /\ pd v d = true.
Proof.
  intros Hv Hd Hb. unfold spi_bus_lock_bg_check_dev_req. cbn. change (status (bus h)) with (st h). cbv zeta.
  rewrite land_dev_req, land_dev_pend, negb_involutive by done. unfold bg in Hb. destruct (rq (st h) d) eqn:Er; cbn.
  - fold (active_req (st h)). change (status (bus h)) with (st h). exists (pended (st h)). split; [reflexivity|]. split; [by apply pended_word|].
    split; [intros e He; by rewrite lk_pended, bg_pended|]. rewrite rq_pended, pd_pended by done. unfold bg. by rewrite Er.
  - exists (st h). unfold with_st, st. rewrite set_status_same. cbn in Hb. unfold st in *. by rewrite Hb.
Qed.

Definition cleared_pend (h : spi_host) (d : nat) : Z := Z.land (st h) (u32 (Z.lnot (DEV_PEND_MASK d))).

Lemma cleared_pend_bits h d : word (st h) -> (d < 10)%nat -> rq (st h) d = false ->
  word (cleared_pend h d) /\ bg (cleared_pend h d) d = false /\
  forall e, (e < 10)%nat -> lk (cleared_pend h d) e = lk (st h) e /\ (e <> d -> bg (cleared_pend h d) e = bg (st h) e).
Proof.
  intros Hv Hd Hr. unfold cleared_pend. split; [by apply word_clear|]. split.
  - unfold bg. by rewrite rq_clear_pend, Hr, pd_clear_pend, Nat.eqb_refl, andb_false_r.
  - intros e He. split; [by apply lk_clear_pend|]. intros Hne. unfold bg. rewrite rq_clear_pend, pd_clear_pend by done.
    by rewrite (proj2 (Nat.eqb_neq e d) Hne), andb_true_r.
Qed.

Lemma run_clear_req h d : (d < 10)%nat -> rq (st h) d = false ->
  exists b r, run (spi_bus_lock_bg_clear_req (H:=spi_bus_client) d) h = Next (set_bus (set_acq_dev_bg_active b (set_status (cleared_pend h d) (bus h))) h, r).
Proof.
  intros Hd Hr. unfold spi_bus_lock_bg_clear_req, clear_pend_core, lock_status_clear. cbn. change (status (bus h)) with (st h). fold (cleared_pend h d).
  destruct (bool_decide _); cbn.
  - rewrite land_req by done. unfold cleared_pend at 1. rewrite rq_clear_pend, Hr by done. cbn. eauto.
  - exists (acq_dev_bg_active (bus h)). eexists. destruct h as [[] ]. reflexivity.
Qed.

(** The device to serve. *)
Lemma run_choose h γ : serving h γ -> work h ->
  exists h1 d, run (let% acq_dev_lock := spi_bus_lock_get_acquiring_dev (H:=spi_bus_client) in
      match acq_dev_lock with None => spi_bus_lock_bg_check_dev_acq | Some _ => Ret (false, acq_dev_lock) end) h = Next (h1, (false, Some d)) /\
    serving h1 γ /\ work h1 /\ (d < n)%nat /\ bg (st h1) d = true /\ (forall x, acq h1 = Some x -> x = d) /\ st h1 = st h /\ (acq h <> None -> h1 = h).
Proof.
  intros V W. rewrite run_bindp. cbn. change (acquiring_dev (bus h)) with (acq h). destruct (acq h) as [a|] eqn:Ea; cbn.
  - destruct W as [_ W]. exists h, a. split; [done|]. split; [done|]. split; [split; [|done]|].
    + apply any_true. exists a. split; [|by apply W]. by apply (n_10 n n_le), (sv_acq h γ V).
    + repeat split; [by apply (sv_acq h γ V)|by apply W|congruence].
  - destruct (run_schedule (H:=spi_bus_client) (fun l s => eq_refl) (fun l l' s => eq_refl) (st h) h (sv_word h γ V)) as (y & des & a & act & E & Hsch).
    { intros e He Hb. pose proof (sv_bus _ _ V) as B. apply (bus_reg _ _ _ B). by apply (bus_bits _ _ _ B). }
    change (status (bus h)) with (st h). rewrite E. destruct (sv_schedule h γ V y des a act Ea (proj1 W) Hsch) as (V' & W' & -> & d & -> & Hd & Hb & Hx).
    eexists _, d. split; [done|]. do 5 (split; [done|]). split; [done|]. congruence.
Qed.

(** Giving the bus to the device, or to a task. *)
Lemma run_exit_held h d : acq h = Some d -> (d < 10)%nat -> bg (st h) d = false ->
  run (spi_bus_lock_bg_exit (H:=spi_bus_client) false) h = Next (set_bus (set_in_isr false (set_semphr d true (bus h))) h, true).
Proof.
  intros Ha Hd Hb. unfold spi_bus_lock_bg_exit, bg_exit_core, acquiring. cbn. change (acquiring_dev (bus h)) with (acq h). rewrite Ha. cbn.
  change (acquiring_dev (bus h)) with (acq h). rewrite Ha. cbn. change (status (bus h)) with (st h). rewrite land_bg, Hb by done. cbn.
  change (acquiring_dev (bus h)) with (acq h). rewrite Ha. reflexivity.
Qed.

Lemma run_exit_free h γ : serving h γ -> acq h = None -> exists h' exit,
  run (spi_bus_lock_bg_exit (H:=spi_bus_client) false) h = Next (h', exit) /\ started h' = started h /\ if exit then Inv n h' γ else h' = h /\ work h.
Proof.
  intros V Ha. pose proof (sv_word h γ V) as Hw. unfold spi_bus_lock_bg_exit, bg_exit_core, acquiring. cbn. change (acquiring_dev (bus h)) with (acq h).
  rewrite Ha. cbn. change (status (bus h)) with (st h). rewrite land_any_bg, negb_involutive by done. destruct (any (bg (st h))) eqn:Eb; cbn.
  - exists h, false. split; [done|]. split; [done|]. split; [done|]. split; [done|]. congruence.
  - rewrite land_any_lock, negb_involutive by done. destruct (any (lk (st h))) eqn:El; cbn.
    + rewrite !run_bindp.
      destruct (run_schedule (H:=spi_bus_client) (fun l s => eq_refl) (fun l l' s => eq_refl) (st h) h Hw) as (y & des & a & act & E & Hsch).
      { intros e He Hb. pose proof (sv_bus _ _ V) as B. apply (bus_reg _ _ _ B). by apply (bus_bits _ _ _ B). }
      rewrite E. assert (exists l, a = Some l /\ (l < 10)%nat /\ lk (st h) l = true) as (l & -> & Hl & E2).
      { assert (forall x, (x < 10)%nat -> bg (st h) x <> true) as Hno by (intros x Hx; by rewrite (any_false _ x Eb Hx)).
        destruct Hsch as [? _|? ? _ _|? x _ _ _ Hx ?|l ? ? _|l ? _ ?]; try congruence; [by apply Hno in Hx|by exists l|by exfalso; eapply Hno]. }
      cbn. do 2 eexists. split; [reflexivity|]. split; [reflexivity|]. cbn. pose proof (bus_bits _ _ _ (sv_bus _ _ V) l Hl) as Hln. cbn in Hln.
      assert (l < n)%nat by (apply Hln; change (st (at_rest h)) with (st h); unfold st in *; cbn; by rewrite E2).
      apply (sv_resume h γ V l (st h) act); try done; [by right| |].
      * by apply (any_false (bg (st h))).
      * intros Hq. destruct (dev_queue _ _ _ _ (sv_dev _ _ V l ltac:(done)) Hq) as [E3|E3]; [|done].
        change (st (at_rest h)) with (st h) in E3. by rewrite (any_false _ l Eb Hl) in E3.
    + do 2 eexists. split; [reflexivity|]. split; [reflexivity|]. cbn. apply (sv_nothing h γ V (acq_dev_bg_active (bus h))) in El; try done. unfold acq in Ha. rewrite <- Ha in El. exact El.
Qed.

(** Serving the device: its next transaction, or the end of its requests. *)
Definition serve (d : nat) : prog spi_host bool :=
  let% dev_has_req := spi_bus_lock_bg_check_dev_req d in
  if (dev_has_req : bool) then
    let% device_to_send := load (fun h => device h d) in
    do% asserted device_to_send;
    let% found := trans_queue_receive_from_isr d in
    match found with
    | None => let% _ := spi_bus_lock_bg_clear_req d in Ret false
    | Some t => do% spi_new_trans Isr d t; Ret true
    end
  else Ret false.

(** One iteration of the loop from the device on. *)
Lemma run_round h γ d : serving h γ -> work h -> (d < n)%nat -> bg (st h) d = true -> (forall x, acq h = Some x -> x = d) ->
  exists h' exit, run (bindp (serve d) spi_bus_lock_bg_exit) h = Next (h', exit) /\
    (started h' = started h \/ exists t, started h' = started h ++ [(Isr, d, t)]) /\
    if exit then Inv n h' γ
    else serving h' γ /\ work h' /\ acq h = None /\ bg (st h') d = false /\ forall e, (e < 10)%nat -> e <> d -> bg (st h') e = bg (st h) e.
Proof.
  intros V W Hd Hb Hx. pose proof (n_10 n n_le d Hd) as H10. rewrite run_bindp. unfold serve. rewrite run_bindp.
  destruct (run_check_req h d (sv_word h γ V) H10 Hb) as (v & -> & Hv & He & Hr & Hpd).
  assert (serving (with_st v h) γ) as V' by (by apply sv_status).
  assert (work (with_st v h)) as W'.
  { split; [by rewrite (any_ext _ (bg (st h))); [apply W|intros; apply He]|]. intros a Ha. cbn.
    rewrite (proj2 (He a ltac:(apply (n_10 n n_le), (sv_acq h γ V); exact Ha))). by apply W. }
  cbn [then_]. rewrite run_bindp. change (run (load _) (with_st v h)) with (Next (with_st v h, device h d)). cbn [then_].
  rewrite (bus_device _ _ _ (sv_bus _ _ V) d Hd : device h d = true). cbn [asserted bindp]. rewrite run_bindp.
  assert (run (trans_queue_receive_from_isr d) (with_st v h) = match trans_queue h d with
    | t :: q => Next (set_cur_trans t (set_trans_queue d q (with_st v h)), Some t) | [] => Next (with_st v h, None) end) as -> by (cbn; by destruct (trans_queue h d)).
  destruct (trans_queue h d) as [|t q] eqn:Eq; cbn [then_].
  - rewrite run_bindp. destruct (run_clear_req (with_st v h) d H10 Hr) as (b & r & ->). cbn [then_ run].
    destruct (cleared_pend_bits (with_st v h) d Hv H10 Hr) as (Hw2 & Hb2 & He2). set (v2 := cleared_pend (with_st v h) d) in *.
    destruct (acq h) as [a|] eqn:Ea.
    + assert (a = d) as -> by (by apply Hx). rewrite (run_exit_held _ d) by done. do 2 eexists. split; [reflexivity|]. split; [by left|]. cbn.
      assert (Inv n (set_bus (MkLock v2 (Some d) b false (dev (bus h)) (last_dev (bus h)) (periph_cs_num (bus h)) (<[d:=true]> (semphr (bus h)))) (with_st v h)) γ) as HI.
      { apply (sv_resume _ γ V' d v2 b); try done; by left. }
      unfold acq in Ea. rewrite <- Ea in HI. exact HI.
    + assert (serving (with_st v2 (with_st v h)) γ) as V2 by (by apply (sv_clear _ γ V' d v2)).
      set (h2 := set_bus _ (with_st v h)).
      assert (serving h2 γ) as V3 by exact (sv_active _ γ b V2).
      destruct (run_exit_free h2 γ V3 Ea) as (h' & exit & -> & Es & He3). exists h', exit. split; [done|]. split; [by left|]. destruct exit; [done|]. destruct He3 as [-> W2].
      split; [done|]. split; [done|]. split; [done|]. split; [done|]. intros e He10 Hne. rewrite <- (proj2 (He e He10)). by apply He2.
  - do 2 eexists. split; [reflexivity|]. split; [right; by exists t|]. cbn. exact (sv_start _ γ V' d t q (Some d) W' Hd Hx Hpd Eq).
Qed.

(** ** Termination

    An iteration that does not leave the loop ends the requests of a device. *)

Definition busy (v : Z) : nat := length (List.filter (bg v) (seq 0 10)).

Lemma filter_le (f g : nat -> bool) l : (forall x, x ∈ l -> g x = true -> f x = true) -> (length (List.filter g l) <= length (List.filter f l))%nat.
Proof.
  induction l as [|x l IH]; intros H; [done|]. cbn. pose proof (H x ltac:(left)) as Hx. specialize (IH ltac:(intros y Hy; apply H; by right)).
  destruct (g x); [rewrite Hx by done; cbn; lia|]. destruct (f x); cbn; lia.
Qed.

Lemma filter_lt (f g : nat -> bool) l d : d ∈ l -> f d = true -> g d = false -> (forall x, x ∈ l -> g x = true -> f x = true) ->
  (length (List.filter g l) < length (List.filter f l))%nat.
Proof.
  intros Hd Hf Hg H. induction l as [|x l IH]; [by apply elem_of_nil in Hd|]. cbn. apply elem_of_cons in Hd as [<-|Hd].
  - rewrite Hf, Hg. cbn. apply Nat.lt_succ_r, filter_le. intros y Hy. apply H. by right.
  - pose proof (H x ltac:(left)) as Hx. specialize (IH Hd ltac:(intros y Hy; apply H; by right)).
    destruct (g x); [rewrite Hx by done; cbn; lia|]. destruct (f x); cbn; lia.
Qed.

Lemma busy_clear v v' d : (d < 10)%nat -> bg v d = true -> bg v' d = false -> (forall e, (e < 10)%nat -> e <> d -> bg v' e = bg v e) -> (busy v' < busy v)%nat.
Proof.
  intros Hd E E' Hs. apply (filter_lt _ _ _ d); [apply elem_of_seq; lia|done..|]. intros x Hx Ex. apply elem_of_seq in Hx.
  destruct (decide (x = d)) as [->|Hne]; [done|]. by rewrite <- (Hs x ltac:(lia) Hne).
Qed.

Lemma busy_bound h γ : serving h γ -> (busy (st h) <= DEV_NUM_MAX)%nat.
Proof.
  intros V. unfold busy. change 10%nat with (DEV_NUM_MAX + 4)%nat. rewrite seq_app, List.filter_app, length_app.
  assert (forall l, (forall x, x ∈ l -> (DEV_NUM_MAX <= x < 10)%nat) -> List.filter (bg (st h)) l = []) as Hz.
  { induction l as [|x l IH]; intros Hl; [done|]. cbn. specialize (Hl x ltac:(left)) as Hx. rewrite IH by (intros; apply Hl; by right).
    destruct (bg (st h) x) eqn:E; [|done]. assert (x < n)%nat; [|lia]. apply (bus_bits _ _ _ (sv_bus _ _ V)); [lia|]. by apply orb_true_iff; right. }
  rewrite (Hz (seq (0 + DEV_NUM_MAX) 4)) by (intros x Hx; apply elem_of_seq in Hx; unfold DEV_NUM_MAX in *; lia). cbn [length].
  pose proof (List.filter_length_le (bg (st h)) (seq 0 DEV_NUM_MAX)) as H. rewrite length_seq in H. lia.
Qed.

(** If a device is acquiring, only its transactions are started. *)
Definition alone (h h' : spi_host) : Prop :=
  forall a, acq h = Some a -> started h' = started h \/ exists t, started h' = started h ++ [(Isr, a, t)].

Lemma run_intr_loop k h γ : serving h γ -> work h -> (busy (st h) <= k)%nat ->
  exists h', run (intr_loop (S k)) h = Next (h', tt) /\ Inv n h' γ /\ alone h h'.
Proof.
  revert h. induction k as [|k IH]; intros h V W Hk; destruct (run_choose h γ V W) as (h1 & d & E & V1 & W1 & Hd & Hb & Hx & Es & Ea);
    cbn [intr_loop]; rewrite run_assoc, E; cbn [then_]; rewrite run_assoc; fold (serve d);
    destruct (run_round h1 γ d V1 W1 Hd Hb Hx) as (h2 & exit & -> & Hs & H2); cbn [then_];
    (destruct exit;
      [exists h2; split; [done|]; split; [done|]; intros a Hah; rewrite Ea in * by congruence; by rewrite (Hx a Hah)|]);
    destruct H2 as (V2 & W2 & Ha1 & Hb2 & He2); assert (busy (st h2) < busy (st h))%nat as Hlt by (rewrite <- Es; by apply (busy_clear _ _ d); [apply (n_10 n n_le)|..]).
  - lia.
  - destruct (IH h2 V2 W2 ltac:(lia)) as (h' & E' & HI & _). exists h'. split; [done|]. split; [done|]. intros a Hah. rewrite Ea in Ha1; congruence.
Qed.

Lemma run_serving h γ : serving h γ -> work h ->
  exists h', run (let% cs := load cur_cs in do% asserted (cs =? DEV_NUM_MAX)%nat; intr_loop intr_rounds) h = Next (h', tt) /\ Inv n h' γ /\ alone h h'.
Proof.
  intros V W. cbn [bindp run load access then_]. rewrite (sv_cs h γ V). cbn [bindp asserted Nat.eqb].
  change intr_rounds with (S DEV_NUM_MAX). apply run_intr_loop; [done|done|by eapply busy_bound].
Qed.

(** The transaction on the bus has ended. *)
Definition finished : prog spi_host unit :=
  let% cs := load cur_cs in
  do% asserted (negb (cs =? DEV_NUM_MAX)%nat);
  do% spi_post_trans;
  let% no_result := load (fun h => no_return_result (config h cs)) in
  whenp (negb no_result) (ret_queue_send_from_isr cs).

(** There is room for the result. *)
Lemma result_room h γ T : inv n T h γ -> in_isr (bus h) = true -> (cur_cs h < n)%nat -> returning (γ (cur_cs h)) = true ->
  (length (ret_queue h (cur_cs h)) < queue_size (config h (cur_cs h)))%nat.
Proof.
  intros HI Hr Hcs Hret. pose proof (inv_dev _ _ _ _ HI _ Hcs) as D. destruct (dev_out _ _ _ _ D Hret) as [E _]. pose proof (dev_limit _ _ _ _ D Hret) as Hlim.
  rewrite (dev_config_ok _ _ _ _ D). cbn. rewrite E in Hlim. unfold in_flight in Hlim. rewrite Hr, Nat.eqb_refl, !length_app in Hlim. cbn in Hlim. lia.
Qed.

Lemma run_finished h γ : Inv n h γ -> intr_enabled h = true -> in_isr (bus h) = true ->
  exists h', run finished (set_bus (set_in_isr true (bus h)) (set_intr false h)) = Next (h', tt) /\ serving h' γ /\ work h' /\ acq h' = acq h /\ started h' = started h.
Proof.
  intros HI Hi Hr. assert (set_in_isr true (bus h) = bus h) as -> by (destruct (bus h); cbn in *; by subst).
  assert (exists rets, run finished (set_bus (bus h) (set_intr false h)) = Next (ended h rets, tt) /\ gives_back h γ rets) as (rets & E & Hg).
  { destruct HI as [T HI]. pose proof (inv_bus _ _ _ _ HI) as B. destruct (bus_isr _ _ _ B Hr) as (_ & Hcs & _). pose proof (bus_device _ _ _ B _ Hcs) as Hreg. pose proof (dev_config_ok _ _ _ _ (inv_dev _ _ _ _ HI _ Hcs)) as Ec. pose proof (result_room h γ T HI Hr Hcs) as Hroom.
    unfold finished. cbn. rewrite (proj2 (Nat.eqb_neq (cur_cs h) DEV_NUM_MAX)) by lia. cbn. rewrite Hreg. cbn. rewrite Ec in *. cbn in *.
    destruct (returning (γ (cur_cs h))) eqn:Eret; cbn.
    - rewrite Ec. cbn. specialize (Hroom eq_refl). destruct (Nat.ltb_spec (length (ret_queue h (cur_cs h))) (limit (γ (cur_cs h)))); [|lia].
      eexists. split; [reflexivity|]. split; [intros e He; by rewrite fn_lookup_insert_ne|intros _; by rewrite fn_lookup_insert].
    - exists (ret_queue h). split; [reflexivity|]. split; [done|]. congruence. }
  exists (ended h rets). split; [done|]. destruct (finish h γ rets HI Hi Hr Hg) as [V W]. done.
Qed.

(** The handler. *)
Lemma run_spi_intr h γ : Inv n h γ -> intr_enabled h = true -> exists h', run spi_intr h = Next (h', tt) /\ Inv n h' γ /\ alone h h'.
Proof.
  intros HI Hi. unfold spi_intr. rewrite run_bindp.
  assert (run (spi_bus_lock_bg_entry (H:=spi_bus_client)) h = Next (set_bus (set_in_isr true (bus h)) (set_intr false h), negb (in_isr (bus h)))) as ->.
  { cbn. destruct (in_isr (bus h)) eqn:E; [|done]. cbn. destruct h as [[]]. cbn in *. by subst. }
  cbn [then_]. destruct (in_isr (bus h)) eqn:Er; cbn [negb whenp].
  - fold finished. rewrite run_bindp. destruct (run_finished h γ HI Hi Er) as (h' & -> & V & W & Ea & Es).
    destruct (run_serving h' γ V W) as (h2 & E & HI2 & Hal). exists h2. split; [done|]. split; [done|]. unfold alone. by rewrite <- Ea, <- Es.
  - destruct (enter h γ HI Hi Er) as [V W]. cbn [bindp]. exact (run_serving _ γ V W).
Qed.
End spi_intr.
