(* ===== verification/SpiBus.v ===== *)
(** * Sharing an SPI bus

    The tasks that use the devices of a bus, with the interrupt: what a task may
    call when ([legal]), and the properties of every interleaving of their steps
    on one core. *)

From stdpp Require Import functions.
From S2P Require Import Prelude EspErr Threads BusLock SpiMaster BusLockBits SpiInv SpiStep SpiTask SpiIntr.

(** The functions of the driver as a task calls them. *)
Inductive call :=
  | QueueTrans (t : trans) (forever : bool)
  | GetTransResult (forever : bool)
  | AcquireBus (forever : bool)
  | ReleaseBus
  | PollingStart (t : trans) (forever : bool)
  | PollingEnd (in_time : bool)
  | PollingTransmit (t : trans)
  | Transmit (t : trans).

(** A task and its device: whether it has acquired the bus, whether a polling
    transaction is on the bus, and, with the bus acquired, whether none of its
    queued transactions is left at the interrupt.  [pending] bounds the
    transactions queued whose results the task has not got, [cap] is the length of
    its queues and [results] whether it gets results at all. *)
Record client := MkClient { holding : bool; in_poll : bool; settled : bool; pending : nat; cap : nat; results : bool }.

Definition at_bus (h p s : bool) (k : client) : client := MkClient h p s (pending k) (cap k) (results k).
Definition with_pending (m : nat) (k : client) : client := MkClient (holding k) (in_poll k) (settled k) m (cap k) (results k).

Definition room (k : client) : bool := negb (results k) || (pending k <? cap k)%nat.

(** A task leaves room for its results in the queue, and transmits when it has got
    them all.  It acquires the bus once, releases it after a polling transaction
    if it has queued others, and ends the polling transactions it has started. *)
Definition legal (k : client) (c : call) : bool :=
  match c with
  | QueueTrans _ _ => room k
  | Transmit _ => room k && (negb (results k) || (pending k =? 0)%nat)
  | GetTransResult _ | PollingStart _ _ | PollingTransmit _ => true
  | AcquireBus _ => negb (holding k)
  | ReleaseBus => holding k && negb (in_poll k) && settled k
  | PollingEnd _ => in_poll k
  end.

(** Whether a polling transaction starts. *)
Definition starts (k : client) (t : trans) (forever : bool) : bool :=
  negb (in_poll k) && (forever && (trans_check t =? ESP_OK) && (trans_setup t =? ESP_OK) && (holding k || negb (cs_keep_active t))).

Definition unsettled (k : client) : client := if holding k && negb (in_poll k) then at_bus true false false k else k.

Definition next_client (k : client) (c : call) : client :=
  match c with
  | QueueTrans _ _ => with_pending (S (pending k)) (unsettled k)
  | Transmit _ => unsettled k
  | GetTransResult forever => if forever && results k then with_pending (pred (pending k)) k else k
  | AcquireBus forever => if forever && negb (in_poll k) then at_bus true false true k else k
  | ReleaseBus => at_bus false false true k
  | PollingStart t forever => if starts k t forever then at_bus (holding k) true true k else k
  | PollingEnd in_time => if in_time then at_bus (holding k) false true k else k
  | PollingTransmit t => if starts k t true then at_bus (holding k) false true k else k
  end.

Definition code (d : nat) (c : call) : prog spi_host unit :=
  match c with
  | QueueTrans t forever => let% _ := spi_device_queue_trans d t forever in Ret tt
  | GetTransResult forever => let% _ := spi_device_get_trans_result d forever in Ret tt
  | AcquireBus forever => let% _ := spi_device_acquire_bus d forever in Ret tt
  | ReleaseBus => spi_device_release_bus d
  | PollingStart t forever => let% _ := spi_device_polling_start d t forever in Ret tt
  | PollingEnd in_time => let% _ := spi_device_polling_end d in_time in Ret tt
  | PollingTransmit t => let% _ := spi_device_polling_transmit d t in Ret tt
  | Transmit t => let% _ := spi_device_transmit d t in Ret tt
  end.

Abbreviation bus_exec one_core n := (exec one_core intr_enabled spi_intr legal next_client code n).
Abbreviation bus_reachable n := (reachable true intr_enabled spi_intr legal next_client code n).

(** Devices [0] to [n - 1] on a bus that nobody uses yet. *)
Definition idle_bus (n : nat) (h : spi_host) : Prop :=
  (n <= DEV_NUM_MAX)%nat /\ (forall d, (d < n)%nat -> registered (bus h) d /\ device h d = true /\ (0 < queue_size (config h d))%nat) /\
  status (bus h) = 0 /\ acquiring_dev (bus h) = None /\ in_isr (bus h) = false /\
  intr_enabled h = false /\ cur_cs h = DEV_NUM_MAX /\ device_acquiring_lock h = None /\ polling h = false /\
  (forall d, trans_queue h d = []) /\ (forall d, ret_queue h d = []) /\ started h = [] /\ (forall d, sent h d = []) /\ (forall d, received h d = []).

Definition new_client (c : dev_config) : client := MkClient false false true 0 (queue_size c) (negb (no_return_result c)).
Definition start_system (h : spi_host) : sys spi_host client := MkSys h (fun _ => Ret tt) (fun d => new_client (config h d)) None.

(** ** Each call *)

(** The ghost value knows the queues of the device, and at most [m] of its
    transactions are out. *)
Definition books (c : nat) (r : bool) (m : nat) (g : ghost) : Prop :=
  limit g = c /\ returning g = r /\ (r = true -> (length (out g) <= m)%nat).

(** What the ghost value of a task between two calls says of its device. *)
Record quiet (k : client) (g : ghost) : Prop := {
  quiet_expl : explicit g = holding k;
  quiet_pol : pol g = in_poll k;
  quiet_sending : sending g = false;
  quiet_ph :
    if in_poll k then ph g = Polling
    else if holding k then ph g = Owner \/ settled k = false /\ ph g = Shared
    else ph g = Out;
  quiet_books : books (cap k) (results k) (pending k) g
}.

Lemma quiet_calling k g : quiet k g -> calling (ph g).
Proof. intros [_ _ _ H _]. unfold calling. destruct (in_poll k), (holding k); tauto. Qed.

Lemma books_more c r m m' g : (m <= m')%nat -> books c r m g -> books c r m' g.
Proof. intros Hm (E1 & E2 & E3). repeat split; try done. intros Hr. specialize (E3 Hr). lia. Qed.

Lemma quiet_more m k g : (pending k <= m)%nat -> quiet k g -> quiet (with_pending m k) g.
Proof. intros Hm [E1 E2 E3 E4 E5]. split; try done. by eapply books_more. Qed.

Section calls.
Context (n : nat) (n_le : (n <= DEV_NUM_MAX)%nat).
Context (d : nat) (Hd : (d < n)%nat) (k : client) (g : ghost) (Hq : quiet k g).
Abbreviation task p Q := (wp (Inv n) may_wait d p g Q).

Lemma wp_unit {A} (p : prog spi_host A) (Q : unit -> ghost -> Prop) : task p (fun _ g => Q tt g) -> task (let% _ := p in Ret tt) Q.
Proof. intros H. apply wp_bindp. eapply wp_mono; [|exact H]. intros a g' HQ. by apply wp_ret. Qed.

Lemma room_ok g' : room k = true -> books (cap k) (results k) (pending k) g' -> has_room g'.
Proof.
  intros Hr (E1 & E2 & E3) Hret. rewrite E1. rewrite E2 in Hret. specialize (E3 Hret). unfold room in Hr. rewrite Hret in Hr. apply Nat.ltb_lt in Hr. lia.
Qed.

(** The task that shares the bus with the interrupt. *)
Lemma quiet_shared g' : in_poll k = false -> (if holding k then ph g' = Shared else ph g' = Out) -> explicit g' = holding k -> pol g' = false ->
  sending g' = false -> books (cap k) (results k) (pending k) g' -> quiet (unsettled k) g'.
Proof.
  intros Ek Hp E1 E2 E3 E4. unfold unsettled. rewrite Ek, andb_true_r. destruct (holding k) eqn:Eh; split; rewrite ?Ek, ?Eh; try done. by right.
Qed.

Lemma call_queue t forever (Q : esp_err_t -> ghost -> Prop) : room k = true ->
  (forall r g', quiet (unsettled k) g' -> r <> ESP_OK -> Q r g') ->
  (forall g', quiet (with_pending (S (pending k)) (unsettled k)) g' -> out g' = out g ++ [t] -> Q ESP_OK g') ->
  task (spi_device_queue_trans d t forever) Q.
Proof.
  intros Hroom HQ1 HQ2. pose proof Hq as [Q1 Q2 Q3 Q4 Q5]. destruct (in_poll k) eqn:Ek.
  { assert (forall r, r <> ESP_OK -> Q r g) as HQ by (intros r; apply HQ1; unfold unsettled; by rewrite Ek, andb_false_r).
    unfold spi_device_queue_trans. destruct (Z.eqb_spec (trans_check t) ESP_OK); cbn [negb]; [|by apply wp_ret, HQ].
    apply wp_bindp, wp_is_polling; [..|rewrite Q2; by apply wp_ret, HQ]; try done; tauto. }
  assert (forall g', (if holding k then ph g' = Shared else ph g' = Out) -> explicit g' = holding k -> pol g' = false -> sending g' = false -> books (cap k) (results k) (pending k) g' -> out g' = out g ->
    wp (Inv n) may_wait d (spi_device_queue_trans d t forever) g' Q) as Hw.
  { intros g' E1 E2 E3 E4 E5 E6. apply wp_queue_trans; try done; [destruct (holding k); tauto|by apply room_ok| |].
    - intros r. apply HQ1. by apply quiet_shared.
    - apply HQ2; [|cbn; by rewrite E6].
      assert (quiet (unsettled k) g') as [F1 F2 F3 F4 (F5 & F6 & F7)] by (by apply quiet_shared). split; try done. repeat split; try done.
      cbn. intros Hr. rewrite length_app, Nat.add_1_r. apply le_n_S. destruct E5 as (_ & _ & E5). apply E5. rewrite <- Hr. unfold unsettled. by destruct (_ && _). }
  destruct (holding k) eqn:Eh; [|by apply Hw].
  destruct (Z.eqb_spec (trans_check t) ESP_OK) as [Et|Et].
  - destruct Q4 as [Q4|[_ Q4]]; [|by apply Hw]. apply wp_forget; try done; [unfold spi_device_queue_trans; by rewrite Et|]. by apply Hw.
  - unfold spi_device_queue_trans. rewrite (proj2 (Z.eqb_neq _ _) Et). apply wp_ret, HQ1; [|done]. unfold unsettled. rewrite Ek, Eh. cbn.
    split; try done. cbn. destruct Q4 as [Q4|[_ Q4]]; [by left|by right].
Qed.

Lemma call_get_result forever (Q : esp_err_t * option trans -> ghost -> Prop) :
  (forall r g', quiet (if forever && results k then with_pending (pred (pending k)) k else k) g' -> Q r g') -> task (spi_device_get_trans_result d forever) Q.
Proof.
  intros HQ. pose proof Hq as [Q1 Q2 Q3 Q4 Q5]. apply wp_get_trans_result; try done; [by eapply quiet_calling| |].
  - intros r _ Hr. apply HQ. destruct forever; [|done]. destruct Q5 as (_ & E & _). rewrite <- E, Hr by done. done.
  - intros t l Hret El. apply HQ. assert (results k = true) as Er by (destruct Q5 as (_ & E & _); congruence). rewrite Er, andb_true_r.
    assert (books (cap k) (results k) (pred (pending k)) (set_out l g)) as Hb.
    { destruct Q5 as (E1 & E2 & E3). repeat split; try done. intros Hr. specialize (E3 Hr). rewrite El in E3. cbn in *. lia. }
    destruct forever; split; try done. eapply books_more; [|exact Hb]. lia.
Qed.

Abbreviation own_books g' := (books (cap k) (results k) (pending k) g').

Lemma call_polling_start t forever (Q : esp_err_t -> ghost -> Prop) :
  (starts k t forever = true -> forall g', ph g' = Polling -> explicit g' = holding k -> pol g' = true -> sending g' = false -> own_books g' -> Q ESP_OK g') ->
  (starts k t forever = false -> forall r, r <> ESP_OK -> Q r g) -> task (spi_device_polling_start d t forever) Q.
Proof.
  intros HQ1 HQ2. destruct Hq as [Q1 Q2 Q3 Q4 Q5]. unfold starts in *. destruct (in_poll k) eqn:Ek; cbn [negb andb] in *.
  { unfold spi_device_polling_start. destruct (negb forever); [by apply wp_ret, HQ2|]. destruct (Z.eqb_spec (trans_check t) ESP_OK); cbn [negb]; [|by apply wp_ret, HQ2].
    apply wp_bindp, wp_is_polling; [..|rewrite Q2; by apply wp_ret, HQ2]; try done; tauto. }
  assert (forall g', ph g' = Out /\ explicit g' = false \/ ph g' = Shared /\ explicit g' = true -> explicit g' = holding k -> pol g' = false -> sending g' = false -> own_books g' ->
    (forall r, may_poll t forever g' = false -> r <> ESP_OK -> Q r g') -> wp (Inv n) may_wait d (spi_device_polling_start d t forever) g' Q) as Hw.
  { intros g' Hp He Hpo Hse Hb HQ3. apply wp_polling_start; try done. intros Hm. apply HQ1; try done. by unfold may_poll in Hm; rewrite He in Hm. }
  destruct (holding k) eqn:Eh; cbn [orb] in *.
  - destruct (forever && (trans_check t =? ESP_OK)) eqn:Et.
    + apply andb_true_iff in Et as [-> Et]. destruct (trans_setup t =? ESP_OK) eqn:Eu; cbn [andb] in *.
      * assert (forall g', explicit g' = true -> may_poll t true g' = true) as Hm by (intros g' He; unfold may_poll; by rewrite Et, Eu, He).
        destruct Q4 as [Q4|[_ Q4]]; [|apply Hw; try done; [by right|rewrite Hm by done; done]].
        apply wp_forget; try done; [unfold spi_device_polling_start; by rewrite Et|]. apply Hw; try done; [by right|rewrite Hm by done; done].
      * unfold spi_device_polling_start. rewrite Et. cbn [negb]. apply wp_bindp, wp_is_polling; try done; [tauto|]. rewrite Q2, Eu. cbn [negb].
        apply wp_ret, HQ2; [done|]. by apply Z.eqb_neq.
    + unfold spi_device_polling_start. destruct forever; cbn [negb andb] in *; [|by apply wp_ret, HQ2]. rewrite Et. cbn [negb]. apply wp_ret, HQ2; [done|].
      by apply Z.eqb_neq.
  - apply Hw; try done; [by left|]. intros r Hm Hr. apply HQ2; [|done]. unfold may_poll in Hm. by rewrite Q1 in Hm.
Qed.

Lemma call_polling_end in_time g' (Q : esp_err_t -> ghost -> Prop) :
  ph g' = Polling -> explicit g' = holding k -> pol g' = true -> sending g' = false -> own_books g' ->
  (in_time = true -> forall r g'', quiet (at_bus (holding k) false true k) g'' -> Q r g'') -> (in_time = false -> Q ESP_ERR_TIMEOUT g') ->
  wp (Inv n) may_wait d (spi_device_polling_end d in_time) g' Q.
Proof.
  intros E1 E2 E3 E4 E5 HQ1 HQ2. apply wp_polling_end; try done. intros Ht. apply HQ1; [done|]. split; try done; cbn. rewrite E2. destruct (holding k); [by left|done].
Qed.

(** The result that comes back is that of the transaction. *)
Lemma call_transmit t (Q : esp_err_t -> ghost -> Prop) : room k = true -> results k = false \/ pending k = 0%nat ->
  (forall r g', quiet (unsettled k) g' -> Q r g') -> task (spi_device_transmit d t) Q.
Proof.
  intros Hroom Hp HQ. unfold spi_device_transmit. apply wp_bindp, call_queue; [done| |].
  - intros r g' Hg' Hr. rewrite (proj2 (Z.eqb_neq _ _) Hr). by apply wp_ret, HQ.
  - intros g' [F1 F2 F3 F4 (F5 & F6 & F7)] Eo. change (negb (ESP_OK =? ESP_OK)) with false. cbn [pending cap results with_pending] in *.
    assert (forall g'', ph g'' = ph g' -> explicit g'' = explicit g' -> pol g'' = pol g' -> sending g'' = false -> limit g'' = limit g' -> returning g'' = returning g' ->
      (results k = true -> out g'' = []) -> quiet (unsettled k) g'') as Hs.
    { intros g'' E1 E2 E3 E4 E5 E6 E7. split; rewrite ?E1, ?E2, ?E3, ?E4; try done. repeat split; [congruence..|]. intros Hr. rewrite E7; [cbn; lia|].
      rewrite <- Hr. unfold unsettled. by destruct (_ && _). }
    assert (results (unsettled k) = results k) as Er by (unfold unsettled; by destruct (_ && _)).
    apply wp_bindp, wp_get_trans_result; try done.
    + unfold calling. cbn in F4. destruct (in_poll (unsettled k)), (holding (unsettled k)); tauto.
    + intros [r o] Hr Hret. cbn in Hr. rewrite (proj2 (Z.eqb_neq _ _) Hr). apply wp_ret, HQ, Hs; try done. specialize (Hret eq_refl). congruence.
    + intros t' l Hret El. cbn [negb]. change (negb (ESP_OK =? ESP_OK)) with false.
      assert (out g = []) as Hnil.
      { destruct Hq as [_ _ _ _ (_ & _ & E3)]. destruct Hp as [Hp|Hp]; [congruence|]. specialize (E3 ltac:(congruence)). destruct (out g); [done|]. cbn in E3. lia. }
      rewrite Hnil in Eo. rewrite Eo in El. injection El as <- <-. rewrite Z.eqb_refl. apply wp_bindp, wp_ret, wp_ret, HQ, Hs; done.
Qed.

(** A legal call never crashes, and leaves the task as [next_client] says. *)
Lemma call_ok c : legal k c = true -> task (code d c) (fun _ g => quiet (next_client k c) g).
Proof.
  pose proof Hq as [Q1 Q2 Q3 Q4 Q5]. intros Hl. destruct c as [t forever|forever|forever| |t forever|in_time|t|t]; cbn [code legal next_client] in *.
  - apply wp_unit, call_queue; [done| |done]. intros r g' Hg' _. apply quiet_more; [|done]. unfold unsettled. destruct (_ && _); cbn; lia.
  - apply wp_unit, call_get_result. done.
  - apply negb_true_iff in Hl. apply wp_unit, wp_acquire_bus; try done; rewrite Hl in *; destruct (in_poll k) eqn:Ek; rewrite ?andb_false_r; try tauto.
    + by rewrite Q4, Q2.
    + by rewrite Q4.
    + intros _ ->. split; try done. by left.
    + intros r [?| ->]; [congruence|done].
  - rewrite !andb_true_iff, !negb_true_iff in Hl. destruct Hl as [[H1 H2] H3]. rewrite H1, H2, H3 in *. apply wp_release_bus; try done. by destruct Q4 as [|[? _]].
  - apply wp_unit, call_polling_start; intros Hs; rewrite Hs; [|done]. intros g' E1 E2 E3 E4. by split.
  - rewrite Hl in *. apply wp_unit, call_polling_end; try done; intros ->; [done|]. by split; rewrite ?Hl.
  - apply wp_unit. unfold spi_device_polling_transmit. apply wp_bindp, call_polling_start; intros Hs; rewrite Hs.
    + intros g' E1 E2 E3 E4 E5. change (negb (ESP_OK =? ESP_OK)) with false. by apply (call_polling_end true g').
    + intros r Hr. apply Z.eqb_neq in Hr. rewrite Hr. by apply wp_ret.
  - apply andb_true_iff in Hl as [Hl1 Hl2]. apply wp_unit, call_transmit; [done| |done]. apply orb_true_iff in Hl2 as [E|E]; [left; by apply negb_true_iff|right; by apply Nat.eqb_eq].
Qed.
End calls.

(** ** The system *)

Definition ghost0 (h : spi_host) (d : nat) : ghost :=
  MkGhost Out false false false [] (queue_size (config h d)) (negb (no_return_result (config h d))).

Section system.
Context (n : nat) (h0 : spi_host) (Hidle : idle_bus n h0).

Lemma n_le : (n <= DEV_NUM_MAX)%nat.
Proof. apply Hidle. Qed.

Lemma start_ok : inv n None h0 (ghost0 h0).
Proof.
  destruct Hidle as (Hn & Hreg & E1 & E2 & E3 & E4 & E5 & E6 & E7 & E8 & E9 & E10 & E11 & E12). split; [| |done].
  - split; unfold st, acq; rewrite ?E1, ?E2, ?E3, ?E4, ?E5, ?E6; try done; [intros d Hd; by apply Hreg|intros d Hd; by apply Hreg| |by left|intros d Hd; by apply Hreg].
    intros d Hd. unfold lk, bg, rq, pd. by rewrite !Z.bits_0.
  - intros d Hd. split; unfold isr_started, in_flight, st, acq; cbn; rewrite ?E1, ?E2, ?E3, ?E4, ?E5, ?E6, ?E8, ?E9, ?E10, ?E11, ?E12; try done.
    + unfold lk. by rewrite Z.bits_0.
    + destruct (config h0 d) as [q b]. cbn. by rewrite negb_involutive.
    + intros _. cbn. lia.
    + unfold DEV_NUM_MAX in *. lia.
    + unfold acq. by rewrite E2.
Qed.

Abbreviation sys_ok := (sys_ok (Inv n) may_wait quiet).

Lemma handler_ok h γ : Inv n h γ -> intr_enabled h = true -> exists h', run spi_intr h = Next (h', tt) /\ Inv n h' γ.
Proof. intros HI Hi. destruct (run_spi_intr n n_le h γ HI Hi) as (h' & E & HI' & _). by exists h'. Qed.

Lemma calls_ok d k c g : (d < n)%nat -> legal k c = true -> quiet k g -> wp (Inv n) may_wait d (code d c) g (fun _ g => quiet (next_client k c) g).
Proof. intros Hd Hl Hq. apply call_ok; [apply n_le|done..]. Qed.

Lemma bus_invariant x : bus_reachable n (start_system h0) x -> exists γ, sys_ok x γ.
Proof.
  apply (reachable_ok (Inv n) may_wait) with (γ0 := ghost0 h0); [apply handler_ok|apply calls_ok|].
  split; cbn; [exists None; apply start_ok|]. intros d. by split.
Qed.

Lemma idle_quiet x γ d : sys_ok x γ -> in_call (threads x d) = false -> quiet (clients x d) (γ d).
Proof. intros [_ Ht] E. specialize (Ht d). by destruct (threads x d). Qed.

Lemma shared_inv x γ : sys_ok x γ -> isr x = None -> exists T, inv n T (shared x) γ.
Proof. intros [Hs _] E. by rewrite E in Hs. Qed.

(** Between two calls, a task whose device occupies the bus. *)
Definition occupies (x : sys spi_host client) (d : nat) : Prop :=
  in_call (threads x d) = false /\ (holding (clients x d) = true \/ in_poll (clients x d) = true).

Lemma occupies_acq x γ T d : sys_ok x γ -> inv n T (shared x) γ -> (d < n)%nat -> occupies x d -> acq (shared x) = Some d.
Proof.
  intros Hok HI Hd [Hc Ho]. pose proof (idle_quiet x γ d Hok Hc) as [_ _ _ Hp _]. pose proof (dev_ph _ _ _ _ (inv_dev _ _ _ _ HI d Hd)) as P.
  destruct (in_poll (clients x d)); [|destruct (holding (clients x d)); [|by destruct Ho]].
  - rewrite Hp in P. apply P.
  - destruct Hp as [Hp|[_ Hp]]; rewrite Hp in P; apply P.
Qed.

(** Nothing can go on without a new call. *)
Definition stuck (x : sys spi_host client) : Prop :=
  forall ev, match ev with Call _ _ => True | _ => bus_exec true n ev x = Blocked end.

Lemma stuck_spec x γ : sys_ok x γ -> stuck x -> isr x = None /\ intr_enabled (shared x) = false /\
  forall d, in_call (threads x d) = true -> step_prog (threads x d) (shared x) = Blocked.
Proof.
  intros [Hok _] Hs. assert (isr x = None) as Ei.
  { destruct (isr x) as [p|] eqn:Ei; [|done]. exfalso. pose proof (Hs IsrStep) as H. cbn in H. rewrite Ei in H. destruct p as [a|R f k]; [done|].
    destruct Hok as (s & Hr & _). cbn in *. by destruct (f (shared x)) as [| |[s' r]]. }
  split; [done|]. split.
  - pose proof (Hs Irq) as H. cbn in H. rewrite Ei in H. by destruct (intr_enabled (shared x)).
  - intros d Hc. pose proof (Hs (Step d)) as H. cbn in H. unfold tasks_run in H. rewrite Ei in H. cbn in H.
    by destruct (step_prog (threads x d) (shared x)) as [| |[s p]].
Qed.

(** Inside a call, waiting for the result of a queued transaction: it would go on
    if there were one. *)
Definition awaits_result (x : sys spi_host client) (d : nat) : Prop :=
  in_call (threads x d) = true /\ ret_queue (shared x) d = [] /\
  forall t, step_prog (threads x d) (set_ret_queue d [t] (shared x)) <> Blocked.

(** A task that cannot go on: the bus is with somebody else, or there is no result. *)
Lemma stuck_task x γ d : sys_ok x γ -> stuck x -> in_call (threads x d) = true ->
  has_token (shared x) d (ph (γ d)) = false /\ st (shared x) <> 0 \/
  awaits_result x d /\ calling (ph (γ d)) /\ sending (γ d) = false.
Proof.
  intros Hok Hs Hc. destruct (stuck_spec x γ Hok Hs) as (Ei & _ & Hb).
  destruct (blocked_ok (Inv n) may_wait quiet x γ d may_wait_ext Hok Ei Hc (Hb d Hc)) as [H|(H1 & H2 & H3 & H4)]; [by left|right].
  split; [|done]. split; [done|]. split; [done|]. intros t E. specialize (H4 t). by rewrite E in H4.
Qed.

(** A stuck system in which the status is not zero: a task has the bus. *)
Lemma stuck_holder x γ : sys_ok x γ -> stuck x -> st (shared x) <> 0 ->
  exists a, (a < n)%nat /\ has_token (shared x) a (ph (γ a)) = true /\ acq (shared x) = Some a /\ (occupies x a \/ awaits_result x a).
Proof.
  intros Hok Hs Hz. destruct (stuck_spec x γ Hok Hs) as (Ei & Hi & Hb). destruct (shared_inv x γ Hok Ei) as [T HI].
  pose proof (inv_bus _ _ _ _ HI) as B. destruct T as [[|a]|]; [by rewrite (proj2 (bus_intr _ _ _ B) eq_refl) in Hi| |by destruct Hz; apply (bus_none _ _ _ B)].
  pose proof (bus_task _ _ _ B a eq_refl) as Ha. pose proof (inv_dev _ _ _ _ HI a Ha) as D. pose proof (proj1 (dev_tok _ _ _ _ D) eq_refl) as Ht.
  exists a. split; [done|]. split; [done|]. destruct (in_call (threads x a)) eqn:Hc.
  - destruct (stuck_task x γ a Hok Hs Hc) as [[E _]|(Hr & Hp & _)]; [congruence|]. split; [|by right].
    pose proof (dev_ph _ _ _ _ D) as P. destruct Hp as [Hp|[Hp|[Hp|Hp]]]; rewrite Hp in *; [done|apply P..].
  - assert (occupies x a) as Ho; [|split; [by eapply occupies_acq|by left]]. split; [done|]. pose proof (idle_quiet x γ a Hok Hc) as [_ _ _ Hp _].
    destruct (in_poll _); [by right|]. destruct (holding _); [by left|]. by rewrite Hp in Ht.
Qed.

(** ** The properties *)

(** C19. On one core, with clients that follow the rules of [legal], no
    interleaving of tasks and interrupt reaches a step that crashes: every
    assertion of the driver and of the lock holds, and no slot of the lock
    without a device is followed. *)
Theorem spi_bus_never_crashes x ev : bus_reachable n (start_system h0) x -> bus_exec true n ev x <> Crashed.
Proof.
  intros Hr. destruct (bus_invariant x Hr) as [γ Hok].
  apply (exec_ok (Inv n) may_wait) with (quiet := quiet) (γ := γ); [apply handler_ok|apply calls_ok|done].
Qed.

(** When the interrupt is not running, also in the middle of calls: whose
    transaction is on the bus. *)
Lemma on_the_bus x γ T d : sys_ok x γ -> inv n T (shared x) γ -> (d < n)%nat -> cur_cs (shared x) = d ->
  in_isr (bus (shared x)) = true /\ (forall a, acquiring_dev (bus (shared x)) = Some a -> a = d) \/
  in_isr (bus (shared x)) = false /\ acquiring_dev (bus (shared x)) = Some d.
Proof.
  intros Hok HI Hd Ec. pose proof (inv_dev _ _ _ _ HI d Hd) as D. destruct (in_isr (bus (shared x))) eqn:Ei.
  - left. split; [done|]. intros a Ha. rewrite <- Ec. by apply (bus_isr _ _ _ (inv_bus _ _ _ _ HI) Ei).
  - right. split; [done|]. pose proof (dev_ph _ _ _ _ D) as P. destruct (dev_cs _ _ _ _ D Ec) as [E|E]; [by rewrite E in Ei|]. rewrite E in P. apply P.
Qed.

Lemma polling_alone x γ T : sys_ok x γ -> inv n T (shared x) γ -> polling (shared x) = true ->
  in_isr (bus (shared x)) = false /\ exists d, (d < n)%nat /\ acquiring_dev (bus (shared x)) = Some d.
Proof.
  intros Hok HI Hp. pose proof (inv_bus _ _ _ _ HI) as B. destruct (acquiring_dev (bus (shared x))) as [d|] eqn:Ha; [|by rewrite (bus_pol _ _ _ B Ha) in Hp].
  pose proof (bus_acq _ _ _ B d Ha) as Hd. pose proof (inv_dev _ _ _ _ HI d Hd) as D. split; [|by exists d].
  apply (task_not_in_isr n T _ d γ HI), (dev_tok _ _ _ _ D). rewrite (dev_pol _ _ _ _ D Ha) in Hp. by destruct (dev_pol_ph _ _ _ _ D Hp) as [E|E]; rewrite E.
Qed.

(** C3. On one core, with clients that follow the rules of [legal], the bus has
    one user at a time whenever the interrupt is not running.  Between two calls:
    at most one task occupies it, its device is the acquiring device, during its
    polling transaction the interrupt has none on the bus, and a transaction that
    the interrupt has on the bus meanwhile is of the same device.  At any moment,
    also inside calls such as [PollingTransmit]: during a polling transaction
    there is an acquiring device and the interrupt has none on the bus; and a
    transaction on the bus is either one of the interrupt, of the acquiring
    device if there is one, or the polling transaction of the acquiring device.
    On two cores, or when the bus is released with a transaction in flight, this
    fails: [spi_two_cores_crash], [release_in_flight_crash]. *)
Theorem spi_bus_exclusive x : bus_reachable n (start_system h0) x -> isr x = None ->
  (forall d e, (d < n)%nat -> (e < n)%nat -> occupies x d -> occupies x e -> d = e) /\
  (forall d, (d < n)%nat -> occupies x d -> acquiring_dev (bus (shared x)) = Some d /\
     (in_poll (clients x d) = true -> cur_cs (shared x) = d /\ in_isr (bus (shared x)) = false) /\
     (in_isr (bus (shared x)) = true -> cur_cs (shared x) = d)) /\
  (polling (shared x) = true -> in_isr (bus (shared x)) = false /\ exists d, (d < n)%nat /\ acquiring_dev (bus (shared x)) = Some d) /\
  (forall d, (d < n)%nat -> cur_cs (shared x) = d ->
     in_isr (bus (shared x)) = true /\ (forall a, acquiring_dev (bus (shared x)) = Some a -> a = d) \/
     in_isr (bus (shared x)) = false /\ acquiring_dev (bus (shared x)) = Some d).
Proof.
  intros Hr Ei. destruct (bus_invariant x Hr) as [γ Hok]. destruct (shared_inv x γ Hok Ei) as [T HI].
  split; [|split; [|split; [by eapply polling_alone|by intros d Hd; eapply on_the_bus]]].
  - intros d e Hd He Ho Ho'. pose proof (occupies_acq x γ T d Hok HI Hd Ho). pose proof (occupies_acq x γ T e Hok HI He Ho'). congruence.
  - intros d Hd Ho. pose proof (occupies_acq x γ T d Hok HI Hd Ho) as Ha. pose proof (inv_bus _ _ _ _ HI) as B. split; [done|]. split.
    + intros Hp. pose proof (idle_quiet x γ d Hok (proj1 Ho)) as [_ _ _ Hph _]. rewrite Hp in Hph. pose proof (inv_dev _ _ _ _ HI d Hd) as D.
      split; [by apply (dev_polling _ _ _ _ D)|]. apply (task_not_in_isr n T _ d γ HI). apply (dev_tok _ _ _ _ D). by rewrite Hph.
    + intros Hi. symmetry. by apply (bus_isr _ _ _ B Hi).
Qed.

(** C21. The interrupt ends, whenever it may run, and while a task occupies the bus
    the only transaction it starts, if any, is of the device of that task. *)
Theorem spi_holder_alone x : bus_reachable n (start_system h0) x -> isr x = None -> intr_enabled (shared x) = true ->
  exists h, run spi_intr (shared x) = Next (h, tt) /\
    forall d, (d < n)%nat -> occupies x d -> started h = started (shared x) \/ exists t, started h = started (shared x) ++ [(Isr, d, t)].
Proof.
  intros Hr Ei Hi. destruct (bus_invariant x Hr) as [γ Hok]. destruct (shared_inv x γ Hok Ei) as [T HI].
  destruct (run_spi_intr n n_le (shared x) γ) as (h & E & _ & Hal); [by exists T|done|].
  exists h. split; [done|]. intros d Hd Ho. apply Hal. by eapply occupies_acq.
Qed.

(** C15. Queued transactions are started in the order in which they were queued, each
    once, and those not yet started are in the queue; the results come back to the
    task in the same order, each once, and none is lost. *)
Theorem spi_queue_in_order x d : bus_reachable n (start_system h0) x -> isr x = None -> (d < n)%nat ->
  sent (shared x) d = isr_started (shared x) d ++ trans_queue (shared x) d /\
  (no_return_result (config (shared x) d) = false ->
   sent (shared x) d = received (shared x) d ++ ret_queue (shared x) d ++ in_flight (shared x) d ++ trans_queue (shared x) d).
Proof.
  intros Hr Ei Hd. destruct (bus_invariant x Hr) as [γ Hok]. destruct (shared_inv x γ Hok Ei) as [T HI]. pose proof (inv_dev _ _ _ _ HI d Hd) as D.
  split; [apply (dev_sent _ _ _ _ D)|]. rewrite (dev_config_ok _ _ _ _ D). cbn. intros Hret. apply negb_false_iff in Hret.
  destruct (dev_out _ _ _ _ D Hret) as [E1 E2]. by rewrite <- E1.
Qed.

(** C20. No wake-up is lost.  When nothing goes on without a new call, a task inside
    a call waits for a result that is not there, or for the bus, and then another
    task occupies the bus or has it and waits for a result; and if no device has
    the bus, every queued transaction has been started. *)
Theorem spi_no_lost_wakeup x : bus_reachable n (start_system h0) x -> stuck x ->
  (forall d, (d < n)%nat -> in_call (threads x d) = true -> awaits_result x d \/
     exists a, (a < n)%nat /\ a <> d /\ acquiring_dev (bus (shared x)) = Some a /\ (occupies x a \/ awaits_result x a)) /\
  (acquiring_dev (bus (shared x)) = None -> status (bus (shared x)) = 0 /\
     forall d, (d < n)%nat -> trans_queue (shared x) d = [] /\ isr_started (shared x) d = sent (shared x) d).
Proof.
  intros Hr Hs. destruct (bus_invariant x Hr) as [γ Hok]. split.
  - intros d Hd Hc. destruct (stuck_task x γ d Hok Hs Hc) as [[Ht Hz]|[Hr' _]]; [right|by left].
    destruct (stuck_holder x γ Hok Hs Hz) as (a & Ha & Hta & Hacq & Ho). exists a. split; [done|]. split; [congruence|done].
  - intros Ha. destruct (decide (st (shared x) = 0)) as [Hz|Hz]; [|destruct (stuck_holder x γ Hok Hs Hz) as (a & _ & _ & E & _); unfold acq in E; congruence].
    split; [done|]. intros d Hd. destruct (stuck_spec x γ Hok Hs) as (Ei & _ & _). destruct (shared_inv x γ Hok Ei) as [T HI].
    pose proof (inv_dev _ _ _ _ HI d Hd) as D. assert (sending (γ d) = false) as Hse.
    { destruct (in_call (threads x d)) eqn:Hc; [|by destruct (idle_quiet x γ d Hok Hc)].
      destruct (stuck_task x γ d Hok Hs Hc) as [[_ Hnz]|(_ & _ & E)]; done. }
    assert (trans_queue (shared x) d = []) as Hq.
    { destruct (trans_queue (shared x) d) as [|t q] eqn:Eq; [done|]. destruct (dev_queue _ _ _ _ D) as [E|E]; [by rewrite Eq| |congruence].
      rewrite Hz in E. unfold bg, rq, pd in E. by rewrite !Z.bits_0 in E. }
    split; [done|]. by rewrite (dev_sent _ _ _ _ D), Hq, app_nil_r.
Qed.
End system.
