(* ===== verification/SpiRuns.v ===== *)
(** * Runs of a shared bus

    Two devices registered on a new bus, and runs of their tasks and of the
    interrupt: witnesses of the theorems of [SpiBus], and what happens outside
    their hypotheses. *)

From stdpp Require Import functions.
From S2P Require Import Prelude EspErr Threads BusLock SpiMaster BusLockBits SpiInv SpiBus.

(** ** A bus with two devices *)

Definition a_transfer : trans := MkTrans 7 false ESP_OK ESP_OK.

Definition with_lock_of (l : bus_lock) : spi_host :=
  MkHost l false DEV_NUM_MAX (MkTrans 0 false ESP_OK ESP_OK) None false (fun _ => []) (fun _ => []) [] (fun _ => []) (fun _ => []) (fun _ => MkConfig 2 false) (fun d => (d <? 2)%nat).

(** [spi_bus_init_lock] for a peripheral with three CS lines, and two devices. *)
Definition two_devices : outcome (spi_host * (esp_err_t + nat)) :=
  match spi_bus_init_lock 3 true with
  | inl _ => Crashed
  | inr l => run (let% _ := spi_bus_lock_register_dev true true true in spi_bus_lock_register_dev true true true) (with_lock_of l)
  end.

Definition host : spi_host := match two_devices with Next (h, _) => h | _ => with_lock_of (MkLock 0 None false false [] None 0 (fun _ => false)) end.

Definition start : sys spi_host client := start_system host.
Definition go (one_core : bool) (rules : client -> call -> bool) (evs : list (event call)) : outcome (sys spi_host client) :=
  exec_all one_core intr_enabled spi_intr rules next_client code 2 evs start.

(** The system after a run on one core. *)
Definition after (evs : list (event call)) : sys spi_host client := match go true legal evs with Next x => x | _ => start end.

Lemma host_idle : idle_bus 2 host.
Proof.
  split; [unfold DEV_NUM_MAX; lia|]. split; [intros [|[|d]] Hd; [repeat split; cbn; lia..|lia]|]. repeat split.
Qed.

Lemma after_reachable evs : reachable true intr_enabled spi_intr legal next_client code 2 start (after evs).
Proof. unfold after. destruct (go true legal evs) as [| |x] eqn:E; [constructor..|]. eapply exec_all_reachable; [constructor|exact E]. Qed.

(** ** Parts of runs *)

Definition steps (d n : nat) : list (event call) := repeat (Step d) n.
Definition interrupt (n : nat) : list (event call) := Irq :: repeat IsrStep n.
Definition calls (d : nat) (c : call) (n : nat) : list (event call) := Call d c :: steps d n.

(** Device 0 acquires the bus and queues a transaction, which the interrupt
    puts on the bus. *)
Definition transfer_started : list (event call) :=
  calls 0 (AcquireBus true) 8 ++ calls 0 (QueueTrans a_transfer true) 8 ++ interrupt 16.

(** ** Witnesses *)

Lemma spi_bus_never_crashes_witness :
  exec true intr_enabled spi_intr legal next_client code 2 Irq (after transfer_started) <> Crashed.
Proof. apply (spi_bus_never_crashes 2 host host_idle), after_reachable. Defined.

(** While device 0 has its transaction on the bus, device 1 waits for it. *)
Definition second_waits : sys spi_host client := after (transfer_started ++ calls 1 (PollingTransmit a_transfer) 4).

Lemma spi_bus_exclusive_witness : occupies second_waits 0 /\ in_isr (bus (shared second_waits)) = true /\
  in_call (threads second_waits 1) = true /\ cur_cs (shared second_waits) = 0%nat.
Proof.
  assert (occupies second_waits 0) as Ho by (split; [|left]; vm_compute; reflexivity). split; [exact Ho|].
  split; [vm_compute; reflexivity|]. split; [vm_compute; reflexivity|].
  apply (proj1 (proj2 (spi_bus_exclusive 2 host host_idle second_waits (after_reachable _) ltac:(vm_compute; reflexivity))) 0%nat ltac:(lia) Ho).
  vm_compute. reflexivity.
Defined.

Lemma spi_holder_alone_witness : exists h, run spi_intr (shared second_waits) = Next (h, tt) /\
  (started h = started (shared second_waits) \/ exists t, started h = started (shared second_waits) ++ [(Isr, 0%nat, t)]).
Proof.
  destruct (spi_holder_alone 2 host host_idle second_waits (after_reachable _)) as (h & E & Hs); [vm_compute; reflexivity..|].
  exists h. split; [exact E|]. apply (Hs 0%nat); [lia|]. split; [|left]; vm_compute; reflexivity.
Defined.

Lemma spi_queue_in_order_witness : sent (shared second_waits) 0%nat = [a_transfer] /\
  sent (shared second_waits) 0%nat = received (shared second_waits) 0%nat ++ ret_queue (shared second_waits) 0%nat ++
    in_flight (shared second_waits) 0 ++ trans_queue (shared second_waits) 0%nat.
Proof.
  split; [vm_compute; reflexivity|].
  apply (proj2 (spi_queue_in_order 2 host host_idle second_waits 0 (after_reachable _) ltac:(vm_compute; reflexivity) ltac:(lia))).
  vm_compute. reflexivity.
Defined.

(** Device 0 occupies the bus without a transaction; the task of device 1 waits. *)
Definition second_stuck : sys spi_host client := after (calls 0 (AcquireBus true) 8 ++ calls 1 (PollingTransmit a_transfer) 4).

Lemma second_is_stuck : stuck 2 second_stuck.
Proof. intros [[|[|d]]| | |]; vm_compute; constructor. Qed.

Lemma spi_no_lost_wakeup_witness : stuck 2 second_stuck /\ exists a, a <> 1%nat /\ acquiring_dev (bus (shared second_stuck)) = Some a.
Proof.
  split; [exact second_is_stuck|].
  destruct (proj1 (spi_no_lost_wakeup 2 host host_idle second_stuck (after_reachable _) second_is_stuck) 1%nat ltac:(lia) ltac:(vm_compute; reflexivity))
    as [(_ & _ & H)|(a & _ & Ha & E & _)]; [|exists a; split; [exact Ha|exact E]].
  exfalso. apply (H a_transfer). vm_compute. reflexivity.
Defined.

(** ** Outside the hypotheses *)

(** On two cores the lock does not protect the bus.  The interrupt, on one
    core, has finished the requests of the acquiring device and has read the
    status; on the other core the task of that device does a polling transaction
    and releases the bus, as it may; the interrupt then follows the pointer to
    the acquiring device, which is NULL. *)
Theorem spi_two_cores_crash :
  go false legal (transfer_started ++ interrupt 18 ++ calls 0 (PollingTransmit a_transfer) 18 ++ calls 0 ReleaseBus 5 ++ repeat IsrStep 2) = Crashed.
Proof. vm_compute. reflexivity. Qed.

(** The rules of [legal] without the one that a task releases the bus when none
    of its queued transactions is left. *)
Definition may_release (k : client) (c : call) : bool :=
  match c with ReleaseBus => holding k && negb (in_poll k) | _ => legal k c end.

(** On one core, releasing the bus with a transaction in flight: the interrupt
    ends the transaction before the releasing task enables it, another device
    starts to use the bus, and the late interrupt fails its assertion. *)
Example release_in_flight_crash :
  go true may_release (transfer_started ++ calls 0 ReleaseBus 5 ++ interrupt 23 ++ calls 1 (PollingStart a_transfer true) 12 ++
    steps 0 1 ++ interrupt 5) = Crashed.
Proof. vm_compute. reflexivity. Qed.

(** A slot whose registration fails for want of memory stays occupied, and the
    lock cannot be deinitialised any more. *)
Example failed_registration_leaks :
  match run (spi_bus_lock_register_dev true false true) (with_lock_of (MkLock 0 None false false (replicate 6 Free) None 3 (fun _ => false))) with
  | Next (h, inl e) => e = ESP_ERR_NO_MEM /\ dev (bus h) !! 0%nat = Some Taken /\ spi_bus_deinit_lock (bus h) = None
  | _ => False
  end.
Proof. vm_compute. done. Qed.
