(* ===== verification/IntrAlloc.v ===== *)
(** * The interrupt allocator

    Source: [esp_hw_support/intr_alloc.c] on the ESP32-S3, with the descriptions
    of its interrupt lines ([esp_hw_support/port/esp32s3/esp_cpu_intr.c]) and the
    table of handlers below it ([xtensa/xtensa_intr.c]).  A peripheral (a
    "source") is routed by the interrupt matrix of a CPU to one of its 32 lines;
    drivers ask for a line with given properties and get a handle, exclusively or
    shared with other handlers.

    A [vector_desc_t] is never freed and found by its CPU and line, which name
    it in place of its address; a [shared_vector_desc_t] has an address, and is
    alive as long as it is in the list of a vector.  The whole component works
    under one spinlock, so that each function is one step.  [None] is a failed
    assertion or a dead pointer.  Acknowledging an edge clears no state that is
    kept here; the wrapper of handlers for tracing is configured out. *)

From stdpp Require Import functions.
From S2P Require Import Prelude EspErr Image.

(** ** Flags of requests and of vectors *)

Definition ESP_INTR_FLAG_LEVEL1 : Z := 2 ^ 1.
Definition ESP_INTR_FLAG_LEVEL2 : Z := 2 ^ 2.
Definition ESP_INTR_FLAG_LEVEL3 : Z := 2 ^ 3.
Definition ESP_INTR_FLAG_LEVEL4 : Z := 2 ^ 4.
Definition ESP_INTR_FLAG_LEVEL5 : Z := 2 ^ 5.
Definition ESP_INTR_FLAG_LEVEL6 : Z := 2 ^ 6.
Definition ESP_INTR_FLAG_NMI : Z := 2 ^ 7.
Definition ESP_INTR_FLAG_SHARED : Z := 2 ^ 8.
Definition ESP_INTR_FLAG_EDGE : Z := 2 ^ 9.
Definition ESP_INTR_FLAG_IRAM : Z := 2 ^ 10.
Definition ESP_INTR_FLAG_INTRDISABLED : Z := 2 ^ 11.
Definition ESP_INTR_FLAG_LOWMED : Z :=
  Z.lor (Z.lor ESP_INTR_FLAG_LEVEL1 ESP_INTR_FLAG_LEVEL2) ESP_INTR_FLAG_LEVEL3.
Definition ESP_INTR_FLAG_HIGH : Z :=
  Z.lor (Z.lor (Z.lor ESP_INTR_FLAG_LEVEL4 ESP_INTR_FLAG_LEVEL5) ESP_INTR_FLAG_LEVEL6) ESP_INTR_FLAG_NMI.
Definition ESP_INTR_FLAG_LEVELMASK : Z := Z.lor ESP_INTR_FLAG_LOWMED ESP_INTR_FLAG_HIGH.

Definition VECDESC_FL_RESERVED : Z := 2 ^ 0.
Definition VECDESC_FL_INIRAM : Z := 2 ^ 1.
Definition VECDESC_FL_SHARED : Z := 2 ^ 2.
Definition VECDESC_FL_NONSHARED : Z := 2 ^ 3.
Definition VECDESC_FL_TYPE_MASK : Z := 0xf.

(** The sources inside a CPU, and the lines they are tied to. *)
Definition ETS_INTERNAL_TIMER0_INTR_SOURCE : Z := -1.
Definition ETS_INTERNAL_TIMER1_INTR_SOURCE : Z := -2.
Definition ETS_INTERNAL_TIMER2_INTR_SOURCE : Z := -3.
Definition ETS_INTERNAL_SW0_INTR_SOURCE : Z := -4.
Definition ETS_INTERNAL_SW1_INTR_SOURCE : Z := -5.
Definition ETS_INTERNAL_PROFILING_INTR_SOURCE : Z := -6.
Definition ETS_INTERNAL_UNUSED_INTR_SOURCE : Z := -99.
Definition ETS_INTERNAL_TIMER0_INTR_NO : Z := 6.
Definition ETS_INTERNAL_TIMER1_INTR_NO : Z := 15.
Definition ETS_INTERNAL_TIMER2_INTR_NO : Z := 16.
Definition ETS_INTERNAL_SW0_INTR_NO : Z := 7.
Definition ETS_INTERNAL_SW1_INTR_NO : Z := 29.
Definition ETS_INTERNAL_PROFILING_INTR_NO : Z := 11.

Definition SOC_CPU_CORES_NUM : Z := 2.
Definition SOC_CPU_INTR_NUM : Z := 32.
Definition CPU_INT_LINES_COUNT : nat := 32.
Definition INT_MUX_DISABLED_INTNO : Z := 6.

(** ** The interrupt lines of the ESP32-S3 *)

Inductive esp_cpu_intr_type_t := ESP_CPU_INTR_TYPE_LEVEL | ESP_CPU_INTR_TYPE_EDGE | ESP_CPU_INTR_TYPE_NA.
#[export] Instance intr_type_eq_dec : EqDecision esp_cpu_intr_type_t.
Proof. solve_decision. Defined.

Definition ESP_CPU_INTR_DESC_FLAG_SPECIAL : Z := 2 ^ 0.
Definition ESP_CPU_INTR_DESC_FLAG_RESVD : Z := 2 ^ 1.

Record esp_cpu_intr_desc := MkDesc { priority : Z; type : esp_cpu_intr_type_t; desc_flags : Z }.

(** With the WiFi task on core 0; line 0 is reserved on its core. *)
Definition intr_desc_table (cpu line : Z) : esp_cpu_intr_desc :=
  let level p := MkDesc p ESP_CPU_INTR_TYPE_LEVEL 0 in
  let edge p := MkDesc p ESP_CPU_INTR_TYPE_EDGE 0 in
  let special p := MkDesc p ESP_CPU_INTR_TYPE_NA ESP_CPU_INTR_DESC_FLAG_SPECIAL in
  let resvd p t := MkDesc p t ESP_CPU_INTR_DESC_FLAG_RESVD in
  let resvd_on_0 p := MkDesc p ESP_CPU_INTR_TYPE_LEVEL (if cpu =? 0 then ESP_CPU_INTR_DESC_FLAG_RESVD else 0) in
  match line with
  | 0 | 4 => resvd_on_0 1
  | 1 | 2 | 3 | 5 | 8 | 9 | 12 | 13 | 17 | 18 => level 1
  | 6 | 7 => special 1
  | 10 => edge 1
  | 11 | 15 | 29 => special 3
  | 14 => level 7
  | 16 => special 5
  | 19 | 20 | 21 => level 2
  | 22 => edge 3
  | 23 | 27 => level 3
  | 24 | 25 => resvd 4 ESP_CPU_INTR_TYPE_LEVEL
  | 26 | 31 => level 5
  | 28 => resvd 4 ESP_CPU_INTR_TYPE_EDGE
  | _ => edge 4
  end.

Definition esp_cpu_intr_get_desc (cpu line : Z) : option esp_cpu_intr_desc :=
  configASSERT ((0 <=? cpu) && (cpu <? SOC_CPU_CORES_NUM));
  Some (intr_desc_table cpu line).

(** The level of each line, from the configuration of the core, and the highest
    level whose handlers may be written in C. *)
Definition Xthal_intlevel (line : Z) : Z :=
  match line with
  | 11 | 15 | 22 | 23 | 27 | 29 => 3
  | 14 => 7
  | 16 | 26 | 31 => 5
  | 19 | 20 | 21 => 2
  | 24 | 25 | 28 | 30 => 4
  | _ => 1
  end.
Definition XCHAL_EXCM_LEVEL : Z := 3.

(** ** The state *)

Record shared_vector_desc := MkSvd {
  addr : Z;
  disabled : bool;
  svd_source : Z;
  statusreg : Z;
  statusmask : Z;
  isr : Z;
  arg : Z
}.

Record vector_desc := MkVd {
  vflags : Z;
  cpu : Z;
  intno : Z;
  source : Z;
  shared_vec_info : list shared_vector_desc
}.

Definition set_flags v d := MkVd v (cpu d) (intno d) (source d) (shared_vec_info d).
Definition set_source v d := MkVd (vflags d) (cpu d) (intno d) (sN 16 v) (shared_vec_info d).
Definition set_shared v d := MkVd (vflags d) (cpu d) (intno d) (source d) v.

(** A CPU and one of its lines: a pointer to a vector. *)
Definition vd_ptr := (Z * Z)%type.
Definition key (d : vector_desc) : vd_ptr := (cpu d, intno d).

(** [intr_handle_data_t] *)
Record intr_handle := MkHandle { h_vector_desc : option vd_ptr; h_shared_vector_desc : option Z }.

(** What a line of a CPU calls. *)
Inductive xt_handler :=
  | xt_unhandled_interrupt
  | shared_intr_handler (vd : vd_ptr)
  | intr_handler (isr arg : Z).

(** The lines of the RTC controller, [rtc_module.c]. *)
Record rtc_isr_handler := MkRtcHandler { rtc_mask : Z; rtc_handler : Z; rtc_arg : Z; rtc_flags : Z }.
Record rtc_state := MkRtc {
  rtc_intr_cache : Z;
  rtc_intr_enabled : Z;
  rtc_isr_cpu : Z;
  rtc_isr_handler_list : list rtc_isr_handler;
  rtc_isr_handle : option intr_handle;
  rtc_int_ena : Z
}.

(** The variables of [intr_alloc.c], and of the hardware the table of handlers,
    the interrupt matrix (by CPU and source) and the mask of enabled lines. *)
Record intr_state := MkIntr {
  vector_desc_head : list vector_desc;
  non_iram_int_mask : Z -> Z;
  non_iram_int_disabled : Z -> Z;
  non_iram_int_disabled_flag : Z -> bool;
  rtc : rtc_state;
  interrupt_table : vd_ptr -> xt_handler;
  intr_matrix : Z * Z -> Z;
  intenable : Z -> Z
}.

Definition set_head v s := MkIntr v (non_iram_int_mask s) (non_iram_int_disabled s) (non_iram_int_disabled_flag s) (rtc s) (interrupt_table s) (intr_matrix s) (intenable s).
Definition set_non_iram_mask v s := MkIntr (vector_desc_head s) v (non_iram_int_disabled s) (non_iram_int_disabled_flag s) (rtc s) (interrupt_table s) (intr_matrix s) (intenable s).
Definition set_non_iram_disabled v f s := MkIntr (vector_desc_head s) (non_iram_int_mask s) v f (rtc s) (interrupt_table s) (intr_matrix s) (intenable s).
Definition set_rtc v s := MkIntr (vector_desc_head s) (non_iram_int_mask s) (non_iram_int_disabled s) (non_iram_int_disabled_flag s) v (interrupt_table s) (intr_matrix s) (intenable s).
Definition set_table v s := MkIntr (vector_desc_head s) (non_iram_int_mask s) (non_iram_int_disabled s) (non_iram_int_disabled_flag s) (rtc s) v (intr_matrix s) (intenable s).
Definition set_matrix v s := MkIntr (vector_desc_head s) (non_iram_int_mask s) (non_iram_int_disabled s) (non_iram_int_disabled_flag s) (rtc s) (interrupt_table s) v (intenable s).
Definition set_intenable v s := MkIntr (vector_desc_head s) (non_iram_int_mask s) (non_iram_int_disabled s) (non_iram_int_disabled_flag s) (rtc s) (interrupt_table s) (intr_matrix s) v.

(** ** The hardware

    A CPU is given by its number, [core] is the one that executes the code. *)

Definition esp_cpu_intr_enable (core mask : Z) (s : intr_state) : intr_state :=
  set_intenable (<[core := Z.lor (intenable s core) mask]> (intenable s)) s.
Definition esp_cpu_intr_disable (core mask : Z) (s : intr_state) : intr_state :=
  set_intenable (<[core := Z.land (intenable s core) (Z.lnot mask)]> (intenable s)) s.
Definition esp_intr_enable_source (core inum : Z) : intr_state -> intr_state := esp_cpu_intr_enable core (Z.shiftl 1 inum).
Definition esp_intr_disable_source (core inum : Z) : intr_state -> intr_state := esp_cpu_intr_disable core (Z.shiftl 1 inum).
Definition ets_isr_unmask (core mask : Z) : intr_state -> intr_state := esp_cpu_intr_enable core mask.
Definition ets_isr_mask (core mask : Z) : intr_state -> intr_state := esp_cpu_intr_disable core mask.

Definition esp_rom_route_intr_matrix (cpu source line : Z) (s : intr_state) : intr_state :=
  set_matrix (<[(cpu, source) := line]> (intr_matrix s)) s.

Definition xt_int_has_handler (line cpu : Z) (s : intr_state) : bool :=
  match interrupt_table s (cpu, line) with xt_unhandled_interrupt => false | _ => true end.

Definition xt_set_interrupt_handler (core n : Z) (f : xt_handler) (s : intr_state) : intr_state :=
  if (n <? 0) || (n >=? SOC_CPU_INTR_NUM) then s
  else if Xthal_intlevel n >? XCHAL_EXCM_LEVEL then s
  else set_table (<[(core, n) := f]> (interrupt_table s)) s.

Definition esp_cpu_intr_has_handler (core line : Z) (s : intr_state) : option bool :=
  configASSERT ((0 <=? line) && (line <? SOC_CPU_INTR_NUM));
  Some (xt_int_has_handler line core s).
Definition esp_cpu_intr_set_handler (core line : Z) (f : xt_handler) (s : intr_state) : option intr_state :=
  configASSERT ((0 <=? line) && (line <? SOC_CPU_INTR_NUM));
  Some (xt_set_interrupt_handler core line f s).

(** ** The list of vectors, sorted by CPU and line *)

Fixpoint insert_vector_desc (to_insert : vector_desc) (l : list vector_desc) : list vector_desc :=
  match l with
  | [] => [to_insert]
  | vd :: l' =>
      if (cpu vd >? cpu to_insert) || ((cpu vd =? cpu to_insert) && (intno vd >=? intno to_insert))
      then to_insert :: l else vd :: insert_vector_desc to_insert l'
  end.

Fixpoint find_vd (p : vector_desc -> bool) (l : list vector_desc) : option vector_desc :=
  match l with
  | [] => None
  | vd :: l => if p vd then Some vd else find_vd p l
  end.

Definition find_desc_for_int (line cpu' : Z) (s : intr_state) : option vector_desc :=
  find_vd (fun vd => (cpu vd =? cpu') && (intno vd =? line)) (vector_desc_head s).

(** Following and writing through a pointer to a vector. *)
Definition deref (p : vd_ptr) (s : intr_state) : option vector_desc := find_desc_for_int p.2 p.1 s.

Fixpoint update_vd (p : vd_ptr) (f : vector_desc -> vector_desc) (l : list vector_desc) : list vector_desc :=
  match l with
  | [] => []
  | vd :: l => if bool_decide (key vd = p) then f vd :: l else vd :: update_vd p f l
  end.
Definition write (p : vd_ptr) (f : vector_desc -> vector_desc) (s : intr_state) : intr_state :=
  set_head (update_vd p f (vector_desc_head s)) s.

(** [allocated] is whether [heap_caps_malloc] succeeds. *)
Definition get_desc_for_int (line cpu' : Z) (allocated : bool) (s : intr_state) : intr_state * option vd_ptr :=
  match find_desc_for_int line cpu' s with
  | Some vd => (s, Some (key vd))
  | None =>
      if allocated then
        let newvd := MkVd 0 (uN 1 cpu') (uN 5 line) 0 [] in
        (set_head (insert_vector_desc newvd (vector_desc_head s)) s, Some (key newvd))
      else (s, None)
  end.

(** The outer option is the failed assertion on the list of a shared vector. *)
Fixpoint find_source (src cpu' : Z) (l : list vector_desc) : option (option vector_desc) :=
  match l with
  | [] => Some None
  | vd :: l =>
      if negb (flag (vflags vd) VECDESC_FL_SHARED) then
        if (source vd =? src) && (cpu' =? cpu vd) then Some (Some vd) else find_source src cpu' l
      else if cpu vd =? cpu' then
        configASSERT (negb (bool_decide (shared_vec_info vd = [])));
        if existsb (fun svd => svd_source svd =? src) (shared_vec_info vd) then Some (Some vd) else find_source src cpu' l
      else find_source src cpu' l
  end.
Definition find_desc_for_source (src cpu' : Z) (s : intr_state) : option (option vector_desc) :=
  find_source src cpu' (vector_desc_head s).

Definition esp_intr_mark_shared (line cpu' : Z) (is_int_ram allocated : bool) (s : intr_state) : intr_state * esp_err_t :=
  if line >? 31 then (s, ESP_ERR_INVALID_ARG)
  else if cpu' >=? SOC_CPU_CORES_NUM then (s, ESP_ERR_INVALID_ARG)
  else
    match get_desc_for_int line cpu' allocated s with
    | (s, None) => (s, ESP_ERR_NO_MEM)
    | (s, Some p) =>
        let s := write p (fun d => set_flags (Z.lor (Z.land (vflags d) (Z.lnot VECDESC_FL_TYPE_MASK)) VECDESC_FL_SHARED) d) s in
        let s := if is_int_ram then write p (fun d => set_flags (Z.lor (vflags d) VECDESC_FL_INIRAM) d) s else s in
        (s, ESP_OK)
    end.

Definition esp_intr_reserve (line cpu' : Z) (allocated : bool) (s : intr_state) : intr_state * esp_err_t :=
  if line >? 31 then (s, ESP_ERR_INVALID_ARG)
  else if cpu' >=? SOC_CPU_CORES_NUM then (s, ESP_ERR_INVALID_ARG)
  else
    match get_desc_for_int line cpu' allocated s with
    | (s, None) => (s, ESP_ERR_NO_MEM)
    | (s, Some p) => (write p (set_flags VECDESC_FL_RESERVED) s, ESP_OK)
    end.

(** ** Choosing a line *)

Definition is_vect_desc_usable (core : Z) (vd : vector_desc) (flags cpu' force : Z) (s : intr_state) : option bool :=
  let x := intno vd in
  let? intr_desc := esp_cpu_intr_get_desc cpu' x in
  if flag (desc_flags intr_desc) ESP_CPU_INTR_DESC_FLAG_RESVD then Some false
  else if flag (desc_flags intr_desc) ESP_CPU_INTR_DESC_FLAG_SPECIAL && (force =? -1) then Some false
  else if negb (flag flags (Z.shiftl 1 (priority intr_desc))) then Some false
  else if flag flags ESP_INTR_FLAG_EDGE && bool_decide (type intr_desc = ESP_CPU_INTR_TYPE_LEVEL)
          || negb (flag flags ESP_INTR_FLAG_EDGE) && bool_decide (type intr_desc = ESP_CPU_INTR_TYPE_EDGE) then Some false
  else if flag (vflags vd) VECDESC_FL_RESERVED then Some false
  else
    configASSERT (negb (flag (vflags vd) VECDESC_FL_SHARED && flag (vflags vd) VECDESC_FL_NONSHARED));
    if flag (vflags vd) VECDESC_FL_NONSHARED then Some false
    else if flag (vflags vd) VECDESC_FL_SHARED then
      if flag flags ESP_INTR_FLAG_SHARED then
        let in_iram_flag := flag flags ESP_INTR_FLAG_IRAM in
        let desc_in_iram_flag := flag (vflags vd) VECDESC_FL_INIRAM in
        if negb (eqb desc_in_iram_flag in_iram_flag) then Some false else Some true
      else Some false
    else
      let? has_handler := esp_cpu_intr_has_handler core x s in
      if has_handler then Some false else Some true.

(** The best line so far, its priority, and how many handlers share it. *)
Record choice := MkChoice { best : Z; bestPriority : Z; bestSharedCt : Z }.
Definition INT_MAX : Z := 2147483647.

(** The vector of a line; one that is not in the list is as after [memset]. *)
Definition vector_of (line cpu' : Z) (s : intr_state) : vector_desc :=
  match find_desc_for_int line cpu' s with Some vd => vd | None => MkVd 0 0 line 0 [] end.

Definition consider (core flags cpu' force : Z) (s : intr_state) (c : choice) (x : Z) : option choice :=
  let vd := vector_of x cpu' s in
  let? intr_desc := esp_cpu_intr_get_desc cpu' x in
  let? usable := is_vect_desc_usable core vd flags cpu' force s in
  if negb usable then Some c
  else if flag flags ESP_INTR_FLAG_SHARED then
    if flag (vflags vd) VECDESC_FL_SHARED then
      let no := Z.of_nat (length (shared_vec_info vd)) in
      if (no <? bestSharedCt c) || (bestPriority c >? priority intr_desc)
      then Some (MkChoice x (priority intr_desc) no) else Some c
    else if best c =? -1 then
      if bestPriority c >? priority intr_desc then Some (MkChoice x (priority intr_desc) (bestSharedCt c)) else Some c
    else Some c
  else if bestPriority c >? priority intr_desc then Some (MkChoice x (priority intr_desc) (bestSharedCt c))
  else Some c.

Fixpoint search_lines (core flags cpu' force : Z) (s : intr_state) (xs : list Z) (c : choice) : option choice :=
  match xs with
  | [] => Some c
  | x :: xs => let? c := consider core flags cpu' force s c x in search_lines core flags cpu' force s xs c
  end.

Definition get_available_int (core flags cpu' force src : Z) (s : intr_state) : option Z :=
  let flags := if flag flags ESP_INTR_FLAG_LEVELMASK then flags else Z.lor flags ESP_INTR_FLAG_LOWMED in
  let? found := find_desc_for_source src cpu' s in
  match found with
  | Some vd =>
      if negb (force =? -1) && negb (force =? intno vd) then Some (-1)
      else
        let? usable := is_vect_desc_usable core vd flags cpu' force s in
        if usable then Some (intno vd) else Some (-1)
  | None =>
      if negb (force =? -1) then
        let vd := vector_of force cpu' s in
        let? usable := is_vect_desc_usable core vd flags cpu' force s in
        if usable then Some (intno vd) else Some (-1)
      else
        let? c := search_lines core flags cpu' force s (seqZ 0 (Z.of_nat CPU_INT_LINES_COUNT)) (MkChoice (-1) 9 INT_MAX) in
        Some (best c)
  end.

(** ** Allocating *)

Definition SOC_IROM_MASK_LOW : Z := 0x40000000.
Definition SOC_IROM_MASK_HIGH : Z := 0x40060000.
Definition esp_ptr_in_rom (p : Z) : bool := (p >=? SOC_IROM_MASK_LOW) && (p <? SOC_IROM_MASK_HIGH).
Definition esp_intr_ptr_in_isr_region (p : Z) : bool :=
  esp_ptr_in_iram p || esp_ptr_in_rtc_iram_fast p || esp_ptr_in_rom p.

Fixpoint update_svd (a : Z) (f : shared_vector_desc -> shared_vector_desc) (l : list shared_vector_desc) : list shared_vector_desc :=
  match l with
  | [] => []
  | d :: l => if addr d =? a then f d :: l else d :: update_svd a f l
  end.
Definition set_disabled v d := MkSvd (addr d) v (svd_source d) (statusreg d) (statusmask d) (isr d) (arg d).

(** The entry of a shared vector behind a pointer: it must be in the list. *)
Definition deref_svd (a : Z) (vd : vector_desc) : option shared_vector_desc :=
  List.find (fun d => addr d =? a) (shared_vec_info vd).

Definition is_null {A} (p : option A) : bool := match p with None => true | Some _ => false end.

Definition esp_intr_enable (core : Z) (handle : option intr_handle) (s : intr_state) : option (intr_state * esp_err_t) :=
  match handle with
  | None => Some (s, ESP_ERR_INVALID_ARG)
  | Some h =>
      let? p := h_vector_desc h in
      let? vd := deref p s in
      let? (s, src) := match h_shared_vector_desc h with
        | Some a =>
            let? d := deref_svd a vd in
            Some (write p (set_shared (update_svd a (set_disabled false) (shared_vec_info vd))) s, svd_source d)
        | None => Some (s, source vd)
        end in
      if src >=? 0 then Some (esp_rom_route_intr_matrix (cpu vd) src (intno vd) s, ESP_OK)
      else if negb (cpu vd =? core) then Some (s, ESP_ERR_INVALID_ARG)
      else Some (esp_intr_enable_source core (intno vd) s, ESP_OK)
  end.

Definition esp_intr_disable (core : Z) (handle : option intr_handle) (s : intr_state) : option (intr_state * esp_err_t) :=
  match handle with
  | None => Some (s, ESP_ERR_INVALID_ARG)
  | Some h =>
      let? p := h_vector_desc h in
      let? vd := deref p s in
      let? (s, (src, disabled)) := match h_shared_vector_desc h with
        | Some a =>
            let? d := deref_svd a vd in
            let l := update_svd a (set_disabled true) (shared_vec_info vd) in
            configASSERT (negb (bool_decide (l = [])));
            Some (write p (set_shared l) s,
                  (svd_source d, negb (existsb (fun e => (svd_source e =? svd_source d) && negb (disabled e)) l)))
        | None => Some (s, (source vd, true))
        end in
      if src >=? 0 then
        Some (if (disabled : bool) then esp_rom_route_intr_matrix (cpu vd) src INT_MUX_DISABLED_INTNO s else s, ESP_OK)
      else if negb (cpu vd =? core) then Some (s, ESP_ERR_INVALID_ARG)
      else Some (esp_intr_disable_source core (intno vd) s, ESP_OK)
  end.

(** The line that an internal source is tied to, or -1. *)
Definition tied_line (src : Z) : Z :=
  if src =? ETS_INTERNAL_PROFILING_INTR_SOURCE then ETS_INTERNAL_PROFILING_INTR_NO
  else if src =? ETS_INTERNAL_SW1_INTR_SOURCE then ETS_INTERNAL_SW1_INTR_NO
  else if src =? ETS_INTERNAL_SW0_INTR_SOURCE then ETS_INTERNAL_SW0_INTR_NO
  else if src =? ETS_INTERNAL_TIMER2_INTR_SOURCE then ETS_INTERNAL_TIMER2_INTR_NO
  else if src =? ETS_INTERNAL_TIMER1_INTR_SOURCE then ETS_INTERNAL_TIMER1_INTR_NO
  else if src =? ETS_INTERNAL_TIMER0_INTR_SOURCE then ETS_INTERNAL_TIMER0_INTR_NO
  else -1.

(** What the caller asks for. *)
Record request := MkRequest {
  rq_source : Z;
  rq_flags : Z;
  intrstatusreg : Z;
  intrstatusmask : Z;
  rq_handler : Z;
  rq_arg : Z;
  shared_handle : option intr_handle
}.

(** The results of the allocations: of the handle and of a new vector whether
    they succeed, of a shared vector its address. *)
Record mallocs := MkMallocs { ret_ok : bool; vd_ok : bool; sh_vec : option Z }.

(** The checks of the arguments, before anything is allocated. *)
Definition invalid_request (r : request) : bool :=
  let flags := rq_flags r in
  flag flags ESP_INTR_FLAG_SHARED && flag flags ESP_INTR_FLAG_EDGE
  || flag flags ESP_INTR_FLAG_HIGH && negb (rq_handler r =? 0)
  || flag flags ESP_INTR_FLAG_SHARED && ((rq_handler r =? 0) || (rq_source r <? 0))
  || negb (intrstatusreg r =? 0) && (intrstatusmask r =? 0)
  || flag flags ESP_INTR_FLAG_IRAM && negb (rq_handler r =? 0) && negb (esp_intr_ptr_in_isr_region (rq_handler r))
  || negb (is_null (shared_handle r)) && negb (flag flags ESP_INTR_FLAG_SHARED).

Definition default_level (flags : Z) : Z :=
  if flag flags ESP_INTR_FLAG_LEVELMASK then flags
  else if flag flags ESP_INTR_FLAG_SHARED then Z.lor flags ESP_INTR_FLAG_LEVEL1
  else Z.lor flags ESP_INTR_FLAG_LOWMED.

(** "Allocate that int!": entering the handler; [None] inside is a failed
    allocation of the shared entry. *)
Definition install (core : Z) (flags : Z) (r : request) (intr : Z) (vd : vd_ptr) (sh_vec : option Z) (s : intr_state) :
    option (option intr_state) :=
  if flag flags ESP_INTR_FLAG_SHARED then
    match sh_vec with
    | None => Some None
    | Some a =>
        let d := MkSvd a false (sN 16 (rq_source r)) (intrstatusreg r) (intrstatusmask r) (rq_handler r) (rq_arg r) in
        let s := write vd (fun v => set_shared (d :: shared_vec_info v) v) s in
        let s := write vd (fun v => set_flags (Z.lor (vflags v) VECDESC_FL_SHARED) v) s in
        let? s := esp_cpu_intr_set_handler core intr (shared_intr_handler vd) s in
        Some (Some s)
    end
  else
    let s := write vd (set_flags VECDESC_FL_NONSHARED) s in
    let? s := if negb (rq_handler r =? 0) then esp_cpu_intr_set_handler core intr (intr_handler (rq_handler r) (rq_arg r)) s
              else Some s in
    Some (Some (write vd (set_source (rq_source r)) s)).

Definition mark_iram (cpu' intr : Z) (in_iram : bool) (vd : vd_ptr) (s : intr_state) : intr_state :=
  if in_iram then
    set_non_iram_mask (<[cpu' := Z.land (non_iram_int_mask s cpu') (Z.lnot (Z.shiftl 1 intr))]> (non_iram_int_mask s))
      (write vd (fun v => set_flags (Z.lor (vflags v) VECDESC_FL_INIRAM) v) s)
  else
    set_non_iram_mask (<[cpu' := Z.lor (non_iram_int_mask s cpu') (Z.shiftl 1 intr)]> (non_iram_int_mask s))
      (write vd (fun v => set_flags (Z.land (vflags v) (Z.lnot VECDESC_FL_INIRAM)) v) s).

Definition esp_intr_alloc_intrstatus_bind (core : Z) (r : request) (m : mallocs) (s : intr_state) :
    option (intr_state * (esp_err_t * option intr_handle)) :=
  if invalid_request r then Some (s, (ESP_ERR_INVALID_ARG, None))
  else if negb (ret_ok m) then Some (s, (ESP_ERR_NO_MEM, None))
  else
    let flags := default_level (rq_flags r) in
    let? target := match shared_handle r with
      | None => Some (Some (core, tied_line (rq_source r)))
      | Some h =>
          match h_vector_desc h with
          | None => Some None
          | Some p => let? vd := deref p s in Some (Some (cpu vd, intno vd))
          end
      end in
    match target with
    | None => Some (s, (ESP_ERR_INVALID_ARG, None))
    | Some (cpu', force) =>
        let? intr := get_available_int core flags cpu' force (rq_source r) s in
        if intr =? -1 then Some (s, (ESP_ERR_NOT_FOUND, None))
        else
          match get_desc_for_int intr cpu' (vd_ok m) s with
          | (s, None) => Some (s, (ESP_ERR_NO_MEM, None))
          | (s, Some vd) =>
              let? installed := install core flags r intr vd (sh_vec m) s in
              match installed with
              | None => Some (s, (ESP_ERR_NO_MEM, None))
              | Some s =>
                  let s := mark_iram cpu' intr (flag flags ESP_INTR_FLAG_IRAM) vd s in
                  let s := if rq_source r >=? 0 then esp_rom_route_intr_matrix cpu' (rq_source r) intr s else s in
                  let? v := deref vd s in
                  let ret := MkHandle (Some vd) (addr <$> head (shared_vec_info v)) in
                  let s := esp_intr_enable_source core intr s in
                  let? s := if flag flags ESP_INTR_FLAG_INTRDISABLED
                            then let? (s, _) := esp_intr_disable core (Some ret) s in Some s
                            else Some s in
                  Some (s, (ESP_OK, Some ret))
              end
          end
    end.

Definition esp_intr_alloc_intrstatus (core src flags reg mask handler arg : Z) : mallocs -> intr_state ->
    option (intr_state * (esp_err_t * option intr_handle)) :=
  esp_intr_alloc_intrstatus_bind core (MkRequest src flags reg mask handler arg None).
Definition esp_intr_alloc (core src flags handler arg : Z) : mallocs -> intr_state ->
    option (intr_state * (esp_err_t * option intr_handle)) :=
  esp_intr_alloc_intrstatus core src flags 0 0 handler arg.
Definition esp_intr_alloc_bind (core src flags handler arg : Z) (shared : option intr_handle) : mallocs -> intr_state ->
    option (intr_state * (esp_err_t * option intr_handle)) :=
  esp_intr_alloc_intrstatus_bind core (MkRequest src flags 0 0 handler arg shared).

(** ** The other calls *)

Definition esp_intr_set_in_iram (handle : option intr_handle) (is_in_iram : bool) (s : intr_state) : option (intr_state * esp_err_t) :=
  match handle with
  | None => Some (s, ESP_ERR_INVALID_ARG)
  | Some h =>
      let? p := h_vector_desc h in
      let? vd := deref p s in
      if flag (vflags vd) VECDESC_FL_SHARED then Some (s, ESP_ERR_INVALID_ARG)
      else Some (mark_iram (cpu vd) (intno vd) is_in_iram p s, ESP_OK)
  end.

Fixpoint remove_svd (a : option Z) (l : list shared_vector_desc) : list shared_vector_desc :=
  match l with
  | [] => []
  | d :: l => if bool_decide (Some (addr d) = a) then l else d :: remove_svd a l
  end.

(** "Reset to normal handler", and mark the vector as free. *)
Definition release_vector (core : Z) (p : vd_ptr) (vd : vector_desc) (s : intr_state) : option intr_state :=
  let? s := esp_cpu_intr_set_handler core (intno vd) xt_unhandled_interrupt s in
  let s := write p (fun v => set_flags (Z.land (vflags v)
             (Z.lnot (Z.lor (Z.lor VECDESC_FL_NONSHARED VECDESC_FL_RESERVED) VECDESC_FL_SHARED))) v) s in
  let s := write p (set_source ETS_INTERNAL_UNUSED_INTR_SOURCE) s in
  Some (set_non_iram_mask (<[cpu vd := Z.land (non_iram_int_mask s (cpu vd)) (Z.lnot (Z.shiftl 1 (intno vd)))]> (non_iram_int_mask s)) s).

(** "Find and kill the shared int", and release a line without handlers. *)
Definition unlink_handle (core : Z) (h : intr_handle) (s : intr_state) : option (intr_state * esp_err_t) :=
  let? p := h_vector_desc h in
  let? vd := deref p s in
  let? (s, free_shared_vector) := if flag (vflags vd) VECDESC_FL_SHARED then
      configASSERT (negb (bool_decide (shared_vec_info vd = [])));
      let l := remove_svd (h_shared_vector_desc h) (shared_vec_info vd) in
      Some (write p (set_shared l) s, bool_decide (l = []))
    else Some (s, false) in
  if flag (vflags vd) VECDESC_FL_NONSHARED || free_shared_vector then
    let? s := release_vector core p vd s in Some (s, ESP_OK)
  else Some (s, ESP_OK).

Definition intr_free_for_current_cpu (core : Z) (h : intr_handle) (s : intr_state) : option (intr_state * esp_err_t) :=
  let? (s, _) := esp_intr_disable core (Some h) s in
  unlink_handle core h s.

(** [any_core] is whether the calling task is not pinned to a core, [ipc] what
    [esp_ipc_call_blocking] returns, which runs the function on the other core
    when it succeeds. *)
Definition esp_intr_free (core : Z) (any_core : bool) (ipc : esp_err_t) (handle : option intr_handle) (s : intr_state) :
    option (intr_state * esp_err_t) :=
  match handle with
  | None => Some (s, ESP_ERR_INVALID_ARG)
  | Some h =>
      let? p := h_vector_desc h in
      let? vd := deref p s in
      if any_core || negb (cpu vd =? core) then
        if ipc =? ESP_OK then let? (s, _) := intr_free_for_current_cpu (cpu vd) h s in Some (s, ESP_OK)
        else Some (s, ESP_FAIL)
      else intr_free_for_current_cpu core h s
  end.

Definition esp_intr_get_intno (handle : option intr_handle) (s : intr_state) : option Z :=
  match handle with
  | Some (MkHandle (Some p) _) => let? vd := deref p s in Some (intno vd)
  | _ => Some (-1)
  end.
Definition esp_intr_get_cpu (handle : option intr_handle) (s : intr_state) : option Z :=
  match handle with
  | Some (MkHandle (Some p) _) => let? vd := deref p s in Some (cpu vd)
  | _ => Some (-1)
  end.

(** ** While the flash cache is disabled *)

Definition set_rtc_masks (enabled ena : Z) (r : rtc_state) : rtc_state :=
  MkRtc (rtc_intr_cache r) enabled (rtc_isr_cpu r) (rtc_isr_handler_list r) (rtc_isr_handle r) ena.
Definition rtc_isr_noniram_disable (core : Z) (r : rtc_state) : rtc_state :=
  if rtc_isr_cpu r =? core
  then set_rtc_masks (Z.lor (rtc_intr_enabled r) (rtc_int_ena r)) (Z.land (rtc_int_ena r) (rtc_intr_cache r)) r else r.
Definition rtc_isr_noniram_enable (core : Z) (r : rtc_state) : rtc_state :=
  if rtc_isr_cpu r =? core then set_rtc_masks 0 (rtc_intr_enabled r) r else r.

(** [None] is the call of [abort]. *)
Definition esp_intr_noniram_disable (core : Z) (s : intr_state) : option intr_state :=
  let non_iram_ints := non_iram_int_mask s core in
  if non_iram_int_disabled_flag s core then None
  else
    let s := set_non_iram_disabled (non_iram_int_disabled s) (<[core := true]> (non_iram_int_disabled_flag s)) s in
    let oldint := intenable s core in
    let s := esp_cpu_intr_disable core non_iram_ints s in
    let s := set_rtc (rtc_isr_noniram_disable core (rtc s)) s in
    Some (set_non_iram_disabled (<[core := Z.land oldint non_iram_ints]> (non_iram_int_disabled s)) (non_iram_int_disabled_flag s) s).

Definition esp_intr_noniram_enable (core : Z) (s : intr_state) : option intr_state :=
  let non_iram_ints := non_iram_int_disabled s core in
  if negb (non_iram_int_disabled_flag s core) then None
  else
    let s := set_non_iram_disabled (non_iram_int_disabled s) (<[core := false]> (non_iram_int_disabled_flag s)) s in
    let s := esp_cpu_intr_enable core non_iram_ints s in
    Some (set_rtc (rtc_isr_noniram_enable core (rtc s)) s).

(** ** Handlers that run

    [W] is the world of the handlers: [read] reads a status register, [call]
    runs a handler with its argument. *)

Section dispatch.
Context {W : Type} (read : W -> Z -> Z) (call : Z -> Z -> W -> W).

Fixpoint call_handlers (sh_vec : list shared_vector_desc) (w : W) : W :=
  match sh_vec with
  | [] => w
  | d :: l =>
      let w := if negb (disabled d) then
                 if (statusreg d =? 0) || flag (read w (statusreg d)) (statusmask d) then call (isr d) (arg d) w else w
               else w in
      call_handlers l w
  end.

(** [None] is a dead pointer. *)
Definition shared_intr_isr (p : vd_ptr) (s : intr_state) (w : W) : option W :=
  let? vd := deref p s in Some (call_handlers (shared_vec_info vd) w).

(** A line is taken: its entry of the table is called. *)
Definition take_line (cpu' line : Z) (s : intr_state) (w : W) : option W :=
  match interrupt_table s (cpu', line) with
  | xt_unhandled_interrupt => Some w
  | shared_intr_handler p => shared_intr_isr p s w
  | intr_handler f a => Some (call f a w)
  end.
End dispatch.

(** ** The interrupt of the RTC controller, [rtc_module.c]

    One line is allocated on first use; handlers are told apart by bits of the
    status.  [rtc_intr_cache] has the bits that stay enabled while the cache is
    disabled. *)

Definition ETS_RTC_CORE_INTR_SOURCE : Z := 39.
Definition RTC_INTR_FLAG_IRAM : Z := 2 ^ 0.

Definition set_rtc_cache v (r : rtc_state) : rtc_state :=
  MkRtc v (rtc_intr_enabled r) (rtc_isr_cpu r) (rtc_isr_handler_list r) (rtc_isr_handle r) (rtc_int_ena r).
Definition set_rtc_handlers v (r : rtc_state) : rtc_state :=
  MkRtc (rtc_intr_cache r) (rtc_intr_enabled r) (rtc_isr_cpu r) v (rtc_isr_handle r) (rtc_int_ena r).
Definition set_rtc_handle cpu' v (r : rtc_state) : rtc_state :=
  MkRtc (rtc_intr_cache r) (rtc_intr_enabled r) cpu' (rtc_isr_handler_list r) v (rtc_int_ena r).

Definition s_rtc_isr_noniram_hook (mask : Z) (r : rtc_state) : rtc_state := set_rtc_cache (Z.lor (rtc_intr_cache r) mask) r.
Definition s_rtc_isr_noniram_hook_relieve (mask : Z) (r : rtc_state) : rtc_state :=
  set_rtc_cache (Z.land (rtc_intr_cache r) (Z.lnot mask)) r.

(** The handler [rtc_isr], for handlers that do not deregister any. *)
Definition rtc_isr {W} (call : Z -> Z -> W -> W) (status : Z) (r : rtc_state) (w : W) : W :=
  foldl (fun w it => if flag (rtc_mask it) status then call (rtc_handler it) (rtc_arg it) w else w) w (rtc_isr_handler_list r).

(** [rtc_isr] is at [isr_addr]. *)
Definition rtc_isr_ensure_installed (core isr_addr : Z) (m : mallocs) (s : intr_state) : option (intr_state * esp_err_t) :=
  match rtc_isr_handle (rtc s) with
  | Some _ => Some (s, ESP_OK)
  | None =>
      let s := set_rtc (set_rtc_masks (rtc_intr_enabled (rtc s)) 0 (rtc s)) s in
      let? (s, (err, handle)) := esp_intr_alloc core ETS_RTC_CORE_INTR_SOURCE ESP_INTR_FLAG_IRAM isr_addr 0 m s in
      if negb (err =? ESP_OK) then Some (s, err)
      else
        let? cpu' := esp_intr_get_cpu handle s in
        Some (set_rtc (set_rtc_handle cpu' handle (rtc s)) s, err)
  end.

Definition rtc_isr_register (core isr_addr : Z) (m : mallocs) (handler handler_arg mask flags : Z) (item_ok : bool) (s : intr_state) :
    option (intr_state * esp_err_t) :=
  let? (s, err) := rtc_isr_ensure_installed core isr_addr m s in
  if negb (err =? ESP_OK) then Some (s, err)
  else if negb item_ok then Some (s, ESP_ERR_NO_MEM)
  else
    let item := MkRtcHandler mask handler handler_arg flags in
    let r := if flag flags RTC_INTR_FLAG_IRAM then s_rtc_isr_noniram_hook mask (rtc s)
             else s_rtc_isr_noniram_hook_relieve mask (rtc s) in
    Some (set_rtc (set_rtc_handlers (item :: rtc_isr_handler_list r) r) s, ESP_OK).

Fixpoint remove_handler (handler handler_arg : Z) (l : list rtc_isr_handler) : option (rtc_isr_handler * list rtc_isr_handler) :=
  match l with
  | [] => None
  | it :: l =>
      if (rtc_handler it =? handler) && (rtc_arg it =? handler_arg) then Some (it, l)
      else match remove_handler handler handler_arg l with
           | Some (found, l) => Some (found, it :: l)
           | None => None
           end
  end.

Definition rtc_isr_deregister (handler handler_arg : Z) (s : intr_state) : intr_state * esp_err_t :=
  match remove_handler handler handler_arg (rtc_isr_handler_list (rtc s)) with
  | None => (s, ESP_ERR_INVALID_STATE)
  | Some (it, l) =>
      let r := set_rtc_handlers l (rtc s) in
      let r := if flag (rtc_flags it) RTC_INTR_FLAG_IRAM then s_rtc_isr_noniram_hook_relieve (rtc_mask it) r else r in
      (set_rtc r s, ESP_OK)
  end.
