(* ===== verification/IntrInv.v ===== *)
(** * Who uses which interrupt line

    An abstract view of the interrupt allocator: the list of allocations, newest
    first.  [inv] relates it to the vectors, the table of handlers, the matrix
    and the masks, line by line; [frame] says that an operation on one line
    leaves the others alone. *)

From stdpp Require Import functions sorting.
From S2P Require Import Prelude EspErr Image IntrAlloc.

(** ** Pointers to vectors *)

Definition at_ptr (p : vd_ptr) (vd : vector_desc) : bool := (cpu vd =? p.1) && (intno vd =? p.2).

Lemma at_ptr_true p vd : at_ptr p vd = true <-> key vd = p.
Proof.
  unfold at_ptr, key. destruct p as [c i]. cbn. rewrite andb_true_iff, !Z.eqb_eq. split; [by intros [-> ->]|by intros [= -> ->]].
Qed.

Lemma at_ptr_false p vd : at_ptr p vd = false <-> key vd <> p.
Proof. rewrite <- not_true_iff_false, at_ptr_true. done. Qed.

Lemma deref_find p s : deref p s = find_vd (at_ptr p) (vector_desc_head s).
Proof. done. Qed.

Lemma find_vd_Some p l vd : find_vd (at_ptr p) l = Some vd -> key vd = p /\ vd ∈ l.
Proof.
  induction l as [|d l IH]; [done|]. cbn. destruct (at_ptr p d) eqn:E.
  - intros [= ->]. split; [by apply at_ptr_true|by left].
  - intros H. apply IH in H as [? ?]. split; [done|by right].
Qed.

Lemma deref_Some p s vd : deref p s = Some vd -> key vd = p /\ vd ∈ vector_desc_head s.
Proof. apply find_vd_Some. Qed.

(** Functions that keep the place of a vector. *)
Class Keeps (f : vector_desc -> vector_desc) := keeps_key : forall d, key (f d) = key d.
#[export] Instance keeps_flags v : Keeps (fun d => set_flags (v d) d).
Proof. done. Qed.
#[export] Instance keeps_set_flags v : Keeps (set_flags v).
Proof. done. Qed.
#[export] Instance keeps_source v : Keeps (set_source v).
Proof. done. Qed.
#[export] Instance keeps_shared v : Keeps (fun d => set_shared (v d) d).
Proof. done. Qed.
#[export] Instance keeps_set_shared v : Keeps (set_shared v).
Proof. done. Qed.

Lemma find_update p q f l : Keeps f -> find_vd (at_ptr q) (update_vd p f l) = (if decide (q = p) then f <$> find_vd (at_ptr q) l else find_vd (at_ptr q) l).
Proof.
  intros Hf. induction l as [|d l IH]; cbn; [by destruct (decide _)|]. case_bool_decide as E; cbn.
  - assert (at_ptr q (f d) = at_ptr q d) as -> by (apply eq_true_iff_eq; rewrite !at_ptr_true, (Hf d); done).
    destruct (at_ptr q d) eqn:Eq; [|by destruct (decide _) as [->|]; [apply at_ptr_false in Eq|]].
    apply at_ptr_true in Eq. by rewrite decide_True by congruence.
  - rewrite IH. destruct (at_ptr q d) eqn:Eq; [|done]. apply at_ptr_true in Eq. by rewrite decide_False by congruence.
Qed.

Lemma deref_write_vd p q f s : Keeps f -> deref q (write p f s) = (if decide (q = p) then f <$> deref q s else deref q s).
Proof. apply find_update. Qed.

Lemma keys_update p f l : Keeps f -> map key (update_vd p f l) = map key l.
Proof. intros Hf. induction l as [|d l IH]; [done|]. cbn. case_bool_decide; cbn; [by rewrite (Hf d)|by rewrite IH]. Qed.

(** ** The order of the list *)

Definition before (p q : vd_ptr) : Prop := p.1 < q.1 \/ p.1 = q.1 /\ p.2 < q.2.

Lemma before_ne p q : before p q -> p <> q.
Proof. unfold before. intros H ->. lia. Qed.

Definition sorted (l : list vector_desc) : Prop := StronglySorted before (map key l).

Lemma insert_In vd l d : d ∈ insert_vector_desc vd l <-> d = vd \/ d ∈ l.
Proof.
  induction l as [|e l IH]; cbn; [by rewrite list_elem_of_singleton, elem_of_nil; tauto|].
  destruct (_ || _); rewrite !elem_of_cons; [done|]. rewrite IH. tauto.
Qed.

Lemma sorted_insert vd l : sorted l -> ~ key vd ∈ map key l -> sorted (insert_vector_desc vd l).
Proof.
  unfold sorted. induction l as [|e l IH]; cbn; intros Hs Hn; [repeat constructor|].
  apply StronglySorted_inv in Hs as [Hs He]. rewrite elem_of_cons in Hn.
  assert (key vd <> key e) as Hne by tauto.
  destruct (_ || _) eqn:E; cbn.
  - assert (before (key vd) (key e)) as Hb.
    { apply orb_true_iff in E. rewrite andb_true_iff, Z.gtb_lt, Z.eqb_eq, Z.geb_le in E. unfold before, key in *. cbn.
      destruct E as [?|[? ?]]; [lia|]. destruct (decide (intno vd = intno e)); [congruence|lia]. }
    constructor; [by constructor|]. constructor; [done|]. eapply Forall_impl; [exact He|]. unfold before in *. cbn. intros q. lia.
  - constructor; [apply IH; tauto|]. apply Forall_forall. intros q Hq. apply list_elem_of_fmap in Hq as (d & -> & Hd).
    apply insert_In in Hd as [->|Hd].
    + apply orb_false_iff in E as [E1 E2]. unfold before, key in *. cbn. rewrite Z.gtb_ltb, Z.ltb_ge in E1.
      apply andb_false_iff in E2. rewrite Z.eqb_neq, Z.geb_leb, Z.leb_gt in E2. lia.
    + rewrite Forall_forall in He. by apply He, list_elem_of_fmap_2.
Qed.

Lemma find_vd_In l vd : sorted l -> vd ∈ l -> find_vd (at_ptr (key vd)) l = Some vd.
Proof.
  unfold sorted. induction l as [|e l IH]; cbn; [by rewrite elem_of_nil|]. intros Hs Hv.
  apply StronglySorted_inv in Hs as [Hs He]. apply elem_of_cons in Hv as [->|Hv].
  - by rewrite (proj2 (at_ptr_true _ _)).
  - rewrite Forall_forall in He. specialize (He (key vd) (list_elem_of_fmap_2 _ _ _ Hv)). apply before_ne in He.
    rewrite (proj2 (at_ptr_false _ _)) by done. by apply IH.
Qed.

Lemma deref_In s vd : sorted (vector_desc_head s) -> vd ∈ vector_desc_head s -> deref (key vd) s = Some vd.
Proof. apply find_vd_In. Qed.

Lemma deref_None_In p s : deref p s = None -> ~ p ∈ map key (vector_desc_head s).
Proof.
  rewrite deref_find. intros E Hin. apply list_elem_of_fmap in Hin as (d & -> & Hd). induction (vector_desc_head s) as [|e l IH]; [by apply elem_of_nil in Hd|].
  cbn in E. destruct (at_ptr (key d) e) eqn:Ee; [done|]. apply elem_of_cons in Hd as [->|Hd]; [by apply at_ptr_false in Ee|]. by apply IH.
Qed.

Lemma deref_insert vd q s : sorted (vector_desc_head s) -> deref (key vd) s = None ->
  deref q (set_head (insert_vector_desc vd (vector_desc_head s)) s) = if decide (q = key vd) then Some vd else deref q s.
Proof.
  intros Hs Hn. assert (sorted (insert_vector_desc vd (vector_desc_head s))) as Hs' by (by apply sorted_insert, deref_None_In).
  destruct (decide _) as [->|Hne]; [apply find_vd_In; [done|apply insert_In; by left]|].
  destruct (deref q s) as [d|] eqn:E.
  - apply deref_Some in E as [<- Hd]. apply find_vd_In; [done|]. apply insert_In. by right.
  - destruct (deref q (set_head _ s)) as [d|] eqn:E'; [|done]. apply deref_Some in E' as [<- Hd]. cbn in Hd. apply insert_In in Hd as [->|Hd]; [done|].
    by rewrite (deref_In s d) in E.
Qed.

(** ** Allocations *)

(** What a shared allocation has besides: the address of its entry, and its
    status register with the mask. *)
Record shared_part := MkShared { sh_addr : Z; sh_reg : Z; sh_mask : Z }.

Record alloc := MkAlloc {
  a_ptr : vd_ptr;
  a_source : Z;
  a_shared : option shared_part;
  a_isr : Z;
  a_arg : Z;
  a_iram : bool;
  a_on : bool
}.

Definition handle_of (a : alloc) : intr_handle := MkHandle (Some (a_ptr a)) (sh_addr <$> a_shared a).
Definition is_shared (a : alloc) : bool := negb (is_null (a_shared a)).
Definition switched (b : bool) (a : alloc) : alloc := MkAlloc (a_ptr a) (a_source a) (a_shared a) (a_isr a) (a_arg a) (a_iram a) b.
Definition moved (b : bool) (a : alloc) : alloc := MkAlloc (a_ptr a) (a_source a) (a_shared a) (a_isr a) (a_arg a) b (a_on a).

Definition svd_of (a : alloc) (sh : shared_part) : shared_vector_desc :=
  MkSvd (sh_addr sh) (negb (a_on a)) (a_source a) (sh_reg sh) (sh_mask sh) (a_isr a) (a_arg a).
Definition svds (L : list alloc) : list shared_vector_desc := omap (fun a => svd_of a <$> a_shared a) L.

Definition entry_of (a : alloc) : xt_handler :=
  if is_shared a then shared_intr_handler (a_ptr a)
  else if a_isr a =? 0 then xt_unhandled_interrupt else intr_handler (a_isr a) (a_arg a).

Definition on_line (p : vd_ptr) (A : list alloc) : list alloc := filter (fun a => a_ptr a = p) A.

(** A source other than 0 (see [reserve_blocks_source_0] for why). *)
Definition valid_source (src : Z) : Prop := 0 < src < 2 ^ 15 \/ -6 <= src < 0.

(** ** One line *)

Definition iram_bit (b : bool) : Z := if b then VECDESC_FL_INIRAM else 0.

(** The vector of a line, for the allocations of the line. *)
Inductive used_as (L : list alloc) (vd : vector_desc) : Prop :=
  | vd_free b : L = [] -> vflags vd = iram_bit b -> used_as L vd
  | vd_reserved : L = [] -> vflags vd = VECDESC_FL_RESERVED -> used_as L vd
  | vd_exclusive a : L = [a] -> a_shared a = None -> vflags vd = Z.lor VECDESC_FL_NONSHARED (iram_bit (a_iram a)) -> used_as L vd
  | vd_shared b : L <> [] -> Forall (fun a => is_shared a = true /\ a_iram a = b) L ->
      vflags vd = Z.lor VECDESC_FL_SHARED (iram_bit b) -> used_as L vd.

Record vector_ok (L : list alloc) (vd : vector_desc) : Prop := {
  vo_flags : used_as L vd;
  vo_shared : shared_vec_info vd = svds L;
  vo_source : match L with
              | [] => source vd = 0 \/ source vd = ETS_INTERNAL_UNUSED_INTR_SOURCE
              | a :: _ => a_shared a = None -> source vd = a_source a
              end
}.

(** Some handler of the source is enabled. *)
Definition source_on (src : Z) (L : list alloc) : bool := existsb (fun a => (a_source a =? src) && a_on a) L.

Record line_ok (p : vd_ptr) (L : list alloc) (s : intr_state) : Prop := {
  lo_vd : match deref p s with Some vd => vector_ok L vd | None => L = [] end;
  lo_ptr : Forall (fun a => a_ptr a = p /\ valid_source (a_source a) /\ (is_shared a = true -> 0 < a_source a)) L;
  lo_table : Forall (fun a => interrupt_table s p = entry_of a) L;
  lo_matrix : Forall (fun a => 0 < a_source a ->
    intr_matrix s (p.1, a_source a) = if source_on (a_source a) L then p.2 else INT_MUX_DISABLED_INTNO) L;
  lo_mask : Z.testbit (non_iram_int_mask s p.1) p.2 = existsb (fun a => negb (a_iram a)) L;
  lo_enabled : Forall (fun a => Z.testbit (intenable s p.1) p.2 = (0 <? a_source a) || a_on a) L
}.

Definition valid_line (p : vd_ptr) : Prop := 0 <= p.1 < SOC_CPU_CORES_NUM /\ 0 <= p.2 < SOC_CPU_INTR_NUM.

Definition addresses (A : list alloc) : list Z := omap (fun a => sh_addr <$> a_shared a) A.

Record inv (A : list alloc) (s : intr_state) : Prop := {
  inv_sorted : sorted (vector_desc_head s);
  inv_lines : Forall valid_line (map key (vector_desc_head s));
  inv_line p : valid_line p -> line_ok p (on_line p A) s;
  inv_ptr : Forall (fun a => valid_line (a_ptr a)) A;
  inv_source a b : a ∈ A -> b ∈ A -> (a_ptr a).1 = (a_ptr b).1 -> a_source a = a_source b -> a_ptr a = a_ptr b;
  inv_addr : NoDup (addresses A);
  inv_window c : non_iram_int_disabled_flag s c = false
}.

(** ** Operations on one line

    [frame p src s s']: at most line [p] and the route of [src] were touched. *)

Record frame (p : vd_ptr) (src : Z) (s s' : intr_state) : Prop := {
  fr_deref q : q <> p -> deref q s' = deref q s;
  fr_table q : q <> p -> interrupt_table s' q = interrupt_table s q;
  fr_mask q : q <> p -> 0 <= q.2 -> Z.testbit (non_iram_int_mask s' q.1) q.2 = Z.testbit (non_iram_int_mask s q.1) q.2;
  fr_enabled q : q <> p -> 0 <= q.2 -> Z.testbit (intenable s' q.1) q.2 = Z.testbit (intenable s q.1) q.2;
  fr_matrix k : k <> (p.1, src) -> intr_matrix s' k = intr_matrix s k;
  fr_flag c : non_iram_int_disabled_flag s' c = non_iram_int_disabled_flag s c;
  fr_keys : map key (vector_desc_head s') = map key (vector_desc_head s)
}.

#[export] Instance frame_preorder p src : PreOrder (frame p src).
Proof.
  split.
  - intros s. by split.
  - intros s1 s2 s3 [A1 A2 A3 A4 A5 A6 A7] [B1 B2 B3 B4 B5 B6 B7]. split; intros; [rewrite B1, A1|rewrite B2, A2|rewrite B3, A3|rewrite B4, A4|rewrite B5, A5|rewrite B6, A6|rewrite B7, A7]; done.
Qed.

Lemma frame_write p src f s : Keeps f -> frame p src s (write p f s).
Proof. intros Hf. split; try done; [intros q Hq; by rewrite deref_write_vd, decide_False|apply keys_update, Hf]. Qed.

Lemma frame_set_handler c i src f s : frame (c, i) src s (xt_set_interrupt_handler c i f s).
Proof.
  unfold xt_set_interrupt_handler. do 2 (case_match; [done|]). split; try done. intros q Hq. cbn. by rewrite fn_lookup_insert_ne by done.
Qed.

Lemma frame_route c i src l s : frame (c, i) src s (esp_rom_route_intr_matrix c src l s).
Proof. split; try done. intros k Hk. cbn in *. by rewrite fn_lookup_insert_ne by done. Qed.

(** Words with one bit per line. *)
Lemma testbit_set m i j : 0 <= i -> Z.testbit (Z.lor m (Z.shiftl 1 i)) j = Z.testbit m j || (i =? j).
Proof.
  intros Hi. rewrite Z.lor_spec, Z.shiftl_1_l. f_equal. by apply Z.pow2_bits_eqb.
Qed.

Lemma testbit_clear_line m i j : 0 <= i -> Z.testbit (Z.land m (Z.lnot (Z.shiftl 1 i))) j = Z.testbit m j && negb (i =? j).
Proof.
  intros Hi. rewrite Z.land_spec, Z.shiftl_1_l. destruct (decide (0 <= j)).
  - by rewrite Z.lnot_spec, Z.pow2_bits_eqb by done.
  - by rewrite (Z.testbit_neg_r m) by lia.
Qed.

Lemma frame_set_mask c i src m s : (forall j, j <> i -> 0 <= j -> Z.testbit m j = Z.testbit (non_iram_int_mask s c) j) ->
  frame (c, i) src s (set_non_iram_mask (<[c := m]> (non_iram_int_mask s)) s).
Proof.
  intros Hm. split; try done. intros [c' j] Hq Hj. cbn in *. destruct (decide (c' = c)) as [->|]; [rewrite fn_lookup_insert|by rewrite fn_lookup_insert_ne].
  apply Hm; congruence.
Qed.

Lemma frame_set_enabled c i src m s : (forall j, j <> i -> 0 <= j -> Z.testbit m j = Z.testbit (intenable s c) j) ->
  frame (c, i) src s (set_intenable (<[c := m]> (intenable s)) s).
Proof.
  intros Hm. split; try done. intros [c' j] Hq Hj. cbn in *. destruct (decide (c' = c)) as [->|]; [rewrite fn_lookup_insert|by rewrite fn_lookup_insert_ne].
  apply Hm; congruence.
Qed.

Lemma set_others m i j : 0 <= i -> j <> i -> Z.testbit (Z.lor m (Z.shiftl 1 i)) j = Z.testbit m j.
Proof. intros. rewrite testbit_set, (proj2 (Z.eqb_neq _ _)), orb_false_r by lia. done. Qed.

Lemma clear_others m i j : 0 <= i -> j <> i -> Z.testbit (Z.land m (Z.lnot (Z.shiftl 1 i))) j = Z.testbit m j.
Proof. intros. rewrite testbit_clear_line, (proj2 (Z.eqb_neq i j)), andb_true_r by lia. done. Qed.

Lemma frame_mark c i src b s : 0 <= i -> frame (c, i) src s (mark_iram c i b (c, i) s).
Proof.
  intros Hi. unfold mark_iram. destruct b.
  - etrans; [apply (frame_write (c, i) src (fun v => set_flags (Z.lor (vflags v) VECDESC_FL_INIRAM) v)), _|].
    refine (frame_set_mask c i src _ (write _ _ s) _). intros j Hj _. by apply clear_others.
  - etrans; [apply (frame_write (c, i) src (fun v => set_flags (Z.land (vflags v) (Z.lnot VECDESC_FL_INIRAM)) v)), _|].
    refine (frame_set_mask c i src _ (write _ _ s) _). intros j Hj _. by apply set_others.
Qed.

Lemma frame_enable c i src s : 0 <= i -> frame (c, i) src s (esp_intr_enable_source c i s).
Proof. intros Hi. apply frame_set_enabled. intros j Hj _. by apply set_others. Qed.

Lemma frame_disable c i src s : 0 <= i -> frame (c, i) src s (esp_intr_disable_source c i s).
Proof. intros Hi. apply frame_set_enabled. intros j Hj _. by apply clear_others. Qed.

(** ** Changing one line keeps the invariant *)

Lemma line_frame p q src L s s' : frame p src s s' -> q <> p -> valid_line q ->
  Forall (fun a => q.1 = p.1 -> a_source a <> src) L -> line_ok q L s -> line_ok q L s'.
Proof.
  intros F Hq Hv Hsrc [O1 O2 O3 O4 O5 O6]. destruct Hv as [_ [Hv _]]. split; [by rewrite (fr_deref _ _ _ _ F)|done| | | |].
  - by rewrite (fr_table _ _ _ _ F).
  - rewrite Forall_forall in *. intros a Ha Hp. rewrite (fr_matrix _ _ _ _ F); [by apply O4|]. intros [= E1 E2]. by apply (Hsrc a Ha).
  - by rewrite (fr_mask _ _ _ _ F).
  - by rewrite (fr_enabled _ _ _ _ F).
Qed.

Lemma on_line_cons p a A : on_line p (a :: A) = if decide (a_ptr a = p) then a :: on_line p A else on_line p A.
Proof. unfold on_line. by rewrite filter_cons. Qed.

Lemma on_line_In p A a : a ∈ on_line p A <-> a_ptr a = p /\ a ∈ A.
Proof. unfold on_line. by rewrite list_elem_of_filter. Qed.

(** The allocations elsewhere are the same, and the new ones of the line fit. *)
Lemma inv_update p src A A' s s' : inv A s -> frame p src s s' -> valid_line p ->
  (forall q, q <> p -> on_line q A' = on_line q A) ->
  (forall a, a ∈ A -> (a_ptr a).1 = p.1 -> a_source a = src -> a_ptr a = p) ->
  (forall a, a ∈ on_line p A' -> a_source a = src \/ exists b, b ∈ on_line p A /\ a_source b = a_source a) ->
  NoDup (addresses A') -> line_ok p (on_line p A') s' -> inv A' s'.
Proof.
  intros I F Hp HA Hsrc Hnew Hnd Hl.
  assert (forall a, a ∈ A' -> a_ptr a = p \/ a ∈ A) as Hin.
  { intros a Ha. destruct (decide (a_ptr a = p)) as [E|E]; [by left|right]. assert (a ∈ on_line (a_ptr a) A') as H by (by apply on_line_In).
    rewrite HA in H by done. by apply on_line_In in H as [_ H]. }
  assert (forall a b, a ∈ A' -> b ∈ A -> a_ptr a = p -> (a_ptr b).1 = p.1 -> a_source a = a_source b -> a_ptr b = p) as Hx.
  { intros a b Ha Hb Ea Eb Es. destruct (Hnew a (proj2 (on_line_In _ _ _) (conj Ea Ha))) as [E|(c & Hc & E)]; [apply Hsrc; congruence|].
    apply on_line_In in Hc as [Hc1 Hc]. rewrite <- Hc1. apply (inv_source _ _ I); congruence. }
  split; [| | | | |done|].
  - unfold sorted. rewrite (fr_keys _ _ _ _ F). apply I.
  - rewrite (fr_keys _ _ _ _ F). apply I.
  - intros q Hq. destruct (decide (q = p)) as [->|Hne]; [done|]. rewrite HA by done. apply (line_frame p q src _ s); try done; [|by apply I].
    apply Forall_forall. intros a Ha Eq Es. apply on_line_In in Ha as [Ea Ha]. apply Hne. rewrite <- Ea. apply Hsrc; congruence.
  - apply Forall_forall. intros a Ha. apply Hin in Ha as [->|Ha]; [done|]. pose proof (inv_ptr _ _ I) as H. rewrite Forall_forall in H. by apply H.
  - intros a b Ha Hb E1 E2. destruct (Hin a Ha) as [Ea|Ha'], (Hin b Hb) as [Eb|Hb']; [congruence| | |by apply (inv_source _ _ I)].
    + rewrite Ea. symmetry. apply (Hx a b); congruence.
    + rewrite Eb. apply (Hx b a); congruence.
  - intros c. rewrite (fr_flag _ _ _ _ F). apply I.
Qed.
