(* ===== verification/IntrChoice.v ===== *)
(** * Choosing an interrupt line

    When a line may be used for a request ([can_use]), and that
    [get_available_int] finds one exactly if there is one: the existing line of
    the source, the line that the request is tied to, or the best of all. *)

From stdpp Require Import functions sorting.
From S2P Require Import Prelude EspErr Image IntrAlloc IntrInv.

(** What the hardware line must be: not reserved, not tied to a source inside
    the CPU unless that is asked for, of an accepted level and trigger. *)
Definition accepts (cpu' flags force x : Z) : bool :=
  let d := intr_desc_table cpu' x in
  negb (flag (desc_flags d) ESP_CPU_INTR_DESC_FLAG_RESVD)
  && negb (flag (desc_flags d) ESP_CPU_INTR_DESC_FLAG_SPECIAL && (force =? -1))
  && flag flags (Z.shiftl 1 (priority d))
  && negb (flag flags ESP_INTR_FLAG_EDGE && bool_decide (type d = ESP_CPU_INTR_TYPE_LEVEL)
           || negb (flag flags ESP_INTR_FLAG_EDGE) && bool_decide (type d = ESP_CPU_INTR_TYPE_EDGE)).

(** What its allocations must be: none and no foreign handler, or shared ones
    with the same kind of memory. *)
Definition takes (flags : Z) (L : list alloc) (has_handler : bool) : bool :=
  match L with
  | [] => negb has_handler
  | a :: _ => is_shared a && flag flags ESP_INTR_FLAG_SHARED && eqb (a_iram a) (flag flags ESP_INTR_FLAG_IRAM)
  end.

Definition reserved (vd : vector_desc) : bool := flag (vflags vd) VECDESC_FL_RESERVED.

Lemma length_svds L : (length (svds L) <= length L)%nat.
Proof. induction L as [|a L IH]; [done|]. unfold svds in *. cbn. destruct (a_shared a); cbn; lia. Qed.

(** The flags of a vector say how it is used. *)
Lemma used_as_flags L vd : used_as L vd ->
  flag (vflags vd) VECDESC_FL_SHARED = match L with [] => false | a :: _ => is_shared a end /\
  flag (vflags vd) VECDESC_FL_NONSHARED = match L with [] => false | a :: _ => negb (is_shared a) end /\
  flag (vflags vd) VECDESC_FL_INIRAM = match L with [] => flag (vflags vd) VECDESC_FL_INIRAM | a :: _ => a_iram a end /\
  (L <> [] -> reserved vd = false).
Proof.
  unfold reserved. intros [b -> E| -> E|a -> Ha E|b HL HF E]; rewrite E.
  - by destruct b.
  - done.
  - unfold is_shared. rewrite Ha. by destruct (a_iram a).
  - destruct L as [|a L]; [done|]. apply Forall_cons in HF as [[Ha <-] _]. rewrite Ha. by destruct (a_iram a).
Qed.

Definition valid_core (c : Z) : Prop := 0 <= c < SOC_CPU_CORES_NUM.

Lemma usable_ok core vd flags cpu' force s L : valid_core cpu' -> 0 <= intno vd < SOC_CPU_INTR_NUM -> used_as L vd ->
  is_vect_desc_usable core vd flags cpu' force s =
  Some (accepts cpu' flags force (intno vd) && negb (reserved vd) && takes flags L (xt_int_has_handler (intno vd) core s)).
Proof.
  intros Hc Hi Hvd. destruct (used_as_flags _ _ Hvd) as (E1 & E2 & E3 & _). unfold is_vect_desc_usable, accepts, esp_cpu_intr_get_desc, esp_cpu_intr_has_handler, reserved.
  unfold valid_core in Hc. rewrite (proj2 (Z.leb_le 0 cpu')), (proj2 (Z.ltb_lt cpu' _)) by lia. cbn [andb].
  destruct (flag (desc_flags _) ESP_CPU_INTR_DESC_FLAG_RESVD); [done|]. cbn [negb andb].
  destruct (_ && (force =? -1)); [done|]. cbn [negb andb]. destruct (flag flags (Z.shiftl 1 _)); [|done]. cbn [negb andb].
  destruct (_ || _); [done|]. cbn [negb andb]. destruct (flag (vflags vd) VECDESC_FL_RESERVED); [done|]. cbn [negb andb].
  rewrite E1, E2, E3. rewrite (proj2 (Z.leb_le 0 (intno vd))), (proj2 (Z.ltb_lt (intno vd) _)) by lia. cbn [andb].
  destruct L as [|a L]; cbn; [by destruct (xt_int_has_handler _ _ _)|]. destruct (is_shared a); cbn; [|done].
  destruct (flag flags ESP_INTR_FLAG_SHARED); [|done]. by destruct (eqb _ _).
Qed.

Section choice.
Context (A : list alloc) (s : intr_state) (I : inv A s) (core : Z) (Hcore : valid_core core) (flags force : Z).

Lemma line_vd x : 0 <= x < SOC_CPU_INTR_NUM -> vector_ok (on_line (core, x) A) (vector_of x core s) /\ intno (vector_of x core s) = x.
Proof.
  intros Hx. pose proof (lo_vd _ _ _ (inv_line _ _ I (core, x) (conj Hcore Hx))) as H. unfold vector_of. change (find_desc_for_int x core s) with (deref (core, x) s).
  destruct (deref (core, x) s) as [vd|] eqn:E; [split; [done|]|].
  - apply deref_Some in E as [[= _ E] _]. done.
  - rewrite H. split; [|done]. split; [by apply (vd_free _ _ false)|done|by left].
Qed.

(** Whether line [x] can be used, as far as it concerns the line. *)
Definition free_for (x : Z) : bool :=
  accepts core flags force x && negb (reserved (vector_of x core s)) && takes flags (on_line (core, x) A) (xt_int_has_handler x core s).

Lemma usable_line x : 0 <= x < SOC_CPU_INTR_NUM -> is_vect_desc_usable core (vector_of x core s) flags core force s = Some (free_for x).
Proof.
  intros Hx. destruct (line_vd x Hx) as [Hv Ei]. rewrite (usable_ok _ _ _ _ _ _ (on_line (core, x) A)), Ei; [done..|rewrite Ei; done|apply Hv].
Qed.

(** ** The vector of a source *)

Lemma svds_source L src : existsb (fun d => svd_source d =? src) (svds L) = true <-> exists a, a ∈ L /\ is_shared a = true /\ a_source a = src.
Proof.
  induction L as [|a L IH]; cbn; [split; [done|by intros (a & Ha & _); apply elem_of_nil in Ha]|].
  unfold svds in *. cbn. assert (is_shared a = match a_shared a with None => false | _ => true end) as Ea by (unfold is_shared; by destruct (a_shared a)).
  destruct (a_shared a) as [sh|]; cbn; [rewrite orb_true_iff, Z.eqb_eq|]; rewrite IH.
  - split.
    + intros [E|(b & Hb & E)]; [exists a; split; [by left|done]|exists b; split; [by right|done]].
    + intros (b & Hb & E1 & E2). apply elem_of_cons in Hb as [->|Hb]; [by left|right; by exists b].
  - split.
    + intros (b & Hb & E). exists b. split; [by right|done].
    + intros (b & Hb & E1 & E2). apply elem_of_cons in Hb as [->|Hb]; [congruence|by exists b].
Qed.

Lemma vector_source L vd src : vector_ok L vd -> valid_source src ->
  (if negb (flag (vflags vd) VECDESC_FL_SHARED) then source vd =? src
   else existsb (fun d => svd_source d =? src) (shared_vec_info vd)) = true <-> exists a, a ∈ L /\ a_source a = src.
Proof.
  intros [Hf Hs Ho] Hsrc. destruct (used_as_flags _ _ Hf) as (E1 & _). rewrite E1, Hs.
  destruct Hf as [b -> E| -> E|a -> Ha E|b HL HF E]; cbn in *.
  1, 2: rewrite Z.eqb_eq; split; [|by intros (a & Ha & _); apply elem_of_nil in Ha]; unfold valid_source in Hsrc; unfold ETS_INTERNAL_UNUSED_INTR_SOURCE in *; lia.
  - unfold is_shared. rewrite Ha. cbn. rewrite Z.eqb_eq, (Ho Ha). split; [intros E'; exists a; split; [by left|done]|].
    intros (b & Hb & E'). apply list_elem_of_singleton in Hb as ->. done.
  - destruct L as [|a L]; [done|]. assert (is_shared a = true) as -> by (apply Forall_cons in HF; tauto). cbn [negb]. rewrite svds_source.
    split; [intros (c & Hc & _ & E'); by exists c|]. intros (c & Hc & E'). exists c. split; [done|]. split; [|done].
    rewrite Forall_forall in HF. by apply HF.
Qed.

Lemma find_source_ok src l : valid_source src -> Forall (fun vd => vector_ok (on_line (key vd) A) vd) l ->
  exists found, find_source src core l = Some found /\
    match found with
    | Some vd => vd ∈ l /\ cpu vd = core /\ exists a, a ∈ on_line (key vd) A /\ a_source a = src
    | None => forall vd a, vd ∈ l -> cpu vd = core -> a ∈ on_line (key vd) A -> a_source a <> src
    end.
Proof.
  intros Hsrc. induction 1 as [|vd l Hvd Hl IH]; [exists None; split; [done|by intros vd a H; apply elem_of_nil in H]|].
  assert (forall found, match found with
    | Some d => d ∈ l /\ cpu d = core /\ exists a, a ∈ on_line (key d) A /\ a_source a = src
    | None => forall d a, d ∈ l -> cpu d = core -> a ∈ on_line (key d) A -> a_source a <> src end ->
    (cpu vd = core -> ~ exists a, a ∈ on_line (key vd) A /\ a_source a = src) ->
    match found with
    | Some d => d ∈ vd :: l /\ cpu d = core /\ exists a, a ∈ on_line (key d) A /\ a_source a = src
    | None => forall d a, d ∈ vd :: l -> cpu d = core -> a ∈ on_line (key d) A -> a_source a <> src end) as Hskip.
  { intros [d|] H Hn; [destruct H as (H & ?); split; [by right|done]|]. intros d a Hd Ec Ha Es.
    apply elem_of_cons in Hd as [->|Hd]; [apply Hn; [done|by exists a]|by apply (H d a)]. }
  destruct IH as (found & Ef & Hf). pose proof (vector_source _ _ src Hvd Hsrc) as Hs. cbn [find_source]. rewrite (Z.eqb_sym core (cpu vd)).
  destruct (Z.eqb_spec (cpu vd) core) as [Ec|Ec]; [|exists found; rewrite andb_false_r, Ef; destruct (flag _ _); cbn; split; try done; by apply Hskip].
  assert (flag (vflags vd) VECDESC_FL_SHARED = true -> shared_vec_info vd <> []) as Hne.
  { intros E. destruct Hvd as [Hk -> _]. destruct (used_as_flags _ _ Hk) as (E1 & _). rewrite E1 in E. destruct (on_line _ _) as [|a L]; [done|].
    unfold svds. cbn. unfold is_shared in E. by destruct (a_shared a). }
  destruct (flag (vflags vd) VECDESC_FL_SHARED); cbn [negb] in *; rewrite ?andb_true_r.
  - rewrite bool_decide_eq_false_2 by auto. cbn [negb]. destruct (existsb _ _) eqn:E; [exists (Some vd)|exists found]; (split; [done|]).
    + split; [by left|]. split; [done|]. by apply Hs.
    + apply Hskip; [done|]. intros _ Hx. apply Hs in Hx. done.
  - destruct (source vd =? src) eqn:E; [exists (Some vd)|exists found]; (split; [done|]).
    + split; [by left|]. split; [done|]. by apply Hs.
    + apply Hskip; [done|]. intros _ Hx. apply Hs in Hx. done.
Qed.

Lemma vectors_ok : Forall (fun vd => vector_ok (on_line (key vd) A) vd) (vector_desc_head s).
Proof.
  apply Forall_forall. intros vd Hvd. pose proof (inv_lines _ _ I) as Hl. rewrite Forall_forall in Hl.
  pose proof (lo_vd _ _ _ (inv_line _ _ I (key vd) (Hl _ (list_elem_of_fmap_2 _ _ _ Hvd)))) as H.
  by rewrite (deref_In s vd (inv_sorted _ _ I) Hvd) in H.
Qed.

(** ** Searching all lines *)

Definition prio (x : Z) : Z := priority (intr_desc_table core x).
Definition in_use (x : Z) : bool := negb (bool_decide (on_line (core, x) A = [])).

Definition handlers (x : Z) : Z := Z.of_nat (length (on_line (core, x) A)).

(** [x] is preferred to [y].  An exclusive request: of the lowest level, then of
    the lowest number.  A shared request goes to a line that is shared already,
    and then no line of a higher number has fewer handlers or a lower level;
    without such a line, to the one of the lowest number. *)
Definition preferred (x y : Z) : Prop :=
  if flag flags ESP_INTR_FLAG_SHARED then
    (in_use y = true -> in_use x = true /\ (x < y -> handlers x <= handlers y /\ prio x <= prio y)) /\ (in_use x = false -> x <= y)
  else prio x < prio y \/ prio x = prio y /\ x <= y.

Lemma preferred_refl x : preferred x x.
Proof. unfold preferred. destruct (flag _ _); [split; [split; [done|lia]|lia]|right; lia]. Qed.

(** After the lines [seen]: nothing yet, or the best of them. *)
Definition best_of (seen : list Z) (c : choice) : Prop :=
  best c = -1 /\ bestPriority c = 9 /\ bestSharedCt c = INT_MAX /\ (forall y, y ∈ seen -> free_for y = false) \/
  best c ∈ seen /\ free_for (best c) = true /\ bestPriority c = prio (best c) /\
  (flag flags ESP_INTR_FLAG_SHARED = true -> bestSharedCt c = if in_use (best c) then handlers (best c) else INT_MAX) /\
  (forall y, y ∈ seen -> free_for y = true -> preferred (best c) y).

Lemma prio_small x : 0 <= x < SOC_CPU_INTR_NUM -> prio x < 9.
Proof.
  intros Hx. unfold prio, intr_desc_table. destruct x as [|x|x]; cbn; [lia| |lia].
  repeat (destruct x as [x|x|]; cbn; try lia).
Qed.

Lemma svds_length x : 0 <= x < SOC_CPU_INTR_NUM -> Z.of_nat (length A) < INT_MAX ->
  Z.of_nat (length (shared_vec_info (vector_of x core s))) < INT_MAX.
Proof.
  intros Hx HA. destruct (line_vd x Hx) as [[_ -> _] _]. assert (length (svds (on_line (core, x) A)) <= length A)%nat; [|lia].
  etrans; [apply length_svds|]. apply (length_filter (fun a => a_ptr a = (core, x))).
Qed.

Lemma in_use_flag x : 0 <= x < SOC_CPU_INTR_NUM -> free_for x = true -> flag flags ESP_INTR_FLAG_SHARED = true ->
  flag (vflags (vector_of x core s)) VECDESC_FL_SHARED = in_use x.
Proof.
  intros Hx Hf Hs. destruct (line_vd x Hx) as [[Hv _ _] _]. destruct (used_as_flags _ _ Hv) as (-> & _).
  unfold free_for in Hf. apply andb_true_iff in Hf as [_ Hf]. unfold in_use. destruct (on_line (core, x) A) as [|a L]; [done|]. cbn in *.
  rewrite !andb_true_iff in Hf. by destruct Hf as [[-> _] _].
Qed.

Lemma handlers_counted x : 0 <= x < SOC_CPU_INTR_NUM -> free_for x = true -> in_use x = true ->
  Z.of_nat (length (shared_vec_info (vector_of x core s))) = handlers x.
Proof.
  intros Hx Hf Hu. destruct (line_vd x Hx) as [[Hv -> _] _]. unfold handlers. f_equal. unfold free_for in Hf. apply andb_true_iff in Hf as [_ Hf].
  unfold in_use in Hu. destruct Hv as [b EL E|EL E|a EL Ha E|b HL HF E]; [by rewrite EL in Hu..| |].
  - rewrite EL in Hf. unfold takes, is_shared in Hf. by rewrite Ha in Hf.
  - clear Hf Hu HL E. induction HF as [|a L [Ha _] _ IH]; [done|]. unfold svds, is_shared in *. cbn. destruct (a_shared a); [|done]. cbn. by rewrite IH.
Qed.

Lemma consider_ok seen c x : 0 <= x < SOC_CPU_INTR_NUM -> Forall (fun y => 0 <= y < x) seen -> Z.of_nat (length A) < INT_MAX ->
  best_of seen c -> exists c', consider core flags core force s c x = Some c' /\ best_of (seen ++ [x]) c'.
Proof.
  intros Hx Hseen HA Hc. unfold consider, esp_cpu_intr_get_desc. unfold valid_core in Hcore. rewrite (proj2 (Z.leb_le 0 core)), (proj2 (Z.ltb_lt core _)) by lia. cbn [andb].
  rewrite (usable_line x Hx). destruct (free_for x) eqn:Ef; cbn [negb].
  2: { exists c. split; [done|]. destruct Hc as [(E1 & E2 & E3 & E4)|(E1 & E2 & E3 & E4 & E5)]; [left|right]; repeat split; try done.
    - intros y Hy. apply elem_of_app in Hy as [Hy|Hy]; [by apply E4|]. by apply list_elem_of_singleton in Hy as ->.
    - apply elem_of_app. by left.
    - intros y Hy Hfy. apply elem_of_app in Hy as [Hy|Hy]; [by apply E5|]. apply list_elem_of_singleton in Hy as ->. congruence. }
  pose proof (prio_small x Hx) as Hp. pose proof (svds_length x Hx HA) as Hlen. change (priority (intr_desc_table core x)) with (prio x).
  assert (forall ct, (forall y, y ∈ seen -> free_for y = true -> preferred x y) ->
    (flag flags ESP_INTR_FLAG_SHARED = true -> ct = if in_use x then handlers x else INT_MAX) -> best_of (seen ++ [x]) (MkChoice x (prio x) ct)) as Htake.
  { intros ct Hy Hct. right. cbn. split; [apply elem_of_app; right; by left|]. repeat split; try done. intros y Hin Hfy.
    apply elem_of_app in Hin as [Hin|Hin]; [by apply Hy|]. apply list_elem_of_singleton in Hin as ->. apply preferred_refl. }
  assert (best_of seen c -> preferred (best c) x -> best c <> -1 -> best_of (seen ++ [x]) c) as Hkeep.
  { intros [(E1 & _)|(E1 & E2 & E3 & E4 & E5)] Hpx Hne; [done|]. right. repeat split; try done; [apply elem_of_app; by left|]. intros y Hin Hfy.
    apply elem_of_app in Hin as [Hin|Hin]; [by apply E5|]. by apply list_elem_of_singleton in Hin as ->. }
  assert (best c = -1 \/ 0 <= best c < x) as Hb.
  { destruct Hc as [(E1 & _)|(E1 & _)]; [by left|right]. rewrite Forall_forall in Hseen. by apply Hseen. }
  assert (forall y, y ∈ seen -> 0 <= y < x) as Hbelow by (intros y Hy; rewrite Forall_forall in Hseen; by apply Hseen).
  unfold preferred in *. destruct (flag flags ESP_INTR_FLAG_SHARED) eqn:Es.
  - rewrite (in_use_flag x Hx Ef Es). destruct (in_use x) eqn:Eu.
    + rewrite (handlers_counted x Hx Ef Eu) in *. destruct (_ || _) eqn:Eo; eexists; (split; [reflexivity|]).
      * apply Htake; [|done]. intros y Hy _. specialize (Hbelow y Hy). split; [intros _; split; [done|lia]|done].
      * apply orb_false_iff in Eo as [Eo1 Eo2]. apply Z.ltb_ge in Eo1. rewrite Z.gtb_ltb in Eo2. apply Z.ltb_ge in Eo2.
        destruct Hc as [(_ & _ & E & _)|(E1 & E2 & E3 & E4 & E5)]; [lia|]. specialize (E4 Es). specialize (Hbelow _ E1).
        apply Hkeep; [right; by split_and!| |lia]. destruct (in_use (best c)); [|lia]. split; [|done]. intros _. split; [done|lia].
    + destruct (Z.eqb_spec (best c) (-1)) as [Eb|Eb].
      * destruct Hc as [(_ & E2 & E3 & E4)|(E & _)]; [|rewrite Forall_forall in Hseen; specialize (Hseen _ E); lia].
        rewrite E2, E3, (proj2 (Z.gtb_lt 9 (prio x))) by done. eexists. split; [reflexivity|]. apply Htake; [|done]. intros y Hy Hfy. by rewrite E4 in Hfy.
      * eexists. split; [reflexivity|]. apply Hkeep; [done|split; [done|lia]|done].
  - destruct (Z.gtb_spec (bestPriority c) (prio x)) as [Hlt|Hge]; eexists; (split; [reflexivity|]).
    + apply Htake; [|done]. intros y Hy Hfy. destruct Hc as [(_ & _ & _ & E)|(E1 & E2 & E3 & E4 & E5)]; [by rewrite E in Hfy|]. specialize (E5 y Hy Hfy). unfold preferred in E5. rewrite Es in E5. lia.
    + apply Hkeep; [done| |].
      * destruct Hc as [(_ & E & _)|(E1 & E2 & E3 & _)]; [lia|]. rewrite Forall_forall in Hseen. specialize (Hseen _ E1). lia.
      * intros Eb. destruct Hc as [(_ & E & _)|(E & _)]; [lia|]. rewrite Forall_forall in Hseen. specialize (Hseen _ E). lia.
Qed.

Lemma search_lines_ok xs seen c : Forall (fun x => 0 <= x < SOC_CPU_INTR_NUM) xs -> StronglySorted Z.lt xs ->
  Forall (fun y => 0 <= y /\ Forall (fun x => y < x) xs) seen -> Z.of_nat (length A) < INT_MAX ->
  best_of seen c -> exists c', search_lines core flags core force s xs c = Some c' /\ best_of (seen ++ xs) c'.
Proof.
  intros Hxs Hst Hs HA. revert seen c Hs. induction xs as [|x xs IH]; intros seen c Hs Hc; [exists c; by rewrite app_nil_r|].
  apply Forall_cons in Hxs as [Hx Hxs]. apply StronglySorted_inv in Hst as [Hst Hlt].
  destruct (consider_ok seen c x) as (c1 & E1 & Hc1); [done| |done|done|].
  - eapply Forall_impl; [exact Hs|]. intros y [Hy Hall]. apply Forall_cons in Hall. lia.
  - cbn. rewrite E1. destruct (IH Hxs Hst (seen ++ [x]) c1) as (c2 & E2 & Hc2); [|done|exists c2; by rewrite <- app_assoc in Hc2].
    apply Forall_app. split; [|constructor; [split; [lia|done]|constructor]]. eapply Forall_impl; [exact Hs|]. intros y [Hy Hall].
    by apply Forall_cons in Hall as [_ ?].
Qed.

(** ** The choice *)

Definition can_use (src x : Z) : Prop :=
  0 <= x < SOC_CPU_INTR_NUM /\ (force = -1 \/ force = x) /\
  (forall a, a ∈ A -> (a_ptr a).1 = core -> a_source a = src -> (a_ptr a).2 = x) /\ free_for x = true.

Definition chosen (src x : Z) : Prop :=
  can_use src x /\ (forall y, can_use src y -> preferred x y) \/ x = -1 /\ forall y, ~ can_use src y.

Lemma vector_line vd : vd ∈ vector_desc_head s -> cpu vd = core ->
  0 <= intno vd < SOC_CPU_INTR_NUM /\ vector_of (intno vd) core s = vd /\ key vd = (core, intno vd).
Proof.
  intros Hvd Ec. pose proof (inv_lines _ _ I) as Hl. rewrite Forall_forall in Hl. destruct (Hl _ (list_elem_of_fmap_2 _ _ _ Hvd)) as [_ Hi].
  assert (key vd = (core, intno vd)) as Ek by (unfold key; congruence). split; [done|]. split; [|done].
  unfold vector_of. change (find_desc_for_int (intno vd) core s) with (deref (core, intno vd) s). rewrite <- Ek. by rewrite (deref_In s vd (inv_sorted _ _ I) Hvd).
Qed.

(** Only one line comes into question. *)
Lemma chosen_one src x : 0 <= x < SOC_CPU_INTR_NUM -> (force = -1 \/ force = x) ->
  (forall a, a ∈ A -> (a_ptr a).1 = core -> a_source a = src -> (a_ptr a).2 = x) -> (forall y, can_use src y -> y = x) ->
  chosen src (if free_for x then x else -1).
Proof.
  intros Hx Hf Ha Hy. destruct (free_for x) eqn:E; [left|right].
  - split; [by split|]. intros y Hu. rewrite (Hy y Hu). apply preferred_refl.
  - split; [done|]. intros y Hu. pose proof (Hy y Hu). subst y. destruct Hu as (_ & _ & _ & Hu). congruence.
Qed.

Lemma get_available_ok src : valid_source src -> flag flags ESP_INTR_FLAG_LEVELMASK = true ->
  force = -1 \/ 0 <= force < SOC_CPU_INTR_NUM -> Z.of_nat (length A) < INT_MAX ->
  exists x, get_available_int core flags core force src s = Some x /\ chosen src x.
Proof.
  intros Hsrc Hl Hforce HA. unfold get_available_int, find_desc_for_source. rewrite Hl.
  destruct (find_source_ok src (vector_desc_head s) Hsrc vectors_ok) as (found & -> & Hf). destruct found as [vd|].
  - destruct Hf as (Hvd & Ec & a & Ha & Es). destruct (vector_line vd Hvd Ec) as (Hi & Ev & Ek). rewrite Ek in Ha. apply on_line_In in Ha as [Ea Ha].
    assert (forall b, b ∈ A -> (a_ptr b).1 = core -> a_source b = src -> (a_ptr b).2 = intno vd) as Hb.
    { intros b Hb E1 E2. rewrite (inv_source _ _ I b a); [by rewrite Ea|done|done|by rewrite Ea|congruence]. }
    assert (forall y, can_use src y -> y = intno vd) as Hy.
    { intros y (_ & _ & Hy & _). specialize (Hy a Ha). rewrite Ea in Hy. symmetry. by apply Hy. }
    destruct (_ && _) eqn:Eq.
    + apply andb_true_iff in Eq as [E1 E2]. apply negb_true_iff, Z.eqb_neq in E1, E2. exists (-1). split; [done|]. right. split; [done|].
      intros y Hu. pose proof (Hy y Hu). subst y. destruct Hu as (_ & [?|?] & _); done.
    + assert (force = -1 \/ force = intno vd) as Hff.
      { apply andb_false_iff in Eq. rewrite !negb_false_iff, !Z.eqb_eq in Eq. done. }
      assert (is_vect_desc_usable core vd flags core force s = Some (free_for (intno vd))) as ->
        by (rewrite <- (usable_line (intno vd)) by done; by rewrite Ev).
      exists (if free_for (intno vd) then intno vd else -1). split; [by destruct (free_for _)|]. by apply chosen_one.
  - assert (forall b, b ∈ A -> (a_ptr b).1 = core -> a_source b <> src) as Hno.
    { intros b Hb E1. pose proof (inv_ptr _ _ I) as Hp. rewrite Forall_forall in Hp. specialize (Hp b Hb).
      pose proof (lo_vd _ _ _ (inv_line _ _ I _ Hp)) as Hv. destruct (deref (a_ptr b) s) as [vd|] eqn:E.
      - apply deref_Some in E as [Ek Hvd]. apply (Hf vd b Hvd); [unfold key in Ek; destruct (a_ptr b); cbn in *; congruence|]. apply on_line_In. done.
      - assert (b ∈ on_line (a_ptr b) A) as Hbb by (by apply on_line_In). rewrite Hv in Hbb. by apply elem_of_nil in Hbb. }
    destruct (Z.eqb_spec force (-1)) as [Ef|Ef]; cbn [negb].
    + destruct (search_lines_ok (seqZ 0 (Z.of_nat CPU_INT_LINES_COUNT)) [] (MkChoice (-1) 9 INT_MAX)) as (c & -> & Hc).
      * apply Forall_forall. intros x Hx. apply elem_of_seqZ in Hx. done.
      * cbn. repeat constructor.
      * constructor.
      * done.
      * left. repeat split; try done. intros y Hy. by apply elem_of_nil in Hy.
      * exists (best c). split; [done|]. assert (forall y, 0 <= y < SOC_CPU_INTR_NUM -> y ∈ [] ++ seqZ 0 (Z.of_nat CPU_INT_LINES_COUNT)) as Hin.
        { intros y Hy. cbn [app]. apply elem_of_seqZ. done. }
        destruct Hc as [(E1 & _ & _ & E2)|(E1 & E2 & E3 & _ & E5)]; [right|left].
        -- split; [done|]. intros y (Hy & _ & _ & Hu). rewrite (E2 y (Hin y Hy)) in Hu. done.
        -- apply elem_of_seqZ in E1. split; [|intros y (Hy & _ & _ & Hu); apply E5; [by apply Hin|done]].
           split; [done|]. split; [by left|]. split; [|done]. intros b Hb Eb Es. by apply Hno in Eb.
    + destruct Hforce as [?|Hforce]; [done|]. rewrite usable_line by done. destruct (line_vd force Hforce) as [_ Ei].
      exists (if free_for force then force else -1). split; [rewrite Ei; by destruct (free_for _)|]. apply chosen_one; [done|by right| |].
      * intros b Hb Eb Es. by apply Hno in Eb.
      * intros y (_ & [?|?] & _); done.
Qed.
End choice.
