(* ===== verification/IntrOps.v ===== *)
(** * Enabling, disabling and freeing interrupts

    The operations on an allocation keep the invariant, and do to the list of
    allocations what they should. *)

From stdpp Require Import functions sorting.
From S2P Require Import Prelude EspErr Image IntrAlloc IntrInv IntrChoice.

#[export] Instance handle_eq_dec : EqDecision intr_handle.
Proof. solve_decision. Defined.

(** ** Allocations by handle *)

Definition change (h : intr_handle) (f : alloc -> alloc) (A : list alloc) : list alloc :=
  map (fun a => if decide (handle_of a = h) then f a else a) A.
Arguments change : simpl never.
Definition switch (h : intr_handle) (b : bool) : list alloc -> list alloc := change h (switched b).
Definition remove (h : intr_handle) (A : list alloc) : list alloc := filter (fun a => handle_of a <> h) A.

Lemma handle_shared a b : handle_of a = handle_of b -> a_ptr a = a_ptr b /\ is_shared a = is_shared b /\ sh_addr <$> a_shared a = sh_addr <$> a_shared b.
Proof.
  unfold handle_of, is_shared. intros [= E1 E2]. split; [done|]. split; [|done]. by destruct (a_shared a), (a_shared b).
Qed.

(** A change that keeps the handle. *)
Class Steady (f : alloc -> alloc) := steady : forall a, a_ptr (f a) = a_ptr a /\ a_shared (f a) = a_shared a /\ a_source (f a) = a_source a.
#[export] Instance steady_switched b : Steady (switched b).
Proof. done. Qed.
#[export] Instance steady_moved b : Steady (moved b).
Proof. done. Qed.

Lemma steady_handle f a : Steady f -> handle_of (f a) = handle_of a.
Proof. intros Hf. unfold handle_of. destruct (Hf a) as (-> & -> & _). done. Qed.

Section steady.
Context (h : intr_handle) (f : alloc -> alloc) {Hf : Steady f}.

Lemma change_cons a A : change h f (a :: A) = (if decide (handle_of a = h) then f a else a) :: change h f A.
Proof. done. Qed.

Lemma on_line_change p A : on_line p (change h f A) = change h f (on_line p A).
Proof.
  unfold on_line. induction A as [|a A IH]; [done|]. rewrite change_cons, !filter_cons, IH.
  assert (a_ptr (if decide (handle_of a = h) then f a else a) = a_ptr a) as -> by (destruct (decide _); [apply Hf|done]).
  by destruct (decide (a_ptr a = p)).
Qed.

Lemma change_other A : Forall (fun a => handle_of a <> h) A -> change h f A = A.
Proof. induction 1 as [|a A Ha HA IH]; [done|]. rewrite change_cons. by rewrite decide_False, IH. Qed.

Lemma addresses_change A : addresses (change h f A) = addresses A.
Proof.
  induction A as [|a A IH]; [done|]. unfold addresses in *. rewrite change_cons. cbn. rewrite IH.
  assert (a_shared (if decide (handle_of a = h) then f a else a) = a_shared a) as -> by (destruct (decide _); [apply Hf|done]). done.
Qed.

Lemma change_In A b : b ∈ change h f A -> exists a, a ∈ A /\ a_source b = a_source a /\ a_ptr b = a_ptr a /\ b = if decide (handle_of a = h) then f a else a.
Proof.
  intros Hb. apply list_elem_of_fmap in Hb as (a & -> & Ha). exists a. split; [done|]. destruct (decide _); [|done]. destruct (Hf a) as (E1 & _ & E3). done.
Qed.
End steady.

Arguments remove : simpl never.
Lemma remove_cons h a A : remove h (a :: A) = if decide (handle_of a = h) then remove h A else a :: remove h A.
Proof. unfold remove. rewrite filter_cons. destruct (decide (handle_of a = h)); [rewrite decide_False by tauto|rewrite decide_True by done]; done. Qed.

Lemma on_line_remove h p A : on_line p (remove h A) = remove h (on_line p A).
Proof.
  unfold on_line. induction A as [|a A IH]; [done|]. rewrite remove_cons, filter_cons.
  destruct (decide (handle_of a = h)), (decide (a_ptr a = p)); rewrite ?filter_cons, ?remove_cons, ?IH, ?decide_True, ?decide_False by done; done.
Qed.

Lemma remove_change h f A : Steady f -> remove h (change h f A) = remove h A.
Proof.
  intros Hf. induction A as [|a A IH]; [done|]. rewrite change_cons, !remove_cons, IH. destruct (decide (handle_of a = h)) as [E|E].
  - by rewrite decide_True by (by rewrite steady_handle).
  - by rewrite decide_False.
Qed.

Lemma remove_other h A : Forall (fun a => handle_of a <> h) A -> remove h A = A.
Proof. induction 1 as [|a A Ha HA IH]; [done|]. rewrite remove_cons, decide_False, IH by done. done. Qed.

(** ** The line of an allocation *)

Section alloc.
Context (A : list alloc) (s : intr_state) (I : inv A s) (a : alloc) (Ha : a ∈ A).
Let p := a_ptr a.
Let L := on_line p A.

Lemma alloc_valid : valid_line p.
Proof. pose proof (inv_ptr _ _ I) as H. rewrite Forall_forall in H. by apply H. Qed.

Lemma alloc_In : a ∈ L.
Proof. by apply on_line_In. Qed.

Lemma alloc_line : line_ok p L s.
Proof. apply I, alloc_valid. Qed.

Lemma alloc_source : valid_source (a_source a) /\ (is_shared a = true -> 0 < a_source a).
Proof. pose proof (lo_ptr _ _ _ alloc_line) as H. rewrite Forall_forall in H. apply (H a alloc_In). Qed.

(** Alone on its line, or together with shared ones. *)
Lemma alloc_vector : exists vd, deref p s = Some vd /\ key vd = p /\ vector_ok L vd /\
  (is_shared a = false /\ L = [a] /\ flag (vflags vd) VECDESC_FL_SHARED = false /\ flag (vflags vd) VECDESC_FL_NONSHARED = true /\ source vd = a_source a \/
   is_shared a = true /\ Forall (fun b => is_shared b = true /\ a_iram b = a_iram a) L /\ flag (vflags vd) VECDESC_FL_SHARED = true /\
   flag (vflags vd) VECDESC_FL_NONSHARED = false).
Proof.
  pose proof (lo_vd _ _ _ alloc_line) as Hv. pose proof alloc_In as Hin. destruct (deref p s) as [vd|] eqn:E; [|rewrite Hv in Hin; by apply elem_of_nil in Hin].
  exists vd. split; [done|]. apply deref_Some in E as [Ek _]. split; [done|]. split; [done|]. destruct (used_as_flags _ _ (vo_flags _ _ Hv)) as (E1 & E2 & _).
  pose proof (vo_source _ _ Hv) as Es. destruct (vo_flags _ _ Hv) as [b E _|E _|c E Ec _|b HL HF _].
  1, 2: rewrite E in Hin; by apply elem_of_nil in Hin.
  - left. rewrite E in *. apply list_elem_of_singleton in Hin as <-. unfold is_shared in *. rewrite Ec in *. by rewrite E1, E2, Es.
  - right. rewrite Forall_forall in HF. destruct (HF a Hin) as [Es1 Es2]. split; [done|]. split.
    + apply Forall_forall. intros c Hc. destruct (HF c Hc) as [? ?]. by rewrite Es2.
    + destruct L as [|c L']; [done|]. rewrite E1, E2. destruct (HF c ltac:(by left)) as [-> _]. done.
Qed.

Lemma alloc_shared : is_shared a = true -> exists sh, a_shared a = Some sh.
Proof. unfold is_shared. destruct (a_shared a) as [sh|]; [by exists sh|done]. Qed.
End alloc.

(** ** Entries of a shared line by address *)

Lemma addresses_line p A : NoDup (addresses A) -> NoDup (addresses (on_line p A)).
Proof.
  unfold on_line, addresses. induction A as [|a A IH]; [done|]. rewrite filter_cons. cbn. intros Hn. destruct (a_shared a) as [sh|] eqn:E; cbn in Hn.
  - apply NoDup_cons in Hn as [Hn1 Hn]. specialize (IH Hn). destruct (decide _); [|done]. cbn. rewrite E. cbn. apply NoDup_cons. split; [|done].
    intros Hin. apply Hn1. apply list_elem_of_omap in Hin as (b & Hb & Eb). apply list_elem_of_omap. exists b. apply list_elem_of_filter in Hb as [_ Hb]. done.
  - specialize (IH Hn). destruct (decide _); [|done]. cbn. by rewrite E.
Qed.

Lemma address_In (L : list alloc) a sh : a ∈ L -> a_shared a = Some sh -> sh_addr sh ∈ addresses L.
Proof. intros Ha E. unfold addresses. apply list_elem_of_omap. exists a. by rewrite E. Qed.

Lemma find_svd (L : list alloc) a sh : NoDup (addresses L) -> a ∈ L -> a_shared a = Some sh ->
  List.find (fun d => addr d =? sh_addr sh) (svds L) = Some (svd_of a sh).
Proof.
  unfold svds, addresses. induction L as [|b L IH]; [by intros _ H; apply elem_of_nil in H|]. cbn. intros Hn Ha E. apply elem_of_cons in Ha as [<-|Ha].
  - rewrite E. cbn. by rewrite Z.eqb_refl.
  - destruct (a_shared b) as [sb|]; cbn in *; [|by apply IH]. apply NoDup_cons in Hn as [Hn1 Hn].
    destruct (Z.eqb_spec (sh_addr sb) (sh_addr sh)) as [Eq|]; [|by apply IH]. destruct Hn1. rewrite Eq. by apply (address_In L a).
Qed.

Lemma update_svds (L : list alloc) a sh b : NoDup (addresses L) -> Forall (fun c => a_ptr c = a_ptr a) L -> a ∈ L -> a_shared a = Some sh ->
  update_svd (sh_addr sh) (set_disabled (negb b)) (svds L) = svds (switch (handle_of a) b L).
Proof.
  intros Hn Hp Ha E. unfold svds, addresses, switch in *. induction L as [|c L IH]; [by apply elem_of_nil in Ha|].
  apply Forall_cons in Hp as [Hpc Hp]. rewrite change_cons. cbn in *. assert (forall x, x ∈ L -> a_shared x <> None -> sh_addr <$> a_shared c = Some (sh_addr sh) -> a_shared c <> None -> handle_of x = handle_of a -> False) as Hx.
  { intros x Hx Hxs Ec Hc Eh. destruct (a_shared c) as [sc|]; [|done]. cbn in *. injection Ec as Ec. apply NoDup_cons in Hn as [Hn _]. apply Hn. rewrite Ec.
    apply handle_shared in Eh as (_ & _ & Eh). rewrite E in Eh. destruct (a_shared x) as [sx|] eqn:Ex; [|done]. cbn in Eh. injection Eh as <-.
    by apply (address_In L x). }
  destruct (decide (handle_of c = handle_of a)) as [Eh|Eh].
  - pose proof (handle_shared _ _ Eh) as (_ & _ & Es). rewrite E in Es. destruct (a_shared c) as [sc|] eqn:Ec; [|done]. cbn in Es. injection Es as Es.
    cbn. rewrite Ec. cbn. rewrite Es, Z.eqb_refl. f_equal. f_equal. clear IH. symmetry.
    assert (Forall (fun x => handle_of x <> handle_of a) L) as Hne.
    { apply Forall_forall. intros x Hxin Exh. apply (Hx x); try done; [|by cbn; rewrite Es]. pose proof (handle_shared _ _ Exh) as (_ & _ & Ex). rewrite E in Ex. by destruct (a_shared x). }
    by rewrite (change_other (handle_of a) (switched b)).
  - apply elem_of_cons in Ha as [->|Ha]; [done|]. assert (NoDup (omap (fun x => sh_addr <$> a_shared x) L)) as Hn'.
    { destruct (a_shared c); cbn in Hn; [by apply NoDup_cons in Hn as [_ ?]|done]. }
    destruct (a_shared c) as [sc|] eqn:Ec; cbn; [|by apply IH]. destruct (Z.eqb_spec (sh_addr sc) (sh_addr sh)) as [Eq|]; [|by rewrite IH].
    destruct Eh. unfold handle_of. rewrite Ec, E, Hpc. cbn. by rewrite Eq.
Qed.

Lemma remove_svds (L : list alloc) a sh : NoDup (addresses L) -> Forall (fun c => a_ptr c = a_ptr a) L -> a ∈ L -> a_shared a = Some sh ->
  remove_svd (Some (sh_addr sh)) (svds L) = svds (remove (handle_of a) L).
Proof.
  intros Hn Hp Ha E. unfold svds, addresses in *. induction L as [|c L IH]; [by apply elem_of_nil in Ha|].
  apply Forall_cons in Hp as [Hpc Hp]. rewrite remove_cons. cbn in *. destruct (decide (handle_of c = handle_of a)) as [Eh|Eh]; cycle 1.
  - apply elem_of_cons in Ha as [->|Ha]; [done|]. assert (NoDup (omap (fun x => sh_addr <$> a_shared x) L)) as Hn'.
    { destruct (a_shared c); cbn in Hn; [by apply NoDup_cons in Hn as [_ ?]|done]. }
    cbn. destruct (a_shared c) as [sc|] eqn:Ec; cbn; [|by apply IH]. rewrite bool_decide_eq_false_2; [by rewrite IH|].
    intros [= Eq]. apply Eh. unfold handle_of. rewrite Ec, E, Hpc. cbn. by rewrite Eq.
  - pose proof (handle_shared _ _ Eh) as (_ & _ & Es). rewrite E in Es. destruct (a_shared c) as [sc|] eqn:Ec; [|done]. cbn in Es. injection Es as Es.
    cbn. rewrite Es, bool_decide_eq_true_2 by done. f_equal. symmetry. apply remove_other. apply Forall_forall. intros x Hx Exh.
    apply NoDup_cons in Hn as [Hn _]. apply Hn. rewrite Es. pose proof (handle_shared _ _ Exh) as (_ & _ & Ex). rewrite E in Ex.
    destruct (a_shared x) as [sx|] eqn:Exs; [|done]. cbn in Ex. injection Ex as <-. by apply (address_In L x).
Qed.

Lemma NoDup_omap_inj {X Y} (g : X -> option Y) (l : list X) a b y : NoDup (omap g l) -> a ∈ l -> b ∈ l -> g a = Some y -> g b = Some y -> a = b.
Proof.
  induction l as [|x l IH]; [by intros _ H; apply elem_of_nil in H|]. cbn. intros Hn Ha Hb Ea Eb.
  assert (forall z, z ∈ l -> g z = Some y -> y ∈ omap g l) as Hin by (intros z Hz Ez; apply list_elem_of_omap; eauto).
  apply elem_of_cons in Ha as [->|Ha], Hb as [->|Hb]; [done| | |].
  - rewrite Ea in Hn. apply NoDup_cons in Hn as [Hn _]. destruct Hn. eauto.
  - rewrite Eb in Hn. apply NoDup_cons in Hn as [Hn _]. destruct Hn. eauto.
  - apply IH; [|done..]. destruct (g x); [by apply NoDup_cons in Hn as [_ ?]|done].
Qed.

Lemma handle_inj A s a b : inv A s -> a ∈ A -> b ∈ A -> handle_of a = handle_of b -> a = b.
Proof.
  intros I Ha Hb Eh. destruct (handle_shared _ _ Eh) as (Ep & Es & E). destruct (a_shared a) as [sh|] eqn:Ea.
  - apply (NoDup_omap_inj (fun a => sh_addr <$> a_shared a) A a b (sh_addr sh)); [apply I|done|done|by rewrite Ea|by rewrite <- E].
  - destruct (alloc_vector A s I a Ha) as (vd & _ & _ & _ & [(_ & EL & _)|(E' & _)]); [|unfold is_shared in E'; by rewrite Ea in E'].
    assert (b ∈ on_line (a_ptr a) A) as H by (by apply on_line_In). rewrite EL in H. by apply list_elem_of_singleton in H.
Qed.

(** ** Changing an allocation *)

Lemma inv_change A s s' a f : Steady f -> inv A s -> a ∈ A -> frame (a_ptr a) (a_source a) s s' ->
  line_ok (a_ptr a) (change (handle_of a) f (on_line (a_ptr a) A)) s' -> inv (change (handle_of a) f A) s'.
Proof.
  intros Hf I Ha F Hl. apply (inv_update (a_ptr a) (a_source a) A _ s); try done.
  - by apply (alloc_valid A s I a).
  - intros q Hq. rewrite on_line_change by done. apply change_other. apply Forall_forall. intros b Hb Eh. apply on_line_In in Hb as [Eb _].
    apply handle_shared in Eh as (Ep & _). congruence.
  - intros b Hb E1 E2. by apply (inv_source _ _ I).
  - intros b Hb. right. rewrite on_line_change in Hb by done. apply change_In in Hb as (c & Hc & E & _); [|done]. by exists c.
  - rewrite addresses_change by done. apply I.
  - by rewrite on_line_change.
Qed.

Lemma Forall_change (P : alloc -> Prop) h f L : Forall P L -> (forall a, a ∈ L -> P a -> handle_of a = h -> P (f a)) -> Forall P (change h f L).
Proof.
  intros HL Hf. apply Forall_forall. intros b Hb. apply list_elem_of_fmap in Hb as (a & -> & Ha). rewrite Forall_forall in HL.
  destruct (decide _); [|by apply HL]. apply Hf; auto.
Qed.

Lemma existsb_change (g : alloc -> bool) h f L : (forall a, a ∈ L -> handle_of a = h -> g (f a) = g a) -> existsb g (change h f L) = existsb g L.
Proof.
  intros Hg. induction L as [|a L IH]; [done|]. rewrite change_cons. cbn. rewrite IH by (intros b Hb; apply Hg; by right).
  destruct (decide _) as [E|]; [|done]. rewrite Hg; [done|by left|done].
Qed.

Lemma source_on_spec src L : source_on src L = true <-> exists a, a ∈ L /\ a_source a = src /\ a_on a = true.
Proof.
  unfold source_on. rewrite existsb_exists. setoid_rewrite <- list_elem_of_In. split; intros (a & Ha & E); exists a; (split; [done|]).
  - by apply andb_true_iff in E as [->%Z.eqb_eq E].
  - destruct E as [-> ->]. by rewrite Z.eqb_refl.
Qed.

Lemma source_on_off src h L : source_on src (switch h false L) = true -> source_on src L = true.
Proof.
  rewrite !source_on_spec. intros (b & Hb & E1 & E2). apply list_elem_of_fmap in Hb as (a & -> & Ha). exists a. by destruct (decide _).
Qed.

Lemma source_on_on a L : a ∈ L -> source_on (a_source a) (switch (handle_of a) true L) = true.
Proof.
  intros Ha. apply source_on_spec. exists (switched true a). split; [|done]. apply list_elem_of_fmap. exists a. by rewrite decide_True.
Qed.

Lemma svds_on src L : Forall (fun a => is_shared a = true) L -> existsb (fun e => (svd_source e =? src) && negb (disabled e)) (svds L) = source_on src L.
Proof.
  unfold svds, source_on, is_shared. induction 1 as [|a L Ha HL IH]; [done|]. cbn. destruct (a_shared a); [|done]. cbn. by rewrite IH, negb_involutive.
Qed.

(** The line of a switched allocation: the vector, the route and the mask of
    enabled lines are as they should. *)
Lemma line_switch A s s' a b : inv A s -> a ∈ A -> let p := a_ptr a in let L := on_line p A in let L' := switch (handle_of a) b L in
  (forall vd, deref p s = Some vd -> deref p s' = Some (set_shared (svds L') vd)) ->
  interrupt_table s' p = interrupt_table s p -> non_iram_int_mask s' p.1 = non_iram_int_mask s p.1 ->
  (0 < a_source a -> intr_matrix s' (p.1, a_source a) = if source_on (a_source a) L' then p.2 else INT_MUX_DISABLED_INTNO) ->
  (forall k, k <> (p.1, a_source a) -> intr_matrix s' k = intr_matrix s k) ->
  Z.testbit (intenable s' p.1) p.2 = (if 0 <? a_source a then Z.testbit (intenable s p.1) p.2 else b) ->
  line_ok p L' s'.
Proof.
  intros I Ha p L L' Ev Et Em Hm1 Hm2 He. destruct (alloc_line A s I a Ha) as [O1 O2 O3 O4 O5 O6].
  destruct (alloc_vector A s I a Ha) as (vd & Evd & Ekd & [V1 V2 V3] & Hc). pose proof (alloc_In A a Ha) as Hin.
  assert (forall c, c ∈ L -> handle_of c = handle_of a -> c = a) as Hinj.
  { intros c Hc' E. apply on_line_In in Hc' as [_ Hc']. by apply (handle_inj A s). }
  fold p in Evd, O1, O2, O3, O4, O5, O6, Hin, V1, V2, V3, Hc. fold L in O1, O2, O3, O4, O5, O6, Hin, V1, V2, V3, Hc.
  split.
  - rewrite (Ev _ Evd). destruct Hc as [(Es & EL & _ & _ & Eso)|(Es & HF & Efs & Efn)].
    + unfold L'. rewrite EL in *. unfold switch. rewrite change_cons, decide_True by done. assert (a_shared a = None) as En by (unfold is_shared in Es; by destruct (a_shared a)).
      split; cbn; [|done|done]. destruct V1 as [? E _|E _|c [= <-] _ Ef|? _ HF _]; [done|done| |].
      * by apply (vd_exclusive _ _ (switched b a)).
      * apply Forall_cons in HF as [[HF _] _]. congruence.
    + assert (Forall (fun c => is_shared c = true /\ a_iram c = a_iram a) L') as HF' by (by apply Forall_change; [|intros c _ [? ?] _]).
      assert (L' <> []) as HL' by (unfold L', switch; destruct L; [by apply elem_of_nil in Hin|by rewrite change_cons]).
      split; cbn; [|done|].
      * destruct V1 as [? E _|E _|c E Ec Ef|bi HL HFi Ef]; [rewrite E in Hin; by apply elem_of_nil in Hin..| |].
        -- rewrite E in Hin. apply list_elem_of_singleton in Hin as <-. unfold is_shared in Es. by rewrite Ec in Es.
        -- rewrite Forall_forall in HFi. destruct (HFi a Hin) as [_ Ei]. by apply (vd_shared _ _ bi); [|rewrite Ei in HF'|].
      * destruct L' as [|c L'']; [done|]. apply Forall_cons in HF' as [[HF' _] _]. intros E. unfold is_shared in HF'. by rewrite E in HF'.
  - by apply Forall_change; [|intros c _ ? _].
  - rewrite Et. by apply Forall_change; [|intros c _ ? _].
  - apply Forall_forall. intros c Hc' Hpos. apply list_elem_of_fmap in Hc' as (d & -> & Hd).
    assert (a_source (if decide (handle_of d = handle_of a) then switched b d else d) = a_source d) as -> by (by destruct (decide _)).
    assert (0 < a_source d) as Hpos' by (destruct (decide (handle_of d = handle_of a)); exact Hpos).
    destruct (decide (a_source d = a_source a)) as [E|Hne]; [rewrite E in *; by apply Hm1|]. rewrite Hm2 by congruence. rewrite Forall_forall in O4. rewrite (O4 d Hd Hpos').
    unfold source_on, L', switch. rewrite existsb_change; [done|]. intros e He' Eh. cbn. rewrite (Hinj e He' Eh). by rewrite (proj2 (Z.eqb_neq _ _)).
  - rewrite Em, O5. unfold L', switch. by rewrite existsb_change.
  - rewrite Forall_forall in O6. apply Forall_forall. intros c Hc'. apply list_elem_of_fmap in Hc' as (d & -> & Hd). rewrite He.
    destruct (decide (handle_of d = handle_of a)) as [Eh|Eh]; cbn.
    + rewrite (Hinj d Hd Eh). destruct (Z.ltb_spec 0 (a_source a)) as [Hpos|Hpos]; [|done]. rewrite (O6 a Hin), (proj2 (Z.ltb_lt _ _)) by done. done.
    + destruct (Z.ltb_spec 0 (a_source a)) as [Hpos|Hpos]; [by apply O6|]. destruct Hc as [(_ & EL & _)|(Es & _)].
      * rewrite EL in Hd. apply list_elem_of_singleton in Hd as ->. done.
      * destruct (alloc_source A s I a Ha) as [_ H]. specialize (H Es). lia.
Qed.

Lemma source_split a : valid_source (a_source a) -> 0 < a_source a /\ (a_source a >=? 0) = true /\ (0 <? a_source a) = true \/
  a_source a < 0 /\ (a_source a >=? 0) = false /\ (0 <? a_source a) = false.
Proof.
  unfold valid_source. intros [H|H]; [left|right].
  - split; [lia|]. split; [by apply Z.geb_le; lia|by apply Z.ltb_lt; lia].
  - split; [lia|]. split; [rewrite Z.geb_leb; apply Z.leb_gt; lia|apply Z.ltb_ge; lia].
Qed.

Section operations.
Context (A : list alloc) (s : intr_state) (I : inv A s) (a : alloc) (Ha : a ∈ A) (core : Z).
Let p := a_ptr a.
Let L := on_line p A.

Lemma line_index : 0 <= p.2.
Proof. apply (alloc_valid A s I a Ha). Qed.

Lemma line_ptr : Forall (fun c => a_ptr c = a_ptr a) L.
Proof. apply Forall_forall. intros c Hc. by apply on_line_In in Hc as [? _]. Qed.

Lemma alloc_deref_svd vd sh : deref p s = Some vd -> a_shared a = Some sh -> deref_svd (sh_addr sh) vd = Some (svd_of a sh).
Proof.
  intros E Es. pose proof (lo_vd _ _ _ (alloc_line A s I a Ha)) as Hv. fold p in Hv. rewrite E in Hv. unfold deref_svd. rewrite (vo_shared _ _ Hv).
  apply find_svd; [by apply addresses_line, I|by apply alloc_In|done].
Qed.

Lemma alloc_update_svd vd sh b : deref p s = Some vd -> a_shared a = Some sh ->
  update_svd (sh_addr sh) (set_disabled (negb b)) (shared_vec_info vd) = svds (switch (handle_of a) b L).
Proof.
  intros E Es. pose proof (lo_vd _ _ _ (alloc_line A s I a Ha)) as Hv. fold p in Hv. rewrite E in Hv. rewrite (vo_shared _ _ Hv).
  apply update_svds; [by apply addresses_line, I|apply line_ptr|by apply alloc_In|done].
Qed.

(** The vector of the allocation, and where it is. *)
Lemma alloc_at : exists vd, deref p s = Some vd /\ vector_ok L vd /\ cpu vd = p.1 /\ intno vd = p.2 /\
  (a_shared a = None /\ L = [a] /\ flag (vflags vd) VECDESC_FL_SHARED = false /\ flag (vflags vd) VECDESC_FL_NONSHARED = true /\ source vd = a_source a \/
   0 < a_source a /\ (exists sh, a_shared a = Some sh) /\ Forall (fun b => is_shared b = true /\ a_iram b = a_iram a) L /\
   flag (vflags vd) VECDESC_FL_SHARED = true /\ flag (vflags vd) VECDESC_FL_NONSHARED = false).
Proof.
  destruct (alloc_vector A s I a Ha) as (vd & Evd & Ekd & Hvd & Hc). exists vd. split; [done|]. split; [done|].
  unfold key in Ekd. fold p in Ekd. rewrite <- Ekd. split; [done|]. split; [done|]. destruct Hc as [(Es & Hc)|(Es & Hc)]; [left|right].
  - split; [|done]. unfold is_shared in Es. by destruct (a_shared a).
  - split; [by apply (alloc_source A s I a Ha)|]. split; [by apply alloc_shared|done].
Qed.

Lemma switch_alone b : L = [a] -> switch (handle_of a) b L = [switched b a].
Proof. intros ->. unfold switch. by rewrite change_cons, decide_True. Qed.

(** Nothing to write for an allocation that is alone. *)
Lemma alone_vector b vd : L = [a] -> a_shared a = None -> deref p s = Some vd -> set_shared (svds (switch (handle_of a) b L)) vd = vd.
Proof.
  intros EL En Evd. rewrite (switch_alone b EL). pose proof (lo_vd _ _ _ (alloc_line A s I a Ha)) as Hv. fold p in Hv. rewrite Evd in Hv.
  pose proof (vo_shared _ _ Hv) as V. fold L in V. rewrite EL in V. unfold svds in *. cbn in *. rewrite En in *. destruct vd. unfold set_shared. cbn in *. by rewrite V.
Qed.

(** Connecting or disconnecting the source of an allocation that is alone. *)
Lemma route_alone (b : bool) : L = [a] -> a_shared a = None -> 0 < a_source a ->
  let s' := esp_rom_route_intr_matrix p.1 (a_source a) (if b then p.2 else INT_MUX_DISABLED_INTNO) s in
  frame p (a_source a) s s' /\ inv (switch (handle_of a) b A) s'.
Proof.
  intros EL En Hp s'. assert (frame p (a_source a) s s') as F by (destruct p; apply frame_route). split; [done|].
  apply (inv_change A s); try done. apply (line_switch A s); try done; fold p; fold L.
  - intros vd E. change (deref p s') with (deref p s). by rewrite alone_vector.
  - intros _. cbn. rewrite fn_lookup_insert, (switch_alone b EL). unfold source_on. cbn. by rewrite Z.eqb_refl, orb_false_r.
  - intros k Hk. cbn. by rewrite fn_lookup_insert_ne.
  - by rewrite (proj2 (Z.ltb_lt _ _)).
Qed.

(** Switching the line of an internal source. *)
Lemma line_alone (b : bool) : L = [a] -> a_shared a = None -> a_source a < 0 ->
  let s' := (if b then esp_intr_enable_source else esp_intr_disable_source) p.1 p.2 s in
  frame p (a_source a) s s' /\ inv (switch (handle_of a) b A) s'.
Proof.
  intros EL En Hn s'. pose proof line_index as Hi.
  assert (frame p (a_source a) s s') as F by (subst s'; destruct p, b; [by apply frame_enable|by apply frame_disable]). split; [done|].
  apply (inv_change A s); try done. apply (line_switch A s); try done; fold p; fold L.
  - intros vd E. transitivity (deref p s); [subst s'; by destruct b|]. by rewrite alone_vector.
  - subst s'. by destruct b.
  - subst s'. by destruct b.
  - lia.
  - intros k Hk. subst s'. by destruct b.
  - rewrite (proj2 (Z.ltb_ge _ _)) by lia. subst s'. destruct b; cbn; rewrite fn_lookup_insert, ?testbit_set, ?testbit_clear_line, Z.eqb_refl by done;
      [apply orb_true_r|apply andb_false_r].
Qed.

(** Marking an entry of a shared line, and routing its source if need be. *)
Lemma mark_shared b (r : bool) (l : Z) : 0 < a_source a -> let L' := switch (handle_of a) b L in
  (if r then l else intr_matrix s (p.1, a_source a)) = (if source_on (a_source a) L' then p.2 else INT_MUX_DISABLED_INTNO) ->
  let s1 := write p (set_shared (svds L')) s in let s' := if r then esp_rom_route_intr_matrix p.1 (a_source a) l s1 else s1 in
  frame p (a_source a) s s' /\ inv (switch (handle_of a) b A) s'.
Proof.
  intros Hp L' Hl s1 s'. assert (frame p (a_source a) s s') as F.
  { etrans; [apply (frame_write p _ (set_shared (svds L'))), _|]. subst s'. fold s1. destruct r; [destruct p; apply frame_route|done]. }
  split; [done|]. apply (inv_change A s); try done. apply (line_switch A s); try done; fold p; fold L.
  - intros vd E. transitivity (deref p s1); [subst s'; by destruct r|]. subst s1. rewrite deref_write_vd by apply _. by rewrite decide_True, E.
  - subst s'. by destruct r.
  - subst s'. by destruct r.
  - intros _. fold L'. rewrite <- Hl. subst s'. destruct r; [cbn; by rewrite fn_lookup_insert|done].
  - intros k Hk. subst s'. destruct r; [cbn; by rewrite fn_lookup_insert_ne|done].
  - rewrite (proj2 (Z.ltb_lt _ _)) by done. subst s'. by destruct r.
Qed.

Lemma switch_shared b : Forall (fun c => is_shared c = true /\ a_iram c = a_iram a) L ->
  Forall (fun c => is_shared c = true) (switch (handle_of a) b L) /\ svds (switch (handle_of a) b L) <> [].
Proof.
  intros HF. assert (Forall (fun c => is_shared c = true) (switch (handle_of a) b L)) as HF'.
  { apply Forall_change; [|by intros]. eapply Forall_impl; [exact HF|]. by intros c [? _]. }
  split; [done|]. pose proof (alloc_In A a Ha) as Hin. fold p in Hin. fold L in Hin. unfold switch in *. destruct L as [|c l]; [by apply elem_of_nil in Hin|].
  rewrite change_cons in *. apply Forall_cons in HF' as [Hc _]. unfold svds, is_shared in *. cbn. by destruct (a_shared _).
Qed.

(** Disabling works for a source outside the CPU, and on the CPU of the line. *)
Lemma disable_ok : 0 < a_source a \/ core = p.1 ->
  exists s', esp_intr_disable core (Some (handle_of a)) s = Some (s', ESP_OK) /\ frame p (a_source a) s s' /\ inv (switch (handle_of a) false A) s'.
Proof.
  intros Hcore. destruct alloc_at as (vd & Evd & Hvd & Ec & Ei & Hc). destruct (alloc_source A s I a Ha) as [Hsrc _].
  unfold esp_intr_disable. cbn [handle_of h_vector_desc h_shared_vector_desc]. fold p. rewrite Evd.
  destruct Hc as [(En & EL & _ & _ & Eso)|(Hpos & (sh & Esh) & HF & _)].
  - rewrite En. cbn [fmap option_fmap option_map]. rewrite Eso, Ec, Ei. destruct (source_split a Hsrc) as [(Hp & -> & _)|(Hn & -> & _)].
    + eexists. split; [reflexivity|]. by apply (route_alone false).
    + destruct Hcore as [?| ->]; [lia|]. rewrite Z.eqb_refl. eexists. split; [reflexivity|]. by apply (line_alone false).
  - destruct (source_split a Hsrc) as [(_ & Eg & _)|(? & _)]; [|lia]. destruct (switch_shared false HF) as [HF' Hne].
    rewrite Esh. cbn [fmap option_fmap option_map]. rewrite (alloc_deref_svd vd sh Evd Esh).
    change (set_disabled true) with (set_disabled (negb false)). rewrite (alloc_update_svd vd sh false Evd Esh), (bool_decide_eq_false_2 _ Hne).
    cbn [negb svd_of svd_source]. rewrite (svds_on _ _ HF'), Eg, Ec. eexists. split; [reflexivity|]. apply (mark_shared false _ _ Hpos).
    destruct (source_on (a_source a) (switch (handle_of a) false L)) eqn:Eon; [cbn [negb]|done].
    apply source_on_off in Eon. pose proof (lo_matrix _ _ _ (alloc_line A s I a Ha)) as O4. rewrite Forall_forall in O4. fold p in O4. fold L in O4.
    rewrite (O4 a (alloc_In A a Ha) Hpos). by rewrite Eon.
Qed.

Lemma enable_ok : 0 < a_source a \/ core = p.1 ->
  exists s', esp_intr_enable core (Some (handle_of a)) s = Some (s', ESP_OK) /\ frame p (a_source a) s s' /\ inv (switch (handle_of a) true A) s'.
Proof.
  intros Hcore. destruct alloc_at as (vd & Evd & Hvd & Ec & Ei & Hc). destruct (alloc_source A s I a Ha) as [Hsrc _].
  unfold esp_intr_enable. cbn [handle_of h_vector_desc h_shared_vector_desc]. fold p. rewrite Evd.
  destruct Hc as [(En & EL & _ & _ & Eso)|(Hpos & (sh & Esh) & HF & _)].
  - rewrite En. cbn [fmap option_fmap option_map]. rewrite Eso, Ec, Ei. destruct (source_split a Hsrc) as [(Hp & -> & _)|(Hn & -> & _)].
    + eexists. split; [reflexivity|]. by apply (route_alone true).
    + destruct Hcore as [?| ->]; [lia|]. rewrite Z.eqb_refl. eexists. split; [reflexivity|]. by apply (line_alone true).
  - destruct (source_split a Hsrc) as [(_ & Eg & _)|(? & _)]; [|lia].
    rewrite Esh. cbn [fmap option_fmap option_map]. rewrite (alloc_deref_svd vd sh Evd Esh).
    change (set_disabled false) with (set_disabled (negb true)). rewrite (alloc_update_svd vd sh true Evd Esh).
    cbn [svd_of svd_source]. rewrite Eg, Ec, Ei. eexists. split; [reflexivity|]. apply (mark_shared true true p.2 Hpos).
    by rewrite (source_on_on a L (alloc_In A a Ha)).
Qed.

(** An internal source on another CPU is refused. *)
Lemma switch_refused : a_source a < 0 -> core <> p.1 ->
  esp_intr_disable core (Some (handle_of a)) s = Some (s, ESP_ERR_INVALID_ARG) /\ esp_intr_enable core (Some (handle_of a)) s = Some (s, ESP_ERR_INVALID_ARG).
Proof.
  intros Hn Hcore. destruct alloc_at as (vd & Evd & Hvd & Ec & Ei & Hc). destruct (alloc_source A s I a Ha) as [Hsrc _].
  destruct (source_split a Hsrc) as [(? & _)|(_ & Eg & _)]; [lia|]. unfold esp_intr_disable, esp_intr_enable. cbn [handle_of h_vector_desc h_shared_vector_desc]. fold p. rewrite Evd.
  destruct Hc as [(-> & _ & _ & _ & Eso)|(? & _)]; [|lia]. cbn [fmap option_fmap option_map]. rewrite Eso, Eg, Ec.
  by rewrite (proj2 (Z.eqb_neq _ _)).
Qed.

(** ** Freeing *)

Lemma inv_remove s' : frame p (a_source a) s s' -> line_ok p (remove (handle_of a) L) s' -> inv (remove (handle_of a) A) s'.
Proof.
  intros F Hl. apply (inv_update p (a_source a) A _ s); try done.
  - by apply (alloc_valid A s I a).
  - intros q Hq. rewrite on_line_remove. apply remove_other. apply Forall_forall. intros b Hb Eh. apply on_line_In in Hb as [Eb _].
    apply handle_shared in Eh as (Ep & _). subst p. congruence.
  - intros b Hb E1 E2. by apply (inv_source _ _ I).
  - intros b Hb. right. exists b. rewrite on_line_remove in Hb. by apply list_elem_of_filter in Hb as [_ Hb].
  - pose proof (inv_addr _ _ I) as Hn. unfold addresses in *. clear -Hn. induction A as [|c B IH]; [done|]. rewrite remove_cons. cbn in Hn.
    assert (forall x, x ∈ omap (fun a => sh_addr <$> a_shared a) (remove (handle_of a) B) -> x ∈ omap (fun a => sh_addr <$> a_shared a) B) as Hsub.
    { intros x Hx. apply list_elem_of_omap in Hx as (y & Hy & E). apply list_elem_of_omap. exists y. by apply list_elem_of_filter in Hy as [_ Hy]. }
    destruct (decide _); [apply IH; destruct (sh_addr <$> a_shared c); [by apply NoDup_cons in Hn as [_ ?]|done]|]. cbn.
    destruct (sh_addr <$> a_shared c); [|by apply IH]. apply NoDup_cons in Hn as [Hn1 Hn]. apply NoDup_cons. split; [|by apply IH]. intros H. by apply Hn1, Hsub.
  - by rewrite on_line_remove.
Qed.

Lemma Forall_remove (P : alloc -> Prop) h l : Forall P l -> Forall P (remove h l).
Proof. intros Hl. apply Forall_forall. intros x Hx. rewrite Forall_forall in Hl. apply Hl. by apply list_elem_of_filter in Hx as [_ Hx]. Qed.

(** A released line is free. *)
Lemma release_ok vd s1 : deref p s1 = Some vd -> cpu vd = p.1 -> intno vd = p.2 -> frame p (a_source a) s s1 ->
  (exists b, Z.land (vflags vd) (Z.lnot (Z.lor (Z.lor VECDESC_FL_NONSHARED VECDESC_FL_RESERVED) VECDESC_FL_SHARED)) = iram_bit b) -> shared_vec_info vd = [] ->
  exists s', release_vector p.1 p vd s1 = Some s' /\ frame p (a_source a) s s' /\ line_ok p [] s'.
Proof.
  intros Evd Ec Ei F Hf Hs. destruct (alloc_valid A s I a Ha) as [Hp1 Hp2]. fold p in Hp1, Hp2. unfold release_vector, esp_cpu_intr_set_handler. rewrite Ei, Ec.
  rewrite (proj2 (Z.leb_le 0 p.2)), (proj2 (Z.ltb_lt p.2 _)) by lia. cbn [andb]. eexists. split; [reflexivity|].
  set (s2 := xt_set_interrupt_handler p.1 p.2 xt_unhandled_interrupt s1).
  assert (frame p (a_source a) s s2) as F2 by (etrans; [exact F|]; subst s2; destruct p; apply frame_set_handler).
  assert (deref p s2 = Some vd) as E2 by (rewrite <- Evd; unfold s2, xt_set_interrupt_handler; do 2 (destruct (_ : bool); [done|]); done).
  clearbody s2. split.
  - etrans; [exact F2|]. etrans; [apply frame_write, keeps_flags|]. etrans; [apply (frame_write p _ (set_source ETS_INTERNAL_UNUSED_INTR_SOURCE)), keeps_source|].
    destruct p as [c i]. refine (frame_set_mask c i _ _ (write _ _ (write _ _ s2)) _). intros j Hj _. apply clear_others; [apply Hp2|done].
  - split; try constructor; [|].
    + match goal with |- match deref p ?x with _ => _ end => change (deref p x) with (deref p (write p (set_source ETS_INTERNAL_UNUSED_INTR_SOURCE) (write p (fun v => set_flags (Z.land (vflags v) (Z.lnot (Z.lor (Z.lor VECDESC_FL_NONSHARED VECDESC_FL_RESERVED) VECDESC_FL_SHARED))) v) s2))) end.
      rewrite !deref_write_vd by (apply keeps_flags || apply keeps_source). rewrite !decide_True, E2 by done. cbn [fmap option_fmap option_map].
      destruct Hf as [b Hf]. split; [by apply (vd_free _ _ b)|done|by right].
    + cbn. rewrite fn_lookup_insert, testbit_clear_line, Z.eqb_refl, andb_false_r by lia. done.
Qed.

Lemma remove_alone : L = [a] -> remove (handle_of a) L = [].
Proof. intros ->. by rewrite remove_cons, decide_True. Qed.

Lemma same_memory l b : Forall (fun c => a_iram c = b) l -> existsb (fun c => negb (a_iram c)) l = negb (bool_decide (l = [])) && negb b.
Proof. induction 1 as [|c l Hc Hl IH]; [done|]. cbn. rewrite IH, Hc. destruct b; cbn; [by rewrite andb_false_r|done]. Qed.

(** The rest of a shared line. *)
Lemma unlink_shared vd s' : a_on a = false -> deref p s = Some vd -> vector_ok L vd -> remove (handle_of a) L <> [] ->
  Forall (fun b => is_shared b = true /\ a_iram b = a_iram a) L -> s' = write p (set_shared (svds (remove (handle_of a) L))) s ->
  line_ok p (remove (handle_of a) L) s'.
Proof.
  intros Hoff Evd Hvd Hne HF ->. set (L' := remove (handle_of a) L) in *. destruct (alloc_line A s I a Ha) as [O1 O2 O3 O4 O5 O6]. fold p in O1, O2, O3, O4, O5, O6.
  fold L in O1, O2, O3, O4, O5, O6. pose proof (alloc_In A a Ha) as Hin. fold p in Hin. fold L in Hin.
  assert (Forall (fun b => is_shared b = true /\ a_iram b = a_iram a) L') as HF' by (by apply Forall_remove).
  assert (forall c, c ∈ L -> c ∈ L' \/ c = a) as Hsplit.
  { intros c Hc. destruct (decide (handle_of c = handle_of a)) as [E|E]; [right|left; by apply list_elem_of_filter].
    apply on_line_In in Hc as [_ Hc]. by apply (handle_inj A s). }
  split.
  - rewrite deref_write_vd by apply keeps_set_shared. rewrite decide_True, Evd by done. cbn [fmap option_fmap option_map]. split; [|done|].
    + destruct (used_as_flags _ _ (vo_flags _ _ Hvd)) as (E1 & E2 & E3 & _). destruct (vo_flags _ _ Hvd) as [? E|E|c E Ec Ef|bi HL HFi Ef].
      1, 2: rewrite E in Hin; by apply elem_of_nil in Hin.
      * rewrite E in HF. apply Forall_cons in HF as [[HF _] _]. unfold is_shared in HF. by rewrite Ec in HF.
      * rewrite Forall_forall in HFi. destruct (HFi a Hin) as [_ Ebi]. rewrite Ebi in HF'. by apply (vd_shared _ _ bi).
    + destruct L' as [|c L'']; [done|]. apply Forall_cons in HF' as [[HF' _] _]. intros E. unfold is_shared in HF'. by rewrite E in HF'.
  - by apply Forall_remove.
  - by apply Forall_remove.
  - apply (Forall_remove _ (handle_of a)) in O4. eapply Forall_impl; [exact O4|]. intros c H Hpos. cbn. rewrite (H Hpos).
    assert (source_on (a_source c) L' = source_on (a_source c) L) as ->; [|done]. apply eq_true_iff_eq. rewrite !source_on_spec.
    split; intros (d & Hd & E); exists d; (split; [|done]); [by apply list_elem_of_filter in Hd as [_ ?]|].
    destruct (Hsplit d Hd) as [?| ->]; [done|]. destruct E as [_ E]. congruence.
  - cbn. rewrite O5, (same_memory L (a_iram a)), (same_memory L' (a_iram a)); try done; [|eapply Forall_impl; [exact HF'|]; by intros c [_ ?]|eapply Forall_impl; [exact HF|]; by intros c [_ ?]].
    rewrite !bool_decide_eq_false_2; [done|done|]. intros E. rewrite E in Hin. by apply elem_of_nil in Hin.
  - by apply Forall_remove.
Qed.

Lemma unlink_ok : a_on a = false ->
  exists s', unlink_handle p.1 (handle_of a) s = Some (s', ESP_OK) /\ frame p (a_source a) s s' /\ intr_matrix s' = intr_matrix s /\ inv (remove (handle_of a) A) s'.
Proof.
  intros Hoff. destruct alloc_at as (vd & Evd & Hvd & Ec & Ei & Hc). unfold unlink_handle. cbn [handle_of h_vector_desc h_shared_vector_desc]. fold p. rewrite Evd.
  assert (forall d s1 s2, release_vector p.1 p d s1 = Some s2 -> intr_matrix s2 = intr_matrix s1) as Hm.
  { intros d s1 s2. unfold release_vector, esp_cpu_intr_set_handler. destruct (_ && _); [|done]. intros [= <-]. unfold xt_set_interrupt_handler. by repeat case_match. }
  destruct Hc as [(En & EL & Efs & Efn & _)|(Hpos & (sh & Esh) & HF & Efs & Efn)].
  - rewrite Efs, Efn. cbn [orb]. destruct (release_ok vd s Evd Ec Ei) as (s' & E & F & Hl); [done| | |].
    + destruct (vo_flags _ _ Hvd) as [? E _|E _|c E Ec' ->|? HL HF _]; [by rewrite E in EL|by rewrite E in EL| |].
      * exists (a_iram c). by destruct (a_iram c).
      * rewrite EL in HF. apply Forall_cons in HF as [[HF _] _]. unfold is_shared in HF. by rewrite En in HF.
    + rewrite (vo_shared _ _ Hvd), EL. unfold svds. cbn. by rewrite En.
    + exists s'. rewrite E. split; [done|]. split; [done|]. split; [by apply Hm in E|]. apply inv_remove; [done|]. by rewrite remove_alone.
  - rewrite Efs, Efn. cbn [orb]. rewrite Esh. cbn [fmap option_fmap option_map]. rewrite (vo_shared _ _ Hvd).
    assert (svds L <> []) as Hne.
    { pose proof (alloc_In A a Ha) as Hin. fold p in Hin. fold L in Hin. destruct L as [|c l]; [by apply elem_of_nil in Hin|].
      apply Forall_cons in HF as [[Hc _] _]. unfold svds, is_shared in *. cbn. by destruct (a_shared c). }
    rewrite (bool_decide_eq_false_2 _ Hne). cbn [negb].
    rewrite (remove_svds L a sh (addresses_line p A (inv_addr _ _ I)) line_ptr (alloc_In A a Ha) Esh).
    assert (frame p (a_source a) s (write p (set_shared (svds (remove (handle_of a) L))) s)) as Fw by apply frame_write, keeps_set_shared.
    case_bool_decide as El.
    + assert (remove (handle_of a) L = []) as El'.
      { pose proof (Forall_remove _ (handle_of a) _ HF) as HF'. destruct (remove (handle_of a) L) as [|c l]; [done|]. apply Forall_cons in HF' as [[Hc _] _].
        unfold svds, is_shared in *. cbn in El. by destruct (a_shared c). }
      destruct (release_ok (set_shared [] vd) (write p (set_shared (svds (remove (handle_of a) L))) s)) as (s' & E & F & Hl); try done.
      * rewrite deref_write_vd by apply keeps_set_shared. by rewrite decide_True, Evd, El.
      * cbn. destruct (vo_flags _ _ Hvd) as [? E _|E _|c E Ec' _|b HL _ ->]; [by rewrite E in Hne|by rewrite E in Hne| |exists b; by destruct b].
        rewrite E in HF. apply Forall_cons in HF as [[HF _] _]. unfold is_shared in HF. by rewrite Ec' in HF.
      * exists s'. change (release_vector p.1 p vd) with (release_vector p.1 p (set_shared [] vd)). rewrite E.
        split; [done|]. split; [done|]. split; [by apply Hm in E|]. apply inv_remove; [done|]. by rewrite El'.
    + eexists. split; [reflexivity|]. split; [done|]. split; [done|]. apply inv_remove; [done|].
      apply (unlink_shared vd); try done. intros E. by rewrite E in El.
Qed.

End operations.

(** Freeing runs on the CPU of the line; the source stays connected if another
    handler of it is enabled. *)
Lemma free_ok A s a : inv A s -> a ∈ A -> let p := a_ptr a in let A' := remove (handle_of a) A in
  exists s', intr_free_for_current_cpu p.1 (handle_of a) s = Some (s', ESP_OK) /\ frame p (a_source a) s s' /\ inv A' s' /\
  (0 < a_source a -> intr_matrix s' (p.1, a_source a) = if source_on (a_source a) (on_line p A') then p.2 else INT_MUX_DISABLED_INTNO).
Proof.
  intros I Ha p A'. set (h := handle_of a). set (a1 := switched false a). unfold intr_free_for_current_cpu.
  destruct (disable_ok A s I a Ha p.1) as (s1 & E1 & F1 & I1); [by right|]. fold p in E1, F1, I1. fold h in E1, I1. fold h. rewrite E1.
  assert (a1 ∈ switch h false A) as Ha1.
  { apply list_elem_of_fmap. exists a. subst h. by rewrite decide_True. }
  destruct (unlink_ok (switch h false A) s1 I1 a1 Ha1 eq_refl) as (s2 & E2 & F2 & Em & I2).
  change (handle_of a1) with h in *. change (a_ptr a1) with p in *. change (a_source a1) with (a_source a) in *. rewrite E2. exists s2. split; [done|].
  split; [by etrans|]. unfold switch in I2. rewrite (remove_change h (switched false)) in I2 by apply _. split; [done|].
  intros Hpos. rewrite Em. pose proof (lo_matrix _ _ _ (alloc_line _ _ I1 a1 Ha1)) as O4. rewrite Forall_forall in O4.
  pose proof (O4 a1 (alloc_In _ a1 Ha1) Hpos) as E4. change (a_ptr a1) with p in E4. change (a_source a1) with (a_source a) in E4. rewrite E4.
  assert (source_on (a_source a) (on_line p (switch h false A)) = source_on (a_source a) (on_line p A')) as ->; [|done].
  apply eq_true_iff_eq. rewrite !source_on_spec. unfold switch. rewrite on_line_change by apply _. unfold A'. rewrite on_line_remove.
  split; intros (c & Hc & Es & Eon).
  - apply list_elem_of_fmap in Hc as (d & -> & Hd). exists d. destruct (decide _) as [E|E]; [done|]. split; [by apply list_elem_of_filter|done].
  - apply list_elem_of_filter in Hc as [Hc Hin]. exists c. split; [|done]. apply list_elem_of_fmap. exists c. by rewrite decide_False.
Qed.

(** ** In IRAM or not *)

Lemma mark_flags c i b p s vd (shared : bool) b0 : deref p s = Some vd ->
  let t := if shared then VECDESC_FL_SHARED else VECDESC_FL_NONSHARED in
  vflags vd = Z.lor t (iram_bit b0) -> deref p (mark_iram c i b p s) = Some (set_flags (Z.lor t (iram_bit b)) vd).
Proof.
  intros Evd t Ef. unfold mark_iram. destruct b; change (deref p (set_non_iram_mask _ ?x)) with (deref p x); rewrite deref_write_vd by apply keeps_flags;
    rewrite decide_True, Evd by done; cbn; rewrite Ef; subst t; by destruct shared, b0.
Qed.

Lemma set_in_iram_ok A s a b : inv A s -> a ∈ A ->
  (is_shared a = true /\ esp_intr_set_in_iram (Some (handle_of a)) b s = Some (s, ESP_ERR_INVALID_ARG)) \/
  exists s', is_shared a = false /\ esp_intr_set_in_iram (Some (handle_of a)) b s = Some (s', ESP_OK) /\
    frame (a_ptr a) (a_source a) s s' /\ inv (change (handle_of a) (moved b) A) s'.
Proof.
  intros I Ha. destruct (alloc_at A s I a Ha) as (vd & Evd & Hvd & Ec & Ei & Hc). unfold esp_intr_set_in_iram. cbn [handle_of h_vector_desc]. rewrite Evd.
  destruct Hc as [(En & EL & Efs & Efn & Eso)|(_ & (sh & Esh) & _ & Efs & _)]; rewrite Efs; [right|left; split; [unfold is_shared; by rewrite Esh|done]].
  pose proof (line_index A s I a Ha) as Hi. rewrite Ec, Ei. eexists. split; [unfold is_shared; by rewrite En|]. split; [reflexivity|].
  set (p := a_ptr a) in *. set (s' := mark_iram _ _ _ _ _). assert (frame p (a_source a) s s') as F by (subst s'; clearbody p; destruct p; by apply frame_mark).
  split; [done|]. apply (inv_change A s); try done. fold p. destruct (alloc_line A s I a Ha) as [O1 O2 O3 O4 O5 O6]. fold p in O1, O2, O3, O4, O5, O6.
  rewrite EL in *. rewrite change_cons, decide_True by done. change (change _ _ []) with (@nil alloc).
  apply Forall_cons in O2 as [O2 _]. apply Forall_cons in O3 as [O3 _]. apply Forall_cons in O4 as [O4 _]. apply Forall_cons in O6 as [O6 _].
  split; try (constructor; [|constructor]).
  - assert (vflags vd = Z.lor VECDESC_FL_NONSHARED (iram_bit (a_iram a))) as Ef.
    { destruct (vo_flags _ _ Hvd) as [? E _|E _|c [= <-] _ ?|? _ HF _]; try done. apply Forall_cons in HF as [[HF _] _]. unfold is_shared in HF. by rewrite En in HF. }
    subst s'. rewrite (mark_flags _ _ _ p s vd false (a_iram a) Evd Ef).
    destruct Hvd as [V1 V2 V3]. split; cbn; [by apply (vd_exclusive _ _ (moved b a))| |done]. rewrite V2. unfold svds. cbn. by rewrite En.
  - done.
  - assert (interrupt_table s' p = interrupt_table s p) as -> by (subst s'; unfold mark_iram; by destruct b). done.
  - assert (intr_matrix s' = intr_matrix s) as -> by (subst s'; unfold mark_iram; by destruct b). done.
  - cbn [existsb]. rewrite orb_false_r. subst s'. unfold mark_iram. destruct b; cbn; rewrite fn_lookup_insert, ?testbit_set, ?testbit_clear_line, Z.eqb_refl by done;
      [apply andb_false_r|apply orb_true_r].
  - assert (intenable s' = intenable s) as -> by (subst s'; unfold mark_iram; by destruct b). done.
Qed.
