(* ===== verification/IntrLife.v ===== *)
(** * Allocating interrupts

    What a request leads to in each case, and the invariant in every state that
    calls of the allocator can reach. *)

From stdpp Require Import functions sorting.
From S2P Require Import Prelude EspErr Image IntrAlloc IntrInv IntrChoice IntrOps.

(** ** A vector for a line *)

Lemma narrow_line p : valid_line p -> (uN 1 p.1, uN 5 p.2) = p.
Proof.
  intros [H1 H2]. unfold SOC_CPU_CORES_NUM, SOC_CPU_INTR_NUM in *. destruct p as [c i]. cbn in *. f_equal; apply uN_id; lia.
Qed.

(** A vector that was just allocated. *)
Lemma inv_insert A s p : inv A s -> valid_line p -> deref p s = None ->
  let s' := set_head (insert_vector_desc (MkVd 0 p.1 p.2 0 []) (vector_desc_head s)) s in
  inv A s' /\ deref p s' = Some (MkVd 0 p.1 p.2 0 []) /\ on_line p A = [].
Proof.
  intros I Hp Hn s'. set (vd := MkVd 0 p.1 p.2 0 []) in *. assert (key vd = p) as Ek by (by destruct p).
  assert (forall q, deref q s' = if decide (q = p) then Some vd else deref q s) as Hd.
  { intros q. rewrite <- Ek. apply deref_insert; [apply I|by rewrite Ek]. }
  assert (on_line p A = []) as HL.
  { pose proof (lo_vd _ _ _ (inv_line _ _ I p Hp)) as H. by rewrite Hn in H. }
  split; [|split; [by rewrite Hd, decide_True|done]].
  destruct I as [I1 I2 I3 I4 I5 I6 I7]. split; try done.
  - apply sorted_insert; [done|]. rewrite Ek. by apply deref_None_In.
  - rewrite Forall_forall in *. intros q Hq. apply list_elem_of_fmap in Hq as (d & -> & Hq). apply insert_In in Hq as [->|Hq]; [by rewrite Ek|].
    apply I2. by apply list_elem_of_fmap_2.
  - intros q Hq. destruct (I3 q Hq) as [O1 O2 O3 O4 O5 O6]. split; try done. rewrite Hd. destruct (decide _) as [->|]; [|done]. rewrite HL.
    split; [by apply (vd_free _ _ false)|done|by left].
Qed.

Lemma get_desc_ok A s p ok : inv A s -> valid_line p ->
  (get_desc_for_int p.2 p.1 ok s = (s, None) /\ ok = false) \/
  exists s' vd, get_desc_for_int p.2 p.1 ok s = (s', Some p) /\ inv A s' /\ deref p s' = Some vd /\
    reserved vd = reserved (vector_of p.2 p.1 s) /\ interrupt_table s' = interrupt_table s /\ intr_matrix s' = intr_matrix s.
Proof.
  intros I Hp. unfold get_desc_for_int, vector_of. change (find_desc_for_int p.2 p.1 s) with (deref p s). destruct (deref p s) as [vd|] eqn:E.
  - right. exists s, vd. apply deref_Some in E as Ek. destruct Ek as [-> _]. done.
  - destruct ok; [right|by left].
    pose proof (narrow_line p Hp) as En. destruct p as [c i]. cbn in *. injection En as E1 E2. rewrite E1, E2.
    destruct (inv_insert A s (c, i) I Hp E) as (I' & E' & _). eexists _, _. split; [reflexivity|]. split; [exact I'|]. split; [exact E'|]. done.
Qed.

Lemma reserve_ok A s p ok : inv A s -> valid_line p -> on_line p A = [] ->
  exists s' e, esp_intr_reserve p.2 p.1 ok s = (s', e) /\ inv A s' /\ (e = ESP_OK \/ e = ESP_ERR_NO_MEM /\ ok = false /\ s' = s).
Proof.
  intros I Hp HL. unfold esp_intr_reserve. destruct Hp as [Hp1 Hp2]. unfold SOC_CPU_CORES_NUM, SOC_CPU_INTR_NUM in *.
  assert ((p.2 >? 31) = false) as -> by (rewrite Z.gtb_ltb; apply Z.ltb_ge; lia). assert ((p.1 >=? 2) = false) as -> by (rewrite Z.geb_leb; apply Z.leb_gt; lia).
  destruct (get_desc_ok A s p ok I (conj Hp1 Hp2)) as [(-> & ->)|(s1 & vd & -> & I1 & E1 & _)]; [eexists _, _; split; [done|]; split; [done|by right]|].
  eexists _, _. split; [done|]. split; [|by left]. apply (inv_update p 0 A A s1); try done.
  - apply frame_write, _.
  - intros a Ha _ E. destruct (alloc_source A s I a Ha) as [Hs _]. unfold valid_source in Hs. lia.
  - intros a Ha. rewrite HL in Ha. by apply elem_of_nil in Ha.
  - apply I.
  - pose proof (inv_line _ _ I1 p (conj Hp1 Hp2)) as [O1 O2 O3 O4 O5 O6]. rewrite HL in *. split; try done.
    rewrite deref_write_vd by apply keeps_set_flags. rewrite decide_True, E1 by done. rewrite E1 in O1. destruct O1 as [V1 V2 V3].
    split; [by apply vd_reserved|done|done].
Qed.

Lemma svds_cons a L : a_shared a = None -> svds (a :: L) = svds L.
Proof. intros E. unfold svds. cbn. by rewrite E. Qed.

Lemma svds_cons_shared a L sh : a_shared a = Some sh -> svds (a :: L) = svd_of a sh :: svds L.
Proof. intros E. unfold svds. cbn. by rewrite E. Qed.

(** ** A request *)

Lemma flag_lor_out f c m : Z.land c m = 0 -> flag (Z.lor f c) m = flag f m.
Proof. intros E. unfold flag. by rewrite Z.land_lor_distr_l, E, Z.lor_0_r. Qed.

Lemma default_level_out f m : Z.land m ESP_INTR_FLAG_LOWMED = 0 -> flag (default_level f) m = flag f m.
Proof.
  intros E. unfold default_level. destruct (flag f ESP_INTR_FLAG_LEVELMASK); [done|]. destruct (flag f ESP_INTR_FLAG_SHARED); apply flag_lor_out; [|by rewrite Z.land_comm].
  apply (f_equal (fun x => Z.land x ESP_INTR_FLAG_LEVEL1)) in E. rewrite <- Z.land_assoc in E. by rewrite Z.land_comm.
Qed.

Lemma default_level_set f : flag (default_level f) ESP_INTR_FLAG_LEVELMASK = true.
Proof.
  unfold default_level. destruct (flag f ESP_INTR_FLAG_LEVELMASK) eqn:E; [done|]. destruct (flag f ESP_INTR_FLAG_SHARED).
  all: unfold flag; rewrite Z.land_lor_distr_l; apply negb_true_iff, Z.eqb_neq; intros H; apply Z.lor_eq_0_iff in H as [_ H]; done.
Qed.

(** The handler of an accepted line can be written in C, if high levels are not
    asked for. *)
Lemma accepts_level c flags force x : 0 <= x < SOC_CPU_INTR_NUM -> flag flags ESP_INTR_FLAG_HIGH = false -> accepts c flags force x = true ->
  (Xthal_intlevel x >? XCHAL_EXCM_LEVEL) = false.
Proof.
  intros Hx Hh Ha. unfold accepts in Ha. rewrite !andb_true_iff in Ha. destruct Ha as [[[_ _] Hp] _].
  assert (Xthal_intlevel x = priority (intr_desc_table c x)) as ->.
  { assert (forallb (fun y => Xthal_intlevel y =? priority (intr_desc_table c y)) (seqZ 0 32) = true) as H by (cbn; by destruct (c =? 0)).
    rewrite forallb_forall in H. apply Z.eqb_eq, H, list_elem_of_In, elem_of_seqZ. done. }
  assert (forallb (fun y => (priority (intr_desc_table c y) <=? 3) || Z.testbit ESP_INTR_FLAG_HIGH (priority (intr_desc_table c y))) (seqZ 0 32) = true) as H by (cbn; by destruct (c =? 0)).
  rewrite forallb_forall in H. specialize (H x). rewrite orb_true_iff in H. destruct H as [H|H]; [apply list_elem_of_In, elem_of_seqZ; done| |].
  - apply Z.leb_le in H. unfold XCHAL_EXCM_LEVEL. rewrite Z.gtb_ltb. by apply Z.ltb_ge.
  - exfalso. set (k := priority _) in *. assert (0 <= k) as Hk by (destruct (decide (0 <= k)); [done|rewrite Z.testbit_neg_r in H by lia; done]).
    rewrite Z.shiftl_1_l, flag_bit in Hp by done. unfold flag in Hh. apply negb_false_iff, Z.eqb_eq in Hh. apply (f_equal (fun v => Z.testbit v k)) in Hh.
    by rewrite Z.land_spec, Hp, H, Z.bits_0 in Hh.
Qed.

(** What a legal caller passes: a source that can be allocated, a handle of an
    allocation on the same CPU, and an address that is not in use. *)
Record legal_request (A : list alloc) (core : Z) (r : request) (m : mallocs) : Prop := {
  lr_core : valid_core core;
  lr_source : valid_source (rq_source r);
  lr_handle h : shared_handle r = Some h -> exists a, a ∈ A /\ h = handle_of a /\ (a_ptr a).1 = core;
  lr_fresh x : sh_vec m = Some x -> x ∉ addresses A;
  lr_count : Z.of_nat (length A) < INT_MAX
}.

(** The line that a request insists on, or -1. *)
Definition forced (r : request) : Z :=
  match shared_handle r with
  | None => tied_line (rq_source r)
  | Some h => match h_vector_desc h with Some p => p.2 | None => -1 end
  end.

Definition new_alloc (core x : Z) (r : request) (m : mallocs) : alloc :=
  let flags := rq_flags r in
  MkAlloc (core, x) (rq_source r)
    (if flag flags ESP_INTR_FLAG_SHARED then (fun a => MkShared a (intrstatusreg r) (intrstatusmask r)) <$> sh_vec m else None)
    (rq_handler r) (rq_arg r) (flag flags ESP_INTR_FLAG_IRAM) true.

Section request.
Context (A : list alloc) (s : intr_state) (I : inv A s) (core : Z) (r : request) (m : mallocs) (Hr : legal_request A core r m).
Context (Hvalid : invalid_request r = false).
Let flags := default_level (rq_flags r).
Let src := rq_source r.

Lemma request_valid :
  (flag (rq_flags r) ESP_INTR_FLAG_HIGH = true -> rq_handler r = 0) /\
  (flag (rq_flags r) ESP_INTR_FLAG_SHARED = true -> rq_handler r <> 0 /\ 0 < src).
Proof.
  unfold invalid_request in Hvalid. rewrite !orb_false_iff in Hvalid. destruct Hvalid as [[[[[_ H1] H2] _] _] _]. split.
  - intros E. rewrite E in H1. cbn in H1. by apply negb_false_iff, Z.eqb_eq in H1.
  - intros E. rewrite E in H2. cbn in H2. apply orb_false_iff in H2 as [H2 H3]. apply Z.eqb_neq in H2. apply Z.ltb_ge in H3. split; [done|].
    pose proof (lr_source _ _ _ _ Hr) as Hs. unfold valid_source in Hs. subst src. lia.
Qed.

Lemma flags_same : flag flags ESP_INTR_FLAG_SHARED = flag (rq_flags r) ESP_INTR_FLAG_SHARED /\ flag flags ESP_INTR_FLAG_IRAM = flag (rq_flags r) ESP_INTR_FLAG_IRAM /\
  flag flags ESP_INTR_FLAG_HIGH = flag (rq_flags r) ESP_INTR_FLAG_HIGH /\ flag flags ESP_INTR_FLAG_INTRDISABLED = flag (rq_flags r) ESP_INTR_FLAG_INTRDISABLED.
Proof. by repeat split; apply default_level_out. Qed.

Lemma source_16 : sN 16 src = src.
Proof. apply sN_id; [done|]. pose proof (lr_source _ _ _ _ Hr) as Hs. unfold valid_source in Hs. subst src. lia. Qed.

(** The line that was chosen, its vector and its allocations. *)
Context (x : Z) (Hx : can_use A s core flags (forced r) src x).
Let p : vd_ptr := (core, x).
Let L := on_line p A.
Context (s1 : intr_state) (vd : vector_desc) (I1 : inv A s1) (Evd : deref p s1 = Some vd).
Context (Eres : reserved vd = reserved (vector_of x core s)) (Et : interrupt_table s1 = interrupt_table s).

Lemma line_valid : valid_line p.
Proof. destruct Hx as (Hx' & _). split; [apply Hr|done]. Qed.

Lemma line_vector : vector_ok L vd.
Proof. pose proof (lo_vd _ _ _ (inv_line _ _ I1 p line_valid)) as H. by rewrite Evd in H. Qed.

Lemma line_takes : reserved vd = false /\ accepts core flags (forced r) x = true /\ takes flags L (xt_int_has_handler x core s) = true.
Proof.
  destruct Hx as (_ & _ & _ & Hf). unfold free_for in Hf. rewrite !andb_true_iff, negb_true_iff in Hf. rewrite Eres. tauto.
Qed.

(** The rest of the line is shared, of the same kind. *)
Lemma line_rest : Forall (fun a => is_shared a = true /\ a_iram a = flag flags ESP_INTR_FLAG_IRAM) L /\
  (L <> [] -> flag flags ESP_INTR_FLAG_SHARED = true) /\ (L = [] -> interrupt_table s1 p = xt_unhandled_interrupt).
Proof.
  destruct line_takes as (_ & _ & Ht). destruct line_vector as [Hv _ _]. split; [|split].
  - destruct Hv as [? E _|E _|c E Ec _|b HL HF _]; [rewrite E; constructor..| |].
    + rewrite E in Ht. cbn in Ht. unfold is_shared in Ht. by rewrite Ec in Ht.
    + destruct L as [|c l]; [done|]. cbn in Ht. rewrite !andb_true_iff in Ht. destruct Ht as [_ Ht]. apply eqb_prop in Ht. rewrite <- Ht.
      rewrite Forall_forall in HF. destruct (HF c ltac:(by left)) as [_ Eb]. apply Forall_forall. intros d Hd. rewrite Eb. by apply HF.
  - intros HL. destruct L as [|c l]; [done|]. cbn in Ht. rewrite !andb_true_iff in Ht. tauto.
  - intros HL. rewrite HL in Ht. cbn in Ht. rewrite Et. unfold xt_int_has_handler in Ht. fold p in Ht. by destruct (interrupt_table s p).
Qed.

(** After the vector and the handler were set, the line is marked, connected and
    enabled. *)
Lemma connect a s2 vd2 b0 : a_ptr a = p -> a_source a = src -> a_on a = true -> a_iram a = flag flags ESP_INTR_FLAG_IRAM ->
  is_shared a = flag flags ESP_INTR_FLAG_SHARED ->
  frame p src s1 s2 -> deref p s2 = Some vd2 -> interrupt_table s2 p = entry_of a -> intr_matrix s2 = intr_matrix s1 ->
  vflags vd2 = Z.lor (if is_shared a then VECDESC_FL_SHARED else VECDESC_FL_NONSHARED) (iram_bit b0) ->
  shared_vec_info vd2 = svds (a :: L) -> (a_shared a = None -> source vd2 = src) ->
  let s3 := mark_iram core x (flag flags ESP_INTR_FLAG_IRAM) p s2 in
  let s4 := if src >=? 0 then esp_rom_route_intr_matrix core src x s3 else s3 in
  let s5 := esp_intr_enable_source core x s4 in
  frame p src s1 s5 /\ line_ok p (a :: L) s5.
Proof.
  intros Ep Es Eon Ei Esh F2 Evd2 Et2 Em2 Ef Ev Eso s3 s4 s5. destruct line_valid as [Hp1 [Hp2 _]]. cbn in Hp2.
  assert (frame p src s1 s5) as F.
  { etrans; [exact F2|]. etrans; [by apply frame_mark|]. fold s3. transitivity s4; [subst s4; destruct (_ >=? _); [apply frame_route|done]|by apply frame_enable]. }
  split; [done|]. destruct line_rest as (HF & HLs & _). destruct (inv_line _ _ I1 p line_valid) as [_ O2 _ O4 _ _]. fold L in O2, O4.
  assert (is_shared a = true -> 0 < src) as Hpos by (intros E; rewrite Esh in E; apply request_valid; by destruct flags_same as (<- & _)).
  assert (L <> [] -> is_shared a = true) as HLa by (intros HL; rewrite Esh; auto).
  split.
  - assert (deref p s5 = deref p s3) as -> by (subst s5 s4; by destruct (_ >=? _)).
    assert (deref p s3 = Some (set_flags (Z.lor (if is_shared a then VECDESC_FL_SHARED else VECDESC_FL_NONSHARED) (iram_bit (flag flags ESP_INTR_FLAG_IRAM))) vd2)) as ->
      by (by apply (mark_flags _ _ _ _ _ _ _ b0)).
    split; [|done|by rewrite Es]. destruct (is_shared a) eqn:Ea.
    + apply (vd_shared _ _ (flag flags ESP_INTR_FLAG_IRAM)); [done|by constructor|done].
    + rewrite <- Ei. apply (vd_exclusive _ _ a); [|unfold is_shared in Ea; by destruct (a_shared a)|done]. destruct L as [|c l]; [done|]. by specialize (HLa ltac:(done)).
  - constructor; [|done]. rewrite Es. split; [done|]. split; [apply Hr|done].
  - assert (interrupt_table s5 = interrupt_table s2) as -> by (subst s5 s4 s3; unfold mark_iram; by destruct (_ >=? _), (flag _ _)).
    rewrite Et2. constructor; [done|]. eapply Forall_impl; [|intros c Hc; exact Hc]. apply Forall_forall. intros c Hc. rewrite Forall_forall in HF. destruct (HF c Hc) as [Hcs _].
    unfold entry_of. rewrite Hcs, HLa by (intros HL; rewrite HL in Hc; by apply elem_of_nil in Hc). apply on_line_In in Hc as [-> _]. by rewrite Ep.
  - assert (forall c, c ∈ a :: L -> a_source c <> src -> c ∈ L) as Hc1 by (intros c Hc Hne; apply elem_of_cons in Hc as [->|Hc]; done).
    apply Forall_forall. intros c Hc Hcpos. destruct (decide (a_source c = src)) as [E|Hne].
    + rewrite E in *. unfold source_on. cbn [existsb]. rewrite Es, Eon, Z.eqb_refl. cbn [andb orb]. subst s5 s4. rewrite (proj2 (Z.geb_le src 0)) by lia. cbn. by rewrite fn_lookup_insert.
    + rewrite (fr_matrix _ _ _ _ F) by (intros [= E]; done). rewrite Forall_forall in O4. rewrite (O4 c (Hc1 c Hc Hne) Hcpos).
      unfold source_on. cbn [existsb]. by rewrite Es, (proj2 (Z.eqb_neq src (a_source c))) by done.
  - assert (non_iram_int_mask s5 = non_iram_int_mask s3) as -> by (subst s5 s4; by destruct (_ >=? _)). cbn [existsb]. rewrite Ei.
    rewrite (same_memory L (flag flags ESP_INTR_FLAG_IRAM)) by (eapply Forall_impl; [exact HF|]; by intros c [_ ?]).
    subst s3. unfold mark_iram. destruct (flag flags ESP_INTR_FLAG_IRAM); cbn; rewrite fn_lookup_insert, ?testbit_set, ?testbit_clear_line, Z.eqb_refl by done.
    + by rewrite !andb_false_r.
    + by rewrite orb_true_r.
  - subst s5. cbn. rewrite fn_lookup_insert, testbit_set, Z.eqb_refl, orb_true_r by done. constructor; [by rewrite Eon, orb_true_r|].
    apply Forall_forall. intros c Hc. rewrite Forall_forall in HF, O2. destruct (HF c Hc) as [Hcs _], (O2 c Hc) as (_ & _ & Hcp). by rewrite (proj2 (Z.ltb_lt _ _)) by auto.
Qed.

Let a := new_alloc core x r m.

Lemma new_shared : is_shared a = flag flags ESP_INTR_FLAG_SHARED && negb (is_null (sh_vec m)).
Proof. destruct flags_same as (-> & _). unfold is_shared, a, new_alloc. cbn. by destruct (flag (rq_flags r) ESP_INTR_FLAG_SHARED), (sh_vec m). Qed.

(** Entering the handler into the table of the line. *)
Lemma set_handler_ok f s' : flag (rq_flags r) ESP_INTR_FLAG_HIGH = false ->
  exists s2, esp_cpu_intr_set_handler core x f s' = Some s2 /\ frame p src s' s2 /\ (forall q, deref q s2 = deref q s') /\
    interrupt_table s2 p = f /\ intr_matrix s2 = intr_matrix s'.
Proof.
  intros Hh. destruct line_valid as [_ Hp2]. cbn in Hp2. destruct line_takes as (_ & Ha & _). destruct flags_same as (_ & _ & Eh & _).
  pose proof (accepts_level _ _ _ _ Hp2 ltac:(by rewrite Eh) Ha) as Hl. unfold esp_cpu_intr_set_handler.
  rewrite (proj2 (Z.leb_le 0 x)), (proj2 (Z.ltb_lt x _)) by lia. cbn [andb]. eexists. split; [reflexivity|]. split; [apply frame_set_handler|].
  unfold xt_set_interrupt_handler. rewrite (proj2 (Z.ltb_ge x 0)), Z.geb_leb, (proj2 (Z.leb_gt _ x)), Hl by lia. cbn [orb]. split; [done|]. split; [|done].
  cbn. by rewrite fn_lookup_insert.
Qed.

Lemma install_ok : (flag flags ESP_INTR_FLAG_SHARED = true -> sh_vec m <> None) ->
  exists s2 vd2 b0, install core flags r x p (sh_vec m) s1 = Some (Some s2) /\ frame p src s1 s2 /\ deref p s2 = Some vd2 /\
    interrupt_table s2 p = entry_of a /\ intr_matrix s2 = intr_matrix s1 /\
    vflags vd2 = Z.lor (if is_shared a then VECDESC_FL_SHARED else VECDESC_FL_NONSHARED) (iram_bit b0) /\
    shared_vec_info vd2 = svds (a :: L) /\ (a_shared a = None -> source vd2 = src).
Proof.
  intros Hm. destruct line_vector as [V1 V2 _]. destruct line_rest as (HF & HLs & Htab). destruct line_takes as (Hres & _ & _). destruct request_valid as [Hh Hs].
  destruct flags_same as (Esf & _). pose proof new_shared as Ens. unfold install. destruct (flag flags ESP_INTR_FLAG_SHARED) eqn:Eshared.
  - destruct (sh_vec m) as [ad|] eqn:Esv; [|by destruct Hm]. cbn in Ens. rewrite <- Esf in Hs. destruct (Hs eq_refl) as [Hne Hpos].
    match goal with |- context [esp_cpu_intr_set_handler _ _ _ ?w] => set (sw := w) end.
    destruct (set_handler_ok (shared_intr_handler p) sw) as (s2 & -> & F & Hd & Et2 & Em2); [by apply not_true_iff_false; intros E; apply Hh in E|].
    assert (exists b0, Z.lor (vflags vd) VECDESC_FL_SHARED = Z.lor VECDESC_FL_SHARED (iram_bit b0)) as (b0 & Ef).
    { destruct V1 as [b _ ->|_ E|c E Ec _|b _ _ ->]; [exists b; by rewrite Z.lor_comm|by unfold reserved in Hres; rewrite E in Hres| |exists b; by destruct b].
      rewrite E in HF. apply Forall_cons in HF as [[HF _] _]. unfold is_shared in HF. by rewrite Ec in HF. }
    eexists s2, _, b0. split; [done|]. split; [|split; [rewrite Hd; subst sw; rewrite !deref_write_vd by apply _; by rewrite !decide_True, Evd|]].
    + etrans; [|exact F]. subst sw. etrans; [|apply frame_write, keeps_flags]. apply frame_write, keeps_shared.
    + rewrite Et2, Em2, Ens. split; [unfold entry_of; by rewrite Ens|]. split; [done|]. split; [exact Ef|].
      split; [|intros E; unfold is_shared in Ens; by rewrite E in Ens]. unfold svds. cbn. unfold a at 1, new_alloc. cbn. rewrite <- Esf, Esv. cbn. unfold svd_of. cbn.
      change (rq_source r) with src. by rewrite source_16, V2.
  - cbn in Ens. assert (L = []) as HL by (destruct L as [|c l]; [done|]; by specialize (HLs ltac:(done))).
    set (sw := write p (set_flags VECDESC_FL_NONSHARED) s1).
    assert (exists s2, (if negb (rq_handler r =? 0) then esp_cpu_intr_set_handler core x (intr_handler (rq_handler r) (rq_arg r)) sw else Some sw) = Some s2 /\
      frame p src sw s2 /\ (forall q, deref q s2 = deref q sw) /\ interrupt_table s2 p = entry_of a /\ intr_matrix s2 = intr_matrix sw) as (s2 & -> & F & Hd & Et2 & Em2).
    { unfold entry_of. rewrite Ens. cbn. destruct (Z.eqb_spec (rq_handler r) 0) as [E|E]; cbn [negb].
      - exists sw. repeat split; try done. by apply Htab.
      - apply (set_handler_ok (intr_handler (rq_handler r) (rq_arg r)) sw). apply not_true_iff_false. intros Eh. by apply E, Hh. }
    eexists _, _, false. split; [reflexivity|]. rewrite Ens. split; [etrans; [apply (frame_write p _ (set_flags VECDESC_FL_NONSHARED)), _|]; etrans; [exact F|]; apply frame_write, _|].
    split; [rewrite deref_write_vd by apply _; rewrite decide_True, Hd by done; subst sw; rewrite deref_write_vd by apply _; by rewrite decide_True, Evd|].
    split; [done|]. split; [done|]. split; [done|]. split; [|intros _; apply source_16]. cbn [shared_vec_info set_source set_flags]. rewrite V2.
    rewrite svds_cons; [done|]. unfold is_shared in Ens. by destruct (a_shared a).
Qed.

Lemma new_line : on_line p (a :: A) = a :: L.
Proof. rewrite on_line_cons. by rewrite decide_True. Qed.

Lemma inv_new s5 : frame p src s1 s5 -> line_ok p (a :: L) s5 -> inv (a :: A) s5.
Proof.
  intros F Hl. apply (inv_update p src A _ s1); try done.
  - apply line_valid.
  - intros q Hq. rewrite on_line_cons. by rewrite decide_False by (change (p <> q); congruence).
  - intros b Hb E1 E2. destruct Hx as (_ & _ & Hx' & _). rewrite (surjective_pairing (a_ptr b)), (Hx' b Hb E1 E2). by rewrite E1.
  - intros b Hb. rewrite new_line in Hb. apply elem_of_cons in Hb as [->|Hb]; [by left|right; by exists b].
  - unfold addresses. cbn [omap list_omap]. pose proof (inv_addr _ _ I) as Hn. destruct (sh_addr <$> a_shared a) as [ad|] eqn:E; [|done].
    apply NoDup_cons. split; [|done]. apply (lr_fresh _ _ _ _ Hr). unfold a, new_alloc in E. cbn in E. destruct (flag (rq_flags r) ESP_INTR_FLAG_SHARED); [|done].
    by destruct (sh_vec m); cbn in E.
  - by rewrite new_line.
Qed.

(** The handle that is returned is that of the new allocation. *)
Lemma new_handle v s5 : deref p s5 = Some v -> line_ok p (a :: L) s5 -> MkHandle (Some p) (addr <$> head (shared_vec_info v)) = handle_of a.
Proof.
  intros E [O1 _ _ _ _ _]. rewrite E in O1. unfold handle_of. change (a_ptr a) with p. f_equal. rewrite (vo_shared _ _ O1).
  destruct (a_shared a) as [sh|] eqn:Ea; [by rewrite (svds_cons_shared _ _ _ Ea)|]. rewrite (svds_cons _ _ Ea).
  assert (L = []) as ->; [|done]. destruct (vo_flags _ _ O1) as [? E' _|E' _|c [= _ E'] _ _|? _ HF _]; try done.
  apply Forall_cons in HF as [[HF _] _]. unfold is_shared in HF. by rewrite Ea in HF.
Qed.
End request.

(** ** The answer *)

(** The new allocation, switched off if that is asked for. *)
Definition allocated (core x : Z) (r : request) (m : mallocs) : alloc :=
  switched (negb (flag (rq_flags r) ESP_INTR_FLAG_INTRDISABLED)) (new_alloc core x r m).

Section answer.
Context (A : list alloc) (s : intr_state) (core : Z) (r : request) (m : mallocs).
Abbreviation usable := (can_use A s core (default_level (rq_flags r)) (forced r) (rq_source r)).

(** The state, the error code and the handle that a request leads to, and the
    allocations afterwards. *)
Inductive answered : intr_state -> esp_err_t -> option intr_handle -> list alloc -> Prop :=
  | ans_invalid : invalid_request r = true -> answered s ESP_ERR_INVALID_ARG None A
  | ans_no_handle : invalid_request r = false -> ret_ok m = false -> answered s ESP_ERR_NO_MEM None A
  | ans_not_found : invalid_request r = false -> ret_ok m = true -> (forall x, ~ usable x) -> answered s ESP_ERR_NOT_FOUND None A
  | ans_no_mem x s' : invalid_request r = false -> ret_ok m = true -> usable x ->
      (vd_ok m = false \/ flag (rq_flags r) ESP_INTR_FLAG_SHARED = true /\ sh_vec m = None) ->
      interrupt_table s' = interrupt_table s -> intr_matrix s' = intr_matrix s -> answered s' ESP_ERR_NO_MEM None A
  | ans_ok x s' : invalid_request r = false -> ret_ok m = true -> usable x ->
      (forall y, usable y -> preferred A core (default_level (rq_flags r)) x y) ->
      answered s' ESP_OK (Some (handle_of (allocated core x r m))) (allocated core x r m :: A).
End answer.

Lemma tied_range src : tied_line src = -1 \/ 0 <= tied_line src < SOC_CPU_INTR_NUM.
Proof. unfold tied_line. repeat case_match; unfold SOC_CPU_INTR_NUM; ((by left) || (right; done)). Qed.

(** The CPU and the line that a legal request insists on. *)
Lemma target_ok A s core r m : inv A s -> legal_request A core r m ->
  match shared_handle r with
  | None => Some (Some (core, tied_line (rq_source r)))
  | Some h =>
      match h_vector_desc h with
      | None => Some None
      | Some p => let? vd := deref p s in Some (Some (cpu vd, intno vd))
      end
  end = Some (Some (core, forced r)) /\ (forced r = -1 \/ 0 <= forced r < SOC_CPU_INTR_NUM).
Proof.
  intros I Hr. unfold forced. destruct (shared_handle r) as [h|] eqn:E; [|split; [done|apply tied_range]].
  destruct (lr_handle _ _ _ _ Hr h E) as (a & Ha & -> & Ec). cbn [handle_of h_vector_desc]. destruct (alloc_at A s I a Ha) as (vd & -> & _ & E1 & E2 & _).
  rewrite E1, E2, Ec. split; [done|]. right. by apply (alloc_valid A s I a Ha).
Qed.

Lemma switch_head A s a b : inv (a :: A) s -> switch (handle_of a) b (a :: A) = switched b a :: A.
Proof.
  intros I. unfold switch. rewrite change_cons, decide_True by done. f_equal. apply change_other. apply Forall_forall. intros c Hc Eh.
  pose proof (handle_inj (a :: A) s c a I ltac:(by right) ltac:(by left) Eh) as ->. destruct (a_shared a) as [sh|] eqn:E.
  - pose proof (inv_addr _ _ I) as Hn. unfold addresses in Hn. cbn in Hn. rewrite E in Hn. cbn in Hn. apply NoDup_cons in Hn as [Hn _]. apply Hn. by apply (address_In A a).
  - destruct (alloc_at (a :: A) s I a ltac:(by left)) as (vd & _ & _ & _ & _ & [(_ & EL & _)|(_ & (sh & Esh) & _)]); [|congruence].
    rewrite on_line_cons, decide_True in EL by done. injection EL as EL. assert (a ∈ on_line (a_ptr a) A) as H by (by apply on_line_In). rewrite EL in H. by apply elem_of_nil in H.
Qed.

Lemma alloc_answered A s core r m : inv A s -> legal_request A core r m ->
  exists s' e h A', esp_intr_alloc_intrstatus_bind core r m s = Some (s', (e, h)) /\ answered A s core r m s' e h A' /\ inv A' s'.
Proof.
  intros I Hr. unfold esp_intr_alloc_intrstatus_bind. destruct (invalid_request r) eqn:Ev; [eexists s, _, _, A; split; [done|]; split; [by apply ans_invalid|done]|].
  destruct (ret_ok m) eqn:Eret; cbn [negb]; [|eexists s, _, _, A; split; [done|]; split; [by apply ans_no_handle|done]].
  destruct (target_ok A s core r m I Hr) as [-> Hforced].
  destruct (get_available_ok A s I core (lr_core _ _ _ _ Hr) (default_level (rq_flags r)) (forced r) (rq_source r) (lr_source _ _ _ _ Hr) (default_level_set _) Hforced (lr_count _ _ _ _ Hr))
    as (x & -> & [[Hx Hpref]|[-> Hno]]); [|cbn; eexists s, _, _, A; split; [done|]; split; [by apply ans_not_found|done]].
  assert ((x =? -1) = false) as -> by (destruct Hx as [Hx _]; apply Z.eqb_neq; lia).
  pose proof (line_valid A s core r m Hr x Hx) as Hp.
  destruct (get_desc_ok A s (core, x) (vd_ok m) I Hp) as [(E & Evd)|(s1 & vd & E & I1 & Evd & Eres & Et & Em)]; cbn [fst snd] in E; rewrite E.
  { eexists s, _, _, A. split; [done|]. split; [|done]. apply (ans_no_mem _ _ _ _ _ x); try done. by left. }
  destruct (decide (flag (default_level (rq_flags r)) ESP_INTR_FLAG_SHARED = true /\ sh_vec m = None)) as [[Es Esv]|Hsv].
  { unfold install. rewrite Es, Esv. eexists s1, _, _, A. split; [done|]. split; [|done]. destruct (flags_same r) as (Esf & _).
    apply (ans_no_mem _ _ _ _ _ x); try done. right. by rewrite <- Esf. }
  assert (flag (default_level (rq_flags r)) ESP_INTR_FLAG_SHARED = true -> sh_vec m <> None) as Hm by tauto.
  destruct (install_ok A s core r m Hr Ev x Hx s1 vd I1 Evd Eres Et Hm) as (s2 & vd2 & b0 & -> & F2 & Evd2 & Et2 & Em2 & Ef2 & Ev2 & Es2).
  destruct (flags_same r) as (Esf & Eif & _ & Edf). set (a := new_alloc core x r m) in *.
  assert (is_shared a = flag (default_level (rq_flags r)) ESP_INTR_FLAG_SHARED) as Esh.
  { unfold a. rewrite new_shared. destruct (flag (default_level _) ESP_INTR_FLAG_SHARED); [|done]. by destruct (sh_vec m); [|destruct Hm]. }
  destruct (connect A s core r m Hr Ev x Hx s1 vd I1 Evd Eres Et a s2 vd2 b0) as [F5 Hl]; try done.
  match goal with |- context [deref (core, x) ?w] => set (s4 := w) end.
  change (frame (core, x) (rq_source r) s1 (esp_intr_enable_source core x s4)) in F5. change (line_ok (core, x) (a :: on_line (core, x) A) (esp_intr_enable_source core x s4)) in Hl.
  pose proof (inv_new A s I core r m Hr x Hx s1 I1 _ F5 Hl) as I5. fold a in I5. pose proof (lo_vd _ _ _ Hl) as Hv.
  change (deref (core, x) (esp_intr_enable_source core x s4)) with (deref (core, x) s4) in Hv.
  destruct (deref (core, x) s4) as [v|] eqn:Ev4; [|done]. rewrite (new_handle A core r m x v (esp_intr_enable_source core x s4) Ev4 Hl). fold a.
  rewrite Edf. destruct (flag (rq_flags r) ESP_INTR_FLAG_INTRDISABLED) eqn:Ed; cycle 1.
  { eexists _, _, _, (a :: A). split; [done|]. split; [|done]. pose proof (ans_ok A s core r m x (esp_intr_enable_source core x s4) Ev Eret Hx Hpref) as H.
    unfold allocated in H. rewrite Ed in H. exact H. }
  destruct (disable_ok (a :: A) _ I5 a ltac:(by left) core) as (s6 & -> & F6 & I6); [by right|].
  rewrite (switch_head A _ a false I5) in I6. eexists _, _, _, _. split; [done|]. split; [|exact I6]. pose proof (ans_ok A s core r m x s6 Ev Eret Hx Hpref) as H.
  unfold allocated in H. rewrite Ed in H. exact H.
Qed.
