(* ===== verification/IntrProps.v ===== *)
(** * Properties of the interrupt allocator

    For every sequence of legal calls: who may share a line, which handlers an
    interrupt runs, what a request is answered, what a handle can be used for,
    and what is enabled while the cache is disabled. *)

From stdpp Require Import functions sorting.
From S2P Require Import Prelude EspErr Image IntrAlloc IntrInv IntrChoice IntrOps IntrLife.

(** ** Reachable states *)

(** At boot no vector is in the list; the hardware may be in any state. *)
Definition boot (s : intr_state) : Prop :=
  vector_desc_head s = [] /\ (forall c, non_iram_int_mask s c = 0) /\ forall c, non_iram_int_disabled_flag s c = false.

(** The allocations after a request was answered. *)
Definition after_request (core : Z) (r : request) (m : mallocs) (h : option intr_handle) (A : list alloc) : list alloc :=
  match h with
  | Some (MkHandle (Some p) _) => allocated core p.2 r m :: A
  | _ => A
  end.

(** Calls with handles of live allocations, on any core.  A line may be reserved
    when it is not in use; while the cache is disabled nothing else is called;
    [rtc_module.c] changes its variables at any time. *)
Inductive reachable : list alloc -> intr_state -> Prop :=
  | reach_boot s : boot s -> reachable [] s
  | reach_alloc A s core r m s' e h : reachable A s -> legal_request A core r m ->
      esp_intr_alloc_intrstatus_bind core r m s = Some (s', (e, h)) -> reachable (after_request core r m h A) s'
  | reach_free A s a core any ipc s' e : reachable A s -> a ∈ A ->
      esp_intr_free core any ipc (Some (handle_of a)) s = Some (s', e) -> reachable (if e =? ESP_OK then remove (handle_of a) A else A) s'
  | reach_enable A s a core s' e : reachable A s -> a ∈ A ->
      esp_intr_enable core (Some (handle_of a)) s = Some (s', e) -> reachable (if e =? ESP_OK then switch (handle_of a) true A else A) s'
  | reach_disable A s a core s' e : reachable A s -> a ∈ A ->
      esp_intr_disable core (Some (handle_of a)) s = Some (s', e) -> reachable (if e =? ESP_OK then switch (handle_of a) false A else A) s'
  | reach_iram A s a b s' e : reachable A s -> a ∈ A ->
      esp_intr_set_in_iram (Some (handle_of a)) b s = Some (s', e) -> reachable (if e =? ESP_OK then change (handle_of a) (moved b) A else A) s'
  | reach_reserve A s p ok s' e : reachable A s -> valid_line p -> on_line p A = [] -> esp_intr_reserve p.2 p.1 ok s = (s', e) -> reachable A s'
  | reach_window A s core s1 s2 : reachable A s ->
      esp_intr_noniram_disable core s = Some s1 -> esp_intr_noniram_enable core s1 = Some s2 -> reachable A s2
  | reach_rtc A s v : reachable A s -> reachable A (set_rtc v s).

Lemma inv_boot s : boot s -> inv [] s.
Proof.
  intros (E1 & E2 & E3). assert (forall p, deref p s = None) as Hd by (intros p; rewrite deref_find, E1; done).
  split; try constructor; try done.
  - unfold sorted. rewrite E1. constructor.
  - by rewrite E1.
  - by rewrite Hd.
  - by rewrite E2, Z.bits_0.
  - intros a b Ha. by apply elem_of_nil in Ha.
Qed.

(** The outcome of each call with a handle. *)
Section calls.
Context (A : list alloc) (s : intr_state) (I : inv A s) (a : alloc) (Ha : a ∈ A) (core : Z).

Lemma switch_answered (b : bool) : exists s' e, (if b then esp_intr_enable else esp_intr_disable) core (Some (handle_of a)) s = Some (s', e) /\
  (e = ESP_OK /\ (0 < a_source a \/ core = (a_ptr a).1) /\ inv (switch (handle_of a) b A) s' \/
   e = ESP_ERR_INVALID_ARG /\ a_source a < 0 /\ core <> (a_ptr a).1 /\ s' = s).
Proof.
  destruct (decide (0 < a_source a \/ core = (a_ptr a).1)) as [Hc|Hc].
  - destruct b.
    + destruct (enable_ok A s I a Ha core Hc) as (s' & E & _ & I'). exists s', ESP_OK. split; [done|by left].
    + destruct (disable_ok A s I a Ha core Hc) as (s' & E & _ & I'). exists s', ESP_OK. split; [done|by left].
  - destruct (alloc_source A s I a Ha) as [Hs _]. unfold valid_source in Hs. assert (a_source a < 0 /\ core <> (a_ptr a).1) as [Hn Hne] by (split; [lia|tauto]).
    destruct (switch_refused A s I a Ha core Hn Hne) as [E1 E2]. exists s, ESP_ERR_INVALID_ARG. destruct b; (split; [done|by right]).
Qed.

Lemma free_answered any ipc : exists s' e, esp_intr_free core any ipc (Some (handle_of a)) s = Some (s', e) /\
  (e = ESP_OK /\ inv (remove (handle_of a) A) s' /\ frame (a_ptr a) (a_source a) s s' /\
   (0 < a_source a -> intr_matrix s' ((a_ptr a).1, a_source a) =
      if source_on (a_source a) (on_line (a_ptr a) (remove (handle_of a) A)) then (a_ptr a).2 else INT_MUX_DISABLED_INTNO) \/
   e = ESP_FAIL /\ ipc <> ESP_OK /\ s' = s).
Proof.
  unfold esp_intr_free. cbn [handle_of h_vector_desc]. destruct (alloc_at A s I a Ha) as (vd & -> & _ & Ec & _). rewrite Ec.
  destruct (free_ok A s a I Ha) as (s' & E & F & I' & Hm). fold (handle_of a). destruct (any || _) eqn:Eo.
  - destruct (Z.eqb_spec ipc ESP_OK) as [Ei|Ei]; [|exists s, ESP_FAIL; split; [done|by right]].
    exists s', ESP_OK. rewrite E. split; [done|]. left. done.
  - apply orb_false_iff in Eo as [_ Eo]. apply negb_false_iff, Z.eqb_eq in Eo. rewrite <- Eo. exists s', ESP_OK. split; [done|]. by left.
Qed.
End calls.

(** ** While the cache is disabled *)

Lemma window_bits e m : Z.lor (Z.land e (Z.lnot m)) (Z.land e m) = e.
Proof. apply Z.bits_inj'. intros i Hi. rewrite Z.lor_spec, !Z.land_spec, Z.lnot_spec by done. by destruct (Z.testbit e i), (Z.testbit m i). Qed.

Lemma inv_same A s s' : inv A s -> vector_desc_head s' = vector_desc_head s -> non_iram_int_mask s' = non_iram_int_mask s ->
  interrupt_table s' = interrupt_table s -> intr_matrix s' = intr_matrix s -> (forall c, intenable s' c = intenable s c) ->
  (forall c, non_iram_int_disabled_flag s' c = non_iram_int_disabled_flag s c) -> inv A s'.
Proof.
  intros [I1 I2 I3 I4 I5 I6 I7] E1 E2 E3 E4 E5 E6. split; [by rewrite E1|by rewrite E1| |done|done|done|].
  - intros p Hp. destruct (I3 p Hp) as [O1 O2 O3 O4 O5 O6]. assert (deref p s' = deref p s) as Ed by (by rewrite !deref_find, E1).
    split; [by rewrite Ed|done|by rewrite E3|by rewrite E4|by rewrite E2|by rewrite E5].
  - intros c. by rewrite E6.
Qed.

(** Disabling and enabling again changes nothing but the saved mask and the
    variables of the RTC interrupt. *)
Lemma window_ok A s core : inv A s -> exists s1 s2,
  esp_intr_noniram_disable core s = Some s1 /\ esp_intr_noniram_enable core s1 = Some s2 /\ inv A s2 /\
  intenable s1 core = Z.land (intenable s core) (Z.lnot (non_iram_int_mask s core)) /\ (forall c, intenable s2 c = intenable s c) /\
  (forall c, c <> core -> intenable s1 c = intenable s c) /\ esp_intr_noniram_disable core s1 = None.
Proof.
  intros I. unfold esp_intr_noniram_disable at 1. rewrite (inv_window _ _ I). eexists _, _. split; [reflexivity|].
  unfold esp_intr_noniram_enable. cbn. rewrite !fn_lookup_insert. cbn. split; [reflexivity|].
  match goal with |- inv A ?x /\ _ => set (s2 := x) end. assert (forall c, intenable s2 c = intenable s c) as He.
  { intros c. subst s2. cbn. destruct (decide (c = core)) as [->|]; [rewrite !fn_lookup_insert; apply window_bits|by rewrite !fn_lookup_insert_ne]. }
  split.
  - apply (inv_same A s); [done..|exact He|]. intros c. cbn. destruct (decide (c = core)) as [->|]; [rewrite fn_lookup_insert; symmetry; apply I|by rewrite !fn_lookup_insert_ne].
  - split; [done|]. split; [exact He|]. split; [intros c Hc; by rewrite fn_lookup_insert_ne|]. unfold esp_intr_noniram_disable. cbn. by rewrite fn_lookup_insert.
Qed.

(** ** The invariant in every reachable state *)

Lemma after_ok A s core r m s' e h A' : answered A s core r m s' e h A' -> A' = after_request core r m h A.
Proof. by intros [| | | |]. Qed.

Lemma reachable_intr A s : reachable A s -> inv A s.
Proof.
  induction 1 as [s Hb|A s core r m s' e h _ I Hr E|A s a core any ipc s' e _ I Ha E|A s a core s' e _ I Ha E|A s a core s' e _ I Ha E|
    A s a b s' e _ I Ha E|A s p ok s' e _ I Hp HL E|A s core s1 s2 _ I E1 E2|A s v _ I].
  - by apply inv_boot.
  - destruct (alloc_answered A s core r m I Hr) as (s1 & e1 & h1 & A1 & E1 & Ha & I1). rewrite E in E1. injection E1 as <- <- <-.
    by rewrite <- (after_ok _ _ _ _ _ _ _ _ _ Ha).
  - destruct (free_answered A s I a Ha core any ipc) as (s1 & e1 & E1 & Hc). rewrite E in E1. injection E1 as <- <-.
    destruct Hc as [(-> & I1 & _)|(-> & _ & ->)]; done.
  - destruct (switch_answered A s I a Ha core true) as (s1 & e1 & E1 & Hc). cbv iota in E1. rewrite E in E1. injection E1 as <- <-.
    destruct Hc as [(-> & _ & I1)|(-> & _ & _ & ->)]; done.
  - destruct (switch_answered A s I a Ha core false) as (s1 & e1 & E1 & Hc). cbv iota in E1. rewrite E in E1. injection E1 as <- <-.
    destruct Hc as [(-> & _ & I1)|(-> & _ & _ & ->)]; done.
  - destruct (set_in_iram_ok A s a b I Ha) as [(_ & E1)|(s1 & _ & E1 & _ & I1)]; rewrite E in E1; injection E1 as -> ->; done.
  - destruct (reserve_ok A s p ok I Hp HL) as (s1 & e1 & E1 & I1 & _). rewrite E in E1. by injection E1 as <- <-.
  - destruct (window_ok A s core I) as (t1 & t2 & F1 & F2 & I2 & _). rewrite E1 in F1. injection F1 as <-. rewrite E2 in F2. by injection F2 as <-.
  - by apply (inv_same A s).
Qed.

(** ** What an interrupt runs *)

Section dispatch.
Context {W : Type} (read : W -> Z -> Z) (call : Z -> Z -> W -> W).

(** What taking its line does for an allocation: a shared handler runs if it is
    enabled and its status register, if any, shows one of its bits. *)
Definition run_alloc (w : W) (a : alloc) : W :=
  match a_shared a with
  | None => if a_isr a =? 0 then w else call (a_isr a) (a_arg a) w
  | Some sh =>
      if a_on a && ((sh_reg sh =? 0) || flag (read w (sh_reg sh)) (sh_mask sh)) then call (a_isr a) (a_arg a) w else w
  end.

Lemma call_svds L w : Forall (fun a => is_shared a = true) L -> call_handlers read call (svds L) w = foldl run_alloc w L.
Proof.
  intros HL. revert w. induction HL as [|a L Ha HL IH]; intros w; [done|]. cbn [foldl]. destruct (a_shared a) as [sh|] eqn:E; [|unfold is_shared in Ha; by rewrite E in Ha].
  rewrite (svds_cons_shared a L sh E). cbn. rewrite negb_involutive, IH. unfold run_alloc. rewrite E. by destruct (a_on a), (_ || _).
Qed.

Lemma take_line_ok A s a w : inv A s -> a ∈ A -> take_line read call (a_ptr a).1 (a_ptr a).2 s w = Some (foldl run_alloc w (on_line (a_ptr a) A)).
Proof.
  intros I Ha. destruct (alloc_line A s I a Ha) as [_ _ Ht _ _ _]. rewrite Forall_forall in Ht. unfold take_line. rewrite <- (surjective_pairing (a_ptr a)), (Ht a (alloc_In A a Ha)).
  unfold entry_of, is_shared. destruct (alloc_at A s I a Ha) as (vd & Evd & Hvd & _ & _ & [(En & EL & _)|(_ & (sh & Esh) & HF & _)]).
  - rewrite En, EL. cbn. unfold run_alloc. rewrite En. by destruct (a_isr a =? 0).
  - rewrite Esh. cbn. unfold shared_intr_isr. rewrite Evd, (vo_shared _ _ Hvd), call_svds; [done|]. eapply Forall_impl; [exact HF|]. by intros b [? _].
Qed.
End dispatch.

(** Some handler of the source is enabled on the CPU. *)
Definition source_enabled (c src : Z) (A : list alloc) : bool := existsb (fun b => ((a_ptr b).1 =? c) && (a_source b =? src) && a_on b) A.

Lemma source_enabled_line A s a : inv A s -> a ∈ A -> source_enabled (a_ptr a).1 (a_source a) A = source_on (a_source a) (on_line (a_ptr a) A).
Proof.
  intros I Ha. apply eq_true_iff_eq. rewrite source_on_spec. unfold source_enabled. rewrite existsb_exists. setoid_rewrite <- list_elem_of_In.
  split; intros (b & Hb & E).
  - rewrite !andb_true_iff, !Z.eqb_eq in E. destruct E as [[E1 E2] E3]. exists b. split; [|done]. apply on_line_In. split; [|done]. by apply (inv_source _ _ I).
  - apply on_line_In in Hb as [E1 Hb]. exists b. split; [done|]. destruct E as [-> ->]. by rewrite E1, !Z.eqb_refl.
Qed.

(** C6. In every reachable state an interrupt is delivered to exactly the
    handlers that should get it.  Taking the line of an allocation runs the
    handlers of the line, newest first: an exclusive one, or of the shared ones
    those that are enabled and whose status register shows one of their bits.
    The matrix connects a source to the line of its allocations if one of them
    is enabled and disconnects it otherwise, and the line is enabled on its CPU,
    for an internal source exactly while the allocation is. *)
Theorem intr_delivered {W} (read : W -> Z -> Z) (call : Z -> Z -> W -> W) A s a w : reachable A s -> a ∈ A ->
  take_line read call (a_ptr a).1 (a_ptr a).2 s w = Some (foldl (run_alloc read call) w (on_line (a_ptr a) A)) /\
  (0 < a_source a -> intr_matrix s ((a_ptr a).1, a_source a) =
     if source_enabled (a_ptr a).1 (a_source a) A then (a_ptr a).2 else INT_MUX_DISABLED_INTNO) /\
  Z.testbit (intenable s (a_ptr a).1) (a_ptr a).2 = (0 <? a_source a) || a_on a.
Proof.
  intros Hr Ha. pose proof (reachable_intr A s Hr) as I. split; [by apply take_line_ok|]. destruct (alloc_line A s I a Ha) as [_ _ _ O4 _ O6].
  rewrite Forall_forall in O4, O6. pose proof (alloc_In A a Ha) as Hin. split; [intros Hpos|by apply O6].
  rewrite (source_enabled_line A s a I Ha). by apply O4.
Qed.


(** C18. In every reachable state lines are used exclusively or shared: two
    allocations on one line are both shared, with handlers in the same kind of
    memory; allocations of one source on one CPU are on one line; every
    allocation has its own handle; a reserved line has no allocation; the list
    of vectors is sorted, without duplicates. *)
Theorem lines_exclusive A s : reachable A s ->
  (forall a b, a ∈ A -> b ∈ A -> a <> b -> a_ptr a = a_ptr b -> is_shared a = true /\ is_shared b = true /\ a_iram a = a_iram b) /\
  (forall a b, a ∈ A -> b ∈ A -> (a_ptr a).1 = (a_ptr b).1 -> a_source a = a_source b -> a_ptr a = a_ptr b) /\
  (forall a b, a ∈ A -> b ∈ A -> handle_of a = handle_of b -> a = b) /\
  (forall p vd, deref p s = Some vd -> reserved vd = true -> on_line p A = []) /\
  sorted (vector_desc_head s).
Proof.
  intros Hr. pose proof (reachable_intr A s Hr) as I. split; [|split; [|split; [|split]]].
  - intros a b Ha Hb Hne Ep. assert (b ∈ on_line (a_ptr a) A) as Hin by (by apply on_line_In).
    destruct (alloc_vector A s I a Ha) as (vd & _ & _ & _ & [(_ & EL & _)|(Es & HF & _)]); [rewrite EL in Hin; by apply list_elem_of_singleton in Hin|].
    rewrite Forall_forall in HF. by destruct (HF b Hin) as [? ->].
  - intros a b Ha Hb. by apply (inv_source _ _ I).
  - intros a b. by apply (handle_inj A s).
  - intros p vd E Hres. apply deref_Some in E as Ek. destruct Ek as [Ek Hin]. pose proof (inv_lines _ _ I) as Hl. rewrite Forall_forall in Hl.
    specialize (Hl p). rewrite <- Ek in Hl at 1. pose proof (inv_line _ _ I p (Hl (list_elem_of_fmap_2 _ _ _ Hin))) as [O1 _ _ _ _ _]. rewrite E in O1.
    destruct (on_line p A) as [|a L]; [done|]. destruct (used_as_flags _ _ (vo_flags _ _ O1)) as (_ & _ & _ & Hn). by rewrite Hn in Hres.
  - apply I.
Qed.

(** C23. In every reachable state a call with the handle of an allocation returns,
    and does what it should: enabling and disabling switch the allocation,
    unless it is of an internal source and the call is made on another CPU,
    which is refused without effect; freeing on any CPU removes it, unless the
    call to the other CPU fails, and disconnects its source if no other handler
    of it is enabled; it is marked as being in IRAM or not, unless it is shared,
    which is refused without effect. *)
Theorem handle_calls_answered A s a core any ipc b : reachable A s -> a ∈ A ->
  (exists s' e, (if b : bool then esp_intr_enable else esp_intr_disable) core (Some (handle_of a)) s = Some (s', e) /\
     (e = ESP_OK /\ (0 < a_source a \/ core = (a_ptr a).1) /\ reachable (switch (handle_of a) b A) s' \/
      e = ESP_ERR_INVALID_ARG /\ a_source a < 0 /\ core <> (a_ptr a).1 /\ s' = s)) /\
  (exists s' e, esp_intr_free core any ipc (Some (handle_of a)) s = Some (s', e) /\
     (e = ESP_OK /\ reachable (remove (handle_of a) A) s' /\
      (0 < a_source a -> source_enabled (a_ptr a).1 (a_source a) (remove (handle_of a) A) = false ->
       intr_matrix s' ((a_ptr a).1, a_source a) = INT_MUX_DISABLED_INTNO) \/
      e = ESP_FAIL /\ ipc <> ESP_OK /\ s' = s)) /\
  (exists s' e, esp_intr_set_in_iram (Some (handle_of a)) b s = Some (s', e) /\
     (e = ESP_OK /\ is_shared a = false /\ reachable (change (handle_of a) (moved b) A) s' \/
      e = ESP_ERR_INVALID_ARG /\ is_shared a = true /\ s' = s)).
Proof.
  intros Hr Ha. pose proof (reachable_intr A s Hr) as I. split; [|split].
  - destruct (switch_answered A s I a Ha core b) as (s' & e & E & Hc). exists s', e. split; [done|]. destruct Hc as [(-> & Hc & _)|Hc]; [left|by right].
    split; [done|]. split; [done|]. destruct b; [apply (reach_enable A s a core s' ESP_OK Hr Ha E)|apply (reach_disable A s a core s' ESP_OK Hr Ha E)].
  - destruct (free_answered A s I a Ha core any ipc) as (s' & e & E & Hc). exists s', e. split; [done|]. destruct Hc as [(-> & _ & _ & Hm)|Hc]; [left|by right].
    split; [done|]. split; [apply (reach_free A s a core any ipc s' ESP_OK Hr Ha E)|]. intros Hpos Hoff. rewrite (Hm Hpos).
    destruct (source_on _ _) eqn:Eon; [|done]. apply source_on_spec in Eon as (c & Hc & E1 & E2). apply on_line_In in Hc as [E3 Hc].
    apply not_true_iff_false in Hoff. destruct Hoff. unfold source_enabled. apply existsb_exists. exists c. split; [by apply list_elem_of_In|]. by rewrite E1, E2, E3, !Z.eqb_refl.
  - destruct (set_in_iram_ok A s a b I Ha) as [(Es & E)|(s' & Es & E & _)]; [exists s, ESP_ERR_INVALID_ARG; split; [done|by right]|].
    exists s', ESP_OK. split; [done|]. left. split; [done|]. split; [done|]. apply (reach_iram A s a b s' ESP_OK Hr Ha E).
Qed.

(** C22. While the cache is disabled only interrupts in IRAM are enabled: in every
    reachable state [esp_intr_noniram_disable] leaves of the allocated lines of
    its CPU exactly those enabled that were and whose handlers are in IRAM, and
    touches no other CPU; a second call aborts; [esp_intr_noniram_enable] brings
    back what was enabled before. *)
Theorem cache_window A s core : reachable A s ->
  exists s1 s2, esp_intr_noniram_disable core s = Some s1 /\ esp_intr_noniram_enable core s1 = Some s2 /\ reachable A s2 /\
    (forall a, a ∈ A -> Z.testbit (intenable s1 (a_ptr a).1) (a_ptr a).2 =
       Z.testbit (intenable s (a_ptr a).1) (a_ptr a).2 && (a_iram a || negb ((a_ptr a).1 =? core))) /\
    esp_intr_noniram_disable core s1 = None /\ forall c, intenable s2 c = intenable s c.
Proof.
  intros Hr. pose proof (reachable_intr A s Hr) as I. destruct (window_ok A s core I) as (s1 & s2 & E1 & E2 & _ & Em & Eb & Eo & En).
  exists s1, s2. split; [done|]. split; [done|]. split; [by apply (reach_window A s core s1 s2)|]. split; [|done]. intros a Ha.
  destruct (Z.eqb_spec (a_ptr a).1 core) as [Ec|Ec]; [|by rewrite Eo, orb_true_r, andb_true_r]. cbn [negb]. rewrite orb_false_r, Ec, Em, Z.land_spec, Z.lnot_spec by (by apply (line_index A s)).
  f_equal. rewrite <- Ec. rewrite (lo_mask _ _ _ (alloc_line A s I a Ha)).
  assert (Forall (fun c => a_iram c = a_iram a) (on_line (a_ptr a) A)) as HF.
  { destruct (alloc_vector A s I a Ha) as (vd & _ & _ & _ & [(_ & EL & _)|(_ & HF & _)]); [rewrite EL; by constructor|]. eapply Forall_impl; [exact HF|]. by intros c [_ ?]. }
  rewrite (same_memory _ _ HF). pose proof (alloc_In A a Ha) as Hin. case_bool_decide as EL; [rewrite EL in Hin; by apply elem_of_nil in Hin|]. by destruct (a_iram a).
Qed.
