(* ===== verification/IntrRuns.v ===== *)
(** * Runs of the interrupt allocator

    A few requests on two CPUs: witnesses of the theorems of [IntrProps], and
    the calls with which the allocator does not do what it documents. *)

From stdpp Require Import functions sorting.
From S2P Require Import Prelude EspErr Image IntrAlloc IntrInv IntrChoice IntrOps IntrLife IntrProps.

Definition boot_state : intr_state :=
  MkIntr [] (fun _ => 0) (fun _ => 0) (fun _ => false) (MkRtc 0 0 (-1) [] None 0) (fun _ => xt_unhandled_interrupt) (fun _ => 16) (fun _ => 0).

Lemma boot_ok : boot boot_state.
Proof. done. Qed.

(** Two handlers share a line of CPU 0 with different sources, the second with a
    status register; a third source has a line for itself. *)
Definition mem_at (x : Z) : mallocs := MkMallocs true true (Some x).
Definition request_1 : request := MkRequest 80 (Z.lor ESP_INTR_FLAG_SHARED ESP_INTR_FLAG_IRAM) 0 0 0x40380000 1 None.
Definition request_2 : request := MkRequest 81 (Z.lor ESP_INTR_FLAG_SHARED ESP_INTR_FLAG_IRAM) 0x60000000 4 0x40380010 2 None.
Definition request_3 : request := MkRequest 20 0 0 0 0x42000000 3 None.

Definition alloc_state (core : Z) (r : request) (m : mallocs) (s : intr_state) : intr_state :=
  match esp_intr_alloc_intrstatus_bind core r m s with Some (s, _) => s | None => s end.
Definition alloc_result (core : Z) (r : request) (m : mallocs) (s : intr_state) : option (esp_err_t * option intr_handle) :=
  snd <$> esp_intr_alloc_intrstatus_bind core r m s.

Lemma alloc_split core r m s e h : alloc_result core r m s = Some (e, h) ->
  esp_intr_alloc_intrstatus_bind core r m s = Some (alloc_state core r m s, (e, h)).
Proof. unfold alloc_result, alloc_state. destruct (esp_intr_alloc_intrstatus_bind core r m s) as [[s' [e' h']]|]; [|done]. cbn. by intros [= -> ->]. Qed.

Definition state_1 := alloc_state 0 request_1 (mem_at 100) boot_state.
Definition state_2 := alloc_state 0 request_2 (mem_at 200) state_1.
Definition state_3 := alloc_state 0 request_3 (mem_at 300) state_2.
Definition alloc_1 := allocated 0 1 request_1 (mem_at 100).
Definition alloc_2 := allocated 0 1 request_2 (mem_at 200).
Definition alloc_3 := allocated 0 2 request_3 (mem_at 300).

Lemma legal_run A core r m : valid_core core -> valid_source (rq_source r) -> shared_handle r = None ->
  (match sh_vec m with Some x => bool_decide (x ∉ addresses A) | None => true end) = true -> (length A < 100)%nat -> legal_request A core r m.
Proof.
  intros Hc Hs Hh Hx Hl. split; [done|done|by rewrite Hh| |unfold INT_MAX; lia]. intros x E. rewrite E in Hx. by apply bool_decide_eq_true in Hx.
Qed.

Lemma reach_1 : reachable [alloc_1] state_1.
Proof.
  apply (reach_alloc [] boot_state 0 request_1 (mem_at 100) state_1 ESP_OK (Some (handle_of alloc_1))); [apply reach_boot, boot_ok| |apply alloc_split; by vm_compute].
  apply legal_run; try done; [by left|cbn; lia].
Qed.

Lemma reach_2 : reachable [alloc_2; alloc_1] state_2.
Proof.
  apply (reach_alloc [alloc_1] state_1 0 request_2 (mem_at 200) state_2 ESP_OK (Some (handle_of alloc_2))); [apply reach_1| |apply alloc_split; by vm_compute].
  apply legal_run; try done; [by left|cbn; lia].
Qed.

Lemma reach_3 : reachable [alloc_3; alloc_2; alloc_1] state_3.
Proof.
  apply (reach_alloc [alloc_2; alloc_1] state_2 0 request_3 (mem_at 300) state_3 ESP_OK (Some (handle_of alloc_3))); [apply reach_2| |apply alloc_split; by vm_compute].
  apply legal_run; try done; [by left|cbn; lia].
Qed.

(** Handlers write their argument down; the status register shows bit 2 until a
    handler ran. *)
Definition call_log (f a : Z) (w : list Z) : list Z := w ++ [a].
Definition read_status (w : list Z) (reg : Z) : Z := if bool_decide (w = []) then 4 else 0.

Lemma intr_delivered_witness : reachable [alloc_3; alloc_2; alloc_1] state_3 /\
  take_line read_status call_log 0 1 state_3 [] = Some [2; 1] /\ intr_matrix state_3 (0, 81) = 1.
Proof.
  pose proof (intr_delivered read_status call_log _ _ alloc_2 [] reach_3 ltac:(right; by left)) as (H1 & H2 & _).
  split; [apply reach_3|]. split; [exact H1|]. apply H2. reflexivity.
Defined.


Lemma lines_exclusive_witness : reachable [alloc_3; alloc_2; alloc_1] state_3 /\ is_shared alloc_1 = true /\ sorted (vector_desc_head state_3).
Proof.
  pose proof (lines_exclusive _ _ reach_3) as (H1 & _ & _ & _ & H5). split; [apply reach_3|]. split; [|exact H5].
  apply (H1 alloc_1 alloc_2); [right; right; by left|right; by left|discriminate|reflexivity].
Defined.

Lemma handle_calls_witness : exists s' e, esp_intr_free 1 false ESP_OK (Some (handle_of alloc_2)) state_3 = Some (s', e) /\
  (e = ESP_OK \/ e = ESP_FAIL) /\ reachable [alloc_3; alloc_2; alloc_1] state_3.
Proof.
  pose proof (handle_calls_answered _ _ alloc_2 1 false ESP_OK true reach_3 ltac:(right; by left)) as (_ & (s' & e & E & H) & _).
  exists s', e. split; [exact E|]. split; [|apply reach_3]. destruct H as [(-> & _)|(-> & _)]; [by left|by right].
Defined.

Lemma cache_window_witness : reachable [alloc_3; alloc_2; alloc_1] state_3 /\ exists s1, esp_intr_noniram_disable 0 state_3 = Some s1 /\
  Z.testbit (intenable s1 0) 1 = true /\ Z.testbit (intenable s1 0) 2 = false.
Proof.
  pose proof (cache_window _ _ 0 reach_3) as (s1 & s2 & E & _ & _ & H & _). split; [apply reach_3|]. exists s1. split; [exact E|].
  split; [exact (H alloc_1 ltac:(right; right; by left))|exact (H alloc_3 ltac:(by left))].
Defined.

(** ** Where the allocator does not do what it says *)

(** After [esp_intr_mark_shared] of a free line every allocation on that CPU
    fails an assertion, since the list of the shared vector is empty. *)
Example mark_shared_crash :
  let s := (esp_intr_mark_shared 1 0 false true boot_state).1 in
  (esp_intr_mark_shared 1 0 false true boot_state).2 = ESP_OK /\ esp_intr_alloc 0 20 0 0x42000000 0 (mem_at 100) s = None.
Proof. by vm_compute. Qed.

(** A reserved line blocks source 0: its new vector has source 0 and is found for
    it, although other lines are free. *)
Example reserve_blocks_source_0 :
  let s := (esp_intr_reserve 5 0 true boot_state).1 in
  alloc_result 0 (MkRequest 0 0 0 0 0x42000000 0 None) (mem_at 100) boot_state = Some (ESP_OK, Some (MkHandle (Some (0, 1)) None)) /\
  alloc_result 0 (MkRequest 0 0 0 0 0x42000000 0 None) (mem_at 100) s = Some (ESP_ERR_NOT_FOUND, None) /\
  alloc_result 0 (MkRequest 20 0 0 0 0x42000000 0 None) (mem_at 100) s = Some (ESP_OK, Some (MkHandle (Some (0, 1)) None)).
Proof. by vm_compute. Qed.

(** A request on CPU 0 that is bound to a handle of CPU 1 enters its handler into
    the table of CPU 0, over the handler of another allocation. *)
Example bind_replaces_handler :
  let s := alloc_state 1 request_3 (mem_at 100) boot_state in
  let s := alloc_state 1 request_1 (mem_at 200) s in
  let s := alloc_state 0 request_3 (mem_at 300) s in
  let bound := MkRequest 82 (Z.lor ESP_INTR_FLAG_SHARED ESP_INTR_FLAG_IRAM) 0 0 0x40380020 5 (Some (MkHandle (Some (1, 1)) (Some 200))) in
  interrupt_table s (0, 1) = intr_handler 0x42000000 3 /\
  alloc_result 0 bound (mem_at 400) s = Some (ESP_OK, Some (MkHandle (Some (1, 1)) (Some 400))) /\
  interrupt_table (alloc_state 0 bound (mem_at 400) s) (0, 1) = shared_intr_handler (1, 1).
Proof. by vm_compute. Qed.

(** A negative line is not refused, and reserves line 31. *)
Example negative_line_reserved :
  let s := (esp_intr_reserve (-1) 0 true boot_state).1 in
  (esp_intr_reserve (-1) 0 true boot_state).2 = ESP_OK /\ (reserved <$> deref (0, 31) s) = Some true.
Proof. by vm_compute. Qed.

(** Two handlers of the RTC interrupt in IRAM for one bit: deregistering one
    takes the bit from the other while the cache is disabled. *)
Example rtc_bit_lost :
  let r1 := default boot_state (fst <$> rtc_isr_register 0 0x40380000 (mem_at 100) 0x40380100 0 1 RTC_INTR_FLAG_IRAM true boot_state) in
  let r2 := default boot_state (fst <$> rtc_isr_register 0 0x40380000 (mem_at 200) 0x40380200 0 1 RTC_INTR_FLAG_IRAM true r1) in
  let s := (rtc_isr_deregister 0x40380200 0 r2).1 in
  rtc_intr_cache (rtc r2) = 1 /\ rtc_isr_handler_list (rtc s) = [MkRtcHandler 1 0x40380100 0 RTC_INTR_FLAG_IRAM] /\ rtc_intr_cache (rtc s) = 0.
Proof. by vm_compute. Qed.
